(* ===== verification/_CoqProject ===== *)
-Q . S2P
Prelude.v
Verdict.v
Endian.v
Uint256.v
ArithUint256.v
BlockHash.v
Sha256.v
Sha1.v
Ripemd160.v
Hash.v
Sha256D64.v
ScriptNum.v
Opcode.v
Script.v
Serialize.v
Amount.v
Transaction.v
Pubkey.v
Interpreter.v
EvalSafety.v
EvalRun.v
Der.v
Spending.v
Multisig.v
SigHash.v
Finality.v
Interest.v
Subsidy.v
Block.v
Merkle.v
Chain.v
Standard.v
Compressor.v
Coins.v
CoinsLaws.v
UpdateCoins.v
CoinsFormat.v
ConnectBlock.v
ConnectLaws.v
KomodoEvents.v
Checkpoints.v
NotaryKeys.v
NotaryTable.v
KomodoState.v
Notary.v
NotarySign.v
Notarisation.v
Restart.v
Pow.v
PowNotary.v
Upgrades.v
CheckTx.v
Headers.v
CheckBlock.v
BlockLaws.v
TextCodec.v
AmountText.v
Base58.v
Bech32.v
