(* ===== verification/Prelude.v ===== *)
(** * KmdClassic in Rocq: consensus data, scripts, chain state and KMD rules

    This library models the consensus core of the KmdClassic node ([src/src/]): the byte formats,
    the hashes and numbers they are made of, the script interpreter, transactions and blocks, the
    block index, and the rules that are KMD's own.  It follows the C++: a definition has the name of
    the function or type it translates, takes the state as an argument and returns the new state.
    The theorems say what each part promises.  This file is the prelude (machine integers, bytes,
    digits and the tactics that all the others share); the others come in this order.

    ** The files and what they model

    - [Endian]: [crypto/common.h], the fixed-width readers and writers.
    - [Uint256], [ArithUint256]: [uint256.h/.cpp] (blobs of bytes, least significant first, and their
      hexadecimal text) and [arith_uint256.h/.cpp] (numbers as lists of 32-bit words, least
      significant first, every operator with its carries; compact targets).
    - [BlockHash], [Sha256], [Sha1], [Ripemd160], [Hash]: [crypto/*.cpp] and [hash.h/.cpp].  [BlockHash]
      is the class of buffered Merkle-Damgard hashers; a hasher object is the record [hasher].
    - [ScriptNum], [Opcode], [Script]: [script/script.h/.cpp].  A [CScript] is its list of bytes.  An
      iterator is the suffix it points to, so [GetOp2] returns what is left.
    - [Serialize]: [serialize.h].  A writer returns bytes; a reader is a function from the bytes of a
      stream to [option (value * rest)], where [None] is an exception.
    - [Amount], [Transaction]: [amount.h/.cpp], [primitives/transaction.h/.cpp].
    - [Pubkey]: [pubkey.h/.cpp]; the curve library is the class [Secp256k1], what the node relies on
      the class [Secp256k1Laws], with a toy instance.
    - [Interpreter]: [script/interpreter.cpp], [EvalScript] and [VerifyScript], opcode by opcode, in a
      small monad with the four ways a statement ends (value, [return], exception, failed assertion).
      [EvalSafety], [EvalRun], [Der], [Spending], [Multisig] are the theory of it: safety of every
      handler, runs of known scripts, the DER check, the spending conditions of the usual outputs,
      CHECKMULTISIG against a declarative matching.
    - [SigHash]: [SignatureHash] and [TransactionSignatureChecker] ([script/interpreter.cpp],
      [script/cc.cpp]); BLAKE2b and the condition library are arguments.  It instantiates the record
      [checker] that [Interpreter] is parametric in.
    - [Finality], [Interest], [Subsidy]: the functions of [main.cpp], [komodo_interest.cpp],
      [komodo_utils.cpp] and [komodo_bitcoind.cpp] on lock times and expiry, on the interest of KMD
      outputs, and on the subsidy and commission of blocks.
    - [Block]: [primitives/block.h/.cpp], headers, blocks, Merkle trees and branches.
    - [Chain]: [chain.h/.cpp] with [AddToBlockIndex] and [FindForkInGlobalIndex] of [main.cpp] and
      [GetBlockProof] of [pow.cpp].  The heap of [CBlockIndex] objects is a list, a pointer is an
      index into it, [mapBlockIndex] maps hashes to pointers; the active chain is a list of pointers.
    - [Standard]: [script/standard.h/.cpp], the templates of outputs and their destinations.
    - [Coins], [CoinsLaws]: [coins.h/.cpp] and the coin part of [txdb.cpp].  [CoinsView] is the class of a
      view of the unspent outputs, anchors and nullifiers; [CCoinsViewCache] is the cache over any view,
      [CCoinsViewDB] the database.  A method that only asks still fills caches, so all return the new
      state.  [CoinsLaws] has the abstract set [UTXO] and the contract [CoinsViewLaws], kept by both.
    - [UpdateCoins], [ConnectBlock], [ConnectLaws]: [UpdateCoins], [ApplyTxInUndo], [DisconnectBlock],
      [CheckTxInputs], [ContextualCheckInputs] and [ConnectBlock] of [main.cpp], with [undo.h] and the
      tombstones of [importcoin.cpp], on a cache over any view; the results of the rest of the node
      are the record [rules].
    - [Compressor], [CoinsFormat]: [compressor.h/.cpp], and the formats of coins and undo data of
      [coins.h] and [undo.h], over [VARINT] of [serialize.h].
    - [KomodoEvents], [KomodoState]: [komodo_structs.h/.cpp], [komodo_events.cpp] and [komodo.cpp], the
      records of the state file, reading and writing it, the handlers of events and their rewinding.
    - [Checkpoints]: the list of notarisations of [komodo_structs.cpp] with its cached search, and
      [komodo_notarized_update] of [komodo_notary.cpp].
    - [NotaryKeys], [NotaryTable], [Notary], [NotarySign], [Notarisation]: the keys of
      [komodo_hardfork.cpp], with [decode_hex] of [hex.c]; [komodo_notary.cpp] and
      [notaries_staked.cpp], who is a notary when; what a notary's output and
      signature is; [komodo_connectblock] and [komodo_voutupdate] of [komodo.cpp].
    - [Restart]: a theory of runs: any sequence of calls of [komodo_connectblock] between two starts
      of the node, against the state file they leave.
    - [Pow], [PowNotary]: [pow.cpp], the work required and the rule on the hash of a block, with the
      notaries' easy turns ([komodo_bitcoind.cpp], [komodo_notary.cpp]).
    - [Upgrades], [CheckTx]: [consensus/upgrades.cpp] and the checks of a transaction without coins.
    - [Sha256D64], [Merkle]: [SHA256D64] of [crypto/sha256.cpp] and [consensus/merkle.cpp].  The vector
      transforms are arguments of [SHA256D64] with a law; [Merkle] uses the standard ones.
    - [Verdict]: [CValidationState] of [consensus/validation.h], as a monad with the ways a check ends.
    - [Headers], [CheckBlock], [BlockLaws]: [AcceptBlockHeader] and the processing of a message of
      headers, [CheckBlock], [ContextualCheckBlock] and [komodo_check_deposit], and what they give
      together.
    - [TextCodec], [AmountText], [Base58], [Bech32]: [utilstrencodings.h/.cpp], [utilmoneystr.cpp],
      [base58.h/.cpp], [bech32.cpp].  A text is the list of its bytes.

    ** How the parts meet

    The layers call each other as in the C++: scripts use [Opcode] and [ScriptNum]; the readers of
    [Transaction] and [Block] are those of [Serialize]; [Interpreter] is proved for any checker and
    [SigHash] supplies the one for transactions; [Finality] joins the lock time of a transaction with
    CHECKLOCKTIMEVERIFY; [Chain] stores headers of [Block] and sums work in [ArithUint256].
    [UpdateCoins], [ConnectBlock] and [ConnectLaws] are written against the class [CoinsView] and its
    laws, so they hold for a cache over a cache over the database.  [CheckBlock] calls [CheckTx],
    [Merkle] and [PowNotary]; [Headers] joins [Chain] with [Checkpoints]; [Notarisation] runs the
    handlers of [KomodoState] for the outputs of a block and their rewinding, [KomodoState] reads and
    writes the records of [KomodoEvents] and keeps [Checkpoints] and [NotaryTable].

    ** What the theorems show

    - Formats: round trips of the readers and writers, with the converse (accepted bytes are the
      canonical ones) where the code has it and a counterexample where it has not.
    - Arithmetic: the 256-bit operators are arithmetic modulo 2^256; compact targets decode and encode
      exactly; script numbers are a bijection with the minimal encodings.
    - Hashes: the streaming hashers do not depend on how the writes are cut.
    - Scripts: [EvalScript] terminates and never trips an assertion or reads outside the stack;
      [VerifyScript] likewise; what it takes to spend the usual outputs, in both directions.
    - Signatures: the signature hash commits to the transaction, or BLAKE2b is broken on the given
      queries; the checker never throws.
    - Blocks: Merkle roots commit to their leaves and branches prove them, or two listed inputs of
      the hash collide.
    - Chain: the index invariant is kept by every insertion, and the searches (ancestor, fork,
      locator, median time) compute their specification on every well-formed index.
    - KMD rules: bounds and formula of the interest, the subsidy cache, the lock times.
    - Coins: the database and a cache over any view keep the contract of a view, so stacks of caches of any
      height do; a flush commits exactly the changes; connecting a transaction or a block does to the
      abstract set what its text says, creates no value, and disconnecting is its exact inverse.
    - Stored coins: whatever coins connecting and restoring can make are written and read back; the
      compressed forms of scripts and amounts are exact on their ranges.
    - Notaries: a restart rebuilds from the state file what a run of blocks has recorded (events,
      checkpoints, saved height, keys, calls of [komodo_kvupdate], and the last notarisation outside
      regtest); loading ends on any bytes; notarisations only move forward, through rewinds too, outside
      regtest; the cached search finds the newest one below a height when heights ascend (and a
      counterexample when they do not); whose turn it is after a gap comes.
    - Acceptance: the exact conditions of [CheckTransaction] and of the rule on work; no header at or
      below the last notarisation enters the index; a block hash commits to the transactions of an
      accepted block, and a coinbase to its height, or listed inputs of a hash collide.
    - Texts: the conversions are inverse to each other on what they accept; the checksum of Bech32
      finds the errors its design promises within the stated windows; amounts are parsed exactly but in
      the case of eleven digits, whose results are stated.

    ** Conventions

    Machine integers are [Z], with [uwrap w]/[swrap w] where C++ converts; bytes are [Z] in
    [0, 255] ([is_byte]).  An undefined or aborting execution is [None] (or a constructor of the result
    type), never a default value; the theorems say when it does not occur.  Loops that are not
    structural take fuel: the length of what they consume plus one (scripts, byte streams), the height
    of the block plus a constant (chain walks), 256 (the bits of a number).  The theorems show that
    the fuel is enough: they state that a result is produced, never only what it is if one is.

    ** Not modelled

    The network, wallet, RPC, GUI, start-up and logging code is input and output around this core.
    The zero-knowledge proving systems, Equihash, BLAKE2b, secp256k1, the crypto-condition C library
    and LevelDB are libraries, parameters where the core calls them.  Of [main.cpp] only the functions
    named above are here: the choice of the best chain, the memory pool, the files of blocks and the
    indexes are not.  [bloom.cpp], [merkleblock.cpp], [versionbits.cpp], the incremental tree of notes (the
    class [CommitmentTree], whose [append] may throw) and the addresses of [key_io.cpp] are not either.  The clock and the lookups of past transactions
    are arguments.  The vector versions of SHA-256 ([crypto/sha256_*.cpp], intrinsics and assembly) are not
    modelled: the hashers use the scalar [Transform].  What the node asks of the state of other parts in [ConnectBlock] is the record
    [rules].  Staking, crypto-condition modules, commissions and the
    payment of notaries belong to asset chains and are left out of [CheckBlock].
*)
From Stdlib Require Export ZArith Lia Bool.
From stdpp Require Export base tactics list numbers option.

#[global] Open Scope Z_scope.

(** ** Machine integers *)

(** [uwrap w z]: the value of [z] converted to an unsigned [w]-bit integer. *)
Definition uwrap (w z : Z) : Z := z mod 2 ^ w.

(** [swrap w z]: the value of [z] converted to a two's complement [w]-bit integer. *)
Definition swrap (w z : Z) : Z := (z + 2 ^ (w - 1)) mod 2 ^ w - 2 ^ (w - 1).

Abbreviation u8 := (uwrap 8).
Abbreviation u16 := (uwrap 16).
Abbreviation u32 := (uwrap 32).
Abbreviation u64 := (uwrap 64).
Abbreviation i32 := (swrap 32).
Abbreviation i64 := (swrap 64).

Abbreviation INT32_MAX := 2147483647.
Abbreviation INT32_MIN := (-2147483648).
Abbreviation INT64_MAX := 9223372036854775807.
Abbreviation INT64_MIN := (-9223372036854775808).
Abbreviation UINT32_MAX := 4294967295.

Lemma uwrap_bound w z : 0 <= w -> 0 <= uwrap w z < 2 ^ w.
Proof. intros Hw. apply Z.mod_pos_bound, Z.pow_pos_nonneg; lia. Qed.

Lemma uwrap_small w z : 0 <= z < 2 ^ w -> uwrap w z = z.
Proof. intros H. by apply Z.mod_small. Qed.

Lemma swrap_small w z : 0 < w -> - 2 ^ (w - 1) <= z < 2 ^ (w - 1) -> swrap w z = z.
Proof.
  intros Hw H. unfold swrap.
  assert (2 ^ w = 2 * 2 ^ (w - 1)) as E.
  { rewrite <- Z.pow_succ_r by lia. f_equal. lia. }
  rewrite Z.mod_small by lia. lia.
Qed.

Lemma swrap_bound w z : 0 < w -> - 2 ^ (w - 1) <= swrap w z < 2 ^ (w - 1).
Proof.
  intros Hw. unfold swrap.
  assert (2 ^ w = 2 * 2 ^ (w - 1)) as E.
  { rewrite <- Z.pow_succ_r by lia. f_equal. lia. }
  pose proof (Z.mod_pos_bound (z + 2 ^ (w - 1)) (2 ^ w)).
  assert (0 < 2 ^ (w - 1)) by (apply Z.pow_pos_nonneg; lia). lia.
Qed.

Lemma uwrap_testbit w z i : 0 <= w -> 0 <= i ->
  Z.testbit (uwrap w z) i = (i <? w) && Z.testbit z i.
Proof.
  intros Hw Hi. unfold uwrap. destruct (Z.ltb_spec i w).
  - rewrite Z.mod_pow2_bits_low by lia. done.
  - rewrite Z.mod_pow2_bits_high by lia. done.
Qed.

(** ** Boolean reflection *)

(** Turn boolean tests on integers, and their connectives, into propositions. *)
Ltac propify :=
  repeat match goal with
  | H : _ && _ = true |- _ => apply andb_true_iff in H as [? ?]
  | H : _ || _ = false |- _ => apply orb_false_iff in H as [? ?]
  | H : negb _ = true |- _ => apply negb_true_iff in H
  | H : negb _ = false |- _ => apply negb_false_iff in H
  | H : (_ =? _) = true |- _ => apply Z.eqb_eq in H
  | H : (_ =? _) = false |- _ => apply Z.eqb_neq in H
  | H : (_ <? _) = true |- _ => apply Z.ltb_lt in H
  | H : (_ <? _) = false |- _ => apply Z.ltb_ge in H
  | H : (_ <=? _) = true |- _ => apply Z.leb_le in H
  | H : (_ <=? _) = false |- _ => apply Z.leb_gt in H
  | H : (_ >? _) = _ |- _ => rewrite Z.gtb_ltb in H
  | H : (_ >=? _) = _ |- _ => rewrite Z.geb_leb in H
  | H : bool_decide _ = true |- _ => apply bool_decide_eq_true in H
  | H : bool_decide _ = false |- _ => apply bool_decide_eq_false in H
  end.

(** Split a conditional of the goal on its integer test. *)
Ltac case_Z :=
  match goal with
  | |- context [?a =? ?b] => destruct (Z.eqb_spec a b)
  | |- context [?a <? ?b] => destruct (Z.ltb_spec a b)
  | |- context [?a <=? ?b] => destruct (Z.leb_spec a b)
  end.

(** ** Bytes *)

Definition is_byte (b : Z) : Prop := 0 <= b < 256.

#[export] Instance is_byte_dec b : Decision (is_byte b).
Proof. unfold is_byte. apply _. Defined.

Definition bytes_ok (l : list Z) : Prop := Forall is_byte l.

#[export] Instance bytes_ok_dec l : Decision (bytes_ok l).
Proof. unfold bytes_ok. apply _. Defined.

(** ** Little-endian digits in base [2 ^ w] *)

Section Digits.
Context (w : Z).

Definition digit_ok (x : Z) : Prop := 0 <= x < 2 ^ w.

Fixpoint le_val (l : list Z) : Z :=
  match l with
  | [] => 0
  | x :: l' => x + 2 ^ w * le_val l'
  end.

Lemma le_val_app l1 l2 :
  0 <= w -> le_val (l1 ++ l2) = le_val l1 + 2 ^ (w * Z.of_nat (length l1)) * le_val l2.
Proof.
  intros Hw. induction l1 as [|x l1 IH]; cbn [le_val app length].
  - rewrite Z.mul_0_r, Z.pow_0_r. lia.
  - rewrite IH, Nat2Z.inj_succ, Z.mul_succ_r, Z.pow_add_r by lia. nia.
Qed.

Lemma le_val_bound l : 0 <= w -> Forall digit_ok l ->
  0 <= le_val l < 2 ^ (w * Z.of_nat (length l)).
Proof.
  intros Hw. induction 1 as [|x l Hx Hl IH]; cbn [le_val length].
  - rewrite Z.mul_0_r. lia.
  - unfold digit_ok in Hx. rewrite Nat2Z.inj_succ, Z.mul_succ_r, Z.pow_add_r by lia. nia.
Qed.

Lemma le_val_inj l1 l2 : 0 <= w -> Forall digit_ok l1 -> Forall digit_ok l2 ->
  length l1 = length l2 -> le_val l1 = le_val l2 -> l1 = l2.
Proof.
  intros Hw H1. revert l2. induction H1 as [|x l1 Hx H1 IH]; intros l2 H2 Hlen Hv.
  - by destruct l2.
  - destruct l2 as [|y l2]; [done|]. inversion H2 as [|? ? Hy H2']; subst.
    cbn [le_val] in Hv. unfold digit_ok in *.
    assert (0 < 2 ^ w) by (apply Z.pow_pos_nonneg; lia).
    assert (le_val l1 = le_val l2) as E by nia.
    f_equal; [nia|]. apply IH; auto.
Qed.

(** Bit [n] of the number is bit [n mod w] of digit [n / w]. *)
Lemma le_val_testbit l n : 0 < w -> 0 <= n -> Forall digit_ok l ->
  Z.testbit (le_val l) n = Z.testbit (nth (Z.to_nat (n / w)) l 0) (n mod w).
Proof.
  intros Hw Hn Hl. revert n Hn. induction Hl as [|x l Hx Hl IH]; intros n Hn; cbn [le_val].
  - rewrite Z.testbit_0_l. destruct (Z.to_nat _); cbn [nth]; by rewrite Z.testbit_0_l.
  - unfold digit_ok in Hx.
    rewrite Z.add_nocarry_lxor, Z.lxor_spec, (Z.mul_comm (2 ^ w)).
    2: { apply Z.bits_inj'. intros i Hi. rewrite Z.land_spec, Z.bits_0, (Z.mul_comm (2 ^ w)).
         destruct (Z.ltb_spec i w).
         - rewrite Z.mul_pow2_bits_low by lia. apply andb_false_r.
         - rewrite <- (Z.mod_small x (2 ^ w)) by lia.
           rewrite Z.mod_pow2_bits_high by lia. done. }
    destruct (Z.ltb_spec n w).
    + rewrite Z.mul_pow2_bits_low, Z.div_small, Z.mod_small, xorb_false_r by lia. done.
    + rewrite <- (Z.mod_small x (2 ^ w)) at 1 by lia.
      rewrite Z.mod_pow2_bits_high, xorb_false_l by lia.
      rewrite Z.mul_pow2_bits by lia.
      rewrite IH by lia.
      replace (n / w) with (1 + (n - w) / w).
      2: { replace n with ((n - w) + 1 * w) at 2 by lia. rewrite Z.div_add by lia. lia. }
      replace (n mod w) with ((n - w) mod w).
      2: { replace n with ((n - w) + 1 * w) at 2 by lia. rewrite Z.mod_add by lia. done. }
      rewrite Z2Nat.inj_add by (try apply Z.div_pos; lia). done.
Qed.

(** The [n] low digits of [x]. *)
Fixpoint to_le (n : nat) (x : Z) : list Z :=
  match n with
  | O => []
  | S n' => x mod 2 ^ w :: to_le n' (x / 2 ^ w)
  end.

Lemma to_le_length n x : length (to_le n x) = n.
Proof. revert x. induction n; intros x; cbn [to_le length]; auto. Qed.

Lemma to_le_ok n x : 0 <= w -> Forall digit_ok (to_le n x).
Proof.
  intros Hw. revert x. induction n; intros x; cbn [to_le]; constructor; auto.
  apply Z.mod_pos_bound, Z.pow_pos_nonneg; lia.
Qed.

(** One digit of a reduction modulo a power of the base. *)
Lemma mod_digit_step x y n : 0 <= w ->
  (x + 2 ^ w * y) mod 2 ^ (w * Z.of_nat (S n)) =
  x mod 2 ^ w + 2 ^ w * ((x / 2 ^ w + y) mod 2 ^ (w * Z.of_nat n)).
Proof.
  intros Hw. rewrite Nat2Z.inj_succ, Z.mul_succ_r, Z.pow_add_r by lia.
  assert (0 < 2 ^ w) by (apply Z.pow_pos_nonneg; lia).
  assert (0 < 2 ^ (w * Z.of_nat n)) by (apply Z.pow_pos_nonneg; lia).
  set (B := 2 ^ w) in *. set (M := 2 ^ (w * Z.of_nat n)) in *.
  pose proof (Z.div_mod x B). pose proof (Z.mod_pos_bound x B).
  pose proof (Z.div_mod (x / B + y) M). pose proof (Z.mod_pos_bound (x / B + y) M).
  symmetry. apply Z.mod_unique_pos with (q := (x / B + y) / M); nia.
Qed.

Lemma le_val_to_le n x : 0 <= w -> le_val (to_le n x) = x mod 2 ^ (w * Z.of_nat n).
Proof.
  intros Hw. revert x. induction n as [|n IH]; intros x; cbn [to_le le_val].
  - rewrite Z.mul_0_r, Z.pow_0_r, Z.mod_1_r. done.
  - rewrite IH.
    assert (0 < 2 ^ w) by (apply Z.pow_pos_nonneg; lia).
    rewrite (Z.div_mod x (2 ^ w)) at 3 by lia.
    rewrite (Z.add_comm (_ * _)), mod_digit_step by lia.
    rewrite Z.mod_mod, Z.mod_div, Z.add_0_l by lia. done.
Qed.

Lemma to_le_le_val l : 0 <= w -> Forall digit_ok l -> to_le (length l) (le_val l) = l.
Proof.
  intros Hw Hl. apply le_val_inj; auto using to_le_ok, to_le_length.
  rewrite le_val_to_le by lia. apply Z.mod_small, le_val_bound; auto.
Qed.
End Digits.

Lemma bytes_ok_digits l : bytes_ok l <-> Forall (digit_ok 8) l.
Proof. reflexivity. Qed.

(** ** Loops over an index range *)

(** Invariant rule for [for (i = 0; i < n; i++)] written as a fold over [seq 0 n]. *)
Lemma fold_seq_ind {A} (P : nat -> A -> Prop) (f : A -> nat -> A) n x :
  P 0%nat x -> (forall i y, (i < n)%nat -> P i y -> P (S i) (f y i)) ->
  P n (fold_left f (seq 0 n) x).
Proof.
  intros H0 Hstep. induction n as [|n IH]; [done|].
  rewrite seq_S, fold_left_app. apply Hstep; [lia|]. apply IH. intros i y Hi. apply Hstep. lia.
Qed.

Lemma nth_insert {A} (l : list A) i j x d : (i < length l)%nat ->
  nth j (<[i:=x]> l) d = if decide (i = j) then x else nth j l d.
Proof.
  intros Hi. rewrite !nth_lookup. case_decide as E.
  - subst. rewrite list_lookup_insert_eq by done. done.
  - rewrite list_lookup_insert_ne by done. done.
Qed.

(** ** Bits of small numbers *)

Lemma small_testbit_high n x i : 0 <= x < 2 ^ n -> 0 <= n <= i -> Z.testbit x i = false.
Proof. intros Hx Hi. rewrite <- (Z.mod_small x (2 ^ n)) by done. apply Z.mod_pow2_bits_high. lia. Qed.

(** A digit and the digits above it. *)
Lemma digit_split b d q : 0 <= d < b -> (d + q * b) mod b = d /\ (d + q * b) / b = q.
Proof. intros H. rewrite Z.mod_add, Z.div_add, Z.mod_small, Z.div_small by lia. lia. Qed.

Lemma mod_pow_mod y n m : 0 <= n <= m -> (y mod 2 ^ m) mod 2 ^ n = y mod 2 ^ n.
Proof.
  intros H. replace m with (n + (m - n)) by lia. rewrite Z.pow_add_r by lia.
  pose proof (Z.pow_pos_nonneg 2 n ltac:(lia) ltac:(lia)). pose proof (Z.pow_pos_nonneg 2 (m - n) ltac:(lia) ltac:(lia)).
  rewrite Z.rem_mul_r by lia. rewrite Z.mul_comm, Z.mod_add, Z.mod_mod by lia. done.
Qed.

(** Numbers with disjoint bits: [lor] is addition. *)
Lemma lor_add x y n : 0 <= n -> 0 <= x < 2 ^ n -> Z.lor x (y * 2 ^ n) = x + y * 2 ^ n.
Proof.
  intros Hn Hx. assert (Z.land x (y * 2 ^ n) = 0) as Hz.
  { apply Z.bits_inj'. intros i Hi. rewrite Z.land_spec, Z.bits_0.
    destruct (Z.ltb_spec i n); [by rewrite Z.mul_pow2_bits_low, andb_false_r by lia|].
    by rewrite (small_testbit_high n x) by lia. }
  by rewrite Z.add_nocarry_lxor, Z.lxor_lor.
Qed.

Lemma flat_map_length_const {A B} (f : A -> list B) (k : nat) l (n : nat) :
  (forall x, length (f x) = k) -> length l = n -> length (flat_map f l) = (k * n)%nat.
Proof.
  intros Hf <-. induction l as [|x l IH]; cbn [flat_map length]; [lia|].
  rewrite length_app, Hf, IH. lia.
Qed.

Lemma flat_map_bytes_ok {A} (f : A -> list Z) l :
  (forall x, bytes_ok (f x)) -> bytes_ok (flat_map f l).
Proof.
  intros Hf. induction l as [|x l IH]; cbn [flat_map]; [by constructor|].
  apply Forall_app. split; [apply Hf | apply IH].
Qed.
