(* ===== verification/Verdict.v ===== *)
(** * Verdict: the outcome of a check of [src/src/main.cpp]
    The checks of headers, blocks and transactions return a [bool] and report through
    [CValidationState]; this is their monad, shared by [CheckTx], [Headers] and [CheckBlock]. *)
From Stdlib Require Import String.
From S2P Require Import Prelude.

(** A check returns [true] with a value, calls [state.DoS] and returns [false], returns [false] with
    no call, or is undefined (an exception, a failed assertion, a read outside an array). *)
Inductive checked (A : Type) :=
  | Pass (a : A) | DoS (level : Z) (reason : string) | ReturnFalse | Undefined.
Arguments Pass {A} _.
Arguments DoS {A} _ _.
Arguments ReturnFalse {A}.
Arguments Undefined {A}.

Definition cbind {A B} (m : checked A) (f : A -> checked B) : checked B :=
  match m with
  | Pass a => f a
  | DoS l r => DoS l r
  | ReturnFalse => ReturnFalse
  | Undefined => Undefined
  end.

Definition reject_if (b : bool) (level : Z) (reason : string) : checked unit :=
  if b then DoS level reason else Pass tt.
Definition defined {A} (o : option A) : checked A := match o with Some a => Pass a | None => Undefined end.

Notation "'do' x '<-' m ';' k" := (cbind m (fun x => k)) (at level 10, x name, m at level 100, k at level 200).
Notation "'reject' b 'with' l r ';' k" := (cbind (reject_if b l r) (fun _ => k))
  (at level 10, b at level 100, l at level 0, r at level 0, k at level 200).

(** A loop with an accumulator. *)
Fixpoint each {A B} (f : B -> A -> checked B) (l : list A) (b : B) : checked B :=
  match l with [] => Pass b | a :: l' => do b' <- f b a; each f l' b' end.

Lemma cbind_pass {A B} (m : checked A) (f : A -> checked B) b :
  cbind m f = Pass b <-> exists a, m = Pass a /\ f a = Pass b.
Proof.
  destruct m as [a| | |]; cbn; [|split; [done|by intros (? & ? & _)]..].
  split; [by exists a|]. by intros (a' & [= <-] & ?).
Qed.

Lemma reject_if_pass b l r u : reject_if b l r = Pass u <-> b = false.
Proof. destruct b, u; cbn; split; done. Qed.

Lemma reject_bind {A} b l r (k : unit -> checked A) a :
  cbind (reject_if b l r) k = Pass a <-> b = false /\ k tt = Pass a.
Proof. destruct b; cbn; split; try done; by intros [? ?]. Qed.

(** A loop without an accumulator. *)
Lemma each_all {A} (f : A -> checked unit) l :
  each (fun _ a => f a) l tt = Pass tt <-> Forall (fun a => f a = Pass tt) l.
Proof.
  induction l as [|a l IH]; cbn [each]; [by split|]. rewrite cbind_pass. split.
  - intros ([] & Ha & Hl). constructor; [done|by apply IH].
  - intros Hl. apply Forall_cons_iff in Hl as [Ha Hl]. exists tt. split; [done|by apply IH].
Qed.
