(* ===== verification/Endian.v ===== *)
(** * Endian: fixed-width reads and writes of [src/src/crypto/common.h]

    The C++ functions copy a machine word to or from memory and convert between host and
    little- or big-endian order.  A buffer is a list of bytes; the pointer arguments are the
    bytes at the pointer (a caller passes at least as many bytes as are read). *)
From S2P Require Import Prelude.

Definition ReadLE16 (ptr : list Z) : Z := le_val 8 (take 2 ptr).
Definition ReadLE32 (ptr : list Z) : Z := le_val 8 (take 4 ptr).
Definition ReadLE64 (ptr : list Z) : Z := le_val 8 (take 8 ptr).
Definition WriteLE16 (x : Z) : list Z := to_le 8 2 x.
Definition WriteLE32 (x : Z) : list Z := to_le 8 4 x.
Definition WriteLE64 (x : Z) : list Z := to_le 8 8 x.
Definition ReadBE32 (ptr : list Z) : Z := le_val 8 (rev (take 4 ptr)).
Definition ReadBE64 (ptr : list Z) : Z := le_val 8 (rev (take 8 ptr)).
Definition WriteBE32 (x : Z) : list Z := rev (to_le 8 4 x).
Definition WriteBE64 (x : Z) : list Z := rev (to_le 8 8 x).

Lemma WriteLE16_length x : length (WriteLE16 x) = 2%nat.
Proof. reflexivity. Qed.
Lemma WriteLE32_length x : length (WriteLE32 x) = 4%nat.
Proof. reflexivity. Qed.

Lemma WriteLE16_ok x : bytes_ok (WriteLE16 x).
Proof. apply bytes_ok_digits, to_le_ok. lia. Qed.
Lemma WriteLE32_ok x : bytes_ok (WriteLE32 x).
Proof. apply bytes_ok_digits, to_le_ok. lia. Qed.

(** Reading back a written word, whatever follows it in the buffer. *)
Lemma ReadLE16_WriteLE16 x rest : 0 <= x < 2 ^ 16 -> ReadLE16 (WriteLE16 x ++ rest) = x.
Proof.
  intros Hx. unfold ReadLE16. rewrite take_app_length' by reflexivity.
  unfold WriteLE16. rewrite le_val_to_le by lia. by apply Z.mod_small.
Qed.

Lemma ReadLE32_WriteLE32 x rest : 0 <= x < 2 ^ 32 -> ReadLE32 (WriteLE32 x ++ rest) = x.
Proof.
  intros Hx. unfold ReadLE32. rewrite take_app_length' by reflexivity.
  unfold WriteLE32. rewrite le_val_to_le by lia. by apply Z.mod_small.
Qed.

Lemma ReadLE32_bound l : bytes_ok l -> 0 <= ReadLE32 l < 2 ^ 32.
Proof.
  intros Hl. unfold ReadLE32.
  pose proof (le_val_bound 8 (take 4 l) ltac:(lia)) as H.
  specialize (H ltac:(by apply Forall_take)).
  assert (Z.of_nat (length (take 4 l)) <= 4) by (rewrite length_take; lia).
  assert (2 ^ (8 * Z.of_nat (length (take 4 l))) <= 2 ^ 32) by (apply Z.pow_le_mono_r; lia).
  lia.
Qed.

Lemma WriteLE32_ReadLE32 l : bytes_ok l -> length l = 4%nat -> WriteLE32 (ReadLE32 l) = l.
Proof.
  intros Hl Hlen. unfold WriteLE32, ReadLE32. rewrite take_ge by lia.
  rewrite <- Hlen. apply to_le_le_val; [lia|done].
Qed.

Lemma WriteBE32_length x : length (WriteBE32 x) = 4%nat.
Proof. unfold WriteBE32. by rewrite length_rev, to_le_length. Qed.

Lemma WriteBE32_ok x : bytes_ok (WriteBE32 x).
Proof. unfold WriteBE32, bytes_ok. apply Forall_rev. apply (WriteLE32_ok x). Qed.

Lemma WriteLE64_length x : length (WriteLE64 x) = 8%nat.
Proof. apply to_le_length. Qed.

Lemma WriteBE64_length x : length (WriteBE64 x) = 8%nat.
Proof. unfold WriteBE64. by rewrite length_rev, to_le_length. Qed.

Lemma ReadBE64_WriteBE64 x rest : 0 <= x < 2 ^ 64 -> ReadBE64 (WriteBE64 x ++ rest) = x.
Proof.
  intros Hx. unfold ReadBE64. rewrite take_app_length' by (by rewrite WriteBE64_length).
  unfold WriteBE64. rewrite rev_involutive, le_val_to_le by lia. by apply Z.mod_small.
Qed.
