(* ===== verification/Uint256.v ===== *)
(** * Uint256: the opaque blobs of [src/src/uint256.h] and [src/src/uint256.cpp]

    A [base_blob<BITS>] is the list of its [BITS/8] data bytes.  C strings are the list of
    their characters before the terminating NUL. *)
From S2P Require Import Prelude Endian.

(** ** Characters *)

(** [HexDigit] of utilstrencodings.cpp: the value of a hexadecimal character, or -1. *)
Definition HexDigit (c : Z) : Z :=
  if (48 <=? c) && (c <=? 57) then c - 48
  else if (97 <=? c) && (c <=? 102) then c - 97 + 10
  else if (65 <=? c) && (c <=? 70) then c - 65 + 10
  else -1.

(** [isspace] in the C locale. *)
Definition isspace (c : Z) : bool := (c =? 32) || ((9 <=? c) && (c <=? 13)).

(** [tolower] in the C locale. *)
Definition tolower (c : Z) : Z := if (65 <=? c) && (c <=? 90) then c + 32 else c.

(** One character of a "%02x" conversion. *)
Definition hex_char (d : Z) : Z := if d <? 10 then 48 + d else 87 + d.

(** ** base_blob *)

Module base_blob.
Section Blob.
(** The template parameter, in bytes. *)
Context (WIDTH : nat).

Definition zero : list Z := replicate WIDTH 0.

Definition IsNull (data : list Z) : bool := forallb (fun b => b =? 0) data.

(** [sprintf (psz + i*2, "%02x", data[sizeof(data) - i - 1])] for each [i]. *)
Definition GetHex (data : list Z) : list Z :=
  flat_map (fun b => [hex_char (b / 16); hex_char (b mod 16)]) (rev data).

(** Leading spaces. *)
Fixpoint skip_space (psz : list Z) : list Z :=
  match psz with
  | c :: psz' => if isspace c then skip_space psz' else psz
  | [] => []
  end.

(** An optional 0x prefix. *)
Definition skip_0x (psz : list Z) : list Z :=
  match psz with
  | c :: d :: psz' => if (c =? 48) && (tolower d =? 120) then psz' else psz
  | _ => psz
  end.

(** The digits scanned forward from [pbegin], as values. *)
Fixpoint hex_digits (psz : list Z) : list Z :=
  match psz with
  | c :: psz' => if HexDigit c =? -1 then [] else HexDigit c :: hex_digits psz'
  | [] => []
  end.

(** The fill loop: [digits] are the digits read backwards from [psz], [n] the bytes left
    between [p1] and [pend]; the bytes not written stay zero. *)
Fixpoint hex_fill (digits : list Z) (n : nat) : list Z :=
  match n, digits with
  | O, _ => []
  | _, [] => replicate n 0
  | S n', [d] => d :: replicate n' 0
  | S n', d :: e :: r => Z.lor d (u8 (Z.shiftl e 4)) :: hex_fill r n'
  end.

Definition SetHex (psz : list Z) : list Z :=
  let pbegin := skip_0x (skip_space psz) in
  hex_fill (rev (hex_digits pbegin)) WIDTH.

(** [operator<] is [memcmp]: lexicographic from the first byte. *)
Fixpoint memcmp (a b : list Z) : Z :=
  match a, b with
  | x :: a', y :: b' => if x <? y then -1 else if y <? x then 1 else memcmp a' b'
  | _, _ => 0
  end.

Definition lt (a b : list Z) : bool := memcmp a b <? 0.
Definition eq (a b : list Z) : bool := memcmp a b =? 0.
End Blob.
End base_blob.

(** ** uint256::GetHash *)

Definition rot_or (x s : Z) : Z := Z.lor (u32 (Z.shiftl x s)) (Z.shiftr x (32 - s)).

Definition HashMix (abc : Z * Z * Z) : Z * Z * Z :=
  let '(a, b, c) := abc in
  let a := u32 (a - c) in let a := Z.lxor a (rot_or c 4) in let c := u32 (c + b) in
  let b := u32 (b - a) in let b := Z.lxor b (rot_or a 6) in let a := u32 (a + c) in
  let c := u32 (c - b) in let c := Z.lxor c (rot_or b 8) in let b := u32 (b + a) in
  let a := u32 (a - c) in let a := Z.lxor a (rot_or c 16) in let c := u32 (c + b) in
  let b := u32 (b - a) in let b := Z.lxor b (rot_or a 19) in let a := u32 (a + c) in
  let c := u32 (c - b) in let c := Z.lxor c (rot_or b 4) in let b := u32 (b + a) in
  (a, b, c).

Definition HashFinal (abc : Z * Z * Z) : Z * Z * Z :=
  let '(a, b, c) := abc in
  let c := Z.lxor c b in let c := u32 (c - rot_or b 14) in
  let a := Z.lxor a c in let a := u32 (a - rot_or c 11) in
  let b := Z.lxor b a in let b := u32 (b - rot_or a 25) in
  let c := Z.lxor c b in let c := u32 (c - rot_or b 16) in
  let a := Z.lxor a c in let a := u32 (a - rot_or c 4) in
  let b := Z.lxor b a in let b := u32 (b - rot_or a 14) in
  let c := Z.lxor c b in let c := u32 (c - rot_or b 24) in
  (a, b, c).

(** The 32-bit words of the blob: its data read as an array of uint32_t on a little-endian
    host. *)
Definition word32 (data : list Z) (i : nat) : Z := ReadLE32 (drop (4 * i) data).

Definition GetHash (data salt : list Z) : Z :=
  let x i := Z.lxor (word32 data i) (word32 salt i) in
  let s := u32 (3735928559 + 32) in
  let '(a, b, c) := HashMix (u32 (s + x 0%nat), u32 (s + x 1%nat), u32 (s + x 2%nat)) in
  let '(a, b, c) := HashMix (u32 (a + x 3%nat), u32 (b + x 4%nat), u32 (c + x 5%nat)) in
  let '(a, b, c) := HashFinal (u32 (a + x 6%nat), u32 (b + x 7%nat), c) in
  Z.lor (Z.shiftl b 32) c.

(** ** Hexadecimal round trip *)

Lemma HexDigit_hex_char d : 0 <= d < 16 -> HexDigit (hex_char d) = d.
Proof.
  intros Hd. unfold hex_char, HexDigit.
  repeat case_Z; cbn [andb]; lia.
Qed.

Lemma hex_char_range d : 0 <= d < 16 ->
  48 <= hex_char d <= 57 \/ 97 <= hex_char d <= 102.
Proof. intros Hd. unfold hex_char. case_Z; lia. Qed.

Lemma hex_digits_GetHex data : bytes_ok data ->
  base_blob.hex_digits (base_blob.GetHex data) = flat_map (fun b => [b / 16; b mod 16]) (rev data).
Proof.
  intros Hok. unfold base_blob.GetHex.
  apply Forall_rev in Hok. induction Hok as [|b l Hb Hl IH]; [done|].
  unfold is_byte in Hb. cbn [flat_map app base_blob.hex_digits].
  assert (0 <= b / 16 < 16) by (split; [apply Z.div_pos|apply Z.div_lt_upper_bound]; lia).
  assert (0 <= b mod 16 < 16) by (apply Z.mod_pos_bound; lia).
  rewrite !HexDigit_hex_char, IH by lia.
  destruct (Z.eqb_spec (b / 16) (-1)); [lia|]. destruct (Z.eqb_spec (b mod 16) (-1)); [lia|]. done.
Qed.

Lemma nibbles_join b : is_byte b -> Z.lor (b mod 16) (u8 (Z.shiftl (b / 16) 4)) = b.
Proof.
  intros Hb. unfold is_byte in Hb.
  assert (0 <= b / 16 < 16) by (split; [apply Z.div_pos|apply Z.div_lt_upper_bound]; lia).
  rewrite uwrap_small by (rewrite Z.shiftl_mul_pow2 by lia; lia).
  apply Z.bits_inj'. intros i Hi.
  change 16 with (2 ^ 4) at 1 2. rewrite Z.lor_spec, Z.shiftl_spec by lia.
  destruct (Z.ltb_spec i 4).
  - rewrite Z.mod_pow2_bits_low, (Z.testbit_neg_r _ (i - 4)), orb_false_r by lia. done.
  - rewrite Z.mod_pow2_bits_high, orb_false_l, Z.div_pow2_bits by lia. f_equal. lia.
Qed.

Lemma hex_fill_bytes l : bytes_ok l ->
  base_blob.hex_fill (flat_map (fun b => [b mod 16; b / 16]) l) (length l) = l.
Proof.
  induction 1 as [|b l Hb Hl IH]; [done|].
  cbn [flat_map app length base_blob.hex_fill]. rewrite IH, nibbles_join; done.
Qed.

Lemma rev_nibbles l :
  rev (flat_map (fun b => [b / 16; b mod 16]) (rev l)) = flat_map (fun b => [b mod 16; b / 16]) l.
Proof.
  induction l as [|b l IH]; [done|].
  cbn [rev flat_map]. rewrite flat_map_app, rev_app_distr, IH. done.
Qed.

(** The digits printed by [GetHex] are neither spaces nor an 0x prefix. *)
Lemma hex_char_not_space d : 0 <= d < 16 -> isspace (hex_char d) = false.
Proof.
  intros Hd. pose proof (hex_char_range d Hd). unfold isspace.
  repeat case_Z; done || lia.
Qed.

Lemma hex_char_not_x d : 0 <= d < 16 -> (tolower (hex_char d) =? 120) = false.
Proof.
  intros Hd. pose proof (hex_char_range d Hd). unfold tolower.
  apply Z.eqb_neq. destruct (_ && _) eqn:E; propify; lia.
Qed.

Lemma GetHex_no_prefix data : bytes_ok data ->
  base_blob.skip_0x (base_blob.skip_space (base_blob.GetHex data)) = base_blob.GetHex data.
Proof.
  intros Hok. unfold base_blob.GetHex. apply Forall_rev in Hok.
  destruct Hok as [|b l Hb Hl]; [done|]. unfold is_byte in Hb. cbn [flat_map app].
  assert (0 <= b / 16 < 16) by (split; [apply Z.div_pos|apply Z.div_lt_upper_bound]; lia).
  assert (0 <= b mod 16 < 16) by (apply Z.mod_pos_bound; lia).
  cbn [base_blob.skip_space]. rewrite hex_char_not_space by lia.
  unfold base_blob.skip_0x. rewrite hex_char_not_x, andb_false_r by lia. done.
Qed.

Lemma memcmp_eq a : forall b, length a = length b -> base_blob.memcmp a b = 0 <-> a = b.
Proof.
  induction a as [|x a IH]; intros [|y b] Hl; try done.
  injection Hl as Hl. cbn [base_blob.memcmp].
  destruct (Z.ltb_spec x y); [split; [lia | intros [= ? _]; lia]|].
  destruct (Z.ltb_spec y x); [split; [lia | intros [= ? _]; lia]|].
  assert (x = y) as <- by lia. rewrite IH by done. split; [by intros ->|by intros [= ->]].
Qed.

Lemma blob_eq_true a b : length a = length b -> base_blob.eq a b = bool_decide (a = b).
Proof.
  intros Hl. unfold base_blob.eq. apply Bool.eq_iff_eq_true. by rewrite Z.eqb_eq, bool_decide_eq_true, memcmp_eq.
Qed.

Lemma SetHex_GetHex_blob n data : bytes_ok data -> length data = n ->
  base_blob.SetHex n (base_blob.GetHex data) = data.
Proof.
  intros Hok <-. unfold base_blob.SetHex.
  rewrite GetHex_no_prefix, hex_digits_GetHex, rev_nibbles by done.
  by apply hex_fill_bytes.
Qed.
