(* ===== verification/ArithUint256.v ===== *)
(** * ArithUint256: the 256-bit unsigned integer of [src/src/arith_uint256.h/.cpp]

    [base_uint<256>] is the list of its eight 32-bit words [pn], least significant first.
    Every operation is the loop of the source over the words, with the 64-bit intermediate
    values wrapped where the source stores them; the theorems relate the words to the number
    [val pn] they denote.  [double getdouble()] is not modelled (floating point). *)
From S2P Require Import Prelude Endian Uint256.

(** ** Data *)

(** [WIDTH = BITS/32] for [BITS = 256]. *)
Definition WIDTH : nat := 8.

Abbreviation uint := (list Z).

Definition uint_ok (a : uint) : Prop := length a = WIDTH /\ Forall (digit_ok 32) a.

(** The number denoted by the words. *)
Definition val (a : uint) : Z := le_val 32 a.

(** [pn[i]] *)
Definition word (a : uint) (i : nat) : Z := nth i a 0.

(** ** Construction, logic and increments *)

Definition base_uint_zero : uint := replicate WIDTH 0.

(** [base_uint(uint64_t b)] and [operator=(uint64_t b)] *)
Definition base_uint_of (b : Z) : uint :=
  u32 b :: u32 (Z.shiftr b 32) :: replicate (WIDTH - 2) 0.

(** [operator!] *)
Definition is_zero (a : uint) : bool := forallb (fun x => x =? 0) a.

(** [operator~] *)
Definition bnot (a : uint) : uint := map (fun x => u32 (Z.lnot x)) a.

Definition xor_assign (a b : uint) : uint := zip_with Z.lxor a b.
Definition and_assign (a b : uint) : uint := zip_with Z.land a b.
Definition or_assign (a b : uint) : uint := zip_with Z.lor a b.

(** [operator^=(uint64_t)] and [operator|=(uint64_t)] touch the two low words. *)
Definition low2_assign (f : Z -> Z -> Z) (a : uint) (b : Z) : uint :=
  match a with
  | x :: y :: a' => f x (u32 b) :: f y (u32 (Z.shiftr b 32)) :: a'
  | _ => a
  end.
Definition xor64_assign : uint -> Z -> uint := low2_assign Z.lxor.
Definition or64_assign : uint -> Z -> uint := low2_assign Z.lor.

(** Prefix [operator++]: stop at the first word that does not wrap to zero. *)
Fixpoint inc (a : uint) : uint :=
  match a with
  | [] => []
  | x :: a' => let x' := u32 (x + 1) in if x' =? 0 then x' :: inc a' else x' :: a'
  end.

(** Prefix [operator--]: stop at the first word that does not wrap to 2^32-1. *)
Fixpoint dec (a : uint) : uint :=
  match a with
  | [] => []
  | x :: a' => let x' := u32 (x - 1) in if x' =? UINT32_MAX then x' :: dec a' else x' :: a'
  end.

(** Unary [operator-]: complement, then increment. *)
Definition neg (a : uint) : uint := inc (bnot a).

(** ** Addition, subtraction, multiplication *)

Fixpoint add_loop (carry : Z) (a b : uint) : uint :=
  match a, b with
  | x :: a', y :: b' =>
      let n := u64 (carry + x + y) in
      Z.land n UINT32_MAX :: add_loop (Z.shiftr n 32) a' b'
  | _, _ => []
  end.

(** [operator+=(const base_uint&)] *)
Definition add_assign (a b : uint) : uint := add_loop 0 a b.
(** [operator-=(const base_uint&)]: [*this += -b] *)
Definition sub_assign (a b : uint) : uint := add_assign a (neg b).
(** [operator+=(uint64_t)] and [operator-=(uint64_t)] *)
Definition add64_assign (a : uint) (b64 : Z) : uint := add_assign a (base_uint_of b64).
Definition sub64_assign (a : uint) (b64 : Z) : uint := add_assign a (neg (base_uint_of b64)).

Fixpoint mul32_loop (carry b32 : Z) (a : uint) : uint :=
  match a with
  | x :: a' =>
      let n := u64 (carry + b32 * x) in
      Z.land n UINT32_MAX :: mul32_loop (Z.shiftr n 32) b32 a'
  | [] => []
  end.

(** [operator*=(uint32_t)] *)
Definition mul32_assign (a : uint) (b32 : Z) : uint := mul32_loop 0 b32 a.

(** The inner loop of [operator*=(const base_uint&)]: [pn] from word [j] on, [aj = a.pn[j]]. *)
Fixpoint mul_row (carry aj : Z) (pn b : uint) : uint :=
  match pn, b with
  | p :: pn', y :: b' =>
      let n := u64 (carry + p + aj * y) in
      Z.land n UINT32_MAX :: mul_row (Z.shiftr n 32) aj pn' b'
  | _, _ => []
  end.

Definition mul_step (a b pn : uint) (j : nat) : uint :=
  take j pn ++ mul_row 0 (word a j) (drop j pn) b.

(** [operator*=(const base_uint&)] *)
Definition mul_assign (a b : uint) : uint :=
  fold_left (mul_step a b) (seq 0 WIDTH) base_uint_zero.

(** ** Shifts *)

(** [pn[i] |= v] *)
Definition or_word (pn : uint) (i : nat) (v : Z) : uint := <[i := Z.lor (word pn i) v]> pn.

Definition shl_step (a : uint) (k : nat) (s : Z) (pn : uint) (i : nat) : uint :=
  let pn := if (i + k + 1 <? WIDTH)%nat && negb (s =? 0)
            then or_word pn (i + k + 1) (Z.shiftr (word a i) (32 - s)) else pn in
  if (i + k <? WIDTH)%nat then or_word pn (i + k) (u32 (Z.shiftl (word a i) s)) else pn.

(** [operator<<=(unsigned int shift)] *)
Definition shl_assign (a : uint) (shift : Z) : uint :=
  fold_left (shl_step a (Z.to_nat (shift / 32)) (shift mod 32)) (seq 0 WIDTH) base_uint_zero.

Definition shr_step (a : uint) (k : nat) (s : Z) (pn : uint) (i : nat) : uint :=
  let pn := if (k + 1 <=? i)%nat && negb (s =? 0)
            then or_word pn (i - k - 1) (u32 (Z.shiftl (word a i) (32 - s))) else pn in
  if (k <=? i)%nat then or_word pn (i - k) (Z.shiftr (word a i) s) else pn.

(** [operator>>=(unsigned int shift)] *)
Definition shr_assign (a : uint) (shift : Z) : uint :=
  fold_left (shr_step a (Z.to_nat (shift / 32)) (shift mod 32)) (seq 0 WIDTH) base_uint_zero.

(** ** Comparison and bit length *)

(** The comparison loop, from the most significant word: the lists are reversed. *)
Fixpoint cmp_loop (a b : list Z) : Z :=
  match a, b with
  | x :: a', y :: b' => if x <? y then -1 else if x >? y then 1 else cmp_loop a' b'
  | _, _ => 0
  end.

Definition CompareTo (a b : uint) : Z := cmp_loop (rev a) (rev b).

Definition EqualTo (a : uint) (b : Z) : bool :=
  if existsb (fun x => negb (x =? 0)) (drop 2 a) then false
  else if negb (word a 1 =? Z.shiftr b 32) then false
  else if negb (word a 0 =? Z.land b UINT32_MAX) then false
  else true.

(** [operator>], [<], [>=], [<=], [==] *)
Definition ugt (a b : uint) : bool := CompareTo a b >? 0.
Definition ult (a b : uint) : bool := CompareTo a b <? 0.
Definition uge (a b : uint) : bool := CompareTo a b >=? 0.
Definition ule (a b : uint) : bool := CompareTo a b <=? 0.
Definition ueq (a b : uint) : bool := bool_decide (a = b).

(** [for (bits = 31; bits > 0; bits--) if (x & 1 << bits) return bits + 1], else 1 *)
Fixpoint word_bits (x : Z) (bits : nat) : Z :=
  match bits with
  | O => 1
  | S bits' => if Z.land x (Z.shiftl 1 (Z.of_nat bits)) =? 0 then word_bits x bits'
               else Z.of_nat bits + 1
  end.

Fixpoint bits_loop (ra : list Z) (pos : Z) : Z :=
  match ra with
  | [] => 0
  | x :: ra' => if x =? 0 then bits_loop ra' (pos - 1) else 32 * pos + word_bits x 31
  end.

Definition bits (a : uint) : Z := bits_loop (rev a) (Z.of_nat WIDTH - 1).

Definition GetLow64 (a : uint) : Z := Z.lor (word a 0) (Z.shiftl (word a 1) 32).

(** ** Division *)

(** The loop of [operator/=]: [n] is [shift + 1], so the loop ends when [shift < 0]. *)
Fixpoint div_loop (n : nat) (num div q : uint) : uint * uint :=
  match n with
  | O => (q, num)
  | S shift =>
      let '(num, q) :=
        if uge num div
        then (sub_assign num div,
              or_word q (shift / 32)%nat (Z.shiftl 1 (Z.land (Z.of_nat shift) 31)))
        else (num, q) in
      div_loop shift num (shr_assign div 1) q
  end.

(** [operator/=]; [None] is [throw uint_error("Division by zero")]. *)
Definition div_assign (a b : uint) : option uint :=
  let num_bits := bits a in
  let div_bits := bits b in
  if div_bits =? 0 then None
  else if div_bits >? num_bits then Some base_uint_zero
  else
    let shift := num_bits - div_bits in
    Some (fst (div_loop (Z.to_nat (shift + 1)) a (shl_assign b shift) base_uint_zero)).

(** ** Conversions to and from uint256, hexadecimal *)

Definition ArithToUint256 (a : uint) : list Z := flat_map WriteLE32 a.

Definition UintToArith256 (data : list Z) : uint :=
  map (fun x => ReadLE32 (drop (4 * x) data)) (seq 0 WIDTH).

Definition GetHex (a : uint) : list Z := base_blob.GetHex (ArithToUint256 a).
Definition SetHex (psz : list Z) : uint := UintToArith256 (base_blob.SetHex 32 psz).

(** ** The compact representation *)

Record compact_result := { cr_value : uint; cr_negative : bool; cr_overflow : bool }.

(** [SetCompact(nCompact, &fNegative, &fOverflow)] *)
Definition SetCompact (nCompact : Z) : compact_result :=
  let nSize := Z.shiftr nCompact 24 in
  let nWord := Z.land nCompact 8388607 in
  let '(nWord, v) :=
    if nSize <=? 3 then
      let nWord := Z.shiftr nWord (8 * (3 - nSize)) in (nWord, base_uint_of nWord)
    else (nWord, shl_assign (base_uint_of nWord) (8 * (nSize - 3))) in
  {| cr_value := v;
     cr_negative := negb (nWord =? 0) && negb (Z.land nCompact 8388608 =? 0);
     cr_overflow := negb (nWord =? 0) &&
       ((nSize >? 34) || ((nWord >? 255) && (nSize >? 33)) || ((nWord >? 65535) && (nSize >? 32))) |}.

(** [GetCompact(fNegative)]; [None] is a failed [assert]. *)
Definition GetCompact_signed (fNegative : bool) (a : uint) : option Z :=
  let nSize := (bits a + 7) / 8 in
  let nCompact :=
    if nSize <=? 3 then u32 (u64 (Z.shiftl (GetLow64 a) (8 * (3 - nSize))))
    else u32 (GetLow64 (shr_assign a (8 * (nSize - 3)))) in
  let '(nCompact, nSize) :=
    if negb (Z.land nCompact 8388608 =? 0) then (Z.shiftr nCompact 8, nSize + 1)
    else (nCompact, nSize) in
  if negb (Z.land nCompact (u32 (Z.lnot 8388607)) =? 0) then None
  else if negb (nSize <? 256) then None
  else
    let nCompact := Z.lor nCompact (u32 (Z.shiftl nSize 24)) in
    Some (Z.lor nCompact
            (if fNegative && negb (Z.land nCompact 8388607 =? 0) then 8388608 else 0)).

(** [GetCompact()]: [fNegative] defaults to false. *)
Definition GetCompact (a : uint) : option Z := GetCompact_signed false a.

Definition uint256_max : uint := replicate WIDTH UINT32_MAX.

Example add_wraps : add_assign uint256_max (base_uint_of 2) = base_uint_of 1.
Proof. vm_compute. reflexivity. Qed.
Example div_example :
  div_assign (shl_assign (base_uint_of 1000) 200) (shl_assign (base_uint_of 7) 190)
  = Some (base_uint_of (1000 * 1024 / 7)).
Proof. vm_compute. reflexivity. Qed.
Example compact_genesis : (* bitcoin's genesis difficulty *)
  GetCompact (cr_value (SetCompact 486604799)) = Some 486604799.
Proof. vm_compute. reflexivity. Qed.

(** * Correctness *)

(** Range facts for one word. *)
Lemma digit32 x : digit_ok 32 x <-> 0 <= x < 4294967296.
Proof. reflexivity. Qed.

Lemma land_max n : Z.land n UINT32_MAX = n mod 2 ^ 32.
Proof. change UINT32_MAX with (Z.ones 32). apply Z.land_ones. lia. Qed.

Lemma land_max_ok n : digit_ok 32 (Z.land n UINT32_MAX).
Proof. rewrite land_max. apply Z.mod_pos_bound. lia. Qed.

Lemma u32_ok n : digit_ok 32 (u32 n).
Proof. apply uwrap_bound. lia. Qed.

Lemma lor_ok x y : digit_ok 32 x -> digit_ok 32 y -> digit_ok 32 (Z.lor x y).
Proof.
  unfold digit_ok. intros Hx Hy. split; [apply Z.lor_nonneg; lia|].
  destruct (Z.eq_dec (Z.lor x y) 0) as [-> | Hne]; [lia|].
  apply Z.log2_lt_pow2; [assert (0 <= Z.lor x y) by (apply Z.lor_nonneg; lia); lia|].
  rewrite Z.log2_lor by lia.
  assert (forall z, 0 <= z < 2 ^ 32 -> Z.log2 z < 32) as Hlog.
  { intros z Hz. destruct (Z.eq_dec z 0) as [-> | ]; [done|]. apply Z.log2_lt_pow2; lia. }
  pose proof (Hlog x Hx). pose proof (Hlog y Hy). lia.
Qed.

Lemma word_ok a i : Forall (digit_ok 32) a -> digit_ok 32 (word a i).
Proof.
  intros Ha. unfold word. destruct (nth_in_or_default i a 0) as [Hin | ->].
  - rewrite List.Forall_forall in Ha. apply Ha, Hin.
  - apply digit32. lia.
Qed.

Create HintDb uint.
Lemma digit_0 : digit_ok 32 0.
Proof. apply digit32. lia. Qed.

#[export] Hint Resolve land_max_ok u32_ok lor_ok word_ok digit_0 : uint.

Lemma val_bound a : uint_ok a -> 0 <= val a < 2 ^ 256.
Proof.
  intros [Hlen Ha]. unfold val. pose proof (le_val_bound 32 a ltac:(lia) Ha) as H.
  rewrite Hlen in H. done.
Qed.

Lemma val_inj a b : uint_ok a -> uint_ok b -> val a = val b -> a = b.
Proof. intros [La Ha] [Lb Hb] H. apply (le_val_inj 32); auto; [lia|congruence]. Qed.

Lemma zero_ok : uint_ok base_uint_zero.
Proof. split; [done|]. apply Forall_replicate. apply digit32. lia. Qed.

Lemma val_zero : val base_uint_zero = 0.
Proof. reflexivity. Qed.

Lemma base_uint_of_ok b : uint_ok (base_uint_of b).
Proof.
  split; [done|]. unfold base_uint_of. do 2 (apply Forall_cons_2; [auto with uint|]).
  apply Forall_replicate. apply digit32. lia.
Qed.

Lemma val_base_uint_of b : 0 <= b < 2 ^ 64 -> val (base_uint_of b) = b.
Proof.
  intros Hb. unfold base_uint_of, val. cbn [le_val WIDTH Nat.sub replicate].
  rewrite Z.shiftr_div_pow2 by lia. unfold uwrap.
  rewrite (Z.mod_small (b / 2 ^ 32)) by (split; [apply Z.div_pos|apply Z.div_lt_upper_bound]; lia).
  pose proof (Z.div_mod b (2 ^ 32)). lia.
Qed.

(** ** Addition *)

Lemma add_loop_length c a b : length a = length b -> length (add_loop c a b) = length a.
Proof.
  revert c b. induction a as [|x a IH]; intros c [|y b] H; cbn in *; try done. by rewrite IH by lia.
Qed.

Lemma add_loop_digits c a b : Forall (digit_ok 32) (add_loop c a b).
Proof.
  revert c b. induction a as [|x a IH]; intros c [|y b]; cbn; constructor; auto with uint.
Qed.

Lemma add_loop_val c a b :
  0 <= c <= 1 -> Forall (digit_ok 32) a -> Forall (digit_ok 32) b -> length a = length b ->
  le_val 32 (add_loop c a b) = (c + le_val 32 a + le_val 32 b) mod 2 ^ (32 * Z.of_nat (length a)).
Proof.
  intros Hc Ha. revert c b Hc. induction Ha as [|x a Hx Ha IH]; intros c b Hc Hb Hlen.
  - destruct b; [|done]. cbn [add_loop le_val length]. rewrite Z.mul_0_r, Z.mod_1_r. done.
  - destruct b as [|y b]; [done|]. inversion Hb as [|? ? Hy Hb']; subst. clear Hb.
    rewrite digit32 in *. cbn [add_loop le_val length] in *.
    rewrite uwrap_small by lia. rewrite land_max, Z.shiftr_div_pow2 by lia.
    assert (0 <= (c + x + y) / 2 ^ 32 < 2)
      by (split; [apply Z.div_pos|apply Z.div_lt_upper_bound]; lia).
    rewrite IH by (done || lia).
    replace (c + (x + 2 ^ 32 * le_val 32 a) + (y + 2 ^ 32 * le_val 32 b))
      with ((c + x + y) + 2 ^ 32 * (le_val 32 a + le_val 32 b)) by lia.
    rewrite mod_digit_step, Z.add_assoc by lia. done.
Qed.

Lemma add_assign_ok a b : uint_ok a -> uint_ok b -> uint_ok (add_assign a b).
Proof.
  intros [La Ha] [Lb Hb]. split; [|apply add_loop_digits].
  unfold add_assign. rewrite add_loop_length; congruence.
Qed.

Lemma add_assign_val a b : uint_ok a -> uint_ok b ->
  val (add_assign a b) = (val a + val b) mod 2 ^ 256.
Proof.
  intros [La Ha] [Lb Hb]. unfold val, add_assign.
  rewrite add_loop_val by (done || lia || congruence). by rewrite La.
Qed.

(** ** Complement, negation, increments *)

Lemma bnot_digits a : Forall (digit_ok 32) (bnot a).
Proof. unfold bnot. induction a; cbn; constructor; auto with uint. Qed.

Lemma bnot_ok a : uint_ok a -> uint_ok (bnot a).
Proof. intros [La _]. split; [|apply bnot_digits]. unfold bnot. by rewrite length_map. Qed.

Lemma u32_lnot x : digit_ok 32 x -> u32 (Z.lnot x) = 2 ^ 32 - 1 - x.
Proof.
  rewrite digit32. intros Hx. unfold uwrap, Z.lnot.
  rewrite <- (Z.mod_add _ 1) by lia. rewrite Z.mod_small by lia. lia.
Qed.

Lemma le_val_bnot a : Forall (digit_ok 32) a ->
  le_val 32 (bnot a) = 2 ^ (32 * Z.of_nat (length a)) - 1 - le_val 32 a.
Proof.
  induction 1 as [|x a Hx Ha IH]; [done|].
  unfold bnot in *. cbn [map le_val length]. rewrite IH, u32_lnot by done.
  rewrite Nat2Z.inj_succ, Z.mul_succ_r, Z.pow_add_r by lia. lia.
Qed.

Lemma bnot_val a : uint_ok a -> val (bnot a) = 2 ^ 256 - 1 - val a.
Proof. intros [La Ha]. unfold val. rewrite le_val_bnot by done. by rewrite La. Qed.

Lemma inc_digits a : Forall (digit_ok 32) a -> Forall (digit_ok 32) (inc a).
Proof. induction 1; cbn [inc]; [constructor|]. case_Z; constructor; auto with uint. Qed.

Lemma inc_length a : length (inc a) = length a.
Proof. induction a; cbn [inc]; [done|]. case_Z; cbn [length]; lia. Qed.

Lemma le_val_inc a : Forall (digit_ok 32) a ->
  le_val 32 (inc a) = (le_val 32 a + 1) mod 2 ^ (32 * Z.of_nat (length a)).
Proof.
  induction 1 as [|x a Hx Ha IH]; [done|].
  rewrite digit32 in *. cbn [inc le_val length].
  replace (x + 2 ^ 32 * le_val 32 a + 1) with ((x + 1) + 2 ^ 32 * le_val 32 a) by lia.
  rewrite mod_digit_step by lia. unfold uwrap.
  pose proof (le_val_bound 32 a ltac:(lia) Ha).
  destruct (Z.eq_dec x UINT32_MAX) as [-> | ].
  - change ((UINT32_MAX + 1) mod 2 ^ 32) with 0. rewrite Z.eqb_refl. cbn [le_val].
    rewrite IH. do 3 f_equal. change ((UINT32_MAX + 1) / 2 ^ 32) with 1. lia.
  - rewrite (Z.mod_small (x + 1)), (Z.div_small (x + 1)), (Z.mod_small (0 + _)) by lia.
    case_Z; [lia|]. cbn [le_val]. lia.
Qed.

Lemma inc_ok a : uint_ok a -> uint_ok (inc a).
Proof. intros [La Ha]. split; [by rewrite inc_length|by apply inc_digits]. Qed.

Lemma inc_val a : uint_ok a -> val (inc a) = (val a + 1) mod 2 ^ 256.
Proof. intros [La Ha]. unfold val. rewrite le_val_inc by done. by rewrite La. Qed.

Lemma dec_digits a : Forall (digit_ok 32) a -> Forall (digit_ok 32) (dec a).
Proof. induction 1; cbn [dec]; [constructor|]. case_Z; constructor; auto with uint. Qed.

Lemma dec_length a : length (dec a) = length a.
Proof. induction a; cbn [dec]; [done|]. case_Z; cbn [length]; lia. Qed.

Lemma le_val_dec a : Forall (digit_ok 32) a ->
  le_val 32 (dec a) = (le_val 32 a - 1) mod 2 ^ (32 * Z.of_nat (length a)).
Proof.
  induction 1 as [|x a Hx Ha IH]; [done|].
  rewrite digit32 in *. cbn [dec le_val length].
  replace (x + 2 ^ 32 * le_val 32 a - 1) with ((x - 1) + 2 ^ 32 * le_val 32 a) by lia.
  rewrite mod_digit_step by lia. unfold uwrap.
  pose proof (le_val_bound 32 a ltac:(lia) Ha).
  destruct (Z.eq_dec x 0) as [-> | ].
  - change ((0 - 1) mod 2 ^ 32) with UINT32_MAX. rewrite Z.eqb_refl. cbn [le_val].
    rewrite IH. do 3 f_equal. change ((0 - 1) / 2 ^ 32) with (-1). lia.
  - rewrite (Z.mod_small (x - 1)), (Z.div_small (x - 1)), (Z.mod_small (0 + _)) by lia.
    case_Z; [lia|]. cbn [le_val]. lia.
Qed.

Lemma dec_ok a : uint_ok a -> uint_ok (dec a).
Proof. intros [La Ha]. split; [by rewrite dec_length|by apply dec_digits]. Qed.

Lemma dec_val a : uint_ok a -> val (dec a) = (val a - 1) mod 2 ^ 256.
Proof. intros [La Ha]. unfold val. rewrite le_val_dec by done. by rewrite La. Qed.

Lemma neg_ok a : uint_ok a -> uint_ok (neg a).
Proof. intros Ha. apply inc_ok, bnot_ok, Ha. Qed.

Lemma neg_val a : uint_ok a -> val (neg a) = (- val a) mod 2 ^ 256.
Proof.
  intros Ha. unfold neg. rewrite inc_val, bnot_val by auto using bnot_ok.
  replace (2 ^ 256 - 1 - val a + 1) with (- val a + 1 * 2 ^ 256) by lia.
  apply Z.mod_add. lia.
Qed.

Lemma sub_assign_ok a b : uint_ok a -> uint_ok b -> uint_ok (sub_assign a b).
Proof. intros. apply add_assign_ok; auto using neg_ok. Qed.

Lemma sub_assign_val a b : uint_ok a -> uint_ok b ->
  val (sub_assign a b) = (val a - val b) mod 2 ^ 256.
Proof.
  intros Ha Hb. unfold sub_assign. rewrite add_assign_val, neg_val by auto using neg_ok.
  rewrite Zplus_mod_idemp_r. f_equal.
Qed.

(** ** Multiplication *)

Lemma mul32_loop_length c b a : length (mul32_loop c b a) = length a.
Proof. revert c. induction a as [|x a IH]; intros c; cbn; [done|]. by rewrite IH. Qed.

Lemma mul32_loop_digits c b a : Forall (digit_ok 32) (mul32_loop c b a).
Proof. revert c. induction a as [|x a IH]; intros c; cbn; constructor; auto with uint. Qed.

(** A row of partial products fits 64 bits, and its carry fits 32. *)
Lemma row_fits c p x y : digit_ok 32 c -> digit_ok 32 p -> digit_ok 32 x -> digit_ok 32 y ->
  0 <= c + p + x * y < 2 ^ 64 /\ digit_ok 32 ((c + p + x * y) / 2 ^ 32).
Proof.
  rewrite !digit32. intros Hc Hp Hx Hy.
  assert (0 <= x * y <= 4294967295 * 4294967295) by nia.
  split; [lia|]. split; [apply Z.div_pos|apply Z.div_lt_upper_bound]; lia.
Qed.

Lemma mul32_loop_val c b a :
  digit_ok 32 c -> digit_ok 32 b -> Forall (digit_ok 32) a ->
  le_val 32 (mul32_loop c b a) = (c + b * le_val 32 a) mod 2 ^ (32 * Z.of_nat (length a)).
Proof.
  intros Hc Hb Ha. revert c Hc. induction Ha as [|x a Hx Ha IH]; intros c Hc.
  - cbn [mul32_loop le_val length]. rewrite !Z.mul_0_r, Z.mod_1_r. done.
  - cbn [mul32_loop le_val length].
    destruct (row_fits c 0 b x Hc ltac:(apply digit32; lia) Hb Hx) as [Hfit Hcarry].
    rewrite Z.add_0_r in *. rewrite uwrap_small, land_max, Z.shiftr_div_pow2 by lia.
    rewrite IH by done.
    replace (c + b * (x + 2 ^ 32 * le_val 32 a))
      with ((c + b * x) + 2 ^ 32 * (b * le_val 32 a)) by lia.
    rewrite mod_digit_step by lia. done.
Qed.

Lemma mul32_assign_ok a b : uint_ok a -> uint_ok (mul32_assign a b).
Proof. intros [La Ha]. split; [|apply mul32_loop_digits]. unfold mul32_assign. by rewrite mul32_loop_length. Qed.

Lemma mul32_assign_val a b : uint_ok a -> 0 <= b < 2 ^ 32 ->
  val (mul32_assign a b) = (val a * b) mod 2 ^ 256.
Proof.
  intros [La Ha] Hb. unfold val, mul32_assign.
  rewrite mul32_loop_val by (done || (apply digit32; lia)). rewrite La. f_equal. lia.
Qed.

Lemma mul_row_length c x pn b : (length pn <= length b)%nat -> length (mul_row c x pn b) = length pn.
Proof.
  revert c b. induction pn as [|p pn IH]; intros c [|y b] H; cbn in *; try done || lia.
  by rewrite IH by lia.
Qed.

Lemma mul_row_digits c x pn b : Forall (digit_ok 32) (mul_row c x pn b).
Proof. revert c b. induction pn as [|p pn IH]; intros c [|y b]; cbn; constructor; auto with uint. Qed.

Lemma mul_row_val c x pn b :
  digit_ok 32 c -> digit_ok 32 x -> Forall (digit_ok 32) pn -> Forall (digit_ok 32) b ->
  (length pn <= length b)%nat ->
  le_val 32 (mul_row c x pn b) =
  (c + le_val 32 pn + x * le_val 32 b) mod 2 ^ (32 * Z.of_nat (length pn)).
Proof.
  intros Hc Hx Hp. revert c b Hc. induction Hp as [|p pn Hp Hpn IH]; intros c b Hc Hb Hlen.
  - destruct b; cbn [mul_row le_val length]; rewrite Z.mul_0_r, Z.mod_1_r; done.
  - destruct b as [|y b]; [cbn in Hlen; lia|]. inversion Hb as [|? ? Hy Hb']; subst.
    cbn [mul_row le_val length] in *.
    destruct (row_fits c p x y Hc Hp Hx Hy) as [Hfit Hcarry].
    rewrite uwrap_small, land_max, Z.shiftr_div_pow2 by lia.
    rewrite IH by (done || lia).
    replace (c + (p + 2 ^ 32 * le_val 32 pn) + x * (y + 2 ^ 32 * le_val 32 b))
      with ((c + p + x * y) + 2 ^ 32 * (le_val 32 pn + x * le_val 32 b)) by lia.
    rewrite mod_digit_step by lia. do 3 f_equal. lia.
Qed.

Lemma mul_step_ok a b pn j : (j < WIDTH)%nat -> uint_ok a -> uint_ok b -> uint_ok pn ->
  uint_ok (mul_step a b pn j).
Proof.
  intros Hj [La Ha] [Lb Hb] [Lp Hp]. split.
  - unfold mul_step. rewrite length_app, mul_row_length, length_take, length_drop by (rewrite length_drop; lia). lia.
  - apply Forall_app. split; [by apply Forall_take|apply mul_row_digits].
Qed.

Lemma mul_step_val a b pn j : (j < WIDTH)%nat -> uint_ok a -> uint_ok b -> uint_ok pn ->
  val (mul_step a b pn j) = (val pn + 2 ^ (32 * Z.of_nat j) * (word a j * val b)) mod 2 ^ 256.
Proof.
  intros Hj Ha Hb Hp.
  rewrite <- (Z.mod_small (val (mul_step a b pn j)) (2 ^ 256)) by (apply val_bound, mul_step_ok; auto).
  destruct Ha as [La Ha], Hb as [Lb Hb], Hp as [Lp Hp].
  unfold val, mul_step. rewrite le_val_app, mul_row_val; try done || lia; auto with uint.
  2: by apply Forall_drop. 2: rewrite length_drop; lia.
  rewrite length_take, length_drop, Lp. replace (j `min` WIDTH)%nat with j by lia.
  replace (2 ^ 256) with (2 ^ (32 * Z.of_nat j) * 2 ^ (32 * Z.of_nat (WIDTH - j)))
    by (rewrite <- Z.pow_add_r by lia; f_equal; unfold WIDTH in *; lia).
  rewrite <- Z.mul_mod_distr_l by (apply Z.pow_nonzero; lia).
  rewrite Zplus_mod_idemp_r. f_equal.
  rewrite <- (take_drop j pn) at 3. rewrite le_val_app, length_take, Lp by lia.
  replace (j `min` WIDTH)%nat with j by lia. lia.
Qed.

Lemma le_val_take_S (a : uint) j : (j < length a)%nat ->
  le_val 32 (take (S j) a) = le_val 32 (take j a) + 2 ^ (32 * Z.of_nat j) * word a j.
Proof.
  intros Hj. destruct (lookup_lt_is_Some_2 a j Hj) as [x Hx].
  rewrite (take_S_r a j x Hx), le_val_app, length_take by lia.
  replace (j `min` length a)%nat with j by lia. cbn [le_val]. unfold word.
  rewrite nth_lookup, Hx. cbn. lia.
Qed.

Lemma mul_assign_spec a b : uint_ok a -> uint_ok b ->
  uint_ok (mul_assign a b) /\ val (mul_assign a b) = (val a * val b) mod 2 ^ 256.
Proof.
  intros Ha Hb. unfold mul_assign.
  replace (val a) with (le_val 32 (take WIDTH a)) by (rewrite take_ge; [done|destruct Ha; lia]).
  apply (fold_seq_ind (fun j pn => uint_ok pn /\ val pn = (le_val 32 (take j a) * val b) mod 2 ^ 256)).
  - split; [apply zero_ok|]. rewrite take_0. cbn [le_val]. done.
  - intros j pn Hj [Hp Hv]. split; [by apply mul_step_ok|].
    rewrite mul_step_val, Hv, Zplus_mod_idemp_l by done. f_equal.
    destruct Ha as [La _]. rewrite le_val_take_S by lia. lia.
Qed.

(** ** Shifts *)

(** Bit [m] of the number: bit [m mod 32] of word [m / 32]. *)
Lemma val_testbit a m : Forall (digit_ok 32) a -> 0 <= m ->
  Z.testbit (val a) m = Z.testbit (word a (Z.to_nat (m / 32))) (m mod 32).
Proof. intros Ha Hm. apply le_val_testbit; [lia|done|done]. Qed.

Lemma digit_testbit_high x i : digit_ok 32 x -> 32 <= i -> Z.testbit x i = false.
Proof.
  intros Hx Hi. rewrite <- (Z.mod_small x (2 ^ 32)) by done. apply Z.mod_pow2_bits_high. lia.
Qed.

Lemma word_or_word pn i j v : (i < length pn)%nat ->
  word (or_word pn i v) j = if decide (i = j) then Z.lor (word pn i) v else word pn j.
Proof. intros Hi. unfold or_word, word. by apply nth_insert. Qed.

Lemma or_word_length pn i v : length (or_word pn i v) = length pn.
Proof. apply length_insert. Qed.

Lemma or_word_ok pn i v : digit_ok 32 v -> uint_ok pn -> uint_ok (or_word pn i v).
Proof.
  intros Hv [Lp Hp]. split; [by rewrite or_word_length|].
  unfold or_word. apply Forall_insert; auto with uint.
Qed.

(** Two numbers with equal words are bitwise equal; used to read off a shift. *)
Lemma val_bits_inj a z : uint_ok a -> 0 <= z < 2 ^ 256 ->
  (forall m, 0 <= m < 256 ->
     Z.testbit (word a (Z.to_nat (m / 32))) (m mod 32) = Z.testbit z m) -> val a = z.
Proof.
  intros Ha Hz H. pose proof (val_bound a Ha). apply Z.bits_inj'. intros m Hm.
  destruct (Z.ltb_spec m 256) as [Hlt|Hge].
  - rewrite val_testbit by (done || apply Ha). apply H. lia.
  - rewrite <- (Z.mod_small (val a) (2 ^ 256)), <- (Z.mod_small z (2 ^ 256)) by lia.
    rewrite !Z.mod_pow2_bits_high by lia. done.
Qed.

Lemma word_zero j : word base_uint_zero j = 0.
Proof. unfold word, base_uint_zero, WIDTH. do 8 (destruct j as [|j]; [done|]). by destruct j. Qed.

Lemma shl_part_ok x s : digit_ok 32 x -> 0 <= s < 32 -> digit_ok 32 (Z.shiftr x (32 - s)).
Proof.
  unfold digit_ok. intros Hx Hs. rewrite Z.shiftr_div_pow2 by lia.
  assert (0 < 2 ^ (32 - s)) by (apply Z.pow_pos_nonneg; lia).
  split; [apply Z.div_pos; lia|]. apply Z.div_lt_upper_bound; nia.
Qed.

Lemma shiftr_ok x s : digit_ok 32 x -> 0 <= s -> digit_ok 32 (Z.shiftr x s).
Proof.
  unfold digit_ok. intros Hx Hs. rewrite Z.shiftr_div_pow2 by lia.
  assert (0 < 2 ^ s) by (apply Z.pow_pos_nonneg; lia).
  split; [apply Z.div_pos; lia|]. apply Z.div_lt_upper_bound; nia.
Qed.

(** The words after [n] iterations of the left shift loop. *)
Definition shl_word (a : uint) (k : nat) (s : Z) (n j : nat) : Z :=
  Z.lor (if decide (k <= j < n + k)%nat then u32 (Z.shiftl (word a (j - k)) s) else 0)
        (if decide ((k + 1 <= j < n + k + 1)%nat /\ s <> 0)
         then Z.shiftr (word a (j - k - 1)) (32 - s) else 0).

Lemma shl_loop_words a k s n : 0 <= s < 32 -> uint_ok a -> (n <= WIDTH)%nat ->
  let r := fold_left (shl_step a k s) (seq 0 n) base_uint_zero in
  uint_ok r /\ forall j, (j < WIDTH)%nat -> word r j = shl_word a k s n j.
Proof.
  intros Hs [La Ha] Hn.
  apply (fold_seq_ind (fun n r => uint_ok r /\ forall j, (j < WIDTH)%nat -> word r j = shl_word a k s n j)).
  { split; [apply zero_ok|]. intros j Hj. rewrite word_zero. unfold shl_word.
    repeat case_decide; try lia; done. }
  intros i pn Hi [Hok Hw]. unfold shl_step.
  set (pn1 := if (i + k + 1 <? WIDTH)%nat && negb (s =? 0) then _ else pn).
  assert (uint_ok pn1) as Hok1.
  { unfold pn1. destruct (_ && _); [|done]. apply or_word_ok; [|done]. apply shiftr_ok; [auto with uint|lia]. }
  assert (forall j, (j < WIDTH)%nat -> word pn1 j =
            Z.lor (word pn j) (if decide (j = (i + k + 1)%nat /\ s <> 0) then Z.shiftr (word a i) (32 - s) else 0)) as Hw1.
  { intros j Hj. unfold pn1. destruct (Nat.ltb_spec (i + k + 1) WIDTH); cbn [andb];
      [|case_decide; [lia|by rewrite Z.lor_0_r]].
    destruct (Z.eqb_spec s 0); cbn [negb]; [case_decide; [lia|by rewrite Z.lor_0_r]|].
    rewrite word_or_word by (destruct Hok; lia).
    repeat case_decide; subst; try lia; by rewrite ?Z.lor_0_r. }
  clearbody pn1.
  assert (forall j, (j < WIDTH)%nat ->
     word (if (i + k <? WIDTH)%nat then or_word pn1 (i + k) (u32 (Z.shiftl (word a i) s)) else pn1) j =
     Z.lor (word pn1 j) (if decide (j = i + k)%nat then u32 (Z.shiftl (word a i) s) else 0)) as Hw2.
  { clear Hw1. intros j Hj. destruct (Nat.ltb_spec (i + k) WIDTH); [|case_decide; [lia|by rewrite Z.lor_0_r]].
    rewrite word_or_word by (destruct Hok1; lia).
    repeat case_decide; subst; try lia; by rewrite ?Z.lor_0_r. }
  split; [destruct (i + k <? WIDTH)%nat; [apply or_word_ok; auto with uint|done]|].
  intros j Hj. rewrite Hw2, Hw1, Hw by done. unfold shl_word.
  repeat case_decide; try lia;
    try replace (j - k)%nat with i by lia; try replace (j - k - 1)%nat with i by lia;
    rewrite ?Z.lor_0_l, ?Z.lor_0_r; try done; apply Z.lor_comm.
Qed.

Lemma uint_digits a : uint_ok a -> Forall (digit_ok 32) a.
Proof. by intros [_ Ha]. Qed.
#[export] Hint Resolve uint_digits : uint.

Lemma shl_assign_spec a shift : 0 <= shift -> uint_ok a ->
  uint_ok (shl_assign a shift) /\ val (shl_assign a shift) = (val a * 2 ^ shift) mod 2 ^ 256.
Proof.
  intros Hsh Ha. pose proof (Z.mod_pos_bound shift 32 ltac:(lia)) as Hs.
  destruct (shl_loop_words a (Z.to_nat (shift / 32)) (shift mod 32) WIDTH Hs Ha ltac:(lia)) as [Hok Hw].
  fold (shl_assign a shift) in Hok, Hw. split; [done|].
  apply val_bits_inj; [done|apply Z.mod_pos_bound; lia|]. intros m Hm.
  set (j := Z.to_nat (m / 32)). set (r := m mod 32).
  assert (0 <= m / 32 < 8) by (split; [apply Z.div_pos|apply Z.div_lt_upper_bound]; lia).
  pose proof (Z.mod_pos_bound m 32 ltac:(lia)) as Hr. fold r in Hr.
  pose proof (Z.div_mod m 32 ltac:(lia)) as Em. fold r in Em.
  pose proof (Z.div_mod shift 32 ltac:(lia)) as Esh.
  assert (0 <= shift / 32) by (apply Z.div_pos; lia).
  rewrite Hw by (unfold j, WIDTH; lia).
  rewrite Z.mod_pow2_bits_low, Z.mul_pow2_bits by lia.
  set (s := shift mod 32) in *. set (k := Z.to_nat (shift / 32)).
  unfold shl_word. rewrite Z.lor_spec. destruct (Z.ltb_spec m shift) as [Hlt | Hge].
  - rewrite (Z.testbit_neg_r (val a)) by lia. apply orb_false_iff. split; case_decide; try apply Z.testbit_0_l.
    + rewrite uwrap_testbit, Z.shiftl_spec, Z.testbit_neg_r by lia. apply andb_false_r.
    + lia.
  - rewrite val_testbit by (auto with uint; lia).
    destruct (Z.ltb_spec r s).
    + (* the bit comes from the word below *)
      replace ((m - shift) / 32) with (m / 32 - shift / 32 - 1).
      2: { apply (Z.div_unique_pos _ _ _ (r - s + 32)); lia. }
      replace ((m - shift) mod 32) with (r - s + 32).
      2: { apply (Z.mod_unique_pos _ _ (m / 32 - shift / 32 - 1)); lia. }
      rewrite (decide_True (P := (k + 1 <= j < WIDTH + k + 1)%nat /\ s <> 0)) by (unfold j, k, WIDTH; lia).
      rewrite Z.shiftr_spec by lia.
      replace (Z.to_nat (m / 32 - shift / 32 - 1)) with (j - k - 1)%nat by (unfold j, k; lia).
      replace (r + (32 - s)) with (r - s + 32) by lia.
      case_decide; [|by rewrite Z.testbit_0_l].
      rewrite uwrap_testbit, Z.shiftl_spec, (Z.testbit_neg_r _ (r - s)), andb_false_r by lia. done.
    + replace ((m - shift) / 32) with (m / 32 - shift / 32).
      2: { apply (Z.div_unique_pos _ _ _ (r - s)); lia. }
      replace ((m - shift) mod 32) with (r - s).
      2: { apply (Z.mod_unique_pos _ _ (m / 32 - shift / 32)); lia. }
      rewrite (decide_True (P := (k <= j < WIDTH + k)%nat)) by (unfold j, k, WIDTH; lia).
      rewrite uwrap_testbit, Z.shiftl_spec by lia.
      destruct (Z.ltb_spec r 32); [|lia]. rewrite andb_true_l.
      replace (Z.to_nat (m / 32 - shift / 32)) with (j - k)%nat by (unfold j, k; lia).
      case_decide; [|by rewrite Z.testbit_0_l, orb_false_r].
      rewrite Z.shiftr_spec, (digit_testbit_high (word a (j - k - 1))) by (auto with uint; lia).
      apply orb_false_r.
Qed.

(** The words after [n] iterations of the right shift loop. *)
Definition shr_word (a : uint) (k : nat) (s : Z) (n j : nat) : Z :=
  Z.lor (if decide (j + k < n)%nat then Z.shiftr (word a (j + k)) s else 0)
        (if decide ((j + k + 1 < n)%nat /\ s <> 0)
         then u32 (Z.shiftl (word a (j + k + 1)) (32 - s)) else 0).

Lemma shr_loop_words a k s n : 0 <= s < 32 -> uint_ok a -> (n <= WIDTH)%nat ->
  let r := fold_left (shr_step a k s) (seq 0 n) base_uint_zero in
  uint_ok r /\ forall j, (j < WIDTH)%nat -> word r j = shr_word a k s n j.
Proof.
  intros Hs [La Ha] Hn.
  apply (fold_seq_ind (fun n r => uint_ok r /\ forall j, (j < WIDTH)%nat -> word r j = shr_word a k s n j)).
  { split; [apply zero_ok|]. intros j Hj. rewrite word_zero. unfold shr_word.
    repeat case_decide; try lia; done. }
  intros i pn Hi [Hok Hw]. unfold shr_step.
  set (pn1 := if (k + 1 <=? i)%nat && negb (s =? 0) then _ else pn).
  assert (uint_ok pn1) as Hok1.
  { unfold pn1. destruct (_ && _); [|done]. apply or_word_ok; auto with uint. }
  assert (forall j, (j < WIDTH)%nat -> word pn1 j =
            Z.lor (word pn j) (if decide (i = (j + k + 1)%nat /\ s <> 0) then u32 (Z.shiftl (word a i) (32 - s)) else 0)) as Hw1.
  { intros j Hj. unfold pn1. destruct (Nat.leb_spec (k + 1) i); cbn [andb];
      [|case_decide; [lia|by rewrite Z.lor_0_r]].
    destruct (Z.eqb_spec s 0); cbn [negb]; [case_decide; [lia|by rewrite Z.lor_0_r]|].
    rewrite word_or_word by (destruct Hok; lia).
    repeat case_decide; subst; try lia; by rewrite ?Z.lor_0_r. }
  clearbody pn1.
  assert (forall j, (j < WIDTH)%nat ->
     word (if (k <=? i)%nat then or_word pn1 (i - k) (Z.shiftr (word a i) s) else pn1) j =
     Z.lor (word pn1 j) (if decide (i = j + k)%nat then Z.shiftr (word a i) s else 0)) as Hw2.
  { clear Hw1. intros j Hj. destruct (Nat.leb_spec k i); [|case_decide; [lia|by rewrite Z.lor_0_r]].
    rewrite word_or_word by (destruct Hok1; lia).
    repeat case_decide; subst; try lia; by rewrite ?Z.lor_0_r. }
  split; [destruct (k <=? i)%nat; [apply or_word_ok; [apply shiftr_ok; [auto with uint|lia]|done]|done]|].
  intros j Hj. rewrite Hw2, Hw1, Hw by done. unfold shr_word.
  repeat case_decide; try lia;
    try replace (j + k + 1)%nat with i by lia; try replace (j + k)%nat with i by lia;
    rewrite ?Z.lor_0_l, ?Z.lor_0_r; try done; apply Z.lor_comm.
Qed.

Lemma shr_assign_spec a shift : 0 <= shift -> uint_ok a ->
  uint_ok (shr_assign a shift) /\ val (shr_assign a shift) = val a / 2 ^ shift.
Proof.
  intros Hsh Ha. pose proof (Z.mod_pos_bound shift 32 ltac:(lia)) as Hs.
  destruct (shr_loop_words a (Z.to_nat (shift / 32)) (shift mod 32) WIDTH Hs Ha ltac:(lia)) as [Hok Hw].
  fold (shr_assign a shift) in Hok, Hw. split; [done|].
  pose proof (val_bound a Ha) as Hv.
  assert (0 < 2 ^ shift) by (apply Z.pow_pos_nonneg; lia).
  apply val_bits_inj; [done|split; [apply Z.div_pos|apply Z.div_lt_upper_bound]; nia|]. intros m Hm.
  set (j := Z.to_nat (m / 32)). set (r := m mod 32).
  assert (0 <= m / 32 < 8) by (split; [apply Z.div_pos|apply Z.div_lt_upper_bound]; lia).
  pose proof (Z.mod_pos_bound m 32 ltac:(lia)) as Hr. fold r in Hr.
  pose proof (Z.div_mod m 32 ltac:(lia)) as Em. fold r in Em.
  pose proof (Z.div_mod shift 32 ltac:(lia)) as Esh.
  assert (0 <= shift / 32) by (apply Z.div_pos; lia).
  rewrite Hw by (unfold j, WIDTH; lia).
  rewrite Z.div_pow2_bits, val_testbit by (auto with uint; lia).
  set (s := shift mod 32) in *. set (k := Z.to_nat (shift / 32)).
  unfold shr_word. rewrite Z.lor_spec.
  assert (forall i, (WIDTH <= i)%nat -> word a i = 0) as Hhigh.
  { intros i Hi. unfold word. apply nth_overflow. destruct Ha; lia. }
  destruct (Z.ltb_spec (r + s) 32).
  - replace ((m + shift) / 32) with (m / 32 + shift / 32).
    2: { apply (Z.div_unique_pos _ _ _ (r + s)); lia. }
    replace ((m + shift) mod 32) with (r + s).
    2: { apply (Z.mod_unique_pos _ _ (m / 32 + shift / 32)); lia. }
    replace (Z.to_nat (m / 32 + shift / 32)) with (j + k)%nat by (unfold j, k; lia).
    replace (Z.testbit (if decide ((j + k + 1 < WIDTH)%nat /\ s <> 0) then _ else 0) r) with false.
    2: { case_decide; [|by rewrite Z.testbit_0_l].
         rewrite uwrap_testbit, Z.shiftl_spec, (Z.testbit_neg_r _ (r - _)), andb_false_r by lia. done. }
    rewrite orb_false_r. case_decide; [by rewrite Z.shiftr_spec by lia|].
    rewrite Hhigh by lia. by rewrite !Z.testbit_0_l.
  - replace ((m + shift) / 32) with (m / 32 + shift / 32 + 1).
    2: { apply (Z.div_unique_pos _ _ _ (r + s - 32)); lia. }
    replace ((m + shift) mod 32) with (r + s - 32).
    2: { apply (Z.mod_unique_pos _ _ (m / 32 + shift / 32 + 1)); lia. }
    replace (Z.to_nat (m / 32 + shift / 32 + 1)) with (j + k + 1)%nat by (unfold j, k; lia).
    replace (Z.testbit (if decide (j + k < WIDTH)%nat then _ else 0) r) with false.
    2: { case_decide; [|by rewrite Z.testbit_0_l].
         rewrite Z.shiftr_spec, digit_testbit_high by (auto with uint; lia). done. }
    rewrite orb_false_l. case_decide.
    + rewrite uwrap_testbit, Z.shiftl_spec by lia.
      destruct (Z.ltb_spec r 32); [|lia]. rewrite andb_true_l. f_equal. lia.
    + rewrite Hhigh by lia. by rewrite !Z.testbit_0_l.
Qed.

(** ** Comparison *)

Lemma cmp_loop_spec a b :
  length a = length b -> Forall (digit_ok 32) a -> Forall (digit_ok 32) b ->
  cmp_loop a b = match le_val 32 (rev a) ?= le_val 32 (rev b) with Lt => -1 | Eq => 0 | Gt => 1 end.
Proof.
  intros Hlen Ha. revert b Hlen. induction Ha as [|x a Hx Ha IH]; intros b Hlen Hb.
  - by destruct b.
  - destruct b as [|y b]; [done|]. inversion Hb as [|? ? Hy Hb']; subst. cbn [cmp_loop rev length] in *.
    rewrite !le_val_app, !length_rev by lia. replace (length b) with (length a) by lia. cbn [le_val].
    rewrite IH by (done || lia).
    pose proof (le_val_bound 32 (rev a) ltac:(lia) ltac:(by apply Forall_rev)) as Ba.
    pose proof (le_val_bound 32 (rev b) ltac:(lia) ltac:(by apply Forall_rev)) as Bb.
    rewrite length_rev in Ba, Bb. replace (length b) with (length a) in Bb by lia.
    set (M := 2 ^ (32 * Z.of_nat (length a))) in *.
    rewrite digit32 in *. rewrite Z.gtb_ltb.
    destruct (Z.ltb_spec x y); [|destruct (Z.ltb_spec y x)].
    + destruct (Z.compare_spec (le_val 32 (rev a) + M * (x + 2 ^ 32 * 0)) (le_val 32 (rev b) + M * (y + 2 ^ 32 * 0))); nia.
    + destruct (Z.compare_spec (le_val 32 (rev a) + M * (x + 2 ^ 32 * 0)) (le_val 32 (rev b) + M * (y + 2 ^ 32 * 0))); nia.
    + assert (x = y) as -> by lia. repeat case (Z.compare_spec _ _); intros; lia.
Qed.

Lemma CompareTo_spec a b : uint_ok a -> uint_ok b ->
  CompareTo a b = match val a ?= val b with Lt => -1 | Eq => 0 | Gt => 1 end.
Proof.
  intros [La Ha] [Lb Hb]. unfold CompareTo.
  rewrite cmp_loop_spec; [by rewrite !rev_involutive|rewrite !length_rev; congruence|by apply Forall_rev..].
Qed.

Lemma ugt_spec a b : uint_ok a -> uint_ok b -> ugt a b = (val b <? val a).
Proof.
  intros Ha Hb. unfold ugt. rewrite CompareTo_spec by done.
  destruct (Z.compare_spec (val a) (val b)), (Z.ltb_spec (val b) (val a)); lia || done.
Qed.
Lemma ult_spec a b : uint_ok a -> uint_ok b -> ult a b = (val a <? val b).
Proof.
  intros Ha Hb. unfold ult. rewrite CompareTo_spec by done.
  destruct (Z.compare_spec (val a) (val b)), (Z.ltb_spec (val a) (val b)); lia || done.
Qed.
Lemma uge_spec a b : uint_ok a -> uint_ok b -> uge a b = (val b <=? val a).
Proof.
  intros Ha Hb. unfold uge. rewrite CompareTo_spec by done.
  destruct (Z.compare_spec (val a) (val b)), (Z.leb_spec (val b) (val a)); lia || done.
Qed.
Lemma ule_spec a b : uint_ok a -> uint_ok b -> ule a b = (val a <=? val b).
Proof.
  intros Ha Hb. unfold ule. rewrite CompareTo_spec by done.
  destruct (Z.compare_spec (val a) (val b)), (Z.leb_spec (val a) (val b)); lia || done.
Qed.
Lemma ueq_spec a b : uint_ok a -> uint_ok b -> ueq a b = (val a =? val b).
Proof.
  intros Ha Hb. unfold ueq. apply eq_bool_prop_intro. rewrite bool_decide_spec.
  destruct (Z.eqb_spec (val a) (val b)); split; intros H; try done.
  - by apply val_inj.
  - subst. done.
Qed.

Lemma existsb_nonzero l : Forall (digit_ok 32) l ->
  existsb (fun x => negb (x =? 0)) l = negb (le_val 32 l =? 0).
Proof.
  induction 1 as [|x l Hx Hl IH]; [done|]. cbn [existsb le_val]. rewrite IH.
  pose proof (le_val_bound 32 l ltac:(lia) Hl). rewrite digit32 in Hx.
  destruct (Z.eqb_spec x 0), (Z.eqb_spec (le_val 32 l) 0), (Z.eqb_spec (x + 2 ^ 32 * le_val 32 l) 0);
    cbn; lia || done.
Qed.

Lemma EqualTo_spec a b : uint_ok a -> 0 <= b < 2 ^ 64 -> EqualTo a b = (val a =? b).
Proof.
  intros [La Ha] Hb. unfold EqualTo, val.
  destruct a as [|x [|y a]]; [done|done|]. cbn [drop word nth le_val].
  inversion Ha as [|? ? Hx Ha']; subst. inversion Ha' as [|? ? Hy Ha'']; subst.
  rewrite drop_0, existsb_nonzero, land_max, Z.shiftr_div_pow2 by (done || lia).
  pose proof (le_val_bound 32 a ltac:(lia) Ha''). rewrite digit32 in *.
  pose proof (Z.div_mod b (2 ^ 32)). pose proof (Z.mod_pos_bound b (2 ^ 32)).
  unfold word; cbn [nth].
  assert (0 <= b / 2 ^ 32 < 2 ^ 32) by (split; [apply Z.div_pos|apply Z.div_lt_upper_bound]; lia).
  destruct (Z.eqb_spec (le_val 32 a) 0); cbn [negb].
  2: { symmetry. apply Z.eqb_neq. lia. }
  destruct (Z.eqb_spec y (b / 2 ^ 32)); cbn [negb]; [|symmetry; apply Z.eqb_neq; nia].
  destruct (Z.eqb_spec x (b mod 2 ^ 32)); cbn [negb]; [symmetry; apply Z.eqb_eq; lia|symmetry; apply Z.eqb_neq; lia].
Qed.

(** ** Bit length *)

Lemma word_bits_spec x n : 0 < x < 2 ^ (Z.of_nat n + 1) -> word_bits x n = Z.log2 x + 1.
Proof.
  induction n as [|n IH]; intros Hx.
  - change (2 ^ (Z.of_nat 0 + 1)) with 2 in Hx. assert (x = 1) as -> by lia. done.
  - cbn [word_bits]. set (i := Z.of_nat (S n)) in *.
    assert (Z.land x (Z.shiftl 1 i) = if Z.testbit x i then 2 ^ i else 0) as ->.
    { rewrite Z.shiftl_1_l. apply Z.bits_inj'. intros k Hk.
      rewrite Z.land_spec, Z.pow2_bits_eqb by lia.
      destruct (Z.eqb_spec i k) as [-> | ].
      - rewrite andb_true_r. destruct (Z.testbit x k); [by rewrite Z.pow2_bits_true|by rewrite Z.bits_0].
      - rewrite andb_false_r. destruct (Z.testbit x i); [by rewrite Z.pow2_bits_false|by rewrite Z.bits_0]. }
    destruct (Z.testbit x i) eqn:E.
    + assert (0 < 2 ^ i) by (apply Z.pow_pos_nonneg; lia).
      destruct (Z.eqb_spec (2 ^ i) 0); [lia|]. f_equal.
      symmetry. apply Z.log2_unique; [lia|]. split; [|lia].
      destruct (Z.le_gt_cases (2 ^ i) x) as [|Hlt]; [done|].
      rewrite <- (Z.mod_small x (2 ^ i)), Z.mod_pow2_bits_high in E by lia. done.
    + rewrite Z.eqb_refl. apply IH. split; [lia|].
      destruct (Z.lt_ge_cases x (2 ^ i)) as [|Hge]; [unfold i in *; by replace (Z.of_nat n + 1) with (Z.of_nat (S n)) by lia|].
      pose proof (Z.bit_log2 x ltac:(lia)) as E'.
      replace (Z.log2 x) with i in E'; [congruence|].
      symmetry. apply Z.log2_unique; [lia|]. rewrite <- Z.add_1_r. lia.
Qed.

(** The reference meaning of [bits]: the number of binary digits. *)
Definition bit_length (v : Z) : Z := if v =? 0 then 0 else Z.log2 v + 1.

Lemma bits_loop_spec ra pos : Forall (digit_ok 32) ra -> pos + 1 = Z.of_nat (length ra) ->
  bits_loop ra pos = bit_length (le_val 32 (rev ra)).
Proof.
  intros Hra. revert pos. induction Hra as [|x ra Hx Hra IH]; intros pos Hpos; [done|].
  cbn [bits_loop rev length] in *. rewrite le_val_app, length_rev by lia. cbn [le_val].
  pose proof (le_val_bound 32 (rev ra) ltac:(lia) ltac:(by apply Forall_rev)) as Hb.
  rewrite length_rev in Hb. rewrite digit32 in Hx.
  destruct (Z.eqb_spec x 0) as [-> | ].
  - rewrite IH by lia. f_equal. lia.
  - rewrite word_bits_spec by (change (2 ^ (Z.of_nat 31 + 1)) with 4294967296; lia).
    set (M := 2 ^ (32 * Z.of_nat (length ra))) in *. assert (0 < M) by (apply Z.pow_pos_nonneg; lia).
    unfold bit_length. destruct (Z.eqb_spec (le_val 32 (rev ra) + M * (x + 2 ^ 32 * 0)) 0); [nia|].
    rewrite Z.add_assoc. f_equal. symmetry.
    pose proof (Z.log2_spec x ltac:(lia)). pose proof (Z.log2_nonneg x).
    apply Z.log2_unique; [lia|].
    rewrite Z.pow_succ_r in * by lia. rewrite Z.pow_add_r by lia.
    replace (32 * pos) with (32 * Z.of_nat (length ra)) by lia. fold M. nia.
Qed.

Lemma bits_spec a : uint_ok a -> bits a = bit_length (val a).
Proof.
  intros [La Ha]. unfold bits. rewrite bits_loop_spec.
  - by rewrite rev_involutive.
  - by apply Forall_rev.
  - rewrite length_rev, La. done.
Qed.

Lemma bit_length_bounds v : 0 <= v -> v < 2 ^ bit_length v /\ 0 <= bit_length v /\
  (v <> 0 -> 2 ^ (bit_length v - 1) <= v /\ 0 < bit_length v).
Proof.
  intros Hv. unfold bit_length. destruct (Z.eqb_spec v 0) as [-> | ]; [cbn; lia|].
  pose proof (Z.log2_spec v ltac:(lia)). pose proof (Z.log2_nonneg v).
  replace (Z.log2 v + 1 - 1) with (Z.log2 v) by lia.
  rewrite <- Z.add_1_r in *. lia.
Qed.

Lemma bit_length_le v n : 0 <= v < 2 ^ n -> 0 <= n -> bit_length v <= n.
Proof.
  intros Hv Hn. unfold bit_length. destruct (Z.eqb_spec v 0); [lia|].
  assert (Z.log2 v < n) by (apply Z.log2_lt_pow2; lia). lia.
Qed.

(** ** Bitwise operators *)

Lemma zip_bitwise_spec (f : Z -> Z -> Z) (g : bool -> bool -> bool) a b :
  (forall x y i, 0 <= i -> Z.testbit (f x y) i = g (Z.testbit x i) (Z.testbit y i)) ->
  (forall x y, digit_ok 32 x -> digit_ok 32 y -> digit_ok 32 (f x y)) ->
  uint_ok a -> uint_ok b -> 0 <= f (val a) (val b) < 2 ^ 256 ->
  uint_ok (zip_with f a b) /\ val (zip_with f a b) = f (val a) (val b).
Proof.
  intros Hf Hd [La Ha] [Lb Hb] Hr.
  assert (uint_ok (zip_with f a b)) as Hok.
  { split; [rewrite length_zip_with; lia|].
    clear -Ha Hb Hd. revert b Hb. induction Ha; intros [|y b] Hb; cbn; constructor; inversion Hb; auto. }
  split; [done|]. apply val_bits_inj; [done|done|]. intros m Hm.
  assert (0 <= m / 32 < 8) by (split; [apply Z.div_pos|apply Z.div_lt_upper_bound]; lia).
  pose proof (Z.mod_pos_bound m 32 ltac:(lia)).
  rewrite Hf, !val_testbit by (done || lia). rewrite <- Hf by lia. f_equal.
  unfold word. rewrite !nth_lookup, lookup_zip_with.
  destruct (lookup_lt_is_Some_2 a (Z.to_nat (m / 32))) as [x Hx]; [unfold WIDTH in *; lia|].
  destruct (lookup_lt_is_Some_2 b (Z.to_nat (m / 32))) as [y Hy]; [unfold WIDTH in *; lia|].
  by rewrite Hx, Hy.
Qed.

Lemma pow2_bound_of_bits n x : 0 <= n -> 0 <= x -> (forall i, n <= i -> Z.testbit x i = false) -> x < 2 ^ n.
Proof.
  intros Hn Hx H. destruct (Z.lt_ge_cases x (2 ^ n)) as [|Hge]; [done|].
  assert (0 < 2 ^ n) by (apply Z.pow_pos_nonneg; lia).
  assert (n <= Z.log2 x) as Hl by (apply Z.log2_le_pow2; lia).
  pose proof (Z.bit_log2 x ltac:(lia)) as E. by rewrite (H _ Hl) in E.
Qed.

Lemma bitop_bound (f : Z -> Z -> Z) (g : bool -> bool -> bool) n x y :
  (forall x y i, 0 <= i -> Z.testbit (f x y) i = g (Z.testbit x i) (Z.testbit y i)) ->
  g false false = false -> (forall x y, 0 <= x -> 0 <= y -> 0 <= f x y) ->
  0 <= n -> 0 <= x < 2 ^ n -> 0 <= y < 2 ^ n -> 0 <= f x y < 2 ^ n.
Proof.
  intros Hf Hg Hnn Hn Hx Hy. split; [apply Hnn; lia|].
  apply pow2_bound_of_bits; [done|apply Hnn; lia|]. intros i Hi.
  rewrite Hf by lia. by rewrite !(small_testbit_high n) by lia.
Qed.

Lemma and_assign_spec a b : uint_ok a -> uint_ok b ->
  uint_ok (and_assign a b) /\ val (and_assign a b) = Z.land (val a) (val b).
Proof.
  intros Ha Hb. pose proof (val_bound a Ha). pose proof (val_bound b Hb).
  assert (forall n x y, 0 <= n -> 0 <= x < 2 ^ n -> 0 <= y < 2 ^ n -> 0 <= Z.land x y < 2 ^ n).
  { intros. eapply (bitop_bound Z.land andb); eauto; [intros; apply Z.land_spec|].
    intros; apply Z.land_nonneg; lia. }
  apply (zip_bitwise_spec Z.land andb); auto with lia; [intros; apply Z.land_spec|].
  intros; apply H1; auto; lia.
Qed.

Lemma or_assign_spec a b : uint_ok a -> uint_ok b ->
  uint_ok (or_assign a b) /\ val (or_assign a b) = Z.lor (val a) (val b).
Proof.
  intros Ha Hb. pose proof (val_bound a Ha). pose proof (val_bound b Hb).
  apply (zip_bitwise_spec Z.lor orb); auto with uint; [intros; apply Z.lor_spec|].
  apply (bitop_bound Z.lor orb); auto; try lia; [intros; apply Z.lor_spec|].
  intros; apply Z.lor_nonneg; lia.
Qed.

Lemma xor_assign_spec a b : uint_ok a -> uint_ok b ->
  uint_ok (xor_assign a b) /\ val (xor_assign a b) = Z.lxor (val a) (val b).
Proof.
  intros Ha Hb. pose proof (val_bound a Ha). pose proof (val_bound b Hb).
  assert (forall n x y, 0 <= n -> 0 <= x < 2 ^ n -> 0 <= y < 2 ^ n -> 0 <= Z.lxor x y < 2 ^ n).
  { intros. eapply (bitop_bound Z.lxor xorb); eauto; [intros; apply Z.lxor_spec|].
    intros; apply Z.lxor_nonneg; lia. }
  apply (zip_bitwise_spec Z.lxor xorb); auto with lia; [intros; apply Z.lxor_spec|].
  intros; apply H1; auto; lia.
Qed.

(** ** Division *)

(** Setting a clear bit adds its weight. *)
Lemma or_bit_spec q s : uint_ok q -> (s < 256)%nat -> Z.testbit (val q) (Z.of_nat s) = false ->
  let q' := or_word q (s / 32) (Z.shiftl 1 (Z.land (Z.of_nat s) 31)) in
  uint_ok q' /\ val q' = val q + 2 ^ Z.of_nat s.
Proof.
  intros Hq Hs Hbit q'. pose proof (val_bound q Hq) as Hv.
  subst q'. change 31 with (Z.ones 5). rewrite Z.land_ones by lia. change (2 ^ 5) with 32.
  set (q' := or_word _ _ _).
  pose proof (Z.mod_pos_bound (Z.of_nat s) 32 ltac:(lia)) as Hr.
  assert (Hdig : digit_ok 32 (Z.shiftl 1 (Z.of_nat s mod 32))).
  { rewrite Z.shiftl_1_l. split; [apply Z.pow_nonneg; lia|apply Z.pow_lt_mono_r; lia]. }
  assert (uint_ok q') as Hok by (by apply or_word_ok).
  split; [done|].
  assert (val q + 2 ^ Z.of_nat s = Z.lor (val q) (2 ^ Z.of_nat s)) as ->.
  { rewrite Z.add_nocarry_lxor, Z.lxor_lor.
    - done.
    - apply Z.bits_inj'. intros i Hi. rewrite Z.land_spec, Z.bits_0, Z.pow2_bits_eqb by lia.
      destruct (Z.eqb_spec (Z.of_nat s) i) as [<- | ]; [by rewrite Hbit|apply andb_false_r].
    - apply Z.bits_inj'. intros i Hi. rewrite Z.land_spec, Z.bits_0, Z.pow2_bits_eqb by lia.
      destruct (Z.eqb_spec (Z.of_nat s) i) as [<- | ]; [by rewrite Hbit|apply andb_false_r]. }
  apply val_bits_inj; [done| |].
  { apply (bitop_bound Z.lor orb); auto; try lia; [intros; apply Z.lor_spec|intros; apply Z.lor_nonneg; lia|].
    split; [apply Z.pow_nonneg; lia|apply Z.pow_lt_mono_r; lia]. }
  intros m Hm.
  assert (0 <= m / 32 < 8) by (split; [apply Z.div_pos|apply Z.div_lt_upper_bound]; lia).
  pose proof (Z.mod_pos_bound m 32 ltac:(lia)). pose proof (Z.div_mod m 32 ltac:(lia)) as Em.
  pose proof (Z.div_mod (Z.of_nat s) 32 ltac:(lia)) as Es.
  assert (Z.of_nat (s / 32) = Z.of_nat s / 32) as Esn by (rewrite Nat2Z.inj_div; done).
  assert (0 <= Z.of_nat s / 32 < 8) by (split; [apply Z.div_pos|apply Z.div_lt_upper_bound]; lia).
  rewrite Z.lor_spec, Z.pow2_bits_eqb, val_testbit by (auto with uint; lia).
  unfold q'. rewrite word_or_word by (destruct Hq; unfold WIDTH in *; lia).
  case_decide as Ed.
  - rewrite Ed, Z.lor_spec, Z.shiftl_1_l, Z.pow2_bits_eqb by lia. f_equal.
    destruct (Z.eqb_spec (Z.of_nat s mod 32) (m mod 32)), (Z.eqb_spec (Z.of_nat s) m); lia || done.
  - destruct (Z.eqb_spec (Z.of_nat s) m) as [<- | ]; [lia|]. by rewrite orb_false_r.
Qed.

Lemma pow2_multiple_testbit x n i : 0 <= i < n -> (2 ^ n | x) -> Z.testbit x i = false.
Proof. intros Hi [y ->]. apply Z.mul_pow2_bits_low. lia. Qed.

Lemma div_loop_spec n num div q D :
  (n <= 256)%nat -> 0 < D -> uint_ok num -> uint_ok div -> uint_ok q ->
  (forall s, n = S s -> val div = D * 2 ^ Z.of_nat s) ->
  val num < D * 2 ^ Z.of_nat n -> (2 ^ Z.of_nat n | val q) ->
  let '(q', num') := div_loop n num div q in
  uint_ok q' /\ uint_ok num' /\ val q' = val q + val num / D /\ val num' = val num mod D.
Proof.
  revert num div q. induction n as [|s IH]; intros num div q Hn HD Hnum Hdiv Hq Hd Hlt Hm.
  - cbn [div_loop]. change (2 ^ Z.of_nat 0) with 1 in Hlt. pose proof (val_bound num Hnum).
    rewrite Z.div_small, Z.mod_small by lia. repeat split; auto; try apply Hq; try apply Hnum. lia.
  - cbn [div_loop]. specialize (Hd s eq_refl).
    pose proof (val_bound num Hnum) as Bn. pose proof (val_bound div Hdiv) as Bd.
    destruct (shr_assign_spec div 1 ltac:(lia) Hdiv) as [Hd1 Hd1v]. change (2 ^ 1) with 2 in Hd1v.
    assert (forall s', s = S s' -> val (shr_assign div 1) = D * 2 ^ Z.of_nat s') as Hd1'.
    { intros s' ->. rewrite Hd1v, Hd, Nat2Z.inj_succ, Z.pow_succ_r by lia.
      rewrite (Z.mul_comm 2), Z.mul_assoc, Z.div_mul by lia. done. }
    assert (Z.testbit (val q) (Z.of_nat s) = false) as Hbit.
    { apply (pow2_multiple_testbit _ (Z.of_nat (S s))); [lia|done]. }
    assert (2 ^ Z.of_nat (S s) = 2 * 2 ^ Z.of_nat s) as Ep by (rewrite Nat2Z.inj_succ, Z.pow_succ_r; lia).
    assert (0 < 2 ^ Z.of_nat s) by (apply Z.pow_pos_nonneg; lia).
    rewrite Ep in Hm, Hlt.
    assert (2 ^ Z.of_nat s | val q) as Hm' by (destruct Hm as [y ->]; exists (2 * y); lia).
    rewrite uge_spec by done. destruct (Z.leb_spec (val div) (val num)).
    + destruct (or_bit_spec q s Hq ltac:(lia) Hbit) as [Hq' Hq'v].
      assert (val (sub_assign num div) = val num - D * 2 ^ Z.of_nat s) as Es.
      { rewrite sub_assign_val, Z.mod_small by (done || lia). lia. }
      specialize (IH (sub_assign num div) (shr_assign div 1) (or_word q (s / 32) (Z.shiftl 1 (Z.land (Z.of_nat s) 31)))).
      destruct (div_loop s _ _ _) as [q' num'].
      destruct IH as (? & ? & Eq & En); auto using sub_assign_ok with lia.
      { rewrite Hq'v. apply Z.divide_add_r; [done|apply Z.divide_refl]. }
      repeat split; try apply H; try done; try apply H2; try apply H1.
      * rewrite Eq, Hq'v, Es. replace (val num - D * 2 ^ Z.of_nat s) with (val num + (- 2 ^ Z.of_nat s) * D) by lia.
        rewrite Z.div_add by lia. lia.
      * rewrite En, Es. replace (val num - D * 2 ^ Z.of_nat s) with (val num + (- 2 ^ Z.of_nat s) * D) by lia.
        by rewrite Z.mod_add by lia.
    + specialize (IH num (shr_assign div 1) q).
      destruct (div_loop s _ _ _) as [q' num']. apply IH; auto; lia.
Qed.

Lemma div_assign_zero a b : uint_ok b -> div_assign a b = None <-> val b = 0.
Proof.
  intros Hb. unfold div_assign. rewrite (bits_spec b Hb). pose proof (val_bound b Hb).
  unfold bit_length at 1. destruct (Z.eqb_spec (val b) 0) as [E|E]; [done|].
  pose proof (Z.log2_nonneg (val b)). case_Z; [lia|]. case_match; split; done || lia.
Qed.

Lemma div_assign_spec a b : uint_ok a -> uint_ok b -> val b <> 0 ->
  exists q, div_assign a b = Some q /\ uint_ok q /\ val q = val a / val b.
Proof.
  intros Ha Hb Hne. unfold div_assign. rewrite !bits_spec by done.
  pose proof (val_bound a Ha). pose proof (val_bound b Hb).
  destruct (bit_length_bounds (val a)) as (Ua & Pa & La); [lia|].
  destruct (bit_length_bounds (val b)) as (Ub & Pb & Lb); [lia|]. destruct (Lb Hne) as [Lb1 Lb2].
  pose proof (bit_length_le (val a) 256 ltac:(lia) ltac:(lia)).
  set (na := bit_length (val a)) in *. set (nb := bit_length (val b)) in *.
  case_Z; [lia|]. rewrite Z.gtb_ltb. case_Z.
  - exists base_uint_zero. split; [done|]. split; [apply zero_ok|].
    rewrite val_zero. symmetry. apply Z.div_small. split; [lia|].
    assert (2 ^ na <= 2 ^ (nb - 1)) by (apply Z.pow_le_mono_r; lia). lia.
  - assert (Hprod : val b * 2 ^ (na - nb) < 2 ^ na).
    { replace (2 ^ na) with (2 ^ nb * 2 ^ (na - nb)) by (rewrite <- Z.pow_add_r by lia; f_equal; lia).
      apply Z.mul_lt_mono_pos_r; [apply Z.pow_pos_nonneg; lia|lia]. }
    assert (2 ^ na <= 2 ^ 256) by (apply Z.pow_le_mono_r; lia).
    assert (0 < 2 ^ (na - nb)) by (apply Z.pow_pos_nonneg; lia).
    destruct (shl_assign_spec b (na - nb) ltac:(lia) Hb) as [Hs Hsv].
    rewrite Z.mod_small in Hsv by nia.
    eexists. split; [reflexivity|].
    pose proof (div_loop_spec (Z.to_nat (na - nb + 1)) a (shl_assign b (na - nb)) base_uint_zero (val b)) as HL.
    destruct (div_loop _ _ _ _) as [q num]. cbn [fst].
    destruct HL as (? & ? & ? & ?); auto using zero_ok; try lia.
    + intros s Es. rewrite Hsv. do 2 f_equal. lia.
    + rewrite Z2Nat.id by lia.
      assert (2 ^ na <= val b * 2 ^ (na - nb + 1)); [|lia].
      replace (2 ^ na) with (2 ^ (nb - 1) * 2 ^ (na - nb + 1)) by (rewrite <- Z.pow_add_r by lia; f_equal; lia).
      apply Z.mul_le_mono_nonneg_r; [apply Z.pow_nonneg; lia|lia].
    + rewrite val_zero. apply Z.divide_0_r.
Qed.

(** ** The compact representation *)

(** The fields of a compact word and the number N it stands for (arith_uint256.h). *)
Definition compact_size (c : Z) : Z := c / 2 ^ 24.
Definition compact_mantissa (c : Z) : Z := c mod 2 ^ 23.
Definition compact_number (c : Z) : Z :=
  if compact_size c <=? 3 then compact_mantissa c / 2 ^ (8 * (3 - compact_size c))
  else compact_mantissa c * 2 ^ (8 * (compact_size c - 3)).

Lemma land_low23 c : Z.land c 8388607 = c mod 2 ^ 23.
Proof. change 8388607 with (Z.ones 23). apply Z.land_ones. lia. Qed.

Lemma land_pow2_test x n : 0 <= n -> (Z.land x (2 ^ n) =? 0) = negb (Z.testbit x n).
Proof.
  intros Hn. destruct (Z.testbit x n) eqn:E; cbn [negb].
  - apply Z.eqb_neq. intros H0. assert (Z.testbit (Z.land x (2 ^ n)) n = true) as H1.
    { by rewrite Z.land_spec, E, Z.pow2_bits_true. }
    by rewrite H0, Z.bits_0 in H1.
  - apply Z.eqb_eq, Z.bits_inj'. intros i Hi. rewrite Z.land_spec, Z.pow2_bits_eqb, Z.bits_0 by lia.
    destruct (Z.eqb_spec n i) as [<- | ]; [by rewrite E|apply andb_false_r].
Qed.

Lemma compact_overflow_test m n : 0 <= m < 2 ^ 23 -> 3 < n < 256 ->
  negb (m =? 0) && ((n >? 34) || ((m >? 255) && (n >? 33)) || ((m >? 65535) && (n >? 32)))
  = (2 ^ 256 <=? m * 2 ^ (8 * (n - 3))).
Proof.
  intros Hm Hn. rewrite !Z.gtb_ltb. symmetry.
  destruct (Z.ltb_spec 34 n).
  { assert (2 ^ 256 <= 2 ^ (8 * (n - 3))) by (apply Z.pow_le_mono_r; lia).
    rewrite orb_true_l. destruct (Z.eqb_spec m 0) as [-> | ]; [done|]. apply Z.leb_le. nia. }
  destruct (Z.ltb_spec 33 n).
  { replace n with 34 by lia. change (2 ^ (8 * (34 - 3))) with (2 ^ 248).
    destruct (Z.leb_spec (2 ^ 256) (m * 2 ^ 248)), (Z.ltb_spec 255 m), (Z.eqb_spec m 0), (Z.ltb_spec 65535 m); cbn; lia || done. }
  destruct (Z.ltb_spec 32 n).
  { replace n with 33 by lia. change (2 ^ (8 * (33 - 3))) with (2 ^ 240).
    destruct (Z.leb_spec (2 ^ 256) (m * 2 ^ 240)), (Z.ltb_spec 255 m), (Z.eqb_spec m 0), (Z.ltb_spec 65535 m); cbn; lia || done. }
  assert (2 ^ (8 * (n - 3)) <= 2 ^ 232) by (apply Z.pow_le_mono_r; lia).
  assert (0 < 2 ^ (8 * (n - 3))) by (apply Z.pow_pos_nonneg; lia).
  rewrite !andb_false_r. cbn [orb]. rewrite ?andb_false_r. apply Z.leb_gt. nia.
Qed.

Lemma SetCompact_fields c : 0 <= c < 2 ^ 32 ->
  let r := SetCompact c in
  uint_ok (cr_value r) /\
  val (cr_value r) = compact_number c mod 2 ^ 256 /\
  cr_overflow r = (2 ^ 256 <=? compact_number c) /\
  cr_negative r = negb (compact_number c =? 0) && Z.testbit c 23.
Proof.
  intros Hc. unfold SetCompact. rewrite land_low23, Z.shiftr_div_pow2 by lia.
  change 8388608 with (2 ^ 23). rewrite land_pow2_test, negb_involutive by lia.
  unfold compact_number. fold (compact_size c) (compact_mantissa c).
  assert (0 <= compact_size c < 256) by (unfold compact_size; split; [apply Z.div_pos|apply Z.div_lt_upper_bound]; lia).
  assert (0 <= compact_mantissa c < 2 ^ 23) by (apply Z.mod_pos_bound; lia).
  set (n := compact_size c) in *. set (m := compact_mantissa c) in *.
  destruct (Z.leb_spec n 3); cbv zeta; cbn [cr_value cr_negative cr_overflow].
  - rewrite Z.shiftr_div_pow2 by lia.
    assert (0 < 2 ^ (8 * (3 - n))) by (apply Z.pow_pos_nonneg; lia).
    assert (0 <= m / 2 ^ (8 * (3 - n)) < 2 ^ 23) by (split; [apply Z.div_pos|apply Z.div_lt_upper_bound]; nia).
    split; [apply base_uint_of_ok|]. rewrite val_base_uint_of, Z.mod_small by lia.
    repeat split. rewrite !Z.gtb_ltb.
    destruct (Z.ltb_spec 34 n), (Z.ltb_spec 33 n), (Z.ltb_spec 32 n); try lia.
  - assert (0 < 2 ^ (8 * (n - 3))) by (apply Z.pow_pos_nonneg; lia).
    destruct (shl_assign_spec (base_uint_of m) (8 * (n - 3)) ltac:(lia) (base_uint_of_ok m)) as [Hok Hv].
    rewrite val_base_uint_of in Hv by lia.
    split; [done|]. split; [done|]. split; [apply compact_overflow_test; lia|].
    f_equal. f_equal. destruct (Z.eqb_spec m 0), (Z.eqb_spec (m * 2 ^ (8 * (n - 3))) 0); nia || done.
Qed.

Lemma GetLow64_spec a : uint_ok a -> GetLow64 a = val a mod 2 ^ 64.
Proof.
  intros [La Ha]. destruct a as [|x [|y a]]; [done|done|]. unfold GetLow64, word, val. cbn [nth le_val].
  inversion Ha as [|? ? Hx Ha']; subst. inversion Ha' as [|? ? Hy Ha'']; subst. rewrite digit32 in *.
  replace (x + 2 ^ 32 * (y + 2 ^ 32 * le_val 32 a)) with ((x + 2 ^ 32 * y) + le_val 32 a * 2 ^ 64) by lia.
  rewrite Z.mod_add, Z.mod_small by lia. rewrite Z.shiftl_mul_pow2 by lia.
  rewrite lor_add by lia. lia.
Qed.

(** The byte length of a number, one more when its top bit would read as the sign. *)
Definition compact_bytes (v : Z) : Z :=
  let n := (bit_length v + 7) / 8 in if bit_length v =? 8 * n then (if v =? 0 then 0 else n + 1) else n.

(** The bits [GetCompact] drops. *)
Definition compact_shift (v : Z) : Z := 8 * Z.max 0 (compact_bytes v - 3).

Lemma compact_join m n : 0 <= m < 2 ^ 23 -> 0 <= n < 256 ->
  let c := Z.lor m (u32 (Z.shiftl n 24)) in
  c = m + n * 2 ^ 24 /\ 0 <= c < 2 ^ 32 /\ compact_size c = n /\ compact_mantissa c = m.
Proof.
  intros Hm Hn c.
  assert (c = m + n * 2 ^ 24) as Ec.
  { unfold c. rewrite Z.shiftl_mul_pow2, uwrap_small by lia.
    apply lor_add; lia. }
  rewrite Ec. repeat split; try lia; unfold compact_size, compact_mantissa.
  - rewrite Z.div_add, Z.div_small by lia. lia.
  - replace (n * 2 ^ 24) with ((n * 2) * 2 ^ 23) by lia. rewrite Z.mod_add, Z.mod_small by lia. done.
Qed.

(** What [GetCompact] computes before normalising the sign bit: the top three bytes. *)
Definition compact_top (v n : Z) : Z :=
  if n <=? 3 then v * 2 ^ (8 * (3 - n)) else v / 2 ^ (8 * (n - 3)).

Lemma compact_top_spec v : 0 <= v < 2 ^ 256 ->
  let n := (bit_length v + 7) / 8 in
  0 <= n <= 32 /\ 0 <= compact_top v n < 2 ^ 24 /\
  Z.testbit (compact_top v n) 23 = (bit_length v =? 8 * n) && negb (v =? 0).
Proof.
  intros Hv n. destruct (bit_length_bounds v) as (Hub & Hp & Hlb); [lia|].
  pose proof (bit_length_le v 256 ltac:(lia) ltac:(lia)).
  set (bl := bit_length v) in *.
  pose proof (Z.div_mod (bl + 7) 8 ltac:(lia)) as En. fold n in En.
  pose proof (Z.mod_pos_bound (bl + 7) 8 ltac:(lia)).
  destruct (Z.eqb_spec v 0) as [-> | Hne].
  { assert (bl = 0) as E by done. assert (n = 0) as -> by lia. done. }
  destruct (Hlb Hne) as [Hlow Hpos].
  assert (1 <= n <= 32) by lia. split; [lia|]. rewrite andb_true_r.
  (* the top three bytes carry the leading bits *)
  assert (0 <= compact_top v n < 2 ^ 24 /\
          (bl = 8 * n -> 2 ^ 23 <= compact_top v n) /\ (bl <> 8 * n -> compact_top v n < 2 ^ 23)) as (Ht & Ht1 & Ht2).
  { unfold compact_top. destruct (Z.leb_spec n 3).
    - assert (2 ^ bl <= 2 ^ (8 * n)) by (apply Z.pow_le_mono_r; lia).
      assert (0 < 2 ^ (8 * (3 - n))) by (apply Z.pow_pos_nonneg; lia).
      assert (2 ^ 24 = 2 ^ (8 * n) * 2 ^ (8 * (3 - n))) as E24 by (rewrite <- Z.pow_add_r by lia; f_equal; lia).
      split; [nia|]. split; intros Hb.
      + assert (2 ^ 23 = 2 ^ (bl - 1) * 2 ^ (8 * (3 - n))) as -> by (rewrite <- Z.pow_add_r by lia; f_equal; lia). nia.
      + assert (2 ^ bl <= 2 ^ (8 * n - 1)) by (apply Z.pow_le_mono_r; lia).
        assert (2 ^ 23 = 2 ^ (8 * n - 1) * 2 ^ (8 * (3 - n))) as -> by (rewrite <- Z.pow_add_r by lia; f_equal; lia). nia.
    - assert (2 ^ bl <= 2 ^ (8 * n)) by (apply Z.pow_le_mono_r; lia).
      assert (0 < 2 ^ (8 * (n - 3))) by (apply Z.pow_pos_nonneg; lia).
      assert (2 ^ (8 * n) = 2 ^ (8 * (n - 3)) * 2 ^ 24) as E24 by (rewrite <- Z.pow_add_r by lia; f_equal; lia).
      assert (2 ^ (8 * n - 1) = 2 ^ (8 * (n - 3)) * 2 ^ 23) as E23 by (rewrite <- Z.pow_add_r by lia; f_equal; lia).
      split; [split; [apply Z.div_pos; lia|apply Z.div_lt_upper_bound; lia]|]. split; intros Hb.
      + apply Z.div_le_lower_bound; [lia|]. replace (bl - 1) with (8 * n - 1) in Hlow by lia. lia.
      + apply Z.div_lt_upper_bound; [lia|].
        assert (2 ^ bl <= 2 ^ (8 * n - 1)) by (apply Z.pow_le_mono_r; lia). lia. }
  split; [done|]. destruct (Z.eqb_spec bl (8 * n)) as [Eb|Eb].
  - rewrite <- (Z.bit_log2 (compact_top v n)) by (specialize (Ht1 Eb); lia). f_equal.
    symmetry. apply Z.log2_unique; [lia|]. specialize (Ht1 Eb). change (Z.succ 23) with 24. lia.
  - apply (small_testbit_high 23); [specialize (Ht2 Eb); lia|lia].
Qed.

(** The mantissa of the compact form is the number shifted down by [compact_shift]. *)
Lemma compact_number_of_top v : 0 <= v < 2 ^ 256 ->
  let n0 := (bit_length v + 7) / 8 in
  let t := compact_top v n0 in
  let '(m, n) := if Z.testbit t 23 then (t / 2 ^ 8, n0 + 1) else (t, n0) in
  0 <= m < 2 ^ 23 /\ 0 <= n < 256 /\
  (if n <=? 3 then m / 2 ^ (8 * (3 - n)) else m * 2 ^ (8 * (n - 3)))
  = v / 2 ^ compact_shift v * 2 ^ compact_shift v.
Proof.
  intros Hv n0 t. destruct (compact_top_spec v Hv) as (Hn & Ht & Hbit). fold n0 t in Hn, Ht, Hbit.
  unfold compact_shift, compact_bytes. fold n0. rewrite Hbit.
  destruct (Z.eqb_spec (bit_length v) (8 * n0)) as [Eb|Eb]; cbn [andb];
    [destruct (Z.eqb_spec v 0) as [-> | ]; cbn [negb]|].
  - change t with 0. change n0 with 0. split; [lia|]. done.
  - split; [split; [apply Z.div_pos; lia|apply Z.div_lt_upper_bound; lia]|]. split; [lia|].
    unfold t, compact_top. destruct (Z.leb_spec (n0 + 1) 3).
    + destruct (Z.leb_spec n0 3); [|lia]. rewrite Z.max_l, Z.mul_0_r, Z.div_1_r, Z.mul_1_r by lia.
      rewrite Z.div_div by lia. rewrite <- Z.pow_add_r by lia.
      replace (8 + 8 * (3 - (n0 + 1))) with (8 * (3 - n0)) by lia. rewrite Z.div_mul; [done|].
      apply Z.pow_nonzero; lia.
    + rewrite Z.max_r by lia. replace (n0 + 1 - 3) with (n0 - 2) by lia. f_equal.
      destruct (Z.leb_spec n0 3).
      * assert (n0 = 3) as -> by lia. change (2 ^ (8 * (3 - 3))) with 1. rewrite Z.mul_1_r. done.
      * rewrite Z.div_div by (try apply Z.pow_pos_nonneg; try apply Z.pow_nonzero; lia).
        rewrite <- Z.pow_add_r by lia. do 2 f_equal. lia.
  - assert (t < 2 ^ 23).
    { destruct (Z.lt_ge_cases t (2 ^ 23)) as [|Hge]; [done|].
      pose proof (Z.bit_log2 t ltac:(lia)) as E. replace (Z.log2 t) with 23 in E; [by rewrite E in Hbit|].
      symmetry. apply Z.log2_unique; [lia|]. change (Z.succ 23) with 24. lia. }
    split; [lia|]. split; [lia|]. unfold t, compact_top. destruct (Z.leb_spec n0 3).
    + rewrite Z.max_l, Z.mul_0_r, Z.div_1_r, Z.mul_1_r by lia. apply Z.div_mul. apply Z.pow_nonzero; lia.
    + by rewrite Z.max_r by lia.
Qed.

Lemma GetCompact_total neg a : uint_ok a ->
  exists c m n, GetCompact_signed neg a = Some c /\ 0 <= m < 2 ^ 23 /\ 0 <= n < 256 /\
    c = m + (if neg && negb (m =? 0) then 2 ^ 23 else 0) + n * 2 ^ 24 /\
    (if n <=? 3 then m / 2 ^ (8 * (3 - n)) else m * 2 ^ (8 * (n - 3)))
    = val a / 2 ^ compact_shift (val a) * 2 ^ compact_shift (val a).
Proof.
  intros Ha. pose proof (val_bound a Ha) as Hv. unfold GetCompact_signed. rewrite bits_spec by done.
  set (n0 := (bit_length (val a) + 7) / 8).
  destruct (compact_top_spec (val a) Hv) as (Hn & Ht & _). fold n0 in Hn, Ht.
  pose proof (compact_number_of_top (val a) Hv) as Hnum. cbv zeta in Hnum. fold n0 in Hnum.
  assert ((if n0 <=? 3 then u32 (u64 (Z.shiftl (GetLow64 a) (8 * (3 - n0))))
           else u32 (GetLow64 (shr_assign a (8 * (n0 - 3))))) = compact_top (val a) n0) as Etop.
  { unfold compact_top in *. destruct (Z.leb_spec n0 3).
    - rewrite GetLow64_spec by done.
      assert (val a < 2 ^ 24).
      { destruct (bit_length_bounds (val a)) as (Hub & ? & _); [lia|].
        pose proof (Z.div_mod (bit_length (val a) + 7) 8 ltac:(lia)) as E. fold n0 in E.
        pose proof (Z.mod_pos_bound (bit_length (val a) + 7) 8 ltac:(lia)).
        assert (2 ^ bit_length (val a) <= 2 ^ 24) by (apply Z.pow_le_mono_r; lia). lia. }
      rewrite (Z.mod_small (val a)), Z.shiftl_mul_pow2 by lia.
      rewrite (uwrap_small 64), uwrap_small by lia. done.
    - destruct (shr_assign_spec a (8 * (n0 - 3)) ltac:(lia) Ha) as [Hs Hsv].
      rewrite GetLow64_spec, Hsv, Z.mod_small, uwrap_small by (done || lia). done. }
  rewrite Etop. clear Etop. set (t := compact_top (val a) n0) in *.
  change 8388608 with (2 ^ 23). rewrite land_pow2_test, negb_involutive, Z.shiftr_div_pow2 by lia.
  destruct (if Z.testbit t 23 then (t / 2 ^ 8, n0 + 1) else (t, n0)) as [m n].
  destruct Hnum as (Hm & Hnr & Hnum).
  assert ((Z.land m (u32 (Z.lnot 8388607)) =? 0) = true) as ->.
  { apply Z.eqb_eq, Z.bits_inj'. intros i Hi. rewrite Z.land_spec, Z.bits_0.
    destruct (Z.ltb_spec i 23) as [Hlt|Hge]; [|by rewrite (small_testbit_high 23 m) by lia].
    change (u32 (Z.lnot 8388607)) with (511 * 2 ^ 23). by rewrite Z.mul_pow2_bits_low, andb_false_r by lia. }
  destruct (Z.ltb_spec n 256); [|lia]. cbn [negb].
  destruct (compact_join m n Hm Hnr) as (Ec & Hc & Hsz & Hmant).
  cbv zeta. rewrite land_low23. unfold compact_mantissa in Hmant. rewrite Hmant.
  eexists. exists m, n. split; [reflexivity|]. split; [done|]. split; [done|]. split; [|done].
  rewrite Ec. destruct (neg && negb (m =? 0)) eqn:Es; [|rewrite Z.lor_0_r; lia].
  replace (m + n * 2 ^ 24) with (m + (n * 2) * 2 ^ 23) by lia.
  rewrite <- (lor_add m (n * 2) 23), <- Z.lor_assoc by lia.
  assert (Z.lor (n * 2 * 2 ^ 23) (2 ^ 23) = (n * 2 + 1) * 2 ^ 23) as ->.
  { rewrite Z.lor_comm. replace (n * 2 * 2 ^ 23) with (n * 2 ^ 24) by lia.
    rewrite lor_add by lia. lia. }
  rewrite lor_add by lia. lia.
Qed.

(** The dropped bits leave at least sixteen leading ones of precision. *)
Lemma compact_shift_keeps v : 0 <= v < 2 ^ 256 ->
  compact_shift v = 0 \/ 2 ^ (compact_shift v + 15) <= v.
Proof.
  intros Hv. unfold compact_shift, compact_bytes.
  destruct (bit_length_bounds v) as (_ & Hp & Hlb); [lia|].
  set (bl := bit_length v) in *.
  pose proof (Z.div_mod (bl + 7) 8 ltac:(lia)) as En. set (n := (bl + 7) / 8) in *.
  pose proof (Z.mod_pos_bound (bl + 7) 8 ltac:(lia)).
  assert (v = 0 -> bl = 0) by (unfold bl; intros ->; done).
  destruct (Z.eqb_spec bl (8 * n)), (Z.eqb_spec v 0); try (left; lia).
  all: destruct Hlb as [Hlow ?]; [done|];
    match goal with |- 8 * Z.max 0 ?b = 0 \/ _ => destruct (Z.le_gt_cases b 0); [left; lia|right] end;
    rewrite Z.max_r by lia; etrans; [|exact Hlow]; apply Z.pow_le_mono_r; lia.
Qed.

(** ** Conversion to and from uint256 *)

Lemma ArithToUint256_ok a : uint_ok a ->
  bytes_ok (ArithToUint256 a) /\ length (ArithToUint256 a) = 32%nat.
Proof.
  intros [La Ha]. unfold ArithToUint256. split.
  - clear. induction a as [|x a IH]; [constructor|]. cbn [flat_map].
    apply Forall_app. split; [apply WriteLE32_ok|done].
  - replace 32%nat with (4 * length a)%nat by (rewrite La; done). clear.
    induction a as [|x a IH]; [done|]. cbn [flat_map]. rewrite length_app, WriteLE32_length, IH. cbn [length]. lia.
Qed.

Lemma UintToArith256_ok data : bytes_ok data -> uint_ok (UintToArith256 data).
Proof.
  intros Hd. split; [done|]. unfold UintToArith256. apply List.Forall_forall. intros x Hx.
  apply in_map_iff in Hx as (i & <- & _). apply ReadLE32_bound.
  by apply Forall_drop.
Qed.

Lemma ReadLE32_flat a i x : Forall (digit_ok 32) a -> a !! i = Some x ->
  ReadLE32 (drop (4 * i) (ArithToUint256 a)) = x.
Proof.
  intros Ha. revert i. induction Ha as [|y a Hy Ha IH]; intros i Hi; [done|].
  unfold ArithToUint256 in *. cbn [flat_map]. destruct i as [|i]; cbn in Hi.
  - injection Hi as ->. rewrite Nat.mul_0_r, drop_0. by apply ReadLE32_WriteLE32.
  - etrans; [|exact (IH i Hi)]. f_equal.
    replace (4 * S i)%nat with (length (WriteLE32 y) + 4 * i)%nat by (rewrite WriteLE32_length; lia).
    by rewrite drop_app_add.
Qed.

Lemma UintToArith256_ArithToUint256 a : uint_ok a -> UintToArith256 (ArithToUint256 a) = a.
Proof.
  intros [La Ha]. unfold UintToArith256. apply list_eq. intros i.
  destruct (Nat.ltb_spec i WIDTH) as [Hi|Hi].
  - destruct (lookup_lt_is_Some_2 a i) as [x Hx]; [lia|]. rewrite Hx.
    rewrite list_lookup_fmap, lookup_seq_lt by done. cbn [fmap option_fmap option_map].
    by rewrite Nat.add_0_l, (ReadLE32_flat a i x).
  - rewrite !lookup_ge_None_2; [done|lia|]. rewrite length_map, length_seq. done.
Qed.

(** * Properties *)

(** The arithmetic operators of [base_uint<256>] are arithmetic modulo 2^256 on the numbers
    the words denote, and keep eight words of 32 bits: [+=], [-=], [*=] by a number and by a
    32-bit word, unary minus, [++] and [--]. *)
Theorem uint_arithmetic_mod_2_256 a b w :
  uint_ok a -> uint_ok b -> 0 <= w < 2 ^ 32 ->
  (uint_ok (add_assign a b) /\ val (add_assign a b) = (val a + val b) mod 2 ^ 256) /\
  (uint_ok (sub_assign a b) /\ val (sub_assign a b) = (val a - val b) mod 2 ^ 256) /\
  (uint_ok (mul_assign a b) /\ val (mul_assign a b) = (val a * val b) mod 2 ^ 256) /\
  (uint_ok (mul32_assign a w) /\ val (mul32_assign a w) = (val a * w) mod 2 ^ 256) /\
  (uint_ok (neg a) /\ val (neg a) = (- val a) mod 2 ^ 256) /\
  (uint_ok (inc a) /\ val (inc a) = (val a + 1) mod 2 ^ 256) /\
  (uint_ok (dec a) /\ val (dec a) = (val a - 1) mod 2 ^ 256).
Proof.
  intros Ha Hb Hw. repeat split;
    first [ by apply add_assign_ok | by apply sub_assign_ok | by apply mul_assign_spec
          | by apply mul32_assign_ok | by apply neg_ok | by apply inc_ok | by apply dec_ok
          | by apply add_assign_val | by apply sub_assign_val | by apply mul32_assign_val
          | by apply neg_val | by apply inc_val | by apply dec_val ].
Qed.

Lemma uint_arithmetic_mod_2_256_witness :
  val (add_assign uint256_max (base_uint_of 2)) = 1.
Proof.
  destruct (uint_arithmetic_mod_2_256 uint256_max (base_uint_of 2) 5) as ((_ & H) & _).
  - split; [reflexivity|]. repeat constructor; intro; discriminate.
  - apply base_uint_of_ok.
  - split; [intro; discriminate|reflexivity].
  - rewrite H. vm_compute. reflexivity.
Defined.

(** The long division loop of [operator/=] returns the floor quotient for every non-zero
    divisor, and throws exactly when the divisor is zero. *)
Theorem uint_division_correct a b : uint_ok a -> uint_ok b ->
  (div_assign a b = None <-> val b = 0) /\
  forall q, div_assign a b = Some q -> uint_ok q /\ val q = val a / val b.
Proof.
  intros Ha Hb. split; [by apply div_assign_zero|]. intros q Hq.
  destruct (Z.eq_dec (val b) 0) as [E|E]; [apply (div_assign_zero a) in E; congruence|].
  destruct (div_assign_spec a b Ha Hb E) as (q' & Hq' & Hok & Hv). rewrite Hq in Hq'.
  injection Hq' as ->. done.
Qed.

Lemma uint_division_correct_witness :
  exists q, div_assign (base_uint_of 1000) (base_uint_of 7) = Some q /\ val q = 142.
Proof.
  exists (base_uint_of 142).
  destruct (uint_division_correct (base_uint_of 1000) (base_uint_of 7)
              (base_uint_of_ok _) (base_uint_of_ok _)) as [_ H].
  split; [vm_compute; reflexivity|]. apply (H (base_uint_of 142)). vm_compute. reflexivity.
Defined.

(** The word-wise shift loops, for every shift distance (including 256 and more): [<<=]
    multiplies by 2^shift and drops the bits above 256, [>>=] is the floor division. *)
Theorem uint_shifts_correct a shift : uint_ok a -> 0 <= shift < 2 ^ 32 ->
  uint_ok (shl_assign a shift) /\ val (shl_assign a shift) = (val a * 2 ^ shift) mod 2 ^ 256 /\
  uint_ok (shr_assign a shift) /\ val (shr_assign a shift) = val a / 2 ^ shift.
Proof.
  intros Ha Hs. destruct (shl_assign_spec a shift), (shr_assign_spec a shift); auto; lia.
Qed.

Lemma uint_shifts_correct_witness :
  val (shl_assign (base_uint_of 3) 255) = 2 ^ 255.
Proof.
  destruct (uint_shifts_correct (base_uint_of 3) 255 (base_uint_of_ok _)) as (_ & H & _).
  - split; [intro; discriminate|reflexivity].
  - rewrite H. vm_compute. reflexivity.
Defined.

(** [SetCompact] decodes every 32-bit word: the value is the number N of the format modulo
    2^256, the overflow flag is set exactly when N does not fit 256 bits (so without it no bit
    is lost), and the negative flag exactly when the sign bit is set and N is not zero. *)
Theorem SetCompact_decodes c : 0 <= c < 2 ^ 32 ->
  let r := SetCompact c in
  uint_ok (cr_value r) /\ val (cr_value r) = compact_number c mod 2 ^ 256 /\
  (cr_overflow r = true <-> 2 ^ 256 <= compact_number c) /\
  (cr_overflow r = false -> val (cr_value r) = compact_number c) /\
  (cr_negative r = true <-> compact_number c <> 0 /\ Z.testbit c 23 = true).
Proof.
  intros Hc r. destruct (SetCompact_fields c Hc) as (Hok & Hv & Ho & Hn). fold r in Hok, Hv, Ho, Hn.
  assert (0 <= compact_number c).
  { unfold compact_number. assert (0 <= compact_mantissa c) by (apply Z.mod_pos_bound; lia).
    case_Z; [apply Z.div_pos; [done|apply Z.pow_pos_nonneg; lia]|].
    apply Z.mul_nonneg_nonneg; [done|apply Z.pow_nonneg; lia]. }
  rewrite Ho, Hn. split; [done|]. split; [done|]. split; [apply Z.leb_le|]. split.
  - intros Hf. apply Z.leb_gt in Hf. rewrite Hv. apply Z.mod_small. lia.
  - rewrite andb_true_iff, negb_true_iff, Z.eqb_neq. done.
Qed.

Lemma SetCompact_decodes_witness :
  cr_overflow (SetCompact 553713663) = false /\ (* 0x2100ffff: 65535 * 256^30 *)
  val (cr_value (SetCompact 553713663)) = 65535 * 2 ^ 240.
Proof.
  destruct (SetCompact_decodes 553713663) as (_ & _ & _ & H & _).
  - split; [intro; discriminate|reflexivity].
  - split; [vm_compute; reflexivity|]. rewrite H; vm_compute; reflexivity.
Defined.

(** The word [GetCompact] produces, as the number it stands for. *)
Lemma GetCompact_number a neg : uint_ok a ->
  exists c, GetCompact_signed neg a = Some c /\ 0 <= c < 2 ^ 32 /\
    compact_number c = val a / 2 ^ compact_shift (val a) * 2 ^ compact_shift (val a) /\
    (neg = false -> Z.testbit c 23 = false).
Proof.
  intros Ha. destruct (GetCompact_total neg a Ha) as (c & m & n & Hc & Hm & Hn & Ec & Hnum).
  exists c. split; [done|].
  set (sg := if neg && negb (m =? 0) then 2 ^ 23 else 0) in *.
  assert (sg = 0 \/ sg = 2 ^ 23) as Hsg by (unfold sg; destruct (_ && _); auto).
  split; [rewrite Ec; destruct Hsg; lia|].
  assert (compact_size c = n) as Esz.
  { unfold compact_size. rewrite Ec, Z.div_add, Z.div_small by (destruct Hsg; lia). lia. }
  assert (compact_mantissa c = m) as Emant.
  { unfold compact_mantissa. rewrite Ec. destruct Hsg as [-> | ->].
    - replace (m + 0 + n * 2 ^ 24) with (m + (2 * n) * 2 ^ 23) by lia. by rewrite Z.mod_add, Z.mod_small by lia.
    - replace (m + 2 ^ 23 + n * 2 ^ 24) with (m + (2 * n + 1) * 2 ^ 23) by lia. by rewrite Z.mod_add, Z.mod_small by lia. }
  split; [unfold compact_number; by rewrite Esz, Emant|].
  intros ->. unfold sg in Ec. cbn [andb] in Ec. rewrite Ec.
  replace (m + 0 + n * 2 ^ 24) with (m + (n * 2) * 2 ^ 23) by lia.
  rewrite <- (lor_add m (n * 2) 23), Z.lor_spec, (small_testbit_high 23 m) by lia.
  rewrite Z.mul_pow2_bits by lia. change (23 - 23) with 0.
  by rewrite Z.mul_comm, Z.testbit_even_0.
Qed.

Lemma rounded_bounds v k : 0 <= v -> 0 <= k -> 0 <= v / 2 ^ k * 2 ^ k <= v.
Proof.
  intros Hv Hk. assert (0 < 2 ^ k) by (apply Z.pow_pos_nonneg; lia).
  pose proof (Z.mul_div_le v (2 ^ k) ltac:(lia)). assert (0 <= v / 2 ^ k) by (apply Z.div_pos; lia). nia.
Qed.

(** Decoding the word of a number: its value, rounded down, without the flags. *)
Lemma GetCompact_decodes a : uint_ok a ->
  exists c, GetCompact a = Some c /\ 0 <= c < 2 ^ 32 /\ uint_ok (cr_value (SetCompact c)) /\
    cr_overflow (SetCompact c) = false /\ cr_negative (SetCompact c) = false /\
    val (cr_value (SetCompact c)) = val a / 2 ^ compact_shift (val a) * 2 ^ compact_shift (val a).
Proof.
  intros Ha. pose proof (val_bound a Ha). destruct (GetCompact_number a false Ha) as (c & Hc & Hr & En & Hs).
  exists c. destruct (SetCompact_fields c Hr) as (Hok & Hcv & Ho & Hneg).
  pose proof (rounded_bounds (val a) (compact_shift (val a)) ltac:(lia) ltac:(unfold compact_shift; lia)).
  rewrite Ho, Hcv, Hneg, En, (Hs eq_refl), andb_false_r. rewrite Z.mod_small by lia.
  split_and!; try done; lia.
Qed.

(** [GetCompact] never fails its assertions, and decoding what it produced gives the number
    back with only its low [k] bits cleared, where [k] is 0 or leaves at least 16 leading bits:
    the encoding never rounds up. *)
Theorem GetCompact_round_trip a neg : uint_ok a ->
  exists c k, GetCompact_signed neg a = Some c /\ 0 <= c < 2 ^ 32 /\
    let r := SetCompact c in
    cr_overflow r = false /\ val (cr_value r) = val a / 2 ^ k * 2 ^ k /\
    0 <= k /\ (k = 0 \/ 2 ^ (k + 15) <= val a) /\
    (cr_negative r = true -> neg = true).
Proof.
  intros Ha. pose proof (val_bound a Ha). destruct (GetCompact_number a neg Ha) as (c & Hc & Hr & En & Hs).
  exists c, (compact_shift (val a)). split; [done|]. split; [done|]. cbv zeta.
  destruct (SetCompact_fields c Hr) as (_ & Hcv & Ho & Hneg).
  assert (0 <= compact_shift (val a)) by (unfold compact_shift; lia).
  pose proof (rounded_bounds (val a) (compact_shift (val a)) ltac:(lia) ltac:(lia)).
  rewrite Ho, Hcv, Hneg, En, Z.mod_small by lia.
  split; [apply Z.leb_gt; lia|]. split; [done|]. split; [done|]. split; [by apply compact_shift_keeps|].
  intros Hn. apply andb_true_iff in Hn as [_ Hn]. destruct neg; [done|]. by rewrite Hs in Hn.
Qed.

Lemma GetCompact_round_trip_witness :
  exists c, GetCompact_signed false (base_uint_of 18446744073709551615) = Some c /\ c = 151060479. (* 0x0900ffff *)
Proof.
  destruct (GetCompact_round_trip (base_uint_of 18446744073709551615) false (base_uint_of_ok _))
    as (c & k & Hc & _).
  exists c. split; [exact Hc|]. vm_compute in Hc. injection Hc as <-. reflexivity.
Defined.

(** The hexadecimal text of a number reads back as the same number:
    [SetHex (GetHex a) = a]. *)
Theorem hex_round_trip a : uint_ok a -> SetHex (GetHex a) = a.
Proof.
  intros Ha. unfold SetHex, GetHex. destruct (ArithToUint256_ok a Ha) as [Hb Hl].
  rewrite SetHex_GetHex_blob by done. by apply UintToArith256_ArithToUint256.
Qed.

Lemma hex_round_trip_witness : SetHex (GetHex (base_uint_of 48879)) = base_uint_of 48879.
Proof. apply (hex_round_trip (base_uint_of 48879)), base_uint_of_ok. Defined.
