(* ===== verification/BlockHash.v ===== *)
(** * BlockHash: the buffering shared by the hash classes of [src/src/crypto/]
    [CSHA256], [CSHA1] and [CRIPEMD160] hold the same fields - the chaining state [s], a 64-byte
    buffer [buf] and the 64-bit count [bytes] of what was written - and run the same [Write].
    The compression function is the section's parameter; the files [Sha256], [Sha1] and
    [Ripemd160] instantiate it.  The theorem [Write_absorbs] gives the abstract view: a hasher
    holds exactly the message written so far, however it was cut into calls. *)
From S2P Require Import Prelude.

Record hasher := { s : list Z; buf : list Z; bytes : Z }.

(** [memcpy(dst + off, src, n)] into an array. *)
Definition memcpy_at (dst : list Z) (off : nat) (src : list Z) : list Z :=
  take off dst ++ src ++ drop (off + length src) dst.

Section BlockHash.
(** One call of [Transform] on a 64-byte chunk. *)
Context (Transform : list Z -> list Z -> list Z).

(** [while (blocks--) Transform], moving [data] forward by 64 each time. *)
Fixpoint process_blocks (blocks : nat) (st data : list Z) : list Z * list Z :=
  match blocks with
  | O => (st, data)
  | S blocks' => process_blocks blocks' (Transform st (take 64 data)) (drop 64 data)
  end.

(** The first part of [Write]: complete and process a partly filled buffer. Returns the hasher,
    the data left and the new [bufsize]. *)
Definition Write_fill (h : hasher) (data : list Z) : hasher * list Z * nat :=
  let bufsize := Z.to_nat (bytes h mod 64) in
  if negb (bufsize =? 0)%nat && (64 <=? bufsize + length data)%nat then
    let b := memcpy_at (buf h) bufsize (take (64 - bufsize) data) in
    ({| s := Transform (s h) b; buf := b; bytes := u64 (bytes h + (64 - Z.of_nat bufsize)) |},
     drop (64 - bufsize) data, O)
  else (h, data, bufsize).

(** The rest of [Write]: whole chunks straight from the source, then the remainder into the
    buffer. *)
Definition Write_rest (h : hasher) (data : list Z) (bufsize : nat) : hasher :=
  let blocks := (length data / 64)%nat in
  let '(st, data) := process_blocks blocks (s h) data in
  let h := {| s := st; buf := buf h; bytes := u64 (bytes h + 64 * Z.of_nat blocks) |} in
  match data with
  | [] => h
  | _ => {| s := s h; buf := memcpy_at (buf h) bufsize data;
            bytes := u64 (bytes h + Z.of_nat (length data)) |}
  end.

Definition Write (h : hasher) (data : list Z) : hasher :=
  let '(h, data, bufsize) := Write_fill h data in Write_rest h data bufsize.

(** [static const unsigned char pad[64] = {0x80}], the first [n] bytes of it. *)
Definition pad (n : nat) : list Z := take n (128 :: replicate 63 0).

(** The padding of [Finalize]: [Write(pad, 1 + ((119 - (bytes % 64)) % 64))] and then the bit
    count computed before it, in the byte order of the hash. *)
Definition Pad (sizedesc_of : Z -> list Z) (h : hasher) : hasher :=
  let sizedesc := sizedesc_of (u64 (Z.shiftl (bytes h) 3)) in
  let h := Write h (pad (Z.to_nat (1 + (119 - bytes h mod 64) mod 64))) in
  Write h sizedesc.

(** ** The abstract view *)

(** The state after all whole blocks of [m], and the bytes after them. *)
Definition absorb (init m : list Z) : list Z * list Z :=
  process_blocks (length m / 64) init m.

(** The hasher holds the message [m]. *)
Definition holds (init : list Z) (h : hasher) (m : list Z) : Prop :=
  bytes h = u64 (Z.of_nat (length m)) /\ length (buf h) = 64%nat /\
  s h = (absorb init m).1 /\
  take (length m mod 64) (buf h) = (absorb init m).2.

Lemma process_blocks_length n st d : length (process_blocks n st d).2 = (length d - 64 * n)%nat.
Proof.
  revert st d. induction n as [|n IH]; intros st d; cbn [process_blocks].
  - cbn [snd]. lia.
  - rewrite IH, length_drop. lia.
Qed.

Lemma process_blocks_app n st d e : (64 * n <= length d)%nat ->
  process_blocks n st (d ++ e) =
  ((process_blocks n st d).1, (process_blocks n st d).2 ++ e).
Proof.
  revert st d. induction n as [|n IH]; intros st d Hn; cbn [process_blocks]; [done|].
  rewrite take_app_le, drop_app_le by lia. rewrite IH; [done|]. rewrite length_drop. lia.
Qed.

Lemma process_blocks_add n k st d :
  process_blocks (n + k) st d =
  process_blocks k (process_blocks n st d).1 (process_blocks n st d).2.
Proof.
  revert st d. induction n as [|n IH]; intros st d; cbn [process_blocks Nat.add]; [done|].
  apply IH.
Qed.

Lemma absorb_rest_length init m : length (absorb init m).2 = (length m mod 64)%nat.
Proof. unfold absorb. rewrite process_blocks_length. pose proof (Nat.div_mod_eq (length m) 64). lia. Qed.

(** Absorbing [d] after [m] continues from the state and rest of [m]. *)
Lemma absorb_app init m d :
  absorb init (m ++ d) = absorb (absorb init m).1 ((absorb init m).2 ++ d).
Proof.
  unfold absorb at 1. rewrite length_app.
  set (n := (length m / 64)%nat). pose proof (Nat.div_mod_eq (length m) 64) as Hm. fold n in Hm.
  replace ((length m + length d) / 64)%nat with (n + ((length m mod 64 + length d) / 64))%nat.
  2: { symmetry. rewrite Hm at 1. rewrite <- Nat.add_assoc, Nat.mul_comm, Nat.div_add_l; lia. }
  rewrite process_blocks_add, process_blocks_app by lia. cbn [fst snd].
  unfold absorb at 1. rewrite length_app, absorb_rest_length. unfold absorb. by fold n.
Qed.

Lemma memcpy_at_length dst off src : (off + length src <= length dst)%nat ->
  length (memcpy_at dst off src) = length dst.
Proof. intros H. unfold memcpy_at. rewrite !length_app, length_take, length_drop. lia. Qed.

Lemma memcpy_at_take dst off src : (off + length src <= length dst)%nat ->
  take (off + length src) (memcpy_at dst off src) = take off dst ++ src.
Proof.
  intros H. unfold memcpy_at. rewrite app_assoc, take_app_length'; [done|].
  rewrite length_app, length_take. lia.
Qed.

Lemma u64_add_l a b : u64 (u64 a + b) = u64 (a + b).
Proof. unfold uwrap. by rewrite Z.add_mod_idemp_l. Qed.

Lemma bytes_mod_64 n : Z.to_nat (u64 (Z.of_nat n) mod 64) = (n mod 64)%nat.
Proof.
  unfold uwrap. rewrite Z.mod_mod_divide by (by exists (2 ^ 58)).
  change 64 with (Z.of_nat 64). rewrite <- Nat2Z.inj_mod. apply Nat2Z.id.
Qed.

Lemma u64_of_nat_mod (n : nat) : u64 (Z.of_nat n) mod 64 = Z.of_nat (n mod 64).
Proof.
  unfold uwrap. rewrite Z.mod_mod_divide by (by exists (2 ^ 58)).
  by rewrite Nat2Z.inj_mod.
Qed.

(** ** [Write] absorbs *)

(** Between the two parts of [Write]: the buffered bytes and the data left stand for the
    message, and the buffered bytes stay in the buffer. *)
Definition pending (init : list Z) (h : hasher) (d : list Z) (bs : nat) (m : list Z) : Prop :=
  length (buf h) = 64%nat /\
  absorb init m = absorb (s h) (take bs (buf h) ++ d) /\
  (bs = O \/ (bs + length d < 64)%nat) /\ (bs < 64)%nat /\
  u64 (bytes h + Z.of_nat (length d)) = u64 (Z.of_nat (length m)).

Lemma holds_bufsize init h m : holds init h m ->
  Z.to_nat (bytes h mod 64) = (length m mod 64)%nat.
Proof. intros (Hb & _). rewrite Hb. apply bytes_mod_64. Qed.

Lemma Write_fill_pending init h m d : holds init h m ->
  let '(h', d', bs') := Write_fill h d in pending init h' d' bs' (m ++ d).
Proof.
  intros Hh. pose proof (holds_bufsize _ _ _ Hh) as Ebs. destruct Hh as (Hb & Hl & Hs & Ht).
  pose proof (Nat.mod_upper_bound (length m) 64 ltac:(done)) as Hlt.
  unfold Write_fill. rewrite Ebs. set (bs := (length m mod 64)%nat) in *.
  destruct (negb (bs =? 0)%nat && (64 <=? bs + length d)%nat) eqn:E; unfold pending; cbn [s buf bytes].
  - apply andb_true_iff in E as [E1 E2]. apply Nat.leb_le in E2.
    assert (length (take (64 - bs) d) = 64 - bs)%nat as Hlen by (rewrite length_take; lia).
    rewrite memcpy_at_length by lia. split; [done|]. split; [|split; [by left|split; [lia|]]].
    + rewrite absorb_app, <- Hs, <- Ht. cbn [take app].
      assert (memcpy_at (buf h) bs (take (64 - bs) d) = take 64 (take bs (buf h) ++ d)) as ->.
      { rewrite <- (firstn_all (memcpy_at (buf h) bs (take (64 - bs) d))).
        rewrite memcpy_at_length, Hl by lia.
        replace 64%nat with (bs + length (take (64 - bs) d))%nat at 1 by lia.
        rewrite memcpy_at_take by lia. rewrite take_app, take_take, length_take.
        f_equal; [f_equal; lia|f_equal; lia]. }
      assert (drop (64 - bs) d = drop 64 (take bs (buf h) ++ d)) as ->.
      { rewrite drop_app, (drop_ge (take bs (buf h))), length_take by (rewrite length_take; lia). cbn [app]. f_equal. lia. }
      unfold absorb at 1. set (X := take bs (buf h) ++ d).
      assert (64 <= length X)%nat by (unfold X; rewrite length_app, length_take; lia).
      replace (length X / 64)%nat with (S (length (drop 64 X) / 64)).
      * done.
      * rewrite length_drop. replace (length X) with (length X - 64 + 1 * 64)%nat at 2 by lia.
        rewrite Nat.div_add by lia. lia.
    + rewrite u64_add_l, Hb, <- Z.add_assoc, u64_add_l, length_drop, length_app. f_equal. lia.
  - split; [done|]. split; [by rewrite absorb_app, <- Hs, <- Ht|]. split; [|split; [done|]].
    + apply andb_false_iff in E as [E | E].
      * left. apply negb_false_iff, Nat.eqb_eq in E. done.
      * right. apply Nat.leb_gt in E. done.
    + by rewrite Hb, u64_add_l, length_app, Nat2Z.inj_add.
Qed.

Lemma Write_rest_holds init h d bs m : pending init h d bs m -> holds init (Write_rest h d bs) m.
Proof.
  intros (Hl & Ha & Hbs & Hlt & Hb). unfold Write_rest.
  set (n := (length d / 64)%nat). pose proof (Nat.div_mod_eq (length d) 64) as Hd. fold n in Hd.
  assert (absorb init m = ((process_blocks n (s h) d).1,
                           take bs (buf h) ++ (process_blocks n (s h) d).2)) as Ha'.
  { rewrite Ha. destruct Hbs as [-> | Hbs].
    - cbn [take app]. unfold absorb. fold n. by destruct (process_blocks _ _ _).
    - unfold absorb. rewrite length_app, length_take, Nat.div_small by lia.
      assert (n = O) as -> by (apply Nat.div_small; lia). done. }
  assert (length m mod 64 = bs + length (process_blocks n (s h) d).2)%nat as Hm.
  { rewrite <- (absorb_rest_length init), Ha'. cbn [snd]. rewrite length_app, length_take. lia. }
  pose proof (process_blocks_length n (s h) d) as Hr. unfold holds. rewrite Ha', Hm.
  destruct (process_blocks n (s h) d) as [st e]. cbn [fst snd] in *.
  assert (u64 (u64 (bytes h + 64 * Z.of_nat n) + Z.of_nat (length e)) = u64 (Z.of_nat (length m))) as Hbytes.
  { rewrite u64_add_l, <- Hb. f_equal. lia. }
  assert (bs + length e < 64)%nat.
  { pose proof (Nat.mod_upper_bound (length m) 64 ltac:(done)). lia. }
  destruct e as [|x e]; cbn [s buf bytes].
  - rewrite Nat.add_0_r, app_nil_r. rewrite <- Hbytes. cbn [length]. rewrite Z.add_0_r.
    unfold uwrap. by rewrite Z.mod_mod by lia.
  - split; [done|]. rewrite memcpy_at_length by lia. split; [done|]. split; [done|].
    apply memcpy_at_take. lia.
Qed.

Lemma Write_absorbs init h m d : holds init h m -> holds init (Write h d) (m ++ d).
Proof.
  intros Hh. unfold Write. pose proof (Write_fill_pending _ _ _ d Hh).
  destruct (Write_fill h d) as [[h' d'] bs']. by apply Write_rest_holds.
Qed.

Lemma holds_nil init b : length b = 64%nat ->
  holds init {| s := init; buf := b; bytes := 0 |} [].
Proof. intros Hb. unfold holds. by cbn. Qed.

(** The padded message: 0x80, zeros up to 56 modulo 64, the bit count. *)
Definition padded (sizedesc_of : Z -> list Z) (m : list Z) : list Z :=
  m ++ pad (Z.to_nat (1 + (119 - Z.of_nat (length m mod 64)) mod 64))
    ++ sizedesc_of (u64 (Z.shiftl (u64 (Z.of_nat (length m))) 3)).

Lemma Pad_holds sizedesc_of init h m : holds init h m ->
  holds init (Pad sizedesc_of h) (padded sizedesc_of m).
Proof.
  intros Hh. unfold Pad, padded. pose proof Hh as (Hb & _). rewrite Hb, u64_of_nat_mod.
  rewrite app_assoc. by apply Write_absorbs, Write_absorbs.
Qed.

(** The chaining value after the padding depends on the message only. *)
Definition digest_state (sizedesc_of : Z -> list Z) (init m : list Z) : list Z :=
  (absorb init (padded sizedesc_of m)).1.

Lemma Pad_state sizedesc_of init h m : holds init h m ->
  s (Pad sizedesc_of h) = digest_state sizedesc_of init m.
Proof. intros Hh. by destruct (Pad_holds sizedesc_of _ _ _ Hh) as (_ & _ & Hs & _). Qed.

(** The padding fills the last block. *)
Lemma padded_length sizedesc_of m : (forall n, length (sizedesc_of n) = 8%nat) ->
  (length (padded sizedesc_of m) mod 64 = 0)%nat.
Proof.
  intros Hsz. unfold padded, pad. rewrite !length_app, Hsz, length_take. cbn [length].
  rewrite length_replicate.
  pose proof (Nat.mod_upper_bound (length m) 64 ltac:(done)).
  pose proof (Nat.div_mod_eq (length m) 64). set (k := (length m mod 64)%nat) in *.
  pose proof (Z.mod_pos_bound (119 - Z.of_nat k) 64 ltac:(done)).
  pose proof (Z.div_mod (119 - Z.of_nat k) 64 ltac:(done)).
  apply Nat.Lcm0.mod_divide.
  exists (length m / 64 + Z.to_nat (2 - (119 - Z.of_nat k) / 64))%nat.
  assert (0 <= (119 - Z.of_nat k) / 64 <= 1).
  { split; [apply Z.div_pos; lia|]. enough ((119 - Z.of_nat k) / 64 < 2) by lia.
    apply Z.div_lt_upper_bound; lia. }
  lia.
Qed.

Lemma absorb_state_length n init m :
  (forall st chunk, length st = n -> length (Transform st chunk) = n) ->
  length init = n -> length (absorb init m).1 = n.
Proof.
  intros Ht Hi. unfold absorb. generalize (length m / 64)%nat as k. intros k.
  revert init m Hi. induction k as [|k IH]; intros init m Hi; cbn [process_blocks fst]; [done|].
  apply IH. by apply Ht.
Qed.
End BlockHash.
