(* ===== verification/Sha256.v ===== *)
(** * Sha256: the portable SHA-256 of [src/src/crypto/sha256.cpp]
    [Transform1] is the body of the [while (blocks--)] loop of [sha256::Transform], line by
    line; the class methods instantiate [BlockHash].  The SSE4, AVX2 and SHA-NI variants are
    alternative implementations of the same function and are not modelled. *)
From S2P Require Import Prelude Endian BlockHash.

Module sha256.
Definition Ch (x y z : Z) : Z := Z.lxor z (Z.land x (Z.lxor y z)).
Definition Maj (x y z : Z) : Z := Z.lor (Z.land x y) (Z.land z (Z.lor x y)).

(** [(x >> n | x << (32 - n))] on [uint32_t]. *)
Definition ror (x n : Z) : Z := Z.lor (Z.shiftr x n) (u32 (Z.shiftl x (32 - n))).

Definition Sigma0 (x : Z) : Z := Z.lxor (Z.lxor (ror x 2) (ror x 13)) (ror x 22).
Definition Sigma1 (x : Z) : Z := Z.lxor (Z.lxor (ror x 6) (ror x 11)) (ror x 25).
Definition sigma0 (x : Z) : Z := Z.lxor (Z.lxor (ror x 7) (ror x 18)) (Z.shiftr x 3).
Definition sigma1 (x : Z) : Z := Z.lxor (Z.lxor (ror x 17) (ror x 19)) (Z.shiftr x 10).

(** One round; returns the two variables it writes, [d] and [h]. *)
Definition Round (a b c d e f g h k : Z) : Z * Z :=
  let t1 := u32 (h + Sigma1 e + Ch e f g + k) in
  let t2 := u32 (Sigma0 a + Maj a b c) in
  (u32 (d + t1), u32 (t1 + t2)).

Definition Initialize : list Z :=
  [1779033703; 3144134277; 1013904242; 2773480762; 1359893119; 2600822924; 528734635; 1541459225].

(** The last 32 rounds on the working variables, with the message schedule kept in [w0] to [w15]. *)
Definition last_rounds (a b c d e f g h w0 w1 w2 w3 w4 w5 w6 w7 w8 w9 w10 w11 w12 w13 w14 w15 : Z) :
    Z * Z * Z * Z * Z * Z * Z * Z :=
  let w0 := u32 (w0 + sigma1 w14 + w9 + sigma0 w1) in let '(d, h) := Round a b c d e f g h (u32 (666307205 + w0)) in
  let w1 := u32 (w1 + sigma1 w15 + w10 + sigma0 w2) in let '(c, g) := Round h a b c d e f g (u32 (773529912 + w1)) in
  let w2 := u32 (w2 + sigma1 w0 + w11 + sigma0 w3) in let '(b, f) := Round g h a b c d e f (u32 (1294757372 + w2)) in
  let w3 := u32 (w3 + sigma1 w1 + w12 + sigma0 w4) in let '(a, e) := Round f g h a b c d e (u32 (1396182291 + w3)) in
  let w4 := u32 (w4 + sigma1 w2 + w13 + sigma0 w5) in let '(h, d) := Round e f g h a b c d (u32 (1695183700 + w4)) in
  let w5 := u32 (w5 + sigma1 w3 + w14 + sigma0 w6) in let '(g, c) := Round d e f g h a b c (u32 (1986661051 + w5)) in
  let w6 := u32 (w6 + sigma1 w4 + w15 + sigma0 w7) in let '(f, b) := Round c d e f g h a b (u32 (2177026350 + w6)) in
  let w7 := u32 (w7 + sigma1 w5 + w0 + sigma0 w8) in let '(e, a) := Round b c d e f g h a (u32 (2456956037 + w7)) in
  let w8 := u32 (w8 + sigma1 w6 + w1 + sigma0 w9) in let '(d, h) := Round a b c d e f g h (u32 (2730485921 + w8)) in
  let w9 := u32 (w9 + sigma1 w7 + w2 + sigma0 w10) in let '(c, g) := Round h a b c d e f g (u32 (2820302411 + w9)) in
  let w10 := u32 (w10 + sigma1 w8 + w3 + sigma0 w11) in let '(b, f) := Round g h a b c d e f (u32 (3259730800 + w10)) in
  let w11 := u32 (w11 + sigma1 w9 + w4 + sigma0 w12) in let '(a, e) := Round f g h a b c d e (u32 (3345764771 + w11)) in
  let w12 := u32 (w12 + sigma1 w10 + w5 + sigma0 w13) in let '(h, d) := Round e f g h a b c d (u32 (3516065817 + w12)) in
  let w13 := u32 (w13 + sigma1 w11 + w6 + sigma0 w14) in let '(g, c) := Round d e f g h a b c (u32 (3600352804 + w13)) in
  let w14 := u32 (w14 + sigma1 w12 + w7 + sigma0 w15) in let '(f, b) := Round c d e f g h a b (u32 (4094571909 + w14)) in
  let w15 := u32 (w15 + sigma1 w13 + w8 + sigma0 w0) in let '(e, a) := Round b c d e f g h a (u32 (275423344 + w15)) in
  let w0 := u32 (w0 + sigma1 w14 + w9 + sigma0 w1) in let '(d, h) := Round a b c d e f g h (u32 (430227734 + w0)) in
  let w1 := u32 (w1 + sigma1 w15 + w10 + sigma0 w2) in let '(c, g) := Round h a b c d e f g (u32 (506948616 + w1)) in
  let w2 := u32 (w2 + sigma1 w0 + w11 + sigma0 w3) in let '(b, f) := Round g h a b c d e f (u32 (659060556 + w2)) in
  let w3 := u32 (w3 + sigma1 w1 + w12 + sigma0 w4) in let '(a, e) := Round f g h a b c d e (u32 (883997877 + w3)) in
  let w4 := u32 (w4 + sigma1 w2 + w13 + sigma0 w5) in let '(h, d) := Round e f g h a b c d (u32 (958139571 + w4)) in
  let w5 := u32 (w5 + sigma1 w3 + w14 + sigma0 w6) in let '(g, c) := Round d e f g h a b c (u32 (1322822218 + w5)) in
  let w6 := u32 (w6 + sigma1 w4 + w15 + sigma0 w7) in let '(f, b) := Round c d e f g h a b (u32 (1537002063 + w6)) in
  let w7 := u32 (w7 + sigma1 w5 + w0 + sigma0 w8) in let '(e, a) := Round b c d e f g h a (u32 (1747873779 + w7)) in
  let w8 := u32 (w8 + sigma1 w6 + w1 + sigma0 w9) in let '(d, h) := Round a b c d e f g h (u32 (1955562222 + w8)) in
  let w9 := u32 (w9 + sigma1 w7 + w2 + sigma0 w10) in let '(c, g) := Round h a b c d e f g (u32 (2024104815 + w9)) in
  let w10 := u32 (w10 + sigma1 w8 + w3 + sigma0 w11) in let '(b, f) := Round g h a b c d e f (u32 (2227730452 + w10)) in
  let w11 := u32 (w11 + sigma1 w9 + w4 + sigma0 w12) in let '(a, e) := Round f g h a b c d e (u32 (2361852424 + w11)) in
  let w12 := u32 (w12 + sigma1 w10 + w5 + sigma0 w13) in let '(h, d) := Round e f g h a b c d (u32 (2428436474 + w12)) in
  let w13 := u32 (w13 + sigma1 w11 + w6 + sigma0 w14) in let '(g, c) := Round d e f g h a b c (u32 (2756734187 + w13)) in
  let '(f, b) := Round c d e f g h a b (u32 (3204031479 + (w14 + sigma1 w12 + w7 + sigma0 w15))) in
  let '(e, a) := Round b c d e f g h a (u32 (3329325298 + (w15 + sigma1 w13 + w8 + sigma0 w0))) in
  (a, b, c, d, e, f, g, h).

(** The 64 rounds. *)
Definition Rounds (a b c d e f g h : Z) (chunk : list Z) : Z * Z * Z * Z * Z * Z * Z * Z :=
  let w0 := ReadBE32 (drop 0 chunk) in let '(d, h) := Round a b c d e f g h (u32 (1116352408 + w0)) in
  let w1 := ReadBE32 (drop 4 chunk) in let '(c, g) := Round h a b c d e f g (u32 (1899447441 + w1)) in
  let w2 := ReadBE32 (drop 8 chunk) in let '(b, f) := Round g h a b c d e f (u32 (3049323471 + w2)) in
  let w3 := ReadBE32 (drop 12 chunk) in let '(a, e) := Round f g h a b c d e (u32 (3921009573 + w3)) in
  let w4 := ReadBE32 (drop 16 chunk) in let '(h, d) := Round e f g h a b c d (u32 (961987163 + w4)) in
  let w5 := ReadBE32 (drop 20 chunk) in let '(g, c) := Round d e f g h a b c (u32 (1508970993 + w5)) in
  let w6 := ReadBE32 (drop 24 chunk) in let '(f, b) := Round c d e f g h a b (u32 (2453635748 + w6)) in
  let w7 := ReadBE32 (drop 28 chunk) in let '(e, a) := Round b c d e f g h a (u32 (2870763221 + w7)) in
  let w8 := ReadBE32 (drop 32 chunk) in let '(d, h) := Round a b c d e f g h (u32 (3624381080 + w8)) in
  let w9 := ReadBE32 (drop 36 chunk) in let '(c, g) := Round h a b c d e f g (u32 (310598401 + w9)) in
  let w10 := ReadBE32 (drop 40 chunk) in let '(b, f) := Round g h a b c d e f (u32 (607225278 + w10)) in
  let w11 := ReadBE32 (drop 44 chunk) in let '(a, e) := Round f g h a b c d e (u32 (1426881987 + w11)) in
  let w12 := ReadBE32 (drop 48 chunk) in let '(h, d) := Round e f g h a b c d (u32 (1925078388 + w12)) in
  let w13 := ReadBE32 (drop 52 chunk) in let '(g, c) := Round d e f g h a b c (u32 (2162078206 + w13)) in
  let w14 := ReadBE32 (drop 56 chunk) in let '(f, b) := Round c d e f g h a b (u32 (2614888103 + w14)) in
  let w15 := ReadBE32 (drop 60 chunk) in let '(e, a) := Round b c d e f g h a (u32 (3248222580 + w15)) in
  let w0 := u32 (w0 + sigma1 w14 + w9 + sigma0 w1) in let '(d, h) := Round a b c d e f g h (u32 (3835390401 + w0)) in
  let w1 := u32 (w1 + sigma1 w15 + w10 + sigma0 w2) in let '(c, g) := Round h a b c d e f g (u32 (4022224774 + w1)) in
  let w2 := u32 (w2 + sigma1 w0 + w11 + sigma0 w3) in let '(b, f) := Round g h a b c d e f (u32 (264347078 + w2)) in
  let w3 := u32 (w3 + sigma1 w1 + w12 + sigma0 w4) in let '(a, e) := Round f g h a b c d e (u32 (604807628 + w3)) in
  let w4 := u32 (w4 + sigma1 w2 + w13 + sigma0 w5) in let '(h, d) := Round e f g h a b c d (u32 (770255983 + w4)) in
  let w5 := u32 (w5 + sigma1 w3 + w14 + sigma0 w6) in let '(g, c) := Round d e f g h a b c (u32 (1249150122 + w5)) in
  let w6 := u32 (w6 + sigma1 w4 + w15 + sigma0 w7) in let '(f, b) := Round c d e f g h a b (u32 (1555081692 + w6)) in
  let w7 := u32 (w7 + sigma1 w5 + w0 + sigma0 w8) in let '(e, a) := Round b c d e f g h a (u32 (1996064986 + w7)) in
  let w8 := u32 (w8 + sigma1 w6 + w1 + sigma0 w9) in let '(d, h) := Round a b c d e f g h (u32 (2554220882 + w8)) in
  let w9 := u32 (w9 + sigma1 w7 + w2 + sigma0 w10) in let '(c, g) := Round h a b c d e f g (u32 (2821834349 + w9)) in
  let w10 := u32 (w10 + sigma1 w8 + w3 + sigma0 w11) in let '(b, f) := Round g h a b c d e f (u32 (2952996808 + w10)) in
  let w11 := u32 (w11 + sigma1 w9 + w4 + sigma0 w12) in let '(a, e) := Round f g h a b c d e (u32 (3210313671 + w11)) in
  let w12 := u32 (w12 + sigma1 w10 + w5 + sigma0 w13) in let '(h, d) := Round e f g h a b c d (u32 (3336571891 + w12)) in
  let w13 := u32 (w13 + sigma1 w11 + w6 + sigma0 w14) in let '(g, c) := Round d e f g h a b c (u32 (3584528711 + w13)) in
  let w14 := u32 (w14 + sigma1 w12 + w7 + sigma0 w15) in let '(f, b) := Round c d e f g h a b (u32 (113926993 + w14)) in
  let w15 := u32 (w15 + sigma1 w13 + w8 + sigma0 w0) in let '(e, a) := Round b c d e f g h a (u32 (338241895 + w15)) in
  last_rounds a b c d e f g h w0 w1 w2 w3 w4 w5 w6 w7 w8 w9 w10 w11 w12 w13 w14 w15.

(** The transformation of one 64-byte chunk. *)
Definition Transform1 (s chunk : list Z) : list Z :=
  match s with
  | [s0; s1; s2; s3; s4; s5; s6; s7] =>
      let '(a, b, c, d, e, f, g, h) := Rounds s0 s1 s2 s3 s4 s5 s6 s7 chunk in
      [u32 (s0 + a); u32 (s1 + b); u32 (s2 + c); u32 (s3 + d);
       u32 (s4 + e); u32 (s5 + f); u32 (s6 + g); u32 (s7 + h)]
  | _ => s
  end.

(** [Transform(s, chunk, blocks)]: the loop over the blocks. *)
Definition Transform (s chunk : list Z) (blocks : nat) : list Z :=
  (process_blocks Transform1 blocks s chunk).1.
End sha256.

(** ** class CSHA256 *)

Module CSHA256.
(** The constructor: [buf] is not initialised, so it is an argument. *)
Definition make (buf0 : list Z) : hasher :=
  {| s := sha256.Initialize; buf := buf0; bytes := 0 |}.

Definition Write : hasher -> list Z -> hasher := BlockHash.Write sha256.Transform1.

(** [FinalizeNoPadding]; [None] is the [std::length_error]. *)
Definition FinalizeNoPadding (h : hasher) (enforce_compression : bool) : option (list Z) :=
  if enforce_compression && negb (bytes h =? 64) then None
  else Some (flat_map WriteBE32 (s h)).

Definition Finalize (h : hasher) : list Z :=
  flat_map WriteBE32 (s (BlockHash.Pad sha256.Transform1 WriteBE64 h)).

Definition Reset (h : hasher) : hasher :=
  {| s := sha256.Initialize; buf := buf h; bytes := 0 |}.
End CSHA256.

(** The digest of a message as a function: FIPS padding, then the compression of each block. *)
Definition sha256_digest (m : list Z) : list Z :=
  flat_map WriteBE32 (digest_state sha256.Transform1 WriteBE64 sha256.Initialize m).

(** SHA-256 of "abc" (FIPS 180-4 example). *)
Example sha256_abc :
  sha256_digest [97; 98; 99] =
  [186; 120; 22; 191; 143; 1; 207; 234; 65; 65; 64; 222; 93; 174; 34; 35;
   176; 3; 97; 163; 150; 23; 122; 156; 180; 16; 255; 97; 242; 0; 21; 173].
Proof. vm_compute. reflexivity. Qed.

(** ** Lemmas *)

Lemma CSHA256_make_holds b : length b = 64%nat ->
  holds sha256.Transform1 sha256.Initialize (CSHA256.make b) [].
Proof. apply holds_nil. Qed.

Lemma CSHA256_Finalize_digest h m :
  holds sha256.Transform1 sha256.Initialize h m -> CSHA256.Finalize h = sha256_digest m.
Proof. intros Hh. unfold CSHA256.Finalize, sha256_digest. by rewrite (Pad_state _ _ _ _ _ Hh). Qed.

Lemma Transform1_length st chunk : length st = 8%nat -> length (sha256.Transform1 st chunk) = 8%nat.
Proof.
  intros Hl. do 9 (destruct st as [|? st]; try discriminate Hl). cbn [sha256.Transform1].
  by destruct (sha256.Rounds _ _ _ _ _ _ _ _ _) as [[[[[[[? ?] ?] ?] ?] ?] ?] ?].
Qed.

Lemma sha256_absorb_length m :
  length (absorb sha256.Transform1 sha256.Initialize m).1 = 8%nat.
Proof. apply absorb_state_length; [apply Transform1_length | reflexivity]. Qed.

Lemma sha256_digest_length m : length (sha256_digest m) = 32%nat.
Proof.
  unfold sha256_digest, digest_state. rewrite (flat_map_length_const _ 4 _ 8); [done|apply WriteBE32_length|apply sha256_absorb_length].
Qed.

Lemma sha256_digest_ok m : bytes_ok (sha256_digest m).
Proof. apply flat_map_bytes_ok. intros x. apply WriteBE32_ok. Qed.
