(* ===== verification/Sha1.v ===== *)
(** * Sha1: SHA-1 of [src/src/crypto/sha1.cpp]
    [Rounds] is the body of [sha1::Transform] line by line; the class methods instantiate
    [BlockHash]. *)
From S2P Require Import Prelude Endian BlockHash.

Module sha1.
(** [(x << n | x >> (32 - n))] on [uint32_t]. *)
Definition rol (x n : Z) : Z := Z.lor (u32 (Z.shiftl x n)) (Z.shiftr x (32 - n)).

(** One round; returns the two variables it writes, [b] and [e]. *)
Definition Round (a b c d e f k w : Z) : Z * Z :=
  (rol b 30, u32 (e + (rol a 5 + f + k + w))).

Definition f1 (b c d : Z) : Z := Z.lxor d (Z.land b (Z.lxor c d)).
Definition f2 (b c d : Z) : Z := Z.lxor (Z.lxor b c) d.
Definition f3 (b c d : Z) : Z := Z.lor (Z.land b c) (Z.land d (Z.lor b c)).

Definition left (x : Z) : Z := rol x 1.

Definition Initialize : list Z := [1732584193; 4023233417; 2562383102; 271733878; 3285377520].

Definition k1 : Z := 1518500249.
Definition k2 : Z := 1859775393.
Definition k3 : Z := 2400959708.
Definition k4 : Z := 3395469782.

(** The 80 rounds on the working variables, with the message schedule in [w0] to [w15]. *)
Definition Rounds (a b c d e : Z) (chunk : list Z) : Z * Z * Z * Z * Z :=
  let w0 := ReadBE32 (drop 0 chunk) in let '(b, e) := Round a b c d e (f1 b c d) k1 w0 in
  let w1 := ReadBE32 (drop 4 chunk) in let '(a, d) := Round e a b c d (f1 a b c) k1 w1 in
  let w2 := ReadBE32 (drop 8 chunk) in let '(e, c) := Round d e a b c (f1 e a b) k1 w2 in
  let w3 := ReadBE32 (drop 12 chunk) in let '(d, b) := Round c d e a b (f1 d e a) k1 w3 in
  let w4 := ReadBE32 (drop 16 chunk) in let '(c, a) := Round b c d e a (f1 c d e) k1 w4 in
  let w5 := ReadBE32 (drop 20 chunk) in let '(b, e) := Round a b c d e (f1 b c d) k1 w5 in
  let w6 := ReadBE32 (drop 24 chunk) in let '(a, d) := Round e a b c d (f1 a b c) k1 w6 in
  let w7 := ReadBE32 (drop 28 chunk) in let '(e, c) := Round d e a b c (f1 e a b) k1 w7 in
  let w8 := ReadBE32 (drop 32 chunk) in let '(d, b) := Round c d e a b (f1 d e a) k1 w8 in
  let w9 := ReadBE32 (drop 36 chunk) in let '(c, a) := Round b c d e a (f1 c d e) k1 w9 in
  let w10 := ReadBE32 (drop 40 chunk) in let '(b, e) := Round a b c d e (f1 b c d) k1 w10 in
  let w11 := ReadBE32 (drop 44 chunk) in let '(a, d) := Round e a b c d (f1 a b c) k1 w11 in
  let w12 := ReadBE32 (drop 48 chunk) in let '(e, c) := Round d e a b c (f1 e a b) k1 w12 in
  let w13 := ReadBE32 (drop 52 chunk) in let '(d, b) := Round c d e a b (f1 d e a) k1 w13 in
  let w14 := ReadBE32 (drop 56 chunk) in let '(c, a) := Round b c d e a (f1 c d e) k1 w14 in
  let w15 := ReadBE32 (drop 60 chunk) in let '(b, e) := Round a b c d e (f1 b c d) k1 w15 in
  let w0 := left (Z.lxor (Z.lxor (Z.lxor w0 w13) w8) w2) in let '(a, d) := Round e a b c d (f1 a b c) k1 w0 in
  let w1 := left (Z.lxor (Z.lxor (Z.lxor w1 w14) w9) w3) in let '(e, c) := Round d e a b c (f1 e a b) k1 w1 in
  let w2 := left (Z.lxor (Z.lxor (Z.lxor w2 w15) w10) w4) in let '(d, b) := Round c d e a b (f1 d e a) k1 w2 in
  let w3 := left (Z.lxor (Z.lxor (Z.lxor w3 w0) w11) w5) in let '(c, a) := Round b c d e a (f1 c d e) k1 w3 in
  let w4 := left (Z.lxor (Z.lxor (Z.lxor w4 w1) w12) w6) in let '(b, e) := Round a b c d e (f2 b c d) k2 w4 in
  let w5 := left (Z.lxor (Z.lxor (Z.lxor w5 w2) w13) w7) in let '(a, d) := Round e a b c d (f2 a b c) k2 w5 in
  let w6 := left (Z.lxor (Z.lxor (Z.lxor w6 w3) w14) w8) in let '(e, c) := Round d e a b c (f2 e a b) k2 w6 in
  let w7 := left (Z.lxor (Z.lxor (Z.lxor w7 w4) w15) w9) in let '(d, b) := Round c d e a b (f2 d e a) k2 w7 in
  let w8 := left (Z.lxor (Z.lxor (Z.lxor w8 w5) w0) w10) in let '(c, a) := Round b c d e a (f2 c d e) k2 w8 in
  let w9 := left (Z.lxor (Z.lxor (Z.lxor w9 w6) w1) w11) in let '(b, e) := Round a b c d e (f2 b c d) k2 w9 in
  let w10 := left (Z.lxor (Z.lxor (Z.lxor w10 w7) w2) w12) in let '(a, d) := Round e a b c d (f2 a b c) k2 w10 in
  let w11 := left (Z.lxor (Z.lxor (Z.lxor w11 w8) w3) w13) in let '(e, c) := Round d e a b c (f2 e a b) k2 w11 in
  let w12 := left (Z.lxor (Z.lxor (Z.lxor w12 w9) w4) w14) in let '(d, b) := Round c d e a b (f2 d e a) k2 w12 in
  let w13 := left (Z.lxor (Z.lxor (Z.lxor w13 w10) w5) w15) in let '(c, a) := Round b c d e a (f2 c d e) k2 w13 in
  let w14 := left (Z.lxor (Z.lxor (Z.lxor w14 w11) w6) w0) in let '(b, e) := Round a b c d e (f2 b c d) k2 w14 in
  let w15 := left (Z.lxor (Z.lxor (Z.lxor w15 w12) w7) w1) in let '(a, d) := Round e a b c d (f2 a b c) k2 w15 in
  let w0 := left (Z.lxor (Z.lxor (Z.lxor w0 w13) w8) w2) in let '(e, c) := Round d e a b c (f2 e a b) k2 w0 in
  let w1 := left (Z.lxor (Z.lxor (Z.lxor w1 w14) w9) w3) in let '(d, b) := Round c d e a b (f2 d e a) k2 w1 in
  let w2 := left (Z.lxor (Z.lxor (Z.lxor w2 w15) w10) w4) in let '(c, a) := Round b c d e a (f2 c d e) k2 w2 in
  let w3 := left (Z.lxor (Z.lxor (Z.lxor w3 w0) w11) w5) in let '(b, e) := Round a b c d e (f2 b c d) k2 w3 in
  let w4 := left (Z.lxor (Z.lxor (Z.lxor w4 w1) w12) w6) in let '(a, d) := Round e a b c d (f2 a b c) k2 w4 in
  let w5 := left (Z.lxor (Z.lxor (Z.lxor w5 w2) w13) w7) in let '(e, c) := Round d e a b c (f2 e a b) k2 w5 in
  let w6 := left (Z.lxor (Z.lxor (Z.lxor w6 w3) w14) w8) in let '(d, b) := Round c d e a b (f2 d e a) k2 w6 in
  let w7 := left (Z.lxor (Z.lxor (Z.lxor w7 w4) w15) w9) in let '(c, a) := Round b c d e a (f2 c d e) k2 w7 in
  let w8 := left (Z.lxor (Z.lxor (Z.lxor w8 w5) w0) w10) in let '(b, e) := Round a b c d e (f3 b c d) k3 w8 in
  let w9 := left (Z.lxor (Z.lxor (Z.lxor w9 w6) w1) w11) in let '(a, d) := Round e a b c d (f3 a b c) k3 w9 in
  let w10 := left (Z.lxor (Z.lxor (Z.lxor w10 w7) w2) w12) in let '(e, c) := Round d e a b c (f3 e a b) k3 w10 in
  let w11 := left (Z.lxor (Z.lxor (Z.lxor w11 w8) w3) w13) in let '(d, b) := Round c d e a b (f3 d e a) k3 w11 in
  let w12 := left (Z.lxor (Z.lxor (Z.lxor w12 w9) w4) w14) in let '(c, a) := Round b c d e a (f3 c d e) k3 w12 in
  let w13 := left (Z.lxor (Z.lxor (Z.lxor w13 w10) w5) w15) in let '(b, e) := Round a b c d e (f3 b c d) k3 w13 in
  let w14 := left (Z.lxor (Z.lxor (Z.lxor w14 w11) w6) w0) in let '(a, d) := Round e a b c d (f3 a b c) k3 w14 in
  let w15 := left (Z.lxor (Z.lxor (Z.lxor w15 w12) w7) w1) in let '(e, c) := Round d e a b c (f3 e a b) k3 w15 in
  let w0 := left (Z.lxor (Z.lxor (Z.lxor w0 w13) w8) w2) in let '(d, b) := Round c d e a b (f3 d e a) k3 w0 in
  let w1 := left (Z.lxor (Z.lxor (Z.lxor w1 w14) w9) w3) in let '(c, a) := Round b c d e a (f3 c d e) k3 w1 in
  let w2 := left (Z.lxor (Z.lxor (Z.lxor w2 w15) w10) w4) in let '(b, e) := Round a b c d e (f3 b c d) k3 w2 in
  let w3 := left (Z.lxor (Z.lxor (Z.lxor w3 w0) w11) w5) in let '(a, d) := Round e a b c d (f3 a b c) k3 w3 in
  let w4 := left (Z.lxor (Z.lxor (Z.lxor w4 w1) w12) w6) in let '(e, c) := Round d e a b c (f3 e a b) k3 w4 in
  let w5 := left (Z.lxor (Z.lxor (Z.lxor w5 w2) w13) w7) in let '(d, b) := Round c d e a b (f3 d e a) k3 w5 in
  let w6 := left (Z.lxor (Z.lxor (Z.lxor w6 w3) w14) w8) in let '(c, a) := Round b c d e a (f3 c d e) k3 w6 in
  let w7 := left (Z.lxor (Z.lxor (Z.lxor w7 w4) w15) w9) in let '(b, e) := Round a b c d e (f3 b c d) k3 w7 in
  let w8 := left (Z.lxor (Z.lxor (Z.lxor w8 w5) w0) w10) in let '(a, d) := Round e a b c d (f3 a b c) k3 w8 in
  let w9 := left (Z.lxor (Z.lxor (Z.lxor w9 w6) w1) w11) in let '(e, c) := Round d e a b c (f3 e a b) k3 w9 in
  let w10 := left (Z.lxor (Z.lxor (Z.lxor w10 w7) w2) w12) in let '(d, b) := Round c d e a b (f3 d e a) k3 w10 in
  let w11 := left (Z.lxor (Z.lxor (Z.lxor w11 w8) w3) w13) in let '(c, a) := Round b c d e a (f3 c d e) k3 w11 in
  let w12 := left (Z.lxor (Z.lxor (Z.lxor w12 w9) w4) w14) in let '(b, e) := Round a b c d e (f2 b c d) k4 w12 in
  let w13 := left (Z.lxor (Z.lxor (Z.lxor w13 w10) w5) w15) in let '(a, d) := Round e a b c d (f2 a b c) k4 w13 in
  let w14 := left (Z.lxor (Z.lxor (Z.lxor w14 w11) w6) w0) in let '(e, c) := Round d e a b c (f2 e a b) k4 w14 in
  let w15 := left (Z.lxor (Z.lxor (Z.lxor w15 w12) w7) w1) in let '(d, b) := Round c d e a b (f2 d e a) k4 w15 in
  let w0 := left (Z.lxor (Z.lxor (Z.lxor w0 w13) w8) w2) in let '(c, a) := Round b c d e a (f2 c d e) k4 w0 in
  let w1 := left (Z.lxor (Z.lxor (Z.lxor w1 w14) w9) w3) in let '(b, e) := Round a b c d e (f2 b c d) k4 w1 in
  let w2 := left (Z.lxor (Z.lxor (Z.lxor w2 w15) w10) w4) in let '(a, d) := Round e a b c d (f2 a b c) k4 w2 in
  let w3 := left (Z.lxor (Z.lxor (Z.lxor w3 w0) w11) w5) in let '(e, c) := Round d e a b c (f2 e a b) k4 w3 in
  let w4 := left (Z.lxor (Z.lxor (Z.lxor w4 w1) w12) w6) in let '(d, b) := Round c d e a b (f2 d e a) k4 w4 in
  let w5 := left (Z.lxor (Z.lxor (Z.lxor w5 w2) w13) w7) in let '(c, a) := Round b c d e a (f2 c d e) k4 w5 in
  let w6 := left (Z.lxor (Z.lxor (Z.lxor w6 w3) w14) w8) in let '(b, e) := Round a b c d e (f2 b c d) k4 w6 in
  let w7 := left (Z.lxor (Z.lxor (Z.lxor w7 w4) w15) w9) in let '(a, d) := Round e a b c d (f2 a b c) k4 w7 in
  let w8 := left (Z.lxor (Z.lxor (Z.lxor w8 w5) w0) w10) in let '(e, c) := Round d e a b c (f2 e a b) k4 w8 in
  let w9 := left (Z.lxor (Z.lxor (Z.lxor w9 w6) w1) w11) in let '(d, b) := Round c d e a b (f2 d e a) k4 w9 in
  let w10 := left (Z.lxor (Z.lxor (Z.lxor w10 w7) w2) w12) in let '(c, a) := Round b c d e a (f2 c d e) k4 w10 in
  let w11 := left (Z.lxor (Z.lxor (Z.lxor w11 w8) w3) w13) in let '(b, e) := Round a b c d e (f2 b c d) k4 w11 in
  let w12 := left (Z.lxor (Z.lxor (Z.lxor w12 w9) w4) w14) in let '(a, d) := Round e a b c d (f2 a b c) k4 w12 in
  let '(e, c) := Round d e a b c (f2 e a b) k4 (left (Z.lxor (Z.lxor (Z.lxor w13 w10) w5) w15)) in
  let '(d, b) := Round c d e a b (f2 d e a) k4 (left (Z.lxor (Z.lxor (Z.lxor w14 w11) w6) w0)) in
  let '(c, a) := Round b c d e a (f2 c d e) k4 (left (Z.lxor (Z.lxor (Z.lxor w15 w12) w7) w1)) in
  (a, b, c, d, e).

Definition Transform (s chunk : list Z) : list Z :=
  match s with
  | [s0; s1; s2; s3; s4] =>
      let '(a, b, c, d, e) := Rounds s0 s1 s2 s3 s4 chunk in
      [u32 (s0 + a); u32 (s1 + b); u32 (s2 + c); u32 (s3 + d); u32 (s4 + e)]
  | _ => s
  end.
End sha1.

(** ** class CSHA1 *)

Module CSHA1.
Definition make (buf0 : list Z) : hasher :=
  {| s := sha1.Initialize; buf := buf0; bytes := 0 |}.
Definition Write : hasher -> list Z -> hasher := BlockHash.Write sha1.Transform.
Definition Finalize (h : hasher) : list Z :=
  flat_map WriteBE32 (s (BlockHash.Pad sha1.Transform WriteBE64 h)).
Definition Reset (h : hasher) : hasher :=
  {| s := sha1.Initialize; buf := buf h; bytes := 0 |}.
End CSHA1.

(** The digest of a message as a function. *)
Definition sha1_digest (m : list Z) : list Z :=
  flat_map WriteBE32 (digest_state sha1.Transform WriteBE64 sha1.Initialize m).

(** SHA-1 of "abc" (FIPS 180-4 example). *)
Example sha1_abc :
  sha1_digest [97; 98; 99] =
  [169; 153; 62; 54; 71; 6; 129; 106; 186; 62; 37; 113; 120; 80; 194; 108; 156; 208; 216; 157].
Proof. vm_compute. reflexivity. Qed.

(** ** Lemmas *)

Lemma CSHA1_Finalize_digest h m :
  holds sha1.Transform sha1.Initialize h m -> CSHA1.Finalize h = sha1_digest m.
Proof. intros Hh. unfold CSHA1.Finalize, sha1_digest. by rewrite (Pad_state _ _ _ _ _ Hh). Qed.

Lemma sha1_Transform_length st chunk : length st = 5%nat -> length (sha1.Transform st chunk) = 5%nat.
Proof.
  intros Hl. do 6 (destruct st as [|? st]; try discriminate Hl). cbn [sha1.Transform].
  by destruct (sha1.Rounds _ _ _ _ _ _) as [[[[? ?] ?] ?] ?].
Qed.

Lemma sha1_digest_length m : length (sha1_digest m) = 20%nat.
Proof.
  unfold sha1_digest, digest_state.
  rewrite (flat_map_length_const _ 4 _ 5); [done|apply WriteBE32_length|].
  apply absorb_state_length; [apply sha1_Transform_length | reflexivity].
Qed.

Lemma sha1_digest_ok m : bytes_ok (sha1_digest m).
Proof. apply flat_map_bytes_ok. intros x. apply WriteBE32_ok. Qed.
