(* ===== verification/Ripemd160.v ===== *)
(** * Ripemd160: RIPEMD-160 of [src/src/crypto/ripemd160.cpp]
    [Rounds] is the body of [ripemd160::Transform] line by line; the class methods instantiate
    [BlockHash]. *)
From S2P Require Import Prelude Endian BlockHash.

Module ripemd160.
(** [~x] on [uint32_t]. *)
Definition bnot32 (x : Z) : Z := u32 (Z.lnot x).

Definition f1 (x y z : Z) : Z := Z.lxor (Z.lxor x y) z.
Definition f2 (x y z : Z) : Z := Z.lor (Z.land x y) (Z.land (bnot32 x) z).
Definition f3 (x y z : Z) : Z := Z.lxor (Z.lor x (bnot32 y)) z.
Definition f4 (x y z : Z) : Z := Z.lor (Z.land x z) (Z.land y (bnot32 z)).
Definition f5 (x y z : Z) : Z := Z.lxor x (Z.lor y (bnot32 z)).

Definition Initialize : list Z := [1732584193; 4023233417; 2562383102; 271733878; 3285377520].

Definition rol (x i : Z) : Z := Z.lor (u32 (Z.shiftl x i)) (Z.shiftr x (32 - i)).

(** One round; returns the two variables it writes, [a] and [c]. *)
Definition Round (a b c d e f x k r : Z) : Z * Z :=
  (u32 (rol (u32 (a + f + x + k)) r + e), rol c 10).

Definition R11 (a b c d e x r : Z) : Z * Z := Round a b c d e (f1 b c d) x 0 r.
Definition R21 (a b c d e x r : Z) : Z * Z := Round a b c d e (f2 b c d) x 1518500249 r.
Definition R31 (a b c d e x r : Z) : Z * Z := Round a b c d e (f3 b c d) x 1859775393 r.
Definition R41 (a b c d e x r : Z) : Z * Z := Round a b c d e (f4 b c d) x 2400959708 r.
Definition R51 (a b c d e x r : Z) : Z * Z := Round a b c d e (f5 b c d) x 2840853838 r.
Definition R12 (a b c d e x r : Z) : Z * Z := Round a b c d e (f5 b c d) x 1352829926 r.
Definition R22 (a b c d e x r : Z) : Z * Z := Round a b c d e (f4 b c d) x 1548603684 r.
Definition R32 (a b c d e x r : Z) : Z * Z := Round a b c d e (f3 b c d) x 1836072691 r.
Definition R42 (a b c d e x r : Z) : Z * Z := Round a b c d e (f2 b c d) x 2053994217 r.
Definition R52 (a b c d e x r : Z) : Z * Z := Round a b c d e (f1 b c d) x 0 r.

(** The two lines of 80 rounds, interleaved as in the source. *)
Definition Rounds (a b c d e : Z) (chunk : list Z) : Z * Z * Z * Z * Z * (Z * Z * Z * Z * Z) :=
  let '(a1, b1, c1, d1, e1) := (a, b, c, d, e) in
  let '(a2, b2, c2, d2, e2) := (a, b, c, d, e) in
  let w0 := ReadLE32 (drop 0 chunk) in
  let w1 := ReadLE32 (drop 4 chunk) in
  let w2 := ReadLE32 (drop 8 chunk) in
  let w3 := ReadLE32 (drop 12 chunk) in
  let w4 := ReadLE32 (drop 16 chunk) in
  let w5 := ReadLE32 (drop 20 chunk) in
  let w6 := ReadLE32 (drop 24 chunk) in
  let w7 := ReadLE32 (drop 28 chunk) in
  let w8 := ReadLE32 (drop 32 chunk) in
  let w9 := ReadLE32 (drop 36 chunk) in
  let w10 := ReadLE32 (drop 40 chunk) in
  let w11 := ReadLE32 (drop 44 chunk) in
  let w12 := ReadLE32 (drop 48 chunk) in
  let w13 := ReadLE32 (drop 52 chunk) in
  let w14 := ReadLE32 (drop 56 chunk) in
  let w15 := ReadLE32 (drop 60 chunk) in
  let '(a1, c1) := R11 a1 b1 c1 d1 e1 w0 11 in
  let '(a2, c2) := R12 a2 b2 c2 d2 e2 w5 8 in
  let '(e1, b1) := R11 e1 a1 b1 c1 d1 w1 14 in
  let '(e2, b2) := R12 e2 a2 b2 c2 d2 w14 9 in
  let '(d1, a1) := R11 d1 e1 a1 b1 c1 w2 15 in
  let '(d2, a2) := R12 d2 e2 a2 b2 c2 w7 9 in
  let '(c1, e1) := R11 c1 d1 e1 a1 b1 w3 12 in
  let '(c2, e2) := R12 c2 d2 e2 a2 b2 w0 11 in
  let '(b1, d1) := R11 b1 c1 d1 e1 a1 w4 5 in
  let '(b2, d2) := R12 b2 c2 d2 e2 a2 w9 13 in
  let '(a1, c1) := R11 a1 b1 c1 d1 e1 w5 8 in
  let '(a2, c2) := R12 a2 b2 c2 d2 e2 w2 15 in
  let '(e1, b1) := R11 e1 a1 b1 c1 d1 w6 7 in
  let '(e2, b2) := R12 e2 a2 b2 c2 d2 w11 15 in
  let '(d1, a1) := R11 d1 e1 a1 b1 c1 w7 9 in
  let '(d2, a2) := R12 d2 e2 a2 b2 c2 w4 5 in
  let '(c1, e1) := R11 c1 d1 e1 a1 b1 w8 11 in
  let '(c2, e2) := R12 c2 d2 e2 a2 b2 w13 7 in
  let '(b1, d1) := R11 b1 c1 d1 e1 a1 w9 13 in
  let '(b2, d2) := R12 b2 c2 d2 e2 a2 w6 7 in
  let '(a1, c1) := R11 a1 b1 c1 d1 e1 w10 14 in
  let '(a2, c2) := R12 a2 b2 c2 d2 e2 w15 8 in
  let '(e1, b1) := R11 e1 a1 b1 c1 d1 w11 15 in
  let '(e2, b2) := R12 e2 a2 b2 c2 d2 w8 11 in
  let '(d1, a1) := R11 d1 e1 a1 b1 c1 w12 6 in
  let '(d2, a2) := R12 d2 e2 a2 b2 c2 w1 14 in
  let '(c1, e1) := R11 c1 d1 e1 a1 b1 w13 7 in
  let '(c2, e2) := R12 c2 d2 e2 a2 b2 w10 14 in
  let '(b1, d1) := R11 b1 c1 d1 e1 a1 w14 9 in
  let '(b2, d2) := R12 b2 c2 d2 e2 a2 w3 12 in
  let '(a1, c1) := R11 a1 b1 c1 d1 e1 w15 8 in
  let '(a2, c2) := R12 a2 b2 c2 d2 e2 w12 6 in
  let '(e1, b1) := R21 e1 a1 b1 c1 d1 w7 7 in
  let '(e2, b2) := R22 e2 a2 b2 c2 d2 w6 9 in
  let '(d1, a1) := R21 d1 e1 a1 b1 c1 w4 6 in
  let '(d2, a2) := R22 d2 e2 a2 b2 c2 w11 13 in
  let '(c1, e1) := R21 c1 d1 e1 a1 b1 w13 8 in
  let '(c2, e2) := R22 c2 d2 e2 a2 b2 w3 15 in
  let '(b1, d1) := R21 b1 c1 d1 e1 a1 w1 13 in
  let '(b2, d2) := R22 b2 c2 d2 e2 a2 w7 7 in
  let '(a1, c1) := R21 a1 b1 c1 d1 e1 w10 11 in
  let '(a2, c2) := R22 a2 b2 c2 d2 e2 w0 12 in
  let '(e1, b1) := R21 e1 a1 b1 c1 d1 w6 9 in
  let '(e2, b2) := R22 e2 a2 b2 c2 d2 w13 8 in
  let '(d1, a1) := R21 d1 e1 a1 b1 c1 w15 7 in
  let '(d2, a2) := R22 d2 e2 a2 b2 c2 w5 9 in
  let '(c1, e1) := R21 c1 d1 e1 a1 b1 w3 15 in
  let '(c2, e2) := R22 c2 d2 e2 a2 b2 w10 11 in
  let '(b1, d1) := R21 b1 c1 d1 e1 a1 w12 7 in
  let '(b2, d2) := R22 b2 c2 d2 e2 a2 w14 7 in
  let '(a1, c1) := R21 a1 b1 c1 d1 e1 w0 12 in
  let '(a2, c2) := R22 a2 b2 c2 d2 e2 w15 7 in
  let '(e1, b1) := R21 e1 a1 b1 c1 d1 w9 15 in
  let '(e2, b2) := R22 e2 a2 b2 c2 d2 w8 12 in
  let '(d1, a1) := R21 d1 e1 a1 b1 c1 w5 9 in
  let '(d2, a2) := R22 d2 e2 a2 b2 c2 w12 7 in
  let '(c1, e1) := R21 c1 d1 e1 a1 b1 w2 11 in
  let '(c2, e2) := R22 c2 d2 e2 a2 b2 w4 6 in
  let '(b1, d1) := R21 b1 c1 d1 e1 a1 w14 7 in
  let '(b2, d2) := R22 b2 c2 d2 e2 a2 w9 15 in
  let '(a1, c1) := R21 a1 b1 c1 d1 e1 w11 13 in
  let '(a2, c2) := R22 a2 b2 c2 d2 e2 w1 13 in
  let '(e1, b1) := R21 e1 a1 b1 c1 d1 w8 12 in
  let '(e2, b2) := R22 e2 a2 b2 c2 d2 w2 11 in
  let '(d1, a1) := R31 d1 e1 a1 b1 c1 w3 11 in
  let '(d2, a2) := R32 d2 e2 a2 b2 c2 w15 9 in
  let '(c1, e1) := R31 c1 d1 e1 a1 b1 w10 13 in
  let '(c2, e2) := R32 c2 d2 e2 a2 b2 w5 7 in
  let '(b1, d1) := R31 b1 c1 d1 e1 a1 w14 6 in
  let '(b2, d2) := R32 b2 c2 d2 e2 a2 w1 15 in
  let '(a1, c1) := R31 a1 b1 c1 d1 e1 w4 7 in
  let '(a2, c2) := R32 a2 b2 c2 d2 e2 w3 11 in
  let '(e1, b1) := R31 e1 a1 b1 c1 d1 w9 14 in
  let '(e2, b2) := R32 e2 a2 b2 c2 d2 w7 8 in
  let '(d1, a1) := R31 d1 e1 a1 b1 c1 w15 9 in
  let '(d2, a2) := R32 d2 e2 a2 b2 c2 w14 6 in
  let '(c1, e1) := R31 c1 d1 e1 a1 b1 w8 13 in
  let '(c2, e2) := R32 c2 d2 e2 a2 b2 w6 6 in
  let '(b1, d1) := R31 b1 c1 d1 e1 a1 w1 15 in
  let '(b2, d2) := R32 b2 c2 d2 e2 a2 w9 14 in
  let '(a1, c1) := R31 a1 b1 c1 d1 e1 w2 14 in
  let '(a2, c2) := R32 a2 b2 c2 d2 e2 w11 12 in
  let '(e1, b1) := R31 e1 a1 b1 c1 d1 w7 8 in
  let '(e2, b2) := R32 e2 a2 b2 c2 d2 w8 13 in
  let '(d1, a1) := R31 d1 e1 a1 b1 c1 w0 13 in
  let '(d2, a2) := R32 d2 e2 a2 b2 c2 w12 5 in
  let '(c1, e1) := R31 c1 d1 e1 a1 b1 w6 6 in
  let '(c2, e2) := R32 c2 d2 e2 a2 b2 w2 14 in
  let '(b1, d1) := R31 b1 c1 d1 e1 a1 w13 5 in
  let '(b2, d2) := R32 b2 c2 d2 e2 a2 w10 13 in
  let '(a1, c1) := R31 a1 b1 c1 d1 e1 w11 12 in
  let '(a2, c2) := R32 a2 b2 c2 d2 e2 w0 13 in
  let '(e1, b1) := R31 e1 a1 b1 c1 d1 w5 7 in
  let '(e2, b2) := R32 e2 a2 b2 c2 d2 w4 7 in
  let '(d1, a1) := R31 d1 e1 a1 b1 c1 w12 5 in
  let '(d2, a2) := R32 d2 e2 a2 b2 c2 w13 5 in
  let '(c1, e1) := R41 c1 d1 e1 a1 b1 w1 11 in
  let '(c2, e2) := R42 c2 d2 e2 a2 b2 w8 15 in
  let '(b1, d1) := R41 b1 c1 d1 e1 a1 w9 12 in
  let '(b2, d2) := R42 b2 c2 d2 e2 a2 w6 5 in
  let '(a1, c1) := R41 a1 b1 c1 d1 e1 w11 14 in
  let '(a2, c2) := R42 a2 b2 c2 d2 e2 w4 8 in
  let '(e1, b1) := R41 e1 a1 b1 c1 d1 w10 15 in
  let '(e2, b2) := R42 e2 a2 b2 c2 d2 w1 11 in
  let '(d1, a1) := R41 d1 e1 a1 b1 c1 w0 14 in
  let '(d2, a2) := R42 d2 e2 a2 b2 c2 w3 14 in
  let '(c1, e1) := R41 c1 d1 e1 a1 b1 w8 15 in
  let '(c2, e2) := R42 c2 d2 e2 a2 b2 w11 14 in
  let '(b1, d1) := R41 b1 c1 d1 e1 a1 w12 9 in
  let '(b2, d2) := R42 b2 c2 d2 e2 a2 w15 6 in
  let '(a1, c1) := R41 a1 b1 c1 d1 e1 w4 8 in
  let '(a2, c2) := R42 a2 b2 c2 d2 e2 w0 14 in
  let '(e1, b1) := R41 e1 a1 b1 c1 d1 w13 9 in
  let '(e2, b2) := R42 e2 a2 b2 c2 d2 w5 6 in
  let '(d1, a1) := R41 d1 e1 a1 b1 c1 w3 14 in
  let '(d2, a2) := R42 d2 e2 a2 b2 c2 w12 9 in
  let '(c1, e1) := R41 c1 d1 e1 a1 b1 w7 5 in
  let '(c2, e2) := R42 c2 d2 e2 a2 b2 w2 12 in
  let '(b1, d1) := R41 b1 c1 d1 e1 a1 w15 6 in
  let '(b2, d2) := R42 b2 c2 d2 e2 a2 w13 9 in
  let '(a1, c1) := R41 a1 b1 c1 d1 e1 w14 8 in
  let '(a2, c2) := R42 a2 b2 c2 d2 e2 w9 12 in
  let '(e1, b1) := R41 e1 a1 b1 c1 d1 w5 6 in
  let '(e2, b2) := R42 e2 a2 b2 c2 d2 w7 5 in
  let '(d1, a1) := R41 d1 e1 a1 b1 c1 w6 5 in
  let '(d2, a2) := R42 d2 e2 a2 b2 c2 w10 15 in
  let '(c1, e1) := R41 c1 d1 e1 a1 b1 w2 12 in
  let '(c2, e2) := R42 c2 d2 e2 a2 b2 w14 8 in
  let '(b1, d1) := R51 b1 c1 d1 e1 a1 w4 9 in
  let '(b2, d2) := R52 b2 c2 d2 e2 a2 w12 8 in
  let '(a1, c1) := R51 a1 b1 c1 d1 e1 w0 15 in
  let '(a2, c2) := R52 a2 b2 c2 d2 e2 w15 5 in
  let '(e1, b1) := R51 e1 a1 b1 c1 d1 w5 5 in
  let '(e2, b2) := R52 e2 a2 b2 c2 d2 w10 12 in
  let '(d1, a1) := R51 d1 e1 a1 b1 c1 w9 11 in
  let '(d2, a2) := R52 d2 e2 a2 b2 c2 w4 9 in
  let '(c1, e1) := R51 c1 d1 e1 a1 b1 w7 6 in
  let '(c2, e2) := R52 c2 d2 e2 a2 b2 w1 12 in
  let '(b1, d1) := R51 b1 c1 d1 e1 a1 w12 8 in
  let '(b2, d2) := R52 b2 c2 d2 e2 a2 w5 5 in
  let '(a1, c1) := R51 a1 b1 c1 d1 e1 w2 13 in
  let '(a2, c2) := R52 a2 b2 c2 d2 e2 w8 14 in
  let '(e1, b1) := R51 e1 a1 b1 c1 d1 w10 12 in
  let '(e2, b2) := R52 e2 a2 b2 c2 d2 w7 6 in
  let '(d1, a1) := R51 d1 e1 a1 b1 c1 w14 5 in
  let '(d2, a2) := R52 d2 e2 a2 b2 c2 w6 8 in
  let '(c1, e1) := R51 c1 d1 e1 a1 b1 w1 12 in
  let '(c2, e2) := R52 c2 d2 e2 a2 b2 w2 13 in
  let '(b1, d1) := R51 b1 c1 d1 e1 a1 w3 13 in
  let '(b2, d2) := R52 b2 c2 d2 e2 a2 w13 6 in
  let '(a1, c1) := R51 a1 b1 c1 d1 e1 w8 14 in
  let '(a2, c2) := R52 a2 b2 c2 d2 e2 w14 5 in
  let '(e1, b1) := R51 e1 a1 b1 c1 d1 w11 11 in
  let '(e2, b2) := R52 e2 a2 b2 c2 d2 w0 15 in
  let '(d1, a1) := R51 d1 e1 a1 b1 c1 w6 8 in
  let '(d2, a2) := R52 d2 e2 a2 b2 c2 w3 13 in
  let '(c1, e1) := R51 c1 d1 e1 a1 b1 w15 5 in
  let '(c2, e2) := R52 c2 d2 e2 a2 b2 w9 11 in
  let '(b1, d1) := R51 b1 c1 d1 e1 a1 w13 6 in
  let '(b2, d2) := R52 b2 c2 d2 e2 a2 w11 11 in
  (a1, b1, c1, d1, e1, (a2, b2, c2, d2, e2)).

Definition Transform (s chunk : list Z) : list Z :=
  match s with
  | [s0; s1; s2; s3; s4] =>
      let '(a1, b1, c1, d1, e1, (a2, b2, c2, d2, e2)) := Rounds s0 s1 s2 s3 s4 chunk in
      let t := s0 in
      [u32 (s1 + c1 + d2); u32 (s2 + d1 + e2); u32 (s3 + e1 + a2); u32 (s4 + a1 + b2);
       u32 (t + b1 + c2)]
  | _ => s
  end.
End ripemd160.

(** ** class CRIPEMD160 *)

Module CRIPEMD160.
Definition make (buf0 : list Z) : hasher :=
  {| s := ripemd160.Initialize; buf := buf0; bytes := 0 |}.
Definition Write : hasher -> list Z -> hasher := BlockHash.Write ripemd160.Transform.
Definition Finalize (h : hasher) : list Z :=
  flat_map WriteLE32 (s (BlockHash.Pad ripemd160.Transform WriteLE64 h)).
Definition Reset (h : hasher) : hasher :=
  {| s := ripemd160.Initialize; buf := buf h; bytes := 0 |}.
End CRIPEMD160.

(** The digest of a message as a function. *)
Definition ripemd160_digest (m : list Z) : list Z :=
  flat_map WriteLE32 (digest_state ripemd160.Transform WriteLE64 ripemd160.Initialize m).

(** RIPEMD-160 of "abc" (the authors' test vector). *)
Example ripemd160_abc :
  ripemd160_digest [97; 98; 99] =
  [142; 178; 8; 247; 224; 93; 152; 122; 155; 4; 74; 142; 152; 198; 176; 135; 241; 90; 11; 252].
Proof. vm_compute. reflexivity. Qed.

(** ** Lemmas *)

Lemma CRIPEMD160_Finalize_digest h m :
  holds ripemd160.Transform ripemd160.Initialize h m -> CRIPEMD160.Finalize h = ripemd160_digest m.
Proof.
  intros Hh. unfold CRIPEMD160.Finalize, ripemd160_digest. by rewrite (Pad_state _ _ _ _ _ Hh).
Qed.

Lemma ripemd160_Transform_length st chunk :
  length st = 5%nat -> length (ripemd160.Transform st chunk) = 5%nat.
Proof.
  intros Hl. do 6 (destruct st as [|? st]; try discriminate Hl). cbn [ripemd160.Transform].
  by destruct (ripemd160.Rounds _ _ _ _ _ _) as [[[[[? ?] ?] ?] ?] [[[[? ?] ?] ?] ?]].
Qed.

Lemma ripemd160_digest_length m : length (ripemd160_digest m) = 20%nat.
Proof.
  unfold ripemd160_digest, digest_state.
  rewrite (flat_map_length_const _ 4 _ 5); [done|apply WriteLE32_length|].
  apply absorb_state_length; [apply ripemd160_Transform_length | reflexivity].
Qed.

Lemma ripemd160_digest_ok m : bytes_ok (ripemd160_digest m).
Proof. apply flat_map_bytes_ok. intros x. apply WriteLE32_ok. Qed.
