(* ===== verification/Hash.v ===== *)
(** * Hash: the hashers of [src/src/hash.h] and [src/src/hash.cpp]
    [CHash256] is SHA-256 twice, [CHash160] is RIPEMD-160 of SHA-256; the free functions [Hash]
    and [Hash160] run them on ranges.  The theorems show that every way of cutting a message
    into [Write] calls gives the digest of the whole message. *)
From S2P Require Import Prelude Endian BlockHash Sha256 Sha1 Ripemd160.

(** An automatic array that the constructors leave unset; any contents give the same digests. *)
Definition fresh_buf : list Z := replicate 64 0.

Module CHash256.
Definition make (buf0 : list Z) : hasher := CSHA256.make buf0.
Definition Write : hasher -> list Z -> hasher := CSHA256.Write.
Definition Finalize (sha : hasher) : list Z :=
  let buf := CSHA256.Finalize sha in
  CSHA256.Finalize (CSHA256.Write (CSHA256.Reset sha) buf).
Definition Reset : hasher -> hasher := CSHA256.Reset.
End CHash256.

Module CHash160.
Definition make (buf0 : list Z) : hasher := CSHA256.make buf0.
Definition Write : hasher -> list Z -> hasher := CSHA256.Write.
Definition Finalize (sha : hasher) : list Z :=
  let buf := CSHA256.Finalize sha in
  CRIPEMD160.Finalize (CRIPEMD160.Write (CRIPEMD160.make fresh_buf) buf).
Definition Reset : hasher -> hasher := CSHA256.Reset.
End CHash160.

(** [Hash(begin, end)], [Hash(b1, e1, b2, e2)] and the three-range version write each range in
    turn. *)
Definition Hash_ranges (ranges : list (list Z)) : list Z :=
  CHash256.Finalize (fold_left CHash256.Write ranges (CHash256.make fresh_buf)).

Definition Hash (m : list Z) : list Z := Hash_ranges [m].

Definition Hash160 (m : list Z) : list Z :=
  CHash160.Finalize (CHash160.Write (CHash160.make fresh_buf) m).

(** ** MurmurHash3 *)

Definition ROTL32 (x r : Z) : Z := Z.lor (u32 (Z.shiftl x r)) (Z.shiftr x (32 - r)).

Definition murmur_c1 : Z := 3432918353.
Definition murmur_c2 : Z := 461845907.

(** The mixing of one word: [k1 *= c1; k1 = ROTL32(k1, 15); k1 *= c2]. *)
Definition murmur_k (k1 : Z) : Z := u32 (ROTL32 (u32 (k1 * murmur_c1)) 15 * murmur_c2).

(** The body loop over the whole 4-byte blocks. *)
Fixpoint murmur_body (nblocks : nat) (h1 : Z) (data : list Z) : Z * list Z :=
  match nblocks with
  | O => (h1, data)
  | S n =>
      let h1 := Z.lxor h1 (murmur_k (ReadLE32 data)) in
      let h1 := ROTL32 h1 13 in
      murmur_body n (u32 (h1 * 5 + 3864292196)) (drop 4 data)
  end.

(** The tail switch, with its fall-through. *)
Definition murmur_tail (h1 : Z) (tail : list Z) : Z :=
  match tail with
  | [] => h1
  | [t0] => Z.lxor h1 (murmur_k t0)
  | [t0; t1] => Z.lxor h1 (murmur_k (Z.lxor (Z.shiftl t1 8) t0))
  | t0 :: t1 :: t2 :: _ =>
      Z.lxor h1 (murmur_k (Z.lxor (Z.lxor (Z.shiftl t2 16) (Z.shiftl t1 8)) t0))
  end.

Definition MurmurHash3 (nHashSeed : Z) (vDataToHash : list Z) : Z :=
  let '(h1, tail) := murmur_body (length vDataToHash / 4) nHashSeed vDataToHash in
  let h1 := murmur_tail h1 tail in
  let h1 := Z.lxor h1 (u32 (Z.of_nat (length vDataToHash))) in
  let h1 := Z.lxor h1 (Z.shiftr h1 16) in
  let h1 := u32 (h1 * 2246822507) in
  let h1 := Z.lxor h1 (Z.shiftr h1 13) in
  let h1 := u32 (h1 * 3266489909) in
  Z.lxor h1 (Z.shiftr h1 16).

(** Test vectors of src/test/hash_tests.cpp. *)
Example murmur_vectors :
  [MurmurHash3 0 []; MurmurHash3 4221880213 []; MurmurHash3 0 [0; 17; 34];
   MurmurHash3 0 [0; 17; 34; 51; 68]] =
  [0; 1782148872; 2394233917; 3794804648].
Proof. vm_compute. reflexivity. Qed.

(** The digests of the empty message. *)
Example hash256_empty : Hash [] = [93; 246; 224; 226; 118; 19; 89; 211; 10; 130; 117; 5; 142; 41; 159; 204; 3; 129; 83; 69; 69; 245; 92; 244; 62; 65; 152; 63; 93; 76; 148; 86].
Proof. vm_compute. reflexivity. Qed.

Example hash160_empty : Hash160 [] = [180; 114; 162; 102; 208; 189; 137; 193; 55; 6; 164; 19; 44; 207; 177; 111; 124; 59; 159; 203].
Proof. vm_compute. reflexivity. Qed.

(** ** Streaming *)

(** The digests as functions of the message. *)
Definition hash256 (m : list Z) : list Z := sha256_digest (sha256_digest m).
Definition hash160 (m : list Z) : list Z := ripemd160_digest (sha256_digest m).

Abbreviation sha256_holds := (holds sha256.Transform1 sha256.Initialize).

Lemma Write_list_holds T init chunks h m :
  holds T init h m -> holds T init (fold_left (BlockHash.Write T) chunks h) (m ++ concat chunks).
Proof.
  revert h m. induction chunks as [|c chunks IH]; intros h m Hh; cbn [fold_left concat].
  - by rewrite app_nil_r.
  - rewrite app_assoc. apply IH. by apply Write_absorbs.
Qed.

Lemma CHash256_Finalize_digest h m : sha256_holds h m -> CHash256.Finalize h = hash256 m.
Proof.
  intros Hh. unfold CHash256.Finalize, hash256. rewrite (CSHA256_Finalize_digest _ _ Hh).
  apply CSHA256_Finalize_digest. apply (Write_absorbs _ _ _ []). apply holds_nil.
  by destruct Hh as (_ & Hl & _).
Qed.

Lemma CHash160_Finalize_digest h m : sha256_holds h m -> CHash160.Finalize h = hash160 m.
Proof.
  intros Hh. unfold CHash160.Finalize, hash160. rewrite (CSHA256_Finalize_digest _ _ Hh).
  apply CRIPEMD160_Finalize_digest. by apply (Write_absorbs _ _ _ []), holds_nil.
Qed.

Lemma Hash_ranges_spec ranges : Hash_ranges ranges = hash256 (concat ranges).
Proof.
  unfold Hash_ranges. apply CHash256_Finalize_digest.
  apply (Write_list_holds _ _ _ _ []). by apply holds_nil.
Qed.

Lemma Hash_spec m : Hash m = hash256 m.
Proof. unfold Hash. rewrite Hash_ranges_spec. cbn [concat]. by rewrite app_nil_r. Qed.

Lemma Hash160_spec m : Hash160 m = hash160 m.
Proof.
  unfold Hash160. apply CHash160_Finalize_digest. by apply (Write_absorbs _ _ _ []), holds_nil.
Qed.

Lemma hash256_length m : length (hash256 m) = 32%nat.
Proof. apply sha256_digest_length. Qed.
Lemma hash256_ok m : bytes_ok (hash256 m).
Proof. apply sha256_digest_ok. Qed.
Lemma hash160_length m : length (hash160 m) = 20%nat.
Proof. apply ripemd160_digest_length. Qed.
Lemma hash160_ok m : bytes_ok (hash160 m).
Proof. apply ripemd160_digest_ok. Qed.

(** * Properties *)

(** [C25] Streaming: for each hasher, however a message is cut into [Write] calls (blocks that
    straddle the 64-byte buffer, empty calls) and whatever the buffer held before, [Finalize]
    returns the digest of the whole message: SHA-256, SHA-1, RIPEMD-160, double SHA-256 and
    Hash160. *)
Theorem hashers_stream chunks buf0 : length buf0 = 64%nat ->
  let m := concat chunks in
  CSHA256.Finalize (fold_left CSHA256.Write chunks (CSHA256.make buf0)) = sha256_digest m /\
  CSHA1.Finalize (fold_left CSHA1.Write chunks (CSHA1.make buf0)) = sha1_digest m /\
  CRIPEMD160.Finalize (fold_left CRIPEMD160.Write chunks (CRIPEMD160.make buf0)) =
    ripemd160_digest m /\
  CHash256.Finalize (fold_left CHash256.Write chunks (CHash256.make buf0)) =
    sha256_digest (sha256_digest m) /\
  CHash160.Finalize (fold_left CHash160.Write chunks (CHash160.make buf0)) =
    ripemd160_digest (sha256_digest m).
Proof.
  intros Hb m. repeat split;
    [apply CSHA256_Finalize_digest | apply CSHA1_Finalize_digest | apply CRIPEMD160_Finalize_digest
    | apply CHash256_Finalize_digest | apply CHash160_Finalize_digest];
    by apply (Write_list_holds _ _ _ _ []), holds_nil.
Qed.

Lemma hashers_stream_witness :
  CSHA256.Finalize (fold_left CSHA256.Write [[97]; []; [98; 99]] (CSHA256.make (replicate 64 7))) =
  sha256_digest [97; 98; 99].
Proof. apply (hashers_stream [[97]; []; [98; 99]] (replicate 64 7)). reflexivity. Defined.

Lemma padding_count n : Z.of_nat n < 2 ^ 61 ->
  u64 (Z.shiftl (u64 (Z.of_nat n)) 3) = 8 * Z.of_nat n.
Proof.
  intros Hn. rewrite Z.shiftl_mul_pow2 by lia. rewrite !uwrap_small by (rewrite ?uwrap_small; lia). lia.
Qed.

(** The padding of [Finalize] fills whole 64-byte blocks, and is injective: two messages
    shorter than 2^61 bytes with the same padded form are equal (so distinct messages are fed to
    the compression function as distinct block sequences). *)
Theorem padding_injective m1 m2 :
  Z.of_nat (length m1) < 2 ^ 61 -> Z.of_nat (length m2) < 2 ^ 61 ->
  (length (padded WriteBE64 m1) mod 64 = 0)%nat /\
  (padded WriteBE64 m1 = padded WriteBE64 m2 -> m1 = m2).
Proof.
  intros H1 H2. split; [apply padded_length, WriteBE64_length|]. unfold padded.
  rewrite !padding_count, !app_assoc by done. intros E.
  apply app_inj_2 in E as [E Es]; [|by rewrite !WriteBE64_length].
  apply (f_equal (fun l => ReadBE64 (l ++ []))) in Es. rewrite !ReadBE64_WriteBE64 in Es by lia.
  apply app_inj_1 in E as [-> _]; [done|lia].
Qed.

Lemma padding_injective_witness :
  (length (padded WriteBE64 [1%Z; 2%Z]) mod 64 = 0)%nat /\ [1; 2] = [1; 2].
Proof.
  destruct (padding_injective [1; 2] [1; 2]) as [H E]; [reflexivity | reflexivity |].
  split; [exact H | by apply E].
Defined.
