(* ===== verification/Sha256D64.v ===== *)
(** * Sha256D64: the double SHA-256 of 64 bytes ([src/src/crypto/sha256.cpp])
    [sha256::TransformD64] hashes two hashes into one for the Merkle trees.  It is unrolled and its
    constants are folded: the second block of the first hash and the padding of the second are
    known.  The theorem says it is the double hash of the bytes.  The transforms of 2, 4 and 8
    blocks at a time ([sha256_shani.cpp], [sha256_sse41.cpp], [sha256_avx2.cpp]) are written in vector
    instructions: [SHA256D64] takes them as arguments, and [transforms_ok] says what they do. *)
From S2P Require Import Prelude Endian BlockHash Sha256 Hash.

Module D64.
Import Sha256.sha256.

(** Transform 2: the block of the padding of 64 bytes, with the schedule folded into the constants. *)
Definition Rounds2 (a b c d e f g h : Z) : Z * Z * Z * Z * Z * Z * Z * Z :=
  let '(d, h) := Round a b c d e f g h 3263836056 in
  let '(c, g) := Round h a b c d e f g 1899447441 in
  let '(b, f) := Round g h a b c d e f 3049323471 in
  let '(a, e) := Round f g h a b c d e 3921009573 in
  let '(h, d) := Round e f g h a b c d 961987163 in
  let '(g, c) := Round d e f g h a b c 1508970993 in
  let '(f, b) := Round c d e f g h a b 2453635748 in
  let '(e, a) := Round b c d e f g h a 2870763221 in
  let '(d, h) := Round a b c d e f g h 3624381080 in
  let '(c, g) := Round h a b c d e f g 310598401 in
  let '(b, f) := Round g h a b c d e f 607225278 in
  let '(a, e) := Round f g h a b c d e 1426881987 in
  let '(h, d) := Round e f g h a b c d 1925078388 in
  let '(g, c) := Round d e f g h a b c 2162078206 in
  let '(f, b) := Round c d e f g h a b 2614888103 in
  let '(e, a) := Round b c d e f g h a 3248223092 in
  let '(d, h) := Round a b c d e f g h 1687906753 in
  let '(c, g) := Round h a b c d e f g 4043196294 in
  let '(b, f) := Round g h a b c d e f 266464710 in
  let '(a, e) := Round f g h a b c d e 604828244 in
  let '(h, d) := Round e f g h a b c d 1340683375 in
  let '(g, c) := Round d e f g h a b c 1825146046 in
  let '(f, b) := Round c d e f g h a b 1639530782 in
  let '(e, a) := Round b c d e f g h a 385452282 in
  let '(d, h) := Round a b c d e f g h 4073083218 in
  let '(c, g) := Round h a b c d e f g 2827901549 in
  let '(b, f) := Round g h a b c d e f 2954493029 in
  let '(a, e) := Round f g h a b c d e 3118046919 in
  let '(h, d) := Round e f g h a b c d 2584883651 in
  let '(g, c) := Round d e f g h a b c 3876514464 in
  let '(f, b) := Round c d e f g h a b 4256244523 in
  let '(e, a) := Round b c d e f g h a 3342155440 in
  let '(d, h) := Round a b c d e f g h 812235477 in
  let '(c, g) := Round h a b c d e f g 3415698783 in
  let '(b, f) := Round g h a b c d e f 1510936975 in
  let '(a, e) := Round f g h a b c d e 3693014781 in
  let '(h, d) := Round e f g h a b c d 171292297 in
  let '(g, c) := Round d e f g h a b c 3725294084 in
  let '(f, b) := Round c d e f g h a b 1492437661 in
  let '(e, a) := Round b c d e f g h a 3780991766 in
  let '(d, h) := Round a b c d e f g h 8339078 in
  let '(c, g) := Round h a b c d e f g 923306368 in
  let '(b, f) := Round g h a b c d e f 2768759346 in
  let '(a, e) := Round f g h a b c d e 1873515831 in
  let '(h, d) := Round e f g h a b c d 390095120 in
  let '(g, c) := Round d e f g h a b c 227333873 in
  let '(f, b) := Round c d e f g h a b 3450485613 in
  let '(e, a) := Round b c d e f g h a 3233529399 in
  let '(d, h) := Round a b c d e f g h 2204187610 in
  let '(c, g) := Round h a b c d e f g 3678970723 in
  let '(b, f) := Round g h a b c d e f 184740145 in
  let '(a, e) := Round f g h a b c d e 1875991719 in
  let '(h, d) := Round e f g h a b c d 1377499850 in
  let '(g, c) := Round d e f g h a b c 825459761 in
  let '(f, b) := Round c d e f g h a b 1859394197 in
  let '(e, a) := Round b c d e f g h a 1833138320 in
  let '(d, h) := Round a b c d e f g h 3281818098 in
  let '(c, g) := Round h a b c d e f g 2664213437 in
  let '(b, f) := Round g h a b c d e f 3049890022 in
  let '(a, e) := Round f g h a b c d e 1395635772 in
  let '(h, d) := Round e f g h a b c d 3536273862 in
  let '(g, c) := Round d e f g h a b c 119766691 in
  let '(f, b) := Round c d e f g h a b 2761247592 in
  let '(e, a) := Round b c d e f g h a 1276714358 in
  (a, b, c, d, e, f, g, h).

(** Transform 3: the block of a hash with its padding, from the initial state; its last 32 rounds
    are those of [Transform]. *)
Definition Rounds3 (w0 w1 w2 w3 w4 w5 w6 w7 : Z) : Z * Z * Z * Z * Z * Z * Z * Z :=
  let a := 1779033703 in let b := 3144134277 in let c := 1013904242 in let d := 2773480762 in
  let e := 1359893119 in let f := 2600822924 in let g := 528734635 in let h := 1541459225 in
  let '(d, h) := Round a b c d e f g h (u32 (1116352408 + w0)) in
  let '(c, g) := Round h a b c d e f g (u32 (1899447441 + w1)) in
  let '(b, f) := Round g h a b c d e f (u32 (3049323471 + w2)) in
  let '(a, e) := Round f g h a b c d e (u32 (3921009573 + w3)) in
  let '(h, d) := Round e f g h a b c d (u32 (961987163 + w4)) in
  let '(g, c) := Round d e f g h a b c (u32 (1508970993 + w5)) in
  let '(f, b) := Round c d e f g h a b (u32 (2453635748 + w6)) in
  let '(e, a) := Round b c d e f g h a (u32 (2870763221 + w7)) in
  let '(d, h) := Round a b c d e f g h 1476897432 in
  let '(c, g) := Round h a b c d e f g 310598401 in
  let '(b, f) := Round g h a b c d e f 607225278 in
  let '(a, e) := Round f g h a b c d e 1426881987 in
  let '(h, d) := Round e f g h a b c d 1925078388 in
  let '(g, c) := Round d e f g h a b c 2162078206 in
  let '(f, b) := Round c d e f g h a b 2614888103 in
  let '(e, a) := Round b c d e f g h a 3248222836 in
  let w0 := u32 (w0 + sigma0 w1) in let '(d, h) := Round a b c d e f g h (u32 (3835390401 + w0)) in
  let w1 := u32 (w1 + 10485760 + sigma0 w2) in let '(c, g) := Round h a b c d e f g (u32 (4022224774 + w1)) in
  let w2 := u32 (w2 + sigma1 w0 + sigma0 w3) in let '(b, f) := Round g h a b c d e f (u32 (264347078 + w2)) in
  let w3 := u32 (w3 + sigma1 w1 + sigma0 w4) in let '(a, e) := Round f g h a b c d e (u32 (604807628 + w3)) in
  let w4 := u32 (w4 + sigma1 w2 + sigma0 w5) in let '(h, d) := Round e f g h a b c d (u32 (770255983 + w4)) in
  let w5 := u32 (w5 + sigma1 w3 + sigma0 w6) in let '(g, c) := Round d e f g h a b c (u32 (1249150122 + w5)) in
  let w6 := u32 (w6 + sigma1 w4 + 256 + sigma0 w7) in let '(f, b) := Round c d e f g h a b (u32 (1555081692 + w6)) in
  let w7 := u32 (w7 + sigma1 w5 + w0 + 285220864) in let '(e, a) := Round b c d e f g h a (u32 (1996064986 + w7)) in
  let w8 := u32 (2147483648 + sigma1 w6 + w1) in let '(d, h) := Round a b c d e f g h (u32 (2554220882 + w8)) in
  let w9 := u32 (sigma1 w7 + w2) in let '(c, g) := Round h a b c d e f g (u32 (2821834349 + w9)) in
  let w10 := u32 (sigma1 w8 + w3) in let '(b, f) := Round g h a b c d e f (u32 (2952996808 + w10)) in
  let w11 := u32 (sigma1 w9 + w4) in let '(a, e) := Round f g h a b c d e (u32 (3210313671 + w11)) in
  let w12 := u32 (sigma1 w10 + w5) in let '(h, d) := Round e f g h a b c d (u32 (3336571891 + w12)) in
  let w13 := u32 (sigma1 w11 + w6) in let '(g, c) := Round d e f g h a b c (u32 (3584528711 + w13)) in
  let w14 := u32 (sigma1 w12 + w7 + 4194338) in let '(f, b) := Round c d e f g h a b (u32 (113926993 + w14)) in
  let w15 := u32 (256 + sigma1 w13 + w8 + sigma0 w0) in let '(e, a) := Round b c d e f g h a (u32 (338241895 + w15)) in
  last_rounds a b c d e f g h w0 w1 w2 w3 w4 w5 w6 w7 w8 w9 w10 w11 w12 w13 w14 w15.

(** Transform 1 is text for text the 64 rounds of [Transform], on the 64 bytes. *)
Definition TransformD64 (in_ : list Z) : list Z :=
  let '(a, b, c, d, e, f, g, h) :=
    Rounds 1779033703 3144134277 1013904242 2773480762 1359893119 2600822924 528734635 1541459225 in_ in
  let t0 := u32 (a + 1779033703) in let t1 := u32 (b + 3144134277) in
  let t2 := u32 (c + 1013904242) in let t3 := u32 (d + 2773480762) in
  let t4 := u32 (e + 1359893119) in let t5 := u32 (f + 2600822924) in
  let t6 := u32 (g + 528734635) in let t7 := u32 (h + 1541459225) in
  let '(a, b, c, d, e, f, g, h) := Rounds2 t0 t1 t2 t3 t4 t5 t6 t7 in
  let '(a, b, c, d, e, f, g, h) :=
    Rounds3 (u32 (t0 + a)) (u32 (t1 + b)) (u32 (t2 + c)) (u32 (t3 + d))
            (u32 (t4 + e)) (u32 (t5 + f)) (u32 (t6 + g)) (u32 (t7 + h)) in
  flat_map WriteBE32
    [u32 (a + 1779033703); u32 (b + 3144134277); u32 (c + 1013904242); u32 (d + 2773480762);
     u32 (e + 1359893119); u32 (f + 2600822924); u32 (g + 528734635); u32 (h + 1541459225)].

(** [TransformD64Wrapper<tr>] makes the same hash of a compression function [tr]. *)
Definition padding1 : list Z := 128 :: replicate 61 0 ++ [2; 0].
Definition TransformD64Wrapper (tr : list Z -> list Z -> list Z) (in_ : list Z) : list Z :=
  let s := tr (tr sha256.Initialize in_) padding1 in
  let buffer2 := flat_map WriteBE32 s ++ 128 :: replicate 29 0 ++ [1; 0] in
  flat_map WriteBE32 (tr sha256.Initialize buffer2).

(** The function pointers [TransformD64] and [TransformD64_2way], [_4way] and [_8way], null unless
    [SHA256AutoDetect] finds the instruction sets they are for. *)
Record transforms := Transforms {
  t_D64 : list Z -> list Z;
  t_2way : option (list Z -> list Z);
  t_4way : option (list Z -> list Z);
  t_8way : option (list Z -> list Z)
}.
Definition standard : transforms := Transforms TransformD64 None None None.

(** Where the hashing is: the memory, [out], [in] and the [blocks] left. *)
Abbreviation position := (list Z * nat * nat * nat)%type.

(** One loop of [SHA256D64], which takes [k] blocks at a time; each round takes at least one of the
    [fuel] blocks it starts with. *)
Fixpoint ways_loop (fuel k : nat) (tr : list Z -> list Z) (p : position) : position :=
  match fuel with
  | O => p
  | S fuel =>
      let '(mem, out, in_, blocks) := p in
      if (k <=? blocks)%nat
      then ways_loop fuel k tr (memcpy_at mem out (tr (take (64 * k) (drop in_ mem))),
                                (out + 32 * k)%nat, (in_ + 64 * k)%nat, (blocks - k)%nat)
      else p
  end.
Definition ways (k : nat) (tr : option (list Z -> list Z)) (p : position) : position :=
  match tr with Some tr => ways_loop (snd p) k tr p | None => p end.

(** [SHA256D64(out, in, blocks)] where [out] and [in] point into the same memory. *)
Definition SHA256D64 (T : transforms) (mem : list Z) (out in_ blocks : nat) : list Z :=
  let p := (mem, out, in_, blocks) in
  let p := ways 8 (t_8way T) p in
  let p := ways 4 (t_4way T) p in
  let p := ways 2 (t_2way T) p in
  let '(mem, _, _, _) := ways 1 (Some (t_D64 T)) p in
  mem.
End D64.

(** ** The folded constants *)

Definition pad64 : list Z := 128 :: replicate 55 0 ++ [0; 0; 0; 0; 0; 0; 2; 0].
Definition pad32 : list Z := 128 :: replicate 23 0 ++ [0; 0; 0; 0; 0; 0; 1; 0].

Lemma Rounds2_is_padding a b c d e f g h : D64.Rounds2 a b c d e f g h = sha256.Rounds a b c d e f g h pad64.
Proof. cbv -[sha256.Round]. reflexivity. Qed.

Lemma ReadBE32_WriteBE32 x l : 0 <= x < 2 ^ 32 -> ReadBE32 (WriteBE32 x ++ l) = x.
Proof.
  intros Hx. unfold ReadBE32. rewrite (take_app_length' (WriteBE32 x)) by (symmetry; apply WriteBE32_length || apply WriteBE32_length). unfold WriteBE32.
  rewrite rev_involutive, le_val_to_le by lia. by apply Z.mod_small.
Qed.

(** Evaluate the schedule on the words that are known. *)
Ltac known_words :=
  repeat match goal with
  | |- context [sha256.sigma0 0] => change (sha256.sigma0 0) with 0
  | |- context [sha256.sigma1 0] => change (sha256.sigma1 0) with 0
  | |- context [sha256.sigma0 (Zpos ?p)] => let v := eval vm_compute in (sha256.sigma0 (Zpos p)) in change (sha256.sigma0 (Zpos p)) with v
  | |- context [sha256.sigma1 (Zpos ?p)] => let v := eval vm_compute in (sha256.sigma1 (Zpos p)) in change (sha256.sigma1 (Zpos p)) with v
  end.

Lemma let_rhs {A B} (l : B) (e x : A) (K : A -> B) : e = x -> l = K x -> l = (let w := e in K w).
Proof. by intros -> ->. Qed.
Lemma let_both {A B} (e1 e2 : A) (K1 K2 : A -> B) : e1 = e2 -> (forall w, K1 w = K2 w) ->
  (let w := e1 in K1 w) = (let w := e2 in K2 w).
Proof. intros -> H. apply H. Qed.
Lemma round_both {B} (r1 r2 : Z * Z) (K1 K2 : Z -> Z -> B) : r1 = r2 -> (forall x y, K1 x y = K2 x y) ->
  match r1 with (x, y) => K1 x y end = match r2 with (x, y) => K2 x y end.
Proof. intros -> H. destruct r2. apply H. Qed.

(** Two words are the same up to known parts. *)
Ltac same_word :=
  lazymatch goal with
  | |- Zpos _ = _ => vm_compute; exact eq_refl
  | |- ?e1 = ?e2 => first [constr_eq e1 e2; exact eq_refl | known_words; apply (f_equal (uwrap 32)); lia]
  end.

(** One step of two runs of the rounds side by side: a word of the schedule, or a round. *)
Ltac rounds_step :=
  lazymatch goal with
  | |- (let x := ?e1 in @?K1 x) = (let y := ?e2 in @?K2 y) =>
      refine (let_both e1 e2 K1 K2 _ _); [same_word|intro; cbv beta]
  | |- match ?r1 with (x, y) => @?K1 x y end = match ?r2 with (u, v) => @?K2 u v end =>
      refine (round_both r1 r2 K1 K2 _ _); [apply f_equal; same_word|intros ? ?; cbv beta]
  end.

Ltac lhs_const := lazymatch goal with |- (let x := ?e in @?K x) = ?r => change (K e = r); cbv beta end.
Ltac rhs_word := lazymatch goal with |- ?l = (let x := ?e in @?K x) => eapply (let_rhs l e _ K); [eassumption|cbv beta] end.

(** The rounds on a chunk of 16 words of which the last eight are the padding. *)
Lemma Rounds3_words chunk w0 w1 w2 w3 w4 w5 w6 w7 :
  ReadBE32 (drop 0 chunk) = w0 -> ReadBE32 (drop 4 chunk) = w1 -> ReadBE32 (drop 8 chunk) = w2 -> ReadBE32 (drop 12 chunk) = w3 ->
  ReadBE32 (drop 16 chunk) = w4 -> ReadBE32 (drop 20 chunk) = w5 -> ReadBE32 (drop 24 chunk) = w6 -> ReadBE32 (drop 28 chunk) = w7 ->
  ReadBE32 (drop 32 chunk) = 2147483648 -> ReadBE32 (drop 36 chunk) = 0 -> ReadBE32 (drop 40 chunk) = 0 -> ReadBE32 (drop 44 chunk) = 0 ->
  ReadBE32 (drop 48 chunk) = 0 -> ReadBE32 (drop 52 chunk) = 0 -> ReadBE32 (drop 56 chunk) = 0 -> ReadBE32 (drop 60 chunk) = 256 ->
  D64.Rounds3 w0 w1 w2 w3 w4 w5 w6 w7 =
  sha256.Rounds 1779033703 3144134277 1013904242 2773480762 1359893119 2600822924 528734635 1541459225 chunk.
Proof.
  intros. cbv delta [D64.Rounds3 sha256.Rounds]. cbv beta. generalize sha256.Round, sha256.last_rounds.
  intros Round last_rounds. do 8 lhs_const. do 16 (rhs_word; rounds_step).
  repeat rounds_step. reflexivity.
Qed.

(** ** The double hash *)

Lemma digest_64 m : length m = 64%nat ->
  sha256_digest m = flat_map WriteBE32 (sha256.Transform1 (sha256.Transform1 sha256.Initialize m) pad64).
Proof.
  intros Hl. unfold sha256_digest, digest_state, padded. rewrite Hl.
  change (pad _ ++ WriteBE64 _) with pad64. unfold absorb. rewrite length_app, Hl.
  change ((64 + length pad64) / 64)%nat with 2%nat. cbn [process_blocks fst].
  by rewrite take_app_length', drop_app_length', (firstn_all2 pad64) by (done || lia).
Qed.

Lemma digest_32 m : length m = 32%nat ->
  sha256_digest m = flat_map WriteBE32 (sha256.Transform1 sha256.Initialize (m ++ pad32)).
Proof.
  intros Hl. unfold sha256_digest, digest_state, padded. rewrite Hl.
  change (pad _ ++ WriteBE64 _) with pad32. unfold absorb. rewrite length_app, Hl.
  change ((32 + length pad32) / 64)%nat with 1%nat. cbn [process_blocks fst].
  by rewrite firstn_all2 by (rewrite length_app, Hl; apply le_n).
Qed.

Lemma word_read (l1 l2 : list Z) x n : length l1 = n -> 0 <= x < 2 ^ 32 -> ReadBE32 (drop n (l1 ++ WriteBE32 x ++ l2)) = x.
Proof. intros <- Hx. rewrite drop_app_length. by apply ReadBE32_WriteBE32. Qed.

Lemma Rounds3_is_padding w0 w1 w2 w3 w4 w5 w6 w7 :
  Forall (fun w => 0 <= w < 2 ^ 32) [w0; w1; w2; w3; w4; w5; w6; w7] ->
  D64.Rounds3 w0 w1 w2 w3 w4 w5 w6 w7 =
  sha256.Rounds 1779033703 3144134277 1013904242 2773480762 1359893119 2600822924 528734635 1541459225
    (flat_map WriteBE32 [w0; w1; w2; w3; w4; w5; w6; w7] ++ pad32).
Proof.
  intros Hw. repeat (apply list.Forall_cons in Hw as [? Hw]).
  set (ws := [w0; w1; w2; w3; w4; w5; w6; w7]).
  assert (forall n, drop (32 + n) (flat_map WriteBE32 ws ++ pad32) = drop n pad32) as Hp.
  { intros n. rewrite drop_app_ge by (rewrite (flat_map_length_const _ 4 _ 8); [lia|apply WriteBE32_length|done]).
    rewrite (flat_map_length_const _ 4 _ 8); [|apply WriteBE32_length|done]. by replace (32 + n - 4 * 8)%nat with n by lia. }
  assert (forall i x l1 l2, ws = l1 ++ x :: l2 -> length l1 = i -> 0 <= x < 2 ^ 32 ->
    ReadBE32 (drop (4 * i) (flat_map WriteBE32 ws ++ pad32)) = x) as Hr.
  { intros i x l1 l2 -> <- Hx. rewrite flat_map_app. cbn [flat_map]. rewrite <- !app_assoc. apply word_read; [|done].
    rewrite (flat_map_length_const _ 4 _ (length l1)); [lia|apply WriteBE32_length|done]. }
  apply Rounds3_words.
  - by apply (Hr 0%nat w0 []  [w1; w2; w3; w4; w5; w6; w7]).
  - by apply (Hr 1%nat w1 [w0] [w2; w3; w4; w5; w6; w7]).
  - by apply (Hr 2%nat w2 [w0; w1] [w3; w4; w5; w6; w7]).
  - by apply (Hr 3%nat w3 [w0; w1; w2] [w4; w5; w6; w7]).
  - by apply (Hr 4%nat w4 [w0; w1; w2; w3] [w5; w6; w7]).
  - by apply (Hr 5%nat w5 [w0; w1; w2; w3; w4] [w6; w7]).
  - by apply (Hr 6%nat w6 [w0; w1; w2; w3; w4; w5] [w7]).
  - by apply (Hr 7%nat w7 [w0; w1; w2; w3; w4; w5; w6] []).
  - by rewrite (Hp 0%nat : drop 32 _ = _).
  - by rewrite (Hp 4%nat : drop 36 _ = _).
  - by rewrite (Hp 8%nat : drop 40 _ = _).
  - by rewrite (Hp 12%nat : drop 44 _ = _).
  - by rewrite (Hp 16%nat : drop 48 _ = _).
  - by rewrite (Hp 20%nat : drop 52 _ = _).
  - by rewrite (Hp 24%nat : drop 56 _ = _).
  - by rewrite (Hp 28%nat : drop 60 _ = _).
Qed.

Lemma TransformD64_hash in_ : length in_ = 64%nat -> D64.TransformD64 in_ = Hash in_.
Proof.
  intros Hl. rewrite Hash_spec. unfold hash256. rewrite (digest_64 in_ Hl).
  unfold D64.TransformD64, sha256.Initialize. cbn [sha256.Transform1].
  set (r1 := sha256.Rounds _ _ _ _ _ _ _ _ in_). destruct r1 as [[[[[[[a b] c] d] e] f] g] h]. cbv zeta. cbn [sha256.Transform1].
  rewrite Rounds2_is_padding.
  rewrite !(Z.add_comm _ a), !(Z.add_comm _ b), !(Z.add_comm _ c), !(Z.add_comm _ d),
    !(Z.add_comm _ e), !(Z.add_comm _ f), !(Z.add_comm _ g), !(Z.add_comm _ h).
  destruct (sha256.Rounds _ _ _ _ _ _ _ _ pad64) as [[[[[[[a' b'] c'] d'] e'] f'] g'] h'].
  rewrite digest_32 by (apply (flat_map_length_const _ 4 _ 8); [apply WriteBE32_length|done]).
  rewrite Rounds3_is_padding by (repeat (constructor; [apply uwrap_bound; lia|]); constructor).
  unfold sha256.Initialize. cbn [sha256.Transform1].
  destruct (sha256.Rounds _ _ _ _ _ _ _ _ (_ ++ pad32)) as [[[[[[[a2 b2] c2] d2] e2] f2] g2] h2].
  by rewrite (Z.add_comm a2), (Z.add_comm b2), (Z.add_comm c2), (Z.add_comm d2),
    (Z.add_comm e2), (Z.add_comm f2), (Z.add_comm g2), (Z.add_comm h2).
Qed.

(** The hashes of [n] pairs. *)
Fixpoint pair_hashes (data : list Z) (n : nat) : list Z :=
  match n with O => [] | S n => Hash (take 64 data) ++ pair_hashes (drop 64 data) n end.

Lemma memcpy_at_drop dst off src n : (off + length src <= n)%nat -> (off + length src <= length dst)%nat ->
  drop n (memcpy_at dst off src) = drop n dst.
Proof.
  intros Hn Hl. unfold memcpy_at. rewrite app_assoc, drop_app_ge by (rewrite length_app, length_take; lia).
  rewrite drop_drop, length_app, length_take. f_equal. lia.
Qed.

Lemma pair_hashes_add n1 n2 data : pair_hashes data (n1 + n2) = pair_hashes data n1 ++ pair_hashes (drop (64 * n1) data) n2.
Proof.
  revert data. induction n1 as [|n1 IH]; intros data; [done|]. cbn [Nat.add pair_hashes].
  rewrite IH, drop_drop, <- app_assoc. do 4 f_equal. lia.
Qed.

Lemma pair_hashes_length n data : length (pair_hashes data n) = (32 * n)%nat.
Proof.
  revert data. induction n as [|n IH]; intros data; [done|]. cbn [pair_hashes].
  rewrite length_app, IH, Hash_spec. unfold hash256. rewrite sha256_digest_length. lia.
Qed.

Lemma pair_hashes_take n data : pair_hashes (take (64 * n) data) n = pair_hashes data n.
Proof.
  revert data. induction n as [|n IH]; intros data; [done|]. cbn [pair_hashes]. rewrite take_take, Nat.min_l by lia.
  f_equal. rewrite <- (IH (drop 64 data)), skipn_firstn_comm. do 2 f_equal. lia.
Qed.

(** [tr] hashes [k] blocks as [TransformD64] hashes each. *)
Definition hashes_ways (k : nat) (tr : list Z -> list Z) : Prop :=
  forall in_, length in_ = (64 * k)%nat -> tr in_ = concat (map (fun i => D64.TransformD64 (take 64 (drop (64 * i) in_))) (seq 0 k)).

Lemma concat_pair_hashes k in_ j : length in_ = (64 * (j + k))%nat ->
  concat (map (fun i => D64.TransformD64 (take 64 (drop (64 * i) in_))) (seq j k)) = pair_hashes (drop (64 * j) in_) k.
Proof.
  revert j. induction k as [|k IH]; intros j Hl; [done|]. cbn [seq map concat pair_hashes].
  rewrite IH by lia. rewrite TransformD64_hash by (rewrite length_take, length_drop; lia).
  rewrite drop_drop. do 3 f_equal. lia.
Qed.

Lemma hashes_ways_spec k tr in_ : hashes_ways k tr -> length in_ = (64 * k)%nat -> tr in_ = pair_hashes in_ k.
Proof. intros Ht Hl. rewrite Ht by done. by apply concat_pair_hashes. Qed.

(** The wrapper makes the hash of any compression function that agrees with [Transform]. *)
Lemma TransformD64Wrapper_hash tr in_ : (forall s chunk, length chunk = 64%nat -> tr s chunk = sha256.Transform1 s chunk) ->
  length in_ = 64%nat -> D64.TransformD64Wrapper tr in_ = D64.TransformD64 in_.
Proof.
  intros Ht Hl. rewrite TransformD64_hash, Hash_spec by done. unfold hash256, D64.TransformD64Wrapper. cbv zeta.
  rewrite (digest_64 in_ Hl), !(Ht _ in_), !(Ht _ D64.padding1) by done. unfold sha256.Initialize. cbn [sha256.Transform1].
  destruct (sha256.Rounds _ _ _ _ _ _ _ _ in_) as [[[[[[[a b] c] d] e] f] g] h]. cbn [sha256.Transform1].
  change D64.padding1 with pad64. destruct (sha256.Rounds _ _ _ _ _ _ _ _ pad64) as [[[[[[[a' b'] c'] d'] e'] f'] g'] h'].
  rewrite digest_32, Ht by (rewrite ?length_app, (flat_map_length_const _ 4 _ 8); [done|apply WriteBE32_length|done]). done.
Qed.

(** From one position to a later one: the hashes of the blocks in between are in place, and the
    blocks still to hash are untouched. *)
Definition hashed (p p' : list Z * nat * nat * nat) : Prop :=
  let '(mem, out, in_, n) := p in
  let '(mem', out', in', n') := p' in
  exists j, n = (j + n')%nat /\ out' = (out + 32 * j)%nat /\ in' = (in_ + 64 * j)%nat /\
    length mem' = length mem /\ take out' mem' = take out mem ++ pair_hashes (drop in_ mem) j /\ drop in' mem' = drop in' mem.

Lemma hashed_refl p : hashed p p.
Proof. destruct p as [[[mem out] in_] n]. exists 0%nat. cbn [pair_hashes]. rewrite app_nil_r. split_and!; (done || lia || (f_equal; lia)). Qed.

Lemma hashed_trans p1 p2 p3 : hashed p1 p2 -> hashed p2 p3 -> hashed p1 p3.
Proof.
  destruct p1 as [[[m1 o1] i1] n1], p2 as [[[m2 o2] i2] n2], p3 as [[[m3 o3] i3] n3].
  intros (j & -> & -> & -> & Hl & Ht & Hd) (k & -> & -> & -> & Hl2 & Ht2 & Hd2). exists (j + k)%nat. split_and!; try lia.
  - by rewrite Ht2, Ht, Hd, pair_hashes_add, drop_drop, <- app_assoc.
  - by rewrite Hd2, <- !(drop_drop _ (64 * k) (i1 + 64 * j)), Hd.
Qed.

Definition in_bounds (p : list Z * nat * nat * nat) : Prop :=
  let '(mem, out, in_, n) := p in (out <= in_)%nat /\ (in_ + 64 * n <= length mem)%nat.

Lemma hashed_in_bounds p p' : in_bounds p -> hashed p p' -> in_bounds p'.
Proof.
  destruct p as [[[mem out] in_] n], p' as [[[mem' out'] in'] n']. intros [Ho Hl] (j & -> & -> & -> & Hm & _). split; lia.
Qed.

Lemma ways_loop_hashed k tr : (0 < k)%nat -> hashes_ways k tr -> forall fuel p, in_bounds p -> (snd p <= fuel)%nat ->
  hashed p (D64.ways_loop fuel k tr p) /\ (snd (D64.ways_loop fuel k tr p) < k)%nat.
Proof.
  intros Hk Htr. induction fuel as [|fuel IH]; intros [[[mem out] in_] n] [Ho Hl] Hf; cbn [D64.ways_loop snd] in *.
  { split; [apply hashed_refl|cbn [snd]; lia]. }
  destruct (Nat.leb_spec k n) as [Hn|Hn]; [|by split; [apply hashed_refl|]].
  rewrite (hashes_ways_spec k tr) by (done || rewrite length_take, length_drop; nia). rewrite pair_hashes_take.
  set (H := pair_hashes (drop in_ mem) k). assert (length H = (32 * k)%nat) as HH by apply pair_hashes_length.
  assert (hashed (mem, out, in_, n) (memcpy_at mem out H, (out + 32 * k)%nat, (in_ + 64 * k)%nat, (n - k)%nat)) as Hs.
  { exists k. rewrite <- HH. rewrite memcpy_at_length, memcpy_at_take by nia.
    rewrite memcpy_at_drop by nia. split_and!; (done || lia). }
  destruct (IH (memcpy_at mem out H, (out + 32 * k)%nat, (in_ + 64 * k)%nat, (n - k)%nat)) as [H1 H2];
    [exact (hashed_in_bounds (mem, out, in_, n) _ (conj Ho Hl) Hs)|cbn [snd]; lia|]. split; [by eapply hashed_trans|done].
Qed.

Lemma ways_hashed k tr p : (0 < k)%nat -> (forall f, tr = Some f -> hashes_ways k f) -> in_bounds p ->
  hashed p (D64.ways k tr p) /\ in_bounds (D64.ways k tr p).
Proof.
  intros Hk Ht Hp. assert (hashed p (D64.ways k tr p)) as Hh.
  { destruct tr as [f|]; [|apply hashed_refl]. by apply ways_loop_hashed; auto. }
  split; [done|]. by eapply hashed_in_bounds.
Qed.

(** What the functions of the vector instruction sets do, where there are any. *)
Record transforms_ok (T : D64.transforms) : Prop := {
  ok_D64 : hashes_ways 1 (D64.t_D64 T);
  ok_2way f : D64.t_2way T = Some f -> hashes_ways 2 f;
  ok_4way f : D64.t_4way T = Some f -> hashes_ways 4 f;
  ok_8way f : D64.t_8way T = Some f -> hashes_ways 8 f
}.

Lemma hashes_ways_1 f : (forall in_, length in_ = 64%nat -> f in_ = D64.TransformD64 in_) -> hashes_ways 1 f.
Proof. intros Hf in_ Hl. rewrite Hf by done. cbn [seq map concat]. by rewrite drop_0, firstn_all2, app_nil_r by lia. Qed.

Lemma standard_ok : transforms_ok D64.standard.
Proof. split; try done. by apply hashes_ways_1. Qed.

Lemma SHA256D64_any T n mem out in_ : transforms_ok T -> (out <= in_)%nat -> (in_ + 64 * n <= length mem)%nat ->
  take (out + 32 * n) (D64.SHA256D64 T mem out in_ n) = take out mem ++ pair_hashes (drop in_ mem) n.
Proof.
  intros HT Ho Hl. unfold D64.SHA256D64. set (p := (mem, out, in_, n)). assert (in_bounds p) as B by done.
  destruct (ways_hashed 8 (D64.t_8way T) p) as [H8 B8]; [lia|apply HT|done|].
  destruct (ways_hashed 4 (D64.t_4way T) (D64.ways 8 (D64.t_8way T) p)) as [H4 B4]; [lia|apply HT|exact B8|].
  destruct (ways_hashed 2 (D64.t_2way T) (D64.ways 4 (D64.t_4way T) (D64.ways 8 (D64.t_8way T) p))) as [H2 B2]; [lia|apply HT|exact B4|].
  pose proof (hashed_trans _ _ _ (hashed_trans _ _ _ H8 H4) H2) as H. clear H8 H4 H2 B8 B4.
  destruct (ways_loop_hashed 1 (D64.t_D64 T) (le_n _) (ok_D64 _ HT) _ _ B2 (le_n _)) as [H1 Hz].
  pose proof (hashed_trans _ _ _ H H1) as H0. clear H H1 B2. unfold D64.ways at 1. revert H0 Hz.
  destruct (D64.ways_loop _ _ _ _) as [[[mem' out'] in'] n']. cbn [snd]. intros (j & Hn & -> & _ & _ & Ht & _) Hz.
  replace n with j by lia. done.
Qed.

Lemma SHA256D64_spec n mem out in_ : (out <= in_)%nat -> (in_ + 64 * n <= length mem)%nat ->
  take (out + 32 * n) (D64.SHA256D64 D64.standard mem out in_ n) = take out mem ++ pair_hashes (drop in_ mem) n.
Proof. apply SHA256D64_any, standard_ok. Qed.

(** [C35] The unrolled hash of two nodes is the double SHA-256 of their 64 bytes: the constants of
    its 192 rounds are those of the padding, and every word left out of its schedules is zero.  The blocks may be hashed in place: writing the
    hashes from the start of the memory never overwrites a block before it is read.  This holds of the
    standard transforms ([standard_ok]) and of any transforms of 2, 4 and 8 blocks at a time of which each does what
    [TransformD64] does on each of its blocks. *)
Theorem SHA256D64_in_place T mem n : transforms_ok T -> (64 * n <= length mem)%nat ->
  take (32 * n) (D64.SHA256D64 T mem 0 0 n) = pair_hashes mem n.
Proof. intros HT Hl. exact (SHA256D64_any T n mem 0 0 HT (le_n _) Hl). Qed.

(** A processor with transforms of 2 and of 4 blocks, on seven blocks. *)
Definition two_and_four : D64.transforms :=
  D64.Transforms (D64.TransformD64Wrapper sha256.Transform1) (Some (fun in_ => pair_hashes in_ 2)) (Some (fun in_ => pair_hashes in_ 4)) None.

Lemma two_and_four_ok : transforms_ok two_and_four.
Proof.
  assert (forall k f, Some (fun in_ => pair_hashes in_ k) = Some f -> hashes_ways k f) as Hk.
  { intros k f E in_ Hl. apply (f_equal (fun o => match o with Some g => g in_ | None => [] end)) in E.
    rewrite <- E. by rewrite (concat_pair_hashes k in_ 0), drop_0. }
  split; [|exact (Hk 2%nat)|exact (Hk 4%nat)|intros f E; discriminate E].
  apply hashes_ways_1. intros in_ Hl. by apply TransformD64Wrapper_hash.
Qed.

Lemma pair_hashes_replicate x n : pair_hashes (replicate (64 * n) x) n = concat (replicate n (Hash (replicate 64 x))).
Proof.
  induction n as [|n IH]; [done|]. replace (64 * S n)%nat with (64 + 64 * n)%nat by lia.
  cbn [pair_hashes]. rewrite take_replicate, drop_replicate, Nat.min_l by lia.
  replace (64 + 64 * n - 64)%nat with (64 * n)%nat by lia. cbn [replicate concat]. apply (f_equal (app _)), IH.
Qed.

Lemma SHA256D64_in_place_witness :
  take 64 (D64.SHA256D64 D64.standard (replicate 128 7) 0 0 2) = Hash (replicate 64 7) ++ Hash (replicate 64 7) /\
  take 224 (D64.SHA256D64 two_and_four (replicate 448 7) 0 0 7) = concat (replicate 7 (Hash (replicate 64 7))).
Proof.
  split.
  - transitivity (pair_hashes (replicate 128 7) 2); [exact (SHA256D64_in_place _ (replicate 128 7) 2 standard_ok (le_n 128))|].
    cbn [pair_hashes]. by rewrite app_nil_r.
  - transitivity (pair_hashes (replicate (64 * 7) 7) 7); [exact (SHA256D64_in_place two_and_four (replicate 448 7) 7 two_and_four_ok (le_n 448))|].
    apply pair_hashes_replicate.
Defined.
