(* ===== verification/ScriptNum.v ===== *)
(** * ScriptNum: class CScriptNum of [src/src/script/script.h]
    A script number is an [int64_t]; on the stack it is a little-endian byte vector with a sign
    bit.  The theorem shows that the minimal encodings of at most [k] bytes and the integers
    below 2^(8k-1) in absolute value are in bijection. *)
From S2P Require Import Prelude Endian.

(** [m_value] *)
Abbreviation CScriptNum := Z (only parsing).

Module ScriptNum.
Definition nDefaultMaxNumSize : Z := 4.

(** [vch[i]] and [vch.back()] *)
Definition at_ (vch : list Z) (i : nat) : Z := nth i vch 0.
Definition back (vch : list Z) : Z := at_ vch (length vch - 1).

(** [result |= static_cast<int64_t>(vch[i]) << 8*i] for each [i]; the callers bound the size to
    5, and up to 8 bytes the shifts stay within 64 bits. *)
Definition or_bytes (vch : list Z) : Z :=
  fold_left (fun result i => Z.lor result (Z.shiftl (at_ vch i) (8 * Z.of_nat i)))
            (seq 0 (length vch)) 0.

Definition set_vch (vch : list Z) : CScriptNum :=
  match vch with
  | [] => 0
  | _ =>
      let result := or_bytes vch in
      if negb (Z.land (back vch) 128 =? 0) then
        - i64 (Z.land result (u64 (Z.lnot (Z.shiftl 128 (8 * (Z.of_nat (length vch) - 1))))))
      else i64 result
  end.

(** The minimality test of the constructor: true when the encoding is refused. *)
Definition non_minimal (vch : list Z) : bool :=
  (0 <? Z.of_nat (length vch)) && (Z.land (back vch) 127 =? 0) &&
  ((Z.of_nat (length vch) <=? 1) || (Z.land (at_ vch (length vch - 2)) 128 =? 0)).

(** [CScriptNum(vch, fRequireMinimal, nMaxNumSize)]; [None] is a [scriptnum_error]. *)
Definition of_vch (vch : list Z) (fRequireMinimal : bool) (nMaxNumSize : Z) : option CScriptNum :=
  if nMaxNumSize <? Z.of_nat (length vch) then None
  else if fRequireMinimal && non_minimal vch then None
  else Some (set_vch vch).

(** [while(absvalue) { push_back(absvalue & 0xff); absvalue >>= 8; }]; eight rounds clear a
    64-bit value. *)
Fixpoint abs_bytes (fuel : nat) (absvalue : Z) : list Z :=
  match fuel with
  | O => []
  | S f => if absvalue =? 0 then [] else Z.land absvalue 255 :: abs_bytes f (Z.shiftr absvalue 8)
  end.

Definition serialize (value : Z) : list Z :=
  if value =? 0 then []
  else
    let neg := value <? 0 in
    let absvalue := u64 (if neg then - value else value) in
    let result := abs_bytes 8 absvalue in
    if negb (Z.land (back result) 128 =? 0) then result ++ [if neg then 128 else 0]
    else if neg then <[(length result - 1)%nat := Z.lor (back result) 128]> result
    else result.

Definition getvch : CScriptNum -> list Z := serialize.

(** Clamp to [int]. *)
Definition getint (m_value : CScriptNum) : Z :=
  if m_value >? INT32_MAX then INT32_MAX
  else if m_value <? INT32_MIN then INT32_MIN
  else m_value.

(** [operator+] and [operator-]: no check; the operands the interpreter passes are at most four
    bytes wide. *)
Definition add (a b : CScriptNum) : CScriptNum := i64 (a + b).
Definition sub (a b : CScriptNum) : CScriptNum := i64 (a - b).

(** The asserting operators; [None] is a failed assertion. *)
Definition neg (a : CScriptNum) : option CScriptNum :=
  if a =? INT64_MIN then None else Some (- a).

Definition add_assign (a rhs : CScriptNum) : option CScriptNum :=
  if (rhs =? 0) || ((rhs >? 0) && (a <=? INT64_MAX - rhs)) ||
     ((rhs <? 0) && (a >=? INT64_MIN - rhs))
  then Some (a + rhs) else None.

Definition sub_assign (a rhs : CScriptNum) : option CScriptNum :=
  if (rhs =? 0) || ((rhs >? 0) && (a >=? INT64_MIN + rhs)) ||
     ((rhs <? 0) && (a <=? INT64_MAX + rhs))
  then Some (a - rhs) else None.
End ScriptNum.
Import ScriptNum.

Example scriptnum_examples :
  map serialize [0; 1; -1; 127; 128; -128; 255; -255; 32768] =
  [[]; [1]; [129]; [127]; [128; 0]; [128; 128]; [255; 0]; [255; 128]; [0; 128; 0]].
Proof. reflexivity. Qed.

(** ** Bytes and values *)

Lemma back_app l x : back (l ++ [x]) = x.
Proof.
  unfold back, at_. rewrite length_app. cbn [length].
  rewrite app_nth2 by lia. replace (length l + 1 - 1 - length l)%nat with O by lia. done.
Qed.

Lemma land_bit7 t : is_byte t -> Z.land t 128 = if t <? 128 then 0 else 128.
Proof.
  intros Ht. unfold is_byte in Ht.
  assert (forallb (fun t => Z.land t 128 =? (if t <? 128 then 0 else 128)) (map Z.of_nat (seq 0 256)) = true)
    as H by reflexivity.
  rewrite forallb_forall in H. apply Z.eqb_eq, H. apply in_map_iff.
  exists (Z.to_nat t). rewrite in_seq. lia.
Qed.

Lemma land_low7 t : is_byte t -> Z.land t 127 = t mod 128.
Proof. intros _. by apply (Z.land_ones t 7). Qed.

Lemma land_byte x : Z.land x 255 = x mod 256.
Proof. by apply (Z.land_ones x 8). Qed.

Lemma le_val_snoc l x : le_val 8 (l ++ [x]) = le_val 8 l + 256 ^ Z.of_nat (length l) * x.
Proof.
  rewrite le_val_app by lia. cbn [le_val]. rewrite Z.mul_0_r, Z.add_0_r.
  by rewrite (Z.pow_mul_r 2 8) by lia.
Qed.

Lemma le_val_bytes_bound l : bytes_ok l -> 0 <= le_val 8 l < 256 ^ Z.of_nat (length l).
Proof.
  intros Hl. apply bytes_ok_digits in Hl. pose proof (le_val_bound 8 l ltac:(lia) Hl) as H.
  by rewrite (Z.pow_mul_r 2 8) in H by lia.
Qed.

Lemma or_bytes_prefix l n : bytes_ok l -> (n <= length l)%nat ->
  fold_left (fun result i => Z.lor result (Z.shiftl (at_ l i) (8 * Z.of_nat i))) (seq 0 n) 0 =
  le_val 8 (take n l).
Proof.
  intros Hl. induction n as [|n IH]; intros Hn; [done|].
  rewrite seq_S, fold_left_app, IH by lia. cbn [fold_left Nat.add].
  destruct (lookup_lt_is_Some_2 l n) as [x Hx]; [lia|].
  rewrite (take_S_r _ _ _ Hx), le_val_snoc. unfold at_. rewrite (nth_lookup_Some _ _ _ _ Hx).
  rewrite Z.shiftl_mul_pow2 by lia. rewrite length_take_le by lia.
  rewrite (Z.pow_mul_r 2 8) by lia. change (2 ^ 8) with 256.
  pose proof (le_val_bytes_bound (take n l) ltac:(by apply Forall_take)) as Hb.
  rewrite length_take_le in Hb by lia.
  rewrite (Z.mul_comm x). change 256 with (2 ^ 8) in *. rewrite <- Z.pow_mul_r in * by lia.
  rewrite (Z.mul_comm _ x). apply lor_add; lia.
Qed.

Lemma or_bytes_spec l : bytes_ok l -> or_bytes l = le_val 8 l.
Proof. intros Hl. unfold or_bytes. rewrite or_bytes_prefix by done. by rewrite firstn_all. Qed.

(** ** The encoding as sign and magnitude *)

(** What [set_vch] reads: the magnitude without the sign bit, negated when it is set. *)
Lemma set_vch_snoc l t : bytes_ok (l ++ [t]) -> (length l <= 7)%nat ->
  set_vch (l ++ [t]) =
  (if t <? 128 then 1 else -1) * (le_val 8 l + 256 ^ Z.of_nat (length l) * (t mod 128)).
Proof.
  intros Hl Hlen. pose proof Hl as Hl'. apply Forall_app in Hl' as [Hl1 Ht].
  inversion Ht as [|? ? Ht' _]; subst.
  assert (exists y ys, l ++ [t] = y :: ys) as (y & ys & E) by (destruct l; cbn; eauto).
  unfold set_vch. rewrite E, <- E, or_bytes_spec, back_app, land_bit7, length_app by done.
  cbn [length]. rewrite Nat2Z.inj_add. change (Z.of_nat 1) with 1.
  rewrite Z.add_simpl_r, le_val_snoc.
  pose proof (le_val_bytes_bound l Hl1) as Hv. set (m := Z.of_nat (length l)) in *.
  set (v := le_val 8 l) in *. unfold is_byte in Ht'.
  assert (256 ^ m <= 256 ^ 7) as Hm by (apply Z.pow_le_mono_r; lia). change (256 ^ 7) with (2 ^ 56) in Hm.
  destruct (Z.ltb_spec t 128) as [Hlt | Hge].
  - rewrite Z.mod_small by lia. change (negb (0 =? 0)) with false. cbv iota.
    rewrite swrap_small by nia. lia.
  - change (negb (128 =? 0)) with true. cbv iota.
    rewrite Z.shiftl_mul_pow2 by lia. rewrite (Z.pow_mul_r 2 8) by lia. change (2 ^ 8) with 256.
    replace (t mod 128) with (t - 128) by (apply (Z.mod_unique_pos t 128 1); lia).
    set (w := v + 256 ^ m * (t - 128)).
    assert (0 <= w < 256 ^ m * 128) as Hw by (unfold w; nia).
    replace (v + 256 ^ m * t) with (w + 1 * (128 * 256 ^ m)) by (unfold w; lia).
    assert (Z.land (w + 1 * (128 * 256 ^ m)) (u64 (Z.lnot (128 * 256 ^ m))) = w) as ->.
    { assert (128 * 256 ^ m = 2 ^ (8 * m + 7)) as Ep.
      { rewrite Z.pow_add_r, (Z.pow_mul_r 2 8) by lia. change (2 ^ 8) with 256. lia. }
      assert (0 <= w < 2 ^ (8 * m + 7)) by (rewrite <- Ep; clearbody w; lia).
      rewrite Ep, <- lor_add by lia. apply Z.bits_inj'. intros i Hi.
      rewrite Z.land_spec, Z.lor_spec, uwrap_testbit, Z.lnot_spec, Z.mul_1_l, Z.pow2_bits_eqb by lia.
      destruct (Z.eqb_spec (8 * m + 7) i) as [<- | Hne].
      - rewrite (small_testbit_high (8 * m + 7) w) by lia. by rewrite andb_false_r, andb_false_r.
      - rewrite orb_false_r. cbn [negb]. rewrite andb_true_r.
        destruct (Z.ltb_spec i 64); [by rewrite andb_true_r|].
        by rewrite (small_testbit_high (8 * m + 7) w) by lia. }
    rewrite swrap_small by nia. lia.
Qed.

Lemma abs_bytes_canon fuel l b : bytes_ok l -> 0 < b < 256 -> (length l < fuel)%nat ->
  abs_bytes fuel (le_val 8 (l ++ [b])) = l ++ [b].
Proof.
  intros Hl Hb. revert l Hl. induction fuel as [|f IH]; intros l Hl Hf; [lia|].
  destruct l as [|x l]; cbn [app le_val abs_bytes].
  - rewrite Z.mul_0_r, Z.add_0_r. destruct (Z.eqb_spec b 0); [lia|].
    rewrite land_byte, Z.shiftr_div_pow2, Z.mod_small, Z.div_small by lia.
    by destruct f.
  - inversion Hl as [|? ? Hx Hl']; subst. unfold is_byte in Hx.
    pose proof (le_val_bytes_bound l Hl') as Hv. pose proof (le_val_snoc l b) as Hs.
    set (v := le_val 8 (l ++ [b])) in *.
    assert (0 < v). { assert (0 < 256 ^ Z.of_nat (length l)) by (apply Z.pow_pos_nonneg; lia). nia. }
    change (2 ^ 8) with 256. destruct (Z.eqb_spec (x + 256 * v) 0); [lia|].
    rewrite land_byte, Z.shiftr_div_pow2 by lia. change (2 ^ 8) with 256.
    f_equal.
    + rewrite Z.mul_comm, Z.mod_add, Z.mod_small by lia. done.
    + rewrite Z.mul_comm, Z.div_add, Z.div_small by lia. apply IH; [done|]. cbn [length] in Hf. lia.
Qed.

(** Every positive number has such digits. *)
Lemma digits_exist k a : 0 < a < 256 ^ Z.of_nat k ->
  exists l b, a = le_val 8 (l ++ [b]) /\ bytes_ok l /\ 0 < b < 256 /\ (length l < k)%nat.
Proof.
  revert a. induction k as [|k IH]; intros a Ha; [cbn in Ha; lia|].
  destruct (Z.ltb_spec a 256) as [Hs | Hs].
  - exists [], a. cbn [app le_val length]. split; [lia|]. split; [constructor|]. lia.
  - rewrite Nat2Z.inj_succ, Z.pow_succ_r in Ha by lia.
    destruct (IH (a / 256)) as (l & b & E & Hl & Hb & Hk).
    { split; [apply Z.div_str_pos; lia|]. apply Z.div_lt_upper_bound; lia. }
    exists (a mod 256 :: l), b. cbn [app le_val length]. rewrite <- E. change (2 ^ 8) with 256.
    pose proof (Z.div_mod a 256 ltac:(lia)). split; [lia|]. split; [|split; [done|lia]].
    constructor; [apply Z.mod_pos_bound; lia|done].
Qed.

Definition sign_of (sg : bool) : Z := if sg then -1 else 1.
Definition sign_bit (sg : bool) : Z := if sg then 128 else 0.

(** The bytes of sign [sg] and magnitude digits [l ++ [b]]. *)
Definition canon (sg : bool) (l : list Z) (b : Z) : list Z :=
  if b <? 128 then l ++ [b + sign_bit sg] else (l ++ [b]) ++ [sign_bit sg].

Lemma le_val_snoc_pos l b : bytes_ok l -> 0 < b -> 0 < le_val 8 (l ++ [b]).
Proof.
  intros Hl Hb. rewrite le_val_snoc. pose proof (le_val_bytes_bound l Hl).
  assert (0 < 256 ^ Z.of_nat (length l)) by (apply Z.pow_pos_nonneg; lia). nia.
Qed.

Lemma serialize_canon sg l b : bytes_ok l -> 0 < b < 256 -> le_val 8 (l ++ [b]) < 2 ^ 63 ->
  serialize (sign_of sg * le_val 8 (l ++ [b])) = canon sg l b.
Proof.
  intros Hl Hb Hv. pose proof (le_val_snoc_pos l b Hl ltac:(lia)) as Hpos.
  assert (length l < 8)%nat as Hlen.
  { destruct (Nat.lt_ge_cases (length l) 8) as [|Hge]; [done|]. exfalso.
    rewrite le_val_snoc in Hv. pose proof (le_val_bytes_bound l Hl).
    assert (256 ^ 8 <= 256 ^ Z.of_nat (length l)) by (apply Z.pow_le_mono_r; lia). nia. }
  pose proof (abs_bytes_canon 8 l b Hl Hb Hlen) as Ha.
  set (v := le_val 8 (l ++ [b])) in *. unfold serialize.
  destruct (Z.eqb_spec (sign_of sg * v) 0); [destruct sg; cbn [sign_of] in *; lia|].
  assert ((sign_of sg * v <? 0) = sg) as -> by (destruct sg; cbn [sign_of]; lia).
  assert (u64 (if sg then - (sign_of sg * v) else sign_of sg * v) = v) as ->.
  { destruct sg; cbn [sign_of]; rewrite uwrap_small by lia; lia. }
  rewrite Ha, back_app, land_bit7 by (unfold is_byte; lia). unfold canon.
  destruct (Z.ltb_spec b 128).
  - change (negb (0 =? 0)) with false. cbv iota. destruct sg; cbn [sign_bit]; [|by rewrite Z.add_0_r].
    rewrite length_app. cbn [length]. replace (length l + 1 - 1)%nat with (length l + 0)%nat by lia.
    rewrite insert_app_r. cbn. f_equal. f_equal.
    apply (lor_add b 1 7); lia.
  - change (negb (128 =? 0)) with true. cbv iota. by destruct sg.
Qed.

(** Which byte vectors [canon] produces, and what they mean. *)
Lemma canon_set_vch sg l b : bytes_ok l -> 0 < b < 256 -> le_val 8 (l ++ [b]) < 2 ^ 63 ->
  set_vch (canon sg l b) = sign_of sg * le_val 8 (l ++ [b]) /\ non_minimal (canon sg l b) = false.
Proof.
  intros Hl Hb Hv.
  assert (length l < 8)%nat as Hlen.
  { destruct (Nat.lt_ge_cases (length l) 8) as [|Hge]; [done|]. exfalso.
    rewrite le_val_snoc in Hv. pose proof (le_val_bytes_bound l Hl).
    assert (256 ^ 8 <= 256 ^ Z.of_nat (length l)) by (apply Z.pow_le_mono_r; lia). nia. }
  unfold canon. destruct (Z.ltb_spec b 128).
  - assert (is_byte (b + sign_bit sg)) by (unfold is_byte; destruct sg; cbn [sign_bit]; lia).
    split.
    + rewrite set_vch_snoc by first [lia | apply Forall_app; split; [done|by constructor]].
      rewrite le_val_snoc. destruct sg; cbn [sign_bit sign_of]; case_Z; try lia.
      * replace ((b + 128) mod 128) with b by (apply (Z.mod_unique_pos _ _ 1); lia). lia.
      * rewrite Z.add_0_r, Z.mod_small by lia. lia.
    + unfold non_minimal. rewrite back_app, land_low7 by done.
      destruct (Z.eqb_spec ((b + sign_bit sg) mod 128) 0) as [E|E]; [|by rewrite andb_false_r].
      exfalso. destruct sg; cbn [sign_bit] in E.
      * replace ((b + 128) mod 128) with b in E by (apply (Z.mod_unique_pos _ _ 1); lia). lia.
      * rewrite Z.add_0_r, Z.mod_small in E by lia. lia.
  - assert (is_byte (sign_bit sg)) by (unfold is_byte; destruct sg; cbn; lia).
    assert (length l < 7)%nat as Hlen7.
    { destruct (Nat.lt_ge_cases (length l) 7) as [|Hge]; [done|]. exfalso.
      rewrite le_val_snoc in Hv. pose proof (le_val_bytes_bound l Hl).
      assert (256 ^ 7 <= 256 ^ Z.of_nat (length l)) by (apply Z.pow_le_mono_r; lia). nia. }
    split.
    + rewrite set_vch_snoc.
      * destruct sg; cbn [sign_bit sign_of]; case_Z; try lia.
        -- rewrite Z.mod_same by lia. lia.
        -- rewrite Z.mod_0_l by lia. lia.
      * apply Forall_app; split; [|by constructor]. apply Forall_app; split; [done|].
        constructor; [unfold is_byte; lia|constructor].
      * rewrite length_app. cbn [length]. lia.
    + unfold non_minimal. rewrite back_app, !length_app. cbn [length].
      replace (length l + 1 + 1 - 2)%nat with (length l) by lia.
      unfold at_. rewrite <- app_assoc, app_nth2, Nat.sub_diag by lia. cbn [app nth].
      rewrite land_bit7 by (unfold is_byte; lia). destruct (Z.ltb_spec b 128); [lia|].
      destruct (Z.leb_spec (Z.of_nat (length l + 1 + 1)) 1); [lia|].
      change (128 =? 0) with false. by rewrite orb_false_r, andb_false_r.
Qed.

Lemma snoc_inv {A} (l : list A) : l <> [] -> exists l' x, l = l' ++ [x].
Proof. intros Hl. destruct l as [|y l] using rev_ind; [done|eauto]. Qed.

Lemma minimal_is_canon vch : bytes_ok vch -> vch <> [] -> non_minimal vch = false ->
  exists sg l b, vch = canon sg l b /\ bytes_ok l /\ 0 < b < 256.
Proof.
  intros Hv Hne Hmin. destruct (snoc_inv vch Hne) as (l & t & ->).
  pose proof Hv as Hv'. apply Forall_app in Hv' as [Hl Ht]. inversion Ht as [|? ? Ht' _]; subst.
  assert (is_byte t) as Htb by done. unfold is_byte in Ht'.
  exists (128 <=? t). unfold non_minimal in Hmin.
  rewrite back_app, land_low7, length_app in Hmin by done. cbn [length] in Hmin.
  destruct (Z.eqb_spec (t mod 128) 0) as [E|E].
  - (* the sign byte alone: the byte before it has its top bit set *)
    destruct (snoc_inv l) as (l' & b & ->).
    { intros ->. cbn in Hmin. discriminate. }
    apply Forall_app in Hl as [Hl' Hb]. inversion Hb as [|? ? Hb' _]; subst.
    exists l', b. unfold at_ in Hmin. rewrite length_app in Hmin. cbn [length] in Hmin.
    replace (length l' + 1 + 1 - 2)%nat with (length l') in Hmin by lia.
    rewrite <- app_assoc, app_nth2, Nat.sub_diag in Hmin by lia. cbn [app nth] in Hmin.
    rewrite land_bit7 in Hmin by done. unfold is_byte in Hb'.
    destruct (Z.ltb_spec 0 (Z.of_nat (length l' + 1 + 1))); [|lia]. cbn [andb] in Hmin.
    apply orb_false_iff in Hmin as [_ Hmin]. destruct (Z.ltb_spec b 128); [done|].
    split; [|split; [done|lia]]. unfold canon. destruct (Z.ltb_spec b 128); [lia|].
    f_equal. f_equal. destruct (Z.leb_spec 128 t); cbn [sign_bit].
    + assert (t / 128 < 2) by (apply Z.div_lt_upper_bound; lia). pose proof (Z.div_mod t 128). lia.
    + rewrite Z.mod_small in E by lia. done.
  - exists l, (t mod 128). pose proof (Z.mod_pos_bound t 128 ltac:(lia)).
    split; [|split; [done|lia]]. unfold canon. destruct (Z.ltb_spec (t mod 128) 128); [|lia].
    f_equal. f_equal. destruct (Z.leb_spec 128 t); cbn [sign_bit].
    + assert (t / 128 < 2) by (apply Z.div_lt_upper_bound; lia). pose proof (Z.div_mod t 128).
      assert (1 <= t / 128) by (apply Z.div_le_lower_bound; lia). lia.
    + rewrite Z.mod_small by lia. lia.
Qed.

(** A vector of [k] bytes holds the magnitudes below 2^(8k-1). *)
Lemma canon_length sg l b k : bytes_ok l -> 0 < b < 256 -> 1 <= k ->
  Z.of_nat (length (canon sg l b)) <= k <-> le_val 8 (l ++ [b]) < 2 ^ (8 * k - 1).
Proof.
  intros Hl Hb Hk. pose proof (le_val_bytes_bound l Hl) as Hv. rewrite le_val_snoc.
  set (m := Z.of_nat (length l)) in *. set (v := le_val 8 l) in *.
  assert (0 < 256 ^ m) by (apply Z.pow_pos_nonneg; lia).
  assert (forall j, 1 <= j -> 2 ^ (8 * j - 1) = 128 * 256 ^ (j - 1)) as Ep.
  { intros j Hj. replace (8 * j - 1) with (8 * (j - 1) + 7) by lia.
    rewrite Z.pow_add_r, (Z.pow_mul_r 2 8) by lia. change (2 ^ 8) with 256. lia. }
  rewrite Ep by lia. unfold canon. destruct (Z.ltb_spec b 128).
  - rewrite length_app. cbn [length]. rewrite Nat2Z.inj_add. fold m. change (Z.of_nat 1) with 1. split.
    + intros Hle. assert (256 ^ m <= 256 ^ (k - 1)) by (apply Z.pow_le_mono_r; lia). nia.
    + intros Hlt. destruct (Z.le_gt_cases (m + 1) k) as [|Hgt]; [done|]. exfalso.
      assert (256 ^ (k - 1 + 1) <= 256 ^ m) as Hp by (apply Z.pow_le_mono_r; lia).
      rewrite Z.pow_add_r in Hp by lia. nia.
  - rewrite !length_app. cbn [length]. rewrite !Nat2Z.inj_add. fold m. change (Z.of_nat 1) with 1. split.
    + intros Hle. assert (256 ^ (m + 1) <= 256 ^ (k - 1)) as Hp by (apply Z.pow_le_mono_r; lia).
      rewrite Z.pow_add_r in Hp by lia. nia.
    + intros Hlt. destruct (Z.le_gt_cases (m + 1 + 1) k) as [|Hgt]; [done|]. exfalso.
      assert (256 ^ (k - 1) <= 256 ^ m) as Hp by (apply Z.pow_le_mono_r; lia). nia.
Qed.

Lemma number_is_canon n : n <> 0 -> Z.abs n < 2 ^ 63 ->
  exists sg l b, n = sign_of sg * le_val 8 (l ++ [b]) /\ bytes_ok l /\ 0 < b < 256.
Proof.
  intros Hn Ha. destruct (digits_exist 8 (Z.abs n)) as (l & b & E & Hl & Hb & _).
  { change (256 ^ Z.of_nat 8) with (2 ^ 64). lia. }
  exists (n <? 0), l, b. rewrite <- E. split; [|done].
  destruct (Z.ltb_spec n 0); cbn [sign_of]; lia.
Qed.

Lemma abs_sign_of sg v : Z.abs (sign_of sg * v) = Z.abs v.
Proof. destruct sg; cbn [sign_of]; lia. Qed.

Lemma serialize_of_vch n k : 1 <= k <= 8 -> Z.abs n < 2 ^ (8 * k - 1) ->
  of_vch (serialize n) true k = Some n.
Proof.
  intros Hk Hn. destruct (Z.eq_dec n 0) as [->|Hne].
  { unfold of_vch. change (serialize 0) with (@nil Z). cbn [length]. change (Z.of_nat 0) with 0.
    destruct (Z.ltb_spec k 0); [lia|reflexivity]. }
  assert (2 ^ (8 * k - 1) <= 2 ^ 63) by (apply Z.pow_le_mono_r; lia).
  destruct (number_is_canon n Hne ltac:(lia)) as (sg & l & b & -> & Hl & Hb).
  pose proof (le_val_snoc_pos l b Hl ltac:(lia)). rewrite abs_sign_of, Z.abs_eq in Hn by lia.
  rewrite serialize_canon by (done || lia).
  destruct (canon_set_vch sg l b Hl Hb ltac:(lia)) as [Hs Hm]. unfold of_vch.
  apply (canon_length sg l b k Hl Hb ltac:(lia)) in Hn.
  destruct (Z.ltb_spec k (Z.of_nat (length (canon sg l b)))); [lia|]. by rewrite Hm, Hs.
Qed.

Lemma of_vch_serialize vch k n : bytes_ok vch -> 1 <= k <= 8 ->
  of_vch vch true k = Some n -> serialize n = vch /\ Z.abs n < 2 ^ (8 * k - 1).
Proof.
  intros Hv Hk. unfold of_vch. destruct (Z.ltb_spec k (Z.of_nat (length vch))) as [|Hlen]; [done|].
  destruct (non_minimal vch) eqn:Hm; cbn [andb]; [done|]. intros [= <-].
  assert (2 ^ (8 * k - 1) <= 2 ^ 63) by (apply Z.pow_le_mono_r; lia).
  destruct (decide (vch = [])) as [->|Hne].
  { split; [done|]. cbn. apply Z.pow_pos_nonneg; lia. }
  destruct (minimal_is_canon vch Hv Hne Hm) as (sg & l & b & -> & Hl & Hb).
  apply (canon_length sg l b k Hl Hb ltac:(lia)) in Hlen.
  destruct (canon_set_vch sg l b Hl Hb ltac:(lia)) as [-> _].
  pose proof (le_val_snoc_pos l b Hl ltac:(lia)).
  split; [apply serialize_canon; done || lia|]. rewrite abs_sign_of. lia.
Qed.

Lemma abs_bytes_ok fuel a : bytes_ok (abs_bytes fuel a).
Proof.
  revert a. induction fuel as [|f IH]; intros a; cbn [abs_bytes]; [constructor|].
  destruct (a =? 0); [constructor|]. constructor; [|apply IH].
  rewrite land_byte. apply Z.mod_pos_bound. lia.
Qed.

Lemma serialize_ok n : bytes_ok (serialize n).
Proof.
  unfold serialize. destruct (n =? 0); [constructor|]. cbv zeta.
  set (r := abs_bytes 8 _). assert (bytes_ok r) as Hr by apply abs_bytes_ok.
  destruct (negb _).
  - apply Forall_app. split; [done|]. constructor; [|constructor].
    destruct (n <? 0); unfold is_byte; lia.
  - destruct (n <? 0); [|done]. apply Forall_insert; [done|].
    assert (is_byte (back r)) as Hb.
    { unfold back, at_. destruct (nth_in_or_default (length r - 1) r 0) as [Hin | ->].
      - exact (proj1 (List.Forall_forall _ _) Hr _ Hin).
      - unfold is_byte. lia. }
    unfold is_byte in *. split; [apply Z.lor_nonneg; lia|].
    destruct (Z.eq_dec (Z.lor (back r) 128) 0) as [->|]; [lia|].
    apply (Z.log2_lt_pow2 _ 8).
    + pose proof (Z.lor_nonneg (back r) 128) as [_ Hx]. specialize (Hx ltac:(lia)). lia.
    + rewrite Z.log2_lor by lia. destruct (Z.eq_dec (back r) 0) as [->|]; [reflexivity|].
      pose proof (proj1 (Z.log2_lt_pow2 (back r) 8 ltac:(lia)) ltac:(lia)).
      change (Z.log2 128) with 7. lia.
Qed.

(** * Properties *)

(** Script numbers: for every size limit [k] from 1 to 8 bytes, the encodings accepted with
    [fRequireMinimal] and the integers below 2^(8k-1) in absolute value are in bijection:
    [getvch] of such an integer is accepted and reads back as the integer, and an accepted
    encoding is exactly what [getvch] of the number it denotes produces (so an encoding is
    never malleable). *)
Theorem scriptnum_bijection k : 1 <= k <= 8 ->
  (forall n, Z.abs n < 2 ^ (8 * k - 1) -> of_vch (getvch n) true k = Some n) /\
  (forall vch n, bytes_ok vch -> of_vch vch true k = Some n ->
     getvch n = vch /\ Z.abs n < 2 ^ (8 * k - 1)).
Proof.
  intros Hk. split.
  - intros n Hn. by apply serialize_of_vch.
  - intros vch n Hv Hn. by apply (of_vch_serialize vch k n).
Qed.

Lemma scriptnum_bijection_witness : of_vch (getvch (-255)) true 4 = Some (-255).
Proof.
  destruct (scriptnum_bijection 4) as [H _]; [split; intro; discriminate|].
  apply (H (-255)). reflexivity.
Defined.
