(* ===== verification/Opcode.v ===== *)
(** * Opcode: the script opcodes of [src/src/script/script.h] and their names (script.cpp) *)
From S2P Require Import Prelude.
From stdpp Require Export strings.
#[global] Open Scope Z_scope.

(** [enum opcodetype]; [OP_FALSE], [OP_TRUE] and [OP_CHECKLOCKTIMEVERIFY] are aliases of [OP_0],
    [OP_1] and [OP_NOP2].  [GetOp2] casts any byte to the enum: [OP_OTHER] holds the bytes
    without an enumerator (the direct pushes 1 to 75 among them). *)
Inductive opcodetype :=
  | OP_0 | OP_PUSHDATA1 | OP_PUSHDATA2 | OP_PUSHDATA4 | OP_1NEGATE | OP_RESERVED | OP_1 | OP_2
  | OP_3 | OP_4 | OP_5 | OP_6 | OP_7 | OP_8 | OP_9 | OP_10 | OP_11 | OP_12 | OP_13 | OP_14
  | OP_15 | OP_16 | OP_NOP | OP_VER | OP_IF | OP_NOTIF | OP_VERIF | OP_VERNOTIF | OP_ELSE
  | OP_ENDIF | OP_VERIFY | OP_RETURN | OP_TOALTSTACK | OP_FROMALTSTACK | OP_2DROP | OP_2DUP
  | OP_3DUP | OP_2OVER | OP_2ROT | OP_2SWAP | OP_IFDUP | OP_DEPTH | OP_DROP | OP_DUP | OP_NIP
  | OP_OVER | OP_PICK | OP_ROLL | OP_ROT | OP_SWAP | OP_TUCK | OP_CAT | OP_SUBSTR | OP_LEFT
  | OP_RIGHT | OP_SIZE | OP_INVERT | OP_AND | OP_OR | OP_XOR | OP_EQUAL | OP_EQUALVERIFY
  | OP_RESERVED1 | OP_RESERVED2 | OP_1ADD | OP_1SUB | OP_2MUL | OP_2DIV | OP_NEGATE | OP_ABS
  | OP_NOT | OP_0NOTEQUAL | OP_ADD | OP_SUB | OP_MUL | OP_DIV | OP_MOD | OP_LSHIFT | OP_RSHIFT
  | OP_BOOLAND | OP_BOOLOR | OP_NUMEQUAL | OP_NUMEQUALVERIFY | OP_NUMNOTEQUAL | OP_LESSTHAN
  | OP_GREATERTHAN | OP_LESSTHANOREQUAL | OP_GREATERTHANOREQUAL | OP_MIN | OP_MAX | OP_WITHIN
  | OP_RIPEMD160 | OP_SHA1 | OP_SHA256 | OP_HASH160 | OP_HASH256 | OP_CODESEPARATOR
  | OP_CHECKSIG | OP_CHECKSIGVERIFY | OP_CHECKMULTISIG | OP_CHECKMULTISIGVERIFY
  | OP_CHECKCRYPTOCONDITION | OP_CHECKCRYPTOCONDITIONVERIFY | OP_NOP1 | OP_NOP2 | OP_NOP3
  | OP_NOP4 | OP_NOP5 | OP_NOP6 | OP_NOP7 | OP_NOP8 | OP_NOP9 | OP_NOP10 | OP_SMALLDATA
  | OP_CRYPTOCONDITION | OP_INVALIDOPCODE
  | OP_OTHER (b : Z).

Abbreviation OP_FALSE := OP_0 (only parsing).
Abbreviation OP_TRUE := OP_1 (only parsing).
Abbreviation OP_CHECKLOCKTIMEVERIFY := OP_NOP2 (only parsing).

(** The integer value of an enumerator. *)
Definition opcode (op : opcodetype) : Z :=
  match op with
  | OP_0 => 0 | OP_PUSHDATA1 => 76 | OP_PUSHDATA2 => 77 | OP_PUSHDATA4 => 78 | OP_1NEGATE => 79
  | OP_RESERVED => 80 | OP_1 => 81 | OP_2 => 82 | OP_3 => 83 | OP_4 => 84 | OP_5 => 85
  | OP_6 => 86 | OP_7 => 87 | OP_8 => 88 | OP_9 => 89 | OP_10 => 90 | OP_11 => 91 | OP_12 => 92
  | OP_13 => 93 | OP_14 => 94 | OP_15 => 95 | OP_16 => 96 | OP_NOP => 97 | OP_VER => 98
  | OP_IF => 99 | OP_NOTIF => 100 | OP_VERIF => 101 | OP_VERNOTIF => 102 | OP_ELSE => 103
  | OP_ENDIF => 104 | OP_VERIFY => 105 | OP_RETURN => 106 | OP_TOALTSTACK => 107
  | OP_FROMALTSTACK => 108 | OP_2DROP => 109 | OP_2DUP => 110 | OP_3DUP => 111
  | OP_2OVER => 112 | OP_2ROT => 113 | OP_2SWAP => 114 | OP_IFDUP => 115 | OP_DEPTH => 116
  | OP_DROP => 117 | OP_DUP => 118 | OP_NIP => 119 | OP_OVER => 120 | OP_PICK => 121
  | OP_ROLL => 122 | OP_ROT => 123 | OP_SWAP => 124 | OP_TUCK => 125 | OP_CAT => 126
  | OP_SUBSTR => 127 | OP_LEFT => 128 | OP_RIGHT => 129 | OP_SIZE => 130 | OP_INVERT => 131
  | OP_AND => 132 | OP_OR => 133 | OP_XOR => 134 | OP_EQUAL => 135 | OP_EQUALVERIFY => 136
  | OP_RESERVED1 => 137 | OP_RESERVED2 => 138 | OP_1ADD => 139 | OP_1SUB => 140
  | OP_2MUL => 141 | OP_2DIV => 142 | OP_NEGATE => 143 | OP_ABS => 144 | OP_NOT => 145
  | OP_0NOTEQUAL => 146 | OP_ADD => 147 | OP_SUB => 148 | OP_MUL => 149 | OP_DIV => 150
  | OP_MOD => 151 | OP_LSHIFT => 152 | OP_RSHIFT => 153 | OP_BOOLAND => 154 | OP_BOOLOR => 155
  | OP_NUMEQUAL => 156 | OP_NUMEQUALVERIFY => 157 | OP_NUMNOTEQUAL => 158 | OP_LESSTHAN => 159
  | OP_GREATERTHAN => 160 | OP_LESSTHANOREQUAL => 161 | OP_GREATERTHANOREQUAL => 162
  | OP_MIN => 163 | OP_MAX => 164 | OP_WITHIN => 165 | OP_RIPEMD160 => 166 | OP_SHA1 => 167
  | OP_SHA256 => 168 | OP_HASH160 => 169 | OP_HASH256 => 170 | OP_CODESEPARATOR => 171
  | OP_CHECKSIG => 172 | OP_CHECKSIGVERIFY => 173 | OP_CHECKMULTISIG => 174
  | OP_CHECKMULTISIGVERIFY => 175 | OP_CHECKCRYPTOCONDITION => 204
  | OP_CHECKCRYPTOCONDITIONVERIFY => 205 | OP_NOP1 => 176 | OP_NOP2 => 177 | OP_NOP3 => 178
  | OP_NOP4 => 179 | OP_NOP5 => 180 | OP_NOP6 => 181 | OP_NOP7 => 182 | OP_NOP8 => 183
  | OP_NOP9 => 184 | OP_NOP10 => 185 | OP_SMALLDATA => 249 | OP_CRYPTOCONDITION => 252
  | OP_INVALIDOPCODE => 255
  | OP_OTHER b => b
  end.

(** The cast [(opcodetype)opcode]. *)
Definition opcodetype_of (b : Z) : opcodetype :=
  match b with
  | 0 => OP_0 | 76 => OP_PUSHDATA1 | 77 => OP_PUSHDATA2 | 78 => OP_PUSHDATA4 | 79 => OP_1NEGATE
  | 80 => OP_RESERVED | 81 => OP_1 | 82 => OP_2 | 83 => OP_3 | 84 => OP_4 | 85 => OP_5
  | 86 => OP_6 | 87 => OP_7 | 88 => OP_8 | 89 => OP_9 | 90 => OP_10 | 91 => OP_11 | 92 => OP_12
  | 93 => OP_13 | 94 => OP_14 | 95 => OP_15 | 96 => OP_16 | 97 => OP_NOP | 98 => OP_VER
  | 99 => OP_IF | 100 => OP_NOTIF | 101 => OP_VERIF | 102 => OP_VERNOTIF | 103 => OP_ELSE
  | 104 => OP_ENDIF | 105 => OP_VERIFY | 106 => OP_RETURN | 107 => OP_TOALTSTACK
  | 108 => OP_FROMALTSTACK | 109 => OP_2DROP | 110 => OP_2DUP | 111 => OP_3DUP
  | 112 => OP_2OVER | 113 => OP_2ROT | 114 => OP_2SWAP | 115 => OP_IFDUP | 116 => OP_DEPTH
  | 117 => OP_DROP | 118 => OP_DUP | 119 => OP_NIP | 120 => OP_OVER | 121 => OP_PICK
  | 122 => OP_ROLL | 123 => OP_ROT | 124 => OP_SWAP | 125 => OP_TUCK | 126 => OP_CAT
  | 127 => OP_SUBSTR | 128 => OP_LEFT | 129 => OP_RIGHT | 130 => OP_SIZE | 131 => OP_INVERT
  | 132 => OP_AND | 133 => OP_OR | 134 => OP_XOR | 135 => OP_EQUAL | 136 => OP_EQUALVERIFY
  | 137 => OP_RESERVED1 | 138 => OP_RESERVED2 | 139 => OP_1ADD | 140 => OP_1SUB
  | 141 => OP_2MUL | 142 => OP_2DIV | 143 => OP_NEGATE | 144 => OP_ABS | 145 => OP_NOT
  | 146 => OP_0NOTEQUAL | 147 => OP_ADD | 148 => OP_SUB | 149 => OP_MUL | 150 => OP_DIV
  | 151 => OP_MOD | 152 => OP_LSHIFT | 153 => OP_RSHIFT | 154 => OP_BOOLAND | 155 => OP_BOOLOR
  | 156 => OP_NUMEQUAL | 157 => OP_NUMEQUALVERIFY | 158 => OP_NUMNOTEQUAL | 159 => OP_LESSTHAN
  | 160 => OP_GREATERTHAN | 161 => OP_LESSTHANOREQUAL | 162 => OP_GREATERTHANOREQUAL
  | 163 => OP_MIN | 164 => OP_MAX | 165 => OP_WITHIN | 166 => OP_RIPEMD160 | 167 => OP_SHA1
  | 168 => OP_SHA256 | 169 => OP_HASH160 | 170 => OP_HASH256 | 171 => OP_CODESEPARATOR
  | 172 => OP_CHECKSIG | 173 => OP_CHECKSIGVERIFY | 174 => OP_CHECKMULTISIG
  | 175 => OP_CHECKMULTISIGVERIFY | 204 => OP_CHECKCRYPTOCONDITION
  | 205 => OP_CHECKCRYPTOCONDITIONVERIFY | 176 => OP_NOP1 | 177 => OP_NOP2 | 178 => OP_NOP3
  | 179 => OP_NOP4 | 180 => OP_NOP5 | 181 => OP_NOP6 | 182 => OP_NOP7 | 183 => OP_NOP8
  | 184 => OP_NOP9 | 185 => OP_NOP10 | 249 => OP_SMALLDATA | 252 => OP_CRYPTOCONDITION
  | 255 => OP_INVALIDOPCODE
  | _ => OP_OTHER b
  end.

(** Comparisons on the enum are comparisons of the integers. *)
Definition op_eq (a b : opcodetype) : bool := opcode a =? opcode b.
Definition op_le (a b : opcodetype) : bool := opcode a <=? opcode b.
Definition op_lt (a b : opcodetype) : bool := opcode a <? opcode b.

(** The name of an opcode, as the disassembler prints it. *)
Definition GetOpName (op : opcodetype) : string :=
  (match op with
  | OP_0 => "0" | OP_PUSHDATA1 => "OP_PUSHDATA1" | OP_PUSHDATA2 => "OP_PUSHDATA2"
  | OP_PUSHDATA4 => "OP_PUSHDATA4" | OP_1NEGATE => "-1" | OP_RESERVED => "OP_RESERVED"
  | OP_1 => "1" | OP_2 => "2" | OP_3 => "3" | OP_4 => "4" | OP_5 => "5" | OP_6 => "6"
  | OP_7 => "7" | OP_8 => "8" | OP_9 => "9" | OP_10 => "10" | OP_11 => "11" | OP_12 => "12"
  | OP_13 => "13" | OP_14 => "14" | OP_15 => "15" | OP_16 => "16" | OP_NOP => "OP_NOP"
  | OP_VER => "OP_VER" | OP_IF => "OP_IF" | OP_NOTIF => "OP_NOTIF" | OP_VERIF => "OP_VERIF"
  | OP_VERNOTIF => "OP_VERNOTIF" | OP_ELSE => "OP_ELSE" | OP_ENDIF => "OP_ENDIF"
  | OP_VERIFY => "OP_VERIFY" | OP_RETURN => "OP_RETURN" | OP_TOALTSTACK => "OP_TOALTSTACK"
  | OP_FROMALTSTACK => "OP_FROMALTSTACK" | OP_2DROP => "OP_2DROP" | OP_2DUP => "OP_2DUP"
  | OP_3DUP => "OP_3DUP" | OP_2OVER => "OP_2OVER" | OP_2ROT => "OP_2ROT"
  | OP_2SWAP => "OP_2SWAP" | OP_IFDUP => "OP_IFDUP" | OP_DEPTH => "OP_DEPTH"
  | OP_DROP => "OP_DROP" | OP_DUP => "OP_DUP" | OP_NIP => "OP_NIP" | OP_OVER => "OP_OVER"
  | OP_PICK => "OP_PICK" | OP_ROLL => "OP_ROLL" | OP_ROT => "OP_ROT" | OP_SWAP => "OP_SWAP"
  | OP_TUCK => "OP_TUCK" | OP_CAT => "OP_CAT" | OP_SUBSTR => "OP_SUBSTR" | OP_LEFT => "OP_LEFT"
  | OP_RIGHT => "OP_RIGHT" | OP_SIZE => "OP_SIZE" | OP_INVERT => "OP_INVERT"
  | OP_AND => "OP_AND" | OP_OR => "OP_OR" | OP_XOR => "OP_XOR" | OP_EQUAL => "OP_EQUAL"
  | OP_EQUALVERIFY => "OP_EQUALVERIFY" | OP_RESERVED1 => "OP_RESERVED1"
  | OP_RESERVED2 => "OP_RESERVED2" | OP_1ADD => "OP_1ADD" | OP_1SUB => "OP_1SUB"
  | OP_2MUL => "OP_2MUL" | OP_2DIV => "OP_2DIV" | OP_NEGATE => "OP_NEGATE" | OP_ABS => "OP_ABS"
  | OP_NOT => "OP_NOT" | OP_0NOTEQUAL => "OP_0NOTEQUAL" | OP_ADD => "OP_ADD"
  | OP_SUB => "OP_SUB" | OP_MUL => "OP_MUL" | OP_DIV => "OP_DIV" | OP_MOD => "OP_MOD"
  | OP_LSHIFT => "OP_LSHIFT" | OP_RSHIFT => "OP_RSHIFT" | OP_BOOLAND => "OP_BOOLAND"
  | OP_BOOLOR => "OP_BOOLOR" | OP_NUMEQUAL => "OP_NUMEQUAL"
  | OP_NUMEQUALVERIFY => "OP_NUMEQUALVERIFY" | OP_NUMNOTEQUAL => "OP_NUMNOTEQUAL"
  | OP_LESSTHAN => "OP_LESSTHAN" | OP_GREATERTHAN => "OP_GREATERTHAN"
  | OP_LESSTHANOREQUAL => "OP_LESSTHANOREQUAL"
  | OP_GREATERTHANOREQUAL => "OP_GREATERTHANOREQUAL" | OP_MIN => "OP_MIN" | OP_MAX => "OP_MAX"
  | OP_WITHIN => "OP_WITHIN" | OP_RIPEMD160 => "OP_RIPEMD160" | OP_SHA1 => "OP_SHA1"
  | OP_SHA256 => "OP_SHA256" | OP_HASH160 => "OP_HASH160" | OP_HASH256 => "OP_HASH256"
  | OP_CODESEPARATOR => "OP_CODESEPARATOR" | OP_CHECKSIG => "OP_CHECKSIG"
  | OP_CHECKSIGVERIFY => "OP_CHECKSIGVERIFY" | OP_CHECKMULTISIG => "OP_CHECKMULTISIG"
  | OP_CHECKMULTISIGVERIFY => "OP_CHECKMULTISIGVERIFY"
  | OP_CHECKCRYPTOCONDITION => "OP_CHECKCRYPTOCONDITION" | OP_NOP1 => "OP_NOP1"
  | OP_NOP2 => "OP_NOP2" | OP_NOP3 => "OP_NOP3" | OP_NOP4 => "OP_NOP4" | OP_NOP5 => "OP_NOP5"
  | OP_NOP6 => "OP_NOP6" | OP_NOP7 => "OP_NOP7" | OP_NOP8 => "OP_NOP8" | OP_NOP9 => "OP_NOP9"
  | OP_NOP10 => "OP_NOP10" | OP_INVALIDOPCODE => "OP_INVALIDOPCODE"
  | _ => "OP_UNKNOWN"
  end)%string.

(** Casting a byte to the enum and back is the identity. *)
Lemma opcode_of_byte b : is_byte b -> opcode (opcodetype_of b) = b.
Proof.
  intros Hb. unfold is_byte in Hb.
  assert (forallb (fun b => opcode (opcodetype_of b) =? b) (map Z.of_nat (seq 0 256)) = true) as H
    by (vm_compute; reflexivity).
  rewrite forallb_forall in H. apply Z.eqb_eq, H. apply in_map_iff.
  exists (Z.to_nat b). rewrite in_seq. lia.
Qed.

(** The enumerators are distinct, and every one but [OP_OTHER] is the cast of its value. *)
Lemma opcodetype_of_opcode op : (forall b, op <> OP_OTHER b) -> opcodetype_of (opcode op) = op.
Proof. destruct op; intros H; try reflexivity. by destruct (H b). Qed.

Lemma op_eq_spec a b : (forall x, b <> OP_OTHER x) -> (forall x, a = OP_OTHER x -> opcodetype_of x = a) ->
  op_eq a b = true <-> a = b.
Proof.
  intros Hb Ha. unfold op_eq. rewrite Z.eqb_eq. split; [|by intros ->].
  intros E. rewrite <- (opcodetype_of_opcode b Hb), <- E.
  destruct a; try reflexivity. symmetry. by apply Ha.
Qed.
