(* ===== verification/Script.v ===== *)
(** * Script: class CScript of [src/src/script/script.h] and [src/src/script/script.cpp]
    A script is its list of bytes; a [const_iterator pc] is the list of bytes from it to the
    end.  [GetOp2] is the instruction decoder every function here is built on; loops over a
    script take the number of bytes left as fuel, which is enough because every call of [GetOp2]
    on a non-empty rest consumes at least one byte ([GetOp2_progress]). *)
From S2P Require Import Prelude Endian Uint256 Hash ScriptNum Opcode.
From stdpp Require Import pretty.
#[local] Open Scope Z_scope.

Abbreviation script := (list Z) (only parsing).
Abbreviation valtype := (list Z) (only parsing).

Definition MAX_SCRIPT_ELEMENT_SIZE : Z := 520.
Definition MAX_SCRIPT_CRYPTOCONDITION_FULFILLMENT_SIZE : Z := 2048.
Definition MAX_SCRIPT_SIZE : Z := 10000.
Definition LOCKTIME_THRESHOLD : Z := 500000000.

(** [size()] *)
Definition size {A} (l : list A) : Z := Z.of_nat (length l).

Module CScript.

(** ** Building scripts *)

(** [operator<<(opcodetype)]; [None] is the exception for a value outside a byte. *)
Definition push_op (s : script) (op : opcodetype) : option script :=
  if (opcode op <? 0) || (opcode op >? 255) then None else Some (s ++ [opcode op]).

(** [operator<<(const std::vector<unsigned char>&)] *)
Definition push_data (s : script) (b : valtype) : script :=
  s ++
  (if size b <? opcode OP_PUSHDATA1 then [size b]
   else if size b <=? 255 then [opcode OP_PUSHDATA1; size b]
   else if size b <=? 65535 then opcode OP_PUSHDATA2 :: WriteLE16 (size b)
   else opcode OP_PUSHDATA4 :: WriteLE32 (size b)) ++ b.

Definition push_int64 (s : script) (n : Z) : script :=
  if (n =? -1) || ((n >=? 1) && (n <=? 16)) then s ++ [u8 (n + (opcode OP_1 - 1))]
  else if n =? 0 then s ++ [opcode OP_0]
  else push_data s (ScriptNum.serialize n).

(** ** Decoding *)

(** What [GetOp2] leaves behind: its result, [pc], [opcodeRet] and [*pvchRet]. *)
Record op_read := { go_ret : bool; go_pc : script; go_op : opcodetype; go_data : valtype }.

Definition get_fail (pc : script) : op_read :=
  {| go_ret := false; go_pc := pc; go_op := OP_INVALIDOPCODE; go_data := [] |}.

(** The size of the immediate operand and the position after it; [None] when it is cut off. *)
Definition operand_size (opc : Z) (pc : script) : option (Z * script) :=
  if opc <? opcode OP_PUSHDATA1 then Some (opc, pc)
  else if opc =? opcode OP_PUSHDATA1 then
    match pc with [] => None | n :: pc' => Some (n, pc') end
  else if opc =? opcode OP_PUSHDATA2 then
    if size pc <? 2 then None else Some (ReadLE16 pc, drop 2 pc)
  else
    if size pc <? 4 then None else Some (ReadLE32 pc, drop 4 pc).

Definition GetOp2 (pc : script) : op_read :=
  match pc with
  | [] => get_fail []
  | opc :: pc =>
      if opc <=? opcode OP_PUSHDATA4 then
        match operand_size opc pc with
        | None => get_fail pc
        | Some (nSize, pc) =>
            if size pc <? nSize then get_fail pc
            else {| go_ret := true; go_pc := drop (Z.to_nat nSize) pc;
                    go_op := opcodetype_of opc; go_data := take (Z.to_nat nSize) pc |}
        end
      else {| go_ret := true; go_pc := pc; go_op := opcodetype_of opc; go_data := [] |}
  end.

(** [DecodeOP_N] and [EncodeOP_N]; [None] is a failed assertion. *)
Definition DecodeOP_N (op : opcodetype) : option Z :=
  if op_eq op OP_0 then Some 0
  else if op_le OP_1 op && op_le op OP_16 then Some (opcode op - (opcode OP_1 - 1))
  else None.

Definition EncodeOP_N (n : Z) : option opcodetype :=
  if (n >=? 0) && (n <=? 16) then
    if n =? 0 then Some OP_0 else Some (opcodetype_of (opcode OP_1 + n - 1))
  else None.

(** ** Signature operations *)

(** The body of the loop of [GetSigOpCount(bool)]: what one opcode adds. *)
Definition sigops_of (fAccurate : bool) (lastOpcode op : opcodetype) : Z :=
  if op_eq op OP_CHECKSIG || op_eq op OP_CHECKSIGVERIFY then 1
  else if op_eq op OP_CHECKMULTISIG || op_eq op OP_CHECKMULTISIGVERIFY then
    if fAccurate && op_le OP_1 lastOpcode && op_le lastOpcode OP_16
    then default 0 (DecodeOP_N lastOpcode) else 20
  else 0.

Fixpoint sigop_loop (fuel : nat) (fAccurate : bool) (n : Z) (lastOpcode : opcodetype)
    (pc : script) : Z :=
  match fuel, pc with
  | S f, _ :: _ =>
      let r := GetOp2 pc in
      if go_ret r then
        sigop_loop f fAccurate (u32 (n + sigops_of fAccurate lastOpcode (go_op r)))
          (go_op r) (go_pc r)
      else n
  | _, _ => n
  end.

Definition GetSigOpCount (s : script) (fAccurate : bool) : Z :=
  sigop_loop (length s) fAccurate 0 OP_INVALIDOPCODE s.

(** Indexing a script; the callers check the size first. *)
Definition at_ (s : script) (i : nat) : Z := nth i s 0.

Definition IsPayToScriptHash (s : script) : bool :=
  (size s =? 23) && (at_ s 0 =? opcode OP_HASH160) && (at_ s 1 =? 20) &&
  (at_ s 22 =? opcode OP_EQUAL).

Definition IsPayToPublicKeyHash (s : script) : bool :=
  (size s =? 25) && (at_ s 0 =? opcode OP_DUP) && (at_ s 1 =? opcode OP_HASH160) &&
  (at_ s 2 =? 20) && (at_ s 23 =? opcode OP_EQUALVERIFY) && (at_ s 24 =? opcode OP_CHECKSIG).

Definition IsPayToPublicKey (s : script) : bool :=
  (size s =? 35) && (at_ s 0 =? 33) && (at_ s 34 =? opcode OP_CHECKSIG).

(** The last item a scriptSig pushes; [None] when it is not push-only. *)
Fixpoint last_push (fuel : nat) (data : valtype) (pc : script) : option valtype :=
  match fuel, pc with
  | S f, _ :: _ =>
      let r := GetOp2 pc in
      if negb (go_ret r) then None
      else if op_lt OP_16 (go_op r) then None
      else last_push f (go_data r) (go_pc r)
  | _, _ => Some data
  end.

(** [GetSigOpCount(const CScript& scriptSig)] *)
Definition GetSigOpCount_sig (s scriptSig : script) : Z :=
  if negb (IsPayToScriptHash s) then GetSigOpCount s true
  else match last_push (length scriptSig) [] scriptSig with
       | None => 0
       | Some data => GetSigOpCount data true
       end.

(** ** Data carried by scripts *)

Definition IsOpReturn (s : script) : bool := (size s >? 0) && (at_ s 0 =? opcode OP_RETURN).

Definition IsUnspendable (s : script) : bool :=
  ((size s >? 0) && (at_ s 0 =? opcode OP_RETURN)) || (size s >? MAX_SCRIPT_SIZE).

(** The value vector of a push, as [GetBalancedData] and [GetPushedData] record it; [None] for
    anything else, an empty explicit push included. *)
Definition push_value (op : opcodetype) (data : valtype) : option valtype :=
  if op_eq op OP_0 then Some [0]
  else if op_le OP_1 op && op_le op OP_16 then Some [u8 (opcode op - opcode OP_1 + 1)]
  else if (opcode op >? 0) && op_le op OP_PUSHDATA4 && (size data >? 0) then Some data
  else None.

Fixpoint balanced_loop (fuel : nat) (netPushes : Z) (vSolutions : list valtype) (pc : script)
    : bool * list valtype :=
  match fuel, pc with
  | S f, _ :: _ =>
      let r := GetOp2 pc in
      if go_ret r then
        if op_eq (go_op r) OP_DROP then
          if netPushes - 1 <? 0 then (false, vSolutions)
          else balanced_loop f (netPushes - 1) vSolutions (go_pc r)
        else match push_value (go_op r) (go_data r) with
             | Some v => balanced_loop f (netPushes + 1) (vSolutions ++ [v]) (go_pc r)
             | None => (false, vSolutions)
             end
      else (false, vSolutions)
  | _, _ => (netPushes =? 0, vSolutions)
  end.

Definition GetBalancedData (pc : script) : bool * list valtype :=
  balanced_loop (length pc) 0 [] pc.

(** When [GetOp] fails the loop goes on from the position the failed call left. *)
Fixpoint pushed_loop (fuel : nat) (vData : list valtype) (pc : script) : bool * list valtype :=
  match fuel, pc with
  | S f, _ :: _ =>
      let r := GetOp2 pc in
      if go_ret r then
        match push_value (go_op r) (go_data r) with
        | Some v => pushed_loop f (vData ++ [v]) (go_pc r)
        | None => (false, vData)
        end
      else pushed_loop f vData (go_pc r)
  | _, _ => (negb (size vData =? 0), vData)
  end.

Definition GetPushedData (pc : script) : bool * list valtype := pushed_loop (length pc) [] pc.

Definition GetOpretData (s : script) : bool * list valtype :=
  let r := GetOp2 s in
  if go_ret r && op_eq (go_op r) OP_RETURN then GetPushedData (go_pc r) else (false, []).

(** [IsPayToCryptoCondition(pCCSubScript, vParams)]: the sub-script up to and including the
    opcode, and the parameters; [None] is [false]. *)
Definition IsPayToCryptoCondition (s : script) : option (script * list valtype) :=
  let r := GetOp2 s in
  if go_ret r && op_lt OP_0 (go_op r) && op_lt (go_op r) OP_PUSHDATA1 then
    let r := GetOp2 (go_pc r) in
    if go_ret r && op_eq (go_op r) OP_CHECKCRYPTOCONDITION then
      let pcCCEnd := go_pc r in
      let '(ok, vParams) := GetBalancedData pcCCEnd in
      if ok then Some (take (length s - length pcCCEnd) s, vParams) else None
    else None
  else None.

Definition EVAL_IMPORTCOIN : Z := 226.

Definition IsCoinImport (s : script) : bool :=
  let r := GetOp2 s in
  go_ret r && op_lt OP_0 (go_op r) && op_le (go_op r) OP_PUSHDATA4 &&
  match go_data r with [] => false | x :: _ => x =? EVAL_IMPORTCOIN end.

Fixpoint push_only_loop (fuel : nat) (pc : script) : bool :=
  match fuel, pc with
  | S f, _ :: _ =>
      let r := GetOp2 pc in
      if negb (go_ret r) then false
      else if op_lt OP_16 (go_op r) then false
      else push_only_loop f (go_pc r)
  | _, _ => true
  end.

Definition IsPushOnly (s : script) : bool := push_only_loop (length s) s.

(** [IsWitnessProgram(version, program)]; the outer [None] is [false]. *)
Definition IsWitnessProgram (s : script) : option (Z * valtype) :=
  if (size s <? 4) || (size s >? 42) then None
  else if negb (at_ s 0 =? opcode OP_0) &&
          ((at_ s 0 <? opcode OP_1) || (at_ s 0 >? opcode OP_16)) then None
  else if at_ s 1 + 2 =? size s then
    match DecodeOP_N (opcodetype_of (at_ s 0)) with
    | Some version => Some (version, drop 2 s)
    | None => None
    end
  else None.

(** The value the loop accumulates: [*unlockTime <<= 8; *unlockTime |= byte] from the last byte
    down. *)
Definition unlock_value (param : valtype) : Z :=
  fold_left (fun t b => Z.lor (Z.shiftl t 8) b) (rev param) 0.

(** The outer [None] is a read at index [size() + 1] beyond the end of the script. *)
Definition IsCheckLockTimeVerify (s : script) : option (option Z) :=
  let r := GetOp2 s in
  if go_ret r then
    if size (go_data r) <? 6 then
      match nth_error s (length (go_data r) + 1) with
      | None => None
      | Some b => if b =? opcode OP_CHECKLOCKTIMEVERIFY
                  then Some (Some (unlock_value (go_data r))) else Some None
      end
    else Some None
  else Some None.

(** ** Redeem script reveal *)

(** The byte tests of one template: positions and the values they must hold. *)
Definition bytes_match (s : script) (tests : list (nat * Z)) : bool :=
  forallb (fun t => at_ s (fst t) =? snd t) tests.

(** The script hash of the revealed script, without its first three bytes. *)
Definition reveals (s redeemScript : script) : bool :=
  bool_decide (push_data [opcode OP_HASH160] (Hash160 (drop 3 redeemScript)) ++ [opcode OP_EQUAL] = s).

Definition reveal_hash160 : list (nat * Z) :=
  [(0%nat, opcode OP_RETURN); (3%nat, opcode OP_IF); (9%nat, opcode OP_NOP2);
   (10%nat, opcode OP_DROP); (45%nat, opcode OP_CHECKSIG); (46%nat, opcode OP_ELSE);
   (47%nat, opcode OP_SIZE); (48%nat, 1); (49%nat, 32); (50%nat, opcode OP_EQUALVERIFY);
   (51%nat, opcode OP_HASH160); (73%nat, opcode OP_EQUALVERIFY); (108%nat, opcode OP_CHECKSIG);
   (109%nat, opcode OP_ENDIF)].

Definition reveal_sha256 : list (nat * Z) :=
  [(0%nat, opcode OP_RETURN); (3%nat, opcode OP_IF); (9%nat, opcode OP_NOP2);
   (10%nat, opcode OP_DROP); (45%nat, opcode OP_CHECKSIG); (46%nat, opcode OP_ELSE);
   (47%nat, opcode OP_SIZE); (48%nat, 1); (49%nat, 32); (50%nat, opcode OP_EQUALVERIFY);
   (85%nat, opcode OP_EQUALVERIFY); (120%nat, opcode OP_CHECKSIG); (121%nat, opcode OP_ENDIF)].

Definition reveal_fallback : list (nat * Z) :=
  [(0%nat, opcode OP_RETURN); (1%nat, 76); (2%nat, 98); (20%nat, opcode OP_DROP);
   (21%nat, opcode OP_IF); (22%nat, 4); (27%nat, opcode OP_NOP2); (28%nat, opcode OP_DROP);
   (63%nat, opcode OP_CHECKSIG); (64%nat, opcode OP_ELSE); (99%nat, opcode OP_CHECKSIG);
   (100%nat, opcode OP_ENDIF)].

Definition IsRedeemScriptReveal (s scriptpubkey : script) : bool :=
  let redeemScript := scriptpubkey in
  if (size redeemScript =? 110) && bytes_match redeemScript reveal_hash160
  then reveals s redeemScript
  else if (size redeemScript =? 122) && bytes_match redeemScript reveal_sha256 &&
          ((at_ redeemScript 51 =? opcode OP_SHA256) || (at_ redeemScript 51 =? opcode OP_HASH256))
  then reveals s redeemScript
  else if (size redeemScript =? 101) && bytes_match redeemScript reveal_fallback
  then reveals s redeemScript
  else false.

(** ** Disassembly *)

(** [HexStr] *)
Definition string_of_chars (l : list Z) : string :=
  String.string_of_list_ascii (map (fun c => Ascii.ascii_of_nat (Z.to_nat c)) l).

Definition HexStr (vch : valtype) : string :=
  string_of_chars (flat_map (fun val => [hex_char (Z.shiftr val 4); hex_char (Z.land val 15)]) vch).

Definition ValueString (vch : valtype) : string :=
  if size vch <=? 4 then
    match ScriptNum.of_vch vch false ScriptNum.nDefaultMaxNumSize with
    | Some n => pretty (ScriptNum.getint n)
    | None => ""%string
    end
  else HexStr vch.

Fixpoint to_string_loop (fuel : nat) (str : string) (pc : script) : string :=
  match fuel, pc with
  | S f, _ :: _ =>
      let str := match str with EmptyString => str | _ => String.append str " " end in
      let r := GetOp2 pc in
      if negb (go_ret r) then String.append str "[error]"
      else
        let item := if (0 <=? opcode (go_op r)) && op_le (go_op r) OP_PUSHDATA4
                    then ValueString (go_data r) else GetOpName (go_op r) in
        to_string_loop f (String.append str item) (go_pc r)
  | _, _ => str
  end.

Definition ToString (s : script) : string := to_string_loop (length s) EmptyString s.

End CScript.
Import CScript.

(** A pay-to-pubkey-hash script, read back. *)
Definition p2pkh_example : script := [118; 169; 20] ++ replicate 20 7 ++ [136; 172].

Example to_string_p2pkh :
  ToString p2pkh_example =
  "OP_DUP OP_HASH160 0707070707070707070707070707070707070707 OP_EQUALVERIFY OP_CHECKSIG"%string.
Proof. vm_compute. reflexivity. Qed.

Example sigops_2of3 : GetSigOpCount [82; 174] true = 2 /\ GetSigOpCount [82; 174] false = 20.
Proof. split; reflexivity. Qed.

(** ** Decoding makes progress *)

Lemma operand_size_suffix opc pc n pc' : operand_size opc pc = Some (n, pc') ->
  exists k, pc' = drop k pc.
Proof.
  unfold operand_size. intros H.
  destruct (opc <? opcode OP_PUSHDATA1); [injection H as <- <-; by exists O|].
  destruct (opc =? opcode OP_PUSHDATA1).
  { destruct pc as [|x pc]; [done|]. injection H as <- <-. by exists 1%nat. }
  destruct (opc =? opcode OP_PUSHDATA2).
  - destruct (size pc <? 2); [done|]. injection H as <- <-. by exists 2%nat.
  - destruct (size pc <? 4); [done|]. injection H as <- <-. by exists 4%nat.
Qed.

(** What is left after a call is a suffix of what was there, shorter by at least one byte. *)
Lemma GetOp2_suffix x pc : exists k, go_pc (GetOp2 (x :: pc)) = drop k pc.
Proof.
  cbn [GetOp2]. destruct (x <=? opcode OP_PUSHDATA4); [|by exists O].
  destruct (operand_size x pc) as [[n pc']|] eqn:E; [|by exists O].
  apply operand_size_suffix in E as [k ->].
  destruct (size (drop k pc) <? n); cbn [go_pc get_fail]; [by exists k|].
  exists (k + Z.to_nat n)%nat. by rewrite drop_drop.
Qed.

Lemma GetOp2_progress pc : pc <> [] -> (length (go_pc (GetOp2 pc)) < length pc)%nat.
Proof.
  destruct pc as [|x pc]; [done|]. intros _. destruct (GetOp2_suffix x pc) as [k ->].
  cbn [length]. rewrite length_drop. lia.
Qed.

(** ** Reading back what was pushed *)

Lemma size_nonneg {A} (l : list A) : 0 <= size l.
Proof. unfold size. lia. Qed.

Lemma size_app {A} (l k : list A) : size (l ++ k) = size l + size k.
Proof. unfold size. rewrite length_app. lia. Qed.

Lemma size_nil {A} : size (@nil A) = 0.
Proof. reflexivity. Qed.

Lemma size_cons {A} (x : A) l : size (x :: l) = 1 + size l.
Proof. unfold size. cbn [length]. lia. Qed.

(** A push opcode followed by its operand. *)
Lemma GetOp2_operand opc pc0 pc b rest :
  opc <= opcode OP_PUSHDATA4 -> operand_size opc pc0 = Some (size b, pc) -> pc = b ++ rest ->
  GetOp2 (opc :: pc0) =
  {| go_ret := true; go_pc := rest; go_op := opcodetype_of opc; go_data := b |}.
Proof.
  intros Hle Hop ->. cbn [GetOp2]. destruct (Z.leb_spec opc (opcode OP_PUSHDATA4)); [|lia].
  rewrite Hop, size_app. destruct (Z.ltb_spec (size b + size rest) (size b)).
  { pose proof (size_nonneg rest). lia. }
  unfold size. rewrite Nat2Z.id, drop_app_length', take_app_length' by done. done.
Qed.

Lemma push_data_app s b : push_data s b = s ++ push_data [] b.
Proof. reflexivity. Qed.

Lemma GetOp2_push_data b rest : size b < 2 ^ 32 ->
  exists op, 0 <= opcode op /\ op_le op OP_PUSHDATA4 = true /\ (op_eq op OP_0 = true <-> b = []) /\
    GetOp2 (push_data [] b ++ rest) =
    {| go_ret := true; go_pc := rest; go_op := op; go_data := b |}.
Proof.
  intros Hb. pose proof (size_nonneg b). unfold push_data. rewrite app_nil_l.
  destruct (Z.ltb_spec (size b) (opcode OP_PUSHDATA1)) as [H1 | H1]; cbn [opcode] in H1.
  { exists (opcodetype_of (size b)). unfold op_le, op_eq.
    rewrite opcode_of_byte by (unfold is_byte; lia).
    split; [done|]. split; [apply Z.leb_le; cbn; lia|]. split.
    - rewrite Z.eqb_eq. cbn [opcode]. unfold size. rewrite <- length_zero_iff_nil. lia.
    - cbn [app]. apply (GetOp2_operand _ _ (b ++ rest)); [cbn; lia| |done].
      unfold operand_size. cbn [opcode]. destruct (Z.ltb_spec (size b) 76); [done|lia]. }
  assert (b <> []) as Hne by (intros ->; rewrite size_nil in H1; lia).
  destruct (Z.leb_spec (size b) 255) as [H2 | H2].
  { exists OP_PUSHDATA1. split; [done|]. split; [done|]. split; [split; [done | by intros ->]|].
    cbn [opcode app]. by apply (GetOp2_operand 76 _ (b ++ rest)). }
  destruct (Z.leb_spec (size b) 65535) as [H3 | H3].
  { exists OP_PUSHDATA2. split; [done|]. split; [done|]. split; [split; [done | by intros ->]|].
    cbn [opcode app]. rewrite <- app_assoc. apply (GetOp2_operand 77 _ (b ++ rest)); [done| |done].
    unfold operand_size. cbn [opcode]. change (77 <? 76) with false. change (77 =? 76) with false.
    change (77 =? 77) with true. cbv iota.
    rewrite size_app, ReadLE16_WriteLE16, drop_app_length' by (done || lia).
    unfold size at 1. rewrite WriteLE16_length. destruct (Z.ltb_spec (Z.of_nat 2 + size (b ++ rest)) 2); [|done].
    pose proof (size_nonneg (b ++ rest)). lia. }
  exists OP_PUSHDATA4. split; [done|]. split; [done|]. split; [split; [done | by intros ->]|].
  cbn [opcode app]. rewrite <- app_assoc. apply (GetOp2_operand 78 _ (b ++ rest)); [done| |done].
  unfold operand_size. cbn [opcode]. change (78 <? 76) with false. change (78 =? 76) with false.
  change (78 =? 77) with false. cbv iota.
  rewrite size_app, ReadLE32_WriteLE32, drop_app_length' by (done || lia).
  unfold size at 1. rewrite WriteLE32_length. destruct (Z.ltb_spec (Z.of_nat 4 + size (b ++ rest)) 4); [|done].
  pose proof (size_nonneg (b ++ rest)). lia.
Qed.

(** ** Lists of pushes *)

(** Items that read back as themselves: not empty, and within the 4-byte size field. *)
Definition pushable (b : valtype) : Prop := b <> [] /\ size b < 2 ^ 32.

#[export] Instance pushable_dec b : Decision (pushable b).
Proof. unfold pushable. apply _. Defined.

Lemma push_value_data op b : 0 <= opcode op -> op_le op OP_PUSHDATA4 = true ->
  (op_eq op OP_0 = true <-> b = []) -> b <> [] -> push_value op b = Some b.
Proof.
  intros H0 Hle Hz Hne. unfold push_value. unfold op_le in *.
  destruct (op_eq op OP_0) eqn:E; [by destruct Hne; apply Hz|].
  unfold op_eq in E. apply Z.eqb_neq in E. apply Z.leb_le in Hle. cbn [opcode] in *.
  destruct (Z.leb_spec 81 (opcode op)); [lia|]. cbn [andb].
  destruct (Z.leb_spec (opcode op) 78); [|lia]. rewrite Z.gtb_ltb.
  destruct (Z.ltb_spec 0 (opcode op)); [|lia].
  destruct b as [|x b]; [done|]. rewrite size_cons. pose proof (size_nonneg b).
  rewrite Z.gtb_ltb. destruct (Z.ltb_spec 0 (1 + size b)); [done|lia].
Qed.

Lemma push_data_nonnil b : push_data [] b <> [].
Proof.
  unfold push_data. cbn [app]. destruct (_ <? _); [done|]. destruct (_ <=? _); [done|].
  by destruct (_ <=? _).
Qed.

Lemma GetOp2_pushable b rest : pushable b ->
  exists op, GetOp2 (push_data [] b ++ rest) =
    {| go_ret := true; go_pc := rest; go_op := op; go_data := b |} /\
    push_value op b = Some b /\ op_eq op OP_DROP = false.
Proof.
  intros [Hne Hb]. destruct (GetOp2_push_data b rest Hb) as (op & H0 & Hle & Hz & E).
  exists op. split; [done|]. split; [by apply push_value_data|].
  unfold op_eq, op_le in *. apply Z.leb_le in Hle. apply Z.eqb_neq. cbn [opcode] in *. lia.
Qed.

(** A non-empty rest takes one step of a loop. *)
Lemma pushed_loop_step f v pc : pc <> [] ->
  pushed_loop (S f) v pc =
  (let r := GetOp2 pc in
   if go_ret r then
     match push_value (go_op r) (go_data r) with
     | Some x => pushed_loop f (v ++ [x]) (go_pc r)
     | None => (false, v)
     end
   else pushed_loop f v (go_pc r)).
Proof. by destruct pc. Qed.

Lemma app_nonnil_l {A} (l k : list A) : l <> [] -> l ++ k <> [].
Proof. by destruct l. Qed.

Lemma pushed_loop_items items fuel v : Forall pushable items ->
  (length (concat (map (push_data []) items)) <= fuel)%nat ->
  pushed_loop fuel v (concat (map (push_data []) items)) =
  (negb (size (v ++ items) =? 0), v ++ items).
Proof.
  intros Hi. revert fuel v. induction Hi as [|b items Hb Hi IH]; intros fuel v Hf; cbn [map concat] in *.
  - rewrite app_nil_r. by destruct fuel.
  - rewrite length_app in Hf. pose proof (push_data_nonnil b) as Hne.
    destruct fuel as [|fuel]; [destruct (push_data [] b); [done|cbn in Hf; lia]|].
    rewrite pushed_loop_step by (by apply app_nonnil_l).
    destruct (GetOp2_pushable b (concat (map (push_data []) items)) Hb) as (op & -> & Hv & _).
    cbn [go_ret go_op go_data go_pc]. rewrite Hv, IH.
    + by rewrite <- app_assoc.
    + destruct (push_data [] b); [done|cbn in Hf; lia].
Qed.

(** A push followed by OP_DROP. *)
Definition push_drop (b : valtype) : script := push_data [] b ++ [opcode OP_DROP].

Lemma balanced_loop_items items fuel v : Forall pushable items ->
  (length (concat (map push_drop items)) <= fuel)%nat ->
  balanced_loop fuel 0 v (concat (map push_drop items)) = (true, v ++ items).
Proof.
  intros Hi. revert fuel v. induction Hi as [|b items Hb Hi IH]; intros fuel v Hf; cbn [map concat] in *.
  - rewrite app_nil_r. by destruct fuel.
  - rewrite length_app in Hf. unfold push_drop in Hf at 1. rewrite length_app in Hf. cbn [length] in Hf.
    pose proof (push_data_nonnil b) as Hne.
    assert (1 <= length (push_data [] b))%nat by (destruct (push_data [] b); [done|cbn; lia]).
    destruct fuel as [|[|fuel]]; [lia|lia|].
    assert (forall f n w pc, pc <> [] -> balanced_loop (S f) n w pc =
      (let r := GetOp2 pc in
       if go_ret r then
         if op_eq (go_op r) OP_DROP then
           if n - 1 <? 0 then (false, w) else balanced_loop f (n - 1) w (go_pc r)
         else match push_value (go_op r) (go_data r) with
              | Some x => balanced_loop f (n + 1) (w ++ [x]) (go_pc r)
              | None => (false, w)
              end
       else (false, w))) as Hstep by (by intros ? ? ? [|]).
    unfold push_drop at 1. rewrite <- app_assoc, Hstep by (by apply app_nonnil_l).
    destruct (GetOp2_pushable b ([opcode OP_DROP] ++ concat (map push_drop items)) Hb) as (op & -> & Hv & Hd).
    cbn [go_ret go_op go_data go_pc]. rewrite Hd, Hv, Hstep by done.
    cbn [app GetOp2 opcode]. change (117 <=? 78) with false. cbv iota.
    cbn [go_ret go_op go_data go_pc]. change (op_eq (opcodetype_of 117) OP_DROP) with true. cbv iota.
    change (0 + 1 - 1) with 0. change (0 <? 0) with false. cbv iota.
    rewrite IH; [by rewrite <- app_assoc | lia].
Qed.

(** ** Signature operation counts *)

Lemma sigops_of_bound acc last op : 0 <= sigops_of acc last op <= 20.
Proof.
  unfold sigops_of. destruct (_ || _); [lia|]. destruct (_ || _); [|lia].
  destruct (acc && op_le OP_1 last && op_le last OP_16) eqn:E; [|lia].
  apply andb_true_iff in E as [E H2]. apply andb_true_iff in E as [_ H1].
  unfold DecodeOP_N. rewrite H1, H2. unfold op_eq, op_le in *.
  apply Z.leb_le in H1, H2. cbn [opcode andb] in *.
  destruct (Z.eqb_spec (opcode last) 0); unfold default, from_option, id; lia.
Qed.

Lemma sigops_of_accurate last op : sigops_of true last op <= sigops_of false last op.
Proof.
  pose proof (sigops_of_bound true last op). revert H. unfold sigops_of.
  destruct (_ || _); [lia|]. destruct (_ || _); [|lia]. cbn [andb]. intros [_ Hle]. exact Hle.
Qed.

(** While 20 per byte left cannot overflow 32 bits, the loop adds up without wrapping. *)
Lemma sigop_loop_mono fuel : forall acc n1 n2 last pc,
  0 <= n1 <= n2 -> n2 + 20 * size pc < 2 ^ 32 ->
  n1 <= sigop_loop fuel acc n1 last pc /\
  sigop_loop fuel true n1 last pc <= sigop_loop fuel false n2 last pc /\
  sigop_loop fuel acc n1 last pc <= n1 + 20 * size pc.
Proof.
  induction fuel as [|f IH]; intros acc n1 n2 last pc Hn Hb; cbn [sigop_loop].
  { pose proof (size_nonneg pc). lia. }
  destruct pc as [|x pc]; [change (size (@nil Z)) with 0 in *; lia|].
  pose proof (GetOp2_progress (x :: pc) ltac:(done)) as Hp.
  set (r := GetOp2 (x :: pc)) in *. pose proof (size_nonneg (x :: pc)).
  destruct (go_ret r); [|lia].
  assert (size (go_pc r) + 1 <= size (x :: pc)) by (unfold size; lia).
  pose proof (size_nonneg (go_pc r)).
  pose proof (sigops_of_bound true last (go_op r)). pose proof (sigops_of_bound false last (go_op r)).
  pose proof (sigops_of_bound acc last (go_op r)). pose proof (sigops_of_accurate last (go_op r)).
  rewrite !uwrap_small by lia.
  destruct (IH acc (n1 + sigops_of acc last (go_op r)) (n2 + 20) (go_op r) (go_pc r)) as (A1 & _ & A3); [lia|lia|].
  destruct (IH acc (n1 + sigops_of true last (go_op r)) (n2 + sigops_of false last (go_op r))
              (go_op r) (go_pc r)) as (_ & B2 & _); lia.
Qed.

Lemma push_only_no_sigops fuel acc n last pc : 0 <= n < 2 ^ 32 ->
  push_only_loop fuel pc = true -> sigop_loop fuel acc n last pc = n.
Proof.
  intros Hn. revert last pc. induction fuel as [|f IH]; intros last pc Hp; cbn [sigop_loop push_only_loop] in *; [done|].
  destruct pc as [|x pc]; [done|]. set (r := GetOp2 (x :: pc)) in *.
  destruct (go_ret r); cbn [negb] in Hp; [|done].
  destruct (op_lt OP_16 (go_op r)) eqn:E; [done|].
  assert (sigops_of acc last (go_op r) = 0) as ->; [|by rewrite Z.add_0_r, uwrap_small; auto].
  unfold op_lt in E. apply Z.ltb_ge in E. cbn [opcode] in E.
  unfold sigops_of, op_eq. cbn [opcode]. repeat (case_Z; try lia). done.
Qed.

(** * Properties *)

(** Decoding inverts encoding for every push: whatever the script's rest, [GetOp2] on what
    [operator<<(vector)] appended returns exactly the pushed bytes and stops at the rest, with an
    opcode of the push range (OP_0 exactly for the empty vector); this covers the four size
    forms. *)
Theorem push_data_reads_back b rest : size b < 2 ^ 32 ->
  let r := GetOp2 (push_data [] b ++ rest) in
  go_ret r = true /\ go_data r = b /\ go_pc r = rest /\
  op_le (go_op r) OP_PUSHDATA4 = true /\ (op_eq (go_op r) OP_0 = true <-> b = []).
Proof. intros Hb. by destruct (GetOp2_push_data b rest Hb) as (op & _ & Hle & Hz & ->). Qed.

Lemma push_data_reads_back_witness :
  go_data (GetOp2 (push_data [] (replicate 300 7) ++ [172])) = replicate 300 7.
Proof. apply (push_data_reads_back (replicate 300 7) [172]). reflexivity. Defined.

(** Data carried by scripts reads back: an OP_RETURN output followed by the pushes of
    non-empty items yields the items, and a crypto-condition output - the condition, its opcode
    and parameters each pushed and dropped - is recognised with its parameters and with the
    sub-script that ends at the opcode. *)
Theorem script_data_round_trip items cond params :
  Forall pushable items -> items <> [] ->
  0 < size cond < 76 -> Forall pushable params ->
  GetOpretData (opcode OP_RETURN :: concat (map (push_data []) items)) = (true, items) /\
  let head := push_data [] cond ++ [opcode OP_CHECKCRYPTOCONDITION] in
  IsPayToCryptoCondition (head ++ concat (map push_drop params)) = Some (head, params).
Proof.
  intros Hi Hne Hc Hp. split.
  - unfold GetOpretData. cbn [GetOp2 opcode]. change (106 <=? 78) with false. cbv iota.
    cbn [go_ret go_op go_pc]. change (true && op_eq (opcodetype_of 106) OP_RETURN) with true. cbv iota.
    unfold GetPushedData. rewrite pushed_loop_items by done. cbn [app].
    destruct items; [done|]. rewrite size_cons. pose proof (size_nonneg items).
    destruct (Z.eqb_spec (1 + size items) 0); [lia|done].
  - intros head. unfold IsPayToCryptoCondition, head. rewrite <- app_assoc.
    set (rest := [opcode OP_CHECKCRYPTOCONDITION] ++ concat (map push_drop params)).
    assert (push_data [] cond = size cond :: cond) as Epush.
    { unfold push_data. cbn [opcode app]. destruct (Z.ltb_spec (size cond) 76); [done|lia]. }
    rewrite Epush. cbn [app].
    rewrite (GetOp2_operand (size cond) (cond ++ rest) (cond ++ rest) cond rest);
      [|cbn [opcode]; lia| |done].
    2: { unfold operand_size. cbn [opcode]. destruct (Z.ltb_spec (size cond) 76); [done|lia]. }
    cbn [go_ret go_op go_pc]. unfold op_lt. rewrite opcode_of_byte by (unfold is_byte; lia).
    cbn [opcode]. destruct (Z.ltb_spec 0 (size cond)); [|lia]. destruct (Z.ltb_spec (size cond) 76); [|lia].
    cbn [andb]. unfold rest at 1. cbn [opcode app GetOp2]. change (204 <=? 78) with false. cbv iota.
    cbn [go_ret go_op go_pc]. change (true && op_eq (opcodetype_of 204) OP_CHECKCRYPTOCONDITION) with true.
    cbv iota. unfold rest. cbn [opcode app go_pc GetOp2]. change (204 <=? 78) with false. cbv iota. cbn [go_pc].
    unfold GetBalancedData. rewrite balanced_loop_items by done. cbn [app]. f_equal. f_equal.
    change (204 :: concat (map push_drop params)) with ([204] ++ concat (map push_drop params)).
    rewrite app_comm_cons, app_assoc, length_app, Nat.add_sub. apply take_app_length.
Qed.

Lemma script_data_round_trip_witness :
  GetOpretData ([106; 2; 7; 8; 1; 9]) = (true, [[7; 8]; [9]]) /\
  IsPayToCryptoCondition [1; 5; 204; 1; 6; 117] = Some ([1; 5; 204], [[6]]).
Proof.
  apply (script_data_round_trip [[7; 8]; [9]] [5] [[6]]);
    [repeat constructor; done | done | split; reflexivity | repeat constructor; done].
Defined.

(** Signature operation counting: for scripts below 2^27 bytes nothing wraps, the accurate
    count never exceeds the legacy count, neither exceeds 20 per byte, and a push-only script
    (as consensus requires of a P2SH scriptSig) counts zero. *)
Theorem sigop_count_bounds s acc : size s < 2 ^ 27 ->
  0 <= GetSigOpCount s acc <= 20 * size s /\
  GetSigOpCount s true <= GetSigOpCount s false /\
  (IsPushOnly s = true -> GetSigOpCount s acc = 0).
Proof.
  intros Hs. unfold GetSigOpCount.
  destruct (sigop_loop_mono (length s) acc 0 0 OP_INVALIDOPCODE s) as (A & B & C); [lia|lia|].
  split; [lia|]. split; [done|]. intros Hp. by apply push_only_no_sigops.
Qed.

Lemma sigop_count_bounds_witness :
  0 <= GetSigOpCount [82; 174; 172] true <= 60 /\ GetSigOpCount [81; 1; 9] false = 0.
Proof.
  destruct (sigop_count_bounds [82; 174; 172] true) as (A & _ & _); [reflexivity|].
  destruct (sigop_count_bounds [81; 1; 9] false) as (_ & _ & C); [reflexivity|].
  split; [exact A | apply C; reflexivity].
Defined.
