(* ===== verification/Serialize.v ===== *)
(** * Serialize: the serialization framework of [src/src/serialize.h]
    A writer stream is the list of bytes written so far; [Serialize] of a value is the list of
    bytes it appends.  A reader stream is the list of bytes left; reading past the end, and every
    other [std::ios_base::failure], is [None].  The class [Codec] is what the framework promises
    to the types built on it: reading inverts writing whatever follows in the stream, and what
    is accepted was written by the writer, byte for byte. *)
From S2P Require Import Prelude Endian.

(** ** Readers *)

Definition Reader (A : Type) : Type := list Z -> option (A * list Z).

Definition rret {A} (a : A) : Reader A := fun s => Some (a, s).
Definition rfail {A} : Reader A := fun _ => None.
Definition rbind {A B} (m : Reader A) (k : A -> Reader B) : Reader B :=
  fun s => match m s with Some (a, s') => k a s' | None => None end.

Declare Scope reader_scope.
Delimit Scope reader_scope with reader.
Notation "x <-- m ;; k" := (rbind m (fun x => k))
  (at level 100, m at next level, right associativity) : reader_scope.
#[global] Open Scope reader_scope.

(** [s.read(pch, nSize)] *)
Definition read_bytes (nSize : Z) : Reader (list Z) := fun s =>
  if Z.of_nat (length s) <? nSize then None
  else Some (take (Z.to_nat nSize) s, drop (Z.to_nat nSize) s).

(** ** Integers *)

Definition ser_writedata8 (obj : Z) : list Z := [u8 obj].
Definition ser_writedata16 (obj : Z) : list Z := WriteLE16 obj.
Definition ser_writedata32 (obj : Z) : list Z := WriteLE32 obj.
Definition ser_writedata32be (obj : Z) : list Z := WriteBE32 obj.
Definition ser_writedata64 (obj : Z) : list Z := WriteLE64 obj.

Definition ser_readdata8 : Reader Z := b <-- read_bytes 1 ;; rret (hd 0 b).
Definition ser_readdata16 : Reader Z := b <-- read_bytes 2 ;; rret (ReadLE16 b).
Definition ser_readdata32 : Reader Z := b <-- read_bytes 4 ;; rret (ReadLE32 b).
Definition ser_readdata32be : Reader Z := b <-- read_bytes 4 ;; rret (ReadBE32 b).
Definition ser_readdata64 : Reader Z := b <-- read_bytes 8 ;; rret (ReadLE64 b).

(** The signed overloads go through the unsigned functions. *)
Definition Serialize_int32 (a : Z) : list Z := ser_writedata32 a.
Definition Unserialize_int32 : Reader Z := x <-- ser_readdata32 ;; rret (i32 x).
Definition Serialize_int64 (a : Z) : list Z := ser_writedata64 a.
Definition Unserialize_int64 : Reader Z := x <-- ser_readdata64 ;; rret (i64 x).
Definition Serialize_bool (a : bool) : list Z := ser_writedata8 (if a then 1 else 0).
Definition Unserialize_bool : Reader bool := f <-- ser_readdata8 ;; rret (negb (f =? 0)).

(** ** Compact size *)

Definition MAX_SIZE : Z := 33554432.

Definition GetSizeOfCompactSize (nSize : Z) : Z :=
  if nSize <? 253 then 1 else if nSize <=? 65535 then 3 else if nSize <=? 4294967295 then 5 else 9.

Definition WriteCompactSize (nSize : Z) : list Z :=
  if nSize <? 253 then ser_writedata8 nSize
  else if nSize <=? 65535 then ser_writedata8 253 ++ ser_writedata16 nSize
  else if nSize <=? 4294967295 then ser_writedata8 254 ++ ser_writedata32 nSize
  else ser_writedata8 255 ++ ser_writedata64 nSize.

(** A read value with the bound below which the encoding is refused as non-canonical. *)
Definition canonical_from (bound : Z) (r : Reader Z) : Reader Z :=
  nSizeRet <-- r ;; if nSizeRet <? bound then rfail else rret nSizeRet.

Definition ReadCompactSize : Reader Z :=
  chSize <-- ser_readdata8 ;;
  nSizeRet <-- (if chSize <? 253 then rret chSize
                else if chSize =? 253 then canonical_from 253 ser_readdata16
                else if chSize =? 254 then canonical_from 65536 ser_readdata32
                else canonical_from 4294967296 ser_readdata64) ;;
  if nSizeRet >? MAX_SIZE then rfail else rret nSizeRet.

(** ** Variable-length integers, for an unsigned type of [w] bits *)

(** The digits [tmp[0..len]]: [len] is zero only for the first. *)
Fixpoint varint_digits (fuel : nat) (first : bool) (n : Z) : list Z :=
  match fuel with
  | O => []
  | S f =>
      Z.lor (Z.land n 127) (if first then 0 else 128) ::
      (if n <=? 127 then [] else varint_digits f false (Z.shiftr n 7 - 1))
  end.

(** The digits are written from the last one found; ten digits hold 64 bits. *)
Definition WriteVarInt (n : Z) : list Z := rev (varint_digits 10 true n).

Fixpoint GetSizeOfVarInt_loop (fuel : nat) (nRet n : Z) : Z :=
  match fuel with
  | O => nRet
  | S f => if n <=? 127 then nRet + 1 else GetSizeOfVarInt_loop f (nRet + 1) (Z.shiftr n 7 - 1)
  end.
Definition GetSizeOfVarInt (n : Z) : Z := GetSizeOfVarInt_loop 10 0 n.

(** Reads digits until one without the top bit; every digit consumes a byte, so the bytes left
    are fuel enough. *)
Fixpoint ReadVarInt_loop (fuel : nat) (w n : Z) : Reader Z :=
  match fuel with
  | O => rfail
  | S f =>
      chData <-- ser_readdata8 ;;
      let n := Z.lor (uwrap w (Z.shiftl n 7)) (Z.land chData 127) in
      if negb (Z.land chData 128 =? 0) then ReadVarInt_loop f w (uwrap w (n + 1)) else rret n
  end.
Definition ReadVarInt (w : Z) : Reader Z := fun s => ReadVarInt_loop (length s) w 0 s.

(** ** Containers *)

(** Strings, prevectors and vectors of bytes are written as one blob. *)
Definition Serialize_bytes (v : list Z) : list Z := WriteCompactSize (Z.of_nat (length v)) ++ v.

Definition Unserialize_string : Reader (list Z) := nSize <-- ReadCompactSize ;; read_bytes nSize.

(** [LimitedString<Limit>] *)
Definition Unserialize_limited (Limit : Z) : Reader (list Z) :=
  size <-- ReadCompactSize ;; if size >? Limit then rfail else read_bytes size.

(** A loop that fills a container in blocks of at most [step] elements; [rd] reads one block. *)
Fixpoint read_blocks {A} (rd : Z -> Reader (list A)) (step : Z) (fuel : nat) (left : Z)
    : Reader (list A) :=
  match fuel with
  | O => rret []
  | S f =>
      if left <=? 0 then rret []
      else
        let blk := Z.min left step in
        x <-- rd blk ;; y <-- read_blocks rd step f (left - blk) ;; rret (x ++ y)
  end.

(** The number of blocks. *)
Definition blocks_fuel (step nSize : Z) : nat := Z.to_nat (nSize / step + 1).

(** Vectors of bytes are read in blocks of [1 + 4999999 / sizeof(T)] bytes. *)
Definition Unserialize_bytes : Reader (list Z) :=
  nSize <-- ReadCompactSize ;; read_blocks read_bytes 5000000 (blocks_fuel 5000000 nSize) nSize.

Fixpoint read_n {A} (unser : Reader A) (n : nat) : Reader (list A) :=
  match n with
  | O => rret []
  | S n' => x <-- unser ;; xs <-- read_n unser n' ;; rret (x :: xs)
  end.

Definition Serialize_vector {A} (ser : A -> list Z) (v : list A) : list Z :=
  WriteCompactSize (Z.of_nat (length v)) ++ concat (map ser v).

(** Vectors of other types are resized by [5000000 / sizeof(T)] elements at a time. *)
Definition Unserialize_vector {A} (sizeof_T : Z) (unser : Reader A) : Reader (list A) :=
  nSize <-- ReadCompactSize ;;
  let step := 5000000 / sizeof_T in
  read_blocks (fun k => read_n unser (Z.to_nat k)) step (blocks_fuel step nSize) nSize.

(** [std::array<T, N>] has no size prefix. *)
Definition Serialize_array {A} (ser : A -> list Z) (v : list A) : list Z := concat (map ser v).
Definition Unserialize_array {A} (N : nat) (unser : Reader A) : Reader (list A) := read_n unser N.

Definition Serialize_optional {A} (ser : A -> list Z) (item : option A) : list Z :=
  match item with
  | Some x => ser_writedata8 1 ++ ser x
  | None => ser_writedata8 0
  end.
Definition Unserialize_optional {A} (unser : Reader A) : Reader (option A) :=
  discriminant <-- ser_readdata8 ;;
  if discriminant =? 0 then rret None
  else if discriminant =? 1 then object <-- unser ;; rret (Some object)
  else rfail.

Definition Serialize_pair {K T} (serK : K -> list Z) (serT : T -> list Z) (item : K * T) : list Z :=
  serK item.1 ++ serT item.2.
Definition Unserialize_pair {K T} (unserK : Reader K) (unserT : Reader T) : Reader (K * T) :=
  k <-- unserK ;; t <-- unserT ;; rret (k, t).

(** Opaque blobs: [base_blob] and byte arrays of [n] bytes. *)
Definition Serialize_blob (data : list Z) : list Z := data.
Definition Unserialize_blob (n : nat) : Reader (list Z) := read_bytes (Z.of_nat n).

Example compact_sizes :
  map WriteCompactSize [252; 253; 65536] = [[252]; [253; 253; 0]; [254; 0; 0; 1; 0]] /\
  ReadCompactSize [253; 252; 0] = None.
Proof. split; vm_compute; reflexivity. Qed.

(** The table in the comment above [GetSizeOfVarInt], with its rows for 16511 and 65535
    corrected: the comment has 80 FF 7F and 82 FD 7F there, the code writes FF 7F and 82 FE 7F. *)
Example varint_table :
  map WriteVarInt [0; 127; 128; 255; 16383; 16384; 16511; 65535; 4294967296] =
  [[0]; [127]; [128; 0]; [128; 127]; [254; 127]; [255; 0]; [255; 127]; [130; 254; 127];
   [142; 254; 254; 255; 0]].
Proof. vm_compute. reflexivity. Qed.

(** ** The interface *)

Class Codec {A} (ser : A -> list Z) (unser : Reader A) (wf : A -> Prop) : Prop := {
  codec_read : forall a rest, wf a -> unser (ser a ++ rest) = Some (a, rest);
  codec_exact : forall s a rest, bytes_ok s -> unser s = Some (a, rest) ->
    wf a /\ s = ser a ++ rest
}.

Lemma rbind_some {A B} (m : Reader A) (k : A -> Reader B) s r :
  rbind m k s = Some r -> exists a s', m s = Some (a, s') /\ k a s' = Some r.
Proof. unfold rbind. destruct (m s) as [[a s']|]; [eauto|done]. Qed.

Lemma rbind_ok {A B} (m : Reader A) (k : A -> Reader B) s a s' :
  m s = Some (a, s') -> rbind m k s = k a s'.
Proof. unfold rbind. by intros ->. Qed.

(** A codec is prefix free: what was written decides the value, and what follows it. *)
Lemma codec_app_inj {A} (ser : A -> list Z) unser wf `{!Codec ser unser wf} a b r1 r2 :
  wf a -> wf b -> ser a ++ r1 = ser b ++ r2 -> a = b /\ r1 = r2.
Proof.
  intros Ha Hb E. pose proof (codec_read a r1 Ha) as H1. rewrite E, (codec_read b r2 Hb) in H1.
  by injection H1 as -> ->.
Qed.

(** So a sequence of values is decided by the concatenation of their bytes, when no value is
    written as nothing (the reader fails at the end of the stream). *)
Lemma codec_concat_inj {A} (ser : A -> list Z) unser wf `{!Codec ser unser wf} : unser [] = None ->
  forall l1 l2, Forall wf l1 -> Forall wf l2 -> concat (map ser l1) = concat (map ser l2) -> l1 = l2.
Proof.
  intros Hn. assert (forall x l, wf x -> concat (map ser (x :: l)) <> []) as Hne.
  { intros x l Hx E. cbn [map concat] in E. apply app_eq_nil in E as [E _].
    pose proof (codec_read x [] Hx) as H. rewrite E in H. cbn [app] in H. congruence. }
  induction l1 as [|x l1 IH]; intros [|y l2] H1 H2 E; [done|..].
  - symmetry in E. apply list.Forall_cons in H2 as [Hy _]. destruct (Hne y l2 Hy E).
  - apply list.Forall_cons in H1 as [Hx _]. destruct (Hne x l1 Hx E).
  - apply list.Forall_cons in H1 as [Hx H1]. apply list.Forall_cons in H2 as [Hy H2]. cbn [map concat] in E.
    apply (codec_app_inj ser unser wf) in E as [-> E]; [|done|done]. f_equal. by apply IH.
Qed.

(** Step through a reader: rewrite a read that is known to succeed. *)
Ltac rstep := erewrite rbind_ok by (eauto using codec_read).

Lemma read_bytes_app n (l rest : list Z) : Z.of_nat (length l) = n ->
  read_bytes n (l ++ rest) = Some (l, rest).
Proof.
  intros <-. unfold read_bytes. rewrite length_app, Nat2Z.id, take_app_length, drop_app_length.
  destruct (Z.ltb_spec (Z.of_nat (length l + length rest)) (Z.of_nat (length l))); [lia|done].
Qed.

Lemma read_bytes_inv n s l rest : 0 <= n -> read_bytes n s = Some (l, rest) ->
  s = l ++ rest /\ Z.of_nat (length l) = n.
Proof.
  intros Hn. unfold read_bytes. destruct (Z.ltb_spec (Z.of_nat (length s)) n); [done|].
  intros [= <- <-]. rewrite take_drop. split; [done|]. rewrite length_take. lia.
Qed.

(** ** Integer codecs *)

Definition uint_wf (w : Z) (x : Z) : Prop := 0 <= x < 2 ^ w.
Definition sint_wf (w : Z) (x : Z) : Prop := - 2 ^ (w - 1) <= x < 2 ^ (w - 1).

Lemma le_read_exact (n : nat) (s : list Z) x rest : bytes_ok s ->
  (b <-- read_bytes (Z.of_nat n) ;; rret (le_val 8 (take n b))) s = Some (x, rest) ->
  0 <= x < 2 ^ (8 * Z.of_nat n) /\ s = to_le 8 n x ++ rest /\ bytes_ok rest.
Proof.
  intros Hs H. apply rbind_some in H as (b & s' & Hb & [= <- <-]).
  apply read_bytes_inv in Hb as [-> Hl]; [|lia]. apply Forall_app in Hs as [Hb Hrest].
  assert (length b = n) as Hl' by lia. rewrite take_ge by lia.
  pose proof (le_val_bound 8 b ltac:(lia) Hb) as Hv. rewrite Hl' in Hv.
  split; [done|]. split; [|done]. f_equal. rewrite <- Hl'. symmetry. apply to_le_le_val; [lia|done].
Qed.

Lemma bytes_ok_app_inv a b : bytes_ok (a ++ b) -> bytes_ok b.
Proof. intros H. by apply Forall_app in H as [_ H]. Qed.

#[export] Instance codec_u8 : Codec ser_writedata8 ser_readdata8 (uint_wf 8).
Proof.
  split.
  - intros x rest Hx. unfold ser_readdata8, ser_writedata8.
    erewrite rbind_ok by (by apply read_bytes_app). cbn. by rewrite uwrap_small.
  - intros s x rest Hs H. unfold ser_readdata8 in H.
    apply rbind_some in H as (b & s' & Hb & [= <- <-]). apply read_bytes_inv in Hb as [-> Hl]; [|lia].
    destruct b as [|y [|z b]]; cbn [length] in Hl; try lia. cbn [hd].
    apply Forall_app in Hs as [Hs _]. inversion Hs as [|? ? Hy _]; subst.
    split; [exact Hy|]. unfold ser_writedata8. by rewrite uwrap_small.
Qed.

(** The little-endian words of [n] bytes. *)
Lemma le_codec n (wr : Z -> list Z) (rd : list Z -> Z) :
  (forall x, wr x = to_le 8 n x) -> (forall l, rd l = le_val 8 (take n l)) ->
  Codec wr (b <-- read_bytes (Z.of_nat n) ;; rret (rd b)) (uint_wf (8 * Z.of_nat n)).
Proof.
  intros Hw Hr. split.
  - intros x rest Hx. rewrite Hw.
    erewrite rbind_ok by (apply read_bytes_app; by rewrite to_le_length).
    unfold rret. rewrite Hr, take_ge by (by rewrite to_le_length).
    rewrite le_val_to_le by lia. by rewrite Z.mod_small.
  - intros s x rest Hs H. rewrite Hw.
    destruct (le_read_exact n s x rest Hs) as (Hx & E & _); [|done].
    revert H. unfold rbind, rret. destruct (read_bytes _ s) as [[b s']|]; [|done]. by rewrite Hr.
Qed.

#[export] Instance codec_u16 : Codec ser_writedata16 ser_readdata16 (uint_wf 16).
Proof. by apply (le_codec 2). Qed.
#[export] Instance codec_u32 : Codec ser_writedata32 ser_readdata32 (uint_wf 32).
Proof. by apply (le_codec 4). Qed.
#[export] Instance codec_u64 : Codec ser_writedata64 ser_readdata64 (uint_wf 64).
Proof. by apply (le_codec 8). Qed.

(** Two's complement: the signed overloads. *)
Lemma to_le_mod n x : to_le 8 n x = to_le 8 n (x mod 2 ^ (8 * Z.of_nat n)).
Proof.
  apply (le_val_inj 8); [lia|apply to_le_ok; lia|apply to_le_ok; lia|by rewrite !to_le_length|].
  rewrite !le_val_to_le by lia. by rewrite Z.mod_mod by (apply Z.pow_nonzero; lia).
Qed.

Lemma swrap_uwrap w x : 1 <= w -> sint_wf w x -> swrap w (x mod 2 ^ w) = x.
Proof.
  intros Hw Hx. unfold sint_wf in Hx. unfold swrap. rewrite Z.add_mod_idemp_l by (apply Z.pow_nonzero; lia).
  apply swrap_small; lia.
Qed.

Lemma uwrap_swrap w x : 1 <= w -> 0 <= x < 2 ^ w -> swrap w x mod 2 ^ w = x.
Proof.
  intros Hw Hx. unfold swrap.
  assert (0 < 2 ^ w) by (apply Z.pow_pos_nonneg; lia).
  rewrite <- (Z.mod_small x (2 ^ w)) at 2 by lia.
  rewrite <- Zminus_mod_idemp_l, Z.mod_mod, Zminus_mod_idemp_l by lia. f_equal. lia.
Qed.

Lemma signed_codec n (wr : Z -> list Z) (rd : Reader Z) w : w = 8 * Z.of_nat n -> 1 <= w ->
  (forall x, wr x = to_le 8 n x) -> Codec wr rd (uint_wf w) ->
  Codec wr (x <-- rd ;; rret (swrap w x)) (sint_wf w).
Proof.
  intros Hw Hw1 Hwr C. split.
  - intros x rest Hx. rewrite Hwr, to_le_mod, <- Hw, <- Hwr.
    erewrite rbind_ok.
    2: { apply codec_read. apply Z.mod_pos_bound, Z.pow_pos_nonneg; lia. }
    unfold rret. by rewrite swrap_uwrap.
  - intros s x rest Hs H. apply rbind_some in H as (y & s' & Hy & [= <- <-]).
    apply codec_exact in Hy as [Hy ->]; [|done]. split; [apply swrap_bound; lia|].
    f_equal. rewrite !Hwr, (to_le_mod n (swrap w y)), <- Hw, uwrap_swrap by done. done.
Qed.

#[export] Instance codec_int32 : Codec Serialize_int32 Unserialize_int32 (sint_wf 32).
Proof. apply (signed_codec 4); [done|lia|done|apply codec_u32]. Qed.
#[export] Instance codec_int64 : Codec Serialize_int64 Unserialize_int64 (sint_wf 64).
Proof. apply (signed_codec 8); [done|lia|done|apply codec_u64]. Qed.

(** ** Compact sizes *)

Definition size_wf (n : Z) : Prop := 0 <= n <= MAX_SIZE.

Lemma canonical_from_some bound r s x rest : canonical_from bound r s = Some (x, rest) ->
  r s = Some (x, rest) /\ bound <= x.
Proof.
  intros H. apply rbind_some in H as (y & s' & Hy & H). destruct (Z.ltb_spec y bound); [done|].
  by injection H as <- <-.
Qed.

Lemma canonical_from_read bound r s x rest : r s = Some (x, rest) -> bound <= x ->
  canonical_from bound r s = Some (x, rest).
Proof. intros Hr Hb. unfold canonical_from. erewrite rbind_ok by done. by destruct (Z.ltb_spec x bound); [lia|]. Qed.

#[export] Instance codec_compact_size : Codec WriteCompactSize ReadCompactSize size_wf.
Proof.
  split.
  - intros n rest [H0 HM]. unfold MAX_SIZE in HM. unfold WriteCompactSize, ReadCompactSize.
    destruct (Z.ltb_spec n 253); [|destruct (Z.leb_spec n 65535); [|destruct (Z.leb_spec n 4294967295); [|lia]]];
      rewrite <- ?app_assoc.
    + rewrite (rbind_ok _ _ _ n rest) by (apply codec_read; unfold uint_wf; lia).
      destruct (Z.ltb_spec n 253); [|lia]. rewrite (rbind_ok _ _ _ n rest) by done.
      unfold MAX_SIZE. rewrite Z.gtb_ltb. by destruct (Z.ltb_spec 33554432 n); [lia|].
    + rewrite (rbind_ok _ _ _ 253 (ser_writedata16 n ++ rest)) by (apply codec_read; unfold uint_wf; lia).
      change (253 <? 253) with false. change (253 =? 253) with true. cbv iota.
      rewrite (rbind_ok _ _ _ n rest).
      2: { apply canonical_from_read; [|lia]. apply codec_read. unfold uint_wf. lia. }
      unfold MAX_SIZE. rewrite Z.gtb_ltb. by destruct (Z.ltb_spec 33554432 n); [lia|].
    + rewrite (rbind_ok _ _ _ 254 (ser_writedata32 n ++ rest)) by (apply codec_read; unfold uint_wf; lia).
      change (254 <? 253) with false. change (254 =? 253) with false. change (254 =? 254) with true. cbv iota.
      rewrite (rbind_ok _ _ _ n rest).
      2: { apply canonical_from_read; [|lia]. apply codec_read. unfold uint_wf. lia. }
      unfold MAX_SIZE. rewrite Z.gtb_ltb. by destruct (Z.ltb_spec 33554432 n); [lia|].
  - intros s n rest Hs H. unfold ReadCompactSize in H.
    apply rbind_some in H as (ch & s1 & Hch & H). apply codec_exact in Hch as [Hch ->]; [|done].
    apply bytes_ok_app_inv in Hs. unfold uint_wf in Hch.
    apply rbind_some in H as (m & s2 & Hm & H). rewrite Z.gtb_ltb in H. unfold size_wf, MAX_SIZE in *.
    destruct (Z.ltb_spec 33554432 m) as [|HM]; [done|]. injection H as -> ->.
    unfold WriteCompactSize.
    destruct (Z.ltb_spec ch 253).
    { injection Hm as -> ->. split; [lia|]. by destruct (Z.ltb_spec n 253); [|lia]. }
    destruct (Z.eqb_spec ch 253) as [->|].
    { apply canonical_from_some in Hm as [Hm Hb]. apply codec_exact in Hm as [Hm ->]; [|done].
      unfold uint_wf in Hm. split; [lia|]. destruct (Z.ltb_spec n 253); [lia|].
      by destruct (Z.leb_spec n 65535); [rewrite <- app_assoc|lia]. }
    destruct (Z.eqb_spec ch 254) as [->|].
    { apply canonical_from_some in Hm as [Hm Hb]. apply codec_exact in Hm as [Hm ->]; [|done].
      unfold uint_wf in Hm. split; [lia|]. destruct (Z.ltb_spec n 253); [lia|].
      destruct (Z.leb_spec n 65535); [lia|].
      by destruct (Z.leb_spec n 4294967295); [rewrite <- app_assoc|lia]. }
    apply canonical_from_some in Hm as [Hm Hb]. lia.
Qed.

(** ** Blobs and vectors *)

#[export] Instance codec_blob n :
  Codec Serialize_blob (Unserialize_blob n) (fun d => length d = n /\ bytes_ok d).
Proof.
  split.
  - intros d rest [Hl _]. apply read_bytes_app. lia.
  - intros s d rest Hs H. apply read_bytes_inv in H as [-> Hl]; [|lia].
    apply Forall_app in Hs as [Hd _]. split; [split; [lia|done]|done].
Qed.

(** A block reader that splits: reading [a + b] elements is reading [a] and then [b]. *)
Definition splits {A} (rd : Z -> Reader (list A)) : Prop :=
  (forall s, rd 0 s = Some ([], s)) /\
  forall a b s, 0 <= a -> 0 <= b ->
    rd (a + b) s = (x <-- rd a ;; y <-- rd b ;; rret (x ++ y)) s.

Lemma read_bytes_splits : splits read_bytes.
Proof.
  split.
  { intros s. unfold read_bytes. by destruct (Z.ltb_spec (Z.of_nat (length s)) 0); [lia|]. }
  intros a b s Ha Hb. unfold rbind, read_bytes.
  destruct (Z.ltb_spec (Z.of_nat (length s)) a).
  { destruct (Z.ltb_spec (Z.of_nat (length s)) (a + b)); [done|lia]. }
  rewrite length_drop.
  destruct (Z.ltb_spec (Z.of_nat (length s)) (a + b)),
    (Z.ltb_spec (Z.of_nat (length s - Z.to_nat a)) b); try lia; [done|].
  unfold rret. rewrite drop_drop, Z2Nat.inj_add by lia. f_equal. f_equal.
  rewrite <- (take_drop (Z.to_nat a) (take (Z.to_nat a + Z.to_nat b) s)) at 1.
  rewrite take_take, Nat.min_l by lia. by rewrite skipn_firstn_comm, Nat.add_comm, Nat.add_sub.
Qed.

Lemma read_n_splits {A} (unser : Reader A) : splits (fun k => read_n unser (Z.to_nat k)).
Proof.
  split; [done|]. intros a b s Ha Hb. rewrite Z2Nat.inj_add by lia.
  revert s. induction (Z.to_nat a) as [|n IH]; intros s; cbn [read_n Nat.add].
  - unfold rbind, rret. by destruct (read_n unser _ s) as [[l s']|].
  - unfold rbind in *. destruct (unser s) as [[x s1]|]; [|done]. rewrite IH. unfold rret.
    destruct (read_n unser n s1) as [[l s2]|]; [|done].
    by destruct (read_n unser _ s2) as [[l' s3]|].
Qed.

(** With fuel for every block, reading in blocks is reading at once. *)
Lemma read_blocks_spec {A} (rd : Z -> Reader (list A)) step : splits rd -> 1 <= step ->
  forall fuel left s, 0 <= left <= step * Z.of_nat fuel ->
  read_blocks rd step fuel left s = rd left s.
Proof.
  intros [H0 Hsp] Hstep. induction fuel as [|f IH]; intros left s Hl; cbn [read_blocks].
  - assert (left = 0) as -> by lia. by rewrite H0.
  - destruct (Z.leb_spec left 0); [assert (left = 0) as -> by lia; by rewrite H0|].
    cbv zeta. transitivity (rd (Z.min left step + (left - Z.min left step)) s); [|f_equal; lia].
    rewrite Hsp by lia. unfold rbind. destruct (rd (Z.min left step) s) as [[x s']|]; [|done].
    rewrite IH by lia. done.
Qed.

Lemma blocks_fuel_enough step n : 1 <= step -> 0 <= n -> n <= step * Z.of_nat (blocks_fuel step n).
Proof.
  intros Hs Hn. unfold blocks_fuel. pose proof (Z.div_pos n step Hn ltac:(lia)).
  pose proof (Z.mod_pos_bound n step ltac:(lia)). pose proof (Z.div_mod n step ltac:(lia)).
  rewrite Z2Nat.id by lia. lia.
Qed.

Lemma read_in_blocks {A} (rd : Z -> Reader (list A)) step n s : splits rd -> 1 <= step -> 0 <= n ->
  read_blocks rd step (blocks_fuel step n) n s = rd n s.
Proof. intros Hr Hs Hn. apply read_blocks_spec; auto. split; [done|by apply blocks_fuel_enough]. Qed.

Definition bytes_wf (v : list Z) : Prop := size_wf (Z.of_nat (length v)) /\ bytes_ok v.

#[export] Instance codec_bytes : Codec Serialize_bytes Unserialize_bytes bytes_wf.
Proof.
  split.
  - intros v rest [Hv _]. unfold Serialize_bytes, Unserialize_bytes. rewrite <- app_assoc.
    erewrite rbind_ok by (by apply codec_read).
    rewrite read_in_blocks by (apply read_bytes_splits || lia). by apply read_bytes_app.
  - intros s v rest Hs H. apply rbind_some in H as (n & s1 & Hn & H).
    apply codec_exact in Hn as [Hn ->]; [|done]. apply bytes_ok_app_inv in Hs. unfold size_wf in Hn.
    rewrite read_in_blocks in H by (apply read_bytes_splits || lia).
    apply read_bytes_inv in H as [-> Hl]; [|lia]. apply Forall_app in Hs as [Hv _].
    split; [split; [unfold size_wf; lia|done]|]. unfold Serialize_bytes. by rewrite Hl, app_assoc.
Qed.

Definition vector_wf {A} (wf : A -> Prop) (v : list A) : Prop :=
  size_wf (Z.of_nat (length v)) /\ Forall wf v.

Definition optional_wf {A} (wf : A -> Prop) (o : option A) : Prop :=
  match o with Some x => wf x | None => True end.

Section Codecs.
Context {A : Type} (ser : A -> list Z) (unser : Reader A) (wf : A -> Prop).
Context {C : Codec ser unser wf}.

Lemma read_n_read v rest : Forall wf v ->
  read_n unser (length v) (concat (map ser v) ++ rest) = Some (v, rest).
Proof.
  induction 1 as [|x v Hx Hv IH]; cbn [length read_n map concat]; [done|].
  rewrite <- app_assoc. erewrite rbind_ok by (by apply codec_read). by erewrite rbind_ok by done.
Qed.

Lemma read_n_exact n s v rest : bytes_ok s -> read_n unser n s = Some (v, rest) ->
  length v = n /\ Forall wf v /\ s = concat (map ser v) ++ rest.
Proof.
  revert s v. induction n as [|n IH]; intros s v Hs H; cbn [read_n] in H.
  - by injection H as <- <-.
  - apply rbind_some in H as (x & s1 & Hx & H). apply rbind_some in H as (xs & s2 & Hxs & [= <- <-]).
    apply codec_exact in Hx as [Hx ->]; [|done]. apply bytes_ok_app_inv in Hs.
    apply IH in Hxs as (<- & Hxs & ->); [|done]. cbn [length map concat].
    split; [done|]. split; [by constructor|]. by rewrite app_assoc.
Qed.

Lemma codec_vector sizeof_T : 1 <= sizeof_T <= 5000000 ->
  Codec (Serialize_vector ser) (Unserialize_vector sizeof_T unser) (vector_wf wf).
Proof.
  intros Hsz. assert (1 <= 5000000 / sizeof_T) as Hstep by (apply Z.div_le_lower_bound; lia).
  split.
  - intros v rest [Hv Hf]. unfold Serialize_vector, Unserialize_vector. rewrite <- app_assoc.
    erewrite rbind_ok by (by apply codec_read). cbv zeta.
    rewrite read_in_blocks by (apply read_n_splits || lia). rewrite Nat2Z.id. by apply read_n_read.
  - intros s v rest Hs H. apply rbind_some in H as (n & s1 & Hn & H).
    apply codec_exact in Hn as [Hn ->]; [|done]. apply bytes_ok_app_inv in Hs. unfold size_wf in Hn.
    cbv zeta in H. rewrite read_in_blocks in H by (apply read_n_splits || lia).
    apply read_n_exact in H as (Hl & Hf & ->); [|done].
    split; [split; [unfold size_wf; lia|done]|]. unfold Serialize_vector. rewrite Hl, Z2Nat.id by lia.
    by rewrite app_assoc.
Qed.

#[export] Instance codec_array n :
  Codec (Serialize_array ser) (Unserialize_array n unser) (fun v => length v = n /\ Forall wf v).
Proof.
  split.
  - intros v rest [<- Hf]. by apply read_n_read.
  - intros s v rest Hs H. apply read_n_exact in H as (? & ? & ?); auto.
Qed.

#[export] Instance codec_optional :
  Codec (Serialize_optional ser) (Unserialize_optional unser) (optional_wf wf).
Proof.
  split.
  - intros [x|] rest Hx; unfold Serialize_optional, Unserialize_optional; rewrite <- ?app_assoc.
    + rewrite (rbind_ok _ _ _ 1 (ser x ++ rest)) by (by apply codec_read). change (1 =? 0) with false.
      change (1 =? 1) with true. cbv iota. by erewrite rbind_ok by (by apply codec_read).
    + by rewrite (rbind_ok _ _ _ 0 rest) by (by apply codec_read).
  - intros s o rest Hs H. apply rbind_some in H as (d & s1 & Hd & H).
    apply codec_exact in Hd as [Hd ->]; [|done]. apply bytes_ok_app_inv in Hs.
    destruct (Z.eqb_spec d 0) as [->|]; [injection H as <- <-; done|].
    destruct (Z.eqb_spec d 1) as [->|]; [|done].
    apply rbind_some in H as (x & s2 & Hx & [= <- <-]). apply codec_exact in Hx as [Hx ->]; [|done].
    split; [done|]. unfold Serialize_optional. by rewrite <- app_assoc.
Qed.
End Codecs.

#[export] Instance codec_pair {K T} serK unserK (wfK : K -> Prop) serT unserT (wfT : T -> Prop) :
  Codec serK unserK wfK -> Codec serT unserT wfT ->
  Codec (Serialize_pair serK serT) (Unserialize_pair unserK unserT) (fun p => wfK p.1 /\ wfT p.2).
Proof.
  intros CK CT. split.
  - intros [k t] rest [Hk Ht]. unfold Serialize_pair, Unserialize_pair. rewrite <- app_assoc.
    erewrite rbind_ok by (by apply codec_read). by erewrite rbind_ok by (by apply codec_read).
  - intros s p rest Hs H. apply rbind_some in H as (k & s1 & Hk & H).
    apply rbind_some in H as (t & s2 & Ht & [= <- <-]).
    apply codec_exact in Hk as [Hk ->]; [|done]. apply bytes_ok_app_inv in Hs.
    apply codec_exact in Ht as [Ht ->]; [|done]. split; [done|]. unfold Serialize_pair. cbn [fst snd].
    by rewrite <- app_assoc.
Qed.

(** ** Variable-length integers *)

Lemma land_127 n : Z.land n 127 = n mod 128.
Proof. apply (Z.land_ones n 7). lia. Qed.

Lemma lor_128 x : 0 <= x < 128 -> Z.lor x 128 = x + 128.
Proof. intros Hx. apply (lor_add x 1 7); lia. Qed.

Lemma shift7_join n : 0 <= n -> Z.lor (Z.shiftl (Z.shiftr n 7) 7) (n mod 128) = n.
Proof.
  intros Hn. rewrite Z.shiftl_mul_pow2, Z.shiftr_div_pow2, Z.lor_comm by lia.
  pose proof (Z.div_mod n 128 ltac:(lia)). rewrite lor_add; [|lia|apply Z.mod_pos_bound; lia].
  change (2 ^ 7) with 128. lia.
Qed.

(** One digit of the reading loop. *)
Lemma ReadVarInt_digit f w n d s : is_byte d ->
  ReadVarInt_loop (S f) w n (d :: s) =
  (let n := Z.lor (uwrap w (Z.shiftl n 7)) (d mod 128) in
   if 128 <=? d then ReadVarInt_loop f w (uwrap w (n + 1)) s else Some (n, s)).
Proof.
  intros Hd. unfold is_byte in Hd. cbn [ReadVarInt_loop].
  rewrite (rbind_ok _ _ _ d s).
  2: { pose proof (codec_read (Codec := codec_u8) d s Hd) as E. unfold ser_writedata8 in E.
       rewrite uwrap_small in E by lia. exact E. }
  rewrite land_127. cbv zeta. replace (negb (Z.land d 128 =? 0)) with (128 <=? d); [by destruct (128 <=? d)|].
  assert (forallb (fun d => Bool.eqb (128 <=? d) (negb (Z.land d 128 =? 0))) (map Z.of_nat (seq 0 256)) = true)
    as H by reflexivity.
  rewrite forallb_forall in H. apply Bool.eqb_prop, H. apply in_map_iff.
  exists (Z.to_nat d). rewrite in_seq. lia.
Qed.

Lemma cont_digit m : (m mod 128 + 128) mod 128 = m mod 128.
Proof. rewrite <- (Z.mod_mod m 128) at 2 by lia. apply (Z.mod_add (m mod 128) 1 128). lia. Qed.

Lemma varint_digits_S k m : varint_digits (S k) false m =
  m mod 128 + 128 :: (if m <=? 127 then [] else varint_digits k false (Z.shiftr m 7 - 1)).
Proof.
  cbn [varint_digits]. rewrite land_127, lor_128; [done|apply Z.mod_pos_bound; lia].
Qed.

(** The digits of [m] with the continuation bit leave the loop at [m + 1]. *)
Lemma ReadVarInt_continued w k : forall m f rest,
  0 <= m < 2 ^ (7 * Z.of_nat (S k)) -> m + 1 < 2 ^ w -> 0 <= w ->
  ReadVarInt_loop (length (varint_digits (S k) false m) + f) w 0
    (rev (varint_digits (S k) false m) ++ rest) =
  ReadVarInt_loop f w (m + 1) rest.
Proof.
  induction k as [|k IH]; intros m f rest Hm Hmw Hw; rewrite varint_digits_S;
    pose proof (Z.mod_pos_bound m 128 ltac:(lia)) as Hd;
    (destruct (Z.leb_spec m 127) as [Hle|Hgt];
     [ cbn [rev app length Nat.add]; rewrite ReadVarInt_digit by (unfold is_byte; lia);
       destruct (Z.leb_spec 128 (m mod 128 + 128)); [|lia];
       cbv zeta; rewrite cont_digit, Z.shiftl_0_l, (uwrap_small w 0), Z.lor_0_l, Z.mod_small, uwrap_small by lia; done |]).
  - change (2 ^ (7 * Z.of_nat 1)) with 128 in Hm. lia.
  - set (m' := Z.shiftr m 7 - 1) in *.
    assert (Z.shiftr m 7 = m / 128) as Em by (apply Z.shiftr_div_pow2; lia).
    assert (1 <= m / 128) by (apply Z.div_le_lower_bound; lia).
    assert (m / 128 <= m) by (apply Z.div_le_upper_bound; lia).
    cbn [rev]. rewrite <- app_assoc. cbn [app length].
    replace (S (length (varint_digits (S k) false m')) + f)%nat
      with (length (varint_digits (S k) false m') + S f)%nat by lia.
    rewrite IH; [|split; [lia|]| lia | lia].
    2: { unfold m'. rewrite Em. rewrite Nat2Z.inj_succ, Z.mul_succ_r, Z.pow_add_r in Hm by lia.
         enough (m / 128 < 2 ^ (7 * Z.of_nat (S k))) by lia. apply Z.div_lt_upper_bound; lia. }
    rewrite ReadVarInt_digit by (unfold is_byte; lia).
    destruct (Z.leb_spec 128 (m mod 128 + 128)); [|lia]. cbv zeta.
    rewrite cont_digit. unfold m'. rewrite Z.sub_add. rewrite (uwrap_small w (Z.shiftl _ _)).
    + rewrite shift7_join by lia. rewrite uwrap_small by lia. done.
    + rewrite Z.shiftl_mul_pow2, Em by lia. change (2 ^ 7) with 128.
      pose proof (Z.mul_div_le m 128). lia.
Qed.

Lemma varint_digits_length f b n : (length (varint_digits f b n) <= f)%nat.
Proof.
  revert b n. induction f as [|f IH]; intros b n; cbn [varint_digits length]; [lia|].
  destruct (n <=? 127); cbn [length]; [lia|]. specialize (IH false (Z.shiftr n 7 - 1)). lia.
Qed.

Lemma ReadVarInt_WriteVarInt w n rest : 0 <= w <= 64 -> 0 <= n < 2 ^ w ->
  ReadVarInt w (WriteVarInt n ++ rest) = Some (n, rest).
Proof.
  intros Hw Hn. unfold ReadVarInt, WriteVarInt. rewrite length_app, length_rev.
  assert (2 ^ w <= 2 ^ 64) by (apply Z.pow_le_mono_r; lia).
  pose proof (Z.mod_pos_bound n 128 ltac:(lia)) as Hd.
  change (varint_digits 10 true n) with
    (Z.lor (Z.land n 127) 0 :: (if n <=? 127 then [] else varint_digits 9 false (Z.shiftr n 7 - 1))).
  rewrite Z.lor_0_r, land_127. destruct (Z.leb_spec n 127) as [Hle|Hgt].
  - cbn [rev app length Nat.add]. rewrite ReadVarInt_digit by (unfold is_byte; lia).
    destruct (Z.leb_spec 128 (n mod 128)); [lia|]. cbv zeta.
    rewrite Z.shiftl_0_l, (uwrap_small w 0), Z.lor_0_l, Z.mod_mod, Z.mod_small by lia. done.
  - set (m' := Z.shiftr n 7 - 1).
    assert (Z.shiftr n 7 = n / 128) as Em by (apply Z.shiftr_div_pow2; lia).
    assert (1 <= n / 128) by (apply Z.div_le_lower_bound; lia).
    assert (n / 128 < 2 ^ 57) by (apply Z.div_lt_upper_bound; lia).
    assert (n / 128 <= n) by (apply Z.div_le_upper_bound; lia).
    cbn [rev]. rewrite <- app_assoc. cbn [app length Nat.add].
    replace (S (length (varint_digits 9 false m') + length rest))
      with (length (varint_digits 9 false m') + S (length rest))%nat by lia.
    rewrite ReadVarInt_continued; [|change (7 * Z.of_nat 9) with 63; lia|lia|lia].
    rewrite ReadVarInt_digit by (unfold is_byte; lia).
    destruct (Z.leb_spec 128 (n mod 128)); [lia|]. cbv zeta.
    unfold m'. rewrite Z.sub_add, Z.mod_mod, (uwrap_small w (Z.shiftl _ _)) by first
      [ lia | rewrite Z.shiftl_mul_pow2, Em by lia; change (2 ^ 7) with 128;
              pose proof (Z.mul_div_le n 128); lia ].
    by rewrite shift7_join by lia.
Qed.

Lemma GetSizeOfVarInt_digits f : forall n b r,
  GetSizeOfVarInt_loop f r n = r + Z.of_nat (length (varint_digits f b n)).
Proof.
  induction f as [|f IH]; intros n b r; cbn [GetSizeOfVarInt_loop varint_digits length]; [lia|].
  destruct (n <=? 127); cbn [length]; [lia|]. rewrite (IH _ false). lia.
Qed.

(** * Properties *)

(** Variable-length integers of every unsigned type up to 64 bits: what [WriteVarInt]
    writes takes [GetSizeOfVarInt] bytes and reads back as the same number, leaving the rest of
    the stream. *)
Theorem varint_round_trip w n rest : 0 <= w <= 64 -> 0 <= n < 2 ^ w ->
  ReadVarInt w (WriteVarInt n ++ rest) = Some (n, rest) /\
  Z.of_nat (length (WriteVarInt n)) = GetSizeOfVarInt n.
Proof.
  intros Hw Hn. split; [by apply ReadVarInt_WriteVarInt|].
  unfold WriteVarInt, GetSizeOfVarInt. by rewrite length_rev, (GetSizeOfVarInt_digits 10 n true).
Qed.

Lemma varint_round_trip_witness :
  ReadVarInt 32 (WriteVarInt 4294967295 ++ [7]) = Some (4294967295, [7]).
Proof.
  apply (varint_round_trip 32 4294967295 [7]); (split; [intro; discriminate | first [reflexivity | intro; discriminate]]).
Defined.

(** The reader has no overflow check, so an encoding is not unique as the comment of
    [WriteVarInt] claims: reading an [uint64_t], the ten bytes of 2^64 and the single byte of 0
    give the same number. *)
Theorem varint_not_unique :
  exists s1 s2, s1 <> s2 /\ ReadVarInt 64 s1 = Some (0, []) /\ ReadVarInt 64 s2 = Some (0, []).
Proof.
  exists [0], [128; 254; 254; 254; 254; 254; 254; 254; 255; 0].
  split; [done|]. split; vm_compute; reflexivity.
Qed.

(** Compact sizes: a length up to [MAX_SIZE] is written in [GetSizeOfCompactSize] bytes and
    reads back; conversely a size that is accepted is at most [MAX_SIZE] and its bytes are
    exactly the ones the writer produces (longer forms are refused). *)
Theorem compact_size_canonical :
  (forall n rest, 0 <= n <= MAX_SIZE ->
     ReadCompactSize (WriteCompactSize n ++ rest) = Some (n, rest) /\
     Z.of_nat (length (WriteCompactSize n)) = GetSizeOfCompactSize n) /\
  (forall s n rest, bytes_ok s -> ReadCompactSize s = Some (n, rest) ->
     0 <= n <= MAX_SIZE /\ s = WriteCompactSize n ++ rest).
Proof.
  split; [|intros s n rest Hs H; exact (codec_exact (Codec := codec_compact_size) s n rest Hs H)].
  intros n rest Hn. split; [by apply codec_read|]. unfold WriteCompactSize, GetSizeOfCompactSize.
  by repeat case_Z.
Qed.

(** Byte vectors and vectors of elements: whatever the block sizes the reader resizes by,
    a vector of at most [MAX_SIZE] elements reads back, and a vector that is accepted was
    written by the writer byte for byte. *)
Theorem vector_round_trip {A} (ser : A -> list Z) unser wf sizeof_T :
  Codec ser unser wf -> 1 <= sizeof_T <= 5000000 ->
  (forall v rest, Z.of_nat (length v) <= MAX_SIZE -> Forall wf v ->
     Unserialize_vector sizeof_T unser (Serialize_vector ser v ++ rest) = Some (v, rest)) /\
  (forall s v rest, bytes_ok s -> Unserialize_vector sizeof_T unser s = Some (v, rest) ->
     s = Serialize_vector ser v ++ rest) /\
  (forall v rest, Z.of_nat (length v) <= MAX_SIZE -> bytes_ok v ->
     Unserialize_bytes (Serialize_bytes v ++ rest) = Some (v, rest)).
Proof.
  intros C Hsz. pose proof (codec_vector ser unser wf sizeof_T Hsz) as CV. split; [|split].
  - intros v rest Hv Hf. apply codec_read. split; [unfold size_wf; lia|done].
  - intros s v rest Hs H. by apply (codec_exact s v rest Hs).
  - intros v rest Hv Hb. apply codec_read. split; [unfold size_wf; lia|done].
Qed.

Lemma vector_round_trip_witness :
  Unserialize_vector 4 ser_readdata32 (Serialize_vector ser_writedata32 [7; 70000] ++ [1]) =
  Some ([7; 70000], [1]).
Proof.
  apply (vector_round_trip ser_writedata32 ser_readdata32 (uint_wf 32) 4).
  - apply codec_u32.
  - split; intro; discriminate.
  - intro; discriminate.
  - repeat constructor; intro; discriminate.
Defined.
