(* ===== verification/Amount.v ===== *)
(** * Amount: money amounts and fee rates of [src/src/amount.h] and [src/src/amount.cpp]
    [CAmount] is an [int64_t] count of satoshis.  [MAX_MONEY] is a variable of the program (each
    asset chain computes its own at start-up), so it is an argument. *)
From S2P Require Import Prelude.

Definition COIN : Z := 100000000.
Definition CENT : Z := 1000000.

Definition MoneyRange (MAX_MONEY nValue : Z) : bool := (nValue >=? 0) && (nValue <=? MAX_MONEY).

Lemma MoneyRange_spec M v : MoneyRange M v = true <-> 0 <= v <= M.
Proof. unfold MoneyRange. rewrite andb_true_iff, Z.geb_le, Z.leb_le. done. Qed.

(** A fee rate is its [nSatoshisPerK]. *)
Module CFeeRate.

(** [CFeeRate(nFeePaid, nSize)]: [size_t] makes the division unsigned. *)
Definition make (nFeePaid nSize : Z) : Z :=
  if nSize >? 0 then i64 (u64 (i64 (nFeePaid * 1000)) / nSize) else 0.

(** [GetFee]: the product with a [size_t] is an unsigned 64-bit product. *)
Definition GetFee (nSatoshisPerK nSize : Z) : Z :=
  let nFee := i64 (u64 (u64 nSatoshisPerK * nSize) / 1000) in
  if (nFee =? 0) && (nSatoshisPerK >? 0) then nSatoshisPerK else nFee.

Definition GetFeePerK (nSatoshisPerK : Z) : Z := GetFee nSatoshisPerK 1000.

End CFeeRate.
Import CFeeRate.

Lemma GetFee_exact k n : 0 <= k -> 0 <= n -> k * n < 2 ^ 63 ->
  GetFee k n = if (k * n <? 1000) && (0 <? k) then k else k * n / 1000.
Proof.
  intros Hk Hn Hkn. unfold GetFee.
  destruct (Z.eq_dec n 0) as [->|Hn0].
  { rewrite Z.mul_0_r, (uwrap_small 64 0) by lia. rewrite Z.mul_0_r. cbn.
    rewrite Z.gtb_ltb. by destruct (0 <? k). }
  rewrite (uwrap_small 64 k) by nia. rewrite uwrap_small by nia.
  assert (0 <= k * n / 1000 < 2 ^ 63).
  { split; [apply Z.div_pos; nia|]. apply Z.div_lt_upper_bound; lia. }
  rewrite swrap_small by lia. rewrite Z.gtb_ltb.
  assert ((k * n / 1000 =? 0) = (k * n <? 1000)) as ->; [|done].
  destruct (Z.ltb_spec (k * n) 1000).
  - rewrite Z.div_small by nia. done.
  - apply Z.eqb_neq. assert (1 <= k * n / 1000) by (apply Z.div_le_lower_bound; lia). lia.
Qed.

(** * Properties *)

(** Fees: for a non-negative rate whose product with the size fits in 63 bits, the fee is
    the exact floor of rate times size over 1000, except that a positive rate never gives a zero
    fee (the whole rate is charged instead); it never exceeds the larger of the two, and the fee
    of 1000 bytes is the rate itself. *)
Theorem GetFee_spec k n : 0 <= k < 2 ^ 53 -> 0 <= n -> k * n < 2 ^ 63 ->
  (1000 <= k * n -> GetFee k n = k * n / 1000) /\
  (0 < k -> 0 < GetFee k n) /\
  (0 < k -> GetFee k n <= Z.max k (k * n / 1000)) /\
  (k = 0 -> GetFee k n = 0) /\
  GetFeePerK k = k.
Proof.
  intros Hk Hn Hkn. unfold GetFeePerK. rewrite !GetFee_exact by lia.
  assert (0 <= k * n / 1000) by (apply Z.div_pos; nia).
  split; [intros H1; destruct (Z.ltb_spec (k * n) 1000); [lia|done]|].
  split.
  { intros Hp. destruct (Z.ltb_spec (k * n) 1000), (Z.ltb_spec 0 k); cbn [andb]; try lia.
    enough (1 <= k * n / 1000) by lia. apply Z.div_le_lower_bound; lia. }
  split; [intros Hp; destruct (_ && _); lia|].
  split; [intros ->; rewrite andb_false_r; by rewrite Z.mul_0_l|].
  rewrite Z.div_mul by lia. destruct (_ && _); lia.
Qed.

Lemma GetFee_spec_witness : GetFee 1000 250 = 250 /\ GetFee 100 1 = 100 /\ 0 < GetFee 100 1.
Proof.
  destruct (GetFee_spec 1000 250) as (A & _); [split; [intro; discriminate|reflexivity]|intro; discriminate|reflexivity|].
  destruct (GetFee_spec 100 1) as (_ & B & _); [split; [intro; discriminate|reflexivity]|intro; discriminate|reflexivity|].
  split; [rewrite A; [reflexivity|intro; discriminate]|]. split; [reflexivity|]. apply B. reflexivity.
Defined.

(** The constructor divides in unsigned arithmetic: a negative fee gives a huge positive rate. *)
Example negative_fee_rate : CFeeRate.make (-1000) 1000 = 18446744073708551.
Proof. vm_compute. reflexivity. Qed.
