(* ===== verification/Transaction.v ===== *)
(** * Transaction: [src/src/primitives/transaction.h] and [transaction.cpp]
    The data of a transaction and its serialization, built on the [Codec] interface.
    [CTransaction] and [CMutableTransaction] have the same fields and the same
    [SerializationOp]; the record [tx] is both, and [CTransaction] adds the cached hash.
    The element sizes given to [Unserialize_vector] are those of the 64-bit ABI; they only set
    by how much the reader resizes ([read_in_blocks]). *)
From S2P Require Import Prelude Endian Uint256 Hash Serialize Amount Opcode Script.

(** ** Proofs ([src/src/zcash/Proof.hpp]) *)

Definition G1_PREFIX_MASK : Z := 2.
Definition G2_PREFIX_MASK : Z := 10.

(** [CompressedG1] and [CompressedG2]: the bit [y_lsb] or [y_gt] and the coordinate. *)
Record CompressedPoint := { y_bit : bool; x_coord : list Z }.

(** The leading byte, then the coordinate. *)
Definition Serialize_point (mask : Z) (p : CompressedPoint) : list Z :=
  ser_writedata8 (if y_bit p then Z.lor mask 1 else mask) ++ Serialize_blob (x_coord p).

Definition Unserialize_point (mask : Z) (n : nat) : Reader CompressedPoint :=
  leadingByte <-- ser_readdata8 ;;
  if negb (Z.land leadingByte (Z.lnot 1) =? mask) then rfail
  else
    x <-- Unserialize_blob n ;;
    rret {| y_bit := negb (Z.land leadingByte 1 =? 0); x_coord := x |}.

Definition Serialize_G1 : CompressedPoint -> list Z := Serialize_point G1_PREFIX_MASK.
Definition Unserialize_G1 : Reader CompressedPoint := Unserialize_point G1_PREFIX_MASK 32.
Definition Serialize_G2 : CompressedPoint -> list Z := Serialize_point G2_PREFIX_MASK.
Definition Unserialize_G2 : Reader CompressedPoint := Unserialize_point G2_PREFIX_MASK 64.

Record PHGRProof := {
  g_A : CompressedPoint; g_A_prime : CompressedPoint; g_B : CompressedPoint;
  g_B_prime : CompressedPoint; g_C : CompressedPoint; g_C_prime : CompressedPoint;
  g_K : CompressedPoint; g_H : CompressedPoint
}.

Definition Serialize_PHGRProof (p : PHGRProof) : list Z :=
  Serialize_G1 (g_A p) ++ Serialize_G1 (g_A_prime p) ++ Serialize_G2 (g_B p) ++
  Serialize_G1 (g_B_prime p) ++ Serialize_G1 (g_C p) ++ Serialize_G1 (g_C_prime p) ++
  Serialize_G1 (g_K p) ++ Serialize_G1 (g_H p).

Definition Unserialize_PHGRProof : Reader PHGRProof :=
  a <-- Unserialize_G1 ;; a' <-- Unserialize_G1 ;; b <-- Unserialize_G2 ;;
  b' <-- Unserialize_G1 ;; c <-- Unserialize_G1 ;; c' <-- Unserialize_G1 ;;
  k <-- Unserialize_G1 ;; h <-- Unserialize_G1 ;;
  rret {| g_A := a; g_A_prime := a'; g_B := b; g_B_prime := b'; g_C := c; g_C_prime := c';
          g_K := k; g_H := h |}.

Definition GROTH_PROOF_SIZE : nat := 192.

(** [SproutProof]: [boost::variant<PHGRProof, GrothProof>] *)
Inductive SproutProof :=
  | PHGR (proof : PHGRProof)
  | Groth (proof : list Z).

(** ** Descriptions *)

Definition SAPLING_ENCCIPHERTEXT_SIZE : nat := 580.
Definition SAPLING_OUTCIPHERTEXT_SIZE : nat := 80.
Definition NOTE_CIPHERTEXT_SIZE : nat := 601.
Definition ZC_NUM_JS_INPUTS : nat := 2.
Definition ZC_NUM_JS_OUTPUTS : nat := 2.

Abbreviation ser256 := Serialize_blob (only parsing).
Abbreviation unser256 := (Unserialize_blob 32) (only parsing).

Record SpendDescription := {
  sd_cv : list Z; sd_anchor : list Z; sd_nullifier : list Z; sd_rk : list Z;
  sd_zkproof : list Z; sd_spendAuthSig : list Z
}.

Definition Serialize_SpendDescription (d : SpendDescription) : list Z :=
  ser256 (sd_cv d) ++ ser256 (sd_anchor d) ++ ser256 (sd_nullifier d) ++ ser256 (sd_rk d) ++
  Serialize_blob (sd_zkproof d) ++ Serialize_blob (sd_spendAuthSig d).

Definition Unserialize_SpendDescription : Reader SpendDescription :=
  cv <-- unser256 ;; anchor <-- unser256 ;; nullifier <-- unser256 ;; rk <-- unser256 ;;
  zkproof <-- Unserialize_blob GROTH_PROOF_SIZE ;; spendAuthSig <-- Unserialize_blob 64 ;;
  rret {| sd_cv := cv; sd_anchor := anchor; sd_nullifier := nullifier; sd_rk := rk;
          sd_zkproof := zkproof; sd_spendAuthSig := spendAuthSig |}.

Record OutputDescription := {
  od_cv : list Z; od_cm : list Z; od_ephemeralKey : list Z; od_encCiphertext : list Z;
  od_outCiphertext : list Z; od_zkproof : list Z
}.

Definition Serialize_OutputDescription (d : OutputDescription) : list Z :=
  ser256 (od_cv d) ++ ser256 (od_cm d) ++ ser256 (od_ephemeralKey d) ++
  Serialize_blob (od_encCiphertext d) ++ Serialize_blob (od_outCiphertext d) ++
  Serialize_blob (od_zkproof d).

Definition Unserialize_OutputDescription : Reader OutputDescription :=
  cv <-- unser256 ;; cm <-- unser256 ;; ephemeralKey <-- unser256 ;;
  encCiphertext <-- Unserialize_blob SAPLING_ENCCIPHERTEXT_SIZE ;;
  outCiphertext <-- Unserialize_blob SAPLING_OUTCIPHERTEXT_SIZE ;;
  zkproof <-- Unserialize_blob GROTH_PROOF_SIZE ;;
  rret {| od_cv := cv; od_cm := cm; od_ephemeralKey := ephemeralKey;
          od_encCiphertext := encCiphertext; od_outCiphertext := outCiphertext;
          od_zkproof := zkproof |}.

Record JSDescription := {
  vpub_old : Z; vpub_new : Z; js_anchor : list Z; nullifiers : list (list Z);
  commitments : list (list Z); js_ephemeralKey : list Z; ciphertexts : list (list Z);
  randomSeed : list Z; macs : list (list Z); js_proof : SproutProof
}.

(** [SproutProofSerializer]; [None] is the exception for a proof of the other kind. *)
Definition Serialize_SproutProof (useGroth : bool) (proof : SproutProof) : option (list Z) :=
  match proof with
  | PHGR proof => if useGroth then None else Some (Serialize_PHGRProof proof)
  | Groth proof => if negb useGroth then None else Some (Serialize_blob proof)
  end.

Definition Unserialize_SproutProof (useGroth : bool) : Reader SproutProof :=
  if useGroth then proof <-- Unserialize_blob GROTH_PROOF_SIZE ;; rret (Groth proof)
  else proof <-- Unserialize_PHGRProof ;; rret (PHGR proof).

Definition OVERWINTER_TX_VERSION : Z := 3.
Definition SAPLING_TX_VERSION : Z := 4.

(** [s.GetVersion()] holds the header: bit 31 is [fOverwintered], the rest the version. *)
Definition useGroth_of (header : Z) : bool :=
  negb (Z.shiftr header 31 =? 0) && (Z.land header INT32_MAX >=? SAPLING_TX_VERSION).

Abbreviation ser_hashes := (Serialize_array Serialize_blob) (only parsing).
Abbreviation unser_hashes n := (Unserialize_array n unser256) (only parsing).

Definition Serialize_JSDescription (header : Z) (d : JSDescription) : option (list Z) :=
  match Serialize_SproutProof (useGroth_of header) (js_proof d) with
  | None => None
  | Some proof => Some (
      Serialize_int64 (vpub_old d) ++ Serialize_int64 (vpub_new d) ++ ser256 (js_anchor d) ++
      ser_hashes (nullifiers d) ++ ser_hashes (commitments d) ++ ser256 (js_ephemeralKey d) ++
      ser256 (randomSeed d) ++ ser_hashes (macs d) ++ proof ++ ser_hashes (ciphertexts d))
  end.

Definition Unserialize_JSDescription (header : Z) : Reader JSDescription :=
  old <-- Unserialize_int64 ;; new <-- Unserialize_int64 ;; anchor <-- unser256 ;;
  nulls <-- unser_hashes ZC_NUM_JS_INPUTS ;; comms <-- unser_hashes ZC_NUM_JS_OUTPUTS ;;
  key <-- unser256 ;; seed <-- unser256 ;; ms <-- unser_hashes ZC_NUM_JS_INPUTS ;;
  proof <-- Unserialize_SproutProof (useGroth_of header) ;;
  ciphers <-- Unserialize_array ZC_NUM_JS_OUTPUTS (Unserialize_blob NOTE_CIPHERTEXT_SIZE) ;;
  rret {| vpub_old := old; vpub_new := new; js_anchor := anchor; nullifiers := nulls;
          commitments := comms; js_ephemeralKey := key; ciphertexts := ciphers;
          randomSeed := seed; macs := ms; js_proof := proof |}.

(** ** Inputs and outputs *)

(** [BaseOutPoint]: [COutPoint] and [SaplingOutPoint] *)
Record COutPoint := { op_hash : list Z; op_n : Z }.

Module OutPoint.
Definition SetNull : COutPoint := {| op_hash := replicate 32 0; op_n := UINT32_MAX |}.
Definition IsNull (o : COutPoint) : bool := base_blob.IsNull (op_hash o) && (op_n o =? UINT32_MAX).
Definition lt (a b : COutPoint) : bool :=
  base_blob.lt (op_hash a) (op_hash b) ||
  (base_blob.eq (op_hash a) (op_hash b) && (op_n a <? op_n b)).
Definition eq (a b : COutPoint) : bool :=
  base_blob.eq (op_hash a) (op_hash b) && (op_n a =? op_n b).
End OutPoint.

Definition Serialize_COutPoint (o : COutPoint) : list Z :=
  ser256 (op_hash o) ++ ser_writedata32 (op_n o).
Definition Unserialize_COutPoint : Reader COutPoint :=
  h <-- unser256 ;; n <-- ser_readdata32 ;; rret {| op_hash := h; op_n := n |}.

Record CTxIn := { prevout : COutPoint; scriptSig : script; nSequence : Z }.

Definition CTxIn_IsFinal (i : CTxIn) : bool := nSequence i =? UINT32_MAX.

Definition Serialize_CTxIn (i : CTxIn) : list Z :=
  Serialize_COutPoint (prevout i) ++ Serialize_bytes (scriptSig i) ++ ser_writedata32 (nSequence i).
Definition Unserialize_CTxIn : Reader CTxIn :=
  o <-- Unserialize_COutPoint ;; sc <-- Unserialize_bytes ;; sq <-- ser_readdata32 ;;
  rret {| prevout := o; scriptSig := sc; nSequence := sq |}.

(** The member [interest] is not serialized and not set by a constructor; it is left out. *)
Record CTxOut := { nValue : Z; scriptPubKey : script }.

Module TxOut.
Definition SetNull : CTxOut := {| nValue := -1; scriptPubKey := [] |}.
Definition IsNull (o : CTxOut) : bool := nValue o =? -1.
End TxOut.

Definition Serialize_CTxOut (o : CTxOut) : list Z :=
  Serialize_int64 (nValue o) ++ Serialize_bytes (scriptPubKey o).
Definition Unserialize_CTxOut : Reader CTxOut :=
  v <-- Unserialize_int64 ;; sc <-- Unserialize_bytes ;; rret {| nValue := v; scriptPubKey := sc |}.

(** [GetDustThreshold] and [IsDust]: three times the fee of the output and of an input that
    spends it. *)
Definition GetDustThreshold (minRelayTxFee : Z) (o : CTxOut) : Z :=
  if CScript.IsUnspendable (scriptPubKey o) then 0
  else
    let nSize := size (Serialize_CTxOut o) + 148 in
    i64 (3 * CFeeRate.GetFee minRelayTxFee nSize).
Definition IsDust (minRelayTxFee : Z) (o : CTxOut) : bool := nValue o <? GetDustThreshold minRelayTxFee o.

(** ** Transactions *)

Definition OVERWINTER_VERSION_GROUP_ID : Z := 63210096.   (* 0x03C48270 *)
Definition SAPLING_VERSION_GROUP_ID : Z := 2301567109.    (* 0x892F2085 *)

(** The fields of [CMutableTransaction], which are also those of [CTransaction]. *)
Record tx := {
  fOverwintered : bool; nVersion : Z; nVersionGroupId : Z; vin : list CTxIn; vout : list CTxOut;
  nLockTime : Z; nExpiryHeight : Z; valueBalance : Z; vShieldedSpend : list SpendDescription;
  vShieldedOutput : list OutputDescription; vjoinsplit : list JSDescription;
  joinSplitPubKey : list Z; joinSplitSig : list Z; bindingSig : list Z
}.

(** [CMutableTransaction()] *)
Definition tx_default : tx := {|
  fOverwintered := false; nVersion := 1; nVersionGroupId := 0; vin := []; vout := [];
  nLockTime := 0; nExpiryHeight := 0; valueBalance := 0; vShieldedSpend := [];
  vShieldedOutput := []; vjoinsplit := []; joinSplitPubKey := replicate 32 0;
  joinSplitSig := replicate 64 0; bindingSig := replicate 64 0 |}.

(** [uint32_t header = nVersion; if (fOverwintered) header |= 1 << 31;] *)
Definition GetHeader (t : tx) : Z :=
  let header := u32 (nVersion t) in
  if fOverwintered t then Z.lor header (2 ^ 31) else header.

(** [isOverwinterV3] and [isSaplingV4] *)
Definition is_v3 (fO : bool) (group version : Z) : bool :=
  fO && (group =? OVERWINTER_VERSION_GROUP_ID) && (version =? OVERWINTER_TX_VERSION).
Definition is_v4 (fO : bool) (group version : Z) : bool :=
  fO && (group =? SAPLING_VERSION_GROUP_ID) && (version =? SAPLING_TX_VERSION).
Definition isOverwinterV3 (t : tx) : bool := is_v3 (fOverwintered t) (nVersionGroupId t) (nVersion t).
Definition isSaplingV4 (t : tx) : bool := is_v4 (fOverwintered t) (nVersionGroupId t) (nVersion t).

(** [vShieldedSpend.empty() && vShieldedOutput.empty()] *)
Definition no_shielded {A B} (spends : list A) (outputs : list B) : bool :=
  match spends, outputs with [], [] => true | _, _ => false end.

(** The bytes of a field that the format may not have. *)
Definition when (c : bool) (l : list Z) : list Z := if c then l else [].

(** The part from nVersion 2 on: the JoinSplits and, when there are some, their key and
    signature; [None] is the exception of a proof of the wrong kind. *)
Definition Serialize_joinsplits (t : tx) : option (list Z) :=
  if nVersion t >=? 2 then
    match mapM (Serialize_JSDescription (GetHeader t)) (vjoinsplit t) with
    | None => None
    | Some js => Some (
        WriteCompactSize (size (vjoinsplit t)) ++ concat js ++
        when (size (vjoinsplit t) >? 0)
          (Serialize_blob (joinSplitPubKey t) ++ Serialize_blob (joinSplitSig t)))
    end
  else Some [].

(** [Serialize]; [None] is an exception. *)
Definition Serialize_tx (t : tx) : option (list Z) :=
  let v3 := isOverwinterV3 t in
  let v4 := isSaplingV4 t in
  if fOverwintered t && negb (v3 || v4) then None
  else
    match Serialize_joinsplits t with
    | None => None
    | Some js => Some (
        ser_writedata32 (GetHeader t) ++
        when (fOverwintered t) (ser_writedata32 (nVersionGroupId t)) ++
        Serialize_vector Serialize_CTxIn (vin t) ++
        Serialize_vector Serialize_CTxOut (vout t) ++
        ser_writedata32 (nLockTime t) ++
        when (v3 || v4) (ser_writedata32 (nExpiryHeight t)) ++
        when v4 (Serialize_int64 (valueBalance t) ++
                 Serialize_vector Serialize_SpendDescription (vShieldedSpend t) ++
                 Serialize_vector Serialize_OutputDescription (vShieldedOutput t)) ++
        js ++
        when (v4 && negb (no_shielded (vShieldedSpend t) (vShieldedOutput t)))
          (Serialize_blob (bindingSig t)))
    end.

(** A field read when the format has it, and otherwise left as it was. *)
Definition read_when {A} (c : bool) (r : Reader A) (old : A) : Reader A :=
  if c then r else rret old.

Definition Unserialize_vin : Reader (list CTxIn) := Unserialize_vector 72 Unserialize_CTxIn.
Definition Unserialize_vout : Reader (list CTxOut) := Unserialize_vector 48 Unserialize_CTxOut.
Definition Unserialize_spends : Reader (list SpendDescription) :=
  Unserialize_vector 384 Unserialize_SpendDescription.
Definition Unserialize_outputs : Reader (list OutputDescription) :=
  Unserialize_vector 948 Unserialize_OutputDescription.

(** [Unserialize] into the object [t0]. *)
Definition Unserialize_tx (t0 : tx) : Reader tx :=
  header <-- ser_readdata32 ;;
  let fO := negb (Z.shiftr header 31 =? 0) in
  let version := Z.land header INT32_MAX in
  group <-- read_when fO ser_readdata32 (nVersionGroupId t0) ;;
  let v3 := is_v3 fO group version in
  let v4 := is_v4 fO group version in
  if fO && negb (v3 || v4) then rfail
  else
    ins <-- Unserialize_vin ;;
    outs <-- Unserialize_vout ;;
    lock <-- ser_readdata32 ;;
    expiry <-- read_when (v3 || v4) ser_readdata32 (nExpiryHeight t0) ;;
    balance <-- read_when v4 Unserialize_int64 (valueBalance t0) ;;
    spends <-- read_when v4 Unserialize_spends (vShieldedSpend t0) ;;
    outputs <-- read_when v4 Unserialize_outputs (vShieldedOutput t0) ;;
    js <-- read_when (version >=? 2)
             (Unserialize_vector 1832 (Unserialize_JSDescription header)) (vjoinsplit t0) ;;
    let has_js := (version >=? 2) && (size js >? 0) in
    key <-- read_when has_js (Unserialize_blob 32) (joinSplitPubKey t0) ;;
    sig <-- read_when has_js (Unserialize_blob 64) (joinSplitSig t0) ;;
    binding <-- read_when (v4 && negb (no_shielded spends outputs)) (Unserialize_blob 64)
                  (bindingSig t0) ;;
    rret {| fOverwintered := fO; nVersion := version; nVersionGroupId := group; vin := ins;
            vout := outs; nLockTime := lock; nExpiryHeight := expiry; valueBalance := balance;
            vShieldedSpend := spends; vShieldedOutput := outputs; vjoinsplit := js;
            joinSplitPubKey := key; joinSplitSig := sig; bindingSig := binding |}.

(** ** The cached hash *)

(** [CTransaction]: the fields and the memory-only hash. *)
Record CTransaction := { ct_tx : tx; ct_hash : list Z }.

(** [SerializeHash] *)
Definition SerializeHash (t : tx) : option (list Z) :=
  match Serialize_tx t with Some b => Some (Hash b) | None => None end.

Definition with_hash (t : tx) : option CTransaction :=
  match SerializeHash t with Some h => Some {| ct_tx := t; ct_hash := h |} | None => None end.

(** [CTransaction(const CMutableTransaction&)] copies every field and updates the hash. *)
Definition CTransaction_copy (t : tx) : option CTransaction := with_hash t.

(** [CTransaction(CMutableTransaction&&)] moves the fields of its initialiser list:
    [bindingSig] is not among them, so it keeps its default initialiser. *)
Definition moved (t : tx) : tx := {|
  fOverwintered := fOverwintered t; nVersion := nVersion t; nVersionGroupId := nVersionGroupId t;
  vin := vin t; vout := vout t; nLockTime := nLockTime t; nExpiryHeight := nExpiryHeight t;
  valueBalance := valueBalance t; vShieldedSpend := vShieldedSpend t;
  vShieldedOutput := vShieldedOutput t; vjoinsplit := vjoinsplit t;
  joinSplitPubKey := joinSplitPubKey t; joinSplitSig := joinSplitSig t;
  bindingSig := replicate 64 0 |}.
Definition CTransaction_move (t : tx) : option CTransaction := with_hash (moved t).

(** [CTransaction::Unserialize] reads the fields in place and updates the hash. *)
Definition CTransaction_Unserialize (t0 : CTransaction) : Reader CTransaction := fun s =>
  match Unserialize_tx (ct_tx t0) s with
  | None => None
  | Some (t, s') => match with_hash t with None => None | Some c => Some (c, s') end
  end.

(** [CTransaction(deserialize, s)]: a temporary [CMutableTransaction] (whose plain members [m0]
    are not initialised) is read and moved from. *)
Definition CTransaction_deserialize (m0 : tx) : Reader CTransaction := fun s =>
  match Unserialize_tx m0 s with
  | None => None
  | Some (t, s') => match CTransaction_move t with None => None | Some c => Some (c, s') end
  end.

(** ** Methods *)

Definition tx_IsNull (t : tx) : bool :=
  match vin t, vout t with [], [] => true | _, _ => false end.

Definition IsCoinBase (t : tx) : bool :=
  match vin t with [i] => OutPoint.IsNull (prevout i) | _ => false end.

Definition tx_IsCoinImport (t : tx) : bool :=
  match vin t with [i] => op_n (prevout i) =? 1000000000 | _ => false end.

Definition IsMint (t : tx) : bool := tx_IsCoinImport t || IsCoinBase t.

Section Money.
Context (MAX_MONEY : Z).

(** [nTotal += v; if (!MoneyRange(v) || !MoneyRange(nTotal)) throw]; [None] is the exception. *)
Definition add_in_range (nTotal : option Z) (v : Z) : option Z :=
  match nTotal with
  | None => None
  | Some n =>
      let n := i64 (n + v) in
      if negb (MoneyRange MAX_MONEY v) || negb (MoneyRange MAX_MONEY n) then None else Some n
  end.

Definition GetValueOut (t : tx) : option Z :=
  let nValueOut := fold_left add_in_range (map nValue (vout t)) (Some 0) in
  let nValueOut :=
    if valueBalance t <=? 0 then add_in_range nValueOut (i64 (- valueBalance t)) else nValueOut in
  fold_left add_in_range (map vpub_old (vjoinsplit t)) nValueOut.

Definition GetShieldedValueIn (t : tx) : option Z :=
  let nValue := if valueBalance t >=? 0 then add_in_range (Some 0) (valueBalance t) else Some 0 in
  fold_left add_in_range (map vpub_new (vjoinsplit t)) nValue.
End Money.

(** [CalculateModifiedSize(nTxSize)]; [None] is an exception of the serializer. *)
Definition CalculateModifiedSize (t : tx) (nTxSize : Z) : option Z :=
  let start := if nTxSize =? 0
               then match Serialize_tx t with Some b => Some (u32 (size b)) | None => None end
               else Some nTxSize in
  match start with
  | None => None
  | Some n => Some (fold_left (fun n i =>
      let offset := 41 + Z.min 110 (u32 (size (scriptSig i))) in
      if n >? offset then n - offset else n) (vin t) n)
  end.

Definition GetTotalSize (t : tx) : option Z :=
  match Serialize_tx t with Some b => Some (u32 (size b)) | None => None end.

Definition OPRETTYPE_TIMELOCK : Z := 1.

(** [UnlockTime(voutNum)]; [None] is a read beyond the end of a script. *)
Definition UnlockTime (t : tx) (voutNum : Z) : option Z :=
  if size (vout t) >? u32 (voutNum + 1) then
    match vout t !! Z.to_nat voutNum with
    | None => None
    | Some out =>
        if CScript.IsPayToScriptHash (scriptPubKey out) then
          let scriptID := take 20 (drop 2 (scriptPubKey out)) in
          match vout t !! Z.to_nat (voutNum + 1) with
          | None => None
          | Some next =>
              match scriptPubKey next with
              | [] => None
              | _ :: it =>
                  let r := CScript.GetOp2 it in
                  if CScript.go_ret r then
                    match CScript.go_data r with
                    | ty :: opretScript =>
                        if ty =? OPRETTYPE_TIMELOCK then
                          if bool_decide (Hash160 opretScript = scriptID) then
                            match CScript.IsCheckLockTimeVerify opretScript with
                            | None => None
                            | Some (Some unlocktime) => Some unlocktime
                            | Some None => Some 0
                            end
                          else Some 0
                        else Some 0
                    | [] => Some 0
                    end
                  else Some 0
              end
          end
        else Some 0
    end
  else Some 0.

(** ** Codecs of the component types *)

Definition blob_wf (n : nat) (d : list Z) : Prop := length d = n /\ bytes_ok d.
Definition hashes_wf (n : nat) (v : list (list Z)) : Prop := length v = n /\ Forall (blob_wf 32) v.

#[local] Instance codec_hashes n : Codec ser_hashes (unser_hashes n) (hashes_wf n).
Proof. apply codec_array, codec_blob. Qed.
#[local] Instance codec_blob' n : Codec Serialize_blob (Unserialize_blob n) (blob_wf n).
Proof. apply codec_blob. Qed.

(** Reading a record field by field inverts writing it field by field. *)
Ltac codec_read_fields :=
  rewrite <- ?app_assoc; repeat (erewrite rbind_ok by (apply codec_read; assumption)); reflexivity.
Ltac codec_exact_fields Hs H ser :=
  repeat (apply rbind_some in H as (? & ? & ?Hf & H);
          apply codec_exact in Hf as [? ->]; [|exact Hs]; apply bytes_ok_app_inv in Hs);
  injection H as <- <-; split; [repeat first [assumption | split] | unfold ser; cbn; rewrite <- ?app_assoc; reflexivity].

Definition point_wf (n : nat) (p : CompressedPoint) : Prop := blob_wf n (x_coord p).

Lemma leading_byte b : is_byte b -> forall mask, mask = 2 \/ mask = 10 ->
  (Z.land b (Z.lnot 1) =? mask) = ((b =? mask) || (b =? Z.lor mask 1)) /\
  negb (Z.land b 1 =? 0) = Z.odd b.
Proof.
  intros Hb mask Hm. unfold is_byte in Hb.
  assert (forallb (fun b =>
    Bool.eqb (Z.land b (Z.lnot 1) =? 2) ((b =? 2) || (b =? Z.lor 2 1)) &&
    Bool.eqb (Z.land b (Z.lnot 1) =? 10) ((b =? 10) || (b =? Z.lor 10 1)) &&
    Bool.eqb (negb (Z.land b 1 =? 0)) (Z.odd b)) (map Z.of_nat (seq 0 256)) = true) as H by reflexivity.
  rewrite forallb_forall in H. specialize (H b).
  rewrite !andb_true_iff, !Bool.eqb_true_iff in H.
  destruct H as [[H1 H2] H3].
  { apply in_map_iff. exists (Z.to_nat b). rewrite in_seq. lia. }
  split; [|exact H3]. destruct Hm as [-> | ->]; assumption.
Qed.

Lemma codec_point mask n : mask = 2 \/ mask = 10 ->
  Codec (Serialize_point mask) (Unserialize_point mask n) (point_wf n).
Proof.
  intros Hm. assert (is_byte mask /\ is_byte (Z.lor mask 1)) as [Hb1 Hb2]
    by (destruct Hm as [-> | ->]; split; split; try reflexivity; intro; discriminate).
  split.
  - intros [y x] rest Hx. unfold Serialize_point, Unserialize_point. cbn [y_bit x_coord].
    set (lead := if y then Z.lor mask 1 else mask).
    assert (is_byte lead) as Hlead by (unfold lead; by destruct y).
    rewrite <- app_assoc. rewrite (rbind_ok _ _ _ lead (Serialize_blob x ++ rest)) by (by apply codec_read).
    destruct (leading_byte lead Hlead mask Hm) as [-> ->].
    assert ((lead =? mask) || (lead =? Z.lor mask 1) = true) as ->.
    { unfold lead. destruct y; rewrite Z.eqb_refl; [by rewrite orb_true_r|done]. }
    cbn [negb]. erewrite rbind_ok by (by apply codec_read). unfold rret. f_equal. f_equal. f_equal.
    unfold lead. destruct y, Hm as [-> | ->]; reflexivity.
  - intros s p rest Hs H. unfold Unserialize_point in H.
    apply rbind_some in H as (lead & s1 & Hl & H). apply codec_exact in Hl as [Hlead ->]; [|done].
    apply bytes_ok_app_inv in Hs. destruct (leading_byte lead Hlead mask Hm) as [E1 E2]. rewrite E1, E2 in H.
    destruct ((lead =? mask) || (lead =? Z.lor mask 1)) eqn:E; [|done]. cbn [negb] in H.
    apply rbind_some in H as (x & s2 & Hx & [= <- <-]). apply codec_exact in Hx as [Hx ->]; [|done].
    split; [exact Hx|]. unfold Serialize_point. cbn [y_bit x_coord]. rewrite app_assoc. do 3 f_equal.
    apply orb_true_iff in E as [E | E]; apply Z.eqb_eq in E as ->; by destruct Hm as [-> | ->].
Qed.

#[export] Instance codec_G1 : Codec Serialize_G1 Unserialize_G1 (point_wf 32).
Proof. apply codec_point. by left. Qed.
#[export] Instance codec_G2 : Codec Serialize_G2 Unserialize_G2 (point_wf 64).
Proof. apply codec_point. by right. Qed.

#[local] Opaque Serialize_blob Unserialize_blob Serialize_G1 Serialize_G2 Serialize_bytes ser_writedata32 Serialize_int64 Serialize_int32.

Definition PHGR_wf (p : PHGRProof) : Prop :=
  point_wf 32 (g_A p) /\ point_wf 32 (g_A_prime p) /\ point_wf 64 (g_B p) /\
  point_wf 32 (g_B_prime p) /\ point_wf 32 (g_C p) /\ point_wf 32 (g_C_prime p) /\
  point_wf 32 (g_K p) /\ point_wf 32 (g_H p).

#[export] Instance codec_PHGR : Codec Serialize_PHGRProof Unserialize_PHGRProof PHGR_wf.
Proof.
  split.
  - intros [a a' b b' c c' k h] rest (? & ? & ? & ? & ? & ? & ? & ?). cbn in *.
    unfold Serialize_PHGRProof, Unserialize_PHGRProof. cbn [g_A g_A_prime g_B g_B_prime g_C g_C_prime g_K g_H].
    codec_read_fields.
  - intros s p rest Hs H. unfold Unserialize_PHGRProof in H. codec_exact_fields Hs H Serialize_PHGRProof.
Qed.

Definition spend_wf (d : SpendDescription) : Prop :=
  blob_wf 32 (sd_cv d) /\ blob_wf 32 (sd_anchor d) /\ blob_wf 32 (sd_nullifier d) /\
  blob_wf 32 (sd_rk d) /\ blob_wf GROTH_PROOF_SIZE (sd_zkproof d) /\ blob_wf 64 (sd_spendAuthSig d).

#[export] Instance codec_spend : Codec Serialize_SpendDescription Unserialize_SpendDescription spend_wf.
Proof.
  split.
  - intros [] rest (? & ? & ? & ? & ? & ?). cbn in *.
    unfold Serialize_SpendDescription, Unserialize_SpendDescription. cbn. codec_read_fields.
  - intros s p rest Hs H. unfold Unserialize_SpendDescription in H. codec_exact_fields Hs H Serialize_SpendDescription.
Qed.

Definition output_wf (d : OutputDescription) : Prop :=
  blob_wf 32 (od_cv d) /\ blob_wf 32 (od_cm d) /\ blob_wf 32 (od_ephemeralKey d) /\
  blob_wf SAPLING_ENCCIPHERTEXT_SIZE (od_encCiphertext d) /\
  blob_wf SAPLING_OUTCIPHERTEXT_SIZE (od_outCiphertext d) /\ blob_wf GROTH_PROOF_SIZE (od_zkproof d).

#[export] Instance codec_output : Codec Serialize_OutputDescription Unserialize_OutputDescription output_wf.
Proof.
  split.
  - intros [] rest (? & ? & ? & ? & ? & ?). cbn in *.
    unfold Serialize_OutputDescription, Unserialize_OutputDescription. cbn. codec_read_fields.
  - intros s p rest Hs H. unfold Unserialize_OutputDescription in H. codec_exact_fields Hs H Serialize_OutputDescription.
Qed.

Definition outpoint_wf (o : COutPoint) : Prop := blob_wf 32 (op_hash o) /\ uint_wf 32 (op_n o).

#[export] Instance codec_outpoint : Codec Serialize_COutPoint Unserialize_COutPoint outpoint_wf.
Proof.
  split.
  - intros [] rest (? & ?). cbn in *. unfold Serialize_COutPoint, Unserialize_COutPoint. cbn. codec_read_fields.
  - intros s p rest Hs H. unfold Unserialize_COutPoint in H. codec_exact_fields Hs H Serialize_COutPoint.
Qed.

#[local] Opaque Serialize_COutPoint.

Definition txin_wf (i : CTxIn) : Prop :=
  outpoint_wf (prevout i) /\ bytes_wf (scriptSig i) /\ uint_wf 32 (nSequence i).

#[export] Instance codec_txin : Codec Serialize_CTxIn Unserialize_CTxIn txin_wf.
Proof.
  split.
  - intros [] rest (? & ? & ?). cbn in *. unfold Serialize_CTxIn, Unserialize_CTxIn. cbn. codec_read_fields.
  - intros s p rest Hs H. unfold Unserialize_CTxIn in H. codec_exact_fields Hs H Serialize_CTxIn.
Qed.

Definition txout_wf (o : CTxOut) : Prop := sint_wf 64 (nValue o) /\ bytes_wf (scriptPubKey o).

#[export] Instance codec_txout : Codec Serialize_CTxOut Unserialize_CTxOut txout_wf.
Proof.
  split.
  - intros [] rest (? & ?). cbn in *. unfold Serialize_CTxOut, Unserialize_CTxOut. cbn. codec_read_fields.
  - intros s p rest Hs H. unfold Unserialize_CTxOut in H. codec_exact_fields Hs H Serialize_CTxOut.
Qed.

(** The bytes of a proof; the serializer refuses it when its kind is not the expected one. *)
Definition proof_bytes (p : SproutProof) : list Z :=
  match p with PHGR p => Serialize_PHGRProof p | Groth p => Serialize_blob p end.
Definition proof_wf (useGroth : bool) (p : SproutProof) : Prop :=
  match p with
  | PHGR p => useGroth = false /\ PHGR_wf p
  | Groth p => useGroth = true /\ blob_wf GROTH_PROOF_SIZE p
  end.

#[export] Instance codec_proof g : Codec proof_bytes (Unserialize_SproutProof g) (proof_wf g).
Proof.
  split.
  - intros [p|p] rest [-> Hp]; unfold Unserialize_SproutProof; cbn [proof_bytes]; by erewrite rbind_ok by (by apply codec_read).
  - intros s p rest Hs H. unfold Unserialize_SproutProof in H.
    destruct g; apply rbind_some in H as (x & s1 & Hx & [= <- <-]);
      (apply codec_exact in Hx as [Hx ->]; [|done]); done.
Qed.

Lemma Serialize_SproutProof_wf g p : proof_wf g p -> Serialize_SproutProof g p = Some (proof_bytes p).
Proof. by destruct p as [p|p]; intros [-> _]. Qed.

Definition js_bytes (d : JSDescription) : list Z :=
  Serialize_int64 (vpub_old d) ++ Serialize_int64 (vpub_new d) ++ ser256 (js_anchor d) ++
  ser_hashes (nullifiers d) ++ ser_hashes (commitments d) ++ ser256 (js_ephemeralKey d) ++
  ser256 (randomSeed d) ++ ser_hashes (macs d) ++ proof_bytes (js_proof d) ++ ser_hashes (ciphertexts d).

Definition js_wf (header : Z) (d : JSDescription) : Prop :=
  sint_wf 64 (vpub_old d) /\ sint_wf 64 (vpub_new d) /\ blob_wf 32 (js_anchor d) /\
  hashes_wf ZC_NUM_JS_INPUTS (nullifiers d) /\ hashes_wf ZC_NUM_JS_OUTPUTS (commitments d) /\
  blob_wf 32 (js_ephemeralKey d) /\ blob_wf 32 (randomSeed d) /\
  hashes_wf ZC_NUM_JS_INPUTS (macs d) /\ proof_wf (useGroth_of header) (js_proof d) /\
  (length (ciphertexts d) = ZC_NUM_JS_OUTPUTS /\
   Forall (blob_wf NOTE_CIPHERTEXT_SIZE) (ciphertexts d)).

#[local] Instance codec_ciphers n m :
  Codec ser_hashes (Unserialize_array n (Unserialize_blob m)) (fun v => length v = n /\ Forall (blob_wf m) v).
Proof. apply codec_array, codec_blob'. Qed.

#[export] Instance codec_js header : Codec js_bytes (Unserialize_JSDescription header) (js_wf header).
Proof.
  split.
  - intros [] rest (? & ? & ? & ? & ? & ? & ? & ? & ? & ?).
    cbn [vpub_old vpub_new js_anchor nullifiers commitments js_ephemeralKey randomSeed macs js_proof
         ciphertexts] in *.
    unfold js_bytes, Unserialize_JSDescription.
    cbn [vpub_old vpub_new js_anchor nullifiers commitments js_ephemeralKey randomSeed macs js_proof
         ciphertexts]. codec_read_fields.
  - intros s p rest Hs H. unfold Unserialize_JSDescription in H. codec_exact_fields Hs H js_bytes.
Qed.

Lemma Serialize_JSDescription_wf header d :
  js_wf header d -> Serialize_JSDescription header d = Some (js_bytes d).
Proof.
  intros (_ & _ & _ & _ & _ & _ & _ & _ & Hp & _). unfold Serialize_JSDescription.
  by rewrite (Serialize_SproutProof_wf _ _ Hp).
Qed.

Lemma mapM_JSDescription header l : Forall (js_wf header) l ->
  mapM (Serialize_JSDescription header) l = Some (map js_bytes l).
Proof.
  intros Hl. apply mapM_Some. induction Hl as [|d l Hd Hl IH]; constructor; [|done].
  by apply Serialize_JSDescription_wf.
Qed.

(** ** Fields a version may not have *)

Section When.
Context {A : Type} (ser : A -> list Z) (unser : Reader A) (wf : A -> Prop).
Context {C : Codec ser unser wf}.

Lemma read_when_read c old x rest : wf x ->
  read_when c unser old (when c (ser x) ++ rest) = Some (if c then x else old, rest).
Proof. intros Hx. destruct c; [exact (codec_read x rest Hx)|done]. Qed.

Lemma read_when_exact c old s x rest : bytes_ok s -> read_when c unser old s = Some (x, rest) ->
  (c = true -> wf x) /\ s = when c (ser x) ++ rest.
Proof.
  intros Hs H. destruct c; [|by injection H as <- <-].
  apply (codec_exact s x rest Hs) in H as [? ?]. done.
Qed.
End When.

Lemma when_app c l1 l2 : when c (l1 ++ l2) = when c l1 ++ when c l2.
Proof. by destruct c. Qed.
Lemma when_when c d l : when c (when d l) = when (c && d) l.
Proof. by destruct c. Qed.

#[local] Instance codec_vin : Codec (Serialize_vector Serialize_CTxIn) Unserialize_vin (vector_wf txin_wf).
Proof. apply codec_vector; lia || apply _. Qed.
#[local] Instance codec_vout : Codec (Serialize_vector Serialize_CTxOut) Unserialize_vout (vector_wf txout_wf).
Proof. apply codec_vector; lia || apply _. Qed.
#[local] Instance codec_spends :
  Codec (Serialize_vector Serialize_SpendDescription) Unserialize_spends (vector_wf spend_wf).
Proof. apply codec_vector; lia || apply _. Qed.
#[local] Instance codec_outputs :
  Codec (Serialize_vector Serialize_OutputDescription) Unserialize_outputs (vector_wf output_wf).
Proof. apply codec_vector; lia || apply _. Qed.
#[local] Instance codec_joinsplits header :
  Codec (Serialize_vector js_bytes) (Unserialize_vector 1832 (Unserialize_JSDescription header))
    (vector_wf (js_wf header)).
Proof. apply codec_vector; lia || apply _. Qed.

(** What every transaction in memory satisfies by its types, with the bounds of the format. *)
Definition tx_wf (t : tx) : Prop :=
  0 <= nVersion t <= INT32_MAX /\ uint_wf 32 (nVersionGroupId t) /\
  vector_wf txin_wf (vin t) /\ vector_wf txout_wf (vout t) /\ uint_wf 32 (nLockTime t) /\
  uint_wf 32 (nExpiryHeight t) /\ sint_wf 64 (valueBalance t) /\
  vector_wf spend_wf (vShieldedSpend t) /\ vector_wf output_wf (vShieldedOutput t) /\
  vector_wf (js_wf (GetHeader t)) (vjoinsplit t) /\ blob_wf 32 (joinSplitPubKey t) /\
  blob_wf 64 (joinSplitSig t) /\ blob_wf 64 (bindingSig t).

Definition has_js (t : tx) : bool := (nVersion t >=? 2) && (size (vjoinsplit t) >? 0).
Definition has_binding (t : tx) : bool :=
  isSaplingV4 t && negb (no_shielded (vShieldedSpend t) (vShieldedOutput t)).

(** Reading [t] into [t0]: a field the format does not have keeps the value of [t0]. *)
Definition adopt (t0 t : tx) : tx :=
  let v3 := isOverwinterV3 t in
  let v4 := isSaplingV4 t in {|
  fOverwintered := fOverwintered t; nVersion := nVersion t;
  nVersionGroupId := if fOverwintered t then nVersionGroupId t else nVersionGroupId t0;
  vin := vin t; vout := vout t; nLockTime := nLockTime t;
  nExpiryHeight := if v3 || v4 then nExpiryHeight t else nExpiryHeight t0;
  valueBalance := if v4 then valueBalance t else valueBalance t0;
  vShieldedSpend := if v4 then vShieldedSpend t else vShieldedSpend t0;
  vShieldedOutput := if v4 then vShieldedOutput t else vShieldedOutput t0;
  vjoinsplit := if nVersion t >=? 2 then vjoinsplit t else vjoinsplit t0;
  joinSplitPubKey := if has_js t then joinSplitPubKey t else joinSplitPubKey t0;
  joinSplitSig := if has_js t then joinSplitSig t else joinSplitSig t0;
  bindingSig := if has_binding t then bindingSig t else bindingSig t0 |}.

Lemma adopt_same t : adopt t t = t.
Proof.
  unfold adopt. destruct t. cbn. by repeat match goal with |- context [if ?c then ?x else ?x] =>
    replace (if c then x else x) with x by (by destruct c) end.
Qed.

(** ** The header *)

Lemma GetHeader_eq t : 0 <= nVersion t <= INT32_MAX ->
  GetHeader t = nVersion t + (if fOverwintered t then 1 else 0) * 2 ^ 31.
Proof.
  intros Hv. unfold GetHeader. rewrite uwrap_small by lia. destruct (fOverwintered t); [|lia].
  change (2 ^ 31) with (1 * 2 ^ 31) at 1. rewrite lor_add by lia. lia.
Qed.

Lemma GetHeader_decode t : 0 <= nVersion t <= INT32_MAX ->
  uint_wf 32 (GetHeader t) /\ negb (Z.shiftr (GetHeader t) 31 =? 0) = fOverwintered t /\
  Z.land (GetHeader t) INT32_MAX = nVersion t.
Proof.
  intros Hv. rewrite GetHeader_eq by done. split; [|split].
  - unfold uint_wf. destruct (fOverwintered t); lia.
  - rewrite Z.shiftr_div_pow2 by lia. rewrite Z.div_add, Z.div_small by lia. by destruct (fOverwintered t).
  - change INT32_MAX with (Z.ones 31). rewrite Z.land_ones, Z.mod_add, Z.mod_small by lia. done.
Qed.

Lemma header_GetHeader h t : uint_wf 32 h ->
  fOverwintered t = negb (Z.shiftr h 31 =? 0) -> nVersion t = Z.land h INT32_MAX -> GetHeader t = h.
Proof.
  unfold uint_wf. intros Hh HfO Hv. change INT32_MAX with (Z.ones 31) in Hv. rewrite Z.land_ones in Hv by lia.
  pose proof (Z.mod_pos_bound h (2 ^ 31) ltac:(lia)).
  rewrite GetHeader_eq, Hv by lia. rewrite HfO. rewrite Z.shiftr_div_pow2 by lia.
  pose proof (Z.div_mod h (2 ^ 31) ltac:(lia)).
  assert (h / 2 ^ 31 < 2) by (apply Z.div_lt_upper_bound; lia).
  assert (0 <= h / 2 ^ 31) by (apply Z.div_pos; lia).
  destruct (Z.eqb_spec (h / 2 ^ 31) 0); cbn [negb]; lia.
Qed.

(** The bytes of a transaction of a known version, as one sequence of optional fields. *)
Definition tx_bytes (t : tx) : list Z :=
  let v3 := isOverwinterV3 t in
  let v4 := isSaplingV4 t in
  ser_writedata32 (GetHeader t) ++
  when (fOverwintered t) (ser_writedata32 (nVersionGroupId t)) ++
  Serialize_vector Serialize_CTxIn (vin t) ++
  Serialize_vector Serialize_CTxOut (vout t) ++
  ser_writedata32 (nLockTime t) ++
  when (v3 || v4) (ser_writedata32 (nExpiryHeight t)) ++
  when v4 (Serialize_int64 (valueBalance t)) ++
  when v4 (Serialize_vector Serialize_SpendDescription (vShieldedSpend t)) ++
  when v4 (Serialize_vector Serialize_OutputDescription (vShieldedOutput t)) ++
  when (nVersion t >=? 2) (Serialize_vector js_bytes (vjoinsplit t)) ++
  when (has_js t) (Serialize_blob (joinSplitPubKey t)) ++
  when (has_js t) (Serialize_blob (joinSplitSig t)) ++
  when (has_binding t) (Serialize_blob (bindingSig t)).

(** A version the format has. *)
Definition known_version (t : tx) : bool :=
  negb (fOverwintered t && negb (isOverwinterV3 t || isSaplingV4 t)).

Lemma Serialize_tx_bytes t :
  (nVersion t >= 2 -> Forall (js_wf (GetHeader t)) (vjoinsplit t)) ->
  Serialize_tx t = if known_version t then Some (tx_bytes t) else None.
Proof.
  intros Hjs. unfold Serialize_tx, known_version.
  destruct (fOverwintered t && negb (isOverwinterV3 t || isSaplingV4 t)) eqn:E; [done|]. cbn [negb].
  assert (Serialize_joinsplits t = Some (
    when (nVersion t >=? 2) (Serialize_vector js_bytes (vjoinsplit t)) ++
    when (has_js t) (Serialize_blob (joinSplitPubKey t)) ++
    when (has_js t) (Serialize_blob (joinSplitSig t)))) as ->.
  { unfold Serialize_joinsplits, has_js. destruct (nVersion t >=? 2) eqn:Ev; [|done].
    rewrite Z.geb_leb in Ev. apply Z.leb_le in Ev. rewrite mapM_JSDescription by (apply Hjs; lia).
    unfold Serialize_vector. cbn [when andb]. by rewrite when_app, <- !app_assoc. }
  unfold tx_bytes, has_binding. do 2 f_equal. by rewrite !when_app, <- !app_assoc.
Qed.

Lemma Unserialize_tx_read t0 t rest : tx_wf t -> known_version t = true ->
  Unserialize_tx t0 (tx_bytes t ++ rest) = Some (adopt t0 t, rest).
Proof.
  intros (Hv & Hg & Hin & Hout & Hl & He & Hb & Hsp & Ho & Hj & Hk & Hs & Hbs) Hver.
  destruct (GetHeader_decode t Hv) as (Hh & E1 & E2).
  unfold Unserialize_tx, tx_bytes. rewrite <- !app_assoc.
  erewrite rbind_ok by (by apply codec_read). cbv zeta. rewrite E1, E2.
  erewrite rbind_ok by (eapply read_when_read; [apply _ | eassumption]).
  assert (forall v, is_v3 (fOverwintered t) (if fOverwintered t then nVersionGroupId t else v) (nVersion t)
          = isOverwinterV3 t) as -> by (intros v; unfold isOverwinterV3, is_v3; by destruct (fOverwintered t)).
  assert (forall v, is_v4 (fOverwintered t) (if fOverwintered t then nVersionGroupId t else v) (nVersion t)
          = isSaplingV4 t) as -> by (intros v; unfold isSaplingV4, is_v4; by destruct (fOverwintered t)).
  unfold known_version in Hver. apply negb_true_iff in Hver. rewrite Hver.
  do 3 erewrite rbind_ok by (by apply codec_read).
  do 5 (erewrite rbind_ok by (eapply read_when_read; [apply _ | eassumption])).
  assert ((nVersion t >=? 2) && (size (if nVersion t >=? 2 then vjoinsplit t else vjoinsplit t0) >? 0)
          = has_js t) as -> by (unfold has_js; by destruct (nVersion t >=? 2)).
  assert (isSaplingV4 t && negb (no_shielded (if isSaplingV4 t then vShieldedSpend t else vShieldedSpend t0)
            (if isSaplingV4 t then vShieldedOutput t else vShieldedOutput t0)) = has_binding t) as ->
    by (unfold has_binding; by destruct (isSaplingV4 t)).
  do 3 (erewrite rbind_ok by (eapply read_when_read; [apply _ | eassumption])). done.
Qed.

Lemma rret_some {A} (a b : A) s s' : rret a s = Some (b, s') -> b = a /\ s = s'.
Proof. unfold rret. by intros [= -> ->]. Qed.

(** What the header decides about a transaction just read. *)
Lemma read_header h t : uint_wf 32 h ->
  fOverwintered t = negb (Z.shiftr h 31 =? 0) -> nVersion t = Z.land h INT32_MAX ->
  GetHeader t = h /\ 0 <= nVersion t <= INT32_MAX.
Proof.
  intros Hh HfO Hv. split; [by apply header_GetHeader|]. rewrite Hv.
  change (Z.land h INT32_MAX) with (Z.land h (Z.ones 31)). rewrite Z.land_ones by lia.
  pose proof (Z.mod_pos_bound h (2 ^ 31) ltac:(lia)). lia.
Qed.

Lemma Unserialize_tx_exact t0 s t rest : bytes_ok s -> Unserialize_tx t0 s = Some (t, rest) ->
  known_version t = true /\ s = tx_bytes t ++ rest /\
  (nVersion t >= 2 -> Forall (js_wf (GetHeader t)) (vjoinsplit t)).
Proof.
  intros Hs H. unfold Unserialize_tx in H.
  apply rbind_some in H as (h & s1 & Hh & H). apply codec_exact in Hh as [Hh ->]; [|exact Hs].
  apply bytes_ok_app_inv in Hs. cbv zeta in H.
  apply rbind_some in H as (g & s2 & Hg & H). apply (read_when_exact _ _ (uint_wf 32)) in Hg as [_ ->]; [|exact Hs].
  apply bytes_ok_app_inv in Hs.
  destruct (negb (Z.shiftr h 31 =? 0) && _) eqn:Ever in H; [done|].
  do 3 (apply rbind_some in H as (? & ? & Hx & H); apply codec_exact in Hx as [? ->]; [|exact Hs];
        apply bytes_ok_app_inv in Hs).
  do 8 (apply rbind_some in H as (? & ? & Hx & H);
        match type of Hx with read_when ?c ?u ?old ?s0 = Some (?x, ?r) =>
          pose proof (read_when_exact _ u _ c old s0 x r Hs Hx) as [? ->]; clear Hx end;
        apply bytes_ok_app_inv in Hs).
  apply rret_some in H as [-> ->]. set (t := {| fOverwintered := _ |}).
  destruct (read_header h t Hh eq_refl eq_refl) as [Eh _].
  split; [|split].
  - unfold known_version. apply negb_true_iff. exact Ever.
  - unfold tx_bytes. rewrite Eh, <- !app_assoc. reflexivity.
  - intros Hv. rewrite Eh. change (Z.land h INT32_MAX >= 2) in Hv.
    match goal with Hj : (_ >=? 2) = true -> vector_wf _ _ |- _ => apply Hj end.
    rewrite Z.geb_leb. apply Z.leb_le. lia.
Qed.

(** A transaction read into a new object is well formed, and the fields its version does not have
    keep the values of a new object. *)
Lemma read_when_wf {A} ser unser (wf : A -> Prop) {C : Codec ser unser wf} c old s x rest : bytes_ok s -> wf old ->
  read_when c unser old s = Some (x, rest) -> wf x /\ (if c then x else old) = x /\ bytes_ok rest.
Proof.
  intros Hs Ho H. pose proof (read_when_exact ser unser wf c old s x rest Hs H) as [Hx ->].
  apply bytes_ok_app_inv in Hs. destruct c; [by split; [apply Hx|]|]. by injection H as <-.
Qed.

Lemma tx_default_wf : tx_wf tx_default.
Proof. unfold tx_wf. repeat split; try done; try (by apply (bool_decide_unpack _)); cbn; unfold size_wf, MAX_SIZE; try lia; try constructor. Qed.

Lemma Unserialize_tx_default s t rest : bytes_ok s -> Unserialize_tx tx_default s = Some (t, rest) ->
  tx_wf t /\ adopt tx_default t = t.
Proof.
  intros Hs H. pose proof (proj1 (Unserialize_tx_exact _ _ _ _ Hs H)) as Hk. unfold Unserialize_tx in H.
  destruct tx_default_wf as (_ & Dg & Din & Dout & Dl & De & Db & Dsp & Do & _ & Dk & Ds & Dbs).
  apply rbind_some in H as (h & s1 & Hh & H). apply codec_exact in Hh as [Hh ->]; [|exact Hs].
  apply bytes_ok_app_inv in Hs. cbv zeta in H.
  apply rbind_some in H as (g & s2 & Hg & H).
  destruct (read_when_wf _ _ (uint_wf 32) _ _ _ _ _ Hs Dg Hg) as (Wg & Eg & Hs2). clear Hg Hs.
  destruct (negb (Z.shiftr h 31 =? 0) && _) eqn:Ever in H; [done|].
  do 3 (apply rbind_some in H as (? & ? & Hx & H); apply codec_exact in Hx as [? ->]; [|exact Hs2];
        apply bytes_ok_app_inv in Hs2).
  assert (vector_wf (js_wf h) (vjoinsplit tx_default)) as Dj by (split; [unfold size_wf, MAX_SIZE; cbn; lia|constructor]).
  do 8 (let s := fresh "s" in apply rbind_some in H as (? & s & Hx & H); let Hs3 := fresh "Hs" in
        eapply read_when_wf in Hx as (? & ? & Hs3); [|apply _|exact Hs2|assumption]; clear Hs2; rename Hs3 into Hs2).
  apply rret_some in H as [-> ->]. set (t := {| fOverwintered := _ |}).
  destruct (read_header h t Hh eq_refl eq_refl) as [Eh Hv].
  split.
  - unfold tx_wf. rewrite Eh. repeat (split; [first [exact Hv|assumption]|]). assumption.
  - unfold adopt, t, has_js, has_binding, isOverwinterV3, isSaplingV4. cbn. f_equal; try assumption.
Qed.


(** ** Sums of amounts *)

(** The guarded accumulation is the exact sum, or an exception. *)
Lemma add_in_range_sum MAX l : 0 <= MAX < 2 ^ 62 -> Forall (sint_wf 64) l -> forall n, 0 <= n <= MAX ->
  fold_left (add_in_range MAX) l (Some n) =
  if forallb (MoneyRange MAX) l && (n + foldr Z.add 0 l <=? MAX)
  then Some (n + foldr Z.add 0 l) else None.
Proof.
  intros HM. assert (forall l, fold_left (add_in_range MAX) l None = None) as HN
    by (intros l'; induction l' as [|y l' IH]; [done|exact IH]).
  assert (forall k, forallb (MoneyRange MAX) k = true -> 0 <= foldr Z.add 0 k) as Hpos.
  { induction k as [|y l' IH]; cbn [forallb foldr]; [lia|]. intros Hr. apply andb_true_iff in Hr as [H1 H2].
    apply MoneyRange_spec in H1. apply IH in H2. lia. }
  intros Hl. induction Hl as [|x l Hx Hl IH]; intros n Hn; cbn [fold_left forallb foldr].
  - rewrite Z.add_0_r. by destruct (Z.leb_spec n MAX); [|lia].
  - unfold add_in_range at 2. destruct (MoneyRange MAX x) eqn:Ex; cbn [negb orb andb]; [|apply HN].
    unfold MoneyRange in Ex. propify. rewrite swrap_small by lia.
    destruct (MoneyRange MAX (n + x)) eqn:En; cbn [negb].
    + unfold MoneyRange in En. propify. rewrite IH by lia. by rewrite Z.add_assoc.
    + rewrite HN. destruct (forallb _ l) eqn:Ef; [|done]. apply Hpos in Ef. unfold MoneyRange in En.
      destruct (Z.leb_spec (n + (x + foldr Z.add 0 l)) MAX); [|done].
      apply andb_false_iff in En as [En | En]; propify; lia.
Qed.

(** The components of the value out and of the shielded value in. *)
Definition values_out (t : tx) : list Z :=
  map nValue (vout t) ++ (if valueBalance t <=? 0 then [- valueBalance t] else []) ++ map vpub_old (vjoinsplit t).
Definition shielded_values_in (t : tx) : list Z :=
  (if valueBalance t >=? 0 then [valueBalance t] else []) ++ map vpub_new (vjoinsplit t).

Definition checked_sum (MAX : Z) (l : list Z) : option Z :=
  if forallb (MoneyRange MAX) l && (foldr Z.add 0 l <=? MAX) then Some (foldr Z.add 0 l) else None.

Lemma add_in_range_checked MAX l : 0 <= MAX < 2 ^ 62 -> Forall (sint_wf 64) l ->
  fold_left (add_in_range MAX) l (Some 0) = checked_sum MAX l.
Proof. intros HM Hl. by rewrite (add_in_range_sum MAX l HM Hl 0) by lia. Qed.

(** * Properties *)

(** [C24] Transactions read back what was written, in every version of the format (plain,
    JoinSplits from version 2, Overwinter, Sapling): whatever object the reader starts from, the
    fields the version has get the written values and the others are left as they were; and a
    transaction of an unknown overwintered version is refused by the writer. *)
Theorem tx_round_trip t0 t rest : tx_wf t ->
  (known_version t = true -> exists b,
     Serialize_tx t = Some b /\ Unserialize_tx t0 (b ++ rest) = Some (adopt t0 t, rest)) /\
  (known_version t = false -> Serialize_tx t = None).
Proof.
  intros Hw. assert (Forall (js_wf (GetHeader t)) (vjoinsplit t)) as Hj by apply Hw.
  rewrite (Serialize_tx_bytes t (fun _ => Hj)). split; intros E; rewrite E; [|done].
  exists (tx_bytes t). split; [done|]. by apply Unserialize_tx_read.
Qed.

(** The format is not malleable at the byte level: the bytes the reader accepts as a
    transaction are exactly the bytes the writer produces for it, so two serializations of the
    same transaction are equal and its hash is that of the bytes received. *)
Theorem tx_bytes_canonical t0 s t rest : bytes_ok s -> Unserialize_tx t0 s = Some (t, rest) ->
  exists b, Serialize_tx t = Some b /\ s = b ++ rest /\
    SerializeHash t = Some (Hash (take (length s - length rest) s)).
Proof.
  intros Hs H. apply (Unserialize_tx_exact t0 s t rest Hs) in H as (Hver & -> & Hj).
  exists (tx_bytes t). unfold SerializeHash. rewrite (Serialize_tx_bytes t Hj), Hver.
  split; [done|]. split; [done|].
  rewrite length_app, Nat.add_sub, take_app_length. done.
Qed.

(** [GetValueOut] and [GetShieldedValueIn] neither overflow nor wrap: for every
    [MAX_MONEY] below 2^62 each returns the exact sum of its components when every component
    is in the money range and the sum is at most [MAX_MONEY], and throws otherwise. *)
Theorem value_sums_checked MAX_MONEY t : 0 <= MAX_MONEY < 2 ^ 62 ->
  Forall (fun o => sint_wf 64 (nValue o)) (vout t) ->
  Forall (fun d => sint_wf 64 (vpub_old d) /\ sint_wf 64 (vpub_new d)) (vjoinsplit t) ->
  - 2 ^ 63 < valueBalance t < 2 ^ 63 ->
  GetValueOut MAX_MONEY t = checked_sum MAX_MONEY (values_out t) /\
  GetShieldedValueIn MAX_MONEY t = checked_sum MAX_MONEY (shielded_values_in t).
Proof.
  intros HM Ho Hj Hb. apply Forall_and in Hj as [Hj1 Hj2].
  assert (Forall (sint_wf 64) (values_out t) /\ Forall (sint_wf 64) (shielded_values_in t)) as [Hv1 Hv2].
  { unfold values_out, shielded_values_in. rewrite !Forall_app, !Forall_fmap. repeat split; try assumption;
      case_match; repeat constructor; unfold sint_wf; lia. }
  rewrite <- (add_in_range_checked _ _ HM Hv1), <- (add_in_range_checked _ _ HM Hv2).
  unfold GetValueOut, GetShieldedValueIn, values_out, shielded_values_in. rewrite !fold_left_app.
  split; case_match; cbn [fold_left]; try done. by rewrite swrap_small by lia.
Qed.

(** A transaction built by the move constructor loses its binding signature, unlike one
    built by the copy constructor or read in place: a Sapling transaction with a shielded part
    whose signature is not zero gets another serialization.  The deserializing constructor
    goes through the move constructor. *)
Theorem move_drops_bindingSig t m s rest : tx_wf t -> has_binding t = true ->
  bindingSig t <> replicate 64 0 -> Unserialize_tx m s = Some (t, rest) ->
  exists c, CTransaction_deserialize m s = Some (c, rest) /\
    bindingSig (ct_tx c) = replicate 64 0 /\ Serialize_tx (ct_tx c) <> Serialize_tx t /\
    (exists c', CTransaction_copy t = Some c' /\ ct_tx c' = t).
Proof.
  intros Hw Hbind Hne Hr. assert (known_version t = true) as Hver.
  { unfold known_version. unfold has_binding in Hbind. propify. by rewrite H, orb_true_r, andb_false_r. }
  assert (forall u, vjoinsplit u = vjoinsplit t -> GetHeader u = GetHeader t -> known_version u = true ->
    Serialize_tx u = Some (tx_bytes u)) as Hser.
  { intros u E1 E2 E3. rewrite Serialize_tx_bytes, E3; [done|]. intros _. rewrite E1, E2. apply Hw. }
  unfold CTransaction_deserialize, CTransaction_copy, CTransaction_move, with_hash, SerializeHash.
  rewrite Hr, (Hser (moved t)), (Hser t) by done. eexists. split; [reflexivity|].
  split; [reflexivity|]. split; [|eexists; done]. cbn [ct_tx]. rewrite (Hser (moved t)) by done.
  intros [= E]. apply Hne. unfold tx_bytes in E.
  change (has_binding (moved t)) with (has_binding t) in E. rewrite Hbind in E. cbn [when moved bindingSig] in E.
  repeat apply app_inv_head in E. by symmetry.
Qed.

(** ** Witnesses *)

Definition sample_in : CTxIn :=
  {| prevout := {| op_hash := replicate 32 7; op_n := 1 |}; scriptSig := [81]; nSequence := 5 |}.
Definition sample_out : CTxOut := {| nValue := 5000; scriptPubKey := [118; 169] |}.
Definition sample_spend : SpendDescription :=
  {| sd_cv := replicate 32 1; sd_anchor := replicate 32 2; sd_nullifier := replicate 32 3;
     sd_rk := replicate 32 4; sd_zkproof := replicate 192 5; sd_spendAuthSig := replicate 64 6 |}.
Definition sample_tx : tx := {|
  fOverwintered := true; nVersion := 4; nVersionGroupId := SAPLING_VERSION_GROUP_ID;
  vin := [sample_in]; vout := [sample_out]; nLockTime := 9; nExpiryHeight := 11; valueBalance := 20;
  vShieldedSpend := [sample_spend]; vShieldedOutput := []; vjoinsplit := [];
  joinSplitPubKey := replicate 32 0; joinSplitSig := replicate 64 0; bindingSig := replicate 64 8 |}.

Ltac wf_compute :=
  match goal with
  | |- bytes_ok _ => apply (bool_decide_unpack _); vm_compute; exact I
  | |- Forall is_byte _ => apply (bool_decide_unpack _); vm_compute; exact I
  | |- length _ = _ => reflexivity
  | |- _ <= _ => vm_compute; intro; discriminate
  | |- _ < _ => vm_compute; reflexivity
  | |- Forall _ _ => repeat first [apply Forall_cons_2; [assumption|] | apply Forall_nil_2]
  end.

Lemma sample_tx_wf : tx_wf sample_tx.
Proof.
  assert (txin_wf sample_in) by (repeat split; wf_compute).
  assert (txout_wf sample_out) by (repeat split; wf_compute).
  assert (spend_wf sample_spend) by (repeat split; wf_compute).
  repeat split; cbn [vin vout vShieldedSpend vShieldedOutput vjoinsplit sample_tx];
    wf_compute.
Qed.

Lemma sample_tx_reads : exists b, Serialize_tx sample_tx = Some b /\ Unserialize_tx tx_default b = Some (sample_tx, []).
Proof.
  exists (tx_bytes sample_tx). split.
  - rewrite Serialize_tx_bytes by (intros _; apply sample_tx_wf). reflexivity.
  - rewrite <- (app_nil_r (tx_bytes _)). exact (Unserialize_tx_read tx_default sample_tx [] sample_tx_wf eq_refl).
Qed.

Lemma tx_round_trip_witness :
  exists b, Serialize_tx sample_tx = Some b /\
    Unserialize_tx tx_default (b ++ [1; 2]) = Some (adopt tx_default sample_tx, [1; 2]).
Proof. apply (tx_round_trip tx_default sample_tx [1; 2] sample_tx_wf). reflexivity. Defined.

Lemma tx_bytes_canonical_witness :
  exists b, Serialize_tx tx_default = Some b /\ [1; 0; 0; 0; 0; 0; 0; 0; 0; 0] = b ++ [] /\
    SerializeHash tx_default = Some (Hash [1; 0; 0; 0; 0; 0; 0; 0; 0; 0]).
Proof.
  apply (tx_bytes_canonical tx_default [1; 0; 0; 0; 0; 0; 0; 0; 0; 0] tx_default []).
  - wf_compute.
  - vm_compute. reflexivity.
Defined.

Lemma value_sums_checked_witness :
  GetValueOut 2000000 sample_tx = checked_sum 2000000 (values_out sample_tx) /\
  GetShieldedValueIn 2000000 sample_tx = checked_sum 2000000 (shielded_values_in sample_tx).
Proof.
  apply (value_sums_checked 2000000 sample_tx); try (repeat constructor; cbn; unfold sint_wf; lia).
  all: cbn; lia.
Defined.

Example value_out_of_sample :
  GetValueOut 2000000 sample_tx = Some 5000 /\ GetShieldedValueIn 2000000 sample_tx = Some 20 /\
  GetValueOut 4999 sample_tx = None.
Proof. by vm_compute. Qed.

Lemma move_drops_bindingSig_witness : exists s c,
  CTransaction_deserialize tx_default s = Some (c, []) /\ bindingSig (ct_tx c) = replicate 64 0.
Proof.
  destruct sample_tx_reads as (b & _ & Hr). exists b.
  destruct (move_drops_bindingSig sample_tx tx_default b [] sample_tx_wf) as (c & H1 & H2 & _).
  - reflexivity.
  - discriminate.
  - exact Hr.
  - exists c. split; assumption.
Defined.
