(* ===== verification/Pubkey.v ===== *)
(** * Pubkey: public keys of [src/src/pubkey.h] and [src/src/pubkey.cpp]
    [CPubKey] is an array of 65 bytes whose first byte decides how many of them are the key.
    libsecp256k1 is not part of the program: the class [Secp256k1] has the functions the code
    calls, and [Secp256k1Laws] the documented behaviour the theorems rely on. *)
From S2P Require Import Prelude Endian Uint256 Hash ScriptNum Opcode Script Serialize.

Definition PUBLIC_KEY_SIZE : Z := 65.
Definition COMPRESSED_PUBLIC_KEY_SIZE : Z := 33.
Definition COMPACT_SIGNATURE_SIZE : Z := 65.
Definition BIP32_EXTKEY_SIZE : Z := 74.

(** ** The library *)

(** The functions of libsecp256k1 the code calls; a result of 0 is [None] or [false].
    [signature_normalize] returns the normalised signature and whether it changed. *)
Class Secp256k1 := {
  ec_pubkey : Type;
  ec_signature : Type;
  ec_recoverable : Type;
  ec_pubkey_parse : list Z -> option ec_pubkey;
  ec_pubkey_serialize : bool -> ec_pubkey -> list Z;
  signature_parse_der : list Z -> option ec_signature;
  signature_normalize : ec_signature -> ec_signature * bool;
  ecdsa_verify : ec_signature -> list Z -> ec_pubkey -> bool;
  recoverable_parse_compact : list Z -> Z -> option ec_recoverable;
  ecdsa_recover : ec_recoverable -> list Z -> option ec_pubkey
}.

(** A serialized key has the length and the header of its format, and parses to the key. *)
Class Secp256k1Laws (E : Secp256k1) : Prop := {
  serialize_compressed : forall p, exists h x,
    ec_pubkey_serialize true p = h :: x /\ (h = 2 \/ h = 3) /\ length x = 32%nat;
  serialize_uncompressed : forall p, exists x,
    ec_pubkey_serialize false p = 4 :: x /\ length x = 64%nat;
  parse_serialize : forall c p, ec_pubkey_parse (ec_pubkey_serialize c p) = Some p;
  normalize_idempotent : forall s, snd (signature_normalize (fst (signature_normalize s))) = false
}.

Module CPubKey.

(** [vch], always 65 bytes. *)
Definition pubkey : Type := list Z.

Definition GetLen (chHeader : Z) : Z :=
  if (chHeader =? 2) || (chHeader =? 3) then COMPRESSED_PUBLIC_KEY_SIZE
  else if (chHeader =? 4) || (chHeader =? 6) || (chHeader =? 7) then PUBLIC_KEY_SIZE
  else 0.

(** [vch[0] = 0xFF] *)
Definition Invalidate (vch : pubkey) : pubkey := 255 :: tl vch.

Definition ValidSize (v : list Z) : bool := (Script.size v >? 0) && (GetLen (hd 0 v) =? Script.size v).

(** [memcpy(vch, src, n)] *)
Definition overwrite (vch src : list Z) : list Z := src ++ drop (length src) vch.

(** [Set(pbegin, pend)] over the range [r]. *)
Definition Set_ (vch : pubkey) (r : list Z) : pubkey :=
  let len := match r with [] => 0 | h :: _ => GetLen h end in
  if negb (len =? 0) && (len =? Script.size r) then overwrite vch (take (Z.to_nat len) r)
  else Invalidate vch.

(** The constructors, over the bytes [vch0] the array holds. *)
Definition make (vch0 : pubkey) : pubkey := Invalidate vch0.
Definition of_range (vch0 : pubkey) (r : list Z) : pubkey := Set_ vch0 r.

Definition size (vch : pubkey) : Z := GetLen (hd 0 vch).
(** The range from [begin()] to [end()]. *)
Definition data (vch : pubkey) : list Z := take (Z.to_nat (size vch)) vch.

Definition eq (a b : pubkey) : bool :=
  (hd 0 a =? hd 0 b) && (base_blob.memcmp (data a) (take (Z.to_nat (size a)) b) =? 0).
Definition lt (a b : pubkey) : bool :=
  (hd 0 a <? hd 0 b) ||
  ((hd 0 a =? hd 0 b) && (base_blob.memcmp (data a) (take (Z.to_nat (size a)) b) <? 0)).

Definition Serialize (vch : pubkey) : list Z := WriteCompactSize (size vch) ++ data vch.

(** [Unserialize] into [vch]. *)
Definition Unserialize (vch : pubkey) : Reader pubkey :=
  len <-- ReadCompactSize ;;
  if len <=? PUBLIC_KEY_SIZE then b <-- read_bytes len ;; rret (overwrite vch b)
  else _ <-- read_bytes len ;; rret (Invalidate vch).

Definition GetID (vch : pubkey) : list Z := Hash160 (data vch).
Definition GetHash (vch : pubkey) : list Z := Hash (data vch).
Definition IsValid (vch : pubkey) : bool := size vch >? 0.
Definition IsCompressed (vch : pubkey) : bool := size vch =? COMPRESSED_PUBLIC_KEY_SIZE.

Section Secp.
Context {E : Secp256k1}.

Definition IsFullyValid (vch : pubkey) : bool :=
  if negb (IsValid vch) then false
  else match ec_pubkey_parse (data vch) with Some _ => true | None => false end.

Definition Verify (vch : pubkey) (hash vchSig : list Z) : bool :=
  if negb (IsValid vch) then false
  else match ec_pubkey_parse (data vch) with
  | None => false
  | Some pubkey =>
      if Script.size vchSig =? 0 then false
      else match signature_parse_der vchSig with
      | None => false
      | Some sig => ecdsa_verify (fst (signature_normalize sig)) hash pubkey
      end
  end.

Definition CheckLowS (vchSig : list Z) : bool :=
  match signature_parse_der vchSig with
  | None => false
  | Some sig => negb (snd (signature_normalize sig))
  end.

(** The result and the key after the call. *)
Definition RecoverCompact (vch : pubkey) (hash vchSig : list Z) : bool * pubkey :=
  if negb (Script.size vchSig =? COMPACT_SIGNATURE_SIZE) then (false, vch)
  else
    let recid := Z.land (hd 0 vchSig - 27) 3 in
    let fComp := negb (Z.land (hd 0 vchSig - 27) 4 =? 0) in
    match recoverable_parse_compact (tl vchSig) recid with
    | None => (false, vch)
    | Some sig =>
        match ecdsa_recover sig hash with
        | None => (false, vch)
        | Some pubkey => (true, Set_ vch (ec_pubkey_serialize fComp pubkey))
        end
    end.

Definition Decompress (vch : pubkey) : bool * pubkey :=
  if negb (IsValid vch) then (false, vch)
  else match ec_pubkey_parse (data vch) with
  | None => (false, vch)
  | Some pubkey => (true, Set_ vch (ec_pubkey_serialize false pubkey))
  end.
End Secp.
End CPubKey.

(** ** Extended keys *)

Record CExtPubKey := {
  nDepth : Z; vchFingerprint : list Z; nChild : Z; chaincode : list Z; ext_pubkey : CPubKey.pubkey
}.

(** [Encode]; [None] is the assertion that the key is compressed. *)
Definition CExtPubKey_Encode (k : CExtPubKey) : option (list Z) :=
  let n := nChild k in
  if CPubKey.size (ext_pubkey k) =? COMPRESSED_PUBLIC_KEY_SIZE then
    Some ([nDepth k] ++ vchFingerprint k ++
          [Z.land (Z.shiftr n 24) 255; Z.land (Z.shiftr n 16) 255;
           Z.land (Z.shiftr n 8) 255; Z.land (Z.shiftr n 0) 255] ++
          chaincode k ++ take 33 (ext_pubkey k))
  else None.

(** [Decode] into a key whose array of bytes is [vch0]. *)
Definition CExtPubKey_Decode (vch0 : CPubKey.pubkey) (code : list Z) : CExtPubKey := {|
  nDepth := nth 0 code 0; vchFingerprint := take 4 (drop 1 code);
  nChild := u32 (Z.lor (Z.lor (Z.lor (Z.shiftl (nth 5 code 0) 24) (Z.shiftl (nth 6 code 0) 16))
                              (Z.shiftl (nth 7 code 0) 8)) (nth 8 code 0));
  chaincode := take 32 (drop 9 code);
  ext_pubkey := CPubKey.Set_ vch0 (drop 41 code) |}.

Definition CExtPubKey_Serialize (k : CExtPubKey) : option (list Z) :=
  match CExtPubKey_Encode k with
  | Some code => Some (WriteCompactSize BIP32_EXTKEY_SIZE ++ code)
  | None => None
  end.

Definition CExtPubKey_Unserialize (vch0 : CPubKey.pubkey) : Reader CExtPubKey :=
  len <-- ReadCompactSize ;;
  if negb (len =? BIP32_EXTKEY_SIZE) then rfail
  else code <-- read_bytes len ;; rret (CExtPubKey_Decode vch0 code).

(** ** Lemmas *)

Definition key_wf (vch : CPubKey.pubkey) : Prop := length vch = 65%nat /\ bytes_ok vch.

Lemma GetLen_cases h : CPubKey.GetLen h = 0 \/ CPubKey.GetLen h = 33 \/ CPubKey.GetLen h = 65.
Proof.
  unfold CPubKey.GetLen, COMPRESSED_PUBLIC_KEY_SIZE, PUBLIC_KEY_SIZE.
  destruct (_ || _); [by auto|]. destruct (_ || _); auto.
Qed.

Lemma overwrite_length vch src : (length src <= length vch)%nat ->
  length (CPubKey.overwrite vch src) = length vch.
Proof. intros H. unfold CPubKey.overwrite. rewrite length_app, length_drop. lia. Qed.

(** What [Set] leaves behind: the bytes given, or an invalid key. *)
Lemma Set_valid vch r : length vch = 65%nat -> CPubKey.ValidSize r = true ->
  CPubKey.size (CPubKey.Set_ vch r) = Script.size r /\ CPubKey.data (CPubKey.Set_ vch r) = r /\
  length (CPubKey.Set_ vch r) = 65%nat.
Proof.
  intros Hvch Hr. unfold CPubKey.ValidSize in Hr. propify.
  destruct r as [|h r]; [done|]. cbn [hd] in *.
  assert (CPubKey.Set_ vch (h :: r) = CPubKey.overwrite vch (h :: r)) as ->.
  { unfold CPubKey.Set_. rewrite H0, Z.eqb_refl, andb_true_r.
    destruct (Z.eqb_spec (Script.size (h :: r)) 0); [lia|]. cbn [negb].
    rewrite take_ge by (unfold Script.size; lia). done. }
  pose proof (GetLen_cases h). unfold CPubKey.data, CPubKey.size.
  change (hd 0 (CPubKey.overwrite vch (h :: r))) with h. rewrite H0. split; [done|].
  assert (length (h :: r) <= 65)%nat by (unfold Script.size in *; lia).
  split; [|rewrite overwrite_length; lia].
  unfold CPubKey.overwrite, Script.size. rewrite Nat2Z.id. apply take_app_length.
Qed.

Lemma Set_invalid vch r : CPubKey.ValidSize r = false -> CPubKey.IsValid (CPubKey.Set_ vch r) = false.
Proof.
  intros Hr. unfold CPubKey.Set_. destruct r as [|h r]; [done|].
  unfold CPubKey.ValidSize in Hr. cbn [hd] in Hr.
  destruct (Z.eqb_spec (CPubKey.GetLen h) (Script.size (h :: r))); [|by rewrite andb_false_r].
  rewrite andb_true_r in Hr. rewrite e, Z.gtb_ltb in *. apply Z.ltb_ge in Hr.
  rewrite size_cons in Hr. pose proof (size_nonneg r). lia.
Qed.

Lemma data_length vch : length vch = 65%nat -> Z.of_nat (length (CPubKey.data vch)) = CPubKey.size vch.
Proof.
  intros Hl. pose proof (GetLen_cases (hd 0 vch)). unfold CPubKey.data, CPubKey.size. rewrite length_take. lia.
Qed.

(** A valid key has a first byte, and it is the first of its data. *)
Lemma data_cons vch : length vch = 65%nat -> CPubKey.IsValid vch = true ->
  exists x, CPubKey.data vch = hd 0 vch :: x.
Proof.
  intros Hl Hv. unfold CPubKey.IsValid in Hv. propify. unfold CPubKey.data, CPubKey.size in *.
  destruct vch as [|h v]; [done|]. destruct (Z.to_nat _) as [|n] eqn:E; [lia|]. cbn [hd take]. by eexists.
Qed.

Lemma eq_data a b : length a = 65%nat -> length b = 65%nat -> CPubKey.IsValid a = true ->
  CPubKey.eq a b = true <-> CPubKey.data a = CPubKey.data b.
Proof.
  intros Ha Hb Hv. unfold CPubKey.eq. rewrite andb_true_iff, !Z.eqb_eq.
  pose proof (data_length a Ha). pose proof (GetLen_cases (hd 0 a)).
  rewrite memcmp_eq by (rewrite length_take; unfold CPubKey.size in *; lia).
  unfold CPubKey.size. split.
  - intros [E ->]. unfold CPubKey.data, CPubKey.size. by rewrite E.
  - intros E. destruct (data_cons a Ha Hv) as [x Ea].
    assert (hd 0 a = hd 0 b) as Eh; [|split; [done|rewrite E; unfold CPubKey.data, CPubKey.size; by rewrite Eh]].
    rewrite Ea in E. unfold CPubKey.data in E. destruct b as [|h' b]; [done|].
    destruct (Z.to_nat _) as [|n]; [done|]. by injection E.
Qed.

(** Copying the data of a valid key over another array gives a key with the same data. *)
Lemma overwrite_data vch vch0 : length vch = 65%nat -> CPubKey.IsValid vch = true ->
  CPubKey.data (CPubKey.overwrite vch0 (CPubKey.data vch)) = CPubKey.data vch.
Proof.
  intros Hl Hv. destruct (data_cons vch Hl Hv) as [x Ex].
  assert (CPubKey.size (CPubKey.overwrite vch0 (CPubKey.data vch)) = CPubKey.size vch) as E.
  { unfold CPubKey.size at 1. by rewrite Ex. }
  unfold CPubKey.data at 1. rewrite E, <- (data_length vch Hl), Nat2Z.id. apply take_app_length.
Qed.

(** * Properties *)

(** [CPubKey] as a container: a range becomes a valid key exactly when its length is the one
    its header byte asks for, and the key is then that range; a valid key read back from its own
    serialization, into whatever array, holds the same bytes; and equality of keys is equality of
    their bytes. *)
Theorem pubkey_holds_bytes vch r : length vch = 65%nat ->
  (CPubKey.IsValid (CPubKey.Set_ vch r) = CPubKey.ValidSize r) /\
  (CPubKey.ValidSize r = true -> CPubKey.data (CPubKey.Set_ vch r) = r) /\
  (CPubKey.IsValid vch = true -> forall vch0 rest, length vch0 = 65%nat -> exists vch',
     CPubKey.Unserialize vch0 (CPubKey.Serialize vch ++ rest) = Some (vch', rest) /\
     CPubKey.data vch' = CPubKey.data vch) /\
  (forall b, length b = 65%nat -> CPubKey.IsValid vch = true ->
     CPubKey.eq vch b = true <-> CPubKey.data vch = CPubKey.data b).
Proof.
  intros Hl. split; [|split; [|split]].
  - destruct (CPubKey.ValidSize r) eqn:Hr; [|by apply Set_invalid].
    unfold CPubKey.IsValid. destruct (Set_valid vch r Hl Hr) as [-> _].
    unfold CPubKey.ValidSize in Hr. by apply andb_true_iff in Hr as [-> _].
  - intros Hr. by apply Set_valid.
  - intros Hv vch0 rest Hl0. pose proof (GetLen_cases (hd 0 vch)) as Hc.
    unfold CPubKey.Serialize, CPubKey.Unserialize. rewrite <- app_assoc.
    erewrite rbind_ok by (apply codec_read; unfold size_wf, MAX_SIZE, CPubKey.size; lia).
    destruct (Z.leb_spec (CPubKey.size vch) PUBLIC_KEY_SIZE) as [Hle|Hgt];
      [|unfold PUBLIC_KEY_SIZE, CPubKey.size in Hgt; lia].
    erewrite rbind_ok by (by apply read_bytes_app, data_length).
    eexists. split; [reflexivity|]. by apply overwrite_data.
  - intros b Hb Hv. by apply eq_data.
Qed.

Lemma pubkey_holds_bytes_witness : exists vch',
  CPubKey.Unserialize (replicate 65 9) (CPubKey.Serialize (2 :: replicate 64 5) ++ [1]) = Some (vch', [1]) /\
  CPubKey.data vch' = 2 :: replicate 32 5.
Proof. by apply (pubkey_holds_bytes (2 :: replicate 64 5) [] eq_refl). Defined.

(** [Unserialize] checks the length against the size of the array only, not against the
    header it has just read: from a length of 1 and a header of 2 it makes a key that counts as
    valid and whose other 32 bytes are those the object held before. *)
Theorem pubkey_Unserialize_stale vch rest : length vch = 65%nat ->
  exists vch', CPubKey.Unserialize vch ([1; 2] ++ rest) = Some (vch', rest) /\
    CPubKey.IsValid vch' = true /\ CPubKey.data vch' = 2 :: take 32 (tl vch).
Proof.
  intros Hl. exists (2 :: tl vch). split; [|split].
  - unfold CPubKey.Unserialize.
    rewrite (rbind_ok _ _ _ 1 ([2] ++ rest)) by (by apply (codec_read (ser := WriteCompactSize) 1 ([2] ++ rest))).
    change (1 <=? PUBLIC_KEY_SIZE) with true. cbv iota.
    rewrite (rbind_ok _ _ _ [2] rest) by (by apply read_bytes_app). by destruct vch.
  - reflexivity.
  - reflexivity.
Qed.

Lemma pubkey_Unserialize_stale_witness : exists vch',
  CPubKey.Unserialize (255 :: replicate 64 7) ([1; 2] ++ []) = Some (vch', []) /\
  CPubKey.IsValid vch' = true /\ CPubKey.data vch' = 2 :: replicate 32 7.
Proof. by apply (pubkey_Unserialize_stale (255 :: replicate 64 7) []). Defined.

Section Curve.
Context {E : Secp256k1} {L : Secp256k1Laws E}.

Lemma Set_serialized vch c p : length vch = 65%nat ->
  CPubKey.data (CPubKey.Set_ vch (ec_pubkey_serialize c p)) = ec_pubkey_serialize c p /\
  CPubKey.size (CPubKey.Set_ vch (ec_pubkey_serialize c p)) = if c then 33 else 65.
Proof.
  intros Hl.
  assert (CPubKey.ValidSize (ec_pubkey_serialize c p) = true /\
          Script.size (ec_pubkey_serialize c p) = if c then 33 else 65) as [Hv Hs].
  { destruct c.
    - destruct (serialize_compressed p) as (h & x & -> & Hh & Hx).
      unfold CPubKey.ValidSize. rewrite size_cons. unfold Script.size. rewrite Hx. by destruct Hh as [-> | ->].
    - destruct (serialize_uncompressed p) as (x & -> & Hx).
      unfold CPubKey.ValidSize. rewrite size_cons. unfold Script.size. by rewrite Hx. }
  destruct (Set_valid vch _ Hl Hv) as (E1 & E2 & _). by rewrite E1, E2.
Qed.

(** The operations on the curve agree with each other: a key that verifies a signature is
    fully valid; decompressing succeeds exactly on fully valid keys and gives an uncompressed
    key that verifies the same signatures; and verification does not depend on the form of S. *)
Theorem pubkey_curve vch hash sig : length vch = 65%nat ->
  (CPubKey.Verify vch hash sig = true -> CPubKey.IsFullyValid vch = true) /\
  fst (CPubKey.Decompress vch) = CPubKey.IsFullyValid vch /\
  (CPubKey.IsFullyValid vch = true ->
     CPubKey.size (snd (CPubKey.Decompress vch)) = PUBLIC_KEY_SIZE /\
     CPubKey.Verify (snd (CPubKey.Decompress vch)) hash sig = CPubKey.Verify vch hash sig).
Proof.
  intros Hl. unfold CPubKey.Verify, CPubKey.IsFullyValid, CPubKey.Decompress.
  destruct (CPubKey.IsValid vch) eqn:Hv; cbn [negb]; [|done].
  destruct (ec_pubkey_parse (CPubKey.data vch)) as [p|] eqn:Ep; [|done].
  cbn [fst snd]. split; [done|]. split; [done|]. intros _.
  destruct (Set_serialized vch false p Hl) as [Ed Es]. rewrite Ed, parse_serialize.
  unfold CPubKey.IsValid. by rewrite Es.
Qed.
End Curve.

(** A toy curve of two points with the laws of the library. *)
Definition toy_secp : Secp256k1 := {|
  ec_pubkey := bool; ec_signature := bool; ec_recoverable := unit;
  ec_pubkey_parse := fun l =>
    match l with
    | 2 :: _ => Some false | 3 :: _ => Some true
    | 4 :: b :: _ => Some (b =? 1) | _ => None
    end;
  ec_pubkey_serialize := fun c p =>
    if c then (if p then 3 else 2) :: replicate 32 0 else 4 :: (if p then 1 else 0) :: replicate 63 0;
  signature_parse_der := fun l => match l with 48 :: _ => Some false | _ => None end;
  signature_normalize := fun s => (false, s);
  ecdsa_verify := fun _ _ p => p;
  recoverable_parse_compact := fun _ _ => Some tt;
  ecdsa_recover := fun _ _ => Some true
|}.

#[export] Instance toy_laws : Secp256k1Laws toy_secp.
Proof.
  split.
  - intros []; repeat eexists; auto.
  - intros []; repeat eexists.
  - by intros [] [].
  - done.
Qed.

Lemma pubkey_curve_witness :
  CPubKey.size (snd (CPubKey.Decompress (E := toy_secp) (3 :: replicate 64 0))) = PUBLIC_KEY_SIZE /\
  CPubKey.Verify (E := toy_secp) (snd (CPubKey.Decompress (E := toy_secp) (3 :: replicate 64 0))) [] [48] = true.
Proof. by apply (pubkey_curve (E := toy_secp) (3 :: replicate 64 0) [] [48] eq_refl). Defined.

(** ** Extended keys *)

Lemma bytes_of_word n : 0 <= n < 2 ^ 32 ->
  u32 (Z.lor (Z.lor (Z.lor (Z.shiftl (Z.land (Z.shiftr n 24) 255) 24) (Z.shiftl (Z.land (Z.shiftr n 16) 255) 16))
                  (Z.shiftl (Z.land (Z.shiftr n 8) 255) 8)) (Z.land (Z.shiftr n 0) 255)) = n.
Proof.
  intros Hn. apply Z.bits_inj'. intros i Hi. rewrite uwrap_testbit by lia.
  change 255 with (Z.ones 8). rewrite !Z.lor_spec.
  assert (forall s, 0 <= s -> Z.testbit (Z.shiftl (Z.land (Z.shiftr n s) (Z.ones 8)) s) i =
    (s <=? i) && ((i <? s + 8) && Z.testbit n i)) as Hs.
  { intros s Hs. destruct (Z.leb_spec s i); cbn [andb].
    - rewrite Z.shiftl_spec, Z.land_spec, Z.shiftr_spec, Z.testbit_ones by lia.
      replace (i - s + s) with i by lia. rewrite andb_comm. f_equal. repeat case_Z; try done; lia.
    - apply Z.shiftl_spec_low. lia. }
  pose proof (Hs 0 ltac:(lia)) as H0. rewrite Z.shiftl_0_r in H0.
  rewrite !Hs, H0 by lia.
  destruct (Z.ltb_spec i 32).
  - destruct (Z.testbit n i); rewrite ?andb_true_r, ?andb_false_r; [|done].
    repeat case_Z; try done; lia.
  - cbn [andb]. symmetry. apply (small_testbit_high 32); lia.
Qed.

Definition extkey_wf (k : CExtPubKey) : Prop :=
  length (vchFingerprint k) = 4%nat /\ length (chaincode k) = 32%nat /\
  0 <= nChild k < 2 ^ 32 /\ length (ext_pubkey k) = 65%nat.

(** Extended keys: [Decode] of [Encode] gives back every field, with a public key of the
    same bytes, for every compressed key; for another key [Encode] fails its assertion. *)
Theorem extkey_round_trip k vch0 rest : extkey_wf k -> length vch0 = 65%nat ->
  (CPubKey.IsCompressed (ext_pubkey k) = true -> exists b k',
     CExtPubKey_Serialize k = Some b /\ CExtPubKey_Unserialize vch0 (b ++ rest) = Some (k', rest) /\
     nDepth k' = nDepth k /\ vchFingerprint k' = vchFingerprint k /\ nChild k' = nChild k /\
     chaincode k' = chaincode k /\ CPubKey.data (ext_pubkey k') = CPubKey.data (ext_pubkey k)) /\
  (CPubKey.IsCompressed (ext_pubkey k) = false -> CExtPubKey_Serialize k = None).
Proof.
  destruct k as [d f n c p]. intros (Hf & Hc & Hn & Hp) Hl0.
  cbn [vchFingerprint chaincode nChild ext_pubkey nDepth] in *.
  unfold CPubKey.IsCompressed, CExtPubKey_Serialize, CExtPubKey_Encode.
  cbn [vchFingerprint chaincode nChild ext_pubkey nDepth].
  destruct (Z.eqb_spec (CPubKey.size p) COMPRESSED_PUBLIC_KEY_SIZE) as [E|E]; [|done]. split; [|done]. intros _.
  assert (take 33 p = CPubKey.data p) as -> by (unfold CPubKey.data; by rewrite E).
  assert (CPubKey.ValidSize (CPubKey.data p) = true) as Hv.
  { assert (CPubKey.IsValid p = true) as Hv by (unfold CPubKey.IsValid; by rewrite E).
    destruct (data_cons p Hp Hv) as [x Ex]. pose proof (data_length p Hp) as Hd. unfold CPubKey.ValidSize, Script.size.
    rewrite Hd, Ex. cbn [hd]. change (CPubKey.GetLen (hd 0 p)) with (CPubKey.size p). by rewrite E. }
  pose proof (data_length p Hp) as Hd. rewrite E in Hd.
  set (code := [d] ++ _). exists (WriteCompactSize BIP32_EXTKEY_SIZE ++ code), (CExtPubKey_Decode vch0 code).
  assert (length code = 74%nat) as Hcode.
  { unfold code. rewrite !length_app. cbn [length]. unfold COMPRESSED_PUBLIC_KEY_SIZE in Hd. lia. }
  split; [done|]. split.
  { unfold CExtPubKey_Unserialize. rewrite <- app_assoc.
    erewrite rbind_ok by (by apply codec_read). change (negb (BIP32_EXTKEY_SIZE =? BIP32_EXTKEY_SIZE)) with false.
    cbv iota. by erewrite rbind_ok by (apply read_bytes_app; rewrite Hcode; reflexivity). }
  destruct f as [|f0 [|f1 [|f2 [|f3 [|]]]]]; try done.
  split; [done|]. split; [done|]. split; [exact (bytes_of_word n Hn)|]. split.
  - change (take 32 (c ++ CPubKey.data p) = c). rewrite <- Hc. apply take_app_length.
  - change (CPubKey.data (CPubKey.Set_ vch0 (drop 32 (c ++ CPubKey.data p))) = CPubKey.data p).
    rewrite <- Hc, drop_app_length. by apply Set_valid.
Qed.

Lemma extkey_round_trip_witness :
  let k := {| nDepth := 1; vchFingerprint := [1; 2; 3; 4]; nChild := 3735928559;
              chaincode := replicate 32 6; ext_pubkey := 3 :: replicate 64 5 |} in
  exists b k', CExtPubKey_Serialize k = Some b /\
    CExtPubKey_Unserialize (replicate 65 0) (b ++ []) = Some (k', []) /\ nChild k' = 3735928559.
Proof.
  intros k. destruct (extkey_round_trip k (replicate 65 0) []) as [H _].
  - repeat split; intro; discriminate.
  - reflexivity.
  - destruct (H eq_refl) as (b & k' & H1 & H2 & _ & _ & H3 & _). exists b, k'. auto.
Defined.
