(* ===== verification/Interpreter.v ===== *)
(** * Interpreter: the script interpreter of [src/src/script/interpreter.cpp]
    [EvalScript] is a loop of state transformers over the record [est], in a monad with the four
    ways a C++ statement ends here: a value, [return] from [EvalScript], an exception (which the
    handler at the end turns into an error) and a failed assertion.  The stack is kept top
    first.  The signature checker is the record [checker], which [SigHash] instantiates with the
    one for transactions; [CheckLowS] comes from the curve library of [Pubkey].  The loop takes the
    number of bytes of the script plus one as fuel: every iteration consumes a byte. *)
From S2P Require Import Prelude Endian Uint256 BlockHash Sha256 Sha1 Ripemd160 Hash ScriptNum Opcode Script Pubkey.

(** ** Errors and flags (script_error.h, interpreter.h) *)

Inductive ScriptError :=
  | SCRIPT_ERR_OK | SCRIPT_ERR_UNKNOWN_ERROR | SCRIPT_ERR_EVAL_FALSE | SCRIPT_ERR_OP_RETURN
  | SCRIPT_ERR_SCRIPT_SIZE | SCRIPT_ERR_PUSH_SIZE | SCRIPT_ERR_OP_COUNT | SCRIPT_ERR_STACK_SIZE
  | SCRIPT_ERR_SIG_COUNT | SCRIPT_ERR_PUBKEY_COUNT
  | SCRIPT_ERR_VERIFY | SCRIPT_ERR_EQUALVERIFY | SCRIPT_ERR_CHECKMULTISIGVERIFY
  | SCRIPT_ERR_CHECKSIGVERIFY | SCRIPT_ERR_NUMEQUALVERIFY
  | SCRIPT_ERR_BAD_OPCODE | SCRIPT_ERR_DISABLED_OPCODE | SCRIPT_ERR_INVALID_STACK_OPERATION
  | SCRIPT_ERR_INVALID_ALTSTACK_OPERATION | SCRIPT_ERR_UNBALANCED_CONDITIONAL
  | SCRIPT_ERR_NEGATIVE_LOCKTIME | SCRIPT_ERR_UNSATISFIED_LOCKTIME
  | SCRIPT_ERR_SIG_HASHTYPE | SCRIPT_ERR_SIG_DER | SCRIPT_ERR_MINIMALDATA
  | SCRIPT_ERR_SIG_PUSHONLY | SCRIPT_ERR_SIG_HIGH_S | SCRIPT_ERR_SIG_NULLDUMMY
  | SCRIPT_ERR_PUBKEYTYPE | SCRIPT_ERR_CLEANSTACK
  | SCRIPT_ERR_DISCOURAGE_UPGRADABLE_NOPS
  | SCRIPT_ERR_ERROR_COUNT
  | SCRIPT_ERR_CRYPTOCONDITION_VERIFY | SCRIPT_ERR_CRYPTOCONDITION_INVALID_FULFILLMENT.

#[export] Instance ScriptError_eq_dec : EqDecision ScriptError.
Proof. solve_decision. Defined.

Definition SIGHASH_ALL : Z := 1.
Definition SIGHASH_NONE : Z := 2.
Definition SIGHASH_SINGLE : Z := 3.
Definition SIGHASH_ANYONECANPAY : Z := 128.

Definition SCRIPT_VERIFY_NONE : Z := 0.
Definition SCRIPT_VERIFY_P2SH : Z := 1.
Definition SCRIPT_VERIFY_STRICTENC : Z := 2.
Definition SCRIPT_VERIFY_LOW_S : Z := 8.
Definition SCRIPT_VERIFY_NULLDUMMY : Z := 16.
Definition SCRIPT_VERIFY_SIGPUSHONLY : Z := 32.
Definition SCRIPT_VERIFY_MINIMALDATA : Z := 64.
Definition SCRIPT_VERIFY_DISCOURAGE_UPGRADABLE_NOPS : Z := 128.
Definition SCRIPT_VERIFY_CLEANSTACK : Z := 256.
Definition SCRIPT_VERIFY_CHECKLOCKTIMEVERIFY : Z := 512.

(** [(flags & f) != 0] *)
Definition has_flag (flags f : Z) : bool := negb (Z.land flags f =? 0).

(** [BaseSignatureChecker], whose virtual methods return [false] unless overridden. *)
Record checker := {
  CheckSig : valtype -> valtype -> script -> Z -> bool;
  CheckLockTime : CScriptNum -> bool;
  CheckCryptoCondition : valtype -> valtype -> script -> Z -> Z
}.
Definition BaseSignatureChecker : checker := {|
  CheckSig := fun _ _ _ _ => false;
  CheckLockTime := fun _ => false;
  CheckCryptoCondition := fun _ _ _ _ => 0
|}.

(** ** Predicates on byte vectors *)

(** The index test [i == vch.size()-1] is a test for the end of the list. *)
Fixpoint CastToBool (vch : valtype) : bool :=
  match vch with
  | [] => false
  | b :: rest =>
      if negb (b =? 0) then negb (match rest with [] => b =? 128 | _ => false end)
      else CastToBool rest
  end.

Definition at_ (s : list Z) (i : Z) : Z := nth (Z.to_nat i) s 0.

Definition IsCompressedOrUncompressedPubKey (vchPubKey : valtype) : bool :=
  if size vchPubKey <? 33 then false
  else if at_ vchPubKey 0 =? 4 then (if negb (size vchPubKey =? 65) then false else true)
  else if (at_ vchPubKey 0 =? 2) || (at_ vchPubKey 0 =? 3) then
    (if negb (size vchPubKey =? 33) then false else true)
  else false.

Definition IsValidSignatureEncoding (sig : valtype) : bool :=
  if size sig <? 9 then false
  else if size sig >? 73 then false
  else if negb (at_ sig 0 =? 48) then false
  else if negb (at_ sig 1 =? size sig - 3) then false
  else
    let lenR := at_ sig 3 in
    if 5 + lenR >=? size sig then false
    else
      let lenS := at_ sig (5 + lenR) in
      if negb (lenR + lenS + 7 =? size sig) then false
      else if negb (at_ sig 2 =? 2) then false
      else if lenR =? 0 then false
      else if negb (Z.land (at_ sig 4) 128 =? 0) then false
      else if (lenR >? 1) && (at_ sig 4 =? 0) && (Z.land (at_ sig 5) 128 =? 0) then false
      else if negb (at_ sig (lenR + 4) =? 2) then false
      else if lenS =? 0 then false
      else if negb (Z.land (at_ sig (lenR + 6)) 128 =? 0) then false
      else if (lenS >? 1) && (at_ sig (lenR + 6) =? 0) && (Z.land (at_ sig (lenR + 7)) 128 =? 0) then false
      else true.

Definition IsDefinedHashtypeSignature (vchSig : valtype) : bool :=
  if size vchSig =? 0 then false
  else
    let nHashType := Z.land (at_ vchSig (size vchSig - 1)) (Z.lnot SIGHASH_ANYONECANPAY) in
    if (nHashType <? SIGHASH_ALL) || (nHashType >? SIGHASH_SINGLE) then false else true.

Definition CheckMinimalPush (data : valtype) (op : opcodetype) : bool :=
  if size data =? 0 then op_eq op OP_0
  else if (size data =? 1) && (at_ data 0 >=? 1) && (at_ data 0 <=? 16) then
    opcode op =? opcode OP_1 + (at_ data 0 - 1)
  else if (size data =? 1) && (at_ data 0 =? 129) then op_eq op OP_1NEGATE
  else if size data <=? 75 then opcode op =? size data
  else if size data <=? 255 then op_eq op OP_PUSHDATA1
  else if size data <=? 65535 then op_eq op OP_PUSHDATA2
  else true.

(** ** The state and the monad of [EvalScript] *)

(** The locals of [EvalScript] and the two objects it is given by reference: [stack], top first,
    and [*serror]; [vfExec] has its back first. *)
Record est := {
  pc : script; stack : list valtype; altstack : list valtype; vfExec : list bool;
  nOpCount : Z; serror : ScriptError
}.

Inductive exn := scriptnum_error | out_of_range | runtime_error.

Inductive outcome (A : Type) :=
  | Val (a : A)
  | Ret (b : bool)
  | Throw (e : exn)
  | Abort_.
Arguments Val {A}. Arguments Ret {A}. Arguments Throw {A}. Arguments Abort_ {A}.

Definition M (A : Type) : Type := est -> outcome A * est.

Definition ret {A} (a : A) : M A := fun s => (Val a, s).
Definition bind {A B} (m : M A) (k : A -> M B) : M B := fun s =>
  match m s with
  | (Val a, s') => k a s'
  | (Ret b, s') => (Ret b, s')
  | (Throw e, s') => (Throw e, s')
  | (Abort_, s') => (Abort_, s')
  end.

Declare Scope eval_scope.
Delimit Scope eval_scope with eval.
Notation "x <- m ;; k" := (bind m (fun x => k))
  (at level 100, m at next level, right associativity) : eval_scope.
Notation "m ;;; k" := (bind m (fun _ => k)) (at level 100, right associativity) : eval_scope.
#[local] Open Scope eval_scope.

Definition get {A} (f : est -> A) : M A := fun s => (Val (f s), s).

Definition set_pc (p : script) : M unit := fun s =>
  (Val tt, {| pc := p; stack := stack s; altstack := altstack s; vfExec := vfExec s;
              nOpCount := nOpCount s; serror := serror s |}).
Definition set_stack (st : list valtype) : M unit := fun s =>
  (Val tt, {| pc := pc s; stack := st; altstack := altstack s; vfExec := vfExec s;
              nOpCount := nOpCount s; serror := serror s |}).
Definition set_altstack (st : list valtype) : M unit := fun s =>
  (Val tt, {| pc := pc s; stack := stack s; altstack := st; vfExec := vfExec s;
              nOpCount := nOpCount s; serror := serror s |}).
Definition set_vfExec (l : list bool) : M unit := fun s =>
  (Val tt, {| pc := pc s; stack := stack s; altstack := altstack s; vfExec := l;
              nOpCount := nOpCount s; serror := serror s |}).
Definition set_nOpCount (n : Z) : M unit := fun s =>
  (Val tt, {| pc := pc s; stack := stack s; altstack := altstack s; vfExec := vfExec s;
              nOpCount := n; serror := serror s |}).

(** [set_error] in a helper, whose result the caller tests. *)
Definition set_error (e : ScriptError) : M bool := fun s =>
  (Val false, {| pc := pc s; stack := stack s; altstack := altstack s; vfExec := vfExec s;
                 nOpCount := nOpCount s; serror := e |}).
(** [return set_error(serror, e);] in [EvalScript]. *)
Definition fail {A} (e : ScriptError) : M A := fun s =>
  (Ret false, {| pc := pc s; stack := stack s; altstack := altstack s; vfExec := vfExec s;
                 nOpCount := nOpCount s; serror := e |}).
(** [return false;] where [*serror] has been set. *)
Definition fail_set {A} : M A := fun s => (Ret false, s).
Definition throw {A} (e : exn) : M A := fun s => (Throw e, s).
Definition assert_some {A} (o : option A) : M A := fun s =>
  match o with Some a => (Val a, s) | None => (Abort_, s) end.
Definition require (c : bool) (e : ScriptError) : M unit := if c then ret tt else fail e.

(** [stacktop(i)]: [stack.at] throws outside the stack. *)
Definition stacktop (i : Z) : M valtype := fun s =>
  if i <? 0 then
    match stack s !! Z.to_nat (- i - 1) with
    | Some v => (Val v, s)
    | None => (Throw out_of_range, s)
    end
  else (Throw out_of_range, s).
Definition altstacktop (i : Z) : M valtype := fun s =>
  if i <? 0 then
    match altstack s !! Z.to_nat (- i - 1) with
    | Some v => (Val v, s)
    | None => (Throw out_of_range, s)
    end
  else (Throw out_of_range, s).

Definition popstack : M unit :=
  st <- get stack ;;
  match st with [] => throw runtime_error | _ :: st' => set_stack st' end.
Definition popaltstack : M unit :=
  st <- get altstack ;;
  match st with [] => throw runtime_error | _ :: st' => set_altstack st' end.

Definition push (v : valtype) : M unit := st <- get stack ;; set_stack (v :: st).

(** [stack.size() < n] is an error. *)
Definition need (n : Z) : M unit :=
  st <- get stack ;; require (negb (size st <? n)) SCRIPT_ERR_INVALID_STACK_OPERATION.

(** [swap(stacktop(-i), stacktop(-j))] *)
Definition swaptop (i j : Z) : M unit :=
  a <- stacktop (- i) ;; b <- stacktop (- j) ;; st <- get stack ;;
  set_stack (<[Z.to_nat (j - 1) := a]> (<[Z.to_nat (i - 1) := b]> st)).

(** [stack.erase(stack.end() - i)]; the guards keep the iterator inside. *)
Definition erase (i : Z) : M unit := st <- get stack ;; set_stack (delete (Z.to_nat (i - 1)) st).

Definition vchFalse : valtype := [].
Definition vchTrue : valtype := [1].
Definition vch_of_bool (b : bool) : valtype := if b then vchTrue else vchFalse.
Definition num_of_bool (b : bool) : CScriptNum := if b then 1 else 0.

Section Eval.
Context {E : Secp256k1}.
Context (ASSETCHAINS_CC : Z).
Context (flags : Z) (check : checker) (consensusBranchId : Z) (scr : script).

(** [cc.cpp] *)
Definition IsCryptoConditionsEnabled : bool := negb (ASSETCHAINS_CC =? 0).

Definition fRequireMinimal : bool := has_flag flags SCRIPT_VERIFY_MINIMALDATA.

(** ** Encodings of signatures and keys *)

(** The last byte of a signature of at least 9 bytes is dropped before the test of S. *)
Definition IsLowDERSignature (vchSig : valtype) : M bool :=
  if negb (IsValidSignatureEncoding vchSig) then set_error SCRIPT_ERR_SIG_DER
  else ret (CPubKey.CheckLowS (take (length vchSig - 1) vchSig)).

Definition CheckSignatureEncoding (vchSig : valtype) : M bool :=
  if size vchSig =? 0 then ret true
  else if negb (IsValidSignatureEncoding vchSig) then set_error SCRIPT_ERR_SIG_DER
  else
    low <- (if has_flag flags SCRIPT_VERIFY_LOW_S then IsLowDERSignature vchSig else ret true) ;;
    if negb low then ret false
    else if has_flag flags SCRIPT_VERIFY_STRICTENC && negb (IsDefinedHashtypeSignature vchSig) then
      set_error SCRIPT_ERR_SIG_HASHTYPE
    else ret true.

Definition CheckPubKeyEncoding (vchSig : valtype) : M bool :=
  if has_flag flags SCRIPT_VERIFY_STRICTENC && negb (IsCompressedOrUncompressedPubKey vchSig) then
    set_error SCRIPT_ERR_PUBKEYTYPE
  else ret true.

(** [if (!CheckSignatureEncoding(..) || !CheckPubKeyEncoding(..)) return false;] *)
Definition check_encodings (vchSig vchPubKey : valtype) : M unit :=
  a <- CheckSignatureEncoding vchSig ;;
  if negb a then fail_set
  else
    b <- CheckPubKeyEncoding vchPubKey ;;
    if negb b then fail_set else ret tt.

(** [CScriptNum(vch, fRequireMinimal, nMaxNumSize)] *)
Definition script_num (vch : valtype) (nMaxNumSize : Z) : M CScriptNum :=
  match ScriptNum.of_vch vch fRequireMinimal nMaxNumSize with
  | Some n => ret n
  | None => throw scriptnum_error
  end.
Definition script_num4 (vch : valtype) : M CScriptNum := script_num vch ScriptNum.nDefaultMaxNumSize.

(** ** Operations, in the order of the switch *)

Definition op_push_small (op : opcodetype) : M unit :=
  push (ScriptNum.getvch (opcode op - (opcode OP_1 - 1))).

Definition op_checklocktimeverify : M unit :=
  if negb (has_flag flags SCRIPT_VERIFY_CHECKLOCKTIMEVERIFY) then
    (if has_flag flags SCRIPT_VERIFY_DISCOURAGE_UPGRADABLE_NOPS
     then fail SCRIPT_ERR_DISCOURAGE_UPGRADABLE_NOPS else ret tt)
  else
    need 1 ;;;
    top <- stacktop (-1) ;;
    nLockTime <- script_num top 5 ;;
    require (negb (nLockTime <? 0)) SCRIPT_ERR_NEGATIVE_LOCKTIME ;;;
    require (CheckLockTime check nLockTime) SCRIPT_ERR_UNSATISFIED_LOCKTIME.

Definition op_upgradable_nop : M unit :=
  if has_flag flags SCRIPT_VERIFY_DISCOURAGE_UPGRADABLE_NOPS
  then fail SCRIPT_ERR_DISCOURAGE_UPGRADABLE_NOPS else ret tt.

Definition op_if (negate fExec : bool) : M unit :=
  fValue <- (if fExec then
               st <- get stack ;;
               require (negb (size st <? 1)) SCRIPT_ERR_UNBALANCED_CONDITIONAL ;;;
               vch <- stacktop (-1) ;;
               let fValue := CastToBool vch in
               let fValue := if negate then negb fValue else fValue in
               popstack ;;; ret fValue
             else ret false) ;;
  v <- get vfExec ;; set_vfExec (fValue :: v).

Definition op_else : M unit :=
  v <- get vfExec ;;
  match v with
  | [] => fail SCRIPT_ERR_UNBALANCED_CONDITIONAL
  | b :: v' => set_vfExec (negb b :: v')
  end.

Definition op_endif : M unit :=
  v <- get vfExec ;;
  match v with
  | [] => fail SCRIPT_ERR_UNBALANCED_CONDITIONAL
  | _ :: v' => set_vfExec v'
  end.

Definition op_verify : M unit :=
  need 1 ;;;
  top <- stacktop (-1) ;;
  if CastToBool top then popstack else fail SCRIPT_ERR_VERIFY.

Definition op_toaltstack : M unit :=
  need 1 ;;;
  v <- stacktop (-1) ;; alt <- get altstack ;; set_altstack (v :: alt) ;;; popstack.

Definition op_fromaltstack : M unit :=
  alt <- get altstack ;;
  require (negb (size alt <? 1)) SCRIPT_ERR_INVALID_ALTSTACK_OPERATION ;;;
  v <- altstacktop (-1) ;; push v ;;; popaltstack.

Definition op_2drop : M unit := need 2 ;;; popstack ;;; popstack.

Definition op_2dup : M unit :=
  need 2 ;;; vch1 <- stacktop (-2) ;; vch2 <- stacktop (-1) ;; push vch1 ;;; push vch2.

Definition op_3dup : M unit :=
  need 3 ;;; vch1 <- stacktop (-3) ;; vch2 <- stacktop (-2) ;; vch3 <- stacktop (-1) ;;
  push vch1 ;;; push vch2 ;;; push vch3.

Definition op_2over : M unit :=
  need 4 ;;; vch1 <- stacktop (-4) ;; vch2 <- stacktop (-3) ;; push vch1 ;;; push vch2.

(** [erase(end()-6, end()-4)] erases the sixth and the fifth element from the top. *)
Definition op_2rot : M unit :=
  need 6 ;;; vch1 <- stacktop (-6) ;; vch2 <- stacktop (-5) ;;
  erase 6 ;;; erase 5 ;;; push vch1 ;;; push vch2.

Definition op_2swap : M unit := need 4 ;;; swaptop 4 2 ;;; swaptop 3 1.

Definition op_ifdup : M unit :=
  need 1 ;;; vch <- stacktop (-1) ;; if CastToBool vch then push vch else ret tt.

Definition op_depth : M unit := st <- get stack ;; push (ScriptNum.getvch (size st)).

Definition op_drop : M unit := need 1 ;;; popstack.

Definition op_dup : M unit := need 1 ;;; vch <- stacktop (-1) ;; push vch.

Definition op_nip : M unit := need 2 ;;; erase 2.

Definition op_over : M unit := need 2 ;;; vch <- stacktop (-2) ;; push vch.

Definition op_pick_roll (roll : bool) : M unit :=
  need 2 ;;;
  top <- stacktop (-1) ;;
  num <- script_num4 top ;;
  let n := ScriptNum.getint num in
  popstack ;;;
  st <- get stack ;;
  require (negb ((n <? 0) || (n >=? size st))) SCRIPT_ERR_INVALID_STACK_OPERATION ;;;
  vch <- stacktop (- n - 1) ;;
  (if roll then erase (n + 1) else ret tt) ;;;
  push vch.

Definition op_rot : M unit := need 3 ;;; swaptop 3 2 ;;; swaptop 2 1.

Definition op_swap : M unit := need 2 ;;; swaptop 2 1.

(** [insert(end()-2, vch)] inserts below the second element from the top. *)
Definition op_tuck : M unit :=
  need 2 ;;; vch <- stacktop (-1) ;; st <- get stack ;; set_stack (take 2 st ++ vch :: drop 2 st).

Definition op_size : M unit := need 1 ;;; v <- stacktop (-1) ;; push (ScriptNum.getvch (size v)).

Definition op_equal (verify : bool) : M unit :=
  need 2 ;;;
  vch1 <- stacktop (-2) ;; vch2 <- stacktop (-1) ;;
  let fEqual := bool_decide (vch1 = vch2) in
  popstack ;;; popstack ;;;
  push (vch_of_bool fEqual) ;;;
  if verify then (if fEqual then popstack else fail SCRIPT_ERR_EQUALVERIFY) else ret tt.

(** The inner switch of the unary operations; [None] is a failed assertion. *)
Definition unary (op : opcodetype) (bn : CScriptNum) : option CScriptNum :=
  match op with
  | OP_1ADD => ScriptNum.add_assign bn 1
  | OP_1SUB => ScriptNum.sub_assign bn 1
  | OP_NEGATE => ScriptNum.neg bn
  | OP_ABS => if bn <? 0 then ScriptNum.neg bn else Some bn
  | OP_NOT => Some (num_of_bool (bn =? 0))
  | OP_0NOTEQUAL => Some (num_of_bool (negb (bn =? 0)))
  | _ => None
  end.

Definition op_unary (op : opcodetype) : M unit :=
  need 1 ;;;
  top <- stacktop (-1) ;; bn <- script_num4 top ;;
  bn <- assert_some (unary op bn) ;;
  popstack ;;; push (ScriptNum.getvch bn).

Definition binary (op : opcodetype) (bn1 bn2 : CScriptNum) : option CScriptNum :=
  match op with
  | OP_ADD => Some (ScriptNum.add bn1 bn2)
  | OP_SUB => Some (ScriptNum.sub bn1 bn2)
  | OP_BOOLAND => Some (num_of_bool (negb (bn1 =? 0) && negb (bn2 =? 0)))
  | OP_BOOLOR => Some (num_of_bool (negb (bn1 =? 0) || negb (bn2 =? 0)))
  | OP_NUMEQUAL => Some (num_of_bool (bn1 =? bn2))
  | OP_NUMEQUALVERIFY => Some (num_of_bool (bn1 =? bn2))
  | OP_NUMNOTEQUAL => Some (num_of_bool (negb (bn1 =? bn2)))
  | OP_LESSTHAN => Some (num_of_bool (bn1 <? bn2))
  | OP_GREATERTHAN => Some (num_of_bool (bn1 >? bn2))
  | OP_LESSTHANOREQUAL => Some (num_of_bool (bn1 <=? bn2))
  | OP_GREATERTHANOREQUAL => Some (num_of_bool (bn1 >=? bn2))
  | OP_MIN => Some (if bn1 <? bn2 then bn1 else bn2)
  | OP_MAX => Some (if bn1 >? bn2 then bn1 else bn2)
  | _ => None
  end.

Definition op_binary (op : opcodetype) : M unit :=
  need 2 ;;;
  v1 <- stacktop (-2) ;; bn1 <- script_num4 v1 ;;
  v2 <- stacktop (-1) ;; bn2 <- script_num4 v2 ;;
  bn <- assert_some (binary op bn1 bn2) ;;
  popstack ;;; popstack ;;; push (ScriptNum.getvch bn) ;;;
  if op_eq op OP_NUMEQUALVERIFY then
    (top <- stacktop (-1) ;; if CastToBool top then popstack else fail SCRIPT_ERR_NUMEQUALVERIFY)
  else ret tt.

Definition op_within : M unit :=
  need 3 ;;;
  v1 <- stacktop (-3) ;; bn1 <- script_num4 v1 ;;
  v2 <- stacktop (-2) ;; bn2 <- script_num4 v2 ;;
  v3 <- stacktop (-1) ;; bn3 <- script_num4 v3 ;;
  let fValue := (bn2 <=? bn1) && (bn1 <? bn3) in
  popstack ;;; popstack ;;; popstack ;;; push (vch_of_bool fValue).

(** The hash function of an opcode, run on a fresh hasher. *)
Definition op_digest (op : opcodetype) (vch : valtype) : valtype :=
  match op with
  | OP_RIPEMD160 => CRIPEMD160.Finalize (CRIPEMD160.Write (CRIPEMD160.make fresh_buf) vch)
  | OP_SHA1 => CSHA1.Finalize (CSHA1.Write (CSHA1.make fresh_buf) vch)
  | OP_SHA256 => CSHA256.Finalize (CSHA256.Write (CSHA256.make fresh_buf) vch)
  | OP_HASH160 => CHash160.Finalize (CHash160.Write (CHash160.make fresh_buf) vch)
  | OP_HASH256 => CHash256.Finalize (CHash256.Write (CHash256.make fresh_buf) vch)
  | _ => replicate 32 0
  end.

Definition op_hash (op : opcodetype) : M unit :=
  need 1 ;;; vch <- stacktop (-1) ;; popstack ;;; push (op_digest op vch).

(** Push the result of a check; the VERIFY form pops it again or fails. *)
Definition push_result (fSuccess verify : bool) (e : ScriptError) : M unit :=
  push (vch_of_bool fSuccess) ;;;
  if verify then (if fSuccess then popstack else fail e) else ret tt.

Definition op_checksig (verify : bool) : M unit :=
  need 2 ;;;
  vchSig <- stacktop (-2) ;; vchPubKey <- stacktop (-1) ;;
  check_encodings vchSig vchPubKey ;;;
  let fSuccess := CheckSig check vchSig vchPubKey scr consensusBranchId in
  popstack ;;; popstack ;;;
  push_result fSuccess verify SCRIPT_ERR_CHECKSIGVERIFY.

(** The matching loop; an iteration uses up a key, so the number of keys plus one is fuel
    enough. *)
Fixpoint multisig_loop (fuel : nat) (fSuccess : bool) (isig ikey nSigsCount nKeysCount : Z) : M bool :=
  match fuel with
  | O => ret fSuccess
  | S f =>
      if fSuccess && (nSigsCount >? 0) then
        vchSig <- stacktop (- isig) ;; vchPubKey <- stacktop (- ikey) ;;
        check_encodings vchSig vchPubKey ;;;
        let fOk := CheckSig check vchSig vchPubKey scr consensusBranchId in
        let isig := if fOk then isig + 1 else isig in
        let nSigsCount := if fOk then nSigsCount - 1 else nSigsCount in
        let ikey := ikey + 1 in
        let nKeysCount := nKeysCount - 1 in
        multisig_loop f (if nSigsCount >? nKeysCount then false else fSuccess)
          isig ikey nSigsCount nKeysCount
      else ret fSuccess
  end.

Fixpoint popstack_n (n : nat) : M unit :=
  match n with O => ret tt | S n' => popstack ;;; popstack_n n' end.

Definition op_checkmultisig (verify : bool) : M unit :=
  need 1 ;;;
  v <- stacktop (-1) ;; num <- script_num4 v ;;
  let nKeysCount := ScriptNum.getint num in
  require (negb ((nKeysCount <? 0) || (nKeysCount >? 20))) SCRIPT_ERR_PUBKEY_COUNT ;;;
  n <- get nOpCount ;; set_nOpCount (n + nKeysCount) ;;;
  require (negb (n + nKeysCount >? 201)) SCRIPT_ERR_OP_COUNT ;;;
  let ikey := 2 in
  let i := 2 + nKeysCount in
  need i ;;;
  v <- stacktop (- i) ;; num <- script_num4 v ;;
  let nSigsCount := ScriptNum.getint num in
  require (negb ((nSigsCount <? 0) || (nSigsCount >? nKeysCount))) SCRIPT_ERR_SIG_COUNT ;;;
  let isig := i + 1 in
  let i := i + 1 + nSigsCount in
  need i ;;;
  fSuccess <- multisig_loop (S (Z.to_nat nKeysCount)) true isig ikey nSigsCount nKeysCount ;;
  popstack_n (Z.to_nat (i - 1)) ;;;
  need 1 ;;;
  dummy <- stacktop (-1) ;;
  require (negb (has_flag flags SCRIPT_VERIFY_NULLDUMMY && negb (size dummy =? 0)))
    SCRIPT_ERR_SIG_NULLDUMMY ;;;
  popstack ;;;
  push_result fSuccess verify SCRIPT_ERR_CHECKMULTISIGVERIFY.

Definition op_checkcryptocondition (verify : bool) : M unit :=
  if negb IsCryptoConditionsEnabled then fail SCRIPT_ERR_BAD_OPCODE
  else
    need 2 ;;;
    cond <- stacktop (-1) ;; ffill <- stacktop (-2) ;;
    let fResult := CheckCryptoCondition check cond ffill scr consensusBranchId in
    require (negb (fResult =? -1)) SCRIPT_ERR_CRYPTOCONDITION_INVALID_FULFILLMENT ;;;
    popstack ;;; popstack ;;;
    push_result (fResult =? 1) verify SCRIPT_ERR_CRYPTOCONDITION_VERIFY.

(** The switch. *)
Definition exec_op (op : opcodetype) (fExec : bool) : M unit :=
  match op with
  | OP_1NEGATE | OP_1 | OP_2 | OP_3 | OP_4 | OP_5 | OP_6 | OP_7 | OP_8 | OP_9 | OP_10 | OP_11
  | OP_12 | OP_13 | OP_14 | OP_15 | OP_16 => op_push_small op
  | OP_NOP => ret tt
  | OP_CHECKLOCKTIMEVERIFY => op_checklocktimeverify
  | OP_NOP1 | OP_NOP3 | OP_NOP4 | OP_NOP5 | OP_NOP6 | OP_NOP7 | OP_NOP8 | OP_NOP9 | OP_NOP10 =>
      op_upgradable_nop
  | OP_IF => op_if false fExec
  | OP_NOTIF => op_if true fExec
  | OP_ELSE => op_else
  | OP_ENDIF => op_endif
  | OP_VERIFY => op_verify
  | OP_RETURN => fail SCRIPT_ERR_OP_RETURN
  | OP_TOALTSTACK => op_toaltstack
  | OP_FROMALTSTACK => op_fromaltstack
  | OP_2DROP => op_2drop
  | OP_2DUP => op_2dup
  | OP_3DUP => op_3dup
  | OP_2OVER => op_2over
  | OP_2ROT => op_2rot
  | OP_2SWAP => op_2swap
  | OP_IFDUP => op_ifdup
  | OP_DEPTH => op_depth
  | OP_DROP => op_drop
  | OP_DUP => op_dup
  | OP_NIP => op_nip
  | OP_OVER => op_over
  | OP_PICK => op_pick_roll false
  | OP_ROLL => op_pick_roll true
  | OP_ROT => op_rot
  | OP_SWAP => op_swap
  | OP_TUCK => op_tuck
  | OP_SIZE => op_size
  | OP_EQUAL => op_equal false
  | OP_EQUALVERIFY => op_equal true
  | OP_1ADD | OP_1SUB | OP_NEGATE | OP_ABS | OP_NOT | OP_0NOTEQUAL => op_unary op
  | OP_ADD | OP_SUB | OP_BOOLAND | OP_BOOLOR | OP_NUMEQUAL | OP_NUMEQUALVERIFY | OP_NUMNOTEQUAL
  | OP_LESSTHAN | OP_GREATERTHAN | OP_LESSTHANOREQUAL | OP_GREATERTHANOREQUAL | OP_MIN
  | OP_MAX => op_binary op
  | OP_WITHIN => op_within
  | OP_RIPEMD160 | OP_SHA1 | OP_SHA256 | OP_HASH160 | OP_HASH256 => op_hash op
  | OP_CHECKSIG => op_checksig false
  | OP_CHECKSIGVERIFY => op_checksig true
  | OP_CHECKMULTISIG => op_checkmultisig false
  | OP_CHECKMULTISIGVERIFY => op_checkmultisig true
  | OP_CHECKCRYPTOCONDITION => op_checkcryptocondition false
  | OP_CHECKCRYPTOCONDITIONVERIFY => op_checkcryptocondition true
  | _ => fail SCRIPT_ERR_BAD_OPCODE
  end.

Definition is_disabled (op : opcodetype) : bool :=
  match op with
  | OP_CAT | OP_SUBSTR | OP_LEFT | OP_RIGHT | OP_INVERT | OP_AND | OP_OR | OP_XOR | OP_2MUL
  | OP_2DIV | OP_MUL | OP_DIV | OP_MOD | OP_LSHIFT | OP_RSHIFT | OP_CODESEPARATOR => true
  | _ => false
  end.

(** The tests on an instruction before it is executed. *)
Definition check_instruction (op : opcodetype) (vchPushValue : valtype) : M unit :=
  require (negb (size vchPushValue >? MAX_SCRIPT_ELEMENT_SIZE)) SCRIPT_ERR_PUSH_SIZE ;;;
  (if op_lt OP_16 op then
     n <- get nOpCount ;; set_nOpCount (n + 1) ;;;
     require (negb (n + 1 >? 201)) SCRIPT_ERR_OP_COUNT
   else ret tt) ;;;
  require (negb (is_disabled op)) SCRIPT_ERR_DISABLED_OPCODE.

(** What an instruction does when it has passed them. *)
Definition dispatch (fExec : bool) (op : opcodetype) (vchPushValue : valtype) : M unit :=
  if fExec && (0 <=? opcode op) && op_le op OP_PUSHDATA4 then
    (if fRequireMinimal && negb (CheckMinimalPush vchPushValue op) then fail SCRIPT_ERR_MINIMALDATA
     else push vchPushValue)
  else if fExec || (op_le OP_IF op && op_le op OP_ENDIF) then exec_op op fExec
  else ret tt.

(** One iteration of the loop. *)
Definition step : M unit :=
  v <- get vfExec ;;
  let fExec := forallb id v in
  p <- get pc ;;
  let r := CScript.GetOp2 p in
  set_pc (CScript.go_pc r) ;;;
  if negb (CScript.go_ret r) then fail SCRIPT_ERR_BAD_OPCODE
  else
    let op := CScript.go_op r in
    let vchPushValue := CScript.go_data r in
    check_instruction op vchPushValue ;;;
    dispatch fExec op vchPushValue ;;;
    st <- get stack ;; alt <- get altstack ;;
    require (negb (size st + size alt >? 1000)) SCRIPT_ERR_STACK_SIZE.

Fixpoint eval_loop (fuel : nat) : M unit :=
  match fuel with
  | O => ret tt
  | S f =>
      p <- get pc ;;
      match p with [] => ret tt | _ => step ;;; eval_loop f end
  end.

(** The result, the stack and [*serror]; [None] is a failed assertion. *)
Definition result : Type := option (bool * list valtype * ScriptError).

(** [return set_error(serror, e);] on a result. *)
Definition failed (st : list valtype) (e : ScriptError) : result := Some (false, st, e).

(** [EvalScript]: an exception of the loop becomes [SCRIPT_ERR_UNKNOWN_ERROR]. *)
Definition EvalScript (st : list valtype) : result :=
  if size scr >? MAX_SCRIPT_SIZE then failed st SCRIPT_ERR_SCRIPT_SIZE
  else
    match eval_loop (S (length scr))
            {| pc := scr; stack := st; altstack := []; vfExec := []; nOpCount := 0;
               serror := SCRIPT_ERR_UNKNOWN_ERROR |} with
    | (Val _, s) =>
        match vfExec s with
        | [] => Some (true, stack s, SCRIPT_ERR_OK)
        | _ => failed (stack s) SCRIPT_ERR_UNBALANCED_CONDITIONAL
        end
    | (Ret b, s) => Some (b, stack s, serror s)
    | (Throw _, s) => failed (stack s) SCRIPT_ERR_UNKNOWN_ERROR
    | (Abort_, _) => None
    end.
End Eval.

(** [EvalCryptoConditionSig] on an empty stack. *)
Definition EvalCryptoConditionSig (st : list valtype) (scriptSig : script) : result :=
  let r := CScript.GetOp2 scriptSig in
  if negb (CScript.go_ret r) then failed st SCRIPT_ERR_BAD_OPCODE
  else if (opcode (CScript.go_op r) =? 0) || op_lt OP_PUSHDATA4 (CScript.go_op r) then
    failed st SCRIPT_ERR_INVALID_STACK_OPERATION
  else match CScript.go_pc r with
  | _ :: _ => failed st SCRIPT_ERR_INVALID_STACK_OPERATION
  | [] =>
      if size (CScript.go_data r) >? MAX_SCRIPT_CRYPTOCONDITION_FULFILLMENT_SIZE then
        failed st SCRIPT_ERR_PUSH_SIZE
      else Some (true, CScript.go_data r :: st, SCRIPT_ERR_UNKNOWN_ERROR)
  end.

Section Verify.
Context {E : Secp256k1}.
Context (ASSETCHAINS_CC : Z).
Context (flags : Z) (check : checker) (consensusBranchId : Z).

(** [if (!Eval(..)) return false;] *)
Definition after (r : result) (k : list valtype -> result) : result :=
  match r with
  | None => None
  | Some (false, st, e) => Some (false, st, e)
  | Some (true, st, _) => k st
  end.

(** The stack must not be empty and its top must be true. *)
Definition require_true (st : list valtype) (k : result) : result :=
  match st with
  | [] => failed st SCRIPT_ERR_EVAL_FALSE
  | top :: _ => if negb (CastToBool top) then failed st SCRIPT_ERR_EVAL_FALSE else k
  end.

(** The stack after the evaluation of [scriptSig]. *)
Definition eval_sig (scriptSig scriptPubKey : script) : result :=
  if IsCryptoConditionsEnabled ASSETCHAINS_CC &&
     match CScript.IsPayToCryptoCondition scriptPubKey with Some _ => true | None => false end
  then EvalCryptoConditionSig [] scriptSig
  else EvalScript ASSETCHAINS_CC flags check consensusBranchId scriptSig [].

(** The evaluation of the redeem script: [st] is the stack, swapped with the copy of the stack
    that [scriptSig] left. *)
Definition eval_p2sh (scriptSig : script) (st stackCopy : list valtype)
    (k : list valtype -> result) : result :=
  if negb (CScript.IsPushOnly scriptSig) then failed st SCRIPT_ERR_SIG_PUSHONLY
  else
    match stackCopy with
    | [] => None
    | pubKey2 :: st =>
        after (EvalScript ASSETCHAINS_CC flags check consensusBranchId pubKey2 st)
          (fun st => require_true st (k st))
    end.

Definition check_clean (st : list valtype) : result :=
  if has_flag flags SCRIPT_VERIFY_CLEANSTACK then
    (if negb (has_flag flags SCRIPT_VERIFY_P2SH) then None
     else if negb (size st =? 1) then failed st SCRIPT_ERR_CLEANSTACK
     else Some (true, st, SCRIPT_ERR_OK))
  else Some (true, st, SCRIPT_ERR_OK).

(** The result and [*serror] of [VerifyScript] (with the final stack, a local of the code). *)
Definition VerifyScript (scriptSig scriptPubKey : script) : result :=
  if has_flag flags SCRIPT_VERIFY_SIGPUSHONLY && negb (CScript.IsPushOnly scriptSig) then
    failed [] SCRIPT_ERR_SIG_PUSHONLY
  else
    after (eval_sig scriptSig scriptPubKey) (fun stackCopy =>
    after (EvalScript ASSETCHAINS_CC flags check consensusBranchId scriptPubKey stackCopy) (fun st =>
    require_true st (
      if has_flag flags SCRIPT_VERIFY_P2SH && CScript.IsPayToScriptHash scriptPubKey then
        eval_p2sh scriptSig st stackCopy check_clean
      else check_clean st))).
End Verify.
