(* ===== verification/EvalSafety.v ===== *)
(** * EvalSafety: the interpreter never gets stuck
    A weakest-precondition calculus for the monad of [Interpreter], used to show of every operation
    that it stays inside the stack, fails no assertion and keeps the bounds, and of the loop
    that it ends; [scan] is what success says about the text of the script. *)
From S2P Require Import Prelude Endian Uint256 BlockHash Sha256 Sha1 Ripemd160 Hash ScriptNum Opcode Script Pubkey Interpreter.
#[local] Open Scope eval_scope.

(** ** Elements *)

Lemma abs_bytes_length fuel a : (length (ScriptNum.abs_bytes fuel a) <= fuel)%nat.
Proof.
  revert a. induction fuel as [|f IH]; intros a; cbn [ScriptNum.abs_bytes]; [done|].
  destruct (a =? 0); cbn [length]; [lia|]. specialize (IH (Z.shiftr a 8)). lia.
Qed.

Lemma serialize_size n : size (ScriptNum.serialize n) <= 9.
Proof.
  unfold ScriptNum.serialize, size. destruct (n =? 0); [done|].
  pose proof (abs_bytes_length 8 (u64 (if n <? 0 then - n else n))).
  set (l := ScriptNum.abs_bytes 8 _) in *.
  destruct (negb _); [rewrite length_app; cbn [length]; lia|].
  destruct (n <? 0); [rewrite length_insert|]; lia.
Qed.

Lemma of_vch_bound vch b k n : bytes_ok vch -> 1 <= k <= 8 ->
  ScriptNum.of_vch vch b k = Some n -> Z.abs n < 2 ^ (8 * k - 1).
Proof.
  intros Hv Hk. unfold ScriptNum.of_vch. destruct (Z.ltb_spec k (Z.of_nat (length vch))) as [|Hl]; [done|].
  destruct (b && _); [done|]. intros [= <-].
  destruct (decide (vch = [])) as [->|Hne].
  { cbn. apply Z.pow_pos_nonneg; lia. }
  destruct (snoc_inv vch Hne) as (l & t & ->). rewrite length_app in Hl. cbn [length] in Hl.
  rewrite set_vch_snoc by (done || lia). apply Forall_app in Hv as [Hl1 Ht].
  pose proof (le_val_bytes_bound l Hl1). pose proof (Z.mod_pos_bound t 128 ltac:(lia)).
  assert (256 ^ Z.of_nat (length l) * 128 <= 2 ^ (8 * k - 1)) as Hp.
  { change 256 with (2 ^ 8). change 128 with (2 ^ 7). rewrite <- Z.pow_mul_r, <- Z.pow_add_r by lia.
    apply Z.pow_le_mono_r; lia. }
  destruct (t <? 128); nia.
Qed.

(** The hash opcodes compute the digests. *)
Lemma op_digest_spec op v : op_digest op v =
  match op with
  | OP_RIPEMD160 => ripemd160_digest v | OP_SHA1 => sha1_digest v | OP_SHA256 => sha256_digest v
  | OP_HASH160 => hash160 v | OP_HASH256 => hash256 v | _ => replicate 32 0
  end.
Proof.
  destruct op; try reflexivity; unfold op_digest.
  - apply CRIPEMD160_Finalize_digest. by apply (Write_absorbs _ _ _ []), holds_nil.
  - apply CSHA1_Finalize_digest. by apply (Write_absorbs _ _ _ []), holds_nil.
  - apply CSHA256_Finalize_digest. by apply (Write_absorbs _ _ _ []), holds_nil.
  - apply CHash160_Finalize_digest. by apply (Write_absorbs _ _ _ []), holds_nil.
  - apply CHash256_Finalize_digest. by apply (Write_absorbs _ _ _ []), holds_nil.
Qed.

Lemma size_le {A} (l : list A) n k : length l = n -> Z.of_nat n <= k -> size l <= k.
Proof. unfold size. lia. Qed.

Lemma op_digest_ok op v : bytes_ok (op_digest op v) /\ size (op_digest op v) <= 32.
Proof.
  assert (bytes_ok (replicate 32 0) /\ size (replicate 32 0) <= 32) as Hz
    by (split; [apply (bool_decide_unpack _); vm_compute; exact I | vm_compute; intro; discriminate]).
  rewrite op_digest_spec. destruct op; try exact Hz.
  - split; [apply ripemd160_digest_ok | apply (size_le _ 20); [apply ripemd160_digest_length | lia]].
  - split; [apply sha1_digest_ok | apply (size_le _ 20); [apply sha1_digest_length | lia]].
  - split; [apply sha256_digest_ok | apply (size_le _ 32); [apply sha256_digest_length | lia]].
  - split; [apply hash160_ok | apply (size_le _ 20); [apply hash160_length | lia]].
  - split; [apply hash256_ok | apply (size_le _ 32); [apply hash256_length | lia]].
Qed.

Lemma GetOp2_bytes_ok p : bytes_ok p ->
  bytes_ok (CScript.go_pc (CScript.GetOp2 p)) /\ bytes_ok (CScript.go_data (CScript.GetOp2 p)).
Proof.
  intros Hp. destruct p as [|x p]; [done|]. split.
  - destruct (GetOp2_suffix x p) as [k ->]. apply Forall_drop. by inversion Hp.
  - cbn [CScript.GetOp2]. inversion Hp as [|? ? _ Hp']; subst.
    destruct (x <=? opcode OP_PUSHDATA4); [|apply Forall_nil_2].
    destruct (CScript.operand_size x p) as [[n p']|] eqn:E; [|apply Forall_nil_2].
    apply operand_size_suffix in E as [k ->].
    destruct (_ <? n); cbn [CScript.go_data CScript.get_fail]; [apply Forall_nil_2|].
    by apply Forall_take, Forall_drop.
Qed.

(** ** Weakest preconditions

    [wp m Q s]: run from [s], [m] ends in a value that satisfies [Q], returns [false] from
    [EvalScript], or throws [scriptnum_error]; it fails no assertion, never calls [at] out of
    range and never pops an empty stack. *)

Definition wp {A} (m : M A) (Q : A -> est -> Prop) (s : est) : Prop :=
  match m s with
  | (Val a, s') => Q a s'
  | (Ret b, _) => b = false
  | (Throw e, _) => e = scriptnum_error
  | (Abort_, _) => False
  end.

Lemma wp_ret {A} (a : A) Q s : Q a s -> wp (ret a) Q s.
Proof. done. Qed.
Lemma wp_bind {A B} (m : M A) (k : A -> M B) Q s : wp m (fun a => wp (k a) Q) s -> wp (bind m k) Q s.
Proof. unfold wp, bind. by destruct (m s) as [[a|b|e|] s']. Qed.
Lemma wp_get {A} (f : est -> A) Q s : Q (f s) s -> wp (get f) Q s.
Proof. done. Qed.
Lemma wp_fail {A} e (Q : A -> est -> Prop) s : wp (fail e) Q s.
Proof. reflexivity. Qed.
Lemma wp_fail_set {A} (Q : A -> est -> Prop) s : wp fail_set Q s.
Proof. reflexivity. Qed.
Lemma wp_require c e (Q : unit -> est -> Prop) s : (c = true -> Q tt s) -> wp (require c e) Q s.
Proof. destruct c; intros H; [by apply H|reflexivity]. Qed.
Lemma wp_mono {A} (m : M A) (P Q : A -> est -> Prop) s :
  wp m P s -> (forall a s', P a s' -> Q a s') -> wp m Q s.
Proof. unfold wp. destruct (m s) as [[a|b|e|] s']; auto. Qed.
Lemma wp_assert_some {A} (o : option A) (Q : A -> est -> Prop) s :
  (exists a, o = Some a /\ Q a s) -> wp (assert_some o) Q s.
Proof. by intros (a & -> & HQ). Qed.

Section Safety.
Context {E : Secp256k1}.
Context (ASSETCHAINS_CC : Z) (flags : Z) (check : checker) (consensusBranchId : Z) (scr : script).
(** The bound on the elements: 520, or more when the initial stack has longer ones. *)
Context (L : Z) (HL : MAX_SCRIPT_ELEMENT_SIZE <= L).

Definition elem_ok (v : valtype) : Prop := bytes_ok v /\ size v <= L.

(** What an operation keeps: the position, the conditions open, the bounds. *)
Definition Inv (p : script) (vf : list bool) (lo : Z) (s : est) : Prop :=
  pc s = p /\ vfExec s = vf /\ 0 <= lo <= nOpCount s /\ nOpCount s <= 201 /\
  Forall elem_ok (stack s) /\ Forall elem_ok (altstack s).
(** The same, with the size of the stack. *)
Definition G (p : script) (vf : list bool) (lo n : Z) (s : est) : Prop :=
  Inv p vf lo s /\ size (stack s) = n.

Lemma G_start p vf lo s : Inv p vf lo s -> G p vf lo (size (stack s)) s.
Proof. done. Qed.
Lemma G_Inv p vf lo n s : G p vf lo n s -> Inv p vf lo s.
Proof. by intros []. Qed.

Lemma elem_num n : elem_ok (ScriptNum.getvch n).
Proof.
  split; [apply serialize_ok|]. unfold ScriptNum.getvch. pose proof (serialize_size n).
  unfold MAX_SCRIPT_ELEMENT_SIZE in HL. lia.
Qed.
Lemma elem_bool b : elem_ok (vch_of_bool b).
Proof.
  unfold MAX_SCRIPT_ELEMENT_SIZE in HL.
  destruct b; split; unfold vch_of_bool, vchTrue, vchFalse, size; cbn [length]; try lia; repeat constructor; done.
Qed.
Lemma elem_digest op v : elem_ok (op_digest op v).
Proof.
  destruct (op_digest_ok op v). unfold MAX_SCRIPT_ELEMENT_SIZE in HL. split; [done|lia].
Qed.

Lemma wp_need p vf lo n k Q s : G p vf lo n s -> (k <= n -> Q tt s) -> wp (need k) Q s.
Proof.
  intros [_ Hn] HQ. unfold need. apply wp_bind, wp_get, wp_require. rewrite Hn. intros H. propify.
  apply HQ. lia.
Qed.

Lemma wp_stacktop p vf lo n i Q s : G p vf lo n s -> - n <= i <= -1 ->
  (forall v, stack s !! Z.to_nat (- i - 1) = Some v -> elem_ok v -> Q v s) -> wp (stacktop i) Q s.
Proof.
  intros [Hi Hn] Hr HQ. unfold wp, stacktop. destruct (Z.ltb_spec i 0); [|lia].
  destruct (lookup_lt_is_Some_2 (stack s) (Z.to_nat (- i - 1))) as [v Hv]; [unfold size in Hn; lia|].
  rewrite Hv. apply HQ; [done|]. destruct Hi as (_ & _ & _ & _ & Hs & _).
  by apply (Forall_lookup_1 _ _ _ _ Hs Hv).
Qed.

Lemma G_set_stack p vf lo n s st : G p vf lo n s -> Forall elem_ok st ->
  G p vf lo (size st) (snd (set_stack st s)).
Proof. unfold G, Inv. cbn. tauto. Qed.

Lemma wp_set_stack p vf lo n st (Q : unit -> est -> Prop) s : G p vf lo n s -> Forall elem_ok st ->
  (forall s', G p vf lo (size st) s' -> Q tt s') -> wp (set_stack st) Q s.
Proof. intros HG Hst HQ. apply HQ. by eapply (G_set_stack _ _ _ _ s). Qed.

Lemma wp_popstack p vf lo n (Q : unit -> est -> Prop) s : G p vf lo n s -> 1 <= n ->
  (forall s', G p vf lo (n - 1) s' -> Q tt s') -> wp popstack Q s.
Proof.
  intros HG Hn HQ. unfold popstack. apply wp_bind, wp_get.
  pose proof HG as [(_ & _ & _ & _ & Hs & _) En].
  destruct (stack s) as [|x st]; [rewrite size_nil in En; lia|].
  apply (wp_set_stack p vf lo n); [done|by inversion Hs|].
  rewrite size_cons in En. intros s' Hs'. apply HQ. by replace (n - 1) with (size st) by lia.
Qed.

Lemma wp_push p vf lo n v (Q : unit -> est -> Prop) s : G p vf lo n s -> elem_ok v ->
  (forall s', G p vf lo (n + 1) s' -> Q tt s') -> wp (push v) Q s.
Proof.
  intros HG Hv HQ. unfold push. apply wp_bind, wp_get.
  pose proof HG as [(_ & _ & _ & _ & Hs & _) En].
  apply (wp_set_stack p vf lo n); [done|by constructor|].
  rewrite size_cons, En, Z.add_comm. exact HQ.
Qed.

Lemma wp_erase p vf lo n i (Q : unit -> est -> Prop) s : G p vf lo n s -> 1 <= i <= n ->
  (forall s', G p vf lo (n - 1) s' -> Q tt s') -> wp (erase i) Q s.
Proof.
  intros HG Hi HQ. unfold erase. apply wp_bind, wp_get.
  pose proof HG as [(_ & _ & _ & _ & Hs & _) En].
  destruct (lookup_lt_is_Some_2 (stack s) (Z.to_nat (i - 1))) as [v Hv]; [unfold size in En; lia|].
  apply (wp_set_stack p vf lo n); [done|by apply Forall_delete|].
  intros s' Hs'. apply HQ. replace (n - 1) with (size (delete (Z.to_nat (i - 1)) (stack s))); [done|].
  unfold size in *. rewrite length_delete by (by eexists). lia.
Qed.

Lemma wp_swaptop p vf lo n i j (Q : unit -> est -> Prop) s : G p vf lo n s -> 1 <= i <= n -> 1 <= j <= n ->
  (forall s', G p vf lo n s' -> Q tt s') -> wp (swaptop i j) Q s.
Proof.
  intros HG Hi Hj HQ. unfold swaptop. pose proof HG as [(_ & _ & _ & _ & Hs & _) En].
  apply wp_bind, (wp_stacktop p vf lo n); [done|lia|]. intros a _ Ha.
  apply wp_bind, (wp_stacktop p vf lo n); [done|lia|]. intros b _ Hb.
  apply wp_bind, wp_get, (wp_set_stack p vf lo n); [done|by repeat apply Forall_insert|].
  intros s' Hs'. apply HQ. unfold size in *. rewrite !length_insert in Hs'. by rewrite <- En.
Qed.

Lemma wp_script_num v k Q s : elem_ok v -> 1 <= k <= 8 ->
  (forall n, Z.abs n < 2 ^ (8 * k - 1) -> Q n s) -> wp (script_num flags v k) Q s.
Proof.
  intros [Hv _] Hk HQ. unfold script_num.
  destruct (ScriptNum.of_vch _ _ _) as [n|] eqn:En; [|reflexivity].
  apply wp_ret, HQ. by eapply of_vch_bound.
Qed.

Lemma set_error_safe p vf lo n e (Q : bool -> est -> Prop) s : G p vf lo n s ->
  (forall s', G p vf lo n s' -> Q false s') -> wp (set_error e) Q s.
Proof. intros HG HQ. apply HQ. revert HG. unfold G, Inv. cbn. tauto. Qed.

Lemma wp_check_encodings p vf lo n a b (Q : unit -> est -> Prop) s : G p vf lo n s -> Q tt s ->
  wp (check_encodings flags a b) Q s.
Proof.
  intros HG HQ. unfold check_encodings, CheckSignatureEncoding, CheckPubKeyEncoding, IsLowDERSignature.
  unfold wp, bind. repeat (cbn; match goal with |- context [if ?c then _ else _] => destruct c end);
    cbn; reflexivity || exact HQ.
Qed.

(** *** Every operation *)

(** [Inv] of the state an operation is run in, and of the one it ends in. *)
Definition safe (m : M unit) : Prop :=
  forall p vf lo s, Inv p vf lo s -> wp m (fun _ s' => Inv p vf lo s') s.

(** One step of the symbolic execution of an operation. *)
Ltac wp_step :=
  match goal with
  | |- wp (bind _ _) _ _ => apply wp_bind
  | |- wp (ret _) _ _ => apply wp_ret
  | |- wp (fail _) _ _ => apply wp_fail
  | |- wp fail_set _ _ => apply wp_fail_set
  | |- wp (require _ _) _ _ => apply wp_require; intros ?
  | |- wp (need _) _ _ => eapply wp_need; [eassumption|]; intros ?
  | |- wp (stacktop _) _ _ => eapply wp_stacktop; [eassumption|lia|]; intros ? _ ?
  | |- wp popstack _ _ => eapply wp_popstack; [eassumption|lia|]; intros ? ?
  | |- wp (push _) _ _ => eapply wp_push; [eassumption|auto using elem_num, elem_bool, elem_digest|]; intros ? ?
  | |- wp (erase _) _ _ => eapply wp_erase; [eassumption|lia|]; intros ? ?
  | |- wp (swaptop _ _) _ _ => eapply wp_swaptop; [eassumption|lia|lia|]; intros ? ?
  | |- wp (script_num4 _ _) _ _ => apply wp_script_num; [assumption|unfold ScriptNum.nDefaultMaxNumSize; lia|]; intros ? ?
  | |- wp (script_num _ _ _) _ _ => apply wp_script_num; [assumption|lia|]; intros ? ?
  | |- wp (check_encodings _ _ _) _ _ => eapply wp_check_encodings; [eassumption|]
  | |- wp (if ?c then _ else _) _ _ => destruct c
  | |- Inv _ _ _ _ => eapply G_Inv; eassumption
  end; cbv zeta beta.
Ltac wp_op :=
  intros p vf lo s Hs%G_start; pose proof (size_nonneg (stack s)); cbv zeta beta; repeat wp_step.

Lemma push_result_safe b v e : safe (push_result b v e).
Proof. unfold push_result. wp_op. Qed.

Lemma op_push_small_safe op : safe (op_push_small op).
Proof. unfold op_push_small. wp_op. Qed.
Lemma op_checklocktimeverify_safe : safe (op_checklocktimeverify flags check).
Proof. unfold op_checklocktimeverify. wp_op. Qed.
Lemma op_upgradable_nop_safe : safe (op_upgradable_nop flags).
Proof. unfold op_upgradable_nop. wp_op. Qed.
Lemma op_verify_safe : safe op_verify.
Proof. unfold op_verify. wp_op. Qed.
Lemma op_2drop_safe : safe op_2drop.
Proof. unfold op_2drop. wp_op. Qed.
Lemma op_2dup_safe : safe op_2dup.
Proof. unfold op_2dup. wp_op. Qed.
Lemma op_3dup_safe : safe op_3dup.
Proof. unfold op_3dup. wp_op. Qed.
Lemma op_2over_safe : safe op_2over.
Proof. unfold op_2over. wp_op. Qed.
Lemma op_2rot_safe : safe op_2rot.
Proof. unfold op_2rot. wp_op. Qed.
Lemma op_2swap_safe : safe op_2swap.
Proof. unfold op_2swap. wp_op. Qed.
Lemma op_ifdup_safe : safe op_ifdup.
Proof. unfold op_ifdup. wp_op. Qed.
Lemma op_drop_safe : safe op_drop.
Proof. unfold op_drop. wp_op. Qed.
Lemma op_dup_safe : safe op_dup.
Proof. unfold op_dup. wp_op. Qed.
Lemma op_nip_safe : safe op_nip.
Proof. unfold op_nip. wp_op. Qed.
Lemma op_over_safe : safe op_over.
Proof. unfold op_over. wp_op. Qed.
Lemma op_rot_safe : safe op_rot.
Proof. unfold op_rot. wp_op. Qed.
Lemma op_swap_safe : safe op_swap.
Proof. unfold op_swap. wp_op. Qed.
Lemma op_size_safe : safe op_size.
Proof. unfold op_size. wp_op. Qed.
Lemma op_equal_safe v : safe (op_equal v).
Proof. unfold op_equal. wp_op. Qed.
Lemma op_within_safe : safe (op_within flags).
Proof. unfold op_within. wp_op. Qed.
Lemma op_hash_safe op : safe (op_hash op).
Proof. unfold op_hash. wp_op. Qed.

Lemma op_depth_safe : safe op_depth.
Proof. unfold op_depth. wp_op. apply wp_get. repeat wp_step. Qed.

Lemma op_checksig_safe v : safe (op_checksig flags check consensusBranchId scr v).
Proof. unfold op_checksig. wp_op. all: apply push_result_safe; repeat wp_step. Qed.

Lemma op_checkcryptocondition_safe v :
  safe (op_checkcryptocondition ASSETCHAINS_CC check consensusBranchId scr v).
Proof. unfold op_checkcryptocondition. wp_op. all: apply push_result_safe; repeat wp_step. Qed.

(** The operands are below 2^31 in absolute value, so no assertion of [CScriptNum] fails. *)
Lemma unary_some op n : Z.abs n < 2 ^ (8 * 4 - 1) ->
  In op [OP_1ADD; OP_1SUB; OP_NEGATE; OP_ABS; OP_NOT; OP_0NOTEQUAL] -> exists m, unary op n = Some m.
Proof.
  intros Hn Hop. unfold unary, ScriptNum.add_assign, ScriptNum.sub_assign, ScriptNum.neg.
  change (8 * 4 - 1) with 31 in Hn.
  repeat (destruct Hop as [<-|Hop]; [|]); try done.
  all: repeat case_match; propify; try (by eexists); exfalso;
    repeat match goal with
    | H : _ || _ = false |- _ => apply orb_false_iff in H as [? H]
    | H : _ && _ = false |- _ => apply andb_false_iff in H as [H | H]
    end; propify; lia.
Qed.

Lemma op_unary_safe op : In op [OP_1ADD; OP_1SUB; OP_NEGATE; OP_ABS; OP_NOT; OP_0NOTEQUAL] ->
  safe (op_unary flags op).
Proof.
  intros Hop. unfold op_unary. wp_op. apply wp_assert_some.
  match goal with H : Z.abs _ < _ |- _ => destruct (unary_some _ _ H Hop) as [m Hm] end.
  exists m. split; [done|]. repeat wp_step.
Qed.

Definition binary_ops : list opcodetype :=
  [OP_ADD; OP_SUB; OP_BOOLAND; OP_BOOLOR; OP_NUMEQUAL; OP_NUMEQUALVERIFY; OP_NUMNOTEQUAL;
   OP_LESSTHAN; OP_GREATERTHAN; OP_LESSTHANOREQUAL; OP_GREATERTHANOREQUAL; OP_MIN; OP_MAX].

Lemma op_binary_safe op : In op binary_ops -> safe (op_binary flags op).
Proof.
  intros Hop. assert (forall a b, exists m, binary op a b = Some m) as Hb.
  { intros a b. unfold binary_ops in Hop. repeat (destruct Hop as [<-|Hop]; [by eexists|]). done. }
  unfold op_binary. wp_op. apply wp_assert_some.
  match goal with |- exists a, binary _ ?x ?y = _ /\ _ => destruct (Hb x y) as [m Hm] end.
  exists m. split; [done|]. repeat wp_step.
Qed.

Lemma op_toaltstack_safe : safe op_toaltstack.
Proof.
  unfold op_toaltstack. wp_op. apply wp_get. wp_step.
  match goal with Hv : elem_ok ?v |- wp (set_altstack (?v :: ?alt)) _ _ =>
    assert (G p vf lo (size (stack s)) (snd (set_altstack (v :: alt) s))) as Hs' end.
  { revert Hs. unfold G, Inv. cbn. intros ((?&?&?&?&?&?)&?). repeat split; auto; lia. }
  change (wp popstack (fun _ s' => Inv p vf lo s') (snd (set_altstack (v :: altstack s) s))).
  repeat wp_step.
Qed.

Lemma op_fromaltstack_safe : safe op_fromaltstack.
Proof.
  intros p vf lo s Hs. unfold op_fromaltstack. wp_step. apply wp_get. repeat wp_step. propify.
  pose proof Hs as (Hp & Hvf & Hlo & Hn & Hst & Halt).
  unfold altstacktop, popaltstack, push, set_stack, set_altstack, get, bind, wp. cbn.
  destruct (altstack s) as [|v alt] eqn:Ea; [rewrite size_nil in *; lia|].
  inversion Halt as [|? ? Hv Halt']; subst. change (Z.to_nat (- (-1) - 1)) with O. cbn. rewrite Ea. cbn.
  unfold Inv. cbn. repeat split; auto; lia.
Qed.

Lemma op_tuck_safe : safe op_tuck.
Proof.
  unfold op_tuck. wp_op. apply wp_get.
  pose proof Hs as [(_ & _ & _ & _ & Hst & _) _].
  eapply wp_set_stack; [eassumption| |intros s' Hs'; by eapply G_Inv].
  apply Forall_app. split; [by apply Forall_take|]. constructor; [done|by apply Forall_drop].
Qed.

Lemma op_pick_roll_safe roll : safe (op_pick_roll flags roll).
Proof.
  unfold op_pick_roll. wp_op. apply wp_get. repeat wp_step; propify.
  all: match goal with H : G _ _ _ _ ?t |- wp _ _ ?t => pose proof (proj2 H) end.
  all: repeat wp_step.
Qed.

Lemma multisig_loop_safe fuel : forall p vf lo n s fS isig ikey nSigs nKeys (Q : bool -> est -> Prop),
  G p vf lo n s -> 0 < ikey -> 0 < isig -> 0 <= nKeys -> nSigs <= nKeys ->
  ikey + nKeys <= n + 1 -> isig + nSigs <= n + 1 -> (forall b, Q b s) ->
  wp (multisig_loop flags check consensusBranchId scr fuel fS isig ikey nSigs nKeys) Q s.
Proof.
  induction fuel as [|f IH]; intros p vf lo n s fS isig ikey nSigs nKeys Q Hs H1 H2 H3 H4 H5 H6 HQ;
    cbn [multisig_loop]; [by apply wp_ret|].
  destruct (fS && (nSigs >? 0)) eqn:Ec; [|by apply wp_ret]. propify.
  repeat wp_step.
  destruct (CheckSig check _ _ _ _) eqn:Ek.
  - destruct (Z.gtb_spec (nSigs - 1) (nKeys - 1)) as [|Hle]; [lia|].
    apply (IH p vf lo n); auto; lia.
  - destruct (Z.gtb_spec nSigs (nKeys - 1)) as [Hgt|Hle].
    + destruct f as [|f]; cbn [multisig_loop andb]; by apply wp_ret.
    + apply (IH p vf lo n); auto; lia.
Qed.

Lemma popstack_n_safe k : forall p vf lo n s (Q : unit -> est -> Prop),
  G p vf lo n s -> Z.of_nat k <= n -> (forall s', G p vf lo (n - Z.of_nat k) s' -> Q tt s') ->
  wp (popstack_n k) Q s.
Proof.
  induction k as [|k IH]; intros p vf lo n s Q Hs Hk HQ; cbn [popstack_n].
  - apply wp_ret, HQ. by rewrite Z.sub_0_r.
  - repeat wp_step. eapply IH; [eassumption|lia|]. intros s'' Hs''. apply HQ.
    by replace (n - Z.of_nat (S k)) with (n - 1 - Z.of_nat k) by lia.
Qed.

Lemma wp_set_nOpCount p vf lo n m (Q : unit -> est -> Prop) s : G p vf lo n s -> lo <= m ->
  (m <= 201 -> forall s', G p vf lo n s' -> nOpCount s' = m -> Q tt s') ->
  wp (set_nOpCount m ;;; require (negb (m >? 201)) SCRIPT_ERR_OP_COUNT) Q s.
Proof.
  intros Hs Hm HQ. apply wp_bind. unfold wp at 1, set_nOpCount. apply wp_require. intros Hc. propify.
  apply HQ; [lia| |done]. revert Hs. unfold G, Inv. cbn. intros ((?&?&?&?&?&?)&?). repeat split; auto; lia.
Qed.

Lemma bind_assoc {A B C} (m : M A) (k : A -> M B) (h : B -> M C) s :
  bind m (fun x => bind (k x) h) s = bind (bind m k) h s.
Proof. unfold bind. by destruct (m s) as [[]]. Qed.
Lemma wp_assoc {A B C} (m : M A) (k : A -> M B) (h : B -> M C) Q s :
  wp (bind (bind m k) h) Q s -> wp (bind m (fun x => bind (k x) h)) Q s.
Proof. unfold wp. by rewrite bind_assoc. Qed.

Lemma getint_range n : ScriptNum.getint n <= INT32_MAX.
Proof. unfold ScriptNum.getint. repeat case_match; propify; lia. Qed.

Lemma op_checkmultisig_safe v : safe (op_checkmultisig flags check consensusBranchId scr v).
Proof.
  unfold op_checkmultisig. wp_op. apply wp_get. cbv beta.
  propify.
  apply wp_assoc, wp_bind. eapply wp_set_nOpCount.
  { eassumption. }
  { destruct Hs as [(_ & _ & ? & _) _]. lia. }
  intros _ s1 Hs1 _. repeat wp_step.
  propify.
  repeat wp_step. eapply multisig_loop_safe; [eassumption|try lia..|].
  intros b. wp_step. eapply popstack_n_safe; [eassumption|lia|]. intros s2 Hs2.
  repeat wp_step. apply push_result_safe. repeat wp_step.
Qed.

(** The number of open conditionals after an instruction; [None] when it is an error. *)
Definition depth_after (op : opcodetype) (d : nat) : option nat :=
  match op with
  | OP_IF | OP_NOTIF => Some (S d)
  | OP_ELSE => match d with O => None | S _ => Some d end
  | OP_ENDIF => match d with O => None | S d' => Some d' end
  | OP_VERIF | OP_VERNOTIF => None
  | _ => Some d
  end.

Definition safe_op (op : opcodetype) (m : M unit) : Prop :=
  forall p vf lo s, Inv p vf lo s ->
    wp m (fun _ s' => exists vf', Inv p vf' lo s' /\ depth_after op (length vf) = Some (length vf')) s.

Lemma safe_safe_op op m : (forall d, depth_after op d = Some d) -> safe m -> safe_op op m.
Proof.
  intros Hd Hm p vf lo s Hs. eapply wp_mono; [by apply (Hm p vf lo)|]. intros a s' Hs'. exists vf. by split.
Qed.

Lemma Inv_set_vfExec p vf vf' lo s : Inv p vf lo s -> Inv p vf' lo (snd (set_vfExec vf' s)).
Proof. unfold Inv. cbn. tauto. Qed.

Lemma op_if_safe op neg fExec : op = OP_IF \/ op = OP_NOTIF -> safe_op op (op_if neg fExec).
Proof.
  intros Hop p vf lo s Hs.
  assert (forall f s, Inv p vf lo s ->
    wp (v <- get vfExec ;; set_vfExec (f :: v))
       (fun _ s' => exists vf', Inv p vf' lo s' /\ depth_after op (length vf) = Some (length vf')) s) as Hpush.
  { intros f s0 Hs0. apply wp_bind, wp_get. exists (f :: vf).
    assert (vfExec s0 = vf) as Ev by apply Hs0. rewrite Ev. split; [by apply (Inv_set_vfExec p vf)|].
    by destruct Hop as [-> | ->]. }
  unfold op_if. wp_step. destruct fExec; [|apply wp_ret; by apply Hpush].
  apply G_start in Hs. wp_step. apply wp_get. repeat wp_step; propify.
  all: repeat wp_step; apply Hpush; by eapply G_Inv.
Qed.

Lemma op_else_safe : safe_op OP_ELSE op_else.
Proof.
  intros p vf lo s Hs. unfold op_else. apply wp_bind, wp_get.
  assert (vfExec s = vf) as Ev by apply Hs. rewrite Ev. destruct vf as [|b vf]; [apply wp_fail|].
  exists (negb b :: vf). split; [by eapply Inv_set_vfExec|done].
Qed.

Lemma op_endif_safe : safe_op OP_ENDIF op_endif.
Proof.
  intros p vf lo s Hs. unfold op_endif. apply wp_bind, wp_get.
  assert (vfExec s = vf) as Ev by apply Hs. rewrite Ev. destruct vf as [|b vf]; [apply wp_fail|].
  exists vf. split; [by eapply Inv_set_vfExec|done].
Qed.

Lemma safe_op_fail op e : safe_op op (fail e).
Proof. intros p vf lo s _. apply wp_fail. Qed.
Lemma ret_safe : safe (ret tt).
Proof. intros p vf lo s Hs. by apply wp_ret. Qed.

#[local] Hint Resolve ret_safe op_push_small_safe op_checklocktimeverify_safe
  op_upgradable_nop_safe op_verify_safe op_toaltstack_safe op_fromaltstack_safe op_2drop_safe
  op_2dup_safe op_3dup_safe op_2over_safe op_2rot_safe op_2swap_safe op_ifdup_safe op_depth_safe
  op_drop_safe op_dup_safe op_nip_safe op_over_safe op_pick_roll_safe op_rot_safe op_swap_safe
  op_tuck_safe op_size_safe op_equal_safe op_within_safe op_hash_safe op_checksig_safe
  op_checkmultisig_safe op_checkcryptocondition_safe : core.

Lemma exec_op_safe op fExec :
  safe_op op (exec_op ASSETCHAINS_CC flags check consensusBranchId scr op fExec).
Proof.
  destruct op; cbn [exec_op];
    first [ apply safe_op_fail
          | apply op_if_safe; auto; fail
          | apply op_else_safe
          | apply op_endif_safe
          | apply safe_safe_op; [done|auto; fail]
          | apply safe_safe_op; [done|apply op_unary_safe; cbn; tauto]
          | apply safe_safe_op; [done|apply op_binary_safe; cbn; tauto] ].
Qed.

Lemma depth_after_other op d : op_le OP_IF op && op_le op OP_ENDIF = false -> depth_after op d = Some d.
Proof. by destruct op. Qed.

Lemma dispatch_safe fExec op data : elem_ok data ->
  safe_op op (dispatch ASSETCHAINS_CC flags check consensusBranchId scr fExec op data).
Proof.
  intros Hd p vf lo s Hs. unfold dispatch.
  destruct (fExec && (0 <=? opcode op) && op_le op OP_PUSHDATA4) eqn:Ep.
  - destruct (fRequireMinimal flags && _); [apply wp_fail|].
    eapply wp_push; [by apply G_start|done|]. intros s' Hs'. exists vf. split; [by eapply G_Inv|].
    apply depth_after_other. propify. unfold op_le in *. propify. cbn in *.
    apply andb_false_iff. left. apply Z.leb_gt. lia.
  - destruct (fExec || (op_le OP_IF op && op_le op OP_ENDIF)) eqn:Ee; [by apply exec_op_safe|].
    apply wp_ret. exists vf. split; [done|]. apply depth_after_other. by propify.
Qed.

(** The operations counted before the ones of [op]. *)
Definition count_after (op : opcodetype) (n : Z) : Z := if op_lt OP_16 op then n + 1 else n.

Lemma check_instruction_safe op data p vf lo s : Inv p vf lo s ->
  wp (check_instruction op data) (fun _ s' => Inv p vf (count_after op lo) s' /\
    size data <= MAX_SCRIPT_ELEMENT_SIZE /\ is_disabled op = false) s.
Proof.
  intros Hs. unfold check_instruction, count_after. repeat wp_step.
  - apply wp_get. eapply wp_set_nOpCount; [by apply G_start| |].
    { destruct Hs as (_ & _ & ? & _). lia. }
    intros Hle s1 Hs1 Hn. wp_step. propify. split; [|done].
    apply G_Inv in Hs1. destruct Hs as (_ & _ & ? & _), Hs1 as (? & ? & ? & ? & ?).
    repeat split; try tauto; lia.
  - propify. done.
Qed.

Abbreviation step_ := (step ASSETCHAINS_CC flags check consensusBranchId scr).
Abbreviation eval_loop_ := (eval_loop ASSETCHAINS_CC flags check consensusBranchId scr).

(** What one iteration has established when it does not leave the loop. *)
Definition step_post (p : script) (vf : list bool) (lo : Z) (s' : est) : Prop :=
  let r := CScript.GetOp2 p in
  exists vf', Inv (CScript.go_pc r) vf' (count_after (CScript.go_op r) lo) s' /\
    depth_after (CScript.go_op r) (length vf) = Some (length vf') /\ CScript.go_ret r = true /\
    size (CScript.go_data r) <= MAX_SCRIPT_ELEMENT_SIZE /\ is_disabled (CScript.go_op r) = false /\
    size (stack s') + size (altstack s') <= 1000.

Lemma step_safe p vf lo s : Inv p vf lo s -> bytes_ok p -> wp step_ (fun _ => step_post p vf lo) s.
Proof.
  intros Hs Hp. unfold step. apply wp_bind, wp_get. cbv zeta. apply wp_bind, wp_get.
  assert (pc s = p) as Ep by apply Hs. rewrite Ep. unfold step_post.
  set (r := CScript.GetOp2 p). apply wp_bind. unfold wp at 1, set_pc.
  set (s1 := {| pc := _ |}).
  assert (Inv (CScript.go_pc r) vf lo s1) as Hs1 by (revert Hs; unfold Inv; cbn; tauto).
  destruct (CScript.go_ret r) eqn:Er; cbn [negb]; [|apply wp_fail].
  apply wp_bind. eapply wp_mono; [by apply check_instruction_safe|]. intros [] s2 (Hs2 & Hsz & Hdis).
  apply wp_bind. eapply wp_mono; [apply dispatch_safe; [|exact Hs2]|].
  { split; [by apply GetOp2_bytes_ok|]. lia. }
  intros [] s3 (vf' & Hs3 & Hdep). apply wp_bind, wp_get. apply wp_bind, wp_get. apply wp_require.
  intros Hst. propify. exists vf'. tauto.
Qed.

(** The script read as a whole, without running it: every instruction decodes, pushes at most
    520 bytes and is not disabled, at most 201 operations are counted, and the conditionals nest;
    the result is the number of conditionals left open. *)
Fixpoint scan (fuel : nat) (n : Z) (d : nat) (p : script) : option nat :=
  match p with
  | [] => Some d
  | _ =>
      match fuel with
      | O => None
      | S f =>
          let r := CScript.GetOp2 p in
          let op := CScript.go_op r in
          if CScript.go_ret r && (size (CScript.go_data r) <=? MAX_SCRIPT_ELEMENT_SIZE) &&
             negb (is_disabled op) && (count_after op n <=? 201) then
            match depth_after op d with
            | Some d' => scan f (count_after op n) d' (CScript.go_pc r)
            | None => None
            end
          else None
      end
  end.

Lemma eval_loop_safe fuel : forall p vf lo s, (length p < fuel)%nat -> Inv p vf lo s -> bytes_ok p ->
  wp (eval_loop_ fuel) (fun _ s' => exists vf' lo', Inv [] vf' lo' s' /\
    scan fuel lo (length vf) p = Some (length vf') /\
    (p = [] /\ s' = s \/ size (stack s') + size (altstack s') <= 1000)) s.
Proof.
  induction fuel as [|f IH]; intros p vf lo s Hf Hs Hp; [lia|].
  cbn [eval_loop]. apply wp_bind, wp_get. assert (pc s = p) as Ep by apply Hs. rewrite Ep.
  destruct p as [|x p']; [apply wp_ret; exists vf, lo; auto|].
  remember (x :: p') as p eqn:Exp.
  apply wp_bind. eapply wp_mono; [by apply step_safe|].
  intros [] s1 (vf1 & Hs1 & Hd & Hr & Hsz & Hdis & Hst).
  eapply wp_mono; [apply IH; [|exact Hs1|by apply GetOp2_bytes_ok]|].
  { pose proof (GetOp2_progress p). subst p. specialize (H ltac:(done)). cbn [length] in *. lia. }
  intros [] s' (vf' & lo' & Hs' & Hscan & Hor). exists vf', lo'. split; [done|]. split.
  - rewrite Exp. cbn [scan]. rewrite <- Exp, Hr, Hdis, Hd.
    destruct (Z.leb_spec (size (CScript.go_data (CScript.GetOp2 p))) MAX_SCRIPT_ELEMENT_SIZE); [|lia].
    destruct Hs1 as (_ & _ & Hlo & Hn & _).
    destruct (Z.leb_spec (count_after (CScript.go_op (CScript.GetOp2 p)) lo) 201); [|lia]. done.
  - right. destruct Hor as [[_ ->]|]; done.
Qed.

(** More fuel changes nothing. *)
Lemma eval_loop_fuel f : forall g p vf lo s, (length p < f)%nat -> (length p < g)%nat ->
  Inv p vf lo s -> bytes_ok p -> eval_loop_ f s = eval_loop_ g s.
Proof.
  induction f as [|f IH]; intros g p vf lo s Hf Hg Hs Hp; [lia|]. destruct g as [|g]; [lia|].
  cbn [eval_loop]. unfold bind at 1, get at 1. unfold bind at 2, get at 1.
  assert (pc s = p) as Ep by apply Hs. rewrite Ep.
  destruct p as [|x p']; [done|]. remember (x :: p') as p eqn:Exp.
  pose proof (step_safe p vf lo s Hs Hp) as Hstep. unfold wp in Hstep. unfold bind.
  destruct (step_ s) as [[[]|b|e|] s']; [|done|done|done].
  destruct Hstep as (vf' & Hs' & _).
  pose proof (GetOp2_progress p). subst p. specialize (H ltac:(done)). cbn [length] in *.
  eapply IH; [| |exact Hs'|by apply GetOp2_bytes_ok]; lia.
Qed.

Definition start (st : list valtype) : est :=
  {| pc := scr; stack := st; altstack := []; vfExec := []; nOpCount := 0; serror := SCRIPT_ERR_UNKNOWN_ERROR |}.

Lemma start_Inv st : Forall elem_ok st -> Inv scr [] 0 (start st).
Proof. intros Hst. repeat split; try done. Qed.
End Safety.

Section Evaluation.
Context {E : Secp256k1}.
Context (ASSETCHAINS_CC : Z) (flags : Z) (check : checker) (consensusBranchId : Z).

Abbreviation eval := (EvalScript ASSETCHAINS_CC flags check consensusBranchId).

(** Any stack of byte vectors has a bound on its elements. *)
Lemma elems_bounded st : Forall bytes_ok st -> exists L, MAX_SCRIPT_ELEMENT_SIZE <= L /\ Forall (elem_ok L) st.
Proof.
  induction 1 as [|v st Hv Hst (L & HL & IH)].
  - by exists MAX_SCRIPT_ELEMENT_SIZE.
  - exists (Z.max L (size v)). split; [lia|]. constructor; [split; [done|lia]|].
    eapply Forall_impl; [exact IH|]. intros w [? ?]. split; [done|lia].
Qed.

(** The result of [EvalScript], from the loop. *)
Lemma EvalScript_spec L scr st : MAX_SCRIPT_ELEMENT_SIZE <= L -> bytes_ok scr -> Forall (elem_ok L) st ->
  exists b st' e, eval scr st = Some (b, st', e) /\
    (b = true -> e = SCRIPT_ERR_OK /\ size scr <= MAX_SCRIPT_SIZE /\ scan (S (length scr)) 0 0 scr = Some O /\
       Forall (elem_ok L) st' /\ (scr = [] /\ st' = st \/ size st' <= 1000)).
Proof.
  intros HL Hscr Hst. unfold EvalScript.
  destruct (Z.gtb_spec (size scr) MAX_SCRIPT_SIZE) as [|Hsz]; [by do 3 eexists|].
  pose proof (eval_loop_safe ASSETCHAINS_CC flags check consensusBranchId scr L HL
    (S (length scr)) scr [] 0 (start scr st) ltac:(lia) (start_Inv scr L st Hst) Hscr) as Hwp.
  unfold wp, start in Hwp. destruct (eval_loop _ _ _ _ _ _ _) as [[[]|b|e|] s].
  - destruct Hwp as (vf & lo & Hs & Hscan & Hor). assert (vfExec s = vf) as Ev by apply Hs. rewrite Ev.
    destruct vf as [|x vf]; [|by do 3 eexists].
    exists true, (stack s), SCRIPT_ERR_OK. split; [done|]. intros _. split; [done|]. split; [lia|].
    split; [done|]. split; [apply Hs|].
    destruct Hor as [[-> ->]|Hor]; [by left|]. right. pose proof (size_nonneg (altstack s)). lia.
  - subst b. by do 3 eexists.
  - by do 3 eexists.
  - done.
Qed.

(** [C9] [EvalScript] is total: for every script of bytes, every initial stack, set of flags and
    checker the loop ends with the fuel given (more fuel changes nothing), no assertion fails, and
    no handler reads outside the stack or pops an empty one (an exception can only be the
    [scriptnum_error] of an operand); on success no element is longer than 520 bytes unless one
    of the initial stack was, and the stack has at most 1000 elements. *)
Theorem EvalScript_total L scr st : MAX_SCRIPT_ELEMENT_SIZE <= L -> bytes_ok scr ->
  Forall (fun v => bytes_ok v /\ size v <= L) st ->
  let loop fuel := eval_loop ASSETCHAINS_CC flags check consensusBranchId scr fuel
                     {| pc := scr; stack := st; altstack := []; vfExec := []; nOpCount := 0;
                        serror := SCRIPT_ERR_UNKNOWN_ERROR |} in
  (forall fuel, (length scr < fuel)%nat -> loop fuel = loop (S (length scr))) /\
  match fst (loop (S (length scr))) with
  | Val _ => True | Ret b => b = false | Throw e => e = scriptnum_error | Abort_ => False
  end /\
  exists b st' e, eval scr st = Some (b, st', e) /\
    (b = true -> Forall (fun v => bytes_ok v /\ size v <= L) st' /\ (scr = [] /\ st' = st \/ size st' <= 1000)).
Proof.
  intros HL Hscr Hst loop. split; [|split].
  - intros fuel Hf. unfold loop.
    eapply (eval_loop_fuel _ _ _ _ _ L HL); [exact Hf|lia|by apply (start_Inv scr L)|done].
  - pose proof (eval_loop_safe ASSETCHAINS_CC flags check consensusBranchId scr L HL
      (S (length scr)) scr [] 0 (start scr st) ltac:(lia) (start_Inv scr L st Hst) Hscr) as Hwp.
    unfold wp in Hwp. fold (loop (S (length scr))) in Hwp. unfold start in Hwp.
    unfold loop. by destruct (eval_loop _ _ _ _ _ _ _) as [[]].
  - destruct (EvalScript_spec L scr st HL Hscr Hst) as (b & st' & e & Ev & Hb).
    exists b, st', e. split; [done|]. intros Ht. by apply Hb.
Qed.

(** A script that evaluates to success is sound as a text, whatever ran: it has at most
    10000 bytes, every instruction in it decodes (in branches not taken too), pushes at most 520
    bytes and is not disabled, at most 201 operations count, and IF, ELSE and ENDIF nest. *)
Theorem EvalScript_success_static scr st st' e : bytes_ok scr -> Forall bytes_ok st ->
  eval scr st = Some (true, st', e) ->
  size scr <= MAX_SCRIPT_SIZE /\ scan (S (length scr)) 0 0 scr = Some O.
Proof.
  intros Hscr Hst Hev. destruct (elems_bounded st Hst) as (L & HL & Hst').
  destruct (EvalScript_spec L scr st HL Hscr Hst') as (b & s & e' & Ev & Hb).
  rewrite Hev in Ev. injection Ev as <- <- <-. by destruct (Hb eq_refl) as (_ & ? & ? & _).
Qed.

End Evaluation.

(** The empty-signature check of a script with nested conditionals: 1 IF 2 ELSE 3 ENDIF. *)
Lemma EvalScript_total_witness :
  exists b st' e, EvalScript (E := toy_secp) 0 0 BaseSignatureChecker 0 [81; 99; 82; 103; 83; 104] [] = Some (b, st', e).
Proof.
  destruct (EvalScript_total (E := toy_secp) 0 0 BaseSignatureChecker 0 520 [81; 99; 82; 103; 83; 104] [])
    as (_ & _ & b & st' & e & H & _).
  - apply (bool_decide_unpack _). vm_compute. exact I.
  - apply (bool_decide_unpack _). vm_compute. exact I.
  - constructor.
  - exists b, st', e. exact H.
Defined.

Lemma EvalScript_success_static_witness :
  scan 7 0 0 [81; 99; 82; 103; 83; 104] = Some O.
Proof.
  refine (proj2 (EvalScript_success_static (E := toy_secp) 0 0 BaseSignatureChecker 0
            [81; 99; 82; 103; 83; 104] [] [[2]] SCRIPT_ERR_OK _ _ _)).
  - apply (bool_decide_unpack _). vm_compute. exact I.
  - constructor.
  - vm_compute. reflexivity.
Defined.
