(* ===== verification/EvalRun.v ===== *)
(** * EvalRun: running concrete scripts
    Equations that execute one instruction of a script at a time, for the proofs about scripts of
    a known form, and the pure condition that the encoding checks test. *)
From S2P Require Import Prelude Endian Uint256 BlockHash Sha256 Sha1 Ripemd160 Hash ScriptNum Opcode Script Pubkey Interpreter.
#[local] Open Scope eval_scope.

Lemma bind_val {A B} (m : M A) (k : A -> M B) s a s' : m s = (Val a, s') -> bind m k s = k a s'.
Proof. unfold bind. by intros ->. Qed.

Lemma need_ok k s : k <= size (stack s) -> need k s = (Val tt, s).
Proof.
  intros Hk. unfold need, bind, get, require. destruct (Z.ltb_spec (size (stack s)) k); [lia|done].
Qed.

(** ** Running concrete scripts *)

Lemma GetOp2_op x p : CScript.go_ret (CScript.GetOp2 (x :: p)) = true ->
  CScript.go_op (CScript.GetOp2 (x :: p)) = opcodetype_of x.
Proof.
  cbn [CScript.GetOp2]. destruct (x <=? _); [|done].
  destruct (CScript.operand_size x p) as [[n p']|]; [|done]. by destruct (_ <? _).
Qed.

(** A direct push of at least two bytes is minimal. *)
Lemma push_data_minimal b rest : 2 <= size b <= MAX_SCRIPT_ELEMENT_SIZE ->
  exists op, CScript.GetOp2 (CScript.push_data [] b ++ rest) =
    {| CScript.go_ret := true; CScript.go_pc := rest; CScript.go_op := op; CScript.go_data := b |} /\
    0 <= opcode op /\ op_le op OP_PUSHDATA4 = true /\ CheckMinimalPush b op = true.
Proof.
  unfold MAX_SCRIPT_ELEMENT_SIZE. intros Hb.
  destruct (GetOp2_push_data b rest ltac:(lia)) as (op & H0 & Hle & _ & E).
  exists op. split; [done|]. split; [done|]. split; [done|].
  assert (exists x p, CScript.push_data [] b ++ rest = x :: p /\
    x = if size b <? 76 then size b else if size b <=? 255 then 76 else 77) as (x & p & Ex & Hx).
  { unfold CScript.push_data. cbn [opcode app].
    destruct (size b <? 76); [by do 2 eexists|]. destruct (size b <=? 255); [by do 2 eexists|].
    destruct (Z.leb_spec (size b) 65535); [by do 2 eexists|lia]. }
  rewrite Ex in E. assert (op = opcodetype_of x) as ->.
  { rewrite <- (GetOp2_op x p) by (by rewrite E). by rewrite E. }
  unfold CheckMinimalPush, op_eq. rewrite opcode_of_byte by (rewrite Hx; unfold is_byte; repeat case_match; propify; lia).
  destruct (Z.eqb_spec (size b) 0); [lia|]. destruct (Z.eqb_spec (size b) 1); [lia|]. cbn [andb].
  rewrite Hx. destruct (Z.leb_spec (size b) 75); destruct (Z.ltb_spec (size b) 76); try lia.
  destruct (Z.leb_spec (size b) 255); [done|]. destruct (Z.leb_spec (size b) 65535); [done|lia].
Qed.

(** The pure condition that [check_encodings] tests. *)
Definition encodings_ok {E : Secp256k1} (flags : Z) (vchSig vchPubKey : valtype) : bool :=
  ((size vchSig =? 0) ||
   (IsValidSignatureEncoding vchSig &&
    (negb (has_flag flags SCRIPT_VERIFY_LOW_S) || CPubKey.CheckLowS (take (length vchSig - 1) vchSig)) &&
    (negb (has_flag flags SCRIPT_VERIFY_STRICTENC) || IsDefinedHashtypeSignature vchSig))) &&
  (negb (has_flag flags SCRIPT_VERIFY_STRICTENC) || IsCompressedOrUncompressedPubKey vchPubKey).

Section Running.
Context {E : Secp256k1}.
Context (ASSETCHAINS_CC : Z) (flags : Z) (check : checker) (consensusBranchId : Z) (scr : script).

Abbreviation step_ := (step ASSETCHAINS_CC flags check consensusBranchId scr).
Abbreviation eval_loop_ := (eval_loop ASSETCHAINS_CC flags check consensusBranchId scr).

Lemma check_encodings_ok a b s : encodings_ok flags a b = true ->
  check_encodings flags a b s = (Val tt, s).
Proof.
  unfold encodings_ok, check_encodings, CheckSignatureEncoding, CheckPubKeyEncoding, IsLowDERSignature, bind.
  intros H.
  destruct (size a =? 0), (IsValidSignatureEncoding a), (has_flag flags SCRIPT_VERIFY_LOW_S),
    (CPubKey.CheckLowS _), (has_flag flags SCRIPT_VERIFY_STRICTENC), (IsDefinedHashtypeSignature a),
    (IsCompressedOrUncompressedPubKey b); discriminate H || reflexivity.
Qed.

Lemma check_encodings_bad a b s : encodings_ok flags a b = false ->
  exists s', check_encodings flags a b s = (Ret false, s').
Proof.
  unfold encodings_ok, check_encodings, CheckSignatureEncoding, CheckPubKeyEncoding, IsLowDERSignature, bind.
  intros H.
  destruct (size a =? 0), (IsValidSignatureEncoding a), (has_flag flags SCRIPT_VERIFY_LOW_S),
    (CPubKey.CheckLowS _), (has_flag flags SCRIPT_VERIFY_STRICTENC), (IsDefinedHashtypeSignature a),
    (IsCompressedOrUncompressedPubKey b); try discriminate H; eexists; reflexivity.
Qed.

(** One push. *)
Lemma step_push v rest s : 2 <= size v <= MAX_SCRIPT_ELEMENT_SIZE ->
  pc s = CScript.push_data [] v ++ rest -> vfExec s = [] -> size (stack s) + size (altstack s) < 1000 ->
  step_ s = (Val tt, {| pc := rest; stack := v :: stack s; altstack := altstack s; vfExec := [];
                        nOpCount := nOpCount s; serror := serror s |}).
Proof.
  intros Hv Hpc Hvf Hst. destruct (push_data_minimal v rest Hv) as (op & Eop & H0 & Hle & Hmin).
  unfold step, bind, get. rewrite Hvf, Hpc, Eop.
  cbn [CScript.go_pc CScript.go_ret CScript.go_op CScript.go_data set_pc negb forallb].
  unfold check_instruction, bind, require, get.
  destruct (Z.gtb_spec (size v) MAX_SCRIPT_ELEMENT_SIZE); [lia|]. cbn [negb ret].
  assert (op_lt OP_16 op = false) as ->.
  { unfold op_lt, op_le in *. propify. apply Z.ltb_ge. cbn in *. lia. }
  assert (is_disabled op = false) as -> by (destruct op; first [reflexivity | discriminate Hle]).
  cbn [negb ret]. unfold dispatch. rewrite Hle, Hmin.
  destruct (Z.leb_spec 0 (opcode op)); [|lia]. cbn [andb negb]. rewrite andb_false_r.
  unfold push, bind, get, set_stack. cbn [stack altstack pc vfExec nOpCount serror]. rewrite size_cons.
  destruct (Z.gtb_spec (1 + size (stack s) + size (altstack s)) 1000); [lia|]. by rewrite Hvf.
Qed.

(** One counted operation that is executed. *)
Lemma step_op b rest s : 96 < b < 256 -> pc s = b :: rest -> vfExec s = [] -> nOpCount s < 201 ->
  is_disabled (opcodetype_of b) = false ->
  step_ s =
  (exec_op ASSETCHAINS_CC flags check consensusBranchId scr (opcodetype_of b) true ;;;
   st <- get stack ;; alt <- get altstack ;;
   require (negb (size st + size alt >? 1000)) SCRIPT_ERR_STACK_SIZE)
  {| pc := rest; stack := stack s; altstack := altstack s; vfExec := []; nOpCount := nOpCount s + 1;
     serror := serror s |}.
Proof.
  intros Hb Hpc Hvf Hn Hdis. unfold step, bind at 1, get at 1. unfold bind at 1, get at 1.
  rewrite Hvf, Hpc. cbn [CScript.GetOp2]. cbv zeta.
  assert ((b <=? opcode OP_PUSHDATA4) = false) as -> by (apply Z.leb_gt; cbn; lia).
  cbn [CScript.go_pc CScript.go_ret CScript.go_op CScript.go_data set_pc negb forallb].
  unfold bind at 1, set_pc at 1. unfold check_instruction, bind, require, get.
  change (size (@nil Z) >? MAX_SCRIPT_ELEMENT_SIZE) with false. cbn [negb ret].
  unfold op_lt. rewrite opcode_of_byte by (unfold is_byte; lia).
  assert ((opcode OP_16 <? b) = true) as -> by (apply Z.ltb_lt; cbn; lia). cbn [nOpCount set_nOpCount].
  destruct (Z.gtb_spec (nOpCount s + 1) 201); [lia|]. rewrite Hdis. cbn [negb ret].
  unfold dispatch, op_le. rewrite !opcode_of_byte by (unfold is_byte; lia).
  assert ((b <=? opcode OP_PUSHDATA4) = false) as -> by (apply Z.leb_gt; cbn; lia).
  rewrite andb_false_r. cbn [orb]. rewrite Hvf. reflexivity.
Qed.

Lemma eval_loop_step fuel s : pc s <> [] ->
  eval_loop_ (S fuel) s = match step_ s with (Val _, s') => eval_loop_ fuel s' | r => r end.
Proof.
  intros Hp. cbn [eval_loop]. unfold bind at 1, get at 1. destruct (pc s) as [|x p]; [done|].
  unfold bind. by destruct (step_ s) as [[[]|?|?|] ?].
Qed.

Lemma eval_loop_end fuel s : pc s = [] -> eval_loop_ fuel s = (Val tt, s).
Proof. intros Hp. destruct fuel; [done|]. cbn [eval_loop]. unfold bind, get. by rewrite Hp. Qed.
End Running.
