(* ===== verification/Der.v ===== *)
(** * Der: the signature encoding
    [IsValidSignatureEncoding] against the grammar of strict DER. *)
From S2P Require Import Prelude Endian Uint256 BlockHash Sha256 Sha1 Ripemd160 Hash ScriptNum Opcode Script Pubkey Interpreter.

(** ** DER *)

(** A positive integer in its shortest big-endian form. *)
Definition der_int (x : list Z) : Prop :=
  match x with
  | [] => False
  | [b] => b < 128
  | b :: c :: _ => b < 128 /\ (b = 0 -> 128 <= c)
  end.

Definition der_signature (sig : valtype) : Prop :=
  exists R S hashtype,
    sig = [48; size R + size S + 4; 2; size R] ++ R ++ [2; size S] ++ S ++ [hashtype] /\
    der_int R /\ der_int S /\ size sig <= 73.

Lemma at_app_r l k i : size l <= i -> at_ (l ++ k) i = at_ k (i - size l).
Proof.
  unfold at_, size. intros Hi. rewrite app_nth2 by lia. f_equal. lia.
Qed.
Lemma at_app_l l k i : 0 <= i < size l -> at_ (l ++ k) i = at_ l i.
Proof. unfold at_, size. intros Hi. apply app_nth1. lia. Qed.

Lemma split_at {A} (l : list A) n : 0 <= n <= size l -> exists a b, l = a ++ b /\ size a = n.
Proof.
  unfold size. intros Hn. exists (take (Z.to_nat n) l), (drop (Z.to_nat n) l).
  split; [by rewrite take_drop | rewrite length_take; lia].
Qed.

(** The two tests of the source on an integer of [n] bytes. *)
Lemma der_int_tests x : bytes_ok x ->
  der_int x <-> (size x =? 0) = false /\ negb (Z.land (at_ x 0) 128 =? 0) = false /\
    (size x >? 1) && (at_ x 0 =? 0) && (Z.land (at_ x 1) 128 =? 0) = false.
Proof.
  intros Hx. assert (forall b, is_byte b -> (Z.land b 128 =? 0) = (b <? 128)) as Hbit.
  { intros b Hb. rewrite land_bit7 by done. by destruct (b <? 128). }
  destruct x as [|b [|c x]]; inversion Hx as [|? ? Hb Hx']; subst; cbn [der_int].
  - split; [done|]. by intros [? _].
  - change (at_ [b] 0) with b. change (size [b] =? 0) with false. change (size [b] >? 1) with false.
    rewrite Hbit by done. cbn [andb]. destruct (Z.ltb_spec b 128); cbn [negb]; intuition (discriminate || lia).
  - inversion Hx' as [|? ? Hc _]; subst. rewrite !size_cons. pose proof (size_nonneg x).
    change (at_ (b :: c :: x) 0) with b. change (at_ (b :: c :: x) 1) with c. rewrite !Hbit by done.
    destruct (Z.eqb_spec (1 + (1 + size x)) 0); [lia|].
    destruct (Z.gtb_spec (1 + (1 + size x)) 1); [|lia].
    destruct (Z.ltb_spec b 128), (Z.eqb_spec b 0), (Z.ltb_spec c 128); cbn [negb andb];
      intuition (discriminate || lia).
Qed.

(** The bytes of a string of the form of a signature. *)
Lemma at_signature h0 h1 h2 h3 R t lS S ht :
  let sig := [h0; h1; h2; h3] ++ R ++ [t; lS] ++ S ++ [ht] in
  at_ sig 0 = h0 /\ at_ sig 1 = h1 /\ at_ sig 2 = h2 /\ at_ sig 3 = h3 /\
  (forall k, 0 <= k < size R -> at_ sig (4 + k) = at_ R k) /\
  at_ sig (4 + size R) = t /\ at_ sig (5 + size R) = lS /\
  (forall k, 0 <= k < size S -> at_ sig (6 + size R + k) = at_ S k) /\
  size sig = size R + size S + 7.
Proof.
  cbv zeta. pose proof (size_nonneg R). pose proof (size_nonneg S).
  assert (size [h0; h1; h2; h3] = 4 /\ size [t; lS] = 2 /\ size [ht] = 1) as (E4 & E2 & E1) by done.
  repeat split; intros; rewrite ?size_app; try lia; rewrite ?(at_app_r [h0; h1; h2; h3]) by lia; rewrite E4.
  - rewrite at_app_l by lia. f_equal. lia.
  - rewrite at_app_r by lia. by replace (4 + size R - 4 - size R) with 0 by lia.
  - rewrite at_app_r by lia. by replace (5 + size R - 4 - size R) with 1 by lia.
  - rewrite at_app_r, at_app_r, at_app_l by lia. f_equal. lia.
Qed.

(** A string long enough for its second length has that form. *)
Lemma signature_form sig : bytes_ok sig -> 9 <= size sig -> 5 + at_ sig 3 < size sig ->
  at_ sig 3 + at_ sig (5 + at_ sig 3) + 7 = size sig ->
  exists h0 h1 h2 R t lS S ht, sig = [h0; h1; h2; size R] ++ R ++ [t; lS] ++ S ++ [ht].
Proof.
  intros Hs H9 H5 H7. destruct sig as [|h0 [|h1 [|h2 [|h3 r]]]]; rewrite ?size_cons in H9; change (size (@nil Z)) with 0 in H9; try lia.
  change (at_ (h0 :: h1 :: h2 :: h3 :: r) 3) with h3 in *.
  assert (is_byte h3 /\ bytes_ok r) as [Hh3 Hr] by (inversion Hs as [|? ? ? Hs1]; inversion Hs1 as [|? ? ? Hs2];
    inversion Hs2 as [|? ? ? Hs3]; by inversion Hs3). unfold is_byte in Hh3.
  rewrite !size_cons in *. destruct (split_at r h3 ltac:(lia)) as (R & r' & -> & HR). rewrite size_app in *.
  destruct r' as [|t [|lS r2]]; rewrite ?size_cons in *; change (size (@nil Z)) with 0 in *; try lia.
  replace (h0 :: h1 :: h2 :: h3 :: R ++ t :: lS :: r2) with (([h0; h1; h2; h3] ++ R) ++ [t; lS] ++ r2) in H7
    by by rewrite <- app_assoc.
  assert (size [h0; h1; h2; h3] = 4) as E4 by done.
  rewrite at_app_r in H7 by (rewrite size_app; lia). rewrite size_app in H7.
  replace (5 + h3 - (size [h0; h1; h2; h3] + size R)) with 1 in H7 by lia.
  change (at_ ([t; lS] ++ r2) 1) with lS in H7.
  apply Forall_app in Hr as [_ Hr]. inversion Hr as [|? ? _ Hr']. inversion Hr' as [|? ? Hls _]. unfold is_byte in Hls.
  destruct (snoc_inv r2) as (S & ht & ->); [intros ->; change (size (@nil Z)) with 0 in *; lia|].
  subst h3. by exists h0, h1, h2, R, t, lS, S, ht.
Qed.

(** The tests on one integer inside the signature, in terms of its own bytes. *)
Lemma int_tests_at sig off X (k : bool) : bytes_ok X ->
  (forall i, 0 <= i < size X -> at_ sig (off + i) = at_ X i) ->
  (if size X =? 0 then false
   else if negb (Z.land (at_ sig off) 128 =? 0) then false
   else if (size X >? 1) && (at_ sig off =? 0) && (Z.land (at_ sig (off + 1)) 128 =? 0) then false
   else k) = true <-> der_int X /\ k = true.
Proof.
  intros HX Hat. rewrite (der_int_tests X HX). pose proof (size_nonneg X).
  destruct (Z.eqb_spec (size X) 0); [intuition discriminate|].
  assert (at_ sig off = at_ X 0) as -> by (rewrite <- (Hat 0) by lia; by rewrite Z.add_0_r).
  assert ((size X >? 1) && (at_ X 0 =? 0) && (Z.land (at_ sig (off + 1)) 128 =? 0) =
          (size X >? 1) && (at_ X 0 =? 0) && (Z.land (at_ X 1) 128 =? 0)) as ->.
  { destruct (Z.gtb_spec (size X) 1); [by rewrite Hat by lia|done]. }
  destruct (negb (Z.land (at_ X 0) 128 =? 0)); [intuition discriminate|].
  destruct (_ && _); intuition discriminate.
Qed.

Lemma if_false_true (c : bool) x : (if c then false else x) = true <-> c = false /\ x = true.
Proof. destruct c; intuition discriminate. Qed.

(** * Properties *)

(** [IsValidSignatureEncoding] accepts exactly the strict DER encodings: a compound of two
    positive integers in shortest form with exact lengths, followed by one hash type byte, of at
    most 73 bytes. *)
Theorem IsValidSignatureEncoding_der sig : bytes_ok sig ->
  IsValidSignatureEncoding sig = true <-> der_signature sig.
Proof.
  intros Hs.
  assert (IsValidSignatureEncoding sig = true ->
    exists h0 h1 h2 R t lS S ht, sig = [h0; h1; h2; size R] ++ R ++ [t; lS] ++ S ++ [ht]) as Hform.
  { intros H. unfold IsValidSignatureEncoding in H. cbv zeta in H.
    repeat (case_match; [discriminate H|]; propify). apply signature_form; done || lia. }
  assert (forall h0 h1 h2 R t lS S ht, sig = [h0; h1; h2; size R] ++ R ++ [t; lS] ++ S ++ [ht] ->
    IsValidSignatureEncoding sig = true <->
    9 <= size sig <= 73 /\ h0 = 48 /\ h1 = size R + size S + 4 /\ h2 = 2 /\ lS = size S /\ t = 2 /\
    der_int R /\ der_int S) as Hshape.
  { intros h0 h1 h2 R t lS S ht ->.
    destruct (at_signature h0 h1 h2 (size R) R t lS S ht) as (E0 & E1 & E2 & E3 & ER & Et & El & ES & Esz).
    apply Forall_app in Hs as [_ Hs]. apply Forall_app in Hs as [HR Hs].
    apply Forall_app in Hs as [_ Hs]. apply Forall_app in Hs as [HS _].
    pose proof (size_nonneg R). pose proof (size_nonneg S).
    set (sig := [h0; h1; h2; size R] ++ _) in *. unfold IsValidSignatureEncoding. cbv zeta.
    rewrite E0, E1, E2, E3, El, Esz, !if_false_true.
    replace (size R + 4) with (4 + size R) by lia. rewrite Et.
    assert (size R + lS + 7 = size R + size S + 7 -> lS = size S) as Hl by lia.
    rewrite !negb_false_iff, !Z.eqb_eq, Z.ltb_ge, Z.gtb_ltb, Z.geb_leb, Z.ltb_ge, Z.leb_gt.
    pose proof (int_tests_at sig 4 R true HR ER) as IR.
    pose proof (int_tests_at sig (6 + size R) S true HS ES) as IS.
    rewrite !if_false_true in IR, IS. rewrite !negb_false_iff in IR, IS.
    replace (6 + size R) with (size R + 6) in IS by lia. replace (size R + 6 + 1) with (size R + 7) in IS by lia.
    change (4 + 1) with 5 in IR.
    split.
    - intros (? & ? & ? & ? & ? & Hlen & ? & ? & ? & ? & ? & ? & ? & ? & _).
      apply Hl in Hlen as ->. rewrite !Z.eqb_eq in *.
      assert (der_int R /\ der_int S) as [? ?] by tauto. repeat split; auto; lia.
    - intros (? & -> & -> & -> & -> & -> & HdR & HdS).
      destruct IR as [_ IR], IS as [_ IS].
      destruct IR as (? & ? & ? & _); [done|]. destruct IS as (? & ? & ? & _); [done|].
      rewrite !Z.eqb_eq in *. repeat split; auto; lia. }
  split.
  - intros H. destruct (Hform H) as (h0 & h1 & h2 & R & t & lS & S & ht & Es).
    destruct (proj1 (Hshape _ _ _ _ _ _ _ _ Es) H) as (? & E0 & E1 & E2 & E3 & E4 & HR & HS).
    rewrite E0, E1, E2, E3, E4 in Es. exists R, S, ht. repeat split; [exact Es|done|done|lia].
  - intros (R & S & ht & Es & HR & HS & Hsz). apply (Hshape _ _ _ _ _ _ _ _ Es).
    pose proof (at_signature 48 (size R + size S + 4) 2 (size R) R 2 (size S) S ht) as Ha.
    cbv zeta in Ha. rewrite <- Es in Ha. destruct Ha as (_ & _ & _ & _ & _ & _ & _ & _ & Esz).
    assert (1 <= size R /\ 1 <= size S) as [? ?].
    { destruct R, S; try done. rewrite !size_cons. pose proof (size_nonneg R). pose proof (size_nonneg S). lia. }
    repeat split; auto; lia.
Qed.

Lemma IsValidSignatureEncoding_der_witness :
  IsValidSignatureEncoding [48; 6; 2; 1; 1; 2; 1; 1; 1] = true.
Proof.
  apply IsValidSignatureEncoding_der.
  - apply (bool_decide_unpack _). vm_compute. exact I.
  - exists [1], [1], 1. repeat split; intro; discriminate.
Defined.
