(* ===== verification/Spending.v ===== *)
(** * Spending: outputs and their spends, end to end
    [VerifyScript] on outputs that pay to a key hash and to a script hash, its assertions, and
    outputs that nothing spends. *)
From S2P Require Import Prelude Endian Uint256 BlockHash Sha256 Sha1 Ripemd160 Hash ScriptNum Opcode Script Pubkey Interpreter EvalSafety EvalRun.
#[local] Open Scope eval_scope.

(** The hash opcode is the function of [Hash]; neither is to be computed on unknown data. *)
Lemma op_digest_hash160 v : op_digest OP_HASH160 v = Hash160 v.
Proof. by rewrite op_digest_spec, Hash160_spec. Qed.
#[local] Opaque op_digest Hash160.

(** ** Standard spends *)

Section Spending.
Context {E : Secp256k1}.
Context (ASSETCHAINS_CC : Z) (flags : Z) (check : checker) (consensusBranchId : Z).

Abbreviation eval := (EvalScript ASSETCHAINS_CC flags check consensusBranchId).
Abbreviation verify := (VerifyScript ASSETCHAINS_CC flags check consensusBranchId).

(** The tail of an iteration. *)
Lemma size_limit_ok s : size (stack s) + size (altstack s) <= 1000 ->
  (st <- get stack ;; alt <- get altstack ;;
   require (negb (size st + size alt >? 1000)) SCRIPT_ERR_STACK_SIZE) s = (Val tt, s).
Proof.
  intros H. unfold bind, get, require. destruct (Z.gtb_spec (size (stack s) + size (altstack s)) 1000); [lia|done].
Qed.

(** The state between two instructions of a script without conditionals. *)
Definition at_state (p : script) (st : list valtype) (n : Z) : est :=
  {| pc := p; stack := st; altstack := []; vfExec := []; nOpCount := n; serror := SCRIPT_ERR_UNKNOWN_ERROR |}.

Abbreviation step_ scr := (step ASSETCHAINS_CC flags check consensusBranchId scr).

(** A counted operation that turns the stack [st] into [st']. *)
Lemma step_op_to scr b rest st st' n op : opcodetype_of b = op -> 96 < b < 256 -> is_disabled op = false ->
  0 <= n < 201 -> size st' <= 1000 ->
  exec_op ASSETCHAINS_CC flags check consensusBranchId scr op true (at_state rest st (n + 1)) =
    (Val tt, at_state rest st' (n + 1)) ->
  step_ scr (at_state (b :: rest) st n) = (Val tt, at_state rest st' (n + 1)).
Proof.
  intros <- Hb Hdis Hn Hst Hex. rewrite (step_op _ _ _ _ _ b rest) by (done || (cbn; lia)).
  cbn [stack altstack nOpCount serror at_state]. fold (at_state rest st (n + 1)).
  rewrite (bind_val _ _ _ _ _ Hex). apply size_limit_ok. cbn [stack altstack at_state].
  change (size (@nil valtype)) with 0. lia.
Qed.

(** A counted operation that returns [false]. *)
Lemma step_op_fails scr b rest st n op : opcodetype_of b = op -> 96 < b < 256 -> is_disabled op = false ->
  0 <= n < 201 ->
  (exists s', exec_op ASSETCHAINS_CC flags check consensusBranchId scr op true (at_state rest st (n + 1)) =
    (Ret false, s')) ->
  exists s', step_ scr (at_state (b :: rest) st n) = (Ret false, s').
Proof.
  intros <- Hb Hdis Hn [s' Hex]. exists s'. rewrite (step_op _ _ _ _ _ b rest) by (done || (cbn; lia)).
  cbn [stack altstack nOpCount serror at_state]. fold (at_state rest st (n + 1)).
  unfold bind at 1. by rewrite Hex.
Qed.

Lemma step_push_to scr v rest st n : 2 <= size v <= MAX_SCRIPT_ELEMENT_SIZE -> size st < 1000 ->
  step_ scr (at_state (CScript.push_data [] v ++ rest) st n) = (Val tt, at_state rest (v :: st) n).
Proof.
  intros Hv Hst. rewrite (step_push _ _ _ _ _ v rest); try done.
  cbn [stack altstack at_state]. change (size (@nil valtype)) with 0. lia.
Qed.

Lemma eval_false_of_fail scr st s' fuel :
  eval_loop ASSETCHAINS_CC flags check consensusBranchId scr fuel (at_state scr st 0) = (Ret false, s') ->
  fuel = S (length scr) -> exists st' e, eval scr st = Some (false, st', e).
Proof.
  intros H ->. unfold EvalScript. destruct (_ >? _); [by do 2 eexists|].
  fold (at_state scr st 0). rewrite H. by do 2 eexists.
Qed.

Lemma eval_true_of_end scr st st' n fuel p : size scr <= MAX_SCRIPT_SIZE ->
  eval_loop ASSETCHAINS_CC flags check consensusBranchId scr fuel (at_state scr st 0) = (Val tt, at_state p st' n) ->
  fuel = S (length scr) -> eval scr st = Some (true, st', SCRIPT_ERR_OK).
Proof.
  intros Hsz H ->. unfold EvalScript.
  destruct (Z.gtb_spec (size scr) MAX_SCRIPT_SIZE); [lia|]. fold (at_state scr st 0). by rewrite H.
Qed.

(** *** Pay to script hash *)

Definition p2sh_script (h : valtype) : script := 169 :: 20 :: h ++ [135].

Lemma IsPayToScriptHash_form spk : CScript.IsPayToScriptHash spk = true ->
  exists h, spk = p2sh_script h /\ length h = 20%nat /\ h = take 20 (drop 2 spk).
Proof.
  unfold CScript.IsPayToScriptHash, size, CScript.at_. intros H. propify.
  destruct spk as [|a [|b r]]; cbn [length] in *; try lia. cbn [nth opcode] in *. subst a b.
  destruct (snoc_inv r) as (h & x & ->); [intros ->; cbn in *; lia|].
  rewrite length_app in *. cbn [length] in *. exists h.
  rewrite app_nth2 in H0 by lia. replace (20 - length h)%nat with O in H0 by lia. cbn in H0. subst x.
  split; [done|]. split; [lia|]. change (h = take 20 (h ++ [135])). rewrite take_app_length'; [done|lia].
Qed.

Lemma push20 h : length h = 20%nat -> CScript.push_data [] h = 20 :: h.
Proof. intros Hh. unfold CScript.push_data, size. rewrite Hh. reflexivity. Qed.

Lemma op_hash160_run scr rest top st n :
  exec_op ASSETCHAINS_CC flags check consensusBranchId scr OP_HASH160 true (at_state rest (top :: st) n) =
  (Val tt, at_state rest (Hash160 top :: st) n).
Proof.
  rewrite <- op_digest_hash160.
  cbn [exec_op]. unfold op_hash. rewrite (bind_val _ _ _ tt (at_state rest (top :: st) n)); [done|].
  apply need_ok. cbn [stack at_state]. rewrite size_cons. pose proof (size_nonneg st). lia.
Qed.

Lemma op_equal_run scr rest a b st n :
  exec_op ASSETCHAINS_CC flags check consensusBranchId scr OP_EQUAL true (at_state rest (a :: b :: st) n) =
  (Val tt, at_state rest (vch_of_bool (bool_decide (b = a)) :: st) n).
Proof.
  cbn [exec_op]. unfold op_equal. rewrite (bind_val _ _ _ tt (at_state rest (a :: b :: st) n)); [done|].
  apply need_ok. cbn [stack at_state]. rewrite !size_cons. pose proof (size_nonneg st). lia.
Qed.

(** The script compares the hash of the top with its own. *)
Lemma eval_p2sh_script h top st : length h = 20%nat -> size st < 999 ->
  eval (p2sh_script h) (top :: st) =
  Some (true, vch_of_bool (bool_decide (Hash160 top = h)) :: st, SCRIPT_ERR_OK).
Proof.
  intros Hh Hst. pose proof (size_nonneg st).
  assert (length (p2sh_script h) = 23%nat) as Hlen
    by (unfold p2sh_script; cbn [length]; rewrite length_app, Hh; done).
  apply (eval_true_of_end _ _ _ 2 24 []); [unfold size; rewrite Hlen; vm_compute; intro; discriminate| |by rewrite Hlen].
  unfold p2sh_script at 2. rewrite eval_loop_step by done.
  rewrite (step_op_to _ 169 _ _ (Hash160 top :: st) 0 OP_HASH160); try done; try lia;
    [|rewrite size_cons; lia|apply op_hash160_run].
  rewrite eval_loop_step by done. change (20 :: h ++ [135]) with ((20 :: h) ++ [135]). rewrite <- push20 by done.
  rewrite step_push_to; [|unfold size; rewrite Hh; vm_compute; split; intro; discriminate|rewrite size_cons; lia].
  rewrite eval_loop_step by done.
  rewrite (step_op_to _ 135 _ _ (vch_of_bool (bool_decide (Hash160 top = h)) :: st) 1 OP_EQUAL); try done; try lia;
    [rewrite size_cons; lia|apply op_equal_run].
Qed.

(** On an empty stack it fails, which is why the assertion of [VerifyScript] holds. *)
Lemma eval_p2sh_empty h : exists st e, eval (p2sh_script h) [] = Some (false, st, e).
Proof.
  destruct (step_op_fails (p2sh_script h) 169 (20 :: h ++ [135]) [] 0 OP_HASH160) as [s' Hs]; try done.
  { cbn [exec_op]. eexists. reflexivity. }
  eapply eval_false_of_fail; [|reflexivity]. rewrite eval_loop_step by done.
  change (at_state (p2sh_script h) [] 0) with (at_state (169 :: 20 :: h ++ [135]) [] 0). by rewrite Hs.
Qed.

Lemma EvalScript_not_none scr st : bytes_ok scr -> Forall bytes_ok st ->
  exists b st' e, eval scr st = Some (b, st', e) /\ (b = true -> Forall bytes_ok st').
Proof.
  intros Hscr Hst. destruct (elems_bounded st Hst) as (L & HL & Hst').
  destruct (EvalScript_spec ASSETCHAINS_CC flags check consensusBranchId L scr st HL Hscr Hst') as (b & s & e & Ev & Hb).
  exists b, s, e. split; [done|]. intros Ht. destruct (Hb Ht) as (_ & _ & _ & Hf & _).
  eapply Forall_impl; [exact Hf|]. by intros v [].
Qed.

Lemma eval_sig_not_none sig spk : bytes_ok sig ->
  exists b st e, eval_sig ASSETCHAINS_CC flags check consensusBranchId sig spk = Some (b, st, e) /\
    (b = true -> Forall bytes_ok st).
Proof.
  intros Hs. unfold eval_sig. destruct (_ && _); [|by apply EvalScript_not_none].
  unfold EvalCryptoConditionSig, failed. destruct (GetOp2_bytes_ok sig Hs) as [_ Hd].
  repeat case_match; do 3 eexists; (split; [reflexivity|]); try done. intros _. repeat constructor. done.
Qed.

(** *** Pay to public key hash *)

Definition p2pkh_script (h : valtype) : script := 118 :: 169 :: 20 :: h ++ [136; 172].
Definition p2pkh_sig (sig pk : valtype) : script := CScript.push_data (CScript.push_data [] sig) pk.

Lemma size_push_data v : size v <= MAX_SCRIPT_ELEMENT_SIZE -> 1 <= size (CScript.push_data [] v) <= size v + 3.
Proof.
  intros Hv. pose proof (size_nonneg v). unfold CScript.push_data. rewrite app_nil_l, size_app.
  destruct (size v <? opcode OP_PUSHDATA1); [change (size [size v]) with 1; lia|].
  destruct (size v <=? 255); [change (size [opcode OP_PUSHDATA1; size v]) with 2; lia|].
  destruct (Z.leb_spec (size v) 65535); [|unfold MAX_SCRIPT_ELEMENT_SIZE in Hv; lia].
  assert (size (opcode OP_PUSHDATA2 :: WriteLE16 (size v)) = 3) as ->; [|lia].
  rewrite size_cons. unfold size at 1. by rewrite WriteLE16_length.
Qed.

Lemma p2pkh_sig_app sig pk : p2pkh_sig sig pk = CScript.push_data [] sig ++ CScript.push_data [] pk ++ [].
Proof. unfold p2pkh_sig. by rewrite push_data_app, app_nil_r. Qed.

Definition push_sized (v : valtype) : Prop := 2 <= size v <= MAX_SCRIPT_ELEMENT_SIZE.

Lemma eval_p2pkh_sig sig pk : push_sized sig -> push_sized pk ->
  eval (p2pkh_sig sig pk) [] = Some (true, [pk; sig], SCRIPT_ERR_OK).
Proof.
  unfold push_sized. intros Hsig Hpk. pose proof (size_push_data sig ltac:(lia)). pose proof (size_push_data pk ltac:(lia)).
  rewrite p2pkh_sig_app. set (scr := _ ++ _ ++ []).
  assert (size scr = size (CScript.push_data [] sig) + size (CScript.push_data [] pk)) as Hsz
    by (unfold scr; rewrite app_nil_r, size_app; done).
  assert (exists f, length scr = S (S f)) as [f Hf].
  { unfold size in *. destruct (length scr) as [|[|f]]; [lia..|by exists f]. }
  apply (eval_true_of_end _ _ _ 0 (S (S (S f))) []);
    [unfold MAX_SCRIPT_ELEMENT_SIZE, MAX_SCRIPT_SIZE in *; lia| |by rewrite Hf].
  unfold scr at 2. rewrite eval_loop_step by (cbn; apply app_nonnil_l, push_data_nonnil).
  rewrite step_push_to by done.
  rewrite eval_loop_step by (cbn; apply app_nonnil_l, push_data_nonnil).
  rewrite step_push_to by done. by rewrite eval_loop_end.
Qed.

Lemma push_only_step f p op v rest :
  CScript.GetOp2 p = {| CScript.go_ret := true; CScript.go_pc := rest; CScript.go_op := op; CScript.go_data := v |} ->
  op_le op OP_PUSHDATA4 = true -> p <> [] ->
  CScript.push_only_loop (S f) p = CScript.push_only_loop f rest.
Proof.
  intros Er Hle Hp. destruct p as [|x p]; [done|]. cbn [CScript.push_only_loop]. rewrite Er.
  cbn [CScript.go_ret CScript.go_op CScript.go_pc negb].
  assert (op_lt OP_16 op = false) as ->; [|done].
  unfold op_le, op_lt in *. propify. apply Z.ltb_ge. cbn in *. lia.
Qed.

Lemma p2pkh_sig_push_only sig pk : push_sized sig -> push_sized pk ->
  CScript.IsPushOnly (p2pkh_sig sig pk) = true.
Proof.
  intros Hsig Hpk. rewrite p2pkh_sig_app. unfold CScript.IsPushOnly.
  destruct (push_data_minimal sig (CScript.push_data [] pk ++ []) Hsig) as (op1 & E1 & _ & L1 & _).
  destruct (push_data_minimal pk [] Hpk) as (op2 & E2 & _ & L2 & _).
  unfold push_sized in *. pose proof (size_push_data sig ltac:(lia)). pose proof (size_push_data pk ltac:(lia)).
  rewrite !length_app. unfold size in *.
  destruct (length (CScript.push_data [] sig)) as [|a]; [lia|].
  destruct (length (CScript.push_data [] pk)) as [|b]; [lia|].
  replace (S a + (S b + length (@nil Z)))%nat with (S (S (a + b))) by (cbn [length]; lia).
  rewrite (push_only_step _ _ _ _ _ E1 L1) by (apply app_nonnil_l, push_data_nonnil).
  rewrite (push_only_step _ _ _ _ _ E2 L2) by (apply app_nonnil_l, push_data_nonnil).
  by destruct (a + b)%nat.
Qed.

Lemma op_dup_run scr rest top st n :
  exec_op ASSETCHAINS_CC flags check consensusBranchId scr OP_DUP true (at_state rest (top :: st) n) =
  (Val tt, at_state rest (top :: top :: st) n).
Proof.
  cbn [exec_op]. unfold op_dup. rewrite (bind_val _ _ _ tt (at_state rest (top :: st) n)); [done|].
  apply need_ok. cbn [stack at_state]. rewrite size_cons. pose proof (size_nonneg st). lia.
Qed.

Lemma op_equalverify_run scr rest a b st n :
  exec_op ASSETCHAINS_CC flags check consensusBranchId scr OP_EQUALVERIFY true (at_state rest (a :: b :: st) n) =
  if bool_decide (b = a) then (Val tt, at_state rest st n)
  else (Ret false, {| pc := rest; stack := vchFalse :: st; altstack := []; vfExec := []; nOpCount := n;
                      serror := SCRIPT_ERR_EQUALVERIFY |}).
Proof.
  cbn [exec_op]. unfold op_equal. rewrite (bind_val _ _ _ tt (at_state rest (a :: b :: st) n)).
  - rewrite (bind_val _ _ _ b (at_state rest (a :: b :: st) n)) by done.
    rewrite (bind_val _ _ _ a (at_state rest (a :: b :: st) n)) by done. cbv zeta.
    by destruct (bool_decide (b = a)).
  - apply need_ok. cbn [stack at_state]. rewrite !size_cons. pose proof (size_nonneg st). lia.
Qed.

Lemma op_checksig_run scr rest pk sig st n :
  (encodings_ok flags sig pk = true ->
   exec_op ASSETCHAINS_CC flags check consensusBranchId scr OP_CHECKSIG true (at_state rest (pk :: sig :: st) n) =
     (Val tt, at_state rest (vch_of_bool (CheckSig check sig pk scr consensusBranchId) :: st) n)) /\
  (encodings_ok flags sig pk = false -> exists s',
   exec_op ASSETCHAINS_CC flags check consensusBranchId scr OP_CHECKSIG true (at_state rest (pk :: sig :: st) n) =
     (Ret false, s')).
Proof.
  cbn [exec_op]. unfold op_checksig. rewrite (bind_val _ _ _ tt (at_state rest (pk :: sig :: st) n)).
  2: { apply need_ok. cbn [stack at_state]. rewrite !size_cons. pose proof (size_nonneg st). lia. }
  rewrite (bind_val _ _ _ sig (at_state rest (pk :: sig :: st) n)) by done.
  rewrite (bind_val _ _ _ pk (at_state rest (pk :: sig :: st) n)) by done.
  split; intros He.
  - rewrite (bind_val _ _ _ _ _ (check_encodings_ok _ _ _ _ He)). done.
  - destruct (check_encodings_bad flags sig pk (at_state rest (pk :: sig :: st) n) He) as [s' Es].
    exists s'. unfold bind at 1. by rewrite Es.
Qed.

(** The whole script on a key and a signature. *)
Lemma eval_p2pkh_script h pk sig : length h = 20%nat ->
  if bool_decide (Hash160 pk = h) && encodings_ok flags sig pk then
    eval (p2pkh_script h) [pk; sig] =
    Some (true, [vch_of_bool (CheckSig check sig pk (p2pkh_script h) consensusBranchId)], SCRIPT_ERR_OK)
  else exists st e, eval (p2pkh_script h) [pk; sig] = Some (false, st, e).
Proof.
  intros Hh.
  assert (length (p2pkh_script h) = 25%nat) as Hlen
    by (unfold p2pkh_script; cbn [length]; rewrite length_app, Hh; done).
  assert (size (p2pkh_script h) <= MAX_SCRIPT_SIZE) as Hsz
    by (unfold size; rewrite Hlen; vm_compute; intro; discriminate).
  set (scr := p2pkh_script h) in *. set (L := eval_loop ASSETCHAINS_CC flags check consensusBranchId scr).
  assert (L 26%nat (at_state scr [pk; sig] 0) = L 23%nat (at_state [136; 172] [h; Hash160 pk; pk; sig] 2)) as E1.
  { unfold L, scr at 2, p2pkh_script. rewrite eval_loop_step by done.
    rewrite (step_op_to _ 118 _ _ [pk; pk; sig] 0 OP_DUP) by first [apply op_dup_run | done].
    rewrite eval_loop_step by done.
    rewrite (step_op_to _ 169 _ _ [Hash160 pk; pk; sig] 1 OP_HASH160) by first [apply op_hash160_run | done].
    rewrite eval_loop_step by done. change (20 :: h ++ [136; 172]) with ((20 :: h) ++ [136; 172]).
    rewrite <- push20 by done.
    by rewrite step_push_to by (done || (unfold size; rewrite Hh; vm_compute; split; intro; discriminate)). }
  unfold L in E1. rewrite (eval_loop_step _ _ _ _ _ 22) in E1 by done.
  destruct (decide (Hash160 pk = h)) as [Heq|Hne];
    [rewrite (bool_decide_eq_true_2 _ Heq)|rewrite (bool_decide_eq_false_2 _ Hne)]; cbn [andb].
  - rewrite (step_op_to _ 136 _ _ [pk; sig] 2 OP_EQUALVERIFY) in E1
      by first [rewrite op_equalverify_run; by rewrite bool_decide_eq_true_2 | done].
    rewrite (eval_loop_step _ _ _ _ _ 21) in E1 by done.
    destruct (op_checksig_run scr [] pk sig [] 4) as [Hok Hbad].
    destruct (encodings_ok flags sig pk) eqn:He.
    + rewrite (step_op_to _ 172 _ _ [vch_of_bool (CheckSig check sig pk scr consensusBranchId)] 3 OP_CHECKSIG) in E1
        by first [by apply Hok | done].
      rewrite (eval_loop_end _ _ _ _ _ 21) in E1 by done. by apply (eval_true_of_end _ _ _ 4 26 []); rewrite ?Hlen.
    + destruct (step_op_fails scr 172 [] [pk; sig] 3 OP_CHECKSIG) as [s' Hs]; [done|done|done|done|by apply Hbad|].
      change (2 + 1) with 3 in E1. rewrite Hs in E1.
      apply (eval_false_of_fail scr [pk; sig] s' 26 E1). by rewrite Hlen.
  - destruct (step_op_fails scr 136 [172] [h; Hash160 pk; pk; sig] 2 OP_EQUALVERIFY) as [s' Hs]; [done|done|done|done| |].
    { rewrite op_equalverify_run. rewrite bool_decide_eq_false_2 by done. by eexists. }
    rewrite Hs in E1.
    apply (eval_false_of_fail scr [pk; sig] s' 26 E1). by rewrite Hlen.
Qed.

(** *** The spends as a whole *)

(** [CLEANSTACK] is only used with [P2SH]. *)
Definition flags_sane : Prop :=
  has_flag flags SCRIPT_VERIFY_CLEANSTACK = true -> has_flag flags SCRIPT_VERIFY_P2SH = true.

Lemma check_clean_single x : flags_sane -> check_clean flags [x] = Some (true, [x], SCRIPT_ERR_OK).
Proof.
  unfold flags_sane, check_clean. intros Hf. destruct (has_flag flags SCRIPT_VERIFY_CLEANSTACK); [|done].
  by rewrite Hf.
Qed.

Lemma check_clean_not_none st : flags_sane -> check_clean flags st <> None.
Proof.
  unfold flags_sane, check_clean. intros Hf. destruct (has_flag flags SCRIPT_VERIFY_CLEANSTACK); [|done].
  rewrite Hf by done. cbn [negb]. by destruct (negb _).
Qed.

Lemma after_not_none r k : r <> None -> (forall st e, r = Some (true, st, e) -> k st <> None) -> after r k <> None.
Proof. unfold after. destruct r as [[[[] st] e]|]; [eauto|done|done]. Qed.

Lemma require_true_not_none st k : k <> None -> require_true st k <> None.
Proof. unfold require_true, failed. destruct st as [|v st]; [done|]. by destruct (negb _). Qed.

Lemma after_true r k st e : after r k = Some (true, st, e) ->
  exists st1 e1, r = Some (true, st1, e1) /\ k st1 = Some (true, st, e).
Proof. unfold after. destruct r as [[[[] st1] e1]|]; [eauto|done|done]. Qed.

Lemma require_true_true st k r e : require_true st k = Some (true, r, e) ->
  (exists top st', st = top :: st' /\ CastToBool top = true) /\ k = Some (true, r, e).
Proof.
  unfold require_true, failed. destruct st as [|v st]; [done|].
  destruct (CastToBool v) eqn:Ev; cbn [negb]; [|done]. eauto.
Qed.

Lemma CastToBool_bool b : CastToBool (vch_of_bool b) = b.
Proof. by destruct b. Qed.

Lemma eval_p2sh_spk_cases spk stackCopy st e : CScript.IsPayToScriptHash spk = true ->
  eval spk stackCopy = Some (true, st, e) -> exists top st', stackCopy = top :: st'.
Proof.
  intros Hp Hev. destruct (IsPayToScriptHash_form spk Hp) as (h & -> & Hh & _).
  destruct stackCopy as [|top st']; [|eauto]. destruct (eval_p2sh_empty h) as (st0 & e0 & E0). congruence.
Qed.

(** [C10] The assertions of [VerifyScript] hold: as long as CLEANSTACK is used with P2SH only, no
    pair of scripts makes it abort (in particular the stack it restores for a script hash is not
    empty, as its comment argues). *)
Theorem VerifyScript_never_aborts sig spk : flags_sane -> bytes_ok sig -> bytes_ok spk ->
  verify sig spk <> None.
Proof.
  intros Hf Hs Hp. unfold VerifyScript. destruct (_ && _); [done|].
  destruct (eval_sig_not_none sig spk Hs) as (b1 & st1 & e1 & E1 & H1). rewrite E1.
  apply after_not_none; [done|]. intros st ? [= -> -> ->]. specialize (H1 eq_refl).
  destruct (EvalScript_not_none spk st Hp H1) as (b2 & st2 & e2 & E2 & H2).
  apply after_not_none; [by rewrite E2|]. intros st3 e3 E3. apply require_true_not_none.
  destruct (has_flag flags SCRIPT_VERIFY_P2SH && CScript.IsPayToScriptHash spk) eqn:Ep;
    [|by apply check_clean_not_none].
  propify. unfold eval_p2sh. destruct (negb _); [done|].
  destruct (eval_p2sh_spk_cases spk st st3 e3 ltac:(done) E3) as (top & st' & ->).
  inversion H1 as [|? ? Htop Hst']; subst.
  destruct (EvalScript_not_none top st' Htop Hst') as (b4 & st4 & e4 & E4 & _). rewrite E4.
  apply after_not_none; [done|]. intros st5 ? _. by apply require_true_not_none, check_clean_not_none.
Qed.

(** [C17] Paying to a public key hash, from end to end: the input script that pushes a signature
    and a key spends the output exactly when the key hashes to the hash in the output, both have
    the encodings that the flags ask for, and the checker accepts the signature of the key for
    this output script. *)
Theorem p2pkh_spend sig pk h : flags_sane -> push_sized sig -> push_sized pk -> length h = 20%nat ->
  (exists st, verify (p2pkh_sig sig pk) (p2pkh_script h) = Some (true, st, SCRIPT_ERR_OK)) <->
  Hash160 pk = h /\ encodings_ok flags sig pk = true /\
  CheckSig check sig pk (p2pkh_script h) consensusBranchId = true.
Proof.
  intros Hf Hsig Hpk Hh. unfold VerifyScript. rewrite p2pkh_sig_push_only, andb_false_r by done.
  assert (eval_sig ASSETCHAINS_CC flags check consensusBranchId (p2pkh_sig sig pk) (p2pkh_script h) =
          Some (true, [pk; sig], SCRIPT_ERR_OK)) as ->.
  { unfold eval_sig. replace (CScript.IsPayToCryptoCondition (p2pkh_script h)) with (@None (script * list valtype)) by done.
    rewrite andb_false_r. by apply eval_p2pkh_sig. }
  assert (CScript.IsPayToScriptHash (p2pkh_script h) = false) as Hnot.
  { unfold CScript.IsPayToScriptHash, p2pkh_script, size. cbn [length]. by rewrite length_app, Hh. }
  rewrite Hnot, andb_false_r. cbn [after].
  pose proof (eval_p2pkh_script h pk sig Hh) as Hev.
  destruct (bool_decide (Hash160 pk = h) && encodings_ok flags sig pk) eqn:Ec.
  - rewrite Hev. cbn [after require_true]. rewrite CastToBool_bool. propify.
    destruct (CheckSig _ _ _ _ _); cbn [negb].
    + rewrite check_clean_single by done. split; [done|]. intros _. by eexists.
    + split; [by intros [? ?]|]. by intros (_ & _ & ?).
  - destruct Hev as (st & e & ->). cbn [after]. split; [by intros [? ?]|]. intros (H1 & H2 & _).
    rewrite H2, (bool_decide_eq_true_2 _ H1) in Ec. done.
Qed.

(** Paying to a script hash under P2SH: the input spends the output exactly when the input
    script is push-only, the last item it leaves hashes to the hash in the output, and that item,
    run as a script on the rest of the stack, succeeds with a true top (and a clean stack when
    the flags ask for it). *)
Theorem p2sh_spend sig spk redeem st0 e0 : has_flag flags SCRIPT_VERIFY_P2SH = true ->
  CScript.IsPayToScriptHash spk = true ->
  eval_sig ASSETCHAINS_CC flags check consensusBranchId sig spk = Some (true, redeem :: st0, e0) ->
  size st0 < 999 ->
  (exists st, verify sig spk = Some (true, st, SCRIPT_ERR_OK)) <->
  CScript.IsPushOnly sig = true /\ Hash160 redeem = take 20 (drop 2 spk) /\
  exists top st e, eval redeem st0 = Some (true, top :: st, e) /\ CastToBool top = true /\
    (has_flag flags SCRIPT_VERIFY_CLEANSTACK = true -> st = []).
Proof.
  intros Hflag Hp Esig Hsz. destruct (IsPayToScriptHash_form spk Hp) as (h & Espk & Hh & Eh).
  rewrite <- Eh. unfold VerifyScript. rewrite Esig, Hflag, Hp. cbn [after andb].
  pose proof (eval_p2sh_script h redeem st0 Hh Hsz) as Ev. rewrite <- Espk in Ev. rewrite Ev.
  cbn [after require_true]. rewrite CastToBool_bool. unfold eval_p2sh.
  destruct (CScript.IsPushOnly sig); cbn [negb].
  2: { rewrite andb_true_r. split; [|by intros [? _]].
       destruct (has_flag flags SCRIPT_VERIFY_SIGPUSHONLY), (bool_decide _); by intros [? ?]. }
  rewrite andb_false_r. destruct (decide (Hash160 redeem = h)) as [Heq|Hne].
  2: { rewrite bool_decide_eq_false_2 by done. split; [by intros [? ?]|]. by intros (_ & ? & _). }
  rewrite bool_decide_eq_true_2 by done. cbn [negb]. split.
  - intros [st Hst]. apply after_true in Hst as (st1 & e1 & E1 & Hst).
    apply require_true_true in Hst as [(top & st' & -> & Ht) Hst]. split; [done|]. split; [done|].
    exists top, st', e1. split; [done|]. split; [done|]. intros Hcl. unfold check_clean in Hst.
    rewrite Hcl, Hflag in Hst. cbn [negb] in Hst. rewrite size_cons in Hst.
    destruct (Z.eqb_spec (1 + size st') 1) as [Hs|]; [|done]. destruct st' as [|x st']; [done|].
    rewrite size_cons in Hs. pose proof (size_nonneg st'). lia.
  - intros (_ & _ & top & st & e & E1 & Ht & Hcl). rewrite E1. cbn [after require_true]. rewrite Ht. cbn [negb].
    exists (top :: st). unfold check_clean. rewrite Hflag.
    destruct (has_flag flags SCRIPT_VERIFY_CLEANSTACK); [|done]. by rewrite Hcl.
Qed.
(** An output that [IsUnspendable] holds of can be dropped from the coin database: no
    stack, checker or set of flags makes its script evaluate to success. *)
Theorem unspendable_never_succeeds scr st : CScript.IsUnspendable scr = true ->
  exists st' e, eval scr st = Some (false, st', e).
Proof.
  unfold CScript.IsUnspendable, EvalScript. intros H.
  destruct (Z.gtb_spec (size scr) MAX_SCRIPT_SIZE) as [|Hsz]; [by do 2 eexists|].
  apply orb_true_iff in H as [H | H]; [|propify; lia]. unfold CScript.at_ in H. propify.
  destruct scr as [|b rest]; [done|]. cbn [nth opcode] in H0. subst b.
  rewrite eval_loop_step by done. rewrite (step_op _ _ _ _ _ 106 rest) by (done || lia).
  change (opcodetype_of 106) with OP_RETURN. cbn [exec_op]. unfold bind, fail. cbn. by do 2 eexists.
Qed.
End Spending.

(** ** Concrete spends *)

(** A checker that accepts every signature. *)
Definition accepting : checker := {|
  CheckSig := fun _ _ _ _ => true; CheckLockTime := fun _ => true; CheckCryptoCondition := fun _ _ _ _ => 1
|}.

Lemma VerifyScript_never_aborts_witness :
  VerifyScript (E := toy_secp) 0 257 accepting 0 [81; 81] [117] <> None.
Proof.
  apply VerifyScript_never_aborts.
  - intros _. vm_compute. reflexivity.
  - apply (bool_decide_unpack _). vm_compute. exact I.
  - apply (bool_decide_unpack _). vm_compute. exact I.
Defined.

Lemma p2pkh_spend_witness :
  exists st, VerifyScript (E := toy_secp) 0 257 accepting 0
    (p2pkh_sig [48; 6; 2; 1; 1; 2; 1; 1; 1] [2; 3]) (p2pkh_script (Hash160 [2; 3])) = Some (true, st, SCRIPT_ERR_OK).
Proof.
  apply p2pkh_spend.
  - intros _. vm_compute. reflexivity.
  - split; vm_compute; intro; discriminate.
  - split; vm_compute; intro; discriminate.
  - vm_compute. reflexivity.
  - split; [reflexivity|]. split; [vm_compute; reflexivity|reflexivity].
Defined.

(** The redeem script OP_1, pushed by the input script. *)
Lemma p2sh_spend_witness :
  exists st, VerifyScript (E := toy_secp) 0 257 accepting 0 [1; 81] (p2sh_script (Hash160 [81])) =
    Some (true, st, SCRIPT_ERR_OK).
Proof.
  apply (p2sh_spend 0 257 accepting 0 [1; 81] (p2sh_script (Hash160 [81])) [81] [] SCRIPT_ERR_OK).
  - vm_compute. reflexivity.
  - vm_compute. reflexivity.
  - vm_compute. reflexivity.
  - vm_compute. reflexivity.
  - split; [vm_compute; reflexivity|]. split; [vm_compute; reflexivity|].
    exists [1], [], SCRIPT_ERR_OK. split; [vm_compute; reflexivity|]. split; [reflexivity|]. intros _. reflexivity.
Defined.

Lemma unspendable_never_succeeds_witness :
  exists st' e, EvalScript (E := toy_secp) 0 0 accepting 0 [106; 1; 5] [[1]] = Some (false, st', e).
Proof. apply unspendable_never_succeeds. vm_compute. reflexivity. Defined.
