(* ===== verification/Multisig.v ===== *)
(** * Multisig: CHECKMULTISIG
    The matching loop of CHECKMULTISIG is a greedy search; the theorem relates it to the existence
    of an order-preserving matching of signatures with keys. *)
From S2P Require Import Prelude Endian Uint256 BlockHash Sha256 Sha1 Ripemd160 Hash ScriptNum Opcode Script Pubkey Interpreter EvalRun.
#[local] Open Scope eval_scope.

(** ** CHECKMULTISIG *)

Section Multisig.
Context {E : Secp256k1}.
Context (flags : Z) (check : checker) (consensusBranchId : Z) (scr : script).

Abbreviation sig_ok := (fun sig key => CheckSig check sig key scr consensusBranchId = true).

(** The matching of the loop, on the lists in stack order: a key that fits is used at once. *)
Fixpoint greedy (sigs keys : list valtype) : bool :=
  match sigs, keys with
  | [], _ => true
  | _, [] => false
  | sig :: sigs', key :: keys' =>
      if CheckSig check sig key scr consensusBranchId then greedy sigs' keys' else greedy sigs keys'
  end.

Lemma greedy_nil keys : greedy [] keys = true.
Proof. by destruct keys. Qed.

(** Using the first key that fits loses no matching. *)
Lemma greedy_spec keys : forall sigs,
  greedy sigs keys = true <-> exists ks, ks `sublist_of` keys /\ Forall2 sig_ok sigs ks.
Proof.
  induction keys as [|key keys IH]; intros [|sig sigs].
  - split; [|done]. intros _. exists []. by split; constructor.
  - split; [done|]. intros (ks & Hks & Hf). apply sublist_nil_r in Hks as ->. by inversion Hf.
  - split; [|done]. intros _. exists []. split; [apply sublist_nil_l|constructor].
  - cbn [greedy]. destruct (CheckSig check sig key scr consensusBranchId) eqn:Ec; rewrite IH; split.
    + intros (ks & Hks & Hf). exists (key :: ks). split; [by constructor|by constructor].
    + intros (ks & Hks & Hf). inversion Hf as [|? k0 ? ks0 Hk Hf']; subst.
      exists ks0. split; [|done]. inversion Hks; subst; [done|].
      etrans; [|eassumption]. by apply sublist_cons.
    + intros (ks & Hks & Hf). exists ks. split; [by constructor|done].
    + intros (ks & Hks & Hf). inversion Hf as [|? k0 ? ks0 Hk Hf']; subst.
      inversion Hks; subst; [congruence|]. by exists (k0 :: ks0).
Qed.

Lemma greedy_short sigs keys : (length keys < length sigs)%nat -> greedy sigs keys = false.
Proof.
  intros Hl. destruct (greedy sigs keys) eqn:Eg; [|done]. apply greedy_spec in Eg as (ks & Hks & Hf).
  apply sublist_length in Hks. apply Forall2_length in Hf. lia.
Qed.

Lemma stacktop_at l1 v l2 s i : stack s = l1 ++ v :: l2 -> i = - size l1 - 1 -> stacktop i s = (Val v, s).
Proof.
  intros Hs ->. unfold stacktop. pose proof (size_nonneg l1). destruct (Z.ltb_spec (- size l1 - 1) 0); [|lia].
  replace (Z.to_nat (- (- size l1 - 1) - 1)) with (length l1) by (unfold size; lia).
  by rewrite Hs, list_lookup_middle.
Qed.

(** The loop computes the greedy matching. *)
Lemma multisig_loop_greedy fuel : forall s pre keys mid sigs post preS isig ikey,
  stack s = pre ++ keys ++ mid -> stack s = preS ++ sigs ++ post ->
  ikey = size pre + 1 -> isig = size preS + 1 -> (length keys < fuel)%nat ->
  (forall sig key, sig ∈ sigs -> key ∈ keys -> encodings_ok flags sig key = true) ->
  multisig_loop flags check consensusBranchId scr fuel (negb (size sigs >? size keys)) isig ikey
    (size sigs) (size keys) s = (Val (greedy sigs keys), s).
Proof.
  induction fuel as [|f IH]; intros s pre keys mid sigs post preS isig ikey Hk Hs -> -> Hf Henc; [lia|].
  cbn [multisig_loop]. destruct sigs as [|sig sigs].
  { change (size (@nil valtype)) with 0. rewrite andb_false_r, greedy_nil.
    pose proof (size_nonneg keys). by destruct (Z.gtb_spec 0 (size keys)); [lia|]. }
  destruct keys as [|key keys].
  { rewrite size_cons. change (size (@nil valtype)) with 0. pose proof (size_nonneg sigs).
    by destruct (Z.gtb_spec (1 + size sigs) 0); [|lia]. }
  destruct (Z.gtb_spec (size (sig :: sigs)) (size (key :: keys))) as [Hgt|Hle]; cbn [negb andb].
  { rewrite greedy_short; [done|]. unfold size in Hgt. lia. }
  destruct (Z.gtb_spec (size (sig :: sigs)) 0) as [_|H0]; [|rewrite size_cons in H0; pose proof (size_nonneg sigs); lia].
  rewrite (bind_val _ _ _ sig s) by (eapply stacktop_at; [exact Hs|lia]).
  rewrite (bind_val _ _ _ key s) by (eapply stacktop_at; [exact Hk|lia]).
  rewrite (bind_val _ _ _ tt s) by (apply check_encodings_ok, Henc; by constructor).
  cbv zeta. cbn [greedy]. rewrite !size_cons in *. rewrite !Z.add_simpl_l.
  assert (forall l a (r : list valtype), l ++ a :: r = (l ++ [a]) ++ r) as Hsnoc by (intros; by rewrite <- app_assoc).
  assert (forall l (a : valtype), size (l ++ [a]) = size l + 1) as Hsz by (intros; by rewrite size_app).
  cbn [app] in Hk, Hs. rewrite (Hsnoc pre) in Hk.
  replace (1 + size keys - 1) with (size keys) by lia.
  destruct (CheckSig check sig key scr consensusBranchId).
  - rewrite (Hsnoc preS) in Hs. replace (1 + size sigs - 1) with (size sigs) by lia.
    assert ((if size sigs >? size keys then false else true) = negb (size sigs >? size keys)) as -> by by destruct (_ >? _).
    apply (IH _ (pre ++ [key]) keys mid sigs post (preS ++ [sig])); auto; [by rewrite Hsz..|cbn in Hf; lia|].
    intros sg k Hsg Hkk. apply Henc; by constructor.
  - assert ((if 1 + size sigs >? size keys then false else true) = negb (size (sig :: sigs) >? size keys)) as ->
      by (rewrite size_cons; by destruct (_ >? _)).
    rewrite <- (size_cons sig sigs).
    apply (IH _ (pre ++ [key]) keys mid (sig :: sigs) post preS); auto; [by rewrite Hsz|cbn in Hf; lia|].
    intros sg k Hsg Hkk. apply Henc; [done|by constructor].
Qed.

Lemma popstack_n_run k : forall s l st, stack s = l ++ st -> length l = k ->
  popstack_n k s = (Val tt, {| pc := pc s; stack := st; altstack := altstack s; vfExec := vfExec s;
                               nOpCount := nOpCount s; serror := serror s |}).
Proof.
  induction k as [|k IH]; intros s l st Hs Hl; cbn [popstack_n].
  - destruct l; [|done]. cbn in Hs. subst st. by destruct s.
  - destruct l as [|x l]; [done|]. cbn in Hs.
    rewrite (bind_val _ _ _ tt {| pc := pc s; stack := l ++ st; altstack := altstack s; vfExec := vfExec s;
                                  nOpCount := nOpCount s; serror := serror s |}).
    + rewrite (IH _ l st) by (done || by injection Hl). done.
    + unfold popstack, bind, get. by rewrite Hs.
Qed.

Lemma script_num4_run n s : 0 <= n <= 20 -> script_num4 flags (ScriptNum.getvch n) s = (Val n, s).
Proof.
  intros Hn. unfold script_num4, script_num.
  assert (ScriptNum.of_vch (ScriptNum.getvch n) (fRequireMinimal flags) ScriptNum.nDefaultMaxNumSize = Some n) as ->; [|done].
  assert (ScriptNum.of_vch (ScriptNum.getvch n) true ScriptNum.nDefaultMaxNumSize = Some n) as E1.
  { apply serialize_of_vch; [unfold ScriptNum.nDefaultMaxNumSize; lia|].
    change (2 ^ (8 * ScriptNum.nDefaultMaxNumSize - 1)) with (2 ^ 31). lia. }
  destruct (fRequireMinimal flags); [done|]. unfold ScriptNum.of_vch in *.
  destruct (_ <? _); [done|]. cbn [andb] in *. by destruct (ScriptNum.non_minimal _).
Qed.

Lemma getint_small n : 0 <= n <= 20 -> ScriptNum.getint n = n.
Proof. intros Hn. unfold ScriptNum.getint. repeat case_match; propify; lia. Qed.

(** The loop as [op_checkmultisig] enters it, with both counts read off the stack. *)
Lemma loop_from_start s keys sigs post : let n := size keys in let m := size sigs in
  m <= n -> stack s = (ScriptNum.getvch n :: keys) ++ ScriptNum.getvch m :: sigs ++ post ->
  (forall sig key, sig ∈ sigs -> key ∈ keys -> encodings_ok flags sig key = true) ->
  multisig_loop flags check consensusBranchId scr (S (Z.to_nat n)) true (2 + n + 1) 2 m n s = (Val (greedy sigs keys), s).
Proof.
  intros n m Hm Hs Henc.
  pose proof (multisig_loop_greedy (S (Z.to_nat n)) s [ScriptNum.getvch n] keys (ScriptNum.getvch m :: sigs ++ post) sigs post
    ((ScriptNum.getvch n :: keys) ++ [ScriptNum.getvch m]) (2 + n + 1) 2) as Hl.
  assert (negb (size sigs >? size keys) = true) as Eb
    by (apply negb_true_iff; rewrite Z.gtb_ltb; apply Z.ltb_ge; unfold n, m in *; lia).
  rewrite Eb in Hl. apply Hl; auto.
  - rewrite Hs. by rewrite <- app_assoc.
  - rewrite size_app, size_cons. change (size [ScriptNum.getvch m]) with 1. unfold n. lia.
  - unfold n, size. lia.
Qed.

End Multisig.

(** A checker for which a signature is good for the key equal to it. *)
Definition same_bytes : checker := {|
  CheckSig := fun sig key _ _ => bool_decide (sig = key); CheckLockTime := fun _ => true;
  CheckCryptoCondition := fun _ _ _ _ => 1
|}.

