(* ===== verification/SigHash.v ===== *)
(** * SigHash: signature hashes and the checker for transactions
    [SignatureHash], its two formats (the modified serialization before Overwinter, the digest of
    digests from Overwinter on) and [TransactionSignatureChecker], of
    [src/src/script/interpreter.cpp].  BLAKE2b is a library, the class [Blake2b]; so is the
    decoding and the evaluation of crypto-conditions, the class [CryptoConditions]. *)
From stdpp Require Import sets.
From S2P Require Import Prelude Endian Uint256 Hash ScriptNum Opcode Script Serialize Amount Transaction Pubkey Interpreter.

(** ** Libraries *)

(** [blake2b_init(32, personal)], [blake2b_update], [blake2b_finalize]: the digest of what was
    written, under a personalization of 16 bytes. *)
Class Blake2b := blake2b_256 : list Z -> list Z -> list Z.
Class Blake2bLaws (B : Blake2b) : Prop := blake2b_256_blob p m : blob_wf 32 (blake2b_256 p m).

(** A condition of the library [src/src/cryptoconditions]: the tree of its nodes, each with what
    [cc_typeId], [cc_typeMask] and [cc_isFulfilled] answer for it, and the rest of its contents. *)
#[warnings="-register-all"]
Inductive CC :=
  | CC_node (typeId typeMask : Z) (fulfilled : bool) (contents : list Z) (subconditions : list CC).
Definition cc_typeId (c : CC) : Z := let '(CC_node id _ _ _ _) := c in id.
Definition cc_typeMask (c : CC) : Z := let '(CC_node _ mask _ _ _) := c in mask.
Definition cc_isFulfilled (c : CC) : bool := let '(CC_node _ _ f _ _) := c in f.

(** Decoding a fulfillment, encoding a condition, verifying a message against a condition in
    binary. *)
Class CryptoConditions := {
  cc_readFulfillmentBinaryExt : list Z -> option CC;
  cc_conditionBinary : CC -> list Z;
  cc_verify : CC -> list Z -> list Z -> Z
}.

(** ** Conditions in scripts ([src/src/script/cc.cpp]) *)

Definition CC_Preimage : Z := 0.
Definition CC_Threshold : Z := 2.
Definition CC_Ed25519 : Z := 4.
Definition CC_Secp256k1 : Z := 5.
Definition CC_Eval : Z := 15.

Definition CCEnabledTypes : Z :=
  Z.lor (Z.lor (Z.lor (Z.lor (Z.shiftl 1 CC_Secp256k1) (Z.shiftl 1 CC_Threshold)) (Z.shiftl 1 CC_Eval))
    (Z.shiftl 1 CC_Preimage)) (Z.shiftl 1 CC_Ed25519).
Definition CCSigningNodes : Z := Z.lor (Z.shiftl 1 CC_Ed25519) (Z.shiftl 1 CC_Secp256k1).

Definition IsSupportedCryptoCondition (cond : CC) : bool :=
  let mask := cc_typeMask cond in
  if negb (Z.land mask (Z.lnot CCEnabledTypes) =? 0) then false
  else if Z.land mask CCSigningNodes =? 0 then false
  else true.

Fixpoint IsSignedCryptoCondition (cond : CC) : bool :=
  let '(CC_node typeId _ fulfilled _ subconditions) := cond in
  if negb fulfilled then false
  else if negb (Z.land (Z.shiftl 1 typeId) CCSigningNodes =? 0) then true
  else if typeId =? CC_Threshold then existsb IsSignedCryptoCondition subconditions
  else false.

(** The condition, pushed, and the opcode (the encoder has room for 1000 bytes). *)
Definition CCPubKey `{CryptoConditions} (cond : CC) : script :=
  CScript.push_data [] (cc_conditionBinary cond) ++ [opcode OP_CHECKCRYPTOCONDITION].

(** The data of a push, and whether it is one. *)
Definition GetPushData (sig : script) : bool * list Z :=
  let r := CScript.GetOp2 sig in
  (CScript.go_ret r && op_lt OP_0 (CScript.go_op r) && op_le (CScript.go_op r) OP_PUSHDATA4, CScript.go_data r).

Definition NOT_AN_INPUT : Z := UINT32_MAX.

(** [nHashType & SIGHASH_ANYONECANPAY] and [nHashType & 0x1f] *)
Definition anyone_can_pay (nHashType : Z) : bool := negb (Z.land nHashType SIGHASH_ANYONECANPAY =? 0).
Definition hash_mode (nHashType : Z) : Z := Z.land nHashType 31.

(** ** The format before Overwinter: [CTransactionSignatureSerializer] *)

Record CTransactionSignatureSerializer := {
  txTo : tx; scriptCode : script; ss_nIn : Z;
  fAnyoneCanPay : bool; fHashSingle : bool; fHashNone : bool
}.

Definition make_serializer (txToIn : tx) (scriptCodeIn : script) (nInIn nHashTypeIn : Z) :
    CTransactionSignatureSerializer := {|
  txTo := txToIn; scriptCode := scriptCodeIn; ss_nIn := nInIn;
  fAnyoneCanPay := anyone_can_pay nHashTypeIn;
  fHashSingle := hash_mode nHashTypeIn =? SIGHASH_SINGLE;
  fHashNone := hash_mode nHashTypeIn =? SIGHASH_NONE |}.

Definition SerializeScriptCode (c : CTransactionSignatureSerializer) : list Z :=
  WriteCompactSize (size (scriptCode c)) ++ scriptCode c.

(** [None]: an input that does not exist (undefined) or the failed assertion. *)
Definition SerializeInput (c : CTransactionSignatureSerializer) (nInput : Z) : option (list Z) :=
  let nInput := if fAnyoneCanPay c then ss_nIn c else nInput in
  match vin (txTo c) !! Z.to_nat nInput with
  | None => None
  | Some txin =>
      if nInput =? NOT_AN_INPUT then None
      else Some (
        Serialize_COutPoint (prevout txin) ++
        (if negb (nInput =? ss_nIn c) then Serialize_bytes [] else SerializeScriptCode c) ++
        (if negb (nInput =? ss_nIn c) && (fHashSingle c || fHashNone c) then Serialize_int32 0
         else ser_writedata32 (nSequence txin)))
  end.

Definition SerializeOutput (c : CTransactionSignatureSerializer) (nOutput : Z) : option (list Z) :=
  if fHashSingle c && negb (nOutput =? ss_nIn c) then Some (Serialize_CTxOut TxOut.SetNull)
  else
    match vout (txTo c) !! Z.to_nat nOutput with
    | None => None
    | Some out => Some (Serialize_CTxOut out)
    end.

(** [f(s, 0) .. f(s, n-1)] *)
Definition write_each (f : Z -> option (list Z)) (n : Z) : option (list Z) :=
  match mapM f (map Z.of_nat (seq 0 (Z.to_nat n))) with
  | None => None
  | Some l => Some (concat l)
  end.

(** The JoinSplits with their key and a null signature; the stream of the hash has version 0. *)
Definition SerializeJoinSplits (t : tx) : option (list Z) :=
  if nVersion t >=? 2 then
    match mapM (Serialize_JSDescription 0) (vjoinsplit t) with
    | None => None
    | Some js => Some (
        WriteCompactSize (size (vjoinsplit t)) ++ concat js ++
        when (size (vjoinsplit t) >? 0) (Serialize_blob (joinSplitPubKey t) ++ Serialize_blob (replicate 64 0)))
    end
  else Some [].

Definition nInputs (c : CTransactionSignatureSerializer) : Z :=
  if fAnyoneCanPay c then 1 else size (vin (txTo c)).
Definition nOutputs (c : CTransactionSignatureSerializer) : Z :=
  if fHashNone c then 0 else if fHashSingle c then u32 (ss_nIn c + 1) else size (vout (txTo c)).

Definition SerializeTo (c : CTransactionSignatureSerializer) : option (list Z) :=
  match write_each (SerializeInput c) (nInputs c), write_each (SerializeOutput c) (nOutputs c),
        SerializeJoinSplits (txTo c) with
  | Some ins, Some outs, Some js => Some (
      Serialize_int32 (nVersion (txTo c)) ++
      WriteCompactSize (nInputs c) ++ ins ++
      WriteCompactSize (nOutputs c) ++ outs ++
      ser_writedata32 (nLockTime (txTo c)) ++ js)
  | _, _, _ => None
  end.

(** ** The digests from Overwinter on *)

(** The characters of a personalization. *)
Definition ZCASH_PREVOUTS_HASH_PERSONALIZATION : list Z :=
  [90; 99; 97; 115; 104; 80; 114; 101; 118; 111; 117; 116; 72; 97; 115; 104].
Definition ZCASH_SEQUENCE_HASH_PERSONALIZATION : list Z :=
  [90; 99; 97; 115; 104; 83; 101; 113; 117; 101; 110; 99; 72; 97; 115; 104].
Definition ZCASH_OUTPUTS_HASH_PERSONALIZATION : list Z :=
  [90; 99; 97; 115; 104; 79; 117; 116; 112; 117; 116; 115; 72; 97; 115; 104].
Definition ZCASH_JOINSPLITS_HASH_PERSONALIZATION : list Z :=
  [90; 99; 97; 115; 104; 74; 83; 112; 108; 105; 116; 115; 72; 97; 115; 104].
Definition ZCASH_SHIELDED_SPENDS_HASH_PERSONALIZATION : list Z :=
  [90; 99; 97; 115; 104; 83; 83; 112; 101; 110; 100; 115; 72; 97; 115; 104].
Definition ZCASH_SHIELDED_OUTPUTS_HASH_PERSONALIZATION : list Z :=
  [90; 99; 97; 115; 104; 83; 79; 117; 116; 112; 117; 116; 72; 97; 115; 104].

Section Sighash.
Context {B : Blake2b}.

Definition GetPrevoutHash (t : tx) : list Z :=
  blake2b_256 ZCASH_PREVOUTS_HASH_PERSONALIZATION (concat (map (fun i => Serialize_COutPoint (prevout i)) (vin t))).

Definition GetSequenceHash (t : tx) : list Z :=
  blake2b_256 ZCASH_SEQUENCE_HASH_PERSONALIZATION (concat (map (fun i => ser_writedata32 (nSequence i)) (vin t))).

Definition GetOutputsHash (t : tx) : list Z :=
  blake2b_256 ZCASH_OUTPUTS_HASH_PERSONALIZATION (concat (map Serialize_CTxOut (vout t))).

(** [None] is the exception of the serializer for a proof of the wrong kind. *)
Definition GetJoinSplitsHash (t : tx) : option (list Z) :=
  match mapM (Serialize_JSDescription (GetHeader t)) (vjoinsplit t) with
  | None => None
  | Some js => Some (blake2b_256 ZCASH_JOINSPLITS_HASH_PERSONALIZATION
                       (concat js ++ Serialize_blob (joinSplitPubKey t)))
  end.

Definition signed_spend (d : SpendDescription) : list Z :=
  Serialize_blob (sd_cv d) ++ Serialize_blob (sd_anchor d) ++ Serialize_blob (sd_nullifier d) ++
  Serialize_blob (sd_rk d) ++ Serialize_blob (sd_zkproof d).

Definition GetShieldedSpendsHash (t : tx) : list Z :=
  blake2b_256 ZCASH_SHIELDED_SPENDS_HASH_PERSONALIZATION (concat (map signed_spend (vShieldedSpend t))).

Definition GetShieldedOutputsHash (t : tx) : list Z :=
  blake2b_256 ZCASH_SHIELDED_OUTPUTS_HASH_PERSONALIZATION (concat (map Serialize_OutputDescription (vShieldedOutput t))).

Record PrecomputedTransactionData := {
  hashPrevouts : list Z; hashSequence : list Z; hashOutputs : list Z; hashJoinSplits : list Z;
  hashShieldedSpends : list Z; hashShieldedOutputs : list Z
}.

Definition make_precomputed (t : tx) : option PrecomputedTransactionData :=
  match GetJoinSplitsHash t with
  | None => None
  | Some js => Some {|
      hashPrevouts := GetPrevoutHash t; hashSequence := GetSequenceHash t; hashOutputs := GetOutputsHash t;
      hashJoinSplits := js; hashShieldedSpends := GetShieldedSpendsHash t;
      hashShieldedOutputs := GetShieldedOutputsHash t |}
  end.

Inductive SigVersion := SIGVERSION_SPROUT | SIGVERSION_OVERWINTER | SIGVERSION_SAPLING.

Definition SignatureHashVersion (t : tx) : SigVersion :=
  if fOverwintered t then
    (if nVersionGroupId t =? SAPLING_VERSION_GROUP_ID then SIGVERSION_SAPLING else SIGVERSION_OVERWINTER)
  else SIGVERSION_SPROUT.
Definition is_sapling (v : SigVersion) : bool := match v with SIGVERSION_SAPLING => true | _ => false end.

(** [uint256 hash;] *)
Definition uint256_null : list Z := replicate 32 0.

(** "ZcashSigHash" and the branch id. *)
Definition sighash_personalization (consensusBranchId : Z) : list Z :=
  [90; 99; 97; 115; 104; 83; 105; 103; 72; 97; 115; 104] ++ WriteLE32 consensusBranchId.

(** How [SignatureHash] ends: a hash, the [logic_error] that [CheckSig] catches, or something
    that no caller catches by name: an exception of the serializer, or undefined. *)
Inductive sighash_result :=
  | Sighash (h : list Z)
  | LogicError
  | Uncaught.

(** [cache ? cache->h : Get(txTo)] *)
Definition cached (cache : option PrecomputedTransactionData) (f : PrecomputedTransactionData -> list Z)
    (h : list Z) : list Z := match cache with Some c => f c | None => h end.

Definition sighash_outputs (t : tx) (nIn nHashType : Z) (cache : option PrecomputedTransactionData) : list Z :=
  if negb (hash_mode nHashType =? SIGHASH_SINGLE) && negb (hash_mode nHashType =? SIGHASH_NONE) then
    cached cache hashOutputs (GetOutputsHash t)
  else if (hash_mode nHashType =? SIGHASH_SINGLE) && (nIn <? size (vout t)) then
    match vout t !! Z.to_nat nIn with
    | Some out => blake2b_256 ZCASH_OUTPUTS_HASH_PERSONALIZATION (Serialize_CTxOut out)
    | None => uint256_null
    end
  else uint256_null.

Definition sighash_joinsplits (t : tx) (cache : option PrecomputedTransactionData) : option (list Z) :=
  match vjoinsplit t with
  | [] => Some uint256_null
  | _ => match cache with Some c => Some (hashJoinSplits c) | None => GetJoinSplitsHash t end
  end.

(** The part of the message for the input being signed. *)
Definition signed_input (scriptCode : script) (t : tx) (nIn amount : Z) : option (list Z) :=
  if negb (nIn =? NOT_AN_INPUT) then
    match vin t !! Z.to_nat nIn with
    | None => None
    | Some txin => Some (
        Serialize_COutPoint (prevout txin) ++ Serialize_bytes scriptCode ++ Serialize_int64 amount ++
        ser_writedata32 (nSequence txin))
    end
  else Some [].

(** What is written to the final hash, from Overwinter on. *)
Definition sighash_message (sapling : bool) (scriptCode : script) (t : tx) (nIn nHashType amount : Z)
    (cache : option PrecomputedTransactionData) : option (list Z) :=
  let hPrevouts := if negb (anyone_can_pay nHashType) then cached cache hashPrevouts (GetPrevoutHash t)
                   else uint256_null in
  let hSequence :=
    if negb (anyone_can_pay nHashType) && negb (hash_mode nHashType =? SIGHASH_SINGLE) &&
       negb (hash_mode nHashType =? SIGHASH_NONE)
    then cached cache hashSequence (GetSequenceHash t) else uint256_null in
  let hOutputs := sighash_outputs t nIn nHashType cache in
  let hShieldedSpends := match vShieldedSpend t with [] => uint256_null
    | _ => cached cache hashShieldedSpends (GetShieldedSpendsHash t) end in
  let hShieldedOutputs := match vShieldedOutput t with [] => uint256_null
    | _ => cached cache hashShieldedOutputs (GetShieldedOutputsHash t) end in
  match sighash_joinsplits t cache, signed_input scriptCode t nIn amount with
  | Some hJoinSplits, Some input => Some (
      ser_writedata32 (GetHeader t) ++ ser_writedata32 (nVersionGroupId t) ++
      Serialize_blob hPrevouts ++ Serialize_blob hSequence ++ Serialize_blob hOutputs ++
      Serialize_blob hJoinSplits ++
      when sapling (Serialize_blob hShieldedSpends ++ Serialize_blob hShieldedOutputs) ++
      ser_writedata32 (nLockTime t) ++ ser_writedata32 (nExpiryHeight t) ++
      when sapling (Serialize_int64 (valueBalance t)) ++
      Serialize_int32 nHashType ++ input)
  | _, _ => None
  end.

Definition SignatureHash (scriptCode : script) (t : tx) (nIn nHashType amount consensusBranchId : Z)
    (cache : option PrecomputedTransactionData) : sighash_result :=
  if (nIn >=? size (vin t)) && negb (nIn =? NOT_AN_INPUT) then LogicError
  else
    match SignatureHashVersion t with
    | SIGVERSION_SPROUT =>
        if (hash_mode nHashType =? SIGHASH_SINGLE) && (nIn >=? size (vout t)) then LogicError
        else
          match SerializeTo (make_serializer t scriptCode nIn nHashType) with
          | None => Uncaught
          | Some b => Sighash (Hash (b ++ Serialize_int32 nHashType))
          end
    | v =>
        match sighash_message (is_sapling v) scriptCode t nIn nHashType amount cache with
        | None => Uncaught
        | Some m => Sighash (blake2b_256 (sighash_personalization consensusBranchId) m)
        end
    end.

(** ** [TransactionSignatureChecker] *)

Context {E : Secp256k1} {C : CryptoConditions}.

Record TransactionSignatureChecker := {
  sc_txTo : tx; sc_nIn : Z; amount : Z; txdata : option PrecomputedTransactionData
}.

Definition VerifySignature (vchSig : valtype) (pubkey : CPubKey.pubkey) (sighash : list Z) : bool :=
  CPubKey.Verify pubkey sighash vchSig.

(** [None]: an exception that is not a [logic_error]. *)
Definition TxCheckSig (c : TransactionSignatureChecker) (vchSigIn vchPubKey : valtype)
    (scriptCode : script) (consensusBranchId : Z) : option bool :=
  let pubkey := CPubKey.of_range (replicate 65 0) vchPubKey in
  if negb (CPubKey.IsValid pubkey) then Some false
  else
    match vchSigIn with
    | [] => Some false
    | _ =>
        let nHashType := at_ vchSigIn (size vchSigIn - 1) in
        let vchSig := take (length vchSigIn - 1) vchSigIn in
        match SignatureHash scriptCode (sc_txTo c) (sc_nIn c) nHashType (amount c) consensusBranchId (txdata c) with
        | LogicError => Some false
        | Uncaught => None
        | Sighash sighash => if negb (VerifySignature vchSig pubkey sighash) then Some false else Some true
        end
    end.

Definition TxCheckLockTime (c : TransactionSignatureChecker) (lockTime : CScriptNum) : option bool :=
  if negb (((nLockTime (sc_txTo c) <? LOCKTIME_THRESHOLD) && (lockTime <? LOCKTIME_THRESHOLD)) ||
           ((nLockTime (sc_txTo c) >=? LOCKTIME_THRESHOLD) && (lockTime >=? LOCKTIME_THRESHOLD)))
  then Some false
  else if lockTime >? nLockTime (sc_txTo c) then Some false
  else
    match vin (sc_txTo c) !! Z.to_nat (sc_nIn c) with
    | None => None
    | Some txin => if CTxIn_IsFinal txin then Some false else Some true
    end.

(** The evaluation of an Eval node of a condition is left to the library ([CheckEvalCondition]
    returns true here). *)
Definition TxCheckCryptoCondition (c : TransactionSignatureChecker) (condBin ffillBin : valtype)
    (scriptCode : script) (consensusBranchId : Z) : option Z :=
  match ffillBin with
  | [] => Some 0
  | _ =>
      match cc_readFulfillmentBinaryExt (take (length ffillBin - 1) ffillBin) with
      | None => Some (-1)
      | Some cond =>
          if negb (IsSupportedCryptoCondition cond) then Some 0
          else if negb (IsSignedCryptoCondition cond) then Some 0
          else
            let nHashType := at_ ffillBin (size ffillBin - 1) in
            match SignatureHash (CCPubKey cond) (sc_txTo c) (sc_nIn c) nHashType (amount c)
                    consensusBranchId (txdata c) with
            | LogicError => Some 0
            | Uncaught => None
            | Sighash sighash => Some (cc_verify cond sighash condBin)
            end
      end
  end.

(** The checker that [EvalScript] is given.  The interface has no exceptions; the value in their
    place is not used for a transaction that serializes ([checker_never_throws]). *)
Definition tx_checker (c : TransactionSignatureChecker) : checker := {|
  CheckSig := fun sig key code branch => default false (TxCheckSig c sig key code branch);
  CheckLockTime := fun n => default false (TxCheckLockTime c n);
  CheckCryptoCondition := fun cond ffill code branch => default 0 (TxCheckCryptoCondition c cond ffill code branch)
|}.
End Sighash.

(** ** What a signature hash covers *)

(** The part of a transaction that a hash of type ALL covers: everything but the signatures, and
    but the fields that the version does not have. *)
Definition blank_spend (d : SpendDescription) : SpendDescription :=
  {| sd_cv := sd_cv d; sd_anchor := sd_anchor d; sd_nullifier := sd_nullifier d; sd_rk := sd_rk d;
     sd_zkproof := sd_zkproof d; sd_spendAuthSig := [] |}.
Definition blank_input (i : CTxIn) : CTxIn :=
  {| prevout := prevout i; scriptSig := []; nSequence := nSequence i |}.

Definition unsigned (t : tx) : tx := {|
  fOverwintered := fOverwintered t; nVersion := nVersion t; nVersionGroupId := nVersionGroupId t;
  vin := map blank_input (vin t); vout := vout t; nLockTime := nLockTime t; nExpiryHeight := nExpiryHeight t;
  valueBalance := if is_sapling (SignatureHashVersion t) then valueBalance t else 0;
  vShieldedSpend := if is_sapling (SignatureHashVersion t) then map blank_spend (vShieldedSpend t) else [];
  vShieldedOutput := if is_sapling (SignatureHashVersion t) then vShieldedOutput t else [];
  vjoinsplit := vjoinsplit t;
  joinSplitPubKey := match vjoinsplit t with [] => [] | _ => joinSplitPubKey t end;
  joinSplitSig := []; bindingSig := [] |}.

Section Coverage.
Context {B : Blake2b}.

(** *** The hash is a function of the unsigned part *)

Lemma SerializeJoinSplits_unsigned t : SerializeJoinSplits (unsigned t) = SerializeJoinSplits t.
Proof. unfold SerializeJoinSplits. cbn. by destruct (vjoinsplit t). Qed.

Lemma mapM_ext_in {A C} (f g : A -> option C) l : (forall x, In x l -> f x = g x) -> mapM f l = mapM g l.
Proof.
  induction l as [|x l IH]; [done|]. intros H. cbn. rewrite (H x) by (by left). rewrite IH; [done|].
  intros y Hy. apply H. by right.
Qed.

Lemma SerializeTo_unsigned t code n ht :
  SerializeTo (make_serializer (unsigned t) code n ht) = SerializeTo (make_serializer t code n ht).
Proof.
  unfold SerializeTo. cbn [txTo make_serializer]. rewrite SerializeJoinSplits_unsigned.
  assert (nInputs (make_serializer (unsigned t) code n ht) = nInputs (make_serializer t code n ht)) as ->
    by (unfold nInputs, size; cbn; by rewrite length_map).
  change (nOutputs (make_serializer (unsigned t) code n ht)) with (nOutputs (make_serializer t code n ht)).
  assert (forall k, SerializeInput (make_serializer (unsigned t) code n ht) k =
                    SerializeInput (make_serializer t code n ht) k) as Hin.
  { intros k. unfold SerializeInput. cbn [txTo make_serializer vin unsigned fAnyoneCanPay ss_nIn].
    change (map blank_input (vin t)) with (blank_input <$> vin t). rewrite list_lookup_fmap.
    match goal with |- context [vin t !! ?j] => by destruct (vin t !! j) end. }
  assert (forall f g m, (forall k, f k = g k) -> write_each f m = write_each g m) as Hw.
  { intros f g m H. unfold write_each. by rewrite (mapM_ext_in f g) by (intros; apply H). }
  by rewrite (Hw _ _ _ Hin).
Qed.

Lemma sighash_message_unsigned t code n ht am : fOverwintered t = true ->
  sighash_message (is_sapling (SignatureHashVersion t)) code (unsigned t) n ht am None =
  sighash_message (is_sapling (SignatureHashVersion t)) code t n ht am None.
Proof.
  intros HfO. unfold sighash_message. cbn [cached].
  assert (GetPrevoutHash (unsigned t) = GetPrevoutHash t) as -> by (unfold GetPrevoutHash; cbn; by rewrite map_map).
  assert (GetSequenceHash (unsigned t) = GetSequenceHash t) as -> by (unfold GetSequenceHash; cbn; by rewrite map_map).
  change (sighash_outputs (unsigned t)) with (sighash_outputs t).
  assert (sighash_joinsplits (unsigned t) None = sighash_joinsplits t None) as ->
    by (unfold sighash_joinsplits, GetJoinSplitsHash; cbn; by destruct (vjoinsplit t)).
  assert (signed_input code (unsigned t) n am = signed_input code t n am) as ->.
  { unfold signed_input. cbn [vin unsigned]. change (map blank_input (vin t)) with (blank_input <$> vin t).
    rewrite list_lookup_fmap. by destruct (negb _), (vin t !! Z.to_nat n). }
  change (GetHeader (unsigned t)) with (GetHeader t). cbn [vShieldedSpend vShieldedOutput valueBalance unsigned nVersionGroupId nLockTime nExpiryHeight].
  destruct (is_sapling (SignatureHashVersion t)) eqn:Es; [|done].
  unfold GetShieldedSpendsHash, GetShieldedOutputsHash. cbn [vShieldedSpend vShieldedOutput unsigned]. rewrite Es.
  rewrite map_map. by destruct (vShieldedSpend t).
Qed.

Lemma SignatureHash_unsigned t code n ht am br :
  SignatureHash code (unsigned t) n ht am br None = SignatureHash code t n ht am br None.
Proof.
  unfold SignatureHash. change (SignatureHashVersion (unsigned t)) with (SignatureHashVersion t).
  rewrite SerializeTo_unsigned.
  replace (size (vin (unsigned t))) with (size (vin t)) by (unfold size; cbn; by rewrite length_map).
  destruct (_ && _); [done|]. destruct (SignatureHashVersion t) eqn:Ev; [done|..].
  all: assert (fOverwintered t = true) as HfO
    by (unfold SignatureHashVersion in Ev; by destruct (fOverwintered t)).
  all: rewrite <- Ev, sighash_message_unsigned by done; done.
Qed.

(** *** A hash of type ALL decides the unsigned part *)

(** What an attacker on the hash function would have to find among given inputs (pairs of a
    personalization and a message): two with the same digest, or one with the null digest. *)
Definition broken_on (Q : list (list Z * list Z)) : Prop :=
  (exists q1 q2, q1 ∈ Q /\ q2 ∈ Q /\ q1 <> q2 /\ blake2b_256 q1.1 q1.2 = blake2b_256 q2.1 q2.2) \/
  (exists q, q ∈ Q /\ blake2b_256 q.1 q.2 = uint256_null).

Lemma blake2b_inj Q p x q y : (p, x) ∈ Q -> (q, y) ∈ Q -> blake2b_256 p x = blake2b_256 q y ->
  broken_on Q \/ p = q /\ x = y.
Proof.
  intros H1 H2 E. destruct (decide ((p, x) = (q, y))) as [[= -> ->]|Hne]; [by right|].
  left. left. by exists (p, x), (q, y).
Qed.

Lemma blake2b_nonnull Q p x : (p, x) ∈ Q -> blake2b_256 p x = uint256_null -> broken_on Q.
Proof. intros H E. right. by exists (p, x). Qed.

Context {L : Blake2bLaws B}.

#[local] Instance codec_hash : Codec Serialize_blob (Unserialize_blob 32) (blob_wf 32).
Proof. apply codec_blob. Qed.

Lemma null_wf : blob_wf 32 uint256_null.
Proof. split; [done|]. by apply (bool_decide_unpack _). Qed.

(** The digest of a sequence, which is null for an empty one. *)
Definition digest_of {A} (l : list A) (p m : list Z) : list Z :=
  match l with [] => uint256_null | _ => blake2b_256 p m end.

Lemma digest_of_wf {A} (l : list A) p m : blob_wf 32 (digest_of l p m).
Proof. destruct l; [apply null_wf|apply blake2b_256_blob]. Qed.

(** The input of BLAKE2b in that digest. *)
Definition queries_of {A} (l : list A) (p m : list Z) : list (list Z * list Z) :=
  match l with [] => [] | _ => [(p, m)] end.

Lemma digest_of_inj {A} Q (l1 l2 : list A) p m1 m2 :
  queries_of l1 p m1 ⊆ Q -> queries_of l2 p m2 ⊆ Q -> digest_of l1 p m1 = digest_of l2 p m2 ->
  broken_on Q \/ (l1 = [] /\ l2 = []) \/ (l1 <> [] /\ l2 <> [] /\ m1 = m2).
Proof.
  intros Q1 Q2. destruct l1, l2; cbn in *; intros E.
  - right. by left.
  - left. eapply blake2b_nonnull; [|done]. set_solver.
  - left. eapply blake2b_nonnull; [|done]. set_solver.
  - eapply (blake2b_inj Q) in E as [?|[_ ->]]; [by left| |set_solver..]. right. by right.
Qed.

(** The arguments of a signature for an input. *)
Definition signing_wf (t : tx) (code : script) (n ht am br : Z) : Prop :=
  tx_wf t /\ fOverwintered t = true /\ 0 <= n < size (vin t) /\ bytes_wf code /\
  sint_wf 32 ht /\ sint_wf 64 am /\ uint_wf 32 br.

Definition covers_all (nHashType : Z) : Prop :=
  anyone_can_pay nHashType = false /\ hash_mode nHashType <> SIGHASH_SINGLE /\ hash_mode nHashType <> SIGHASH_NONE.

(** The message of a hash of type ALL, with the digests as functions of what they digest. *)
Definition js_digest (t : tx) : list Z :=
  digest_of (vjoinsplit t) ZCASH_JOINSPLITS_HASH_PERSONALIZATION
    (concat (map js_bytes (vjoinsplit t)) ++ Serialize_blob (joinSplitPubKey t)).
Definition spends_digest (t : tx) : list Z :=
  digest_of (vShieldedSpend t) ZCASH_SHIELDED_SPENDS_HASH_PERSONALIZATION (concat (map signed_spend (vShieldedSpend t))).
Definition outputs_digest (t : tx) : list Z :=
  digest_of (vShieldedOutput t) ZCASH_SHIELDED_OUTPUTS_HASH_PERSONALIZATION
    (concat (map Serialize_OutputDescription (vShieldedOutput t))).

Definition js_queries (t : tx) : list (list Z * list Z) :=
  queries_of (vjoinsplit t) ZCASH_JOINSPLITS_HASH_PERSONALIZATION
    (concat (map js_bytes (vjoinsplit t)) ++ Serialize_blob (joinSplitPubKey t)).
Definition sapling_queries (t : tx) : list (list Z * list Z) :=
  queries_of (vShieldedSpend t) ZCASH_SHIELDED_SPENDS_HASH_PERSONALIZATION
    (concat (map signed_spend (vShieldedSpend t))) ++
  queries_of (vShieldedOutput t) ZCASH_SHIELDED_OUTPUTS_HASH_PERSONALIZATION
    (concat (map Serialize_OutputDescription (vShieldedOutput t))).

Definition all_message (sapling : bool) (code : script) (t : tx) (i : CTxIn) (ht am : Z) : list Z :=
  ser_writedata32 (GetHeader t) ++ ser_writedata32 (nVersionGroupId t) ++
  Serialize_blob (GetPrevoutHash t) ++ Serialize_blob (GetSequenceHash t) ++ Serialize_blob (GetOutputsHash t) ++
  Serialize_blob (js_digest t) ++
  when sapling (Serialize_blob (spends_digest t) ++ Serialize_blob (outputs_digest t)) ++
  ser_writedata32 (nLockTime t) ++ ser_writedata32 (nExpiryHeight t) ++
  when sapling (Serialize_int64 (valueBalance t)) ++
  Serialize_int32 ht ++
  Serialize_COutPoint (prevout i) ++ Serialize_bytes code ++ Serialize_int64 am ++ ser_writedata32 (nSequence i).

(** Everything that computing a signature hash of type ALL gives to BLAKE2b: the outputs spent, the
    sequences, the outputs, the JoinSplits, the shielded descriptions and the message itself. *)
Definition signing_queries (code : script) (t : tx) (n ht am br : Z) : list (list Z * list Z) :=
  [(ZCASH_PREVOUTS_HASH_PERSONALIZATION, concat (map (fun i => Serialize_COutPoint (prevout i)) (vin t)));
   (ZCASH_SEQUENCE_HASH_PERSONALIZATION, concat (map (fun i => ser_writedata32 (nSequence i)) (vin t)));
   (ZCASH_OUTPUTS_HASH_PERSONALIZATION, concat (map Serialize_CTxOut (vout t)))] ++
  js_queries t ++
  (if is_sapling (SignatureHashVersion t) then sapling_queries t else []) ++
  match vin t !! Z.to_nat n with
  | Some i => [(sighash_personalization br, all_message (is_sapling (SignatureHashVersion t)) code t i ht am)]
  | None => []
  end.

Lemma sighash_joinsplits_wf t : tx_wf t -> sighash_joinsplits t None = Some (js_digest t).
Proof.
  intros Hw. assert (Forall (js_wf (GetHeader t)) (vjoinsplit t)) as Hj by apply Hw.
  unfold sighash_joinsplits, js_digest, GetJoinSplitsHash, digest_of.
  rewrite mapM_JSDescription by done. by destruct (vjoinsplit t).
Qed.

Lemma tx_wf_inputs t : tx_wf t -> size (vin t) <= MAX_SIZE.
Proof. intros (_ & _ & [[_ H] _] & _). exact H. Qed.

Lemma sighash_message_all sapling t code n ht am br : signing_wf t code n ht am br -> covers_all ht ->
  exists i, vin t !! Z.to_nat n = Some i /\
    sighash_message sapling code t n ht am None = Some (all_message sapling code t i ht am).
Proof.
  intros (Hw & _ & Hn & _) (Ha & Hs & Hno). pose proof (tx_wf_inputs t Hw) as Hmax. unfold MAX_SIZE in Hmax.
  destruct (lookup_lt_is_Some_2 (vin t) (Z.to_nat n)) as [i Hi]; [unfold size in Hn; lia|].
  exists i. split; [done|]. unfold sighash_message, sighash_outputs, signed_input. cbn [cached].
  rewrite sighash_joinsplits_wf by done. rewrite Ha.
  rewrite (proj2 (Z.eqb_neq _ _) Hs), (proj2 (Z.eqb_neq _ _) Hno).
  rewrite (proj2 (Z.eqb_neq n NOT_AN_INPUT)) by (unfold NOT_AN_INPUT; lia). cbn [negb andb].
  rewrite Hi. unfold all_message. do 2 f_equal.
Qed.

Lemma signing_queries_in Q code t n ht am br i : vin t !! Z.to_nat n = Some i ->
  signing_queries code t n ht am br ⊆ Q ->
  (ZCASH_PREVOUTS_HASH_PERSONALIZATION, concat (map (fun i => Serialize_COutPoint (prevout i)) (vin t))) ∈ Q /\
  (ZCASH_SEQUENCE_HASH_PERSONALIZATION, concat (map (fun i => ser_writedata32 (nSequence i)) (vin t))) ∈ Q /\
  (ZCASH_OUTPUTS_HASH_PERSONALIZATION, concat (map Serialize_CTxOut (vout t))) ∈ Q /\
  js_queries t ⊆ Q /\ (is_sapling (SignatureHashVersion t) = true -> sapling_queries t ⊆ Q) /\
  (sighash_personalization br, all_message (is_sapling (SignatureHashVersion t)) code t i ht am) ∈ Q.
Proof.
  unfold signing_queries. intros -> H. repeat rewrite list_subseteq_app_iff_l in H.
  destruct H as (H3 & Hj & Hs & Hm). repeat (split; [solve [apply H3; set_solver | done]|]). split.
  - intros Es. by rewrite Es in Hs.
  - apply Hm. set_solver.
Qed.

(** Split an equation between two sequences of fields, one field at a time. *)
Ltac split_field H E ser unser wf :=
  apply (codec_app_inj ser unser wf) in H as [E H]; [|solve [assumption | apply blake2b_256_blob | apply digest_of_wf]..].

Lemma header_inj t1 t2 : tx_wf t1 -> tx_wf t2 -> GetHeader t1 = GetHeader t2 ->
  fOverwintered t1 = fOverwintered t2 /\ nVersion t1 = nVersion t2.
Proof.
  intros [Hv1 _] [Hv2 _] E. destruct (GetHeader_decode t1 Hv1) as (_ & <- & <-).
  destruct (GetHeader_decode t2 Hv2) as (_ & <- & <-). by rewrite E.
Qed.

(** Equality of the fields that [all_message] writes directly, and of the digests. *)
Lemma all_message_inj s1 s2 t1 t2 c1 c2 i1 i2 ht1 ht2 am1 am2 :
  (nVersionGroupId t1 = nVersionGroupId t2 -> s1 = s2) -> tx_wf t1 -> tx_wf t2 ->
  bytes_wf c1 -> bytes_wf c2 -> txin_wf i1 -> txin_wf i2 ->
  sint_wf 32 ht1 -> sint_wf 32 ht2 -> sint_wf 64 am1 -> sint_wf 64 am2 ->
  all_message s1 c1 t1 i1 ht1 am1 = all_message s2 c2 t2 i2 ht2 am2 ->
  (GetHeader t1 = GetHeader t2 /\ nVersionGroupId t1 = nVersionGroupId t2 /\ nLockTime t1 = nLockTime t2 /\
   nExpiryHeight t1 = nExpiryHeight t2 /\ (s1 = true -> valueBalance t1 = valueBalance t2) /\ ht1 = ht2 /\
   am1 = am2 /\ c1 = c2 /\ blank_input i1 = blank_input i2) /\
  (GetPrevoutHash t1 = GetPrevoutHash t2 /\ GetSequenceHash t1 = GetSequenceHash t2 /\
   GetOutputsHash t1 = GetOutputsHash t2 /\ js_digest t1 = js_digest t2 /\
   (s1 = true -> spends_digest t1 = spends_digest t2 /\ outputs_digest t1 = outputs_digest t2)).
Proof.
  intros Hs (Hv1 & ? & _ & _ & ? & ? & ? & _) (Hv2 & ? & _ & _ & ? & ? & ? & _) ? ? (? & ? & ?) (? & ? & ?) ? ? ? ? E.
  destruct (GetHeader_decode t1 Hv1) as [? _], (GetHeader_decode t2 Hv2) as [? _].
  unfold all_message in E.
  split_field E E1 ser_writedata32 ser_readdata32 (uint_wf 32).
  split_field E E2 ser_writedata32 ser_readdata32 (uint_wf 32). specialize (Hs E2) as ->.
  do 4 (let E' := fresh "Eh" in split_field E E' Serialize_blob (Unserialize_blob 32) (blob_wf 32)).
  assert ((s2 = true -> spends_digest t1 = spends_digest t2 /\ outputs_digest t1 = outputs_digest t2 /\
           valueBalance t1 = valueBalance t2) /\
          nLockTime t1 = nLockTime t2 /\ nExpiryHeight t1 = nExpiryHeight t2 /\
          Serialize_int32 ht1 ++ Serialize_COutPoint (prevout i1) ++ Serialize_bytes c1 ++ Serialize_int64 am1 ++
            ser_writedata32 (nSequence i1) =
          Serialize_int32 ht2 ++ Serialize_COutPoint (prevout i2) ++ Serialize_bytes c2 ++ Serialize_int64 am2 ++
            ser_writedata32 (nSequence i2)) as (Hsap & El & Ee & E').
  { destruct s2; cbn [when] in E.
    - rewrite <- !app_assoc in E.
      do 2 (let E' := fresh "Ed" in split_field E E' Serialize_blob (Unserialize_blob 32) (blob_wf 32)).
      do 2 (let E' := fresh "El" in split_field E E' ser_writedata32 ser_readdata32 (uint_wf 32)).
      split_field E Ev Serialize_int64 Unserialize_int64 (sint_wf 64). done.
    - cbn [app] in E.
      do 2 (let E' := fresh "El" in split_field E E' ser_writedata32 ser_readdata32 (uint_wf 32)). done. }
  clear E. rename E' into E.
  split_field E Eht Serialize_int32 Unserialize_int32 (sint_wf 32).
  split_field E Epo Serialize_COutPoint Unserialize_COutPoint outpoint_wf.
  split_field E Ec Serialize_bytes Unserialize_bytes bytes_wf.
  split_field E Eam Serialize_int64 Unserialize_int64 (sint_wf 64).
  rewrite <- (app_nil_r (ser_writedata32 (nSequence i1))), <- (app_nil_r (ser_writedata32 (nSequence i2))) in E.
  split_field E Esq ser_writedata32 ser_readdata32 (uint_wf 32).
  repeat split; try done; try (by intros; apply Hsap). unfold blank_input. by rewrite Epo, Esq.
Qed.

(** *** From the digests to what they digest *)

Definition blank_spend_wf (d : SpendDescription) : Prop :=
  blob_wf 32 (sd_cv d) /\ blob_wf 32 (sd_anchor d) /\ blob_wf 32 (sd_nullifier d) /\
  blob_wf 32 (sd_rk d) /\ blob_wf GROTH_PROOF_SIZE (sd_zkproof d) /\ sd_spendAuthSig d = [].
Definition Unserialize_signed_spend : Reader SpendDescription :=
  cv <-- Unserialize_blob 32 ;; anchor <-- Unserialize_blob 32 ;; nullifier <-- Unserialize_blob 32 ;;
  rk <-- Unserialize_blob 32 ;; zkproof <-- Unserialize_blob GROTH_PROOF_SIZE ;;
  rret {| sd_cv := cv; sd_anchor := anchor; sd_nullifier := nullifier; sd_rk := rk;
          sd_zkproof := zkproof; sd_spendAuthSig := [] |}.

#[local] Instance codec_blob_n n : Codec Serialize_blob (Unserialize_blob n) (blob_wf n).
Proof. apply codec_blob. Qed.
#[local] Opaque Serialize_blob Unserialize_blob.
#[local] Instance codec_signed_spend : Codec signed_spend Unserialize_signed_spend blank_spend_wf.
Proof.
  split.
  - intros [] rest (? & ? & ? & ? & ? & ?). cbn in *. subst.
    unfold signed_spend, Unserialize_signed_spend. cbn. codec_read_fields.
  - intros s p rest Hs H. unfold Unserialize_signed_spend in H. codec_exact_fields Hs H signed_spend.
Qed.
#[local] Transparent Serialize_blob Unserialize_blob.

Lemma map_blank_spend_inj l1 l2 : Forall spend_wf l1 -> Forall spend_wf l2 ->
  concat (map signed_spend l1) = concat (map signed_spend l2) -> map blank_spend l1 = map blank_spend l2.
Proof.
  intros H1 H2 E. apply (codec_concat_inj signed_spend Unserialize_signed_spend blank_spend_wf); [done|..].
  3: by rewrite !map_map.
  all: apply Forall_fmap; eapply Forall_impl; [eassumption|]; intros d (? & ? & ? & ? & ? & _); unfold blank_spend_wf; cbn; tauto.
Qed.

Lemma map_blank_input_inj l1 : forall l2, map prevout l1 = map prevout l2 -> map nSequence l1 = map nSequence l2 ->
  map blank_input l1 = map blank_input l2.
Proof.
  induction l1 as [|i l1 IH]; intros [|j l2]; try done. cbn [map]. intros [= Ep E1] [= Es E2].
  rewrite (IH l2 E1 E2). unfold blank_input. by rewrite Ep, Es.
Qed.

Lemma prevouts_inj l1 l2 : Forall txin_wf l1 -> Forall txin_wf l2 ->
  concat (map (fun i => Serialize_COutPoint (prevout i)) l1) = concat (map (fun i => Serialize_COutPoint (prevout i)) l2) ->
  map prevout l1 = map prevout l2.
Proof.
  intros H1 H2 E. apply (codec_concat_inj Serialize_COutPoint Unserialize_COutPoint outpoint_wf); [done|..].
  3: by rewrite !map_map.
  all: apply Forall_fmap; eapply Forall_impl; [eassumption|]; by intros i [? _].
Qed.

Lemma sequences_inj l1 l2 : Forall txin_wf l1 -> Forall txin_wf l2 ->
  concat (map (fun i => ser_writedata32 (nSequence i)) l1) = concat (map (fun i => ser_writedata32 (nSequence i)) l2) ->
  map nSequence l1 = map nSequence l2.
Proof.
  intros H1 H2 E. apply (codec_concat_inj ser_writedata32 ser_readdata32 (uint_wf 32)); [done|..].
  3: by rewrite !map_map.
  all: apply Forall_fmap; eapply Forall_impl; [eassumption|]; by intros i (_ & _ & ?).
Qed.

Lemma js_digest_inj Q t1 t2 : js_queries t1 ⊆ Q -> js_queries t2 ⊆ Q -> tx_wf t1 -> tx_wf t2 -> GetHeader t1 = GetHeader t2 -> js_digest t1 = js_digest t2 ->
  broken_on Q \/ (vjoinsplit t1 = vjoinsplit t2 /\ (vjoinsplit t1 = [] \/ joinSplitPubKey t1 = joinSplitPubKey t2)).
Proof.
  intros Q1 Q2 (_ & _ & _ & _ & _ & _ & _ & _ & _ & [_ Hj1] & [Hk1 _] & _) (_ & _ & _ & _ & _ & _ & _ & _ & _ & [_ Hj2] & [Hk2 _] & _) Eh E.
  apply (digest_of_inj Q) in E as [?|[[-> ->]|(_ & _ & E)]]; [by left|right; split; [done|by left]| |done..].
  right. apply app_inj_2 in E as [E Ek]; [|unfold Serialize_blob; congruence]. split; [|by right].
  rewrite Eh in Hj1.
  by apply (codec_concat_inj js_bytes (Unserialize_JSDescription (GetHeader t2)) (js_wf (GetHeader t2))) in E.
Qed.

Lemma sapling_digests_inj Q t1 t2 : sapling_queries t1 ⊆ Q -> sapling_queries t2 ⊆ Q -> tx_wf t1 -> tx_wf t2 ->
  spends_digest t1 = spends_digest t2 -> outputs_digest t1 = outputs_digest t2 ->
  broken_on Q \/ (map blank_spend (vShieldedSpend t1) = map blank_spend (vShieldedSpend t2) /\
                    vShieldedOutput t1 = vShieldedOutput t2).
Proof.
  unfold sapling_queries. intros Q1 Q2 (_ & _ & _ & _ & _ & _ & _ & [_ Hs1] & [_ Ho1] & _) (_ & _ & _ & _ & _ & _ & _ & [_ Hs2] & [_ Ho2] & _) Es Eo.
  apply list_subseteq_app_iff_l in Q1 as [Q1 Q1'], Q2 as [Q2 Q2'].
  apply (digest_of_inj Q) in Es as [?|Es]; [by left| |done..].
  apply (digest_of_inj Q) in Eo as [?|Eo]; [by left| |done..].
  right. split.
  - destruct Es as [[-> ->]|(_ & _ & E)]; [done|]. by apply map_blank_spend_inj.
  - destruct Eo as [[-> ->]|(_ & _ & E)]; [done|].
    by apply (codec_concat_inj Serialize_OutputDescription Unserialize_OutputDescription output_wf) in E.
Qed.

(** Equal parts that ALL covers, from equal fields. *)
Lemma unsigned_eq t1 t2 : tx_wf t1 -> tx_wf t2 -> GetHeader t1 = GetHeader t2 ->
  nVersionGroupId t1 = nVersionGroupId t2 -> nLockTime t1 = nLockTime t2 -> nExpiryHeight t1 = nExpiryHeight t2 ->
  (is_sapling (SignatureHashVersion t1) = true -> valueBalance t1 = valueBalance t2 /\
     map blank_spend (vShieldedSpend t1) = map blank_spend (vShieldedSpend t2) /\
     vShieldedOutput t1 = vShieldedOutput t2) ->
  map blank_input (vin t1) = map blank_input (vin t2) -> vout t1 = vout t2 -> vjoinsplit t1 = vjoinsplit t2 ->
  (vjoinsplit t1 = [] \/ joinSplitPubKey t1 = joinSplitPubKey t2) ->
  unsigned t1 = unsigned t2.
Proof.
  intros H1 H2 Eh Eg El Ee Es Ei Eo Ej Ek. destruct (header_inj t1 t2 H1 H2 Eh) as [EO Ev].
  assert (SignatureHashVersion t1 = SignatureHashVersion t2) as Esv
    by (unfold SignatureHashVersion; by rewrite EO, Eg).
  unfold unsigned. rewrite EO, Ev, Eg, El, Ee, Ei, Eo, <- Esv, <- Ej. f_equal.
  - destruct (is_sapling _); [|done]. by destruct (Es eq_refl) as (? & _).
  - destruct (is_sapling _); [|done]. by destruct (Es eq_refl) as (_ & ? & _).
  - destruct (is_sapling _); [|done]. by destruct (Es eq_refl) as (_ & _ & ?).
  - by destruct (vjoinsplit t1), Ek as [|].
Qed.

Lemma overwinter_hash t code n ht am br h : signing_wf t code n ht am br -> covers_all ht ->
  SignatureHash code t n ht am br None = Sighash h ->
  exists i, vin t !! Z.to_nat n = Some i /\ txin_wf i /\
    h = blake2b_256 (sighash_personalization br)
          (all_message (is_sapling (SignatureHashVersion t)) code t i ht am).
Proof.
  intros Hw Hall. destruct (sighash_message_all (is_sapling (SignatureHashVersion t)) t code n ht am br Hw Hall) as (i & Hi & Em).
  destruct Hw as (Hw & HfO & _). unfold SignatureHash. destruct (_ && _); [done|].
  assert (txin_wf i) as Hwi.
  { destruct Hw as (_ & _ & [_ Hv] & _). by eapply (Forall_lookup_1 _ _ _ _ Hv). }
  destruct (SignatureHashVersion t) eqn:Ev.
  - unfold SignatureHashVersion in Ev. rewrite HfO in Ev. by destruct (_ =? _).
  - rewrite Em. intros [= <-]. by exists i.
  - rewrite Em. intros [= <-]. by exists i.
Qed.

(** Whatever the hash type, a signature hash does not depend on the signatures of the transaction
    (those of the inputs, of the shielded spends, of the JoinSplits and the binding one), nor on
    fields its version does not have: transactions that agree on the rest have the same hash, so
    inputs can be signed in any order and a signature stays good when others are added. *)
Theorem sighash_ignores_signatures t1 t2 code n ht am br : unsigned t1 = unsigned t2 ->
  SignatureHash code t1 n ht am br None = SignatureHash code t2 n ht am br None.
Proof. intros E. by rewrite <- (SignatureHash_unsigned t1), <- (SignatureHash_unsigned t2), E. Qed.

(** [C15] From Overwinter on a hash of type ALL commits to everything else: two signatures with the same
    hash are for the same script, amount, branch, hash type and input, and for transactions that
    agree on every field but the signatures (inputs, outputs, lock time, expiry height, version,
    value balance, JoinSplits, shielded spends and outputs), or else among the inputs of BLAKE2b in
    these two computations there are two with the same digest, or one with the null digest. *)
Theorem sighash_all_commits t1 t2 code1 code2 n1 n2 ht1 ht2 am1 am2 br1 br2 h :
  signing_wf t1 code1 n1 ht1 am1 br1 -> signing_wf t2 code2 n2 ht2 am2 br2 ->
  covers_all ht1 -> covers_all ht2 ->
  SignatureHash code1 t1 n1 ht1 am1 br1 None = Sighash h ->
  SignatureHash code2 t2 n2 ht2 am2 br2 None = Sighash h ->
  broken_on (signing_queries code1 t1 n1 ht1 am1 br1 ++ signing_queries code2 t2 n2 ht2 am2 br2) \/
  (unsigned t1 = unsigned t2 /\ code1 = code2 /\ ht1 = ht2 /\ am1 = am2 /\ br1 = br2 /\
   blank_input <$> (vin t1 !! Z.to_nat n1) = blank_input <$> (vin t2 !! Z.to_nat n2)).
Proof.
  intros W1 W2 A1 A2 S1 S2.
  destruct (overwinter_hash _ _ _ _ _ _ _ W1 A1 S1) as (i1 & Hi1 & Hw1 & E1).
  destruct (overwinter_hash _ _ _ _ _ _ _ W2 A2 S2) as (i2 & Hi2 & Hw2 & E2).
  destruct W1 as (T1 & O1 & _ & C1 & HT1 & AM1 & BR1), W2 as (T2 & O2 & _ & C2 & HT2 & AM2 & BR2).
  match goal with |- broken_on ?q \/ _ => set (Q := q) end.
  destruct (signing_queries_in Q code1 t1 n1 ht1 am1 br1 i1 Hi1) as (P1 & S1' & U1 & J1 & Z1 & M1); [solve [by apply list_subseteq_app_l | by apply list_subseteq_app_r]|].
  destruct (signing_queries_in Q code2 t2 n2 ht2 am2 br2 i2 Hi2) as (P2 & S2' & U2 & J2 & Z2 & M2); [solve [by apply list_subseteq_app_l | by apply list_subseteq_app_r]|].
  clearbody Q. rewrite E1 in E2. destruct (blake2b_inj Q _ _ _ _ M1 M2 E2) as [?|[Ep Em]]; [by left|].
  assert (br1 = br2) as Ebr.
  { unfold sighash_personalization in Ep. apply app_inv_head in Ep.
    rewrite <- (app_nil_r (WriteLE32 br1)), <- (app_nil_r (WriteLE32 br2)) in Ep.
    by apply (codec_app_inj ser_writedata32 ser_readdata32 (uint_wf 32)) in Ep as [? _]. }
  apply all_message_inj in Em as ((Eh & Eg & El & Ee & Ev & Eht & Eam & Ec & Ei) & (D1 & D2 & D3 & D4 & D5)); try done.
  2: { intros Eg. unfold SignatureHashVersion. by rewrite O1, O2, Eg. }
  apply (blake2b_inj Q) in D1 as [?|[_ D1]]; [by left| |done..].
  apply (blake2b_inj Q) in D2 as [?|[_ D2]]; [by left| |done..].
  apply (blake2b_inj Q) in D3 as [?|[_ D3]]; [by left| |done..].
  destruct (js_digest_inj Q t1 t2 J1 J2 T1 T2 Eh D4) as [?|[Ej Ek]]; [by left|].
  assert (SignatureHashVersion t1 = SignatureHashVersion t2) as Esv
    by (unfold SignatureHashVersion; by rewrite O1, O2, Eg).
  assert (broken_on Q \/ (is_sapling (SignatureHashVersion t1) = true ->
    map blank_spend (vShieldedSpend t1) = map blank_spend (vShieldedSpend t2) /\
    vShieldedOutput t1 = vShieldedOutput t2)) as [?|Hsap]; [|by left|].
  { rewrite <- Esv in Z2. destruct (is_sapling (SignatureHashVersion t1)); [|by right]. destruct (D5 eq_refl) as [Ds Do].
    destruct (sapling_digests_inj Q t1 t2 (Z1 eq_refl) (Z2 eq_refl) T1 T2 Ds Do) as [?|?]; [by left|by right]. }
  right. assert (Forall txin_wf (vin t1) /\ Forall txin_wf (vin t2)) as [I1 I2] by (split; [apply T1|apply T2]).
  split; [|split; [done|split; [done|split; [done|split; [done|]]]]].
  - apply unsigned_eq; try done.
    + intros Hs. destruct (Hsap Hs). split; [by apply Ev|done].
    + apply map_blank_input_inj; [by apply prevouts_inj|by apply sequences_inj].
    + apply (codec_concat_inj Serialize_CTxOut Unserialize_CTxOut txout_wf); [done|apply T1|apply T2|done].
  - rewrite Hi1, Hi2. cbn. by rewrite Ei.
Qed.

(** The digests computed once per transaction are the ones computed for each input: a checker
    with precomputed data hashes like one without. *)
Theorem precomputed_transparent t c code n ht am br : make_precomputed t = Some c ->
  SignatureHash code t n ht am br (Some c) = SignatureHash code t n ht am br None.
Proof.
  unfold make_precomputed. destruct (GetJoinSplitsHash t) as [js|] eqn:Ej; [|done]. intros [= <-].
  unfold SignatureHash, sighash_message, sighash_outputs, sighash_joinsplits. cbn [cached hashPrevouts hashSequence
    hashOutputs hashJoinSplits hashShieldedSpends hashShieldedOutputs]. by rewrite Ej.
Qed.
End Coverage.

(** ** The checker does not throw *)

Section Checker.
Context {B : Blake2b} {E : Secp256k1} {C : CryptoConditions}.

Lemma write_each_some f n : (forall k, 0 <= k < n -> exists b, f k = Some b) -> exists b, write_each f n = Some b.
Proof.
  intros Hf. unfold write_each. set (ks := map Z.of_nat (seq 0 (Z.to_nat n))).
  assert (Forall (fun k => exists b, f k = Some b) ks) as Hk.
  { apply List.Forall_forall. intros k Hk. apply in_map_iff in Hk as (j & <- & Hj). apply in_seq in Hj.
    apply Hf. lia. }
  clearbody ks. induction Hk as [|k ks [b Hb] _ [bs IH]]; cbn; [by eexists|].
  rewrite Hb. cbn. destruct (mapM f ks); [|done]. by eexists.
Qed.

Lemma in_bounds {A} (l : list A) k : 0 <= k < size l -> exists x, l !! Z.to_nat k = Some x.
Proof. intros Hk. apply lookup_lt_is_Some_2. unfold size in Hk. lia. Qed.

(** Before Overwinter the stream has version 0, and so have the proofs. *)
Lemma SerializeJoinSplits_some t : tx_wf t -> fOverwintered t = false -> exists b, SerializeJoinSplits t = Some b.
Proof.
  intros (Hv & _ & _ & _ & _ & _ & _ & _ & _ & [_ Hj] & _) HfO. unfold SerializeJoinSplits.
  destruct (_ >=? 2); [|by eexists].
  assert (Forall (js_wf 0) (vjoinsplit t)) as Hj0.
  { eapply Forall_impl; [exact Hj|]. intros d. unfold js_wf.
    assert (useGroth_of (GetHeader t) = useGroth_of 0) as ->; [|done].
    unfold useGroth_of. destruct (GetHeader_decode t Hv) as (_ & -> & _). by rewrite HfO. }
  rewrite (mapM_JSDescription 0) by done. by eexists.
Qed.

Lemma SerializeTo_some t code n ht : tx_wf t -> fOverwintered t = false -> 0 <= n < size (vin t) ->
  (hash_mode ht = SIGHASH_SINGLE -> n < size (vout t)) ->
  exists b, SerializeTo (make_serializer t code n ht) = Some b.
Proof.
  intros Hw HfO Hn Hs. pose proof (tx_wf_inputs t Hw) as Hmax. unfold MAX_SIZE in Hmax. unfold SerializeTo.
  destruct (write_each_some (SerializeInput (make_serializer t code n ht)) (nInputs (make_serializer t code n ht))) as [b1 ->].
  { intros k Hk. unfold SerializeInput. cbn [fAnyoneCanPay ss_nIn txTo make_serializer] in *.
    unfold nInputs in Hk. cbn [fAnyoneCanPay txTo make_serializer] in Hk.
    assert (0 <= (if anyone_can_pay ht then n else k) < size (vin t)) as Hk' by (destruct (anyone_can_pay ht); lia).
    destruct (in_bounds _ _ Hk') as [i ->]. unfold NOT_AN_INPUT. destruct (Z.eqb_spec (if anyone_can_pay ht then n else k) UINT32_MAX); [lia|].
    by eexists. }
  destruct (write_each_some (SerializeOutput (make_serializer t code n ht)) (nOutputs (make_serializer t code n ht))) as [b2 ->].
  { intros k Hk. unfold SerializeOutput. cbn [fHashSingle ss_nIn txTo make_serializer] in *.
    unfold nOutputs in Hk. cbn [fHashSingle fHashNone ss_nIn txTo make_serializer] in Hk.
    destruct (Z.eqb_spec (hash_mode ht) SIGHASH_SINGLE) as [Es|]; cbn [andb].
    - specialize (Hs Es). destruct (Z.eqb_spec k n) as [->|]; cbn [negb]; [|by eexists].
      destruct (in_bounds (vout t) n ltac:(lia)) as [o ->]. by eexists.
    - destruct (_ =? SIGHASH_NONE); [lia|]. destruct (in_bounds (vout t) k Hk) as [o ->]. by eexists. }
  cbn [txTo make_serializer]. destruct (SerializeJoinSplits_some t Hw HfO) as [b3 ->]. by eexists.
Qed.

Lemma sighash_message_some sapling t code n ht am cache : tx_wf t -> 0 <= n < size (vin t) ->
  exists m, sighash_message sapling code t n ht am cache = Some m.
Proof.
  intros Hw Hn. unfold sighash_message. assert (exists h, sighash_joinsplits t cache = Some h) as [h ->].
  { pose proof (sighash_joinsplits_wf t Hw) as Hj. unfold sighash_joinsplits in *.
    destruct (vjoinsplit t), cache; by eexists. }
  unfold signed_input. destruct (negb _); [|by eexists]. destruct (in_bounds _ _ Hn) as [i ->]. by eexists.
Qed.

Lemma SignatureHash_caught t code n ht am br cache : tx_wf t -> 0 <= n < size (vin t) ->
  SignatureHash code t n ht am br cache <> Uncaught.
Proof.
  intros Hw Hn. unfold SignatureHash. destruct (_ && _); [done|]. destruct (SignatureHashVersion t) eqn:Ev.
  - destruct (_ && _) eqn:Es; [done|]. destruct (SerializeTo_some t code n ht Hw) as [b ->]; [|done| |done].
    + unfold SignatureHashVersion in Ev. destruct (fOverwintered t); [|done]. by destruct (_ =? _).
    + intros Hm. rewrite Hm in Es. cbn in Es. rewrite Z.geb_leb in Es. apply Z.leb_gt in Es. lia.
  - destruct (sighash_message_some false t code n ht am cache Hw Hn) as [m Em]. cbn [is_sapling]. by rewrite Em.
  - destruct (sighash_message_some true t code n ht am cache Hw Hn) as [m Em]. cbn [is_sapling]. by rewrite Em.
Qed.

(** For a transaction in memory and one of its inputs, no method of the checker throws, so the
    record [tx_checker] is the checker: only the [logic_error] for a hash type SINGLE without an
    output occurs, and it is caught. *)
Theorem checker_never_throws c : tx_wf (sc_txTo c) -> 0 <= sc_nIn c < size (vin (sc_txTo c)) ->
  (forall sig key code br, TxCheckSig c sig key code br = Some (CheckSig (tx_checker c) sig key code br)) /\
  (forall n, TxCheckLockTime c n = Some (CheckLockTime (tx_checker c) n)) /\
  (forall cond ffill code br,
     TxCheckCryptoCondition c cond ffill code br = Some (CheckCryptoCondition (tx_checker c) cond ffill code br)).
Proof.
  intros Hw Hn.
  assert (forall {A} (d : A) o, o <> None -> o = Some (default d o)) as Hd by (intros A d [x|]; done).
  split; [|split]; intros; apply Hd.
  - unfold TxCheckSig. destruct (negb _); [done|]. destruct sig; [done|].
    pose proof (SignatureHash_caught (sc_txTo c) code (sc_nIn c)
      (at_ (z :: sig) (size (z :: sig) - 1)) (amount c) br (txdata c) Hw Hn).
    destruct (SignatureHash _ _ _ _ _ _ _); [by destruct (negb _)|done|done].
  - unfold TxCheckLockTime. destruct (negb _); [done|]. destruct (_ >? _); [done|].
    destruct (in_bounds _ _ Hn) as [i ->]. by destruct (CTxIn_IsFinal i).
  - unfold TxCheckCryptoCondition. destruct ffill as [|z ffill]; [done|].
    destruct (cc_readFulfillmentBinaryExt _) as [cc|]; [|done].
    destruct (negb _); [done|]. destruct (negb _); [done|].
    pose proof (SignatureHash_caught (sc_txTo c) (CCPubKey cc) (sc_nIn c)
      (at_ (z :: ffill) (size (z :: ffill) - 1)) (amount c) br (txdata c) Hw Hn).
    by destruct (SignatureHash _ _ _ _ _ _ _).
Qed.
End Checker.

(** ** Witnesses *)

(** A hash function that keeps 32 bytes of its input, enough for an instance of the laws. *)
#[local] Instance toy_blake2b : Blake2b := fun p m => take 32 (map u8 (m ++ p) ++ replicate 32 0).
#[local] Instance toy_blake2b_laws : Blake2bLaws toy_blake2b.
Proof.
  intros p m. split.
  - unfold blake2b_256, toy_blake2b. rewrite length_take, length_app, length_replicate. lia.
  - unfold blake2b_256, toy_blake2b. apply Forall_take, Forall_app. split.
    + apply Forall_fmap, Forall_true. intros x. apply uwrap_bound. lia.
    + apply (bool_decide_unpack _). vm_compute. exact I.
Qed.

#[local] Instance toy_conditions : CryptoConditions := {|
  cc_readFulfillmentBinaryExt := fun _ => None; cc_conditionBinary := fun _ => []; cc_verify := fun _ _ _ => 1 |}.

(** The sample transaction with another binding signature. *)
Definition resigned : tx := {|
  fOverwintered := true; nVersion := 4; nVersionGroupId := SAPLING_VERSION_GROUP_ID;
  vin := [sample_in]; vout := [sample_out]; nLockTime := 9; nExpiryHeight := 11; valueBalance := 20;
  vShieldedSpend := [sample_spend]; vShieldedOutput := []; vjoinsplit := [];
  joinSplitPubKey := replicate 32 0; joinSplitSig := replicate 64 0; bindingSig := replicate 64 9 |}.

Lemma resigned_wf : tx_wf resigned.
Proof.
  pose proof sample_tx_wf as (? & ? & ? & ? & ? & ? & ? & ? & ? & ? & ? & ? & _).
  do 12 (split; [assumption|]). split; wf_compute.
Qed.

Lemma sample_signing_wf t : tx_wf t -> fOverwintered t = true -> size (vin t) = 1 ->
  signing_wf t [118; 169] 0 SIGHASH_ALL 5000 7.
Proof.
  intros Ht HO Hn. split; [done|]. split; [done|]. split; [lia|].
  repeat split; try (vm_compute; intro; discriminate); try wf_compute.
Qed.

Lemma covers_SIGHASH_ALL : covers_all SIGHASH_ALL.
Proof. repeat split; vm_compute; discriminate. Qed.

Lemma sighash_all_commits_witness : exists h,
  SignatureHash [118; 169] sample_tx 0 SIGHASH_ALL 5000 7 None = Sighash h /\
  (broken_on (signing_queries [118; 169] sample_tx 0 SIGHASH_ALL 5000 7 ++
              signing_queries [118; 169] resigned 0 SIGHASH_ALL 5000 7) \/ unsigned sample_tx = unsigned resigned).
Proof.
  eexists. split; [vm_compute; reflexivity|].
  edestruct (sighash_all_commits sample_tx resigned [118; 169] [118; 169] 0 0 SIGHASH_ALL SIGHASH_ALL 5000 5000 7 7)
    as [H | [H _]].
  - by apply sample_signing_wf; [apply sample_tx_wf|..].
  - by apply sample_signing_wf; [apply resigned_wf|..].
  - exact covers_SIGHASH_ALL.
  - exact covers_SIGHASH_ALL.
  - vm_compute. reflexivity.
  - vm_compute. reflexivity.
  - by left.
  - by right.
Defined.

Lemma sighash_ignores_signatures_witness :
  SignatureHash [118; 169] sample_tx 0 SIGHASH_NONE 5000 7 None =
  SignatureHash [118; 169] resigned 0 SIGHASH_NONE 5000 7 None.
Proof. apply sighash_ignores_signatures. reflexivity. Defined.

Lemma precomputed_transparent_witness : exists c, make_precomputed sample_tx = Some c /\
  SignatureHash [118] sample_tx 0 SIGHASH_ALL 5000 7 (Some c) = SignatureHash [118] sample_tx 0 SIGHASH_ALL 5000 7 None.
Proof. eexists. split; [reflexivity|]. apply precomputed_transparent. reflexivity. Defined.

Lemma checker_never_throws_witness :
  let c := {| sc_txTo := sample_tx; sc_nIn := 0; amount := 5000; txdata := None |} in
  TxCheckLockTime c 9 = Some true /\
  TxCheckLockTime c 9 = Some (CheckLockTime (tx_checker (E := toy_secp) c) 9).
Proof.
  intros c. split; [reflexivity|].
  apply (checker_never_throws (E := toy_secp) c).
  - exact sample_tx_wf.
  - split; vm_compute; [discriminate|reflexivity].
Defined.
