(* ===== verification/Finality.v ===== *)
(** * Finality: when a transaction may be mined
    [IsFinalTx], [IsExpiredTx] and [CheckFinalTx] of [src/src/main.cpp], with the hard fork test
    of [src/src/komodo_bitcoind.cpp], and what they give together with CHECKLOCKTIMEVERIFY. *)
From S2P Require Import Prelude Endian Uint256 Hash ScriptNum Opcode Script Serialize Amount Transaction Pubkey Interpreter SigHash.

Definition nDecemberHardforkHeight : Z := 1670000.
Definition nStakedDecemberHardforkTimestamp : Z := 1576840000.

Section Finality.
(** Whether the chain is KMD, and the height of its tip. *)
Context (isKMD : bool) (tip_height : Z).

(** The parameter of the function is a [uint32_t]. *)
Definition komodo_hardfork_active (time : Z) : bool :=
  (isKMD && (tip_height >? nDecemberHardforkHeight)) ||
  (negb isKMD && (u32 time >? nStakedDecemberHardforkTimestamp)).

(** The body of the loop over the inputs: [false] is its [return false]. *)
Definition input_passes (t : tx) (nBlockHeight nBlockTime : Z) (txin : CTxIn) : bool :=
  if negb (komodo_hardfork_active nBlockTime) && (nSequence txin =? 4294967294) &&
     (((nLockTime t >=? LOCKTIME_THRESHOLD) && (nLockTime t >? nBlockTime)) ||
      ((nLockTime t <? LOCKTIME_THRESHOLD) && (nLockTime t >? nBlockHeight)))
  then true
  else if komodo_hardfork_active nBlockTime && (nSequence txin =? 4294967294) &&
     (((nLockTime t >=? LOCKTIME_THRESHOLD) && (nLockTime t <=? nBlockTime)) ||
      ((nLockTime t <? LOCKTIME_THRESHOLD) && (nLockTime t <=? nBlockHeight)))
  then true
  else if negb (CTxIn_IsFinal txin) then false
  else true.

Definition IsFinalTx (t : tx) (nBlockHeight nBlockTime : Z) : bool :=
  if nLockTime t =? 0 then true
  else if nLockTime t <? (if nLockTime t <? LOCKTIME_THRESHOLD then nBlockHeight else nBlockTime) then true
  else forallb (input_passes t nBlockHeight nBlockTime) (vin t).

(** [static_cast<uint32_t>(nBlockHeight) > tx.nExpiryHeight] *)
Definition IsExpiredTx (t : tx) (nBlockHeight : Z) : bool :=
  if (nExpiryHeight t =? 0) || IsCoinBase t then false
  else u32 nBlockHeight >? nExpiryHeight t.

Definition LOCKTIME_MEDIAN_TIME_PAST : Z := 2.

(** [CheckFinalTx]: the median time of the tip and the clock are given. *)
Definition CheckFinalTx (median_time_past now : Z) (t : tx) (flags : Z) : bool :=
  let flags := Z.max flags 0 in
  let nBlockHeight := tip_height + 1 in
  let nBlockTime := if negb (Z.land flags LOCKTIME_MEDIAN_TIME_PAST =? 0) then median_time_past else now in
  IsFinalTx t nBlockHeight nBlockTime.

(** The height or the time that the lock time of a transaction is compared with. *)
Definition lock_reached (n nBlockHeight nBlockTime : Z) : Prop :=
  n <= (if n <? LOCKTIME_THRESHOLD then nBlockHeight else nBlockTime).

Lemma input_passes_after t h time i : komodo_hardfork_active time = true -> CTxIn_IsFinal i = false ->
  input_passes t h time i = true -> lock_reached (nLockTime t) h time.
Proof.
  unfold input_passes, lock_reached. intros -> ->. cbn [negb andb].
  destruct (nSequence i =? _); cbn [andb]; [|done]. rewrite Z.geb_leb.
  destruct (Z.ltb_spec (nLockTime t) LOCKTIME_THRESHOLD); destruct (Z.leb_spec LOCKTIME_THRESHOLD (nLockTime t)); try lia;
    cbn [andb orb].
  - by destruct (Z.leb_spec (nLockTime t) h).
  - by destruct (Z.leb_spec (nLockTime t) time).
Qed.

(** [C20] Once the December 2019 hard fork is active, CHECKLOCKTIMEVERIFY works: a transaction whose
    input has passed the check for a lock time [n] is final only from the height [n] on (or from
    the time [n] on, for values above the threshold). *)
Theorem cltv_spend_is_mature c n h time : 0 <= h -> 0 <= time ->
  komodo_hardfork_active time = true ->
  TxCheckLockTime c n = Some true -> IsFinalTx (sc_txTo c) h time = true ->
  lock_reached n h time.
Proof.
  intros Hh Ht Hf Hc Hfin. unfold TxCheckLockTime in Hc.
  destruct (negb (_ || _)) eqn:Ekind in Hc; [done|]. apply negb_false_iff in Ekind.
  rewrite Z.gtb_ltb in Hc. destruct (Z.ltb_spec (nLockTime (sc_txTo c)) n) as [|Hle]; [done|].
  destruct (vin (sc_txTo c) !! Z.to_nat (sc_nIn c)) as [i|] eqn:Hi; [|done].
  destruct (CTxIn_IsFinal i) eqn:Hseq; [done|]. clear Hc.
  assert (lock_reached (nLockTime (sc_txTo c)) h time \/ nLockTime (sc_txTo c) = 0) as Hr.
  { unfold IsFinalTx in Hfin. destruct (Z.eqb_spec (nLockTime (sc_txTo c)) 0) as [|_]; [by right|]. left.
    destruct (Z.ltb_spec (nLockTime (sc_txTo c)) (if nLockTime (sc_txTo c) <? LOCKTIME_THRESHOLD then h else time));
      [unfold lock_reached; lia|].
    rewrite forallb_forall in Hfin. eapply input_passes_after; [done|exact Hseq|]. apply Hfin.
    apply list_elem_of_In. by eapply list_elem_of_lookup_2. }
  unfold lock_reached in *. apply orb_true_iff in Ekind as [Ek | Ek]; propify.
  - destruct (Z.ltb_spec n LOCKTIME_THRESHOLD); [|lia].
    destruct (Z.ltb_spec (nLockTime (sc_txTo c)) LOCKTIME_THRESHOLD); lia.
  - destruct (Z.ltb_spec n LOCKTIME_THRESHOLD); [lia|].
    destruct (Z.ltb_spec (nLockTime (sc_txTo c)) LOCKTIME_THRESHOLD); unfold LOCKTIME_THRESHOLD in *; lia.
Qed.

(** Before the hard fork lock times do not lock: a transaction whose inputs all have the sequence
    0xfffffffe is final at every height and time at which its lock time has not been reached. *)
Theorem locktime_ignored_before_hardfork t h time : komodo_hardfork_active time = false ->
  ~ lock_reached (nLockTime t) h time -> Forall (fun i => nSequence i = 4294967294) (vin t) ->
  IsFinalTx t h time = true.
Proof.
  intros Hf Hr Hs. unfold IsFinalTx, lock_reached in *.
  destruct (nLockTime t =? 0); [done|].
  destruct (nLockTime t <? (if nLockTime t <? LOCKTIME_THRESHOLD then h else time)); [done|]. apply forallb_forall. intros i Hi.
  rewrite List.Forall_forall in Hs. specialize (Hs i Hi). unfold input_passes. rewrite Hf, Hs. cbn [negb andb].
  assert (((nLockTime t >=? LOCKTIME_THRESHOLD) && (nLockTime t >? time)) ||
          ((nLockTime t <? LOCKTIME_THRESHOLD) && (nLockTime t >? h)) = true) as ->; [|done].
  destruct (Z.ltb_spec (nLockTime t) LOCKTIME_THRESHOLD); propify; lia.
Qed.
End Finality.

(** A spend of an output locked until height 1000 that its transaction is locked until. *)
Definition locked_tx (sequence : Z) : tx := {|
  fOverwintered := false; nVersion := 1; nVersionGroupId := 0;
  vin := [{| prevout := {| Transaction.op_hash := replicate 32 7; op_n := 0 |}; scriptSig := []; nSequence := sequence |}];
  vout := []; nLockTime := 1000; nExpiryHeight := 0; valueBalance := 0; vShieldedSpend := [];
  vShieldedOutput := []; vjoinsplit := []; joinSplitPubKey := replicate 32 0; joinSplitSig := replicate 64 0;
  bindingSig := replicate 64 0 |}.

Lemma cltv_spend_is_mature_witness : lock_reached 1000 1000 1600000000.
Proof.
  refine (cltv_spend_is_mature true 1700000
    {| sc_txTo := locked_tx 4294967294; sc_nIn := 0; amount := 0; txdata := None |} 1000 1000 1600000000 _ _ _ _ _).
  - vm_compute. discriminate.
  - vm_compute. discriminate.
  - vm_compute. reflexivity.
  - vm_compute. reflexivity.
  - vm_compute. reflexivity.
Defined.

(** The same spend before the hard fork, final at height 1. *)
Lemma locktime_ignored_before_hardfork_witness : IsFinalTx true 1 (locked_tx 4294967294) 1 1500000000 = true.
Proof.
  apply locktime_ignored_before_hardfork.
  - vm_compute. reflexivity.
  - vm_compute. intros H. by apply H.
  - repeat constructor.
Defined.
