(* ===== verification/Interest.v ===== *)
(** * Interest: the interest of KMD outputs
    [komodo_interest.cpp], and [komodo_validate_interest] of [komodo_bitcoind.cpp], which keeps
    lock times close to block times.  Heights are [int32_t], values [uint64_t], times [uint32_t];
    products and differences of unsigned types wrap. *)
From S2P Require Import Prelude Endian Uint256 Hash Opcode Script Serialize Amount Transaction.

Definition KOMODO_INTEREST : Z := 5000000.
Definition KOMODO_ENDOFERA : Z := 7777777.
Definition KOMODO_MAXMEMPOOLTIME : Z := 3600.
Definition nS7HardforkHeight : Z := 3484958.
Definition KMD_DORMANCY_ACTIVATION_HEIGHT : Z := 4771595.

(** The assignment of [minutes] in the condition comes after the comparisons that guard it. *)
Definition _komodo_interestnew (txheight nValue nLockTime tiptime : Z) : Z :=
  let minutes := u32 (tiptime - nLockTime) / 60 in
  if (nLockTime >=? LOCKTIME_THRESHOLD) && (tiptime >? nLockTime) && (minutes >=? KOMODO_MAXMEMPOOLTIME / 60) then
    let minutes := if minutes >? 365 * 24 * 60 then 365 * 24 * 60 else minutes in
    let minutes := if (txheight >=? 1000000) && (minutes >? 31 * 24 * 60) then 31 * 24 * 60 else minutes in
    let minutes := minutes - (KOMODO_MAXMEMPOOLTIME / 60 - 1) in
    let res := u64 (nValue / 10512000 * minutes) in
    if (txheight >=? nS7HardforkHeight) && (txheight <? KMD_DORMANCY_ACTIVATION_HEIGHT) then res / 500 else res
  else 0.

Definition komodo_interestnew (txheight nValue nLockTime tiptime : Z) : Z :=
  if (txheight <? KOMODO_ENDOFERA) && (nLockTime >=? LOCKTIME_THRESHOLD) && negb (tiptime =? 0) &&
     (nLockTime <? tiptime) && (nValue >=? 10 * COIN)
  then _komodo_interestnew txheight nValue nLockTime tiptime
  else 0.

(** The outputs of more than 25000 coins that were paid by the other formula. *)
Definition is_exception (txheight nValue : Z) : bool :=
  (txheight <=? 155949) &&
  (((txheight =? 116607) && (nValue =? 2502721100000)) ||
   ((txheight =? 126891) && (nValue =? 2879650000000)) ||
   ((txheight =? 129510) && (nValue =? 3000000000000)) ||
   ((txheight =? 141549) && (nValue =? 3500000000000)) ||
   ((txheight =? 154473) && (nValue =? 3983399350000)) ||
   ((txheight =? 154736) && (nValue =? 3983406748175)) ||
   ((txheight =? 155013) && (nValue =? 3983414006565)) ||
   ((txheight =? 155492) && (nValue =? 3983427592291)) ||
   ((txheight =? 155613) && (nValue =? 9997409999999797)) ||
   ((txheight =? 157927) && (nValue =? 9997410667451072)) ||
   ((txheight =? 155613) && (nValue =? 2590000000000)) ||
   ((txheight =? 155949) && (nValue =? 4000000000000))).

(** More than 25000 coins.  The comparisons with the new formula only write to the log. *)
Definition interest_large (txheight nValue nLockTime tiptime minutes denominator : Z) : Z :=
  if negb (is_exception txheight nValue) then
    let numerator := nValue / 20 in
    if txheight <? 250000 then numerator / denominator
    else if txheight <? 1000000 then u64 (numerator * minutes) / (365 * 24 * 60)
    else _komodo_interestnew txheight nValue nLockTime tiptime
  else if txheight <? 1000000 then
    let numerator := u64 (nValue * KOMODO_INTEREST) in
    numerator / denominator / COIN
  else _komodo_interestnew txheight nValue nLockTime tiptime.

Definition activation : Z := 1491350400.

Definition interest_small (txheight nValue nLockTime tiptime minutes denominator : Z) : Z :=
  let numerator := u64 (nValue * KOMODO_INTEREST) in
  if (txheight <? 250000) || (tiptime <? activation) then
    (if (txheight <? 250000) || (u64 (numerator * minutes) <? 365 * 24 * 60) then numerator / denominator / COIN
     else u64 (numerator * minutes) / (365 * 24 * 60) / COIN)
  else if txheight <? 1000000 then
    let numerator := nValue / 20 in
    u64 (numerator * minutes) / (365 * 24 * 60)
  else _komodo_interestnew txheight nValue nLockTime tiptime.

Section Interest.
Context (isKMD : bool).

Definition komodo_interest (txheight nValue nLockTime tiptime : Z) : Z :=
  if negb isKMD then 0
  else if txheight >=? KOMODO_ENDOFERA then 0
  else if (nLockTime >=? LOCKTIME_THRESHOLD) && negb (tiptime =? 0) && (nLockTime <? tiptime) &&
          (nValue >=? 10 * COIN) then
    let minutes := u32 (tiptime - nLockTime) / 60 in
    if minutes >=? 60 then
      let minutes := if minutes >? 365 * 24 * 60 then 365 * 24 * 60 else minutes in
      let minutes := if txheight >=? 250000 then minutes - 59 else minutes in
      let denominator := 365 * 24 * 60 / minutes in
      let denominator := if denominator =? 0 then 1 else denominator in
      if nValue >? 25000 * COIN then interest_large txheight nValue nLockTime tiptime minutes denominator
      else interest_small txheight nValue nLockTime tiptime minutes denominator
    else 0
  else 0.

(** [cmptime] is a [uint32_t], and so is its difference with an [int]. *)
Definition komodo_validate_interest (KOMODO_REWIND : Z) (t : tx) (txheight cmptime : Z) : bool :=
  if (KOMODO_REWIND =? 0) && isKMD && (nLockTime t >=? LOCKTIME_THRESHOLD) then
    (if txheight >? 246748 then
       let cmptime := if txheight <? 247205 then u32 (cmptime - 16000) else cmptime in
       if nLockTime t <? u32 (cmptime - KOMODO_MAXMEMPOOLTIME) then false else true
     else true)
  else true.

(** ** The interest of an output of the chain *)

(** What is read of a block index. *)
Record block_time := { bt_nHeight : Z; bt_nTime : Z }.

(** The transaction database with the block index of a hash, and the tip of the chain. *)
Context (GetTransaction : list Z -> option (tx * list Z)).
Context (komodo_getblockindex : list Z -> option block_time) (Tip : option block_time).

(** The values written through the pointers. *)
Record interest_args := { txheighttime : Z; txheight_ : Z; tiptime_ : Z; value_ : Z; locktime_ : Z }.
Definition no_args : interest_args :=
  {| txheighttime := 0; txheight_ := 0; tiptime_ := 0; value_ := 0; locktime_ := 0 |}.

(** [n < tx.vout.size()] compares as unsigned: a negative [n] is out of range. *)
Definition komodo_interest_args (hash : list Z) (n : Z) : interest_args :=
  match GetTransaction hash with
  | None => no_args
  | Some (t, hashBlock) =>
      if (0 <=? n) && (n <? size (vout t)) then
        match komodo_getblockindex hashBlock, vout t !! Z.to_nat n with
        | Some pindex, Some out => {|
            txheighttime := bt_nTime pindex; txheight_ := bt_nHeight pindex;
            tiptime_ := match Tip with Some tip => bt_nTime tip | None => 0 end;
            value_ := u64 (nValue out); locktime_ := nLockTime t |}
        | _, _ => no_args
        end
      else no_args
  end.

(** [chainActive[tipheight]] gives an initial value of [tiptime] that is then overwritten. *)
Definition komodo_accrued_interest (hash : list Z) (n checkheight checkvalue tipheight : Z) : Z :=
  let a := komodo_interest_args hash n in
  if negb (locktime_ a =? 0) then
    (if ((checkvalue =? 0) || (value_ a =? checkvalue)) && ((checkheight =? 0) || (txheight_ a =? checkheight))
     then komodo_interest (txheight_ a) (value_ a) (locktime_ a) (tiptime_ a)
     else 0)
  else 0.
End Interest.

Example interest_of_100_after_a_day :
  komodo_interest true 2000000 (100 * COIN) 1600000000 1600086400 = 1313331 /\
  komodo_interest true 3500000 (100 * COIN) 1600000000 1600086400 = 2626 /\
  komodo_interest true 4800000 (100 * COIN) 1600000000 1600086400 = 1313331 /\
  komodo_interest true 8000000 (100 * COIN) 1600000000 1600086400 = 0.
Proof. vm_compute. done. Qed.

(** ** Bounds *)

Ltac case_if :=
  match goal with
  | |- context [if ?c then _ else _] => let E := fresh "E" in destruct c eqn:E
  end.

(** The year is the unit of the new formula up to rounding: 10512000 = 20 * 525600. *)
Lemma div_mul_le v m q : 0 <= v -> 0 <= m <= q -> 0 < q -> 20 * (v / (20 * q) * m) <= v.
Proof.
  intros Hv Hm Hq. pose proof (Z.mul_div_le v (20 * q) ltac:(lia)).
  assert (0 <= v / (20 * q)) by (apply Z.div_pos; lia). nia.
Qed.

(** What the new formula gives when it gives anything, without wrapping. *)
Definition interest_minutes (txheight elapsed : Z) : Z :=
  Z.min elapsed (if txheight >=? 1000000 then 44640 else 525600) - 59.

Lemma interestnew_exact h v l t : 0 <= v < 2 ^ 64 -> 0 <= l < 2 ^ 32 -> 0 <= t < 2 ^ 32 ->
  _komodo_interestnew h v l t =
  if (LOCKTIME_THRESHOLD <=? l) && (l + 3600 <=? t) then
    v / 10512000 * interest_minutes h ((t - l) / 60) /
    (if (nS7HardforkHeight <=? h) && (h <? KMD_DORMANCY_ACTIVATION_HEIGHT) then 500 else 1)
  else 0.
Proof.
  intros Hv Hl Ht. unfold _komodo_interestnew, interest_minutes. cbv zeta. rewrite !Z.geb_leb, !Z.gtb_ltb.
  destruct (Z.leb_spec LOCKTIME_THRESHOLD l); [|done]. cbn [andb].
  destruct (Z.ltb_spec l t); cbn [andb]; [|destruct (Z.leb_spec (l + 3600) t); [lia|done]].
  rewrite (uwrap_small 32 (t - l)) by lia. change (KOMODO_MAXMEMPOOLTIME / 60) with 60.
  pose proof (Z.div_mod (t - l) 60 ltac:(lia)) as Hdm. pose proof (Z.mod_pos_bound (t - l) 60 ltac:(lia)).
  set (e := (t - l) / 60) in *.
  destruct (Z.leb_spec 60 e), (Z.leb_spec (l + 3600) t); try lia. cbn [andb].
  set (m := Z.min e (if 1000000 <=? h then 44640 else 525600)).
  assert ((if (1000000 <=? h) && (31 * 24 * 60 <? (if 365 * 24 * 60 <? e then 365 * 24 * 60 else e)) then 31 * 24 * 60
           else if 365 * 24 * 60 <? e then 365 * 24 * 60 else e) = m) as ->.
  { unfold m. destruct (1000000 <=? h); cbn [andb]; destruct (Z.ltb_spec (365 * 24 * 60) e);
      try (destruct (Z.ltb_spec (31 * 24 * 60) (365 * 24 * 60))); try (destruct (Z.ltb_spec (31 * 24 * 60) e)); lia. }
  assert (0 <= m - (60 - 1) <= 525541) as Hm by (unfold m; destruct (1000000 <=? h); lia).
  change (m - (60 - 1)) with (m - 59) in *.
  assert (0 <= v / 10512000 < 2 ^ 41) by (split; [apply Z.div_pos; lia|apply Z.div_lt_upper_bound; lia]).
  rewrite (uwrap_small 64) by nia. destruct (_ && _); [done|]. by rewrite Z.div_1_r.
Qed.

Lemma interestnew_le h v l t : 0 <= v < 2 ^ 64 -> 0 <= l < 2 ^ 32 -> 0 <= t < 2 ^ 32 ->
  0 <= 20 * _komodo_interestnew h v l t <= v.
Proof.
  intros Hv Hl Ht. rewrite interestnew_exact by done. destruct (_ && _) eqn:E; [|lia]. propify.
  assert (0 <= interest_minutes h ((t - l) / 60) <= 525600) as Hm.
  { unfold interest_minutes. assert (60 <= (t - l) / 60) by (apply Z.div_le_lower_bound; lia).
    destruct (_ >=? _); lia. }
  pose proof (div_mul_le v _ 525600 ltac:(lia) Hm ltac:(lia)) as Hle. change (20 * 525600) with 10512000 in Hle.
  set (r := v / 10512000 * _) in *.
  assert (0 <= r) by (apply Z.mul_nonneg_nonneg; [apply Z.div_pos; lia|lia]).
  destruct (_ && _).
  - assert (r / 500 <= r) by (apply Z.div_le_upper_bound; lia). assert (0 <= r / 500) by (apply Z.div_pos; lia). lia.
  - rewrite Z.div_1_r. lia.
Qed.

Lemma uwrap_le w x : 0 < w -> 0 <= x -> 0 <= uwrap w x <= x.
Proof.
  intros Hw Hx. unfold uwrap. assert (0 < 2 ^ w) by (apply Z.pow_pos_nonneg; lia).
  split; [by apply Z.mod_pos_bound|by apply Z.mod_le].
Qed.

Lemma div_le_self x d : 0 <= x -> 1 <= d -> 0 <= x / d <= x.
Proof. intros Hx Hd. split; [apply Z.div_pos; lia|]. apply Z.div_le_upper_bound; nia. Qed.

(** A twentieth, in the two ways it is computed. *)
Lemma twentieth_le n v d : 0 <= v -> 0 <= n <= v / 20 -> 1 <= d -> 0 <= 20 * (n / d) <= v.
Proof.
  intros Hv Hn Hd. pose proof (div_le_self n d ltac:(lia) Hd). pose proof (Z.mul_div_le v 20 ltac:(lia)). lia.
Qed.

Lemma coin_twentieth n v : 0 <= v -> 0 <= n <= v * KOMODO_INTEREST -> 0 <= 20 * (n / COIN) <= v.
Proof.
  unfold KOMODO_INTEREST, COIN. intros Hv Hn. assert (0 <= n / 100000000) by (apply Z.div_pos; lia).
  pose proof (Z.mul_div_le n 100000000 ltac:(lia)). lia.
Qed.

Lemma year_le n m : 0 <= n -> 0 <= m <= 365 * 24 * 60 -> 0 <= u64 (n * m) / (365 * 24 * 60) <= n.
Proof.
  intros Hn Hm. pose proof (uwrap_le 64 (n * m) ltac:(lia) ltac:(nia)).
  split; [apply Z.div_pos; lia|]. apply Z.div_le_upper_bound; nia.
Qed.

Section Bounds.
Context (h v l t m d : Z).
Hypothesis (Hv : 0 <= v < 2 ^ 64) (Hl : 0 <= l < 2 ^ 32) (Ht : 0 <= t < 2 ^ 32).
Hypothesis (Hm : 0 <= m <= 365 * 24 * 60) (Hd : 1 <= d).

Lemma numerator_le : 0 <= u64 (v * KOMODO_INTEREST) <= v * KOMODO_INTEREST.
Proof. apply uwrap_le; [lia|]. unfold KOMODO_INTEREST. lia. Qed.

Lemma numerator_year_le : 0 <= u64 (u64 (v * KOMODO_INTEREST) * m) / (365 * 24 * 60) <= v * KOMODO_INTEREST.
Proof. pose proof numerator_le. pose proof (year_le (u64 (v * KOMODO_INTEREST)) m ltac:(lia) Hm). lia. Qed.

Lemma numerator_div_le : 0 <= u64 (v * KOMODO_INTEREST) / d <= v * KOMODO_INTEREST.
Proof. pose proof numerator_le. pose proof (div_le_self (u64 (v * KOMODO_INTEREST)) d ltac:(lia) Hd). lia. Qed.

Lemma interest_large_le : 0 <= 20 * interest_large h v l t m d <= v.
Proof.
  assert (0 <= v / 20) by (apply Z.div_pos; lia).
  unfold interest_large. destruct (negb _).
  - destruct (h <? 250000); [apply twentieth_le; lia|]. destruct (h <? 1000000); [|by apply interestnew_le].
    pose proof (year_le (v / 20) m ltac:(lia) Hm). pose proof (Z.mul_div_le v 20 ltac:(lia)). lia.
  - destruct (h <? 1000000); [|by apply interestnew_le]. apply coin_twentieth; [lia|apply numerator_div_le].
Qed.

Lemma interest_small_le : 0 <= 20 * interest_small h v l t m d <= v.
Proof.
  assert (0 <= v / 20) by (apply Z.div_pos; lia).
  unfold interest_small. destruct (_ || (t <? activation)).
  - destruct (_ || _); apply coin_twentieth; [lia|apply numerator_div_le|lia|apply numerator_year_le].
  - destruct (h <? 1000000); [|by apply interestnew_le].
    pose proof (year_le (v / 20) m ltac:(lia) Hm). pose proof (Z.mul_div_le v 20 ltac:(lia)). lia.
Qed.
End Bounds.

(** The number of minutes and the divisor are in range wherever they are used. *)
Lemma minutes_range (h e : Z) : 60 <= e ->
  let m := if h >=? 250000 then (if e >? 365 * 24 * 60 then 365 * 24 * 60 else e) - 59
           else if e >? 365 * 24 * 60 then 365 * 24 * 60 else e in
  1 <= m <= 365 * 24 * 60 /\ 1 <= (if 365 * 24 * 60 / m =? 0 then 1 else 365 * 24 * 60 / m).
Proof.
  intros He m. assert (1 <= m <= 365 * 24 * 60) as Hm.
  { unfold m. rewrite Z.gtb_ltb. destruct (Z.ltb_spec (365 * 24 * 60) e); destruct (_ >=? _); lia. }
  split; [done|]. assert (0 <= 365 * 24 * 60 / m) by (apply Z.div_pos; lia).
  destruct (Z.eqb_spec (365 * 24 * 60 / m) 0); lia.
Qed.

(** * Properties *)

(** [C19] No interest is ever more than 5 percent of the value, at any height, for any value and times:
    neither the exceptions nor the places where an unsigned product wraps pay more. *)
Theorem interest_at_most_5_percent isKMD h v l t : 0 <= v < 2 ^ 64 -> 0 <= l < 2 ^ 32 -> 0 <= t < 2 ^ 32 ->
  0 <= 20 * komodo_interest isKMD h v l t <= v.
Proof.
  intros Hv Hl Ht. unfold komodo_interest. destruct (negb isKMD); [lia|]. destruct (_ >=? _); [lia|].
  destruct (_ && _); [|lia]. cbv zeta. destruct (_ >=? 60) eqn:E; [|lia]. rewrite Z.geb_leb in E. apply Z.leb_le in E.
  destruct (minutes_range h _ E) as [Hm Hd].
  destruct (_ >? 25000 * COIN); [apply interest_large_le|apply interest_small_le]; lia.
Qed.

Lemma interest_at_most_5_percent_witness :
  0 <= 20 * komodo_interest true 155613 9997409999999797 1480000000 1490000000 <= 9997409999999797.
Proof. apply interest_at_most_5_percent; lia. Defined.

(** From height 1000000 on (and after the activation time, which is earlier) the interest is linear in time: one 10512000th of the value (rounded
    down first) for each minute since the lock time beyond the 59th, at least one hour and at
    most 31 days of them, divided by 500 between the season 7 fork and the dormancy height; an
    output of less than 10 coins, locked by height, created from the end of the era on or on
    another chain has none. *)
Theorem interest_formula isKMD h v l t : 0 <= v < 2 ^ 64 -> 0 <= l < 2 ^ 32 -> activation <= t < 2 ^ 32 -> 1000000 <= h ->
  komodo_interest isKMD h v l t =
  if isKMD && (h <? KOMODO_ENDOFERA) && (LOCKTIME_THRESHOLD <=? l) && (l + 3600 <=? t) && (10 * COIN <=? v) then
    v / 10512000 * (Z.min ((t - l) / 60) 44640 - 59) /
    (if (nS7HardforkHeight <=? h) && (h <? KMD_DORMANCY_ACTIVATION_HEIGHT) then 500 else 1)
  else 0.
Proof.
  intros Hv Hl Ht Hh. unfold activation in Ht. unfold komodo_interest. destruct isKMD; cbn [negb andb]; [|done].
  rewrite !Z.geb_leb. destruct (Z.leb_spec KOMODO_ENDOFERA h), (Z.ltb_spec h KOMODO_ENDOFERA); try lia; [done|].
  cbn [andb]. destruct (Z.leb_spec LOCKTIME_THRESHOLD l) as [Hlt|]; [|done]. unfold LOCKTIME_THRESHOLD in Hlt.
  destruct (Z.ltb_spec l t); [|rewrite andb_false_r; destruct (Z.leb_spec (l + 3600) t); [lia|done]].
  destruct (Z.eqb_spec t 0); [lia|]. destruct (Z.leb_spec (10 * COIN) v); [|by rewrite !andb_false_r].
  cbn [negb andb]. rewrite andb_true_r. rewrite uwrap_small by lia. cbv zeta.
  pose proof (interestnew_exact h v l t Hv Hl ltac:(lia)) as Hnew.
  assert ((LOCKTIME_THRESHOLD <=? l) = true) as Elt by (apply Z.leb_le; unfold LOCKTIME_THRESHOLD; lia).
  rewrite Elt in Hnew. cbn [andb] in Hnew. unfold interest_minutes in Hnew. rewrite Z.geb_leb in Hnew.
  destruct (Z.leb_spec 1000000 h); [|lia].
  pose proof (Z.div_mod (t - l) 60 ltac:(lia)). pose proof (Z.mod_pos_bound (t - l) 60 ltac:(lia)).
  destruct (Z.leb_spec 60 ((t - l) / 60)), (Z.leb_spec (l + 3600) t); try lia.
  rewrite <- Hnew. unfold interest_large, interest_small.
  assert (is_exception h v = false) as -> by (unfold is_exception; destruct (Z.leb_spec h 155949); [lia|done]).
  destruct (Z.ltb_spec h 250000); [lia|]. destruct (Z.ltb_spec h 1000000); [lia|]. cbn [negb orb].
  destruct (_ >? 25000 * COIN); [done|]. destruct (Z.ltb_spec t activation) as [Hact|]; [unfold activation in Hact; lia|done].
Qed.

Lemma interest_formula_witness : komodo_interest true 2000000 (100 * COIN) 1600000000 1700000000 =
  100 * COIN / 10512000 * (44640 - 59) / 1.
Proof. rewrite (interest_formula true 2000000 (100 * COIN) 1600000000 1700000000); [reflexivity|..]; unfold COIN, activation; lia. Defined.

(** A lock time that block validation accepts is at most an hour before the time of the block, so
    a transaction cannot be dated back for interest: at every later time the interest of an
    output is at most one minute more than for the time since its block. *)
Theorem interest_accrues_from_block h t v blocktime tiptime : 1000000 <= h ->
  0 <= v < 2 ^ 64 -> 0 <= nLockTime t < 2 ^ 32 -> KOMODO_MAXMEMPOOLTIME <= blocktime <= tiptime ->
  activation <= tiptime < 2 ^ 32 ->
  komodo_validate_interest true 0 t h blocktime = true ->
  komodo_interest true h v (nLockTime t) tiptime <= v / 10512000 * ((tiptime - blocktime) / 60 + 1).
Proof.
  intros Hh Hv Hl Hb Ht Hval. assert (0 <= v / 10512000) by (apply Z.div_pos; lia).
  assert (0 <= (tiptime - blocktime) / 60) by (apply Z.div_pos; lia).
  unfold KOMODO_MAXMEMPOOLTIME in Hb.
  assert (LOCKTIME_THRESHOLD <= nLockTime t -> blocktime - 3600 <= nLockTime t) as Hdate.
  { intros Hlt. unfold komodo_validate_interest, KOMODO_MAXMEMPOOLTIME in Hval. rewrite !Z.geb_leb, Z.gtb_ltb in Hval.
    destruct (Z.leb_spec LOCKTIME_THRESHOLD (nLockTime t)); [|lia]. cbn [andb Z.eqb] in Hval.
    destruct (Z.ltb_spec 246748 h); [|lia]. destruct (Z.ltb_spec h 247205); [lia|].
    rewrite uwrap_small in Hval by lia. by destruct (Z.ltb_spec (nLockTime t) (blocktime - 3600)). }
  rewrite interest_formula by (done || lia). cbn [andb].
  destruct (h <? KOMODO_ENDOFERA); cbn [andb]; [|apply Z.mul_nonneg_nonneg; lia].
  destruct (Z.leb_spec LOCKTIME_THRESHOLD (nLockTime t)) as [Hlt|]; cbn [andb]; [|apply Z.mul_nonneg_nonneg; lia].
  destruct (Z.leb_spec (nLockTime t + 3600) tiptime); cbn [andb]; [|apply Z.mul_nonneg_nonneg; lia].
  destruct (10 * COIN <=? v); [|apply Z.mul_nonneg_nonneg; lia].
  specialize (Hdate Hlt).
  assert ((tiptime - nLockTime t) / 60 <= (tiptime - blocktime) / 60 + 60).
  { rewrite <- Z.div_add by lia. apply Z.div_le_mono; lia. }
  assert (60 <= (tiptime - nLockTime t) / 60) by (apply Z.div_le_lower_bound; lia).
  set (m := Z.min _ _ - 59). assert (0 <= m <= (tiptime - blocktime) / 60 + 1) as Hm by (unfold m; lia).
  transitivity (v / 10512000 * m); [|apply Z.mul_le_mono_nonneg_l; lia].
  destruct (_ && _); [|by rewrite Z.div_1_r]. apply div_le_self; [|lia]. apply Z.mul_nonneg_nonneg; lia.
Qed.

Definition dated_tx (lock : Z) : tx := {|
  fOverwintered := false; nVersion := 1; nVersionGroupId := 0; vin := [];
  vout := [{| nValue := 100 * COIN; scriptPubKey := [] |}]; nLockTime := lock; nExpiryHeight := 0;
  valueBalance := 0; vShieldedSpend := []; vShieldedOutput := []; vjoinsplit := [];
  joinSplitPubKey := replicate 32 0; joinSplitSig := replicate 64 0; bindingSig := replicate 64 0 |}.

Lemma interest_accrues_from_block_witness :
  komodo_interest true 2000000 (100 * COIN) 1600000000 1600090000 <=
    100 * COIN / 10512000 * ((1600090000 - 1600003000) / 60 + 1).
Proof.
  apply (interest_accrues_from_block 2000000 (dated_tx 1600000000) (100 * COIN) 1600003000 1600090000);
    unfold COIN, KOMODO_MAXMEMPOOLTIME, activation; cbn [dated_tx nLockTime]; try lia.
  vm_compute. reflexivity.
Defined.

(** Before the activation time the product of the small formula wraps: a month of interest on 1000
    coins comes out as a fraction of a coin of what the exact product would give. *)
Example interest_wraps_before_activation :
  komodo_interest true 300000 (1000 * COIN) 1480000000 1482592000 = 119029 /\
  1000 * COIN * KOMODO_INTEREST * (43200 - 59) / (365 * 24 * 60) / COIN = 410397640.
Proof. vm_compute. done. Qed.
