(* ===== verification/Subsidy.v ===== *)
(** * Subsidy: block subsidies and commissions
    [GetBlockSubsidy] of [src/src/main.cpp], [komodo_ac_block_subsidy] of
    [src/src/komodo_utils.cpp] with its static cache, [is_STAKED] of
    [src/src/notaries_staked.cpp] and [komodo_commission] of [src/src/komodo_bitcoind.cpp].
    The globals that describe an asset chain are the record [chain_params]. *)
From Stdlib Require Import String Ascii.
From S2P Require Import Prelude Endian Uint256 Hash Opcode Script Serialize Amount Transaction Interest.

Definition nS8HardforkHeight : Z := 4125988.
Definition SATOSHIDEN : Z := 100000000.
Definition ASSETCHAINS_MAX_ERAS : Z := 7.

(** [komodo_globals.h]; the arrays are functions of the era. *)
Record chain_params := {
  symbol : string;
  ASSETCHAINS_ENDSUBSIDY : Z -> Z; ASSETCHAINS_REWARD : Z -> Z; ASSETCHAINS_HALVING : Z -> Z;
  ASSETCHAINS_DECAY : Z -> Z; ASSETCHAINS_LASTERA : Z; ASSETCHAINS_STAKED : Z; ASSETCHAINS_MAGIC : Z;
  ASSETCHAINS_SUPPLY : Z; ASSETCHAINS_COMMISSION : Z; ASSETCHAINS_FOUNDERS : Z;
  ASSETCHAINS_FOUNDERS_REWARD : Z
}.

(** [assetchain::isKMD] *)
Definition chain_isKMD (c : chain_params) : bool := String.eqb (symbol c) "".

(** [symbol.find(prefix) == 0] is [String.prefix]. *)
Definition is_STAKED (s : string) : Z :=
  if String.eqb s "LABS" then 1
  else if String.prefix "LABS" s then 2
  else if String.eqb s "CFEK" || String.prefix "CFEK" s then 3
  else if String.eqb s "TEST" || String.prefix "TEST" s then 4
  else if String.eqb s "THIS_CHAIN_IS_BANNED" then 255
  else 0.

(** The static variables of [komodo_ac_block_subsidy]. *)
Record subsidy_cache := { cached_subsidy : Z; cached_numhalvings : Z; cached_era : Z }.
Definition empty_cache : subsidy_cache := {| cached_subsidy := 0; cached_numhalvings := 0; cached_era := 0 |}.

Section Subsidy.
Context (c : chain_params).

Abbreviation END_ := (ASSETCHAINS_ENDSUBSIDY c).
Abbreviation REWARD := (ASSETCHAINS_REWARD c).
Abbreviation HALVING := (ASSETCHAINS_HALVING c).
Abbreviation DECAY := (ASSETCHAINS_DECAY c).
Abbreviation LASTERA := (ASSETCHAINS_LASTERA c).

(** [for ( curEra = 0; curEra <= LASTERA; curEra++ ) if (..) break;] with [LASTERA + 1] as fuel. *)
Fixpoint find_era (fuel : nat) (curEra nHeight : Z) : Z :=
  match fuel with
  | O => curEra
  | S f =>
      if curEra <=? LASTERA then
        (if (END_ curEra >? u64 nHeight) || (END_ curEra =? 0) then curEra else find_era f (curEra + 1) nHeight)
      else curEra
  end.

(** [for (int i=0; i < numhalvings && subsidy != 0; i++) subsidy = (subsidy * DECAY) / 100000000;] *)
Fixpoint decay_loop (n : nat) (decay subsidy : Z) : Z :=
  match n with
  | O => subsidy
  | S n' => if negb (subsidy =? 0) then decay_loop n' decay (i64 (u64 (subsidy * decay) / 100000000)) else subsidy
  end.

(** The linear decay to zero or to the reward of the next era; the arithmetic is on [int64_t]. *)
Definition linear_decay (curEra nStart nHeight subsidy : Z) : Z :=
  let '(subsidyDifference, sign) :=
    if curEra =? LASTERA then (subsidy, 1)
    else
      let subsidyDifference := i64 (subsidy - REWARD (curEra + 1)) in
      if subsidyDifference <? 0 then (i64 (subsidyDifference * -1), -1) else (subsidyDifference, 1) in
  let denominator := i64 (END_ curEra - nStart) in
  let numerator := i64 (denominator - ((END_ curEra - nHeight) + u64 (nHeight - nStart) mod HALVING curEra)) in
  i64 (subsidy - sign * Z.quot (i64 (subsidyDifference * numerator)) denominator).

(** The reward of an era after [numhalvings] > 0 of its periods.  [None]: a shift by 64 or more,
    which is undefined. *)
Definition reduced_subsidy (cache : subsidy_cache) (curEra nStart nHeight numhalvings subsidy : Z) :
    option (Z * subsidy_cache) :=
  if DECAY curEra =? 0 then
    (if numhalvings <? 64 then Some (Z.shiftr subsidy numhalvings, cache) else None)
  else if (DECAY curEra =? 100000000) && negb (END_ curEra =? 0) then
    Some (linear_decay curEra nStart nHeight subsidy, cache)
  else if (cached_subsidy cache >? 0) && (cached_era cache =? curEra) && (cached_numhalvings cache =? numhalvings) then
    Some (i64 (cached_subsidy cache), cache)
  else
    let subsidy := decay_loop (Z.to_nat numhalvings) (DECAY curEra) subsidy in
    Some (subsidy, {| cached_subsidy := u64 subsidy; cached_numhalvings := numhalvings; cached_era := curEra |}).

(** The subsidy of the era of a height. *)
Definition era_subsidy (cache : subsidy_cache) (nHeight : Z) : option (Z * subsidy_cache) :=
  if (END_ 0 =? 0) && (REWARD 0 =? 0) then Some (10000, cache)
  else
    let curEra := if negb (END_ 0 =? 0) then find_era (S (Z.to_nat LASTERA)) 0 nHeight else 0 in
    if curEra <=? LASTERA then
      let nStart := if negb (curEra =? 0) then END_ (curEra - 1) else 0 in
      let subsidy := i64 (REWARD curEra) in
      if negb (subsidy =? 0) || (negb (curEra =? LASTERA) && negb (REWARD (curEra + 1) =? 0)) then
        (if negb (HALVING curEra =? 0) then
           let numhalvings := i32 (u64 (nHeight - nStart) / HALVING curEra) in
           if numhalvings >? 0 then reduced_subsidy cache curEra nStart nHeight numhalvings subsidy
           else Some (subsidy, cache)
         else Some (subsidy, cache))
      else Some (subsidy, cache)
    else Some (0, cache).

(** The premine, and the chains without a reward. *)
Definition with_supply (nHeight subsidy : Z) : Z :=
  let magicExtra := if negb (ASSETCHAINS_STAKED c =? 0) then ASSETCHAINS_MAGIC c
                    else Z.land (ASSETCHAINS_MAGIC c) 16777215 in
  if ASSETCHAINS_SUPPLY c >? 10000000000 then
    (if u64 nHeight <=? ASSETCHAINS_SUPPLY c / 1000000000 then
       let subsidy := i64 (u64 (subsidy + 1000000000 * COIN)) in
       if nHeight =? 1 then i64 (u64 (subsidy + ((ASSETCHAINS_SUPPLY c mod 1000000000) * COIN + magicExtra)))
       else subsidy
     else subsidy)
  else if nHeight =? 1 then
    (if LASTERA =? 0 then i64 (u64 (ASSETCHAINS_SUPPLY c * SATOSHIDEN + magicExtra))
     else i64 (u64 (subsidy + (ASSETCHAINS_SUPPLY c * SATOSHIDEN + magicExtra))))
  else if is_STAKED (symbol c) =? 2 then 0
  else subsidy.

(** [komodo_ac_block_subsidy] with the cache it leaves; the result is a [uint64_t]. *)
Definition komodo_ac_block_subsidy (cache : subsidy_cache) (nHeight : Z) : option (Z * subsidy_cache) :=
  match era_subsidy cache nHeight with
  | None => None
  | Some (subsidy, cache') => Some (u64 (with_supply nHeight subsidy), cache')
  end.

(** [CAmount GetBlockSubsidy(nHeight)] *)
Definition GetBlockSubsidy (cache : subsidy_cache) (nHeight : Z) : option (Z * subsidy_cache) :=
  if negb (nS8HardforkHeight <? KMD_DORMANCY_ACTIVATION_HEIGHT) then None
  else if chain_isKMD c then
    Some ((if nHeight =? 1 then 100000000 * COIN
           else if nHeight <? nS8HardforkHeight then 3 * COIN
           else if nHeight <? KMD_DORMANCY_ACTIVATION_HEIGHT then COIN
           else 3 * COIN), cache)
  else
    match komodo_ac_block_subsidy cache nHeight with
    | None => None
    | Some (s, cache') => Some (i64 s, cache')
    end.

(** ** The commission *)

(** The outputs of one transaction; [false] in the result is the [break] at the cap, which leaves
    the loop over the outputs only. *)
Fixpoint commission_outputs (height txn_count i j n total : Z) (outs : list CTxOut) : Z :=
  match outs with
  | [] => total
  | out :: outs' =>
      if (height >? 225000) && negb (ASSETCHAINS_STAKED c =? 0) && (txn_count >? 1) && (i =? txn_count - 1) && (j =? n - 1)
      then total
      else
        let total := if negb (i =? 0) || negb (j =? 1) then u64 (total + nValue out) else total in
        if total >? 1000000 * COIN then 1000000 * COIN
        else commission_outputs height txn_count i (j + 1) n total outs'
  end.

Fixpoint commission_txs (height txn_count i total : Z) (vtx : list tx) : Z :=
  match vtx with
  | [] => total
  | t :: vtx' =>
      commission_txs height txn_count (i + 1)
        (commission_outputs height txn_count i 0 (size (vout t)) total (vout t)) vtx'
  end.

(** [None] as the block is a null pointer. *)
Definition komodo_commission (cache : subsidy_cache) (pblock : option (list tx)) (height : Z) :
    option (Z * subsidy_cache) :=
  if is_STAKED (symbol c) =? 2 then Some (0, cache)
  else
    let r :=
      if negb (ASSETCHAINS_FOUNDERS c =? 0) then
        match GetBlockSubsidy cache height with
        | None => None
        | Some (nSubsidy, cache') =>
            let commission := u64 (nSubsidy * ASSETCHAINS_COMMISSION c) / COIN in
            Some ((if ASSETCHAINS_FOUNDERS c >? 1 then
                     (if Z.rem height (ASSETCHAINS_FOUNDERS c) =? 0 then
                        (if ASSETCHAINS_FOUNDERS_REWARD c =? 0 then u64 (commission * ASSETCHAINS_FOUNDERS c)
                         else ASSETCHAINS_FOUNDERS_REWARD c)
                      else 0)
                   else commission), cache')
        end
      else
        match pblock with
        | None => Some (0, cache)
        | Some vtx =>
            let total := commission_txs height (size vtx) 0 0 vtx in
            Some (u64 (total / 10000 * ASSETCHAINS_COMMISSION c) / 10000, cache)
        end in
    match r with
    | None => None
    | Some (commission, cache') => Some ((if commission <? 10000 then 0 else commission), cache')
    end.
End Subsidy.

(** ** The cache *)

Section Cache.
Context (c : chain_params).

Definition cache_ok (cache : subsidy_cache) : Prop :=
  cached_subsidy cache > 0 ->
  cached_subsidy cache =
    u64 (decay_loop (Z.to_nat (cached_numhalvings cache)) (ASSETCHAINS_DECAY c (cached_era cache))
           (i64 (ASSETCHAINS_REWARD c (cached_era cache)))).

Lemma i64_range x : sint_wf 64 (i64 x).
Proof. unfold sint_wf, swrap. pose proof (Z.mod_pos_bound (x + 2 ^ (64 - 1)) (2 ^ 64) ltac:(lia)). lia. Qed.

Lemma i64_u64 x : sint_wf 64 x -> i64 (u64 x) = x.
Proof. intros Hx. by apply swrap_uwrap. Qed.

Lemma decay_loop_range n d : forall s, sint_wf 64 s -> sint_wf 64 (decay_loop n d s).
Proof.
  induction n as [|n IH]; intros s Hs; [done|]. cbn [decay_loop]. destruct (negb _); [|done]. apply IH, i64_range.
Qed.

(** The value does not depend on the cache, and the cache stays right. *)
Lemma reduced_subsidy_cache cache era nStart h n : cache_ok cache ->
  match reduced_subsidy c cache era nStart h n (i64 (ASSETCHAINS_REWARD c era)),
        reduced_subsidy c empty_cache era nStart h n (i64 (ASSETCHAINS_REWARD c era)) with
  | Some (s, cache'), Some (s0, _) => s = s0 /\ cache_ok cache'
  | None, None => True
  | _, _ => False
  end.
Proof.
  intros Hok. unfold reduced_subsidy. destruct (_ =? 0); [by destruct (_ <? 64)|]. destruct (_ && _); [done|].
  change ((cached_subsidy empty_cache >? 0) && _) with false.
  pose proof (decay_loop_range (Z.to_nat n) (ASSETCHAINS_DECAY c era) _ (i64_range (ASSETCHAINS_REWARD c era))) as Hr.
  destruct (_ && _) eqn:Ec; cbn [andb].
  - apply andb_true_iff in Ec as [Ec Hn]. apply andb_true_iff in Ec as [Hp He]. apply Z.eqb_eq in Hn, He.
    rewrite Z.gtb_ltb in Hp. apply Z.ltb_lt in Hp. split; [|done]. rewrite (Hok ltac:(lia)), Hn, He. by rewrite i64_u64.
  - split; [done|]. intros _. cbn. done.
Qed.

Lemma era_subsidy_cache cache h : cache_ok cache ->
  match era_subsidy c cache h, era_subsidy c empty_cache h with
  | Some (s, cache'), Some (s0, _) => s = s0 /\ cache_ok cache'
  | None, None => True
  | _, _ => False
  end.
Proof.
  intros Hok. unfold era_subsidy. destruct (_ && _); [done|]. cbv zeta. destruct (_ <=? _); [|done].
  destruct (negb _ || _); [|done]. destruct (negb _); [|done]. destruct (_ >? 0); [|done].
  by apply reduced_subsidy_cache.
Qed.

(** A sequence of calls, each with the static variables the previous one left. *)
Fixpoint subsidies (cache : subsidy_cache) (heights : list Z) : list (option Z) :=
  match heights with
  | [] => []
  | h :: rest =>
      match komodo_ac_block_subsidy c cache h with
      | Some (s, cache') => Some s :: subsidies cache' rest
      | None => None :: subsidies cache rest
      end
  end.

Lemma subsidies_pure heights : forall cache, cache_ok cache ->
  subsidies cache heights = map (fun h => fst <$> komodo_ac_block_subsidy c empty_cache h) heights.
Proof.
  induction heights as [|h hs IH]; intros cache Hok; [done|]. cbn [subsidies map].
  pose proof (era_subsidy_cache cache h Hok) as He. unfold komodo_ac_block_subsidy.
  destruct (era_subsidy c cache h) as [[s cache']|], (era_subsidy c empty_cache h) as [[s0 ?]|]; try done.
  - destruct He as [-> Hok']. cbn. by rewrite IH.
  - cbn. by rewrite IH.
Qed.
End Cache.

(** ** Properties *)

(** The static variables of [komodo_ac_block_subsidy] never change a result: whatever heights it is
    asked for, in whatever order, each answer is that of a first call. *)
Theorem subsidy_cache_transparent c heights :
  subsidies c empty_cache heights = map (fun h => fst <$> komodo_ac_block_subsidy c empty_cache h) heights.
Proof. apply subsidies_pure. intros H. cbn in H. lia. Qed.

(** A chain with one era that halves: the subsidy is the reward shifted once for every period
    that has passed, and undefined (a shift by 64 or more) from the 64th on. *)
Theorem halving_schedule c cache h :
  ASSETCHAINS_ENDSUBSIDY c 0 = 0 -> 0 < ASSETCHAINS_REWARD c 0 < 2 ^ 63 -> 0 <= ASSETCHAINS_LASTERA c ->
  0 < ASSETCHAINS_HALVING c 0 -> ASSETCHAINS_DECAY c 0 = 0 -> ASSETCHAINS_SUPPLY c <= 10000000000 ->
  is_STAKED (symbol c) <> 2 -> 1 < h < 2 ^ 31 ->
  komodo_ac_block_subsidy c cache h =
  if h / ASSETCHAINS_HALVING c 0 <? 64
  then Some (ASSETCHAINS_REWARD c 0 / 2 ^ (h / ASSETCHAINS_HALVING c 0), cache) else None.
Proof.
  intros He Hr Hl Hh Hd Hs Hst Hht.
  assert (0 <= h / ASSETCHAINS_HALVING c 0 <= h) as Hq by (split; [apply Z.div_pos; lia|apply Z.div_le_upper_bound; nia]).
  assert (forall s, 0 <= s < 2 ^ 63 -> u64 (with_supply c h s) = s) as Hw.
  { intros s Hs0. unfold with_supply. rewrite Z.gtb_ltb. destruct (Z.ltb_spec 10000000000 (ASSETCHAINS_SUPPLY c)); [lia|].
    destruct (Z.eqb_spec h 1); [lia|]. destruct (Z.eqb_spec (is_STAKED (symbol c)) 2); [done|]. apply uwrap_small. lia. }
  unfold komodo_ac_block_subsidy, era_subsidy. rewrite He. destruct (Z.eqb_spec (ASSETCHAINS_REWARD c 0) 0); [lia|].
  cbn [andb negb Z.eqb]. destruct (Z.leb_spec 0 (ASSETCHAINS_LASTERA c)); [|lia]. cbv zeta. rewrite swrap_small by lia.
  destruct (Z.eqb_spec (ASSETCHAINS_REWARD c 0) 0); [lia|]. cbn [negb orb].
  destruct (Z.eqb_spec (ASSETCHAINS_HALVING c 0) 0); [lia|]. cbn [negb]. rewrite Z.sub_0_r.
  rewrite (uwrap_small 64 h) by lia. rewrite (swrap_small 32) by lia. rewrite Z.gtb_ltb.
  destruct (Z.ltb_spec 0 (h / ASSETCHAINS_HALVING c 0)) as [Hpos|Hz].
  - unfold reduced_subsidy. rewrite Hd. cbn [Z.eqb]. destruct (_ <? 64); [|done]. do 2 f_equal.
    rewrite Z.shiftr_div_pow2 by lia. apply Hw. split; [apply Z.div_pos; lia|].
    assert (0 < 2 ^ (h / ASSETCHAINS_HALVING c 0)) by (apply Z.pow_pos_nonneg; lia). apply Z.div_lt_upper_bound; nia.
  - replace (h / ASSETCHAINS_HALVING c 0) with 0 by lia. cbn [Z.ltb Z.compare]. rewrite Z.pow_0_r, Z.div_1_r.
    by rewrite Hw by lia.
Qed.

(** A chain with a reward of 3 coins that halves every 1000 blocks. *)
Definition subsidy_params_example : chain_params := {|
  symbol := "DEX"; ASSETCHAINS_ENDSUBSIDY := fun _ => 0; ASSETCHAINS_REWARD := fun _ => 300000000;
  ASSETCHAINS_HALVING := fun _ => 1000; ASSETCHAINS_DECAY := fun _ => 0; ASSETCHAINS_LASTERA := 0;
  ASSETCHAINS_STAKED := 0; ASSETCHAINS_MAGIC := 5; ASSETCHAINS_SUPPLY := 1000; ASSETCHAINS_COMMISSION := 5000000;
  ASSETCHAINS_FOUNDERS := 0; ASSETCHAINS_FOUNDERS_REWARD := 0 |}.

Lemma halving_schedule_witness :
  komodo_ac_block_subsidy subsidy_params_example empty_cache 2500 = Some (300000000 / 2 ^ 2, empty_cache) /\
  komodo_ac_block_subsidy subsidy_params_example empty_cache 64000 = None.
Proof.
  split.
  - rewrite (halving_schedule subsidy_params_example empty_cache 2500); try reflexivity; cbn; lia.
  - rewrite (halving_schedule subsidy_params_example empty_cache 64000); try reflexivity; cbn; lia.
Defined.

(** *** The commission *)

(** The outputs that count: all but the second output of the coinbase. *)
Fixpoint counted (i j : Z) (outs : list CTxOut) : Z :=
  match outs with
  | [] => 0
  | out :: outs' => (if negb (i =? 0) || negb (j =? 1) then nValue out else 0) + counted i (j + 1) outs'
  end.
Fixpoint counted_txs (i : Z) (vtx : list tx) : Z :=
  match vtx with
  | [] => 0
  | t :: vtx' => counted i 0 (vout t) + counted_txs (i + 1) vtx'
  end.

Definition value_ok (o : CTxOut) : Prop := 0 <= nValue o < 2 ^ 62.
Definition commission_cap : Z := 1000000 * COIN.

Lemma counted_nonneg i outs : forall j, Forall value_ok outs -> 0 <= counted i j outs.
Proof.
  induction outs as [|o outs IH]; intros j H; cbn [counted]; [lia|].
  apply list.Forall_cons in H as [Ho H]. specialize (IH (j + 1) H). unfold value_ok in Ho. destruct (_ || _); lia.
Qed.

Section Commission.
Context (c : chain_params) (height txn_count : Z).
Hypothesis no_stake_output : height <= 225000 \/ ASSETCHAINS_STAKED c = 0.

Lemma commission_outputs_min i n outs : forall j total, Forall value_ok outs -> 0 <= total <= commission_cap ->
  commission_outputs c height txn_count i j n total outs = Z.min commission_cap (total + counted i j outs).
Proof.
  induction outs as [|o outs IH]; intros j total Ho Ht; cbn [commission_outputs counted].
  { lia. }
  apply list.Forall_cons in Ho as [Hv Ho]. unfold value_ok in Hv.
  assert ((height >? 225000) && negb (ASSETCHAINS_STAKED c =? 0) = false) as ->.
  { destruct no_stake_output as [Hh|Hs]; [|by rewrite Hs, andb_false_r].
    rewrite Z.gtb_ltb. destruct (Z.ltb_spec 225000 height); [lia|done]. }
  cbn [andb]. fold commission_cap. set (x := if _ || _ then nValue o else 0).
  assert (0 <= x < 2 ^ 62) as Hx by (unfold x; destruct (_ || _); lia).
  assert ((if negb (i =? 0) || negb (j =? 1) then u64 (total + nValue o) else total) = total + x) as ->.
  { unfold x, commission_cap, COIN in *. destruct (_ || _); [apply uwrap_small; lia|lia]. }
  pose proof (counted_nonneg i outs (j + 1) Ho). rewrite Z.gtb_ltb.
  destruct (Z.ltb_spec commission_cap (total + x)); [lia|]. rewrite IH by (done || lia). f_equal. lia.
Qed.

Lemma commission_txs_min vtx : forall i total, Forall (fun t => Forall value_ok (vout t)) vtx ->
  0 <= total <= commission_cap ->
  commission_txs c height txn_count i total vtx = Z.min commission_cap (total + counted_txs i vtx) /\ 0 <= counted_txs i vtx.
Proof.
  induction vtx as [|t vtx IH]; intros i total Hv Ht; cbn [commission_txs counted_txs]; [lia|].
  apply list.Forall_cons in Hv as [Hv0 Hv]. pose proof (counted_nonneg i (vout t) 0 Hv0).
  rewrite commission_outputs_min by done.
  assert (0 <= Z.min commission_cap (total + counted i 0 (vout t)) <= commission_cap) as Hr by lia.
  destruct (IH (i + 1) _ Hv Hr) as [-> ?]. lia.
Qed.
End Commission.

(** Without founders the commission of a block is the rate (in units of 10^-8) of the value of its
    outputs other than the second of the coinbase, counted up to a million coins, with amounts
    below 10000 dropped; nothing wraps for a rate of at most 100 percent, so it is never more
    than a million coins. *)
Theorem commission_of_block c cache vtx height : ASSETCHAINS_FOUNDERS c = 0 -> is_STAKED (symbol c) <> 2 ->
  height <= 225000 \/ ASSETCHAINS_STAKED c = 0 -> 0 <= ASSETCHAINS_COMMISSION c <= 100000000 ->
  Forall (fun t => Forall value_ok (vout t)) vtx ->
  let commission := Z.min commission_cap (counted_txs 0 vtx) / 10000 * ASSETCHAINS_COMMISSION c / 10000 in
  komodo_commission c cache (Some vtx) height = Some ((if commission <? 10000 then 0 else commission), cache) /\
  0 <= commission <= commission_cap.
Proof.
  intros Hf Hst Hs Hc Hv commission. unfold komodo_commission.
  destruct (Z.eqb_spec (is_STAKED (symbol c)) 2); [done|]. rewrite Hf. cbn [negb Z.eqb].
  destruct (commission_txs_min c height (size vtx) Hs vtx 0 0 Hv) as [-> Hpos]; [unfold commission_cap, COIN; lia|].
  rewrite Z.add_0_l. set (total := Z.min commission_cap (counted_txs 0 vtx)) in *.
  assert (0 <= total <= 100000000000000) as Ht by (unfold total, commission_cap, COIN; lia).
  assert (0 <= total / 10000 <= 10000000000) as Hq
    by (split; [apply Z.div_pos; lia|apply Z.div_le_upper_bound; lia]).
  rewrite uwrap_small by nia. split; [done|]. unfold commission, commission_cap, COIN.
  split; [apply Z.div_pos; nia|]. apply Z.div_le_upper_bound; nia.
Qed.

Definition paying_tx (v : Z) : tx := {|
  fOverwintered := false; nVersion := 1; nVersionGroupId := 0; vin := [];
  vout := [{| nValue := v; scriptPubKey := [] |}]; nLockTime := 0; nExpiryHeight := 0; valueBalance := 0;
  vShieldedSpend := []; vShieldedOutput := []; vjoinsplit := []; joinSplitPubKey := [];
  joinSplitSig := []; bindingSig := [] |}.

Lemma commission_of_block_witness :
  komodo_commission subsidy_params_example empty_cache (Some [paying_tx 300000000; paying_tx 700000000]) 5 =
  Some (50000000, empty_cache).
Proof.
  destruct (commission_of_block subsidy_params_example empty_cache [paying_tx 300000000; paying_tx 700000000] 5)
    as [H _].
  - reflexivity.
  - discriminate.
  - right. reflexivity.
  - cbn. lia.
  - repeat constructor; cbn; lia.
  - exact H.
Defined.
