(* ===== verification/Block.v ===== *)
(** * Block: [src/src/primitives/block.h] and [block.cpp]
    Block headers and blocks with their serialization, block locators, the header as input of
    Equihash, and the Merkle tree of a block: its construction, the detection of duplicated
    transactions, the branches and their verification. *)
From S2P Require Import Prelude Endian Uint256 Hash Opcode Script Serialize Amount Transaction.

Abbreviation ser256 := Serialize_blob (only parsing).
Abbreviation unser256 := (Unserialize_blob 32) (only parsing).

(** ** Headers *)

Record CBlockHeader := {
  bh_nVersion : Z; hashPrevBlock : list Z; hashMerkleRoot : list Z; hashFinalSaplingRoot : list Z;
  bh_nTime : Z; bh_nBits : Z; bh_nNonce : list Z; bh_nSolution : list Z
}.

Definition HEADER_SIZE : Z := 4 + 32 + 32 + 32 + 4 + 4 + 32.
Definition CURRENT_VERSION : Z := 4.

Definition header_null : CBlockHeader := {|
  bh_nVersion := CURRENT_VERSION; hashPrevBlock := replicate 32 0; hashMerkleRoot := replicate 32 0;
  hashFinalSaplingRoot := replicate 32 0; bh_nTime := 0; bh_nBits := 0; bh_nNonce := replicate 32 0;
  bh_nSolution := [] |}.

Definition header_IsNull (h : CBlockHeader) : bool := bh_nBits h =? 0.

Definition Serialize_CBlockHeader (h : CBlockHeader) : list Z :=
  Serialize_int32 (bh_nVersion h) ++ ser256 (hashPrevBlock h) ++ ser256 (hashMerkleRoot h) ++
  ser256 (hashFinalSaplingRoot h) ++ ser_writedata32 (bh_nTime h) ++ ser_writedata32 (bh_nBits h) ++
  ser256 (bh_nNonce h) ++ Serialize_bytes (bh_nSolution h).

Definition Unserialize_CBlockHeader : Reader CBlockHeader :=
  nVersion <-- Unserialize_int32 ;; prev <-- unser256 ;; root <-- unser256 ;; sapling <-- unser256 ;;
  nTime <-- ser_readdata32 ;; nBits <-- ser_readdata32 ;; nNonce <-- unser256 ;;
  nSolution <-- Unserialize_bytes ;;
  rret {| bh_nVersion := nVersion; hashPrevBlock := prev; hashMerkleRoot := root;
          hashFinalSaplingRoot := sapling; bh_nTime := nTime; bh_nBits := nBits; bh_nNonce := nNonce;
          bh_nSolution := nSolution |}.

(** [hashFunction] always points to [GetSHA256DHash]. *)
Definition GetSHA256DHash (h : CBlockHeader) : list Z := Hash (Serialize_CBlockHeader h).
Definition header_GetHash (h : CBlockHeader) : list Z := GetSHA256DHash h.

(** [CEquihashInput]: the header without its nonce and solution. *)
Definition Serialize_CEquihashInput (h : CBlockHeader) : list Z :=
  Serialize_int32 (bh_nVersion h) ++ ser256 (hashPrevBlock h) ++ ser256 (hashMerkleRoot h) ++
  ser256 (hashFinalSaplingRoot h) ++ ser_writedata32 (bh_nTime h) ++ ser_writedata32 (bh_nBits h).

(** ** Blocks *)

(** [vMerkleTree] is memory only, and filled by [BuildMerkleTree]. *)
Record CBlock := { block_header : CBlockHeader; vtx : list CTransaction; vMerkleTree : list (list Z) }.

Definition block_of_header (h : CBlockHeader) : CBlock :=
  {| block_header := h; vtx := []; vMerkleTree := [] |}.
Definition block_null : CBlock := block_of_header header_null.

Definition GetBlockHeader (b : CBlock) : CBlockHeader := block_header b.

Definition Serialize_vtx (v : list CTransaction) : option (list Z) :=
  match mapM (fun t => Serialize_tx (ct_tx t)) v with
  | None => None
  | Some l => Some (WriteCompactSize (size v) ++ concat l)
  end.

Definition CTransaction_null : CTransaction := {| ct_tx := tx_default; ct_hash := replicate 32 0 |}.

(** The vector is resized before its elements are read, so each is read into a new object;
    [sizeof(CTransaction)] is 344. *)
Definition Unserialize_vtx : Reader (list CTransaction) :=
  Unserialize_vector 344 (CTransaction_Unserialize CTransaction_null).

Definition Serialize_CBlock (b : CBlock) : option (list Z) :=
  match Serialize_vtx (vtx b) with
  | None => None
  | Some v => Some (Serialize_CBlockHeader (block_header b) ++ v)
  end.

(** Reading into the block [b0]: [vMerkleTree] is not touched. *)
Definition Unserialize_CBlock (b0 : CBlock) : Reader CBlock :=
  h <-- Unserialize_CBlockHeader ;; v <-- Unserialize_vtx ;;
  rret {| block_header := h; vtx := v; vMerkleTree := vMerkleTree b0 |}.

(** [CNetworkBlockHeader]: a header and its [compatVec]. *)
Definition Serialize_CNetworkBlockHeader (h : CBlockHeader) (compatVec : list CTransaction) : option (list Z) :=
  match Serialize_vtx compatVec with
  | None => None
  | Some v => Some (Serialize_CBlockHeader h ++ v)
  end.
Definition Unserialize_CNetworkBlockHeader : Reader (CBlockHeader * list CTransaction) :=
  h <-- Unserialize_CBlockHeader ;; v <-- Unserialize_vtx ;; rret (h, v).

(** [CBlockLocator]: the version of the stream is written unless the type is [SER_GETHASH]. *)
Definition Serialize_CBlockLocator (gethash : bool) (nVersion : Z) (vHave : list (list Z)) : list Z :=
  when (negb gethash) (Serialize_int32 nVersion) ++ Serialize_vector ser256 vHave.
Definition Unserialize_CBlockLocator (gethash : bool) (nVersion : Z) : Reader (list (list Z)) :=
  v <-- read_when (negb gethash) Unserialize_int32 nVersion ;; Unserialize_vector 32 unser256.
Definition locator_IsNull (vHave : list (list Z)) : bool := match vHave with [] => true | _ => false end.

(** ** The Merkle tree
    Sizes and positions are of type [int] in the code; a block has less than 2^31 transactions. *)

(** [vMerkleTree[k]] *)
Definition tree_at (tree : list (list Z)) (k : nat) : list Z := nth k tree [].

(** The inner loop from [i] on: the parents of the row of [nSize] nodes at [j]. *)
Fixpoint merkle_row (fuel j nSize i : nat) (tree : list (list Z)) (mutated : bool) : list (list Z) * bool :=
  match fuel with
  | O => (tree, mutated)
  | S fuel' =>
    if (i <? nSize)%nat then
      let i2 := Nat.min (i + 1) (nSize - 1) in
      let mutated' := if (i2 =? i + 1)%nat && (i2 + 1 =? nSize)%nat &&
                         base_blob.eq (tree_at tree (j + i)) (tree_at tree (j + i2)) then true else mutated in
      merkle_row fuel' j nSize (i + 2)
        (tree ++ [Hash_ranges [tree_at tree (j + i); tree_at tree (j + i2)]]) mutated'
    else (tree, mutated)
  end.

(** The outer loop: one row after the other. *)
Fixpoint merkle_rows (fuel j nSize : nat) (tree : list (list Z)) (mutated : bool) : list (list Z) * bool :=
  match fuel with
  | O => (tree, mutated)
  | S fuel' =>
    if (1 <? nSize)%nat then
      let '(tree', mutated') := merkle_row nSize j nSize 0 tree mutated in
      merkle_rows fuel' (j + nSize) ((nSize + 1) / 2) tree' mutated'
    else (tree, mutated)
  end.

(** [BuildMerkleTree(&fMutated, leaves, vMerkleTree)]: the root, the flag and the tree. *)
Definition BuildMerkleTree (leaves : list (list Z)) : list Z * bool * list (list Z) :=
  let '(tree, mutated) := merkle_rows (length leaves) 0 (length leaves) leaves false in
  (List.last tree (replicate 32 0), mutated, tree).

Definition CBlock_BuildMerkleTree (b : CBlock) : list Z * bool * CBlock :=
  let '(root, mutated, tree) := BuildMerkleTree (map ct_hash (vtx b)) in
  (root, mutated, {| block_header := block_header b; vtx := vtx b; vMerkleTree := tree |}).

(** The loop of [GetMerkleBranch]. *)
Fixpoint branch_loop (fuel j nSize : nat) (nIndex : Z) (tree : list (list Z)) : list (list Z) :=
  match fuel with
  | O => []
  | S fuel' =>
    if (1 <? nSize)%nat then
      let i := Z.min (Z.lxor nIndex 1) (Z.of_nat nSize - 1) in
      tree_at tree (j + Z.to_nat i) :: branch_loop fuel' (j + nSize) ((nSize + 1) / 2) (Z.shiftr nIndex 1) tree
    else []
  end.

Definition GetMerkleBranch (nIndex : Z) (nLeaves : nat) (tree : list (list Z)) : list (list Z) :=
  branch_loop nLeaves 0 nLeaves nIndex tree.

(** The tree is built when it is empty only. *)
Definition CBlock_GetMerkleBranch (b : CBlock) (nIndex : Z) : list (list Z) * CBlock :=
  let b' := match vMerkleTree b with [] => snd (CBlock_BuildMerkleTree b) | _ => b end in
  (GetMerkleBranch nIndex (length (vtx b')) (vMerkleTree b'), b').

(** One step of [CheckMerkleBranch]: the hash and the index after a node of the branch. *)
Definition branch_step (st : list Z * Z) (it : list Z) : list Z * Z :=
  let '(hash, nIndex) := st in
  ((if negb (Z.land nIndex 1 =? 0) then Hash_ranges [it; hash] else Hash_ranges [hash; it]), Z.shiftr nIndex 1).

Definition CheckMerkleBranch (hash : list Z) (vMerkleBranch : list (list Z)) (nIndex : Z) : list Z :=
  if nIndex =? -1 then replicate 32 0 else fst (fold_left branch_step vMerkleBranch (hash, nIndex)).

(** ** Codecs *)

#[local] Instance codec_blob_n n : Codec Serialize_blob (Unserialize_blob n) (blob_wf n).
Proof. apply codec_blob. Qed.
#[local] Opaque Serialize_blob Unserialize_blob Serialize_int32 ser_writedata32 Serialize_bytes.

Definition header_wf (h : CBlockHeader) : Prop :=
  sint_wf 32 (bh_nVersion h) /\ blob_wf 32 (hashPrevBlock h) /\ blob_wf 32 (hashMerkleRoot h) /\
  blob_wf 32 (hashFinalSaplingRoot h) /\ uint_wf 32 (bh_nTime h) /\ uint_wf 32 (bh_nBits h) /\
  blob_wf 32 (bh_nNonce h) /\ bytes_wf (bh_nSolution h).

#[export] Instance codec_header : Codec Serialize_CBlockHeader Unserialize_CBlockHeader header_wf.
Proof.
  split.
  - intros [] rest (? & ? & ? & ? & ? & ? & ? & ?). cbn in * |-.
    unfold Serialize_CBlockHeader, Unserialize_CBlockHeader.
    cbn [bh_nVersion hashPrevBlock hashMerkleRoot hashFinalSaplingRoot bh_nTime bh_nBits bh_nNonce bh_nSolution].
    codec_read_fields.
  - intros s p rest Hs H. unfold Unserialize_CBlockHeader in H. codec_exact_fields Hs H Serialize_CBlockHeader.
Qed.

(** A transaction of a block in memory: its version is known, the fields the version does not have
    are those of a new object, and the cached hash is that of its bytes. *)
Definition ctx_wf (c : CTransaction) : Prop :=
  tx_wf (ct_tx c) /\ known_version (ct_tx c) = true /\ adopt tx_default (ct_tx c) = ct_tx c /\
  ct_hash c = Hash (tx_bytes (ct_tx c)).

Lemma ctx_serialize c : ctx_wf c -> Serialize_tx (ct_tx c) = Some (tx_bytes (ct_tx c)).
Proof. intros (Hw & Hk & _ & _). rewrite Serialize_tx_bytes by (intros _; apply Hw). by rewrite Hk. Qed.

#[export] Instance codec_ctx :
  Codec (fun c => tx_bytes (ct_tx c)) (CTransaction_Unserialize CTransaction_null) ctx_wf.
Proof.
  split.
  - intros c rest Hc. unfold CTransaction_Unserialize, with_hash, SerializeHash. cbn [ct_tx CTransaction_null].
    pose proof (ctx_serialize c Hc) as Hs. destruct Hc as (Hw & Hk & Ha & Hh).
    rewrite Unserialize_tx_read, Ha by done. rewrite Hs, <- Hh. by destruct c.
  - intros s c rest Hs H. unfold CTransaction_Unserialize in H. cbn [ct_tx CTransaction_null] in H.
    destruct (Unserialize_tx tx_default s) as [[t s']|] eqn:Et; [|done].
    destruct (Unserialize_tx_default s t s' Hs Et) as [Hw Ha].
    apply (Unserialize_tx_exact _ _ _ _ Hs) in Et as (Hk & -> & Hj).
    unfold with_hash, SerializeHash in H. rewrite Serialize_tx_bytes, Hk in H by done. injection H as <- <-.
    done.
Qed.

#[local] Instance codec_vtx :
  Codec (Serialize_vector (fun c => tx_bytes (ct_tx c))) Unserialize_vtx (vector_wf ctx_wf).
Proof. apply codec_vector; lia || apply _. Qed.

Lemma Serialize_vtx_wf v : Forall ctx_wf v ->
  Serialize_vtx v = Some (Serialize_vector (fun c => tx_bytes (ct_tx c)) v).
Proof.
  intros Hv. unfold Serialize_vtx. rewrite (proj2 (mapM_Some _ v (map (fun c => tx_bytes (ct_tx c)) v))); [done|].
  induction Hv as [|c v Hc Hv IH]; constructor; [by apply ctx_serialize|done].
Qed.

(** ** Properties of the formats *)

(** Blocks and network headers read back what was written, and a block that is accepted from bytes
    is written back as exactly these bytes, its cached transaction hashes being the hashes of the
    bytes received; the Merkle tree in memory is not part of the format. *)
Theorem block_round_trip b0 :
  (forall b rest, header_wf (block_header b) -> vector_wf ctx_wf (vtx b) -> exists s,
     Serialize_CBlock b = Some s /\
     Unserialize_CBlock b0 (s ++ rest) =
       Some ({| block_header := block_header b; vtx := vtx b; vMerkleTree := vMerkleTree b0 |}, rest)) /\
  (forall s b rest, bytes_ok s -> Unserialize_CBlock b0 s = Some (b, rest) ->
     header_wf (block_header b) /\ vector_wf ctx_wf (vtx b) /\
     exists s', Serialize_CBlock b = Some s' /\ s = s' ++ rest).
Proof.
  split.
  - intros b rest Hh Hv. unfold Serialize_CBlock. rewrite Serialize_vtx_wf by apply Hv. eexists; split; [done|].
    unfold Unserialize_CBlock. rewrite <- app_assoc. by do 2 (erewrite rbind_ok by (by apply codec_read)).
  - intros s b rest Hs H. unfold Unserialize_CBlock in H.
    do 2 (apply rbind_some in H as (? & ? & Hx & H); apply codec_exact in Hx as [? ->]; [|exact Hs];
          apply bytes_ok_app_inv in Hs).
    apply rret_some in H as [-> ->]. cbn [block_header vtx]. split; [done|]. split; [done|].
    unfold Serialize_CBlock. cbn [block_header vtx]. rewrite Serialize_vtx_wf by (by destruct H1).
    eexists; split; [done|]. by rewrite app_assoc.
Qed.

(** ** The Merkle tree as rows *)

(** The parents of a row: the last node of an odd row is its own sibling. *)
Fixpoint pair_up (row : list (list Z)) : list (list Z) :=
  match row with
  | a :: b :: rest => Hash_ranges [a; b] :: pair_up rest
  | [a] => [Hash_ranges [a; a]]
  | [] => []
  end.

(** The last pair of the row is made of two equal nodes. *)
Fixpoint twin_end (row : list (list Z)) : bool :=
  match row with
  | [a; b] => bool_decide (a = b)
  | _ :: _ :: rest => twin_end rest
  | _ => false
  end.

(** The rows above [row], itself included. *)
Fixpoint rows (fuel : nat) (row : list (list Z)) : list (list (list Z)) :=
  match fuel with
  | O => [row]
  | S fuel' => row :: (if (1 <? length row)%nat then rows fuel' (pair_up row) else [])
  end.

Fixpoint root_of (fuel : nat) (row : list (list Z)) : list Z :=
  match fuel with
  | O => hd (replicate 32 0) row
  | S fuel' => if (1 <? length row)%nat then root_of fuel' (pair_up row) else hd (replicate 32 0) row
  end.

Definition hashes32 (row : list (list Z)) : Prop := Forall (fun h => length h = 32%nat) row.

Lemma pair_ind {A} (P : list A -> Prop) : P [] -> (forall a, P [a]) -> (forall a b l, P l -> P (a :: b :: l)) ->
  forall l, P l.
Proof.
  intros H0 H1 H2. assert (forall l, P l /\ forall a, P (a :: l)) as H; [|apply H].
  induction l as [|b l [IH1 IH2]]; [by split|]. split; [done|]. intros a. by apply H2.
Qed.

Lemma pair_up_length row : length (pair_up row) = ((length row + 1) / 2)%nat.
Proof.
  induction row as [|a|a b row IH] using pair_ind; [done..|]. cbn [pair_up length]. rewrite IH.
  replace (S (S (length row)) + 1)%nat with (length row + 1 + 1 * 2)%nat by lia. rewrite Nat.div_add by lia. lia.
Qed.

Lemma pair_up_hashes row : hashes32 (pair_up row).
Proof.
  induction row as [|a|a b row IH] using pair_ind; cbn [pair_up]; repeat constructor; try done;
    rewrite Hash_ranges_spec; apply hash256_length.
Qed.

Lemma half_lt n : (1 < n)%nat -> ((n + 1) / 2 < n)%nat.
Proof. intros H. apply Nat.Div0.div_lt_upper_bound. lia. Qed.

(** The inner loop appends the parents of what is left of the row. *)
Lemma merkle_row_stop f j n i tree m : (n <= i)%nat -> merkle_row f j n i tree m = (tree, m).
Proof. intros H. destruct f; [done|]. cbn [merkle_row]. by destruct (Nat.ltb_spec i n); [lia|]. Qed.

Lemma tree_at_app (l1 l2 : list (list Z)) k : tree_at (l1 ++ l2) (length l1 + k) = tree_at l2 k.
Proof. apply app_nth2_plus. Qed.

Lemma tree_at_row (pre don rest acc : list (list Z)) k : (k < length rest)%nat ->
  tree_at (pre ++ (don ++ rest) ++ acc) (length pre + (length don + k)) = tree_at rest k.
Proof. intros H. rewrite tree_at_app, <- app_assoc, tree_at_app. by apply app_nth1. Qed.

Lemma merkle_row_spec f : forall pre row don rest acc m, row = don ++ rest -> (length rest <= f)%nat -> hashes32 rest ->
  merkle_row f (length pre) (length row) (length don) (pre ++ row ++ acc) m =
  (pre ++ row ++ acc ++ pair_up rest, m || twin_end rest).
Proof.
  induction f as [f IH] using lt_wf_ind. intros pre row don rest acc m E Hf Hh.
  assert (length row = length don + length rest)%nat as Hl by (by rewrite E, length_app).
  assert (forall k, (k < length rest)%nat ->
    tree_at (pre ++ row ++ acc) (length pre + (length don + k)) = tree_at rest k) as Hat
    by (intros k; rewrite E; apply tree_at_row).
  destruct rest as [|a [|b rest]].
  - rewrite merkle_row_stop by (cbn [length] in Hl; lia). cbn [pair_up twin_end]. by rewrite app_nil_r, orb_false_r.
  - destruct f as [|f]; [cbn in Hf; lia|]. cbn [merkle_row]. rewrite Hl. cbn [length].
    destruct (Nat.ltb_spec (length don) (length don + 1)); [|lia].
    replace (Nat.min (length don + 1) (length don + 1 - 1)) with (length don + 0)%nat by lia.
    destruct (Nat.eqb_spec (length don + 0) (length don + 1)); [lia|]. cbn [andb].
    replace (length pre + length don)%nat with (length pre + (length don + 0))%nat by lia.
    rewrite !Hat by (cbn; lia). cbn [tree_at nth]. rewrite merkle_row_stop by lia.
    cbn [pair_up twin_end]. by rewrite orb_false_r, <- !app_assoc.
  - destruct f as [|f]; [cbn in Hf; lia|]. cbn [merkle_row]. cbn [length] in Hl, Hf.
    destruct (Nat.ltb_spec (length don) (length row)); [|lia].
    replace (Nat.min (length don + 1) (length row - 1)) with (length don + 1)%nat by lia.
    rewrite Nat.eqb_refl. cbn [andb].
    replace (length pre + length don)%nat with (length pre + (length don + 0))%nat by lia.
    rewrite !Hat by (cbn; lia). cbn [tree_at nth].
    apply list.Forall_cons in Hh as [Ha Hh]. apply list.Forall_cons in Hh as [Hb Hh].
    rewrite blob_eq_true by congruence.
    replace (length don + 2)%nat with (length (don ++ [a; b])) by (rewrite length_app; cbn; lia).
    rewrite <- !app_assoc, (IH f ltac:(lia) pre row (don ++ [a; b]) rest); [|by rewrite E, <- app_assoc|lia|done].
    cbn [pair_up twin_end]. rewrite <- !app_assoc. cbn [app]. f_equal.
    rewrite Hl. destruct rest as [|c [|d rest]]; cbn [length]; [..|destruct (Nat.eqb_spec (length don + 1 + 1) (length don + S (S (S (S (length rest)))))); [lia|done]].
    + replace (length don + 1 + 1 =? length don + 2)%nat with true by (symmetry; apply Nat.eqb_eq; lia).
      cbn [andb twin_end]. by destruct m, (bool_decide (a = b)).
    + destruct (Nat.eqb_spec (length don + 1 + 1) (length don + 3)); [lia|done].
Qed.

#[local] Opaque Hash_ranges.
Lemma rows_short f row : (length row <= 1)%nat -> rows f row = [row].
Proof. intros H. destruct f; cbn [rows]; [done|]. by destruct (Nat.ltb_spec 1 (length row)); [lia|]. Qed.

Lemma root_of_short f row : (length row <= 1)%nat -> root_of f row = hd (replicate 32 0) row.
Proof. intros H. destruct f; cbn [root_of]; [done|]. by destruct (Nat.ltb_spec 1 (length row)); [lia|]. Qed.

Lemma merkle_rows_spec f : forall pre row m, (length row <= f)%nat -> hashes32 row ->
  merkle_rows f (length pre) (length row) (pre ++ row) m =
  (pre ++ concat (rows f row), m || existsb twin_end (rows f row)).
Proof.
  induction f as [|f IH]; intros pre row m Hf Hh.
  - destruct row; [|cbn in Hf; lia]. cbn. by rewrite orb_false_r.
  - cbn [merkle_rows rows]. destruct (Nat.ltb_spec 1 (length row)) as [H1|H1].
    + pose proof (merkle_row_spec (length row) pre row [] row [] m eq_refl (le_n _) Hh) as E.
      cbn [length app] in E. rewrite app_nil_r in E. rewrite E. clear E.
      rewrite app_assoc, <- pair_up_length, <- length_app, IH; [|rewrite pair_up_length; pose proof (half_lt _ H1); lia|apply pair_up_hashes].
      cbn [concat existsb]. by rewrite app_assoc, orb_assoc.
    + cbn [concat existsb]. rewrite app_nil_r. destruct row as [|a [|]]; [..|cbn in H1; lia]; by rewrite !orb_false_r.
Qed.

Lemma last_app_right {A} (l1 l2 : list A) d : l2 <> [] -> List.last (l1 ++ l2) d = List.last l2 d.
Proof.
  intros H. induction l1 as [|a l1 IH]; [done|]. cbn [app List.last]. destruct (l1 ++ l2) eqn:E; [|done].
  by apply app_eq_nil in E as [_ ->].
Qed.

Lemma pair_up_ne row : row <> [] -> pair_up row <> [].
Proof. by destruct row as [|a [|b l]]. Qed.

Lemma rows_ne f row : row <> [] -> concat (rows f row) <> [].
Proof. intros H. destruct f, row; done. Qed.

Lemma root_of_last f : forall row, row <> [] -> (length row <= f)%nat ->
  List.last (concat (rows f row)) (replicate 32 0) = root_of f row.
Proof.
  assert (forall row : list (list Z), row <> [] -> (length row <= 1)%nat ->
    List.last (concat [row]) (replicate 32 0) = hd (replicate 32 0) row) as Hs.
  { intros [|a [|]] Hne H; [done|done|cbn in H; lia]. }
  induction f as [|f IH]; intros row Hne Hf; [destruct row; [done|cbn in Hf; lia]|].
  cbn [root_of rows]. destruct (Nat.ltb_spec 1 (length row)) as [H1|H1]; [|by apply Hs].
  cbn [concat]. rewrite last_app_right by (by apply rows_ne, pair_up_ne).
  apply IH; [by apply pair_up_ne|]. rewrite pair_up_length. pose proof (half_lt _ H1). lia.
Qed.

(** The tree that is built is the concatenation of the rows; the root is the last node, and the flag
    says that some row ends with two equal nodes. *)
Lemma BuildMerkleTree_spec leaves : hashes32 leaves ->
  BuildMerkleTree leaves = (root_of (length leaves) leaves, existsb twin_end (rows (length leaves) leaves),
                            concat (rows (length leaves) leaves)).
Proof.
  intros Hh. unfold BuildMerkleTree.
  pose proof (merkle_rows_spec (length leaves) [] leaves false (le_n _) Hh) as E. cbn [length app] in E. rewrite E.
  cbn [orb]. destruct leaves as [|a l]; [done|]. by rewrite root_of_last.
Qed.

(** *** Branches *)

Fixpoint branch_of (fuel : nat) (row : list (list Z)) (i : nat) : list (list Z) :=
  match fuel with
  | O => []
  | S fuel' =>
    if (1 <? length row)%nat
    then nth (Nat.min (if Nat.even i then i + 1 else i - 1) (length row - 1)) row [] :: branch_of fuel' (pair_up row) (i / 2)
    else []
  end.

Lemma lxor_1 i : Z.lxor (Z.of_nat i) 1 = Z.of_nat (if Nat.even i then i + 1 else i - 1).
Proof.
  destruct (Nat.even i) eqn:E.
  - apply Nat.even_spec in E as [k ->]. replace (Z.of_nat (2 * k)) with (2 * Z.of_nat k) by lia.
    replace (Z.of_nat (2 * k + 1)) with (2 * Z.of_nat k + 1) by lia. destruct k; [done|]. done.
  - assert (Nat.odd i = true) as O by (unfold Nat.odd; by rewrite E). apply Nat.odd_spec in O as [k ->].
    replace (Z.of_nat (2 * k + 1)) with (2 * Z.of_nat k + 1) by lia.
    replace (Z.of_nat (2 * k + 1 - 1)) with (2 * Z.of_nat k) by lia. destruct k; [done|]. done.
Qed.

Lemma shiftr_1 i : Z.shiftr (Z.of_nat i) 1 = Z.of_nat (i / 2).
Proof. rewrite Z.shiftr_div_pow2 by lia. by rewrite Nat2Z.inj_div. Qed.

Lemma branch_loop_spec f : forall pre row i, (length row <= f)%nat ->
  branch_loop f (length pre) (length row) (Z.of_nat i) (pre ++ concat (rows f row)) = branch_of f row i.
Proof.
  induction f as [|f IH]; intros pre row i Hf; [done|]. cbn [branch_loop branch_of rows].
  destruct (Nat.ltb_spec 1 (length row)) as [H1|H1]; [|done]. rewrite lxor_1, shiftr_1. f_equal.
  - replace (Z.to_nat _) with (Nat.min (if Nat.even i then i + 1 else i - 1) (length row - 1)) by lia.
    rewrite tree_at_app. cbn [concat]. apply app_nth1. lia.
  - cbn [concat]. rewrite app_assoc, <- length_app, <- pair_up_length. apply IH.
    rewrite pair_up_length. pose proof (half_lt _ H1). lia.
Qed.

(** The node above position [i] is the hash of the two nodes of its pair. *)
Lemma pair_up_nth row : forall i, (i < length row)%nat ->
  nth (i / 2) (pair_up row) [] =
  let sibling := nth (Nat.min (if Nat.even i then i + 1 else i - 1) (length row - 1)) row [] in
  if Nat.even i then Hash_ranges [nth i row []; sibling] else Hash_ranges [sibling; nth i row []].
Proof.
  induction row as [|a|a b row IH] using pair_ind; intros i Hi; [cbn in Hi; lia|..].
  - cbn in Hi. by replace i with O by lia.
  - destruct i as [|[|i]]; [done|done|]. cbn [length] in Hi. cbn [pair_up length].
    replace (S (S i) / 2)%nat with (S (i / 2)) by (replace (S (S i)) with (i + 1 * 2)%nat by lia; rewrite Nat.div_add; lia).
    cbn [nth]. rewrite IH by lia. change (Nat.even (S (S i))) with (Nat.even i).
    replace (Nat.min (if Nat.even i then S (S i) + 1 else S (S i) - 1) (S (S (length row)) - 1))
      with (S (S (Nat.min (if Nat.even i then i + 1 else i - 1) (length row - 1)))); [done|].
    destruct (Nat.even i) eqn:Ev; [lia|]. destruct i; [done|lia].
Qed.

Lemma CheckMerkleBranch_fold h branch i :
  CheckMerkleBranch h branch (Z.of_nat i) = fst (fold_left branch_step branch (h, Z.of_nat i)).
Proof. unfold CheckMerkleBranch. by destruct (Z.eqb_spec (Z.of_nat i) (-1)); [lia|]. Qed.

(** What a step of the verification hashes. *)
Definition step_input (h it : list Z) (i : nat) : list Z := if Nat.even i then h ++ it else it ++ h.

Lemma branch_step_hash h it i : branch_step (h, Z.of_nat i) it = (Hash (step_input h it i), Z.of_nat (i / 2)).
Proof.
  unfold branch_step, step_input. rewrite shiftr_1, Hash_spec.
  assert (Z.land (Z.of_nat i) 1 = Z.of_nat i mod 2) as -> by (change 1 with (Z.ones 1) at 1; by rewrite Z.land_ones).
  replace (Z.of_nat i mod 2 =? 0) with (Nat.even i).
  - destruct (Nat.even i); cbn [negb]; rewrite Hash_ranges_spec; cbn [concat]; by rewrite app_nil_r.
  - rewrite <- Zeven_mod. symmetry. induction i as [|i IH]; [done|].
    by rewrite Nat2Z.inj_succ, Z.even_succ, <- Z.negb_even, IH, Nat.even_succ, <- Nat.negb_even.
Qed.

(** The inputs hashed while verifying a branch, and while building the rows above [row]. *)
Fixpoint path_inputs (h : list Z) (branch : list (list Z)) (i : nat) : list (list Z) :=
  match branch with
  | [] => []
  | it :: rest => step_input h it i :: path_inputs (Hash (step_input h it i)) rest (i / 2)
  end.

Fixpoint pair_inputs (row : list (list Z)) : list (list Z) :=
  match row with
  | a :: b :: rest => (a ++ b) :: pair_inputs rest
  | [a] => [a ++ a]
  | [] => []
  end.

Fixpoint node_inputs (fuel : nat) (row : list (list Z)) : list (list Z) :=
  match fuel with
  | O => []
  | S fuel' => if (1 <? length row)%nat then pair_inputs row ++ node_inputs fuel' (pair_up row) else []
  end.

(** Two of the given inputs collide. *)
Definition collision_in (Q : list (list Z)) : Prop :=
  exists x y, x ∈ Q /\ y ∈ Q /\ x <> y /\ Hash x = Hash y.

Lemma Hash_inj_in Q x y : x ∈ Q -> y ∈ Q -> Hash x = Hash y -> collision_in Q \/ x = y.
Proof. intros Hx Hy E. destruct (decide (x = y)) as [|Hne]; [by right|left]. by exists x, y. Qed.

Lemma collision_in_mono Q Q' : Q ⊆ Q' -> collision_in Q -> collision_in Q'.
Proof. intros H (x & y & ? & ? & ?). exists x, y. eauto. Qed.

Lemma pair_up_at row i : (i < length row)%nat ->
  nth (i / 2) (pair_up row) [] =
  Hash (step_input (nth i row []) (nth (Nat.min (if Nat.even i then i + 1 else i - 1) (length row - 1)) row []) i).
Proof.
  intros Hi. rewrite pair_up_nth by done. cbv zeta. unfold step_input. rewrite Hash_spec.
  destruct (Nat.even i); rewrite Hash_ranges_spec; cbn [concat]; by rewrite app_nil_r.
Qed.

Lemma half_lt_row row i : (i < length row)%nat -> (1 < length row)%nat -> (i / 2 < length (pair_up row))%nat.
Proof. intros H1 H2. rewrite pair_up_length. apply Nat.Div0.div_lt_upper_bound.
  pose proof (Nat.div_mod (length row + 1) 2 ltac:(lia)). pose proof (Nat.mod_upper_bound (length row + 1) 2 ltac:(lia)). lia.
Qed.

Lemma branch_of_verifies f : forall row i, (length row <= f)%nat -> (i < length row)%nat ->
  fst (fold_left branch_step (branch_of f row i) (nth i row [], Z.of_nat i)) = root_of f row.
Proof.
  induction f as [|f IH]; intros row i Hf Hi; [lia|]. cbn [branch_of root_of].
  destruct (Nat.ltb_spec 1 (length row)) as [H1|H1].
  - cbn [fold_left]. rewrite branch_step_hash, <- pair_up_at by done.
    apply IH; [rewrite pair_up_length; pose proof (half_lt _ H1); lia|by apply half_lt_row].
  - cbn [fold_left fst]. replace i with O by lia. by destruct row; [cbn in Hi; lia|].
Qed.

Lemma step_input_inj h1 h2 it1 it2 i : length h1 = length h2 -> length it1 = length it2 ->
  step_input h1 it1 i = step_input h2 it2 i -> h1 = h2 /\ it1 = it2.
Proof. unfold step_input. intros H1 H2. destruct (Nat.even i); intros E; apply app_inj_1 in E as [-> ->]; done. Qed.

Lemma path_head h it branch i Q : path_inputs h (it :: branch) i ⊆ Q ->
  step_input h it i ∈ Q /\ path_inputs (Hash (step_input h it i)) branch (i / 2) ⊆ Q.
Proof. cbn [path_inputs]. intros H. split; [apply H; by left|]. intros x Hx. apply H. by right. Qed.

(** Two paths to the same root from the same position agree, or two of the inputs collide. *)
Lemma paths_agree Q b1 : forall b2 h1 h2 i, length b1 = length b2 -> hashes32 b1 -> hashes32 b2 ->
  length h1 = 32%nat -> length h2 = 32%nat -> path_inputs h1 b1 i ⊆ Q -> path_inputs h2 b2 i ⊆ Q ->
  fst (fold_left branch_step b1 (h1, Z.of_nat i)) = fst (fold_left branch_step b2 (h2, Z.of_nat i)) ->
  collision_in Q \/ (h1 = h2 /\ b1 = b2).
Proof.
  induction b1 as [|it1 b1 IH]; intros [|it2 b2] h1 h2 i Hl W1 W2 L1 L2 Q1 Q2 E; [by right|done..|].
  apply list.Forall_cons in W1 as [I1 W1]. apply list.Forall_cons in W2 as [I2 W2].
  apply path_head in Q1 as [A1 Q1], Q2 as [A2 Q2]. cbn [fold_left] in E. rewrite !branch_step_hash in E.
  assert (forall x, length (Hash x) = 32%nat) as Lh by (intros x; rewrite Hash_spec; apply hash256_length).
  apply IH in E as [?|[E ->]]; [by left| |by injection Hl|done|done|done|done|done|done].
  destruct (Hash_inj_in Q _ _ A1 A2 E) as [?|Ei]; [by left|right].
  apply step_input_inj in Ei as [-> ->]; [done|congruence..].
Qed.

Lemma branch_of_hashes f : forall row i, hashes32 row -> hashes32 (branch_of f row i).
Proof.
  induction f as [|f IH]; intros row i Hh; cbn [branch_of]; [constructor|].
  destruct (Nat.ltb_spec 1 (length row)); [|constructor]. constructor; [|apply IH, pair_up_hashes].
  unfold hashes32 in Hh. rewrite List.Forall_forall in Hh. apply Hh, nth_In. lia.
Qed.

(** *** Rows with the same parents *)

Lemma pair_up_inj Q l1 : forall l2, hashes32 l1 -> hashes32 l2 -> twin_end l1 = false -> twin_end l2 = false ->
  pair_inputs l1 ⊆ Q -> pair_inputs l2 ⊆ Q -> pair_up l1 = pair_up l2 -> collision_in Q \/ l1 = l2.
Proof.
  assert (forall a b, Hash_ranges [a; b] = Hash (a ++ b)) as HR
    by (intros a b; rewrite Hash_ranges_spec, Hash_spec; cbn [concat]; by rewrite app_nil_r).
  assert (forall a b c d, length a = 32%nat -> length b = 32%nat -> length c = 32%nat -> length d = 32%nat ->
    a ++ b ∈ Q -> c ++ d ∈ Q -> Hash_ranges [a; b] = Hash_ranges [c; d] ->
    collision_in Q \/ (a = c /\ b = d)) as Hinj.
  { intros a b c d La Lb Lc Ld Q1 Q2 E. rewrite !HR in E. destruct (Hash_inj_in Q _ _ Q1 Q2 E) as [?|E']; [by left|right].
    apply app_inj_1 in E'; [done|congruence]. }
  assert (forall b c l, twin_end (b :: c :: l) = false -> l = [] -> b <> c) as Htwin.
  { intros b c l H -> ->. cbn in H. by rewrite bool_decide_true in H. }
  induction l1 as [|a|a b l1 IH] using pair_ind; intros [|c [|d l2]] W1 W2 T1 T2 Q1 Q2 E; try (by right); try done.
  - apply list.Forall_cons in W1 as [A _], W2 as [C _]. injection E as E. cbn [pair_inputs] in Q1, Q2.
    destruct (Hinj a a c c) as [?|[-> _]]; [done|done|done|done|apply Q1; by left|apply Q2; by left|done|by left|by right].
  - apply list.Forall_cons in W1 as [A _], W2 as [C W2]. apply list.Forall_cons in W2 as [D _].
    cbn [pair_up] in E. injection E as E El. cbn [pair_inputs] in Q1, Q2.
    destruct (Hinj a a c d) as [?|[-> ->]]; [done|done|done|done|apply Q1; by left|apply Q2; by left|done|by left|].
    destruct (Htwin d d l2 T2); [|done]. by destruct l2 as [|? [| ]].
  - apply list.Forall_cons in W2 as [C _], W1 as [A W1]. apply list.Forall_cons in W1 as [B _].
    cbn [pair_up] in E. injection E as E El. cbn [pair_inputs] in Q1, Q2.
    destruct (Hinj a b c c) as [?|[-> ->]]; [done|done|done|done|apply Q1; by left|apply Q2; by left|done|by left|].
    destruct (Htwin c c l1 T1); [|done]. by destruct l1 as [|? [| ]].
  - apply list.Forall_cons in W1 as [A W1], W2 as [C W2]. apply list.Forall_cons in W1 as [B W1], W2 as [D W2].
    cbn [pair_up] in E. injection E as E El. cbn [pair_inputs] in Q1, Q2.
    assert (forall e f l, twin_end (e :: f :: l) = false -> twin_end l = false) as Ht by (by intros e f [|? [| ]]).
    destruct (Hinj a b c d) as [?|[-> ->]]; [done|done|done|done|apply Q1; by left|apply Q2; by left|done|by left|].
    destruct (IH l2) as [?| ->]; [done|done|by eapply Ht|by eapply Ht|..|done|by left|by right].
    all: intros x Hx; first [apply Q1; by right | apply Q2; by right].
Qed.

Lemma branch_length_zero f row i : (length row <= f)%nat -> length (branch_of f row i) = O -> (length row <= 1)%nat.
Proof.
  destruct f; cbn [branch_of]; [lia|]. destruct (Nat.ltb_spec 1 (length row)); [done|lia].
Qed.

Lemma root_inj Q f1 : forall f2 l1 l2 i, (length l1 <= f1)%nat -> (length l2 <= f2)%nat -> l1 <> [] -> l2 <> [] ->
  hashes32 l1 -> hashes32 l2 -> length (branch_of f1 l1 i) = length (branch_of f2 l2 i) ->
  existsb twin_end (rows f1 l1) = false -> existsb twin_end (rows f2 l2) = false ->
  node_inputs f1 l1 ⊆ Q -> node_inputs f2 l2 ⊆ Q -> root_of f1 l1 = root_of f2 l2 ->
  collision_in Q \/ l1 = l2.
Proof.
  induction f1 as [|f1 IH]; intros f2 l1 l2 i F1 F2 N1 N2 W1 W2 Hd M1 M2 Q1 Q2 E; [destruct l1; [done|cbn in F1; lia]|].
  destruct (Nat.le_gt_cases (length l1) 1) as [S1|S1].
  - assert (length l2 <= 1)%nat as S2.
    { apply (branch_length_zero f2 l2 i F2). rewrite <- Hd. cbn [branch_of].
      by destruct (Nat.ltb_spec 1 (length l1)); [lia|]. }
    rewrite !root_of_short in E by done. right.
    destruct l1 as [|a [|? ?]]; [done| |cbn in S1; lia]. destruct l2 as [|b [|? ?]]; [done| |cbn in S2; lia].
    cbn in E. by rewrite E.
  - destruct f2 as [|f2]; [destruct l2; [done|cbn in F2; lia]|].
    cbn [branch_of rows root_of node_inputs existsb] in *.
    destruct (Nat.ltb_spec 1 (length l1)); [|lia]. destruct (Nat.ltb_spec 1 (length l2)); [|done].
    injection Hd as Hd. apply orb_false_iff in M1 as [T1 M1], M2 as [T2 M2].
    apply list_subseteq_app_iff_l in Q1 as [P1 Q1], Q2 as [P2 Q2].
    destruct (IH f2 (pair_up l1) (pair_up l2) (i / 2)%nat) as [?|E']; try done; try (by apply pair_up_ne); try apply pair_up_hashes;
      [rewrite pair_up_length; pose proof (half_lt (length l1)); lia
      |rewrite pair_up_length; pose proof (half_lt (length l2)); lia|by left|].
    by apply (pair_up_inj Q).
Qed.

(** * Properties *)

Lemma branch_verifies leaves i root m tree : hashes32 leaves -> (i < length leaves)%nat ->
  BuildMerkleTree leaves = (root, m, tree) ->
  CheckMerkleBranch (nth i leaves []) (GetMerkleBranch (Z.of_nat i) (length leaves) tree) (Z.of_nat i) = root.
Proof.
  intros Hh Hi E. rewrite BuildMerkleTree_spec in E by done. injection E as <- <- <-.
  rewrite CheckMerkleBranch_fold. unfold GetMerkleBranch.
  rewrite (branch_loop_spec (length leaves) [] leaves i (le_n _) : branch_loop _ 0 _ _ (concat _) = _).
  by apply branch_of_verifies.
Qed.

Lemma branch_hashes leaves i root m tree : hashes32 leaves -> BuildMerkleTree leaves = (root, m, tree) ->
  hashes32 (GetMerkleBranch (Z.of_nat i) (length leaves) tree).
Proof.
  intros Hh E. rewrite BuildMerkleTree_spec in E by done. injection E as <- <- <-. unfold GetMerkleBranch.
  rewrite (branch_loop_spec (length leaves) [] leaves i (le_n _) : branch_loop _ 0 _ _ (concat _) = _).
  by apply branch_of_hashes.
Qed.

(** The branch of every transaction of a block verifies against the root of its tree. *)
Theorem merkle_branch_verifies leaves i root m tree : hashes32 leaves -> (i < length leaves)%nat ->
  BuildMerkleTree leaves = (root, m, tree) ->
  CheckMerkleBranch (nth i leaves []) (GetMerkleBranch (Z.of_nat i) (length leaves) tree) (Z.of_nat i) = root.
Proof. exact (branch_verifies leaves i root m tree). Qed.

(** The length of a branch is not checked: without its first node a branch verifies for the node of
    the tree above the leaf, as if that were a leaf. *)
Lemma shorter_branch_verifies_node h it branch i :
  CheckMerkleBranch (Hash (step_input h it i)) branch (Z.of_nat (i / 2)) = CheckMerkleBranch h (it :: branch) (Z.of_nat i).
Proof. by rewrite !CheckMerkleBranch_fold; cbn [fold_left]; rewrite branch_step_hash. Qed.

(** [C22] Conversely, when a branch verifies against the root of a block at the position of one of its
    transactions, and is as long as the branch of that transaction, then the hash is that of the
    transaction and the branch is the one of the tree, or two of the inputs hashed by the two
    verifications collide.  [CheckMerkleBranch] itself tests neither the length nor the position, and
    without the first condition this is false ([shorter_branch_verifies_node]). *)
Theorem merkle_branch_sound leaves i root m tree h branch :
  hashes32 leaves -> (i < length leaves)%nat -> BuildMerkleTree leaves = (root, m, tree) ->
  let good := GetMerkleBranch (Z.of_nat i) (length leaves) tree in
  length h = 32%nat -> hashes32 branch -> length branch = length good ->
  CheckMerkleBranch h branch (Z.of_nat i) = root ->
  collision_in (path_inputs h branch i ++ path_inputs (nth i leaves []) good i) \/
  (h = nth i leaves [] /\ branch = good).
Proof.
  intros Hh Hi E. rewrite BuildMerkleTree_spec in E by done. injection E as <- <- <-. cbv zeta. unfold GetMerkleBranch.
  rewrite (branch_loop_spec (length leaves) [] leaves i (le_n _) : branch_loop _ 0 _ _ (concat _) = _).
  intros Lh Hb Hl E. rewrite CheckMerkleBranch_fold in E. apply (paths_agree _ branch _ h _ i); try done.
  - by apply branch_of_hashes.
  - unfold hashes32 in Hh. rewrite List.Forall_forall in Hh. by apply Hh, nth_In.
  - by apply list_subseteq_app_l.
  - by apply list_subseteq_app_r.
  - rewrite E. symmetry. by apply branch_of_verifies.
Qed.

(** The root commits to the list of transactions: two non-empty lists whose trees have the same
    height (branches of the same length), the same root and no detected duplication are equal, or
    else two of the inputs hashed to build the trees collide.  (Without the flag this fails: a list
    with its end repeated has the same root, CVE-2012-2459.) *)
Theorem merkle_root_commits l1 l2 root t1 t2 : hashes32 l1 -> hashes32 l2 -> l1 <> [] -> l2 <> [] ->
  BuildMerkleTree l1 = (root, false, t1) -> BuildMerkleTree l2 = (root, false, t2) ->
  length (GetMerkleBranch 0 (length l1) t1) = length (GetMerkleBranch 0 (length l2) t2) ->
  collision_in (node_inputs (length l1) l1 ++ node_inputs (length l2) l2) \/ l1 = l2.
Proof.
  intros W1 W2 N1 N2 E1 E2. rewrite BuildMerkleTree_spec in E1, E2 by done.
  injection E1 as R1 M1 <-. injection E2 as R2 M2 <-. unfold GetMerkleBranch.
  rewrite (branch_loop_spec (length l1) [] l1 0 (le_n _) : branch_loop _ 0 _ 0 (concat _) = _).
  rewrite (branch_loop_spec (length l2) [] l2 0 (le_n _) : branch_loop _ 0 _ 0 (concat _) = _).
  intros Hd. apply (root_inj _ (length l1) (length l2) l1 l2 0); try done; try apply le_n;
    [by apply list_subseteq_app_l|by apply list_subseteq_app_r|congruence].
Qed.
#[local] Transparent Hash_ranges.

(** Three transactions, and the list with the third repeated: the root is the same, but the
    duplication is detected. *)
Definition leaf (n : Z) : list Z := replicate 31 0 ++ [n].

Example duplicated_end : exists root t1 t2,
  BuildMerkleTree [leaf 1; leaf 2; leaf 3] = (root, false, t1) /\
  BuildMerkleTree [leaf 1; leaf 2; leaf 3; leaf 3] = (root, true, t2).
Proof. do 3 eexists. split; vm_compute; reflexivity. Qed.

Lemma leaves_ok : hashes32 [leaf 1; leaf 2; leaf 3].
Proof. by repeat constructor. Qed.

#[local] Opaque Hash_ranges BuildMerkleTree.

Lemma merkle_branch_verifies_witness : exists root m tree,
  BuildMerkleTree [leaf 1; leaf 2; leaf 3] = (root, m, tree) /\
  CheckMerkleBranch (leaf 3) (GetMerkleBranch 2 3 tree) 2 = root.
Proof.
  destruct duplicated_end as (root & t1 & t2 & E & _). exists root, false, t1. split; [exact E|].
  apply (merkle_branch_verifies [leaf 1; leaf 2; leaf 3] 2 root false t1); [exact leaves_ok|cbn; lia|exact E].
Defined.

Lemma merkle_branch_sound_witness : exists root m tree,
  BuildMerkleTree [leaf 1; leaf 2; leaf 3] = (root, m, tree) /\
  (collision_in (path_inputs (leaf 3) (GetMerkleBranch 2 3 tree) 2 ++ path_inputs (leaf 3) (GetMerkleBranch 2 3 tree) 2) \/
   leaf 3 = leaf 3 /\ GetMerkleBranch 2 3 tree = GetMerkleBranch 2 3 tree).
Proof.
  destruct duplicated_end as (root & t1 & t2 & E & _). exists root, false, t1. split; [exact E|].
  apply (merkle_branch_sound [leaf 1; leaf 2; leaf 3] 2 root false t1);
    [exact leaves_ok|cbn; lia|exact E|reflexivity| |reflexivity|].
  - exact (branch_hashes [leaf 1; leaf 2; leaf 3] 2 root false t1 leaves_ok E).
  - exact (branch_verifies [leaf 1; leaf 2; leaf 3] 2 root false t1 leaves_ok ltac:(cbn; lia) E).
Defined.

Lemma merkle_root_commits_witness :
  collision_in (node_inputs 3 [leaf 1; leaf 2; leaf 3] ++ node_inputs 3 [leaf 1; leaf 2; leaf 3]) \/
  [leaf 1; leaf 2; leaf 3] = [leaf 1; leaf 2; leaf 3].
Proof.
  destruct duplicated_end as (root & t1 & t2 & E & _).
  exact (merkle_root_commits [leaf 1; leaf 2; leaf 3] [leaf 1; leaf 2; leaf 3] root t1 t1 leaves_ok leaves_ok
    ltac:(discriminate) ltac:(discriminate) E E eq_refl).
Defined.

#[local] Transparent Hash_ranges BuildMerkleTree.

Definition sample_block : CBlock := {|
  block_header := header_null; vtx := [{| ct_tx := sample_tx; ct_hash := Hash (tx_bytes sample_tx) |}]; vMerkleTree := [] |}.

Lemma block_round_trip_witness : exists s,
  Serialize_CBlock sample_block = Some s /\ Unserialize_CBlock block_null (s ++ [1]) = Some (sample_block, [1]).
Proof.
  apply (block_round_trip block_null).
  - unfold header_wf. cbn. repeat split; unfold sint_wf, uint_wf, size_wf, MAX_SIZE; cbn; try lia; by apply (bool_decide_unpack _).
  - split; [unfold size_wf, MAX_SIZE; cbn; lia|]. constructor; [|constructor].
    split; [exact sample_tx_wf|]. split; [reflexivity|]. split; [vm_compute; reflexivity|reflexivity].
Defined.
