(* ===== verification/Merkle.v ===== *)
(** * Merkle: the Merkle root of a block ([src/src/consensus/merkle.cpp])
    [ComputeMerkleRoot] hashes each level in place with [SHA256D64].  The theorem says that it is the
    root of the tree that [CBlock::BuildMerkleTree] builds, and that it reports every mutation the
    other does. *)
From stdpp Require Import sets.
From S2P Require Import Prelude BlockHash Hash Transaction Block Sha256D64.

(** The test of a level: equal hashes in the places 2i and 2i+1. *)
Fixpoint has_twin (hashes : list (list Z)) : bool :=
  match hashes with
  | a :: b :: rest => bool_decide (a = b) || has_twin rest
  | _ => false
  end.

(** The 32-byte hashes of a memory, the first [n] of them: [hashes.resize(n)]. *)
Definition hashes_of (mem : list Z) (n : nat) : list (list Z) :=
  map (fun i => take 32 (drop (32 * i) mem)) (seq 0 n).

Definition pushed (hashes : list (list Z)) : list (list Z) :=
  if Nat.odd (length hashes) then hashes ++ [List.last hashes []] else hashes.

(** The loop; a level has at most as many hashes as the one before it has pairs. *)
Fixpoint compute_loop (fuel : nat) (want : bool) (hashes : list (list Z)) (mutation : bool) : list (list Z) * bool :=
  match fuel with
  | O => (hashes, mutation)
  | S fuel =>
      if Nat.ltb 1 (length hashes) then
        let mutation := mutation || (want && has_twin hashes) in
        let hashes := pushed hashes in
        let half := (length hashes / 2)%nat in
        compute_loop fuel want (hashes_of (D64.SHA256D64 D64.standard (concat hashes) 0 0 half) half) mutation
      else (hashes, mutation)
  end.

(** [want]: whether [mutated] is not null. *)
Definition ComputeMerkleRoot (hashes : list (list Z)) (want : bool) : list Z * bool :=
  let '(hashes, mutation) := compute_loop (length hashes) want hashes false in
  (match hashes with [] => replicate 32 0 | h :: _ => h end, mutation).

Definition BlockMerkleRoot (vtx : list CTransaction) (want : bool) : list Z * bool :=
  ComputeMerkleRoot (map ct_hash vtx) want.

(** ** The levels *)

(** Equal neighbours on some level. *)
Fixpoint any_twin (fuel : nat) (row : list (list Z)) : bool :=
  match fuel with
  | O => false
  | S f => Nat.ltb 1 (length row) && (has_twin row || any_twin f (pair_up row))
  end.

Lemma hashes_of_concat l : forall rest, hashes32 l -> hashes_of (concat l ++ rest) (length l) = l.
Proof.
  unfold hashes_of. induction l as [|h l IH]; intros rest Hw; [done|].
  apply list.Forall_cons in Hw as [Hh Hw]. cbn [length concat seq map]. rewrite <- app_assoc. f_equal.
  - by rewrite Nat.mul_0_r, drop_0, take_app_length'.
  - rewrite <- (IH rest Hw) at 2. rewrite <- seq_shift, map_map. apply map_ext. intros i.
    replace (32 * S i)%nat with (32 + 32 * i)%nat by lia. by rewrite <- drop_drop, drop_app_length'.
Qed.

Lemma pushed_step a b l : pushed (a :: b :: l) = a :: b :: pushed l.
Proof.
  unfold pushed. change (Nat.odd (length (a :: b :: l))) with (Nat.odd (length l)).
  destruct l as [|c l]; [done|]. by destruct (Nat.odd _).
Qed.

Lemma pushed_half row : (length (pushed row) / 2)%nat = length (pair_up row).
Proof.
  induction row as [|a|a b row IH] using pair_ind; [done..|]. rewrite pushed_step. cbn [pair_up length]. rewrite <- IH.
  replace (S (S (length (pushed row)))) with (length (pushed row) + 1 * 2)%nat by lia. rewrite Nat.div_add by lia. lia.
Qed.

Lemma pushed_room row : hashes32 row -> length (concat (pushed row)) = (64 * length (pair_up row))%nat.
Proof.
  induction row as [|a|a b row IH] using pair_ind; intros Hw; [done|..].
  - apply list.Forall_cons in Hw as [Ha _]. cbn. rewrite !length_app, Ha. done.
  - apply list.Forall_cons in Hw as [Ha Hw]. apply list.Forall_cons in Hw as [Hb Hw].
    rewrite pushed_step. cbn [concat pair_up length]. rewrite !length_app, Ha, Hb, IH by done. lia.
Qed.

#[local] Opaque Hash_ranges Hash.

Lemma pair_node a b : Hash (a ++ b) = Hash_ranges [a; b].
Proof. rewrite Hash_spec, Hash_ranges_spec. cbn [concat]. by rewrite app_nil_r. Qed.

Lemma pair_hashes_row row : hashes32 row ->
  pair_hashes (concat (pushed row)) (length (pair_up row)) = concat (pair_up row).
Proof.
  induction row as [|a|a b row IH] using pair_ind; intros Hw; [done|..].
  - apply list.Forall_cons in Hw as [Ha _]. cbn [pair_up length pair_hashes concat pushed Nat.odd Nat.even negb app List.last].
    rewrite !app_nil_r, <- (pair_node a a), firstn_all2; [done|rewrite length_app; lia].
  - apply list.Forall_cons in Hw as [Ha Hw]. apply list.Forall_cons in Hw as [Hb Hw].
    rewrite pushed_step. cbn [pair_up length pair_hashes concat]. rewrite app_assoc.
    rewrite take_app_length', drop_app_length' by (rewrite length_app; lia). by rewrite pair_node, IH.
Qed.

(** One level of the loop, in place. *)
Lemma level_spec row : hashes32 row ->
  hashes_of (D64.SHA256D64 D64.standard (concat (pushed row)) 0 0 (length (pair_up row))) (length (pair_up row)) = pair_up row.
Proof.
  intros Hw. set (mem := concat (pushed row)). set (n := length (pair_up row)).
  rewrite <- (take_drop (32 * n) (D64.SHA256D64 D64.standard mem 0 0 n)).
  assert (take (32 * n) (D64.SHA256D64 D64.standard mem 0 0 n) = pair_hashes mem n) as ->
    by (apply (SHA256D64_spec n mem 0 0); [lia|unfold mem, n; rewrite pushed_room by done; lia]).
  unfold mem, n. rewrite pair_hashes_row by done. apply hashes_of_concat, pair_up_hashes.
Qed.

Lemma compute_loop_spec f : forall want row m, (length row <= f)%nat -> hashes32 row ->
  let '(hashes, mutation) := compute_loop f want row m in
  match hashes with [] => replicate 32 0 | h :: _ => h end = root_of f row /\ mutation = m || (want && any_twin f row).
Proof.
  induction f as [|f IH]; intros want row m Hf Hw; cbn [compute_loop root_of any_twin].
  - destruct row; [|cbn in Hf; lia]. by rewrite andb_false_r, orb_false_r.
  - destruct (Nat.ltb_spec 1 (length row)) as [H1|H1].
    + rewrite pushed_half, level_spec by done.
      specialize (IH want (pair_up row) (m || (want && has_twin row))).
      destruct (compute_loop f want (pair_up row) _) as [hs mu]. destruct IH as [E1 E2].
      { rewrite pair_up_length. pose proof (half_lt _ H1). lia. } { apply pair_up_hashes. }
      split; [done|]. rewrite E2. by destruct m, want, (has_twin row), (any_twin f (pair_up row)).
    + rewrite andb_false_r, orb_false_r. split; [|done]. by destruct row.
Qed.

Lemma twin_end_has_twin row : twin_end row = true -> has_twin row = true.
Proof.
  induction row as [|a|a b row IH] using pair_ind; [done..|]. cbn [twin_end has_twin].
  destruct row as [|c row]; [by intros ->|]. intros H. rewrite IH by done. apply orb_true_r.
Qed.

Lemma rows_any_twin f : forall row, existsb twin_end (rows f row) = true -> (length row <= f)%nat -> any_twin f row = true.
Proof.
  induction f as [|f IH]; intros row H Hf; [by destruct row; [|cbn in Hf; lia]|].
  cbn [rows existsb any_twin] in *. destruct (Nat.ltb_spec 1 (length row)) as [H1|H1]; cbn [andb].
  - apply orb_true_iff in H as [H|H]; [by rewrite (twin_end_has_twin _ H)|].
    rewrite (IH (pair_up row)); [apply orb_true_r|done|]. rewrite pair_up_length. pose proof (half_lt _ H1). lia.
  - by destruct row as [|? [|? ?]]; [..|cbn in H1; lia].
Qed.

(** ** Trees of different heights *)

Abbreviation depth f l := (length (branch_of f l 0)).

Lemma branch_length f : forall l i j, length (branch_of f l i) = length (branch_of f l j).
Proof.
  induction f as [|f IH]; intros l i j; cbn [branch_of]; [done|]. destruct (Nat.ltb 1 (length l)); [|done].
  cbn [length]. f_equal. apply IH.
Qed.

(** A leaf that is the hash of something that is not 64 bytes long. *)
Definition no_node (Q : list (list Z)) (h : list Z) : Prop := exists x, x ∈ Q /\ length x <> 64%nat /\ h = Hash x.

Lemma leaf_is_no_node Q l1 l2 : Forall (no_node Q) l1 -> l1 <> [] -> hashes32 l2 -> pair_inputs l2 ⊆ Q ->
  l1 = pair_up l2 -> collision_in Q.
Proof.
  intros Hl Hne Hw HQ E. destruct l1 as [|h l1]; [done|]. apply list.Forall_cons in Hl as [(x & Hx & Hlen & Eh) _].
  assert (exists y, y ∈ Q /\ length y = 64%nat /\ h = Hash y) as (y & Hy & Hly & Ey).
  { destruct l2 as [|a [|b l2]]; [done|..]; apply list.Forall_cons in Hw as [Ha Hw]; cbn [pair_up pair_inputs] in E, HQ;
      injection E as -> _.
    - exists (a ++ a). split; [set_solver|]. split; [rewrite length_app; lia|]. by rewrite pair_node.
    - apply list.Forall_cons in Hw as [Hb _]. exists (a ++ b). split; [set_solver|].
      split; [rewrite length_app; lia|]. by rewrite pair_node. }
  exists x, y. split; [done|]. split; [done|]. split; [congruence|congruence].
Qed.

Lemma deeper_collides Q f1 l1 : (length l1 <= f1)%nat -> l1 <> [] -> hashes32 l1 -> Forall (no_node Q) l1 ->
  existsb twin_end (rows f1 l1) = false -> node_inputs f1 l1 ⊆ Q ->
  forall k f2 l2, (length l2 <= f2)%nat -> l2 <> [] -> hashes32 l2 -> existsb twin_end (rows f2 l2) = false ->
  node_inputs f2 l2 ⊆ Q -> depth f2 l2 = (depth f1 l1 + S k)%nat -> root_of f1 l1 = root_of f2 l2 -> collision_in Q.
Proof.
  intros F1 N1 W1 L1 M1 Q1. induction k as [|k IH]; intros f2 l2 F2 N2 W2 M2 Q2 Hd E;
    (destruct f2 as [|f2]; [cbn in Hd; lia|]); cbn [branch_of rows root_of node_inputs existsb] in *;
    (destruct (Nat.ltb_spec 1 (length l2)) as [H2|H2]; [|cbn in Hd; lia]); cbn [length existsb] in Hd, M2;
    apply orb_false_iff in M2 as [_ M2]; apply list_subseteq_app_iff_l in Q2 as [P2 Q2];
    pose proof (half_lt _ H2); pose proof (pair_up_length l2);
    rewrite (branch_length f2 (pair_up l2) _ 0) in Hd.
  - destruct (root_inj Q f1 f2 l1 (pair_up l2) 0) as [?|El]; try done; try lia; [by apply pair_up_ne|apply pair_up_hashes|].
    by apply (leaf_is_no_node Q l1 l2).
  - apply (IH f2 (pair_up l2)); try done; try lia; [by apply pair_up_ne|apply pair_up_hashes].
Qed.

(** Trees over leaves that are hashes of something else than nodes agree on the root only when
    they agree on the leaves: no assumption on their heights. *)
Lemma roots_agree Q l1 l2 : l1 <> [] -> l2 <> [] -> hashes32 l1 -> hashes32 l2 ->
  Forall (no_node Q) l1 -> Forall (no_node Q) l2 ->
  existsb twin_end (rows (length l1) l1) = false -> existsb twin_end (rows (length l2) l2) = false ->
  node_inputs (length l1) l1 ⊆ Q -> node_inputs (length l2) l2 ⊆ Q ->
  root_of (length l1) l1 = root_of (length l2) l2 -> collision_in Q \/ l1 = l2.
Proof.
  intros N1 N2 W1 W2 L1 L2 M1 M2 Q1 Q2 E.
  destruct (lt_eq_lt_dec (depth (length l1) l1) (depth (length l2) l2)) as [[Hd|Hd]|Hd].
  - left. eapply (deeper_collides Q (length l1) l1 (le_n _) N1 W1 L1 M1 Q1 _ (length l2) l2 (le_n _)); try done.
    instantiate (1 := (depth (length l2) l2 - depth (length l1) l1 - 1)%nat). lia.
  - by apply (root_inj Q (length l1) (length l2) l1 l2 0).
  - left. eapply (deeper_collides Q (length l2) l2 (le_n _) N2 W2 L2 M2 Q2 _ (length l1) l1 (le_n _)); try done.
    instantiate (1 := (depth (length l1) l1 - depth (length l2) l2 - 1)%nat). lia.
Qed.

(** What the two results of [ComputeMerkleRoot] say of the tree. *)
Lemma ComputeMerkleRoot_result leaves : hashes32 leaves ->
  fst (ComputeMerkleRoot leaves true) = root_of (length leaves) leaves /\
  (snd (ComputeMerkleRoot leaves true) = false -> existsb twin_end (rows (length leaves) leaves) = false).
Proof.
  intros Hw. unfold ComputeMerkleRoot.
  pose proof (compute_loop_spec (length leaves) true leaves false (le_n _) Hw) as H1.
  destruct (compute_loop _ true _ _) as [h1 m1]. destruct H1 as [R1 ->]. cbn [fst snd andb orb]. split; [done|].
  intros Ht. destruct (existsb _ _) eqn:Er; [|done]. by rewrite (rows_any_twin _ _ Er (le_n _)) in Ht.
Qed.

(** [C36] The root that [ComputeMerkleRoot] finds by hashing every level in place is the root of the
    tree that [BuildMerkleTree] stores, for any number of hashes, none included; and every
    duplication that [BuildMerkleTree] reports at the end of a level is reported. *)
Theorem ComputeMerkleRoot_is_BuildMerkleTree leaves root mutated tree :
  hashes32 leaves -> BuildMerkleTree leaves = (root, mutated, tree) ->
  fst (ComputeMerkleRoot leaves true) = root /\
  (mutated = true -> snd (ComputeMerkleRoot leaves true) = true) /\
  snd (ComputeMerkleRoot leaves false) = false.
Proof.
  intros Hw E. rewrite BuildMerkleTree_spec in E by done. injection E as <- <- _. unfold ComputeMerkleRoot.
  pose proof (compute_loop_spec (length leaves) true leaves false (le_n _) Hw) as H1.
  pose proof (compute_loop_spec (length leaves) false leaves false (le_n _) Hw) as H2.
  destruct (compute_loop _ true _ _) as [h1 m1], (compute_loop _ false _ _) as [h2 m2].
  destruct H1 as [R1 ->], H2 as [_ ->]. cbn [fst snd]. split; [done|]. split; [|done].
  intros Hm. by rewrite (rows_any_twin _ _ Hm).
Qed.

Lemma ComputeMerkleRoot_is_BuildMerkleTree_witness : exists root tree,
  BuildMerkleTree [leaf 1; leaf 2; leaf 3; leaf 3] = (root, true, tree) /\
  fst (ComputeMerkleRoot [leaf 1; leaf 2; leaf 3; leaf 3] true) = root /\
  snd (ComputeMerkleRoot [leaf 1; leaf 2; leaf 3; leaf 3] true) = true.
Proof.
  destruct duplicated_end as (root & t1 & t2 & _ & E). exists root, t2. split; [exact E|].
  destruct (ComputeMerkleRoot_is_BuildMerkleTree [leaf 1; leaf 2; leaf 3; leaf 3] root true t2) as (R & M & _).
  - by repeat constructor.
  - exact E.
  - split; [exact R|exact (M eq_refl)].
Defined.
