(* ===== verification/Chain.v ===== *)
(** * Chain: [src/src/chain.h] and [chain.cpp], the block index and the active chain
    The block index is a store of [CBlockIndex] objects: a pointer is a position in [blocks], and
    objects are never freed.  [mapBlockIndex] may hold NULL entries, as the code expects.  A
    dereference of NULL, a failed assertion and an exception are [None].  From [main.cpp]:
    [AddToBlockIndex] and [FindForkInGlobalIndex]; from [pow.cpp]: [GetBlockProof]. *)
From stdpp Require Import gmap sorting.
From S2P Require Import Prelude Endian Uint256 ArithUint256 Hash Opcode Script Serialize Transaction Block.

(** ** Objects *)

(** [enum BlockStatus] *)
Definition BLOCK_VALID_HEADER : Z := 1.
Definition BLOCK_VALID_TREE : Z := 2.
Definition BLOCK_VALID_TRANSACTIONS : Z := 3.
Definition BLOCK_VALID_CHAIN : Z := 4.
Definition BLOCK_VALID_SCRIPTS : Z := 5.
Definition BLOCK_VALID_MASK : Z :=
  Z.lor (Z.lor (Z.lor (Z.lor BLOCK_VALID_HEADER BLOCK_VALID_TREE) BLOCK_VALID_TRANSACTIONS) BLOCK_VALID_CHAIN)
    BLOCK_VALID_SCRIPTS.
Definition BLOCK_FAILED_VALID : Z := 32.
Definition BLOCK_FAILED_CHILD : Z := 64.
Definition BLOCK_FAILED_MASK : Z := Z.lor BLOCK_FAILED_VALID BLOCK_FAILED_CHILD.

Abbreviation ptr := nat.

(** The fields the functions below use; those about files, supply and anchors are left out. *)
Record CBlockIndex := {
  phashBlock : option (list Z); pprev : option ptr; pskip : option ptr; nHeight : Z;
  nChainWork : uint; nTx : Z; nChainTx : Z; nStatus : Z; nSequenceId : Z;
  bi_nVersion : Z; bi_hashMerkleRoot : list Z; bi_hashFinalSaplingRoot : list Z; bi_nTime : Z; bi_nBits : Z;
  bi_nNonce : list Z; bi_nSolution : list Z
}.

(** [CBlockIndex(const CBlockHeader&)] *)
Definition CBlockIndex_of (block : CBlockHeader) : CBlockIndex := {|
  phashBlock := None; pprev := None; pskip := None; nHeight := 0; nChainWork := base_uint_zero;
  nTx := 0; nChainTx := 0; nStatus := 0; nSequenceId := 0;
  bi_nVersion := bh_nVersion block; bi_hashMerkleRoot := hashMerkleRoot block;
  bi_hashFinalSaplingRoot := hashFinalSaplingRoot block; bi_nTime := bh_nTime block; bi_nBits := bh_nBits block;
  bi_nNonce := bh_nNonce block; bi_nSolution := bh_nSolution block |}.

(** [IsValid(nUpTo)]; the assertion allows the bits of [BLOCK_VALID_MASK] only. *)
Definition IsValid (b : CBlockIndex) (nUpTo : Z) : option bool :=
  if negb (Z.land nUpTo (Z.lnot BLOCK_VALID_MASK) =? 0) then None
  else if negb (Z.land (nStatus b) BLOCK_FAILED_MASK =? 0) then Some false
  else Some (Z.land (nStatus b) BLOCK_VALID_MASK >=? nUpTo).

Definition with_status (b : CBlockIndex) (status : Z) : CBlockIndex := {|
  phashBlock := phashBlock b; pprev := pprev b; pskip := pskip b; nHeight := nHeight b; nChainWork := nChainWork b;
  nTx := nTx b; nChainTx := nChainTx b; nStatus := status; nSequenceId := nSequenceId b;
  bi_nVersion := bi_nVersion b; bi_hashMerkleRoot := bi_hashMerkleRoot b;
  bi_hashFinalSaplingRoot := bi_hashFinalSaplingRoot b; bi_nTime := bi_nTime b; bi_nBits := bi_nBits b;
  bi_nNonce := bi_nNonce b; bi_nSolution := bi_nSolution b |}.

(** [RaiseValidity(nUpTo)]: the object after it and whether it changed. *)
Definition RaiseValidity (b : CBlockIndex) (nUpTo : Z) : option (CBlockIndex * bool) :=
  if negb (Z.land nUpTo (Z.lnot BLOCK_VALID_MASK) =? 0) then None
  else if negb (Z.land (nStatus b) BLOCK_FAILED_MASK =? 0) then Some (b, false)
  else if Z.land (nStatus b) BLOCK_VALID_MASK <? nUpTo
  then Some (with_status b (Z.lor (Z.land (nStatus b) (Z.lnot BLOCK_VALID_MASK)) nUpTo), true)
  else Some (b, false).

(** [GetBlockProof(block)]: the expected number of hashes, from the claimed difficulty.  The [None]
    of the division is its exception for a zero divisor. *)
Definition GetBlockProof (nBits : Z) : option uint :=
  let r := SetCompact nBits in
  if cr_negative r || cr_overflow r || EqualTo (cr_value r) 0 then Some base_uint_zero
  else
    match div_assign (bnot (cr_value r)) (add64_assign (cr_value r) 1) with
    | None => None
    | Some q => Some (add64_assign q 1)
    end.

(** ** The index *)

Record BlockIndex := {
  blocks : list CBlockIndex;
  mapBlockIndex : gmap (list Z) (option ptr);
  pindexBestHeader : option ptr;
  setDirtyBlockIndex : gset ptr
}.

Definition empty_index : BlockIndex :=
  {| blocks := []; mapBlockIndex := ∅; pindexBestHeader := None; setDirtyBlockIndex := ∅ |}.

Definition GetBlockHash (I : BlockIndex) (p : ptr) : option (list Z) :=
  match blocks I !! p with Some b => phashBlock b | None => None end.

(** [GetBlockHeader()]; [read_solution] is the block tree database, used when the solution has been
    trimmed: [None] is its failure. *)
Definition GetBlockHeader (read_solution : list Z -> option (list Z)) (I : BlockIndex) (p : ptr) :
    option CBlockHeader :=
  match blocks I !! p with
  | None => None
  | Some b =>
    match (match pprev b with None => Some (replicate 32 0) | Some q => GetBlockHash I q end) with
    | None => None
    | Some prev =>
      match (match bi_nSolution b with
             | [] => match GetBlockHash I p with None => None | Some h => read_solution h end
             | sol => Some sol
             end) with
      | None => None
      | Some sol => Some {|
          bh_nVersion := bi_nVersion b; hashPrevBlock := prev; hashMerkleRoot := bi_hashMerkleRoot b;
          hashFinalSaplingRoot := bi_hashFinalSaplingRoot b; bh_nTime := bi_nTime b; bh_nBits := bi_nBits b;
          bh_nNonce := bi_nNonce b; bh_nSolution := sol |}
      end
    end
  end.

(** ** Ancestors *)

(** Turn the lowest '1' bit into a '0'. *)
Definition InvertLowestOne (n : Z) : Z := Z.land n (n - 1).

Definition GetSkipHeight (height : Z) : Z :=
  if height <? 2 then 0
  else if negb (Z.land height 1 =? 0) then InvertLowestOne (InvertLowestOne (height - 1)) + 1
  else InvertLowestOne height.

(** Whether the skip pointer of a block at [heightWalk] is the way to [height]. *)
Definition follow_skip (heightWalk height : Z) : bool :=
  let heightSkip := GetSkipHeight heightWalk in
  let heightSkipPrev := GetSkipHeight (heightWalk - 1) in
  (heightSkip =? height) ||
  ((heightSkip >? height) && negb ((heightSkipPrev <? heightSkip - 2) && (heightSkipPrev >=? height))).

(** The loop of [GetAncestor]; it follows pointers that are not NULL only. *)
Fixpoint ancestor_loop (fuel : nat) (I : BlockIndex) (pindexWalk : ptr) (heightWalk height : Z) : option (option ptr) :=
  match fuel with
  | O => None
  | S fuel' =>
    if heightWalk >? height then
      match blocks I !! pindexWalk with
      | None => None
      | Some b =>
        match (if follow_skip heightWalk height then pskip b else None) with
        | Some skip => ancestor_loop fuel' I skip (GetSkipHeight heightWalk) height
        | None =>
          match pprev b with
          | None => None
          | Some prev => ancestor_loop fuel' I prev (heightWalk - 1) height
          end
        end
      end
    else Some (Some pindexWalk)
  end.

(** [GetAncestor(height)]: [Some None] is NULL. *)
Definition GetAncestor (I : BlockIndex) (p : ptr) (height : Z) : option (option ptr) :=
  match blocks I !! p with
  | None => None
  | Some b =>
    if (height >? nHeight b) || (height <? 0) then Some None
    else ancestor_loop (S (Z.to_nat (nHeight b))) I p (nHeight b) height
  end.

(** [BuildSkip()]: the skip pointer of a block of the given parent and height. *)
Definition BuildSkip (I : BlockIndex) (prev : option ptr) (height : Z) : option (option ptr) :=
  match prev with
  | None => Some None
  | Some q => GetAncestor I q (GetSkipHeight height)
  end.

(** ** Adding a header *)

(** The parent found in the map, and the height and the work it gives. *)
Definition parent_of (I : BlockIndex) (miPrev : option (option ptr)) : option (option ptr * Z * uint) :=
  match miPrev with
  | Some (Some q) =>
    match blocks I !! q with
    | None => None
    | Some bq => Some (Some q, nHeight bq + 1, nChainWork bq)
    end
  | _ => Some (None, 0, base_uint_zero)
  end.

(** The object made for a header. *)
Definition new_block (I : BlockIndex) (block : CBlockHeader) (miPrev : option (option ptr)) : option CBlockIndex :=
  match parent_of I miPrev with
  | None => None
  | Some (prev, height, work) =>
    match BuildSkip I prev height, GetBlockProof (bh_nBits block) with
    | Some skip, Some proof =>
      let b := CBlockIndex_of block in
      match RaiseValidity b BLOCK_VALID_TREE with
      | None => None
      | Some (b, _) => Some {|
          phashBlock := Some (header_GetHash block); pprev := prev; pskip := skip; nHeight := height;
          nChainWork := add_assign work proof; nTx := nTx b; nChainTx := nChainTx b; nStatus := nStatus b;
          nSequenceId := 0; bi_nVersion := bi_nVersion b; bi_hashMerkleRoot := bi_hashMerkleRoot b;
          bi_hashFinalSaplingRoot := bi_hashFinalSaplingRoot b; bi_nTime := bi_nTime b; bi_nBits := bi_nBits b;
          bi_nNonce := bi_nNonce b; bi_nSolution := bi_nSolution b |}
      end
    | _, _ => None
    end
  end.

(** The best header once [p], the object [b], has been made. *)
Definition better_header (I : BlockIndex) (p : ptr) (b : CBlockIndex) : option (option ptr) :=
  match pindexBestHeader I with
  | None => Some (Some p)
  | Some best =>
    match blocks I !! best with
    | None => None
    | Some bb => Some (if ult (nChainWork bb) (nChainWork b) then Some p else Some best)
    end
  end.

(** [AddToBlockIndex(block)]: the pointer returned and the index after it.  The entry of the parent is
    looked up before the insertion and read after it, through an iterator that the contract of
    [boost::unordered_map] lets an insertion invalidate when the table grows; the model reads the entry
    as it was, which is what the nodes of that map give. *)
Definition AddToBlockIndex (I : BlockIndex) (block : CBlockHeader) : option (option ptr * BlockIndex) :=
  let hash := header_GetHash block in
  let it := mapBlockIndex I !! hash in
  let miPrev := mapBlockIndex I !! hashPrevBlock block in
  match it, miPrev with
  | Some (Some p), _ => Some (Some p, I)
  | Some None, Some None => Some (None, I)
  | _, _ =>
    match new_block I block miPrev with
    | None => None
    | Some b =>
      let p := length (blocks I) in
      match better_header I p b with
      | None => None
      | Some best => Some (Some p, {|
          blocks := blocks I ++ [b];
          mapBlockIndex := <[hash := Some p]> (mapBlockIndex I);
          pindexBestHeader := best;
          setDirtyBlockIndex := {[p]} ∪ setDirtyBlockIndex I |})
      end
    end
  end.

(** ** The median time *)

Definition nMedianTimeSpan : nat := 11.

(** The times of a block and of its ancestors, at most [n] of them. *)
Fixpoint past_times (n : nat) (I : BlockIndex) (p : option ptr) : option (list Z) :=
  match n, p with
  | S n', Some q =>
    match blocks I !! q with
    | None => None
    | Some b => match past_times n' I (pprev b) with None => None | Some l => Some (l ++ [bi_nTime b]) end
    end
  | _, _ => Some []
  end.

(** [std::sort] of the times, then the element in the middle. *)
Definition median_of (times : list Z) : Z :=
  nth (length times / 2) (merge_sort Z.le times) 0.

Definition GetMedianTimePast (I : BlockIndex) (p : ptr) : option Z :=
  match past_times nMedianTimeSpan I (Some p) with None => None | Some l => Some (median_of l) end.

(** ** The active chain ([CChain]) *)

Abbreviation CChain := (list (option nat)).

(** [at(nHeight)]: [None] is NULL. *)
Definition chain_at (vChain : CChain) (nHeight : Z) : option ptr :=
  if (nHeight <? 0) || (nHeight >=? size vChain) then None else nth (Z.to_nat nHeight) vChain None.

Definition Genesis (vChain : CChain) : option ptr := hd None vChain.
Definition Tip (vChain : CChain) : option ptr := List.last vChain None.
Definition Height (vChain : CChain) : Z := size vChain - 1.

Definition chain_eq (a b : CChain) : bool := (Height a =? Height b) && bool_decide (Tip a = Tip b).

Definition Contains (I : BlockIndex) (vChain : CChain) (p : ptr) : option bool :=
  match blocks I !! p with
  | None => None
  | Some b => Some (bool_decide (chain_at vChain (nHeight b) = Some p))
  end.

Definition Next (I : BlockIndex) (vChain : CChain) (p : ptr) : option (option ptr) :=
  match blocks I !! p, Contains I vChain p with
  | Some b, Some c => Some (if c then chain_at vChain (nHeight b + 1) else None)
  | _, _ => None
  end.

(** [vChain.resize(n)] *)
Definition resize (vChain : CChain) (n : nat) : CChain := take n vChain ++ replicate (n - length vChain) None.

(** The loop of [SetTip]: it goes back to the first block that is in place already. *)
Fixpoint set_tip_loop (fuel : nat) (I : BlockIndex) (vChain : CChain) (pindex : option ptr) : option CChain :=
  match fuel, pindex with
  | _, None => Some vChain
  | O, Some _ => None
  | S fuel', Some p =>
    match blocks I !! p with
    | None => None
    | Some b =>
      match vChain !! Z.to_nat (nHeight b) with
      | None => None
      | Some e => if bool_decide (e = Some p) then Some vChain
                  else set_tip_loop fuel' I (<[Z.to_nat (nHeight b) := Some p]> vChain) (pprev b)
      end
    end
  end.

Definition SetTip (I : BlockIndex) (vChain : CChain) (pindex : option ptr) : option CChain :=
  match pindex with
  | None => Some []
  | Some p =>
    match blocks I !! p with
    | None => None
    | Some b =>
      let n := S (Z.to_nat (nHeight b)) in
      set_tip_loop (S n) I (resize vChain n) (Some p)
    end
  end.

(** The loop of [GetLocator]; [None] is also a step that does not fit an [int]. *)
Fixpoint locator_loop (fuel : nat) (I : BlockIndex) (vChain : CChain) (pindex : option ptr) (nStep : Z)
    (vHave : list (list Z)) : option (list (list Z)) :=
  match fuel, pindex with
  | _, None => Some vHave
  | O, Some _ => None
  | S fuel', Some p =>
    match blocks I !! p, GetBlockHash I p, Contains I vChain p with
    | Some b, Some hash, Some contained =>
      let vHave := vHave ++ [hash] in
      if nHeight b =? 0 then Some vHave
      else
        let height := Z.max (nHeight b - nStep) 0 in
        match (if contained then Some (chain_at vChain height) else GetAncestor I p height) with
        | None => None
        | Some next =>
          let nStep := if size vHave >? 10 then nStep * 2 else nStep in
          if nStep >? INT32_MAX then None else locator_loop fuel' I vChain next nStep vHave
        end
    | _, _, _ => None
    end
  end.

Definition GetLocator (I : BlockIndex) (vChain : CChain) (pindex : option ptr) : option (list (list Z)) :=
  let pindex := match pindex with None => Tip vChain | Some p => Some p end in
  let fuel := match pindex with
              | Some p => match blocks I !! p with Some b => S (Z.to_nat (nHeight b)) | None => 1%nat end
              | None => O
              end in
  locator_loop fuel I vChain pindex 1 [].

(** The loop of [FindFork]. *)
Fixpoint find_fork_loop (fuel : nat) (I : BlockIndex) (vChain : CChain) (pindex : option ptr) : option (option ptr) :=
  match fuel, pindex with
  | _, None => Some None
  | O, Some _ => None
  | S fuel', Some p =>
    match blocks I !! p, Contains I vChain p with
    | Some b, Some c => if c then Some (Some p) else find_fork_loop fuel' I vChain (pprev b)
    | _, _ => None
    end
  end.

Definition FindFork (I : BlockIndex) (vChain : CChain) (pindex : option ptr) : option (option ptr) :=
  match pindex with
  | None => Some None
  | Some p =>
    match blocks I !! p with
    | None => None
    | Some b =>
      match (if nHeight b >? Height vChain then GetAncestor I p (Height vChain) else Some (Some p)) with
      | None => None
      | Some start => find_fork_loop (S (S (Z.to_nat (nHeight b)))) I vChain start
      end
    end
  end.

(** [FindForkInGlobalIndex(chain, locator)] *)
Fixpoint FindForkInGlobalIndex (I : BlockIndex) (vChain : CChain) (vHave : list (list Z)) : option (option ptr) :=
  match vHave with
  | [] => Some (Genesis vChain)
  | hash :: rest =>
    match mapBlockIndex I !! hash with
    | Some (Some p) =>
      match Contains I vChain p, GetAncestor I p (Height vChain) with
      | Some true, _ => Some (Some p)
      | Some false, Some a =>
        if bool_decide (a = Tip vChain) then Some (Tip vChain) else FindForkInGlobalIndex I vChain rest
      | _, _ => None
      end
    | _ => FindForkInGlobalIndex I vChain rest
    end
  end.

(** ** The abstract tree *)

(** [n] steps from [p] towards the genesis block. *)
Fixpoint up (bs : list CBlockIndex) (n : nat) (p : ptr) : option ptr :=
  match n with
  | O => Some p
  | S n' =>
    match bs !! p with
    | Some b => match pprev b with Some q => up bs n' q | None => None end
    | None => None
    end
  end.

(** Heights count the steps to the root, and the skip pointer is the ancestor at the skip height. *)
Definition node_ok (bs : list CBlockIndex) (p : ptr) (b : CBlockIndex) : Prop :=
  match pprev b with
  | None => nHeight b = 0 /\ pskip b = None
  | Some q => exists bq, bs !! q = Some bq /\ (q < p)%nat /\ nHeight b = nHeight bq + 1 /\
      pskip b = up bs (Z.to_nat (nHeight bq - GetSkipHeight (nHeight b))) q
  end.

Definition tree_ok (bs : list CBlockIndex) : Prop := forall p b, bs !! p = Some b -> node_ok bs p b.

(** *** Skip heights *)

Lemma land_le_l a b : 0 <= a -> 0 <= b -> Z.land a b <= a.
Proof.
  intros Ha Hb. rewrite <- (Z2N.id a), <- (Z2N.id b), <- N2Z.inj_land by done.
  apply N2Z.inj_le, N.land_le_l.
Qed.

Lemma InvertLowestOne_range n : 0 <= n -> 0 <= InvertLowestOne n <= Z.max 0 (n - 1).
Proof.
  intros H. unfold InvertLowestOne. destruct (Z.eq_dec n 0) as [->|Hn]; [rewrite Z.land_0_l; lia|].
  split; [apply Z.land_nonneg; lia|]. rewrite Z.land_comm. pose proof (land_le_l (n - 1) n ltac:(lia) ltac:(lia)). lia.
Qed.

Lemma GetSkipHeight_range h : 1 <= h -> 0 <= GetSkipHeight h < h.
Proof.
  intros H. unfold GetSkipHeight. destruct (Z.ltb_spec h 2); [lia|]. destruct (negb _) eqn:E.
  - pose proof (InvertLowestOne_range (h - 1) ltac:(lia)) as H1.
    pose proof (InvertLowestOne_range (InvertLowestOne (h - 1)) ltac:(lia)).
    destruct (Z.eq_dec h 2) as [->|]; [discriminate E|]. lia.
  - pose proof (InvertLowestOne_range h ltac:(lia)). lia.
Qed.

(** *** Steps up *)

Section Tree.
Context (bs : list CBlockIndex) (Hbs : tree_ok bs).

Lemma up_add n m p : up bs (n + m) p = match up bs n p with Some q => up bs m q | None => None end.
Proof.
  revert p. induction n as [|n IH]; intros p; [done|]. cbn [Nat.add up].
  destruct (bs !! p) as [b|]; [|done]. by destruct (pprev b).
Qed.

Lemma height_range p b : bs !! p = Some b -> 0 <= nHeight b <= Z.of_nat p.
Proof.
  revert b. induction p as [p IH] using lt_wf_ind. intros b Hb. pose proof (Hbs p b Hb) as H. unfold node_ok in H.
  destruct (pprev b) as [q|]; [|destruct H; lia]. destruct H as (bq & Hq & Hlt & Hh & _).
  specialize (IH q Hlt bq Hq). lia.
Qed.

Lemma up_height n : forall p b, bs !! p = Some b -> Z.of_nat n <= nHeight b ->
  exists q bq, up bs n p = Some q /\ bs !! q = Some bq /\ nHeight bq = nHeight b - Z.of_nat n /\ (q <= p)%nat.
Proof.
  induction n as [|n IH]; intros p b Hb Hn.
  - exists p, b. cbn. repeat split; [done|lia|lia].
  - cbn [up]. rewrite Hb. pose proof (Hbs p b Hb) as H. unfold node_ok in H.
    destruct (pprev b) as [q|]; [|destruct H; lia]. destruct H as (bq & Hq & Hlt & Hh & _).
    destruct (IH q bq Hq) as (r & br & Hr & Hbr & Hhr & Hle); [lia|]. exists r, br. repeat split; [done..|lia|lia].
Qed.

Lemma up_beyond n : forall p b, bs !! p = Some b -> nHeight b < Z.of_nat n -> up bs n p = None.
Proof.
  induction n as [|n IH]; intros p b Hb Hn; [pose proof (height_range p b Hb); lia|].
  cbn [up]. rewrite Hb. pose proof (Hbs p b Hb) as H. unfold node_ok in H.
  destruct (pprev b) as [q|]; [|done]. destruct H as (bq & Hq & _ & Hh & _). apply (IH q bq Hq). lia.
Qed.

(** The skip pointer is where the steps down to the skip height lead. *)
Lemma pskip_up p b : bs !! p = Some b -> 1 <= nHeight b ->
  pskip b = up bs (Z.to_nat (nHeight b - GetSkipHeight (nHeight b))) p /\ exists q, pprev b = Some q.
Proof.
  intros Hb H1. pose proof (Hbs p b Hb) as H. unfold node_ok in H.
  destruct (pprev b) as [q|] eqn:Ep; [|destruct H; lia]. destruct H as (bq & Hq & Hlt & Hh & ->). split; [|eauto].
  pose proof (GetSkipHeight_range (nHeight b) H1).
  replace (Z.to_nat (nHeight b - GetSkipHeight (nHeight b)))
    with (S (Z.to_nat (nHeight bq - GetSkipHeight (nHeight b)))) by lia.
  cbn [up]. by rewrite Hb, Ep.
Qed.
End Tree.

(** ** [GetAncestor] *)

Lemma follow_skip_height walk height : follow_skip walk height = true -> height <= GetSkipHeight walk.
Proof. unfold follow_skip. intros H. rewrite Z.gtb_ltb in H. destruct (Z.eqb_spec (GetSkipHeight walk) height); [lia|].
  cbn [orb] in H. destruct (Z.ltb_spec height (GetSkipHeight walk)); [lia|done].
Qed.

Lemma ancestor_loop_spec I : tree_ok (blocks I) -> forall fuel p b height, blocks I !! p = Some b ->
  0 <= height <= nHeight b -> (Z.to_nat (nHeight b - height) < fuel)%nat ->
  ancestor_loop fuel I p (nHeight b) height = Some (up (blocks I) (Z.to_nat (nHeight b - height)) p).
Proof.
  intros Hok. induction fuel as [|fuel IH]; intros p b height Hb Hh Hf; [lia|].
  cbn [ancestor_loop]. rewrite Z.gtb_ltb. destruct (Z.ltb_spec height (nHeight b)) as [Hlt|].
  2: { replace (Z.to_nat (nHeight b - height)) with O by lia. done. }
  rewrite Hb. destruct (pskip_up (blocks I) Hok p b Hb ltac:(lia)) as [Hskip [q Hq]].
  pose proof (GetSkipHeight_range (nHeight b) ltac:(lia)) as Hr.
  destruct (up_height (blocks I) Hok (Z.to_nat (nHeight b - GetSkipHeight (nHeight b))) p b Hb ltac:(lia))
    as (s & bsk & Hs & Hbs & Hhs & _).
  destruct (follow_skip (nHeight b) height) eqn:Ef.
  - apply follow_skip_height in Ef. rewrite Hskip, Hs.
    replace (GetSkipHeight (nHeight b)) with (nHeight bsk) by lia. rewrite (IH s bsk height Hbs) by lia.
    replace (Z.to_nat (nHeight b - height)) with
      (Z.to_nat (nHeight b - GetSkipHeight (nHeight b)) + Z.to_nat (nHeight bsk - height))%nat by lia.
    by rewrite up_add, Hs.
  - rewrite Hq. pose proof (Hok p b Hb) as H. unfold node_ok in H. rewrite Hq in H.
    destruct H as (bq & Hbq & _ & Hhq & _). replace (nHeight b - 1) with (nHeight bq) by lia.
    rewrite (IH q bq height Hbq) by lia.
    replace (Z.to_nat (nHeight b - height)) with (S (Z.to_nat (nHeight bq - height))) by lia.
    cbn [up]. by rewrite Hb, Hq.
Qed.

(** The reference: walk the parents one by one. *)
Definition ancestor_at (bs : list CBlockIndex) (p : ptr) (height : Z) : option ptr :=
  match bs !! p with
  | Some b => if (0 <=? height) && (height <=? nHeight b) then up bs (Z.to_nat (nHeight b - height)) p else None
  | None => None
  end.

Lemma GetAncestor_spec I p b height : tree_ok (blocks I) -> blocks I !! p = Some b ->
  GetAncestor I p height = Some (ancestor_at (blocks I) p height).
Proof.
  intros Hok Hb. unfold GetAncestor, ancestor_at. rewrite Hb, Z.gtb_ltb.
  destruct (Z.ltb_spec (nHeight b) height), (Z.ltb_spec height 0), (Z.leb_spec 0 height), (Z.leb_spec height (nHeight b));
    try lia; try done. cbn [orb andb]. apply ancestor_loop_spec; [done..|lia|lia].
Qed.

(** ** Work *)

(** The target claimed by a header; [None] when it is negative, too large or zero. *)
Definition claimed_target (nBits : Z) : option Z :=
  let r := SetCompact nBits in
  if cr_negative r || cr_overflow r || (val (cr_value r) =? 0) then None else Some (val (cr_value r)).

Definition work_of (nBits : Z) : Z :=
  match claimed_target nBits with Some t => 2 ^ 256 / (t + 1) | None => 0 end.

Lemma target_not_max nBits : 0 <= nBits < 2 ^ 32 -> val (cr_value (SetCompact nBits)) <> 2 ^ 256 - 1.
Proof.
  intros Hn. destruct (SetCompact_fields nBits Hn) as (_ & -> & _). unfold compact_number.
  assert (0 <= compact_mantissa nBits < 2 ^ 23) by (apply Z.mod_pos_bound; lia).
  destruct (Z.leb_spec (compact_size nBits) 3) as [|Hs].
  - assert (0 <= compact_mantissa nBits / 2 ^ (8 * (3 - compact_size nBits)) <= compact_mantissa nBits).
    { assert (0 < 2 ^ (8 * (3 - compact_size nBits))) by (apply Z.pow_pos_nonneg; lia).
      split; [apply Z.div_pos; lia|apply Z.div_le_upper_bound; nia]. }
    rewrite Z.mod_small by lia. lia.
  - replace (8 * (compact_size nBits - 3)) with (1 + (8 * (compact_size nBits - 3) - 1)) by lia.
    rewrite Z.pow_add_r, Z.pow_1_r by lia. set (k := 2 ^ (8 * (compact_size nBits - 3) - 1)).
    intros E. pose proof (Z.div_mod (compact_mantissa nBits * (2 * k)) (2 ^ 256) ltac:(lia)) as D.
    rewrite E in D. lia.
Qed.

Lemma GetBlockProof_spec nBits : 0 <= nBits < 2 ^ 32 -> exists w,
  GetBlockProof nBits = Some w /\ uint_ok w /\ val w = work_of nBits.
Proof.
  intros Hn. destruct (SetCompact_fields nBits Hn) as (Hok & _). pose proof (target_not_max nBits Hn) as Hmax.
  unfold GetBlockProof, work_of, claimed_target.
  set (r := SetCompact nBits) in *. rewrite EqualTo_spec by (done || lia).
  destruct (_ || _ || _) eqn:E; [exists base_uint_zero; split; [done|split; [apply zero_ok|apply val_zero]]|].
  apply orb_false_iff in E as [_ E]. apply Z.eqb_neq in E. pose proof (val_bound _ Hok) as Hb.
  assert (forall a, uint_ok a -> uint_ok (add64_assign a 1) /\ val (add64_assign a 1) = (val a + 1) mod 2 ^ 256) as H1.
  { intros a Ha. unfold add64_assign. split; [apply add_assign_ok; [done|apply base_uint_of_ok]|].
    rewrite add_assign_val by (done || apply base_uint_of_ok). by rewrite val_base_uint_of by lia. }
  destruct (H1 _ Hok) as [Hok1 Hv1]. set (t := val (cr_value r)) in *. rewrite Z.mod_small in Hv1 by lia.
  destruct (div_assign_spec (bnot (cr_value r)) (add64_assign (cr_value r) 1)) as (q & Hq & Hqok & Hqv);
    [by apply bnot_ok|done|lia|]. rewrite Hq. exists (add64_assign q 1). destruct (H1 q Hqok) as [? ->].
  split; [done|]. split; [done|]. rewrite Hqv, bnot_val, Hv1 by done. fold t.
  assert ((2 ^ 256 - 1 - t) / (t + 1) + 1 = 2 ^ 256 / (t + 1)) as ->.
  { rewrite <- Z.div_add by lia. f_equal. lia. }
  apply Z.mod_small. split; [apply Z.div_pos; lia|apply Z.div_lt_upper_bound; lia].
Qed.

Lemma work_of_range nBits : 0 <= nBits < 2 ^ 32 -> 0 <= work_of nBits < 2 ^ 256.
Proof. intros H. destruct (GetBlockProof_spec nBits H) as (w & _ & Hw & <-). by apply val_bound. Qed.

(** ** The invariant of the index *)

(** [b] is the object of the header [block]: its fields are those of the header and its parent, if
    it is known, is the object of the header named by [hashPrevBlock]. *)
Definition made_from (bs : list CBlockIndex) (block : CBlockHeader) (b : CBlockIndex) : Prop :=
  phashBlock b = Some (header_GetHash block) /\ bi_nVersion b = bh_nVersion block /\
  bi_hashMerkleRoot b = hashMerkleRoot block /\ bi_hashFinalSaplingRoot b = hashFinalSaplingRoot block /\
  bi_nTime b = bh_nTime block /\ bi_nBits b = bh_nBits block /\ bi_nNonce b = bh_nNonce block /\
  bi_nSolution b = bh_nSolution block /\ 0 <= bh_nBits block < 2 ^ 32 /\
  (forall q, pprev b = Some q -> exists bq, bs !! q = Some bq /\ phashBlock bq = Some (hashPrevBlock block)).

(** The chain work is that of the parent and the work of the header, on 256 bits. *)
Definition work_ok (bs : list CBlockIndex) (b : CBlockIndex) : Prop :=
  uint_ok (nChainWork b) /\
  val (nChainWork b) =
    ((match pprev b with
      | Some q => match bs !! q with Some bq => val (nChainWork bq) | None => 0 end
      | None => 0
      end) + work_of (bi_nBits b)) mod 2 ^ 256.

Record index_ok (I : BlockIndex) : Prop := {
  io_tree : tree_ok (blocks I);
  io_made : forall p b, blocks I !! p = Some b -> exists block, made_from (blocks I) block b;
  io_work : forall p b, blocks I !! p = Some b -> work_ok (blocks I) b;
  io_map : forall h p, mapBlockIndex I !! h = Some (Some p) ->
    exists b, blocks I !! p = Some b /\ phashBlock b = Some h;
  io_all : forall p b h, blocks I !! p = Some b -> phashBlock b = Some h -> mapBlockIndex I !! h = Some (Some p);
  io_best : match pindexBestHeader I with
            | None => blocks I = []
            | Some q => exists bq, blocks I !! q = Some bq /\
                forall p b, blocks I !! p = Some b -> val (nChainWork b) <= val (nChainWork bq)
            end
}.

Lemma empty_index_ok : index_ok empty_index.
Proof. by split. Qed.

Section Extend.
Context (bs : list CBlockIndex) (new : CBlockIndex) (Hbs : tree_ok bs).

Lemma lookup_old (p : ptr) b : bs !! p = Some b -> (bs ++ [new]) !! p = Some b.
Proof. apply lookup_app_l_Some. Qed.

Lemma lookup_ext (p : ptr) b : (bs ++ [new]) !! p = Some b -> bs !! p = Some b \/ (p = length bs /\ b = new).
Proof.
  intros H. apply lookup_app_Some in H as [H|[Hl H]]; [by left|right].
  apply list_lookup_singleton_Some in H as [H ->]. split; [lia|done].
Qed.

Lemma up_ext n : forall p b, bs !! p = Some b -> up (bs ++ [new]) n p = up bs n p.
Proof.
  induction n as [|n IH]; intros p b Hb; [done|]. cbn [up]. rewrite (lookup_old p b Hb), Hb.
  pose proof (Hbs p b Hb) as H. unfold node_ok in H. destruct (pprev b) as [q|]; [|done].
  destruct H as (bq & Hq & _). by apply (IH q bq).
Qed.

Lemma node_ok_ext p b : bs !! p = Some b -> node_ok (bs ++ [new]) p b.
Proof.
  intros Hb. pose proof (Hbs p b Hb) as H. unfold node_ok in *. destruct (pprev b) as [q|]; [|done].
  destruct H as (bq & Hq & Hlt & Hh & Hs). exists bq. rewrite (up_ext _ q bq Hq). repeat split; try done.
  by apply lookup_old.
Qed.

Lemma made_from_ext block b : made_from bs block b -> made_from (bs ++ [new]) block b.
Proof.
  intros (? & ? & ? & ? & ? & ? & ? & ? & ? & H). repeat (split; [done|]).
  intros q Hq. destruct (H q Hq) as (bq & Hb & ?). exists bq. split; [by apply lookup_old|done].
Qed.

Lemma work_ok_ext p b : bs !! p = Some b -> work_ok bs b -> work_ok (bs ++ [new]) b.
Proof.
  intros Hb [H1 H2]. split; [done|]. rewrite H2. pose proof (Hbs p b Hb) as H. unfold node_ok in H.
  destruct (pprev b) as [q|]; [|done]. destruct H as (bq & Hq & _). by rewrite (lookup_old q bq Hq), Hq.
Qed.
End Extend.

Ltac bi_cbn := cbn [phashBlock pprev pskip nHeight nChainWork nTx nChainTx nStatus nSequenceId bi_nVersion
  bi_hashMerkleRoot bi_hashFinalSaplingRoot bi_nTime bi_nBits bi_nNonce bi_nSolution with_status CBlockIndex_of
  blocks mapBlockIndex pindexBestHeader setDirtyBlockIndex].

(** What the new object is made of. *)
Lemma new_block_spec I block : index_ok I -> 0 <= bh_nBits block < 2 ^ 32 ->
  exists b, new_block I block (mapBlockIndex I !! hashPrevBlock block) = Some b /\
    made_from (blocks I) block b /\ work_ok (blocks I) b /\ node_ok (blocks I) (length (blocks I)) b /\
    pprev b = mjoin (mapBlockIndex I !! hashPrevBlock block) /\ IsValid b BLOCK_VALID_TREE = Some true.
Proof.
  intros [Ht Hm Hw Hmap _ _] Hbits. unfold new_block.
  destruct (GetBlockProof_spec _ Hbits) as (w & Hpr & Hwok & Hwv).
  destruct (mapBlockIndex I !! hashPrevBlock block) as [[q|]|] eqn:Ep; cbn [parent_of].
  - destruct (Hmap _ _ Ep) as (bq & Hq & Hhash). rewrite Hq. cbn [BuildSkip].
    pose proof (height_range (blocks I) Ht q bq Hq) as Hh.
    pose proof (GetSkipHeight_range (nHeight bq + 1) ltac:(lia)) as Hs.
    rewrite (GetAncestor_spec I q bq _ Ht Hq), Hpr. unfold ancestor_at. rewrite Hq.
    destruct (Z.leb_spec 0 (GetSkipHeight (nHeight bq + 1))); [|lia].
    destruct (Z.leb_spec (GetSkipHeight (nHeight bq + 1)) (nHeight bq)); [|lia]. cbn [andb].
    eexists. split; [reflexivity|]. unfold made_from, work_ok, node_ok. bi_cbn. rewrite Hq.
    split; [repeat (split; [done|]); intros ? [= <-]; by exists bq|].
    destruct (Hw q bq Hq) as [Hqok _]. rewrite add_assign_val, Hwv by done.
    split; [split; [by apply add_assign_ok|done]|]. split; [|done].
    exists bq. repeat split. by apply lookup_lt_Some in Hq.
  - rewrite Hpr. cbn [BuildSkip]. eexists. split; [reflexivity|]. unfold made_from, work_ok, node_ok. bi_cbn.
    split; [by repeat (split; [done|])|]. rewrite add_assign_val, Hwv, val_zero by (done || apply zero_ok).
    split; [split; [apply add_assign_ok; [apply zero_ok|done]|done]|done].
  - rewrite Hpr. cbn [BuildSkip]. eexists. split; [reflexivity|]. unfold made_from, work_ok, node_ok. bi_cbn.
    split; [by repeat (split; [done|])|]. rewrite add_assign_val, Hwv, val_zero by (done || apply zero_ok).
    split; [split; [apply add_assign_ok; [apply zero_ok|done]|done]|done].
Qed.

Lemma better_header_spec I b : index_ok I -> uint_ok (nChainWork b) -> exists best,
  better_header I (length (blocks I)) b = Some (Some best) /\
  exists bb, (blocks I ++ [b]) !! best = Some bb /\
    forall p c, (blocks I ++ [b]) !! p = Some c -> val (nChainWork c) <= val (nChainWork bb).
Proof.
  intros [Ht _ Hw _ _ Hb] Hok. unfold better_header. destruct (pindexBestHeader I) as [q|].
  - destruct Hb as (bq & Hq & Hmax). rewrite Hq. destruct (Hw q bq Hq) as [Hqok _]. rewrite ult_spec by done.
    destruct (Z.ltb_spec (val (nChainWork bq)) (val (nChainWork b))).
    + eexists. split; [done|]. exists b. split; [by apply list_lookup_middle|].
      intros p c Hc. apply lookup_ext in Hc as [Hc|[_ ->]]; [|lia]. specialize (Hmax p c Hc). lia.
    + eexists. split; [done|]. exists bq. split; [by apply lookup_old|].
      intros p c Hc. apply lookup_ext in Hc as [Hc|[_ ->]]; [by eapply Hmax|lia].
  - eexists. split; [done|]. rewrite Hb. exists b. split; [done|]. intros p c Hc.
    apply lookup_ext in Hc as [Hc|[_ ->]]; [done|lia].
Qed.

Lemma add_block_ok I block b best : index_ok I -> made_from (blocks I) block b -> work_ok (blocks I) b ->
  node_ok (blocks I) (length (blocks I)) b ->
  (forall p, mapBlockIndex I !! header_GetHash block <> Some (Some p)) ->
  (exists bb, (blocks I ++ [b]) !! best = Some bb /\
    forall p c, (blocks I ++ [b]) !! p = Some c -> val (nChainWork c) <= val (nChainWork bb)) ->
  index_ok {| blocks := blocks I ++ [b];
              mapBlockIndex := <[header_GetHash block := Some (length (blocks I))]> (mapBlockIndex I);
              pindexBestHeader := Some best;
              setDirtyBlockIndex := {[length (blocks I)]} ∪ setDirtyBlockIndex I |}.
Proof.
  intros [Ht Hm Hw Hmap Hall _] Hmb Hwb Hnb Hfresh Hbest.
  assert ((blocks I ++ [b]) !! length (blocks I) = Some b) as Hnew by (by apply list_lookup_middle).
  assert (node_ok (blocks I ++ [b]) (length (blocks I)) b) as Hnb'.
  { unfold node_ok in *. destruct (pprev b) as [q|]; [|done]. destruct Hnb as (bq & Hq & Hlt & Hh & Hs).
    exists bq. rewrite (up_ext _ _ Ht _ q bq Hq). repeat split; try done. by apply lookup_old. }
  assert (work_ok (blocks I ++ [b]) b) as Hwb'.
  { destruct Hwb as [Hok Hv]. split; [done|]. rewrite Hv. unfold node_ok in Hnb. destruct (pprev b) as [q|]; [|done].
    destruct Hnb as (bq & Hq & _). by rewrite Hq, (lookup_old _ _ q bq Hq). }
  split; bi_cbn.
  - intros p c Hc. destruct (lookup_ext _ _ _ _ Hc) as [Hc'|[-> ->]]; [by apply node_ok_ext|done].
  - intros p c Hc. destruct (lookup_ext _ _ _ _ Hc) as [Hc'|[-> ->]].
    + destruct (Hm p c Hc') as [bl H]. exists bl. by apply made_from_ext.
    + exists block. by apply made_from_ext.
  - intros p c Hc. destruct (lookup_ext _ _ _ _ Hc) as [Hc'|[-> ->]]; [|done].
    eapply work_ok_ext; [done|exact Hc'|by eapply Hw].
  - intros h p Hp. apply lookup_insert_Some in Hp as [[<- [= <-]]|[Hne Hp]].
    + exists b. split; [done|]. apply Hmb.
    + destruct (Hmap h p Hp) as (c & Hc & Hh). exists c. split; [by apply lookup_old|done].
  - intros p c h Hc Hh. destruct (lookup_ext _ _ _ _ Hc) as [Hc'|[-> ->]].
    + pose proof (Hall p c h Hc' Hh) as H. rewrite lookup_insert_ne; [done|]. intros <-. by eapply Hfresh.
    + destruct Hmb as [E _]. rewrite E in Hh. injection Hh as <-. by rewrite lookup_insert_eq.
  - done.
Qed.

(** * Properties *)

(** [GetAncestor] through the skip pointers is the walk over the parents, for every block of a
    well-formed index and every height; it terminates, and its assertion never fails. *)
Theorem GetAncestor_is_walk I p b height : index_ok I -> blocks I !! p = Some b ->
  GetAncestor I p height =
    Some (if (0 <=? height) && (height <=? nHeight b)
          then up (blocks I) (Z.to_nat (nHeight b - height)) p else None) /\
  (0 <= height <= nHeight b -> exists q bq, GetAncestor I p height = Some (Some q) /\
     blocks I !! q = Some bq /\ nHeight bq = height).
Proof.
  intros Hok Hb. pose proof (io_tree I Hok) as Ht. rewrite (GetAncestor_spec I p b height Ht Hb).
  unfold ancestor_at. rewrite Hb. split; [done|]. intros Hh.
  destruct (Z.leb_spec 0 height), (Z.leb_spec height (nHeight b)); try lia. cbn [andb].
  destruct (up_height (blocks I) Ht (Z.to_nat (nHeight b - height)) p b Hb ltac:(lia)) as (q & bq & -> & Hq & Hhq & _).
  exists q, bq. repeat split; [done|lia].
Qed.

(** [C21] [AddToBlockIndex] keeps the index well formed (heights, skip pointers, chain work, the map and
    the objects agree, the best header has the most work), whatever NULL entries the map has, and
    never fails: it returns NULL only when the map has NULL entries for the header and for its
    parent, and otherwise the object of this header; the objects that were there are not touched,
    and a new one has the parent the map had and is valid as TREE. *)
Theorem AddToBlockIndex_ok I block : index_ok I -> 0 <= bh_nBits block < 2 ^ 32 -> exists r I',
  AddToBlockIndex I block = Some (r, I') /\ index_ok I' /\ blocks I `prefix_of` blocks I' /\
  (r = None <-> mapBlockIndex I !! header_GetHash block = Some None /\
                mapBlockIndex I !! hashPrevBlock block = Some None) /\
  (forall p, r = Some p -> exists b, blocks I' !! p = Some b /\
     phashBlock b = Some (header_GetHash block) /\ mapBlockIndex I' !! header_GetHash block = Some (Some p) /\
     (p = length (blocks I) -> made_from (blocks I) block b /\
        pprev b = mjoin (mapBlockIndex I !! hashPrevBlock block) /\ IsValid b BLOCK_VALID_TREE = Some true)).
Proof.
  intros Hok Hbits. unfold AddToBlockIndex. set (hash := header_GetHash block).
  destruct (new_block_spec I block Hok Hbits) as (b & Hnew & Hmb & Hwb & Hnb & Hpp & Hval).
  destruct (better_header_spec I b Hok (proj1 Hwb)) as (best & Hbest & Hmax).
  assert ((forall p, mapBlockIndex I !! hash <> Some (Some p)) ->
    (mapBlockIndex I !! hash = Some None -> mapBlockIndex I !! hashPrevBlock block <> Some None) -> exists r I',
    Some (Some (length (blocks I)), {| blocks := blocks I ++ [b]; mapBlockIndex := <[hash := Some (length (blocks I))]> (mapBlockIndex I);
      pindexBestHeader := Some best; setDirtyBlockIndex := {[length (blocks I)]} ∪ setDirtyBlockIndex I |}) = Some (r, I') /\
    index_ok I' /\ blocks I `prefix_of` blocks I' /\
    (r = None <-> mapBlockIndex I !! hash = Some None /\ mapBlockIndex I !! hashPrevBlock block = Some None) /\
    (forall p, r = Some p -> exists b, blocks I' !! p = Some b /\ phashBlock b = Some hash /\
       mapBlockIndex I' !! hash = Some (Some p) /\
       (p = length (blocks I) -> made_from (blocks I) block b /\
          pprev b = mjoin (mapBlockIndex I !! hashPrevBlock block) /\ IsValid b BLOCK_VALID_TREE = Some true))) as Hadd.
  { intros Hfresh Hnull. do 2 eexists. split; [reflexivity|]. split; [by apply add_block_ok|].
    split; [by apply prefix_app_r|]. split; [split; [done|intros [H1 H2]; by destruct (Hnull H1)]|].
    intros p [= <-]. exists b. split; [by apply list_lookup_middle|]. split; [apply Hmb|].
    bi_cbn. split; [by rewrite lookup_insert_eq|done]. }
  destruct (mapBlockIndex I !! hash) as [[p|]|] eqn:Eit.
  - exists (Some p), I. split; [done|]. split; [done|]. split; [done|]. split; [split; [done|by intros [? _]]|].
    intros p' [= <-]. destruct (io_map I Hok hash p Eit) as (c & Hc & Hh). exists c.
    repeat (split; [done|]). intros ->. apply lookup_lt_Some in Hc. lia.
  - destruct (mapBlockIndex I !! hashPrevBlock block) as [[q|]|] eqn:Epr.
    + rewrite Hnew, Hbest. apply Hadd; done.
    + exists None, I. repeat (split; [done|]). done.
    + rewrite Hnew, Hbest. apply Hadd; done.
  - rewrite Hnew, Hbest. apply Hadd; done.
Qed.

(** The header that [GetBlockHeader] rebuilds for an object with a parent and its solution is one
    that hashes to the key of the object. *)
Theorem GetBlockHeader_hash read_solution I p b : index_ok I -> blocks I !! p = Some b ->
  pprev b <> None -> bi_nSolution b <> [] ->
  exists block, GetBlockHeader read_solution I p = Some block /\ phashBlock b = Some (header_GetHash block).
Proof.
  intros Hok Hb Hp Hs. destruct (io_made I Hok p b Hb) as (block & H). destruct (pprev b) as [q|] eqn:Eq; [|done].
  destruct H as (Hh & E1 & E2 & E3 & E4 & E5 & E6 & E7 & _ & Hpar). destruct (Hpar q Eq) as (bq & Hbq & Hhq).
  exists block. split; [|done]. unfold GetBlockHeader, GetBlockHash. rewrite Hb, Eq, Hbq, Hhq.
  destruct (bi_nSolution b) eqn:Es; [done|]. rewrite E1, E2, E3, E4, E5, E6, E7. by destruct block.
Qed.

(** ** The active chain *)

(** [v] is the chain to [t]: at each height up to that of [t], the ancestor of [t] there. *)
Definition chain_to (bs : list CBlockIndex) (v : CChain) (t : ptr) : Prop :=
  exists b, bs !! t = Some b /\ length v = S (Z.to_nat (nHeight b)) /\
    forall h, (h < length v)%nat -> v !! h = Some (ancestor_at bs t (Z.of_nat h)).

Section Chains.
Context (I : BlockIndex) (Hbs : tree_ok (blocks I)).
Implicit Types (p q t : ptr) (v : CChain).
Abbreviation bs := (blocks I).

Lemma ancestor_range p h q : ancestor_at bs p h = Some q ->
  exists b bq, bs !! p = Some b /\ bs !! q = Some bq /\ 0 <= h <= nHeight b /\ nHeight bq = h.
Proof.
  unfold ancestor_at. intros H. destruct (bs !! p) as [b|] eqn:Hb; [|done].
  destruct (Z.leb_spec 0 h), (Z.leb_spec h (nHeight b)); try done. cbn [andb] in H.
  destruct (up_height bs Hbs (Z.to_nat (nHeight b - h)) p b Hb ltac:(lia)) as (r & br & Hr & Hbr & Hh & _).
  rewrite H in Hr. injection Hr as <-. exists b, br. repeat split; [done|lia|lia|lia].
Qed.

Lemma ancestor_total p b h : bs !! p = Some b -> 0 <= h <= nHeight b -> exists q, ancestor_at bs p h = Some q.
Proof.
  intros Hb Hh. unfold ancestor_at. rewrite Hb.
  destruct (Z.leb_spec 0 h), (Z.leb_spec h (nHeight b)); try lia. cbn [andb].
  destruct (up_height bs Hbs (Z.to_nat (nHeight b - h)) p b Hb ltac:(lia)) as (q & _ & Hq & _). by exists q.
Qed.

Lemma ancestor_self p b : bs !! p = Some b -> ancestor_at bs p (nHeight b) = Some p.
Proof.
  intros Hb. unfold ancestor_at. rewrite Hb. pose proof (height_range bs Hbs p b Hb).
  destruct (Z.leb_spec 0 (nHeight b)), (Z.leb_spec (nHeight b) (nHeight b)); try lia. cbn [andb].
  by rewrite Z.sub_diag.
Qed.

(** The ancestors of an ancestor. *)
Lemma ancestor_trans p h q h' : ancestor_at bs p h = Some q -> h' <= h -> ancestor_at bs q h' = ancestor_at bs p h'.
Proof.
  intros Hq Hle. destruct (ancestor_range p h q Hq) as (b & bq & Hb & Hbq & Hh & Hhq). unfold ancestor_at in *.
  rewrite Hb in *. rewrite Hbq.
  destruct (Z.leb_spec 0 h), (Z.leb_spec h (nHeight b)); try lia. cbn [andb] in Hq.
  destruct (Z.leb_spec 0 h'); [|done].
  destruct (Z.leb_spec h' (nHeight b)), (Z.leb_spec h' (nHeight bq)); try lia. cbn [andb].
  replace (Z.to_nat (nHeight b - h')) with (Z.to_nat (nHeight b - h) + Z.to_nat (nHeight bq - h'))%nat by lia.
  by rewrite up_add, Hq.
Qed.

Lemma ancestor_pprev p b h : bs !! p = Some b -> 0 <= h < nHeight b -> exists q bq, pprev b = Some q /\
  bs !! q = Some bq /\ nHeight bq = nHeight b - 1 /\ ancestor_at bs p h = ancestor_at bs q h.
Proof.
  intros Hb Hh. pose proof (Hbs p b Hb) as H. unfold node_ok in H. destruct (pprev b) as [q|] eqn:Ep; [|destruct H; lia].
  destruct H as (bq & Hq & _ & Hhq & _). exists q, bq. split; [done|]. split; [done|]. split; [lia|].
  unfold ancestor_at. rewrite Hb, Hq.
  destruct (Z.leb_spec 0 h), (Z.leb_spec h (nHeight b)), (Z.leb_spec h (nHeight bq)); try lia.
  cbn [andb]. replace (Z.to_nat (nHeight b - h)) with (S (Z.to_nat (nHeight bq - h))) by lia. cbn [up]. by rewrite Hb, Ep.
Qed.

Lemma pprev_root p b : bs !! p = Some b -> nHeight b = 0 -> pprev b = None.
Proof.
  intros Hb H0. pose proof (Hbs p b Hb) as H. unfold node_ok in H. destruct (pprev b) as [q|]; [|done].
  destruct H as (bq & Hq & _ & Hh & _). pose proof (height_range bs Hbs q bq Hq). lia.
Qed.

(** *** [SetTip] *)

(** The loop at [q], of height [hq]: above, the entries are those of the new tip [p]; from there
    down, the first [lo] are those of the old tip [t] and the others are NULL. *)
Lemma set_tip_loop_spec p bp t lo n : bs !! p = Some bp -> n = S (Z.to_nat (nHeight bp)) ->
  forall fuel v q bq, length v = n -> bs !! q = Some bq -> ancestor_at bs p (nHeight bq) = Some q ->
  (Z.to_nat (nHeight bq) < fuel)%nat ->
  (forall h, (Z.to_nat (nHeight bq) < h < n)%nat -> v !! h = Some (ancestor_at bs p (Z.of_nat h))) ->
  (forall h, (h <= Z.to_nat (nHeight bq))%nat ->
     v !! h = Some (if (h <? lo)%nat then ancestor_at bs t (Z.of_nat h) else None)) ->
  exists v', set_tip_loop fuel I v (Some q) = Some v' /\ length v' = n /\
    forall h, (h < n)%nat -> v' !! h = Some (ancestor_at bs p (Z.of_nat h)).
Proof.
  intros Hp Hn. pose proof (height_range bs Hbs p bp Hp) as Hr.
  induction fuel as [|fuel IH]; intros v q bq Hl Hq Ha Hf Hhi Hlo; [lia|].
  destruct (ancestor_range p (nHeight bq) q Ha) as (bp' & _ & Hp' & _ & Hhq & _). rewrite Hp in Hp'. injection Hp' as <-.
  cbn [set_tip_loop]. rewrite Hq, (Hlo (Z.to_nat (nHeight bq))) by lia.
  case_bool_decide as Ee.
  - exists v. split; [done|]. split; [done|]. intros h Hh.
    destruct (Nat.ltb_spec (Z.to_nat (nHeight bq)) lo) as [Hlt|]; [|done]. rewrite Z2Nat.id in Ee by lia.
    destruct (Nat.le_gt_cases h (Z.to_nat (nHeight bq))) as [Hle|]; [|apply Hhi; lia].
    rewrite Hlo by done. destruct (Nat.ltb_spec h lo); [|lia].
    by rewrite <- (ancestor_trans t _ q _ Ee), <- (ancestor_trans p _ q _ Ha) by lia.
  - set (v' := <[Z.to_nat (nHeight bq) := Some q]> v).
    assert (length v' = n) as Hl' by (unfold v'; by rewrite length_insert).
    assert (v' !! Z.to_nat (nHeight bq) = Some (Some q)) as Hset by (apply list_lookup_insert_eq; lia).
    assert (forall h, h <> Z.to_nat (nHeight bq) -> v' !! h = v !! h) as Hother by (intros h Hne; by apply list_lookup_insert_ne).
    assert (forall h, (Z.to_nat (nHeight bq) <= h < n)%nat -> v' !! h = Some (ancestor_at bs p (Z.of_nat h))) as Hhi'.
    { intros h Hh. destruct (Nat.eq_dec h (Z.to_nat (nHeight bq))) as [->|]; [by rewrite Hset, Z2Nat.id, Ha by lia|].
      rewrite Hother by done. apply Hhi. lia. }
    destruct (Z.eq_dec (nHeight bq) 0) as [H0|H0].
    + rewrite (pprev_root q bq Hq H0). exists v'. split; [by destruct fuel|]. split; [done|]. intros h Hh. apply Hhi'. lia.
    + destruct (ancestor_pprev q bq (nHeight bq - 1) Hq ltac:(lia)) as (r & br & -> & Hr' & Hhr & Har).
      rewrite <- Hhr, (ancestor_self r br Hr'), (ancestor_trans p _ q _ Ha) in Har by lia.
      apply (IH v' r br); [done|done|done|lia|intros h Hh; apply Hhi'; lia|].
      intros h Hh. rewrite Hother by lia. apply Hlo. lia.
Qed.

Lemma SetTip_spec v p bp : v = [] \/ (exists t, chain_to bs v t) -> bs !! p = Some bp ->
  exists v', SetTip I v (Some p) = Some v' /\ chain_to bs v' p.
Proof.
  intros Hv Hp. unfold SetTip. rewrite Hp. set (n := S (Z.to_nat (nHeight bp))).
  pose proof (height_range bs Hbs p bp Hp) as Hr.
  assert (length (resize v n) = n) as Hln.
  { unfold resize. rewrite length_app, length_take, length_replicate. lia. }
  assert (exists t, forall h, (h < n)%nat ->
    resize v n !! h = Some (if (h <? length v)%nat then ancestor_at bs t (Z.of_nat h) else None)) as [t Ht].
  { assert (forall h, (h < n)%nat -> (length v <= h)%nat -> resize v n !! h = Some None) as Hnull.
    { intros h Hh Hle. unfold resize. rewrite lookup_app_r by (rewrite length_take; lia).
      apply lookup_replicate. rewrite length_take. split; [done|lia]. }
    destruct Hv as [->|[t (bt & Hbt & Hlt & Hat)]].
    - exists p. intros h Hh. cbn [length]. destruct (Nat.ltb_spec h 0); [lia|]. apply Hnull; [done|cbn; lia].
    - exists t. intros h Hh. destruct (Nat.ltb_spec h (length v)); [|by apply Hnull].
      unfold resize. rewrite lookup_app_l by (rewrite length_take; lia). rewrite lookup_take, decide_True by done. by apply Hat. }
  destruct (set_tip_loop_spec p bp t (length v) n Hp eq_refl (S n) (resize v n) p bp Hln Hp) as (v' & Hv' & Hl' & Hat).
  - by apply ancestor_self.
  - lia.
  - intros h Hh. lia.
  - intros h Hh. apply Ht. lia.
  - exists v'. split; [done|]. exists bp. split; [done|]. split; [done|]. intros h Hh. apply Hat. lia.
Qed.

(** *** What a chain contains *)

Lemma chain_at_spec v t h : chain_to bs v t -> chain_at v h = ancestor_at bs t h.
Proof.
  intros (b & Hb & Hl & Hat). unfold chain_at, size. rewrite Z.geb_leb.
  pose proof (height_range bs Hbs t b Hb). unfold ancestor_at at 1. rewrite Hb.
  destruct (Z.ltb_spec h 0), (Z.leb_spec (Z.of_nat (length v)) h); cbn [orb];
    destruct (Z.leb_spec 0 h), (Z.leb_spec h (nHeight b)); try lia; try done. cbn [andb].
  pose proof (Hat (Z.to_nat h) ltac:(lia)) as E. apply nth_lookup_Some with (d := None) in E. rewrite E.
  rewrite Z2Nat.id by lia. unfold ancestor_at. rewrite Hb.
  by destruct (Z.leb_spec 0 h), (Z.leb_spec h (nHeight b)); try lia.
Qed.

Lemma chain_tip v t b : chain_to bs v t -> bs !! t = Some b -> Tip v = Some t /\ Height v = nHeight b.
Proof.
  intros (b' & Hb' & Hl & Hat) Hb. rewrite Hb in Hb'. injection Hb' as <-. pose proof (height_range bs Hbs t b Hb).
  split; [|unfold Height, size; lia]. unfold Tip.
  pose proof (Hat (Z.to_nat (nHeight b)) ltac:(lia)) as E. rewrite Z2Nat.id, (ancestor_self t b Hb) in E by lia.
  destruct (exists_last (l := v)) as (l & a & ->); [by destruct v|].
  rewrite length_app in Hl. cbn [length] in Hl. rewrite list_lookup_middle in E by lia. injection E as ->.
  by rewrite last_last.
Qed.

Lemma Contains_spec v t p b : chain_to bs v t -> bs !! p = Some b ->
  Contains I v p = Some (bool_decide (ancestor_at bs t (nHeight b) = Some p)).
Proof. intros Hv Hb. unfold Contains. by rewrite Hb, (chain_at_spec v t _ Hv). Qed.

(** [q] is a common ancestor of [t] and [p] (each block is an ancestor of itself). *)
Definition common (t p q : ptr) : Prop := exists h, ancestor_at bs t h = Some q /\ ancestor_at bs p h = Some q.

(** The last common block of [t] and [p], if there is one. *)
Definition last_common (t p : ptr) (r : option ptr) : Prop :=
  match r with
  | Some q => common t p q /\ forall q' b b', common t p q' -> bs !! q = Some b -> bs !! q' = Some b' -> nHeight b' <= nHeight b
  | None => forall q, ~ common t p q
  end.

Lemma last_common_up v t p b : chain_to bs v t -> bs !! p = Some b -> ancestor_at bs t (nHeight b) <> Some p ->
  forall r, match pprev b with Some q => last_common t q r | None => r = None end -> last_common t p r.
Proof.
  intros Hv Hb Hne r. 
  assert (forall q', common t p q' -> exists q bq, pprev b = Some q /\ bs !! q = Some bq /\ common t q q') as Hup.
  { intros q' (h & Ht & Hp). destruct (ancestor_range p h q' Hp) as (b0 & b' & Hb0 & Hb' & Hh & Hh').
    rewrite Hb in Hb0. injection Hb0 as <-.
    destruct (Z.eq_dec h (nHeight b)) as [->|]; [rewrite (ancestor_self p b Hb) in Hp; injection Hp as <-; done|].
    destruct (ancestor_pprev p b h Hb ltac:(lia)) as (q & bq & Hq & Hbq & _ & E). exists q, bq.
    split; [done|]. split; [done|]. exists h. by rewrite <- E. }
  assert (forall q q', pprev b = Some q -> common t q q' -> common t p q') as Hdown.
  { intros q q' Hq (h & Ht & Hqa). exists h. split; [done|].
    pose proof (Hbs p b Hb) as H. unfold node_ok in H. rewrite Hq in H. destruct H as (bq & Hbq & _ & Hhq & _).
    destruct (ancestor_range q h q' Hqa) as (bq' & _ & Hbq' & _ & Hh & _). rewrite Hbq in Hbq'. injection Hbq' as <-.
    destruct (ancestor_pprev p b h Hb ltac:(lia)) as (q2 & bq2 & Hq2 & _ & _ & E). rewrite Hq in Hq2. injection Hq2 as <-. by rewrite E. }
  destruct (pprev b) as [q|] eqn:Ep.
  - destruct r as [r|]; cbn [last_common].
    + intros [Hc Hmax]. split; [by eapply Hdown|]. intros q' b1 b2 Hq'.
      destruct (Hup q' Hq') as (q2 & _ & [= <-] & _ & Hc'). by apply Hmax.
    + intros Hno q' Hq'. destruct (Hup q' Hq') as (q2 & _ & [= <-] & _ & Hc'). by eapply Hno.
  - intros ->. cbn [last_common]. intros q' Hq'. by destruct (Hup q' Hq') as (? & ? & ? & _).
Qed.

Lemma find_fork_loop_spec v t : chain_to bs v t -> forall fuel p b, bs !! p = Some b ->
  (Z.to_nat (nHeight b) < fuel)%nat ->
  exists r, find_fork_loop fuel I v (Some p) = Some r /\ last_common t p r.
Proof.
  intros Hv. induction fuel as [|fuel IH]; intros p b Hb Hf; [lia|]. cbn [find_fork_loop].
  rewrite (Contains_spec v t p b Hv Hb), Hb. case_bool_decide as Ec.
  - exists (Some p). split; [done|]. split; [exists (nHeight b); split; [done|by apply ancestor_self]|].
    intros q' b1 b2 (h & _ & Ha) Hb1 Hb2. rewrite Hb in Hb1. injection Hb1 as <-.
    destruct (ancestor_range p h q' Ha) as (b3 & b4 & H3 & H4 & Hh & Hh4). rewrite Hb in H3. rewrite Hb2 in H4.
    injection H3 as <-. injection H4 as <-. lia.
  - destruct (Z.eq_dec (nHeight b) 0) as [H0|H0].
    + exists None. split; [rewrite (pprev_root p b Hb H0); by destruct fuel|].
      apply (last_common_up v t p b Hv Hb Ec). by rewrite (pprev_root p b Hb H0).
    + pose proof (height_range bs Hbs p b Hb).
      destruct (ancestor_pprev p b (nHeight b - 1) Hb ltac:(lia)) as (q & bq & Hq & Hbq & Hhq & _).
      destruct (IH q bq Hbq ltac:(lia)) as (r & Hr & Hlc). exists r. rewrite Hq. split; [done|].
      apply (last_common_up v t p b Hv Hb Ec). by rewrite Hq.
Qed.

Lemma FindFork_spec v t p b : chain_to bs v t -> bs !! p = Some b ->
  exists r, FindFork I v (Some p) = Some r /\ last_common t p r.
Proof.
  intros Hv Hb. pose proof Hv as (bt & Hbt & _). destruct (chain_tip v t bt Hv Hbt) as [_ HH].
  pose proof (height_range bs Hbs t bt Hbt). unfold FindFork. rewrite Hb, HH, Z.gtb_ltb.
  destruct (Z.ltb_spec (nHeight bt) (nHeight b)) as [Hlt|]; [|apply (find_fork_loop_spec v t Hv _ p b Hb); lia].
  rewrite (GetAncestor_spec I p b _ Hbs Hb).
  destruct (ancestor_total p b (nHeight bt) Hb ltac:(lia)) as [s Hs]. rewrite Hs.
  destruct (ancestor_range p _ s Hs) as (_ & bsx & _ & Hbsx & _ & Hhs).
  destruct (find_fork_loop_spec v t Hv (S (S (Z.to_nat (nHeight b)))) s bsx Hbsx ltac:(lia)) as (r & Hr & Hlc).
  exists r. split; [done|].
  assert (forall q, common t p q <-> common t s q) as Hiff.
  { intros q. split; intros (h & Ht & Ha); exists h; (split; [done|]);
      destruct (ancestor_range t h q Ht) as (bt' & _ & Hbt' & _ & Hh & _); rewrite Hbt in Hbt'; injection Hbt' as <-;
      rewrite (ancestor_trans p _ s _ Hs) in * by lia; done. }
  destruct r as [r|]; cbn [last_common] in *; setoid_rewrite Hiff; done.
Qed.

(** *** Locators *)

(** The hashes of a locator from [p]: those of ancestors of [p], from a height down to the genesis
    block, each strictly lower than the one before. *)
Inductive locates (p : ptr) : Z -> list (list Z) -> Prop :=
  | locates_root q b hash : ancestor_at bs p 0 = Some q -> bs !! q = Some b -> phashBlock b = Some hash ->
      locates p 0 [hash]
  | locates_step h h' q b hash rest : ancestor_at bs p h = Some q -> bs !! q = Some b -> phashBlock b = Some hash ->
      0 <= h' < h -> locates p h' rest -> locates p h (hash :: rest).

Context (Hhash : forall p b, bs !! p = Some b -> phashBlock b <> None).

Lemma chain_at_nil h : chain_at [] h = None.
Proof. unfold chain_at. destruct (_ || _); [done|]. by destruct (Z.to_nat h). Qed.

(** One step of a locator walk: the height and the step after it. *)
Lemma locator_step_bound nH s c k h s' : 0 < nH -> 1 <= s -> h = Z.max (nH - s) 0 ->
  s' = (if c + 1 >? 10 then s * 2 else s) -> nH + s < 2 ^ 30 ->
  (h = 0 \/ h + s' < 2 ^ 30) /\ s <= s' < 2 ^ 30 * 2 /\ (10 <= c -> nH + s <= 2 ^ Z.of_nat k * s ->
    exists k', k = S k' /\ h + s' <= 2 ^ Z.of_nat k' * s').
Proof.
  intros Hn Hs -> -> Hb. rewrite Z.gtb_ltb. destruct (Z.ltb_spec 10 (c + 1)).
  - split; [lia|]. split; [lia|]. intros _ Hk. destruct k as [|k]; [cbn in Hk; lia|]. exists k. split; [done|].
    rewrite Nat2Z.inj_succ, Z.pow_succ_r in Hk by lia. pose proof (Z.pow_pos_nonneg 2 (Z.of_nat k) ltac:(lia) ltac:(lia)). nia.
  - split; [lia|]. split; [lia|]. lia.
Qed.

Lemma locator_loop_spec v t p : v = [] \/ chain_to bs v t -> forall fuel q bq nStep vHave,
  bs !! q = Some bq -> ancestor_at bs p (nHeight bq) = Some q -> 1 <= nStep ->
  nHeight bq = 0 \/ nHeight bq + nStep < 2 ^ 30 -> (Z.to_nat (nHeight bq) < fuel)%nat ->
  exists rest, locator_loop fuel I v (Some q) nStep vHave = Some (vHave ++ rest) /\ locates p (nHeight bq) rest /\
    (forall k, 10 <= size vHave -> nHeight bq + nStep <= 2 ^ Z.of_nat k * nStep -> (length rest <= k + 1)%nat) /\
    (size vHave <= 10 -> nStep = 1 -> (length vHave + length rest <= 41)%nat).
Proof.
  intros Hv. induction fuel as [|fuel IH]; intros q bq nStep vHave Hq Ha Hs Hb Hf; [lia|].
  cbn [locator_loop]. pose proof (height_range bs Hbs q bq Hq). unfold GetBlockHash. rewrite Hq.
  destruct (phashBlock bq) as [hash|] eqn:Eh; [|by destruct (Hhash q bq Hq)].
  assert (exists c, Contains I v q = Some c /\ (c = true -> chain_to bs v t /\ ancestor_at bs t (nHeight bq) = Some q))
    as (c & -> & Hc).
  { destruct Hv as [->|Hv].
    - unfold Contains. rewrite Hq, chain_at_nil. eexists. split; [done|]. intros E. by apply bool_decide_eq_true in E.
    - rewrite (Contains_spec v t q bq Hv Hq). eexists. split; [done|]. intros E. by apply bool_decide_eq_true in E. }
  assert (size (vHave ++ [hash]) = size vHave + 1) as Hsz by (unfold size; rewrite length_app; cbn [length]; lia).
  destruct (Z.eqb_spec (nHeight bq) 0) as [H0|H0].
  - exists [hash]. split; [done|]. split; [rewrite H0 in *; by eapply locates_root|]. split; [cbn; lia|].
    unfold size. cbn [length]. lia.
  - set (h := Z.max (nHeight bq - nStep) 0).
    assert ((if c then Some (chain_at v h) else GetAncestor I q h) = Some (ancestor_at bs q h)) as ->.
    { destruct c; [|exact (GetAncestor_spec I q bq h Hbs Hq)]. destruct (Hc eq_refl) as [Hv' Ht].
      by rewrite (chain_at_spec v t h Hv'), (ancestor_trans t _ q _ Ht) by (unfold h; lia). }
    destruct (ancestor_total q bq h Hq ltac:(lia)) as [r Hr]. rewrite Hr, Hsz.
    destruct (ancestor_range q h r Hr) as (_ & br & _ & Hbr & _ & Hhr).
    pose proof (fun k => locator_step_bound (nHeight bq) nStep (size vHave) k h
      (if size vHave + 1 >? 10 then nStep * 2 else nStep) ltac:(lia) Hs eq_refl eq_refl ltac:(lia)) as Hstep.
    set (s' := if _ >? 10 then nStep * 2 else nStep) in *. destruct (Hstep O) as (Hb' & Hs' & _).
    rewrite Z.gtb_ltb. destruct (Z.ltb_spec INT32_MAX s'); [lia|].
    assert (ancestor_at bs p (nHeight br) = Some r) as Har by (rewrite Hhr, <- (ancestor_trans p _ q _ Ha); [done|lia]).
    destruct (IH r br s' (vHave ++ [hash]) Hbr Har ltac:(lia) ltac:(lia) ltac:(lia)) as (rest & -> & Hl & Hk & H41).
    exists (hash :: rest). split; [by rewrite <- app_assoc|]. split.
    { eapply (locates_step p (nHeight bq) (nHeight br)); [exact Ha|exact Hq|exact Eh|lia|done]. }
    rewrite Hsz in Hk, H41. split.
    + intros k Hc10 Hbk. destruct (Hstep k) as (_ & _ & Hk'). destruct (Hk' Hc10 Hbk) as (k' & -> & Hk2).
      specialize (Hk k' ltac:(lia)). rewrite Hhr in Hk. specialize (Hk Hk2). cbn [length]. lia.
    + intros Hc10 ->. cbn [length]. destruct (Z.eq_dec (size vHave) 10) as [E10|].
      * destruct (Hstep 30%nat) as (_ & _ & Hk'). destruct Hk' as (k' & [= <-] & Hk2); [lia|cbn; lia|].
        specialize (Hk 29%nat ltac:(lia)). rewrite Hhr in Hk. specialize (Hk Hk2). unfold size in E10. lia.
      * rewrite length_app in H41. cbn [length] in H41. specialize (H41 ltac:(lia)).
        assert (s' = 1) as Es by (unfold s'; rewrite Z.gtb_ltb; destruct (Z.ltb_spec 10 (size vHave + 1)); lia).
        specialize (H41 Es). lia.
Qed.

Lemma GetLocator_spec v t p b : v = [] \/ chain_to bs v t -> bs !! p = Some b -> nHeight b + 1 < 2 ^ 30 ->
  exists l, GetLocator I v (Some p) = Some l /\ locates p (nHeight b) l /\ (length l <= 41)%nat.
Proof.
  intros Hv Hb Hh. unfold GetLocator. rewrite Hb.
  destruct (locator_loop_spec v t p Hv (S (Z.to_nat (nHeight b))) p b 1 [] Hb (ancestor_self p b Hb))
    as (l & Hl & Hloc & _ & H41); [lia|lia|lia|].
  exists l. split; [done|]. split; [done|]. apply H41; done.
Qed.

Context (Hmap : forall p b h, bs !! p = Some b -> phashBlock b = Some h -> mapBlockIndex I !! h = Some (Some p)).

Lemma FindForkInGlobalIndex_spec v t p h l : chain_to bs v t -> ancestor_at bs t 0 = ancestor_at bs p 0 ->
  locates p h l -> exists q, FindForkInGlobalIndex I v l = Some (Some q) /\ common t p q.
Proof.
  intros Hv Hroot Hl. pose proof Hv as (bt & Hbt & _). destruct (chain_tip v t bt Hv Hbt) as [Htip HH].
  assert (forall h q b, ancestor_at bs p h = Some q -> bs !! q = Some b -> nHeight b = h) as Hheight.
  { intros h' q b Ha Hb. destruct (ancestor_range p h' q Ha) as (_ & b' & _ & Hb' & _ & E). congruence. }
  induction Hl as [q b hash Ha Hb Hh|h h' q b hash rest Ha Hb Hh Hlt Hl IH]; cbn [FindForkInGlobalIndex];
    rewrite (Hmap q b hash Hb Hh), (Contains_spec v t q b Hv Hb), HH, (Hheight _ q b Ha Hb), (GetAncestor_spec I q b _ Hbs Hb).
  - rewrite Hroot, bool_decide_true by done. exists q. split; [done|]. exists 0. by rewrite Hroot.
  - case_bool_decide as Ec; [exists q; split; [done|]; by exists h|].
    rewrite Htip. case_bool_decide as Et; [|exact IH]. exists t. split; [done|]. exists (nHeight bt).
    split; [by apply ancestor_self|].
    destruct (ancestor_range q _ t Et) as (b' & _ & Hb' & _ & Hr & _). rewrite Hb in Hb'. injection Hb' as <-.
    rewrite (Hheight _ q b Ha Hb) in Hr. by rewrite <- (ancestor_trans p h q _ Ha) by lia.
Qed.
End Chains.

(** ** The median time *)

Lemma past_times_spec bs I n : tree_ok bs -> blocks I = bs -> forall p b, bs !! p = Some b ->
  exists l, past_times n I (Some p) = Some l /\ Z.of_nat (length l) = Z.min (Z.of_nat n) (nHeight b + 1) /\
    forall t, t ∈ l <-> exists k q bq, (k < n)%nat /\ up bs k p = Some q /\ bs !! q = Some bq /\ t = bi_nTime bq.
Proof.
  intros Hok <-. induction n as [|n IH]; intros p b Hb.
  - exists []. split; [done|]. pose proof (height_range _ Hok p b Hb). split; [cbn; lia|].
    intros t. split; [by intros ?%elem_of_nil|]. intros (k & _ & _ & H1 & _). lia.
  - cbn [past_times]. rewrite Hb. pose proof (Hok p b Hb) as H. unfold node_ok in H.
    assert (forall q, pprev b = Some q -> forall k, up (blocks I) (S k) p = up (blocks I) k q) as Hup
      by (intros q E k; cbn [up]; by rewrite Hb, E).
    destruct (pprev b) as [q|] eqn:Ep.
    + destruct H as (bq & Hq & _ & Hh & _). destruct (IH q bq Hq) as (l & -> & Hl & Hin).
      exists (l ++ [bi_nTime b]). split; [done|]. rewrite length_app. cbn [length]. split; [lia|].
      intros t. rewrite elem_of_app, Hin, list_elem_of_singleton. split.
      * intros [(k & r & br & Hk & Hr & Hbr & ->)| ->].
        -- exists (S k), r, br. rewrite (Hup q eq_refl). repeat split; try done. lia.
        -- exists O, p, b. repeat split; try done. lia.
      * intros ([|k] & r & br & Hk & Hr & Hbr & ->); [right; cbn in Hr; congruence|left].
        rewrite (Hup q eq_refl) in Hr. exists k, r, br. repeat split; try done. lia.
    + destruct H as [H0 _]. exists [bi_nTime b]. destruct n; cbn [past_times]; (split; [done|]); (split; [cbn [length]; lia|]).
      all: intros t; rewrite list_elem_of_singleton; split;
        [intros ->; exists O, p, b; repeat split; try done; lia
        |intros ([|k] & r & br & Hk & Hr & Hbr & ->); [cbn in Hr; congruence|cbn [up] in Hr; by rewrite Hb, Ep in Hr]].
Qed.

(** The median splits the times in two halves, the one not above it and the one not below. *)
Lemma median_of_spec l : l <> [] -> exists lo hi, l ≡ₚ lo ++ median_of l :: hi /\ length lo = (length l / 2)%nat /\
  (forall x, x ∈ lo -> x <= median_of l) /\ (forall x, x ∈ hi -> median_of l <= x).
Proof.
  intros Hne. unfold median_of. set (k := (length l / 2)%nat).
  pose proof (merge_sort_Permutation Z.le l) as Hp.
  pose proof (StronglySorted_merge_sort Z.le l) as Hs. set (s := merge_sort Z.le l) in *.
  assert (k < length s)%nat as Hk.
  { rewrite (Permutation_length Hp). unfold k. apply Nat.div_lt; [|lia]. destruct l; [done|cbn; lia]. }
  assert (s = take k s ++ nth k s 0 :: drop (S k) s) as Es.
  { rewrite <- (take_drop k s) at 1. f_equal. destruct (lookup_lt_is_Some_2 s k Hk) as [m Hm].
    rewrite (drop_S s m k Hm). f_equal. by apply nth_lookup_Some with (d := 0) in Hm. }
  rewrite Es in Hs at 1. apply StronglySorted_app in Hs as (Hlo & _ & Hhi).
  exists (take k s), (drop (S k) s). split; [by rewrite <- Es|]. split; [rewrite length_take; lia|]. split.
  - intros x Hx. apply Hlo; [done|by left].
  - apply StronglySorted_cons in Hhi as [H _]. rewrite Forall_forall in H. exact H.
Qed.

Lemma io_hash I : index_ok I -> forall p b, blocks I !! p = Some b -> phashBlock b <> None.
Proof. intros Hok p b Hb. destruct (io_made I Hok p b Hb) as (bl & -> & _). done. Qed.

(** ** Properties of the active chain *)

(** [SetTip] makes the chain the path from the genesis block to the new tip, from whatever chain
    was active, although it rewrites only the part above the fork. *)
Theorem SetTip_is_path I v p b : index_ok I -> v = [] \/ (exists t, chain_to (blocks I) v t) ->
  blocks I !! p = Some b -> exists v', SetTip I v (Some p) = Some v' /\ chain_to (blocks I) v' p /\
    Tip v' = Some p /\ Height v' = nHeight b /\
    (forall h, chain_at v' h = ancestor_at (blocks I) p h).
Proof.
  intros Hok Hv Hb. pose proof (io_tree I Hok) as Ht.
  destruct (SetTip_spec I Ht v p b Hv Hb) as (v' & Hv' & Hc). exists v'.
  destruct (chain_tip I Ht v' p b Hc Hb) as [H1 H2]. repeat (split; [done|]). intros h. by apply chain_at_spec.
Qed.

(** [FindFork] returns the last common block of the active chain and the branch of [p], or NULL
    exactly when they have no block in common. *)
Theorem FindFork_last_common I v t p b : index_ok I -> chain_to (blocks I) v t -> blocks I !! p = Some b ->
  exists r, FindFork I v (Some p) = Some r /\ last_common I t p r.
Proof. intros Hok Hv Hb. by apply (FindFork_spec I (io_tree I Hok) v t p b). Qed.

(** A locator of a block below height 2^30 - 1 lists at most 41 hashes, of ancestors at strictly
    decreasing heights from the block itself down to its genesis block, without an overflow of the
    step; and a node that has the block finds from it a common ancestor of the block and of its own
    chain, whatever its chain is, when both have the same genesis block. *)
Theorem locator_finds_common I v p b v' t : index_ok I -> v = [] \/ (exists t0, chain_to (blocks I) v t0) ->
  blocks I !! p = Some b -> nHeight b + 1 < 2 ^ 30 ->
  exists l, GetLocator I v (Some p) = Some l /\ locates I p (nHeight b) l /\ (length l <= 41)%nat /\
    (chain_to (blocks I) v' t -> ancestor_at (blocks I) t 0 = ancestor_at (blocks I) p 0 ->
     exists q, FindForkInGlobalIndex I v' l = Some (Some q) /\ common I t p q).
Proof.
  intros Hok Hv Hb Hh. pose proof (io_tree I Hok) as Ht.
  assert (exists t0, v = [] \/ chain_to (blocks I) v t0) as [t0 Hv0] by (destruct Hv as [->|[t0 ?]]; [exists p; by left|exists t0; by right]).
  destruct (GetLocator_spec I Ht (io_hash I Hok) v t0 p b Hv0 Hb Hh) as (l & Hl & Hloc & H41).
  exists l. repeat (split; [done|]). intros Hv' Hroot.
  by apply (FindForkInGlobalIndex_spec I Ht (io_all I Hok) v' t p (nHeight b) l).
Qed.

(** The median time past of a block is the median of the times of the block and of its ten nearest
    ancestors (of all its ancestors when there are fewer): it is one of these times, half of them
    (rounded down) are not above it and the others not below. *)
Theorem GetMedianTimePast_is_median I p b : index_ok I -> blocks I !! p = Some b -> exists m times lo hi,
  GetMedianTimePast I p = Some m /\ times ≡ₚ lo ++ m :: hi /\ length lo = (length times / 2)%nat /\
  (forall x, x ∈ lo -> x <= m) /\ (forall x, x ∈ hi -> m <= x) /\
  Z.of_nat (length times) = Z.min 11 (nHeight b + 1) /\
  (forall x, x ∈ times <-> exists k q bq, (k < 11)%nat /\ up (blocks I) k p = Some q /\ blocks I !! q = Some bq /\
     x = bi_nTime bq).
Proof.
  intros Hok Hb. pose proof (io_tree I Hok) as Ht. pose proof (height_range _ Ht p b Hb).
  destruct (past_times_spec (blocks I) I nMedianTimeSpan Ht eq_refl p b Hb) as (l & Hl & Hlen & Hin).
  assert (l <> []) as Hne by (intros ->; cbn [length] in Hlen; unfold nMedianTimeSpan in Hlen; lia).
  destruct (median_of_spec l Hne) as (lo & hi & Hp & Hlo & H1 & H2).
  exists (median_of l), l, lo, hi. unfold GetMedianTimePast. by rewrite Hl.
Qed.

(** The work claimed by a header is exactly 2^256 / (target + 1), rounded down, and zero for a
    target that is negative, zero or above 256 bits; the division by zero never happens. *)
Theorem GetBlockProof_exact nBits : 0 <= nBits < 2 ^ 32 ->
  exists w, GetBlockProof nBits = Some w /\ uint_ok w /\
    val w = match claimed_target nBits with Some t => 2 ^ 256 / (t + 1) | None => 0 end.
Proof. exact (GetBlockProof_spec nBits). Qed.

(** ** A concrete index: a genesis block, a branch of two blocks and a fork of one *)

Definition header_on (prev : list Z) (time : Z) : CBlockHeader := {|
  bh_nVersion := 4; hashPrevBlock := prev; hashMerkleRoot := replicate 32 1; hashFinalSaplingRoot := replicate 32 2;
  bh_nTime := time; bh_nBits := 520617983; bh_nNonce := replicate 32 3; bh_nSolution := [7] |}.
Definition h0 : CBlockHeader := header_on (replicate 32 0) 1000.
Definition h1 : CBlockHeader := header_on (header_GetHash h0) 1060.
Definition h2 : CBlockHeader := header_on (header_GetHash h1) 1050.
Definition h1' : CBlockHeader := header_on (header_GetHash h0) 1070.

Definition add_all (l : list CBlockHeader) : option BlockIndex :=
  foldl (fun o h => match o with
                    | Some idx => match AddToBlockIndex idx h with Some (_, idx') => Some idx' | None => None end
                    | None => None end) (Some empty_index) l.

Lemma add_all_ok l : Forall (fun h => 0 <= bh_nBits h < 2 ^ 32) l -> exists I, add_all l = Some I /\ index_ok I.
Proof.
  unfold add_all. intros Hl. assert (exists I, Some empty_index = Some I /\ index_ok I) as H
    by (exists empty_index; split; [done|apply empty_index_ok]).
  revert H. generalize (Some empty_index). induction Hl as [|h l Hh Hl IH]; intros o (I & -> & Hok); cbn [foldl]; [by exists I|].
  apply IH. destruct (new_block_spec I h Hok Hh) as (b & Hn & Hm & Hw & Hnode & _).
  destruct (better_header_spec I b Hok (proj1 Hw)) as (best & Hbest & Hmax).
  pose proof (fun H => add_block_ok I h b best Hok Hm Hw Hnode H Hmax) as Hadd.
  unfold AddToBlockIndex. destruct (mapBlockIndex I !! header_GetHash h) as [[p|]|] eqn:E; [by exists I|..].
  - destruct (mapBlockIndex I !! hashPrevBlock h) as [[q|]|] eqn:E2; [|by exists I|]; rewrite Hn, Hbest; eexists; (split; [done|]); by apply Hadd.
  - rewrite Hn, Hbest. eexists. split; [by destruct (mapBlockIndex I !! hashPrevBlock h)|]. by apply Hadd.
Qed.

Definition sample_index : BlockIndex := default empty_index (add_all [h0; h1; h2; h1']).

Lemma sample_index_ok : index_ok sample_index.
Proof.
  unfold sample_index. destruct (add_all_ok [h0; h1; h2; h1']) as (J & -> & HJ); [|exact HJ].
  repeat constructor; vm_compute; intros ?; discriminate.
Qed.

Definition block_at (p : ptr) : CBlockIndex := default (CBlockIndex_of h0) (blocks sample_index !! p).

(** The objects of the index, by their heights, parents and solutions. *)
Lemma sample_facts : map (fun b => (nHeight b, pprev b, bi_nSolution b)) (blocks sample_index) =
  [(0, None, [7]); (1, Some 0%nat, [7]); (2, Some 1%nat, [7]); (1, Some 0%nat, [7])].
Proof. vm_compute. reflexivity. Qed.

Lemma sample_lookup p : (p < 4)%nat -> blocks sample_index !! p = Some (block_at p).
Proof.
  intros Hp. unfold block_at. destruct (lookup_lt_is_Some_2 (blocks sample_index) p) as [b ->]; [|done].
  rewrite <- (length_map (fun b => (nHeight b, pprev b, bi_nSolution b))), sample_facts. exact Hp.
Qed.

#[local] Opaque sample_index.

Lemma sample_block_facts p f : (p < 4)%nat ->
  [(0, None, [7]); (1, Some 0%nat, [7]); (2, Some 1%nat, [7]); (1, Some 0%nat, [7])] !! p = Some f ->
  nHeight (block_at p) = f.1.1 /\ pprev (block_at p) = f.1.2 /\ bi_nSolution (block_at p) = f.2.
Proof.
  intros Hp. rewrite <- sample_facts. rewrite list_lookup_fmap, (sample_lookup p Hp). cbn [fmap option_fmap option_map].
  by intros [= <-].
Qed.

(** The chain to the tip of the longer branch. *)
Definition sample_chain : CChain := default [] (SetTip sample_index [] (Some 2%nat)).

Lemma sample_chain_to : chain_to (blocks sample_index) sample_chain 2%nat.
Proof.
  destruct (SetTip_spec sample_index (io_tree _ sample_index_ok) [] 2%nat (block_at 2%nat)) as (v & Hv & Hc);
    [by left|apply sample_lookup; lia|]. unfold sample_chain. by rewrite Hv.
Qed.

#[local] Opaque block_at.

Lemma sample_root : ancestor_at (blocks sample_index) 2 0 = Some 0%nat /\ ancestor_at (blocks sample_index) 3 0 = Some 0%nat.
Proof.
  unfold ancestor_at. rewrite !sample_lookup by lia.
  rewrite (proj1 (sample_block_facts 2 _ ltac:(lia) eq_refl)), (proj1 (sample_block_facts 3 _ ltac:(lia) eq_refl)).
  cbn [fst snd]. change (Z.to_nat (2 - 0)) with 2%nat. change (Z.to_nat (1 - 0)) with 1%nat. cbn [up].
  rewrite !sample_lookup by lia.
  rewrite (proj1 (proj2 (sample_block_facts 2 _ ltac:(lia) eq_refl))), (proj1 (proj2 (sample_block_facts 3 _ ltac:(lia) eq_refl))).
  cbn [fst snd]. rewrite sample_lookup by lia. by rewrite (proj1 (proj2 (sample_block_facts 1 _ ltac:(lia) eq_refl))).
Qed.

Lemma GetAncestor_is_walk_witness : exists q bq, GetAncestor sample_index 2%nat 0 = Some (Some q) /\
  blocks sample_index !! q = Some bq /\ nHeight bq = 0.
Proof.
  apply (GetAncestor_is_walk sample_index 2%nat (block_at 2%nat) 0);
    [exact sample_index_ok|apply sample_lookup; lia|by rewrite (proj1 (sample_block_facts 2 _ ltac:(lia) eq_refl))].
Defined.

Lemma AddToBlockIndex_ok_witness : exists r I', AddToBlockIndex sample_index h1 = Some (r, I') /\ index_ok I'.
Proof.
  destruct (AddToBlockIndex_ok sample_index h1) as (r & I' & H & Hok & _);
    [exact sample_index_ok|vm_compute; split; [intros ?; discriminate|reflexivity]|exact (ex_intro _ r (ex_intro _ I' (conj H Hok)))].
Defined.

Lemma GetBlockHeader_hash_witness : exists block, GetBlockHeader (fun _ => None) sample_index 2%nat = Some block /\
  phashBlock (block_at 2%nat) = Some (header_GetHash block).
Proof.
  apply (GetBlockHeader_hash (fun _ => None) sample_index 2%nat (block_at 2%nat));
    [exact sample_index_ok|apply sample_lookup; lia|..];
    destruct (sample_block_facts 2 _ ltac:(lia) eq_refl) as (_ & Hp & Hs); [rewrite Hp|rewrite Hs]; discriminate.
Defined.

Lemma SetTip_is_path_witness : exists v', SetTip sample_index sample_chain (Some 3%nat) = Some v' /\
  chain_to (blocks sample_index) v' 3%nat /\ Tip v' = Some 3%nat.
Proof.
  destruct (SetTip_is_path sample_index sample_chain 3%nat (block_at 3%nat)) as (v' & H & Hc & Ht & _);
    [exact sample_index_ok|right; exact (ex_intro _ 2%nat sample_chain_to)|apply sample_lookup; lia|].
  exact (ex_intro _ v' (conj H (conj Hc Ht))).
Defined.

Lemma FindFork_last_common_witness : exists r, FindFork sample_index sample_chain (Some 3%nat) = Some r /\
  last_common sample_index 2%nat 3%nat r.
Proof.
  apply (FindFork_last_common sample_index sample_chain 2%nat 3%nat (block_at 3%nat));
    [exact sample_index_ok|exact sample_chain_to|apply sample_lookup; lia].
Defined.

Lemma locator_finds_common_witness : exists l q, GetLocator sample_index [] (Some 3%nat) = Some l /\
  FindForkInGlobalIndex sample_index sample_chain l = Some (Some q) /\ common sample_index 2%nat 3%nat q.
Proof.
  destruct (locator_finds_common sample_index [] 3%nat (block_at 3%nat) sample_chain 2%nat) as (l & Hl & _ & _ & H);
    [exact sample_index_ok|by left|apply sample_lookup; lia|by rewrite (proj1 (sample_block_facts 3 _ ltac:(lia) eq_refl))|].
  destruct H as (q & Hq & Hc); [exact sample_chain_to|rewrite (proj1 sample_root), (proj2 sample_root); reflexivity|].
  exact (ex_intro _ l (ex_intro _ q (conj Hl (conj Hq Hc)))).
Defined.

Lemma GetMedianTimePast_is_median_witness : exists m, GetMedianTimePast sample_index 2%nat = Some m.
Proof.
  destruct (GetMedianTimePast_is_median sample_index 2%nat (block_at 2%nat)) as (m & _ & _ & _ & H & _);
    [exact sample_index_ok|apply sample_lookup; lia|exact (ex_intro _ m H)].
Defined.

Lemma GetBlockProof_exact_witness : exists w, GetBlockProof 520617983 = Some w /\ uint_ok w /\
  val w = match claimed_target 520617983 with Some t => 2 ^ 256 / (t + 1) | None => 0 end.
Proof. apply GetBlockProof_exact. lia. Defined.
