(* ===== verification/Standard.v ===== *)
(** * Standard: [src/src/script/standard.h] and [standard.cpp]
    The templates of scripts: what kind of output a script is ([Solver]), the destinations it pays
    ([ExtractDestination], [ExtractDestinations]), the script of a destination, and the parameters
    of crypto-condition outputs ([COptCCParams]).  The reader of conditions is a library, the class
    [ConditionReader]; the switches of the chain are the arguments of the section. *)
From S2P Require Import Prelude Endian Uint256 Hash ScriptNum Opcode Script Serialize Amount Transaction Pubkey Interpreter SigHash.
From Stdlib Require Import String.
Import CScript.
#[local] Open Scope Z_scope.
#[local] Abbreviation length := List.length (only parsing).
#[local] Abbreviation concat := List.concat (only parsing).

(** [cc_readConditionBinary] *)
Class ConditionReader := { cc_readConditionBinary : list Z -> option CC }.

Inductive txnouttype :=
  | TX_NONSTANDARD | TX_PUBKEY | TX_PUBKEYHASH | TX_SCRIPTHASH | TX_MULTISIG | TX_CRYPTOCONDITION | TX_NULL_DATA.

#[export] Instance txnouttype_eq_dec : EqDecision txnouttype.
Proof. solve_decision. Defined.

Definition DEFAULT_ACCEPT_DATACARRIER : bool := true.
Definition MAX_OP_RETURN_RELAY_KMD : Z := 140.

(** [boost::variant<CNoDestination, CPubKey, CKeyID, CScriptID>]; a key is its array of 65 bytes. *)
Inductive CTxDestination :=
  | CNoDestination | DestPubKey (key : CPubKey.pubkey) | CKeyID (id : list Z) | CScriptID (id : list Z).

(** [CPubKey(v)]; the array is taken to be zero where the key does not fill it. *)
Definition key_of (v : valtype) : CPubKey.pubkey := CPubKey.of_range (replicate 65 0) v.

Definition IsValidDestination (dest : CTxDestination) : bool :=
  match dest with CNoDestination => false | _ => true end.

(** ** The parameters of crypto-condition outputs *)

Record COptCCParams := {
  cp_version : Z; cp_evalCode : Z; cp_m : Z; cp_n : Z; cp_vKeys : list CPubKey.pubkey; cp_vData : list valtype
}.

Definition CC_VERSION : Z := 1.

Definition cp_IsValid (p : COptCCParams) : bool := negb (cp_version p =? 0).

(** The loop over the script: a failed [GetOp] is skipped over, another opcode ends it with
    [valid = false].  The result also says whether [pc] reached the end. *)
Fixpoint params_loop (fuel : nat) (data : list valtype) (pc : script) : bool * list valtype :=
  match fuel, pc with
  | S f, _ :: _ =>
      let r := CScript.GetOp2 pc in
      if go_ret r then
        match push_value (go_op r) (go_data r) with
        | Some v => params_loop f (data ++ [v]) (go_pc r)
        | None => (false, data)
        end
      else params_loop f data (go_pc r)
  | _, _ => (true, data)
  end.

(** The keys [data[1..n]], up to the first that is not valid. *)
Fixpoint load_keys (l : list valtype) (vKeys : list CPubKey.pubkey) : list CPubKey.pubkey * bool :=
  match l with
  | [] => (vKeys, true)
  | d :: l' =>
      let k := key_of d in
      if CPubKey.IsValid k then load_keys l' (vKeys ++ [k]) else (vKeys ++ [k], false)
  end.

(** [COptCCParams(vch)] over the memory [p0]: the members are not initialised, so those it does not
    set keep what the memory holds ([p0] has empty vectors). *)
Definition COptCCParams_of (p0 : COptCCParams) (vch : valtype) : COptCCParams :=
  if negb (size vch >? 1) then p0
  else
    let '(valid, data) := params_loop (length vch) [] vch in
    match valid, data with
    | true, param :: rest =>
        match param with
        | [version; evalCode; m; n] =>
            if negb (version =? CC_VERSION) || negb (m =? 1) || (negb (n =? 1) && negb (n =? 2)) || (size data <=? n)
            then {| cp_version := 0; cp_evalCode := evalCode; cp_m := m; cp_n := n;
                    cp_vKeys := cp_vKeys p0; cp_vData := cp_vData p0 |}
            else
              let '(keys, ok) := load_keys (take (Z.to_nat n) rest) [] in
              if ok
              then {| cp_version := version; cp_evalCode := evalCode; cp_m := m; cp_n := n;
                      cp_vKeys := keys; cp_vData := drop (Z.to_nat n) rest |}
              else {| cp_version := 0; cp_evalCode := evalCode; cp_m := m; cp_n := n; cp_vKeys := keys; cp_vData := [] |}
        | _ => {| cp_version := 0; cp_evalCode := cp_evalCode p0; cp_m := cp_m p0; cp_n := cp_n p0;
                  cp_vKeys := cp_vKeys p0; cp_vData := cp_vData p0 |}
        end
    | _, _ => p0
    end.

(** [AsVector()] *)
Definition AsVector (p : COptCCParams) : valtype :=
  let s := CScript.push_data [] [cp_version p; cp_evalCode p; cp_n p; cp_m p] in
  let s := fold_left (fun s k => CScript.push_data s (CPubKey.data k)) (cp_vKeys p) s in
  fold_left (fun s d => CScript.push_data s d) (cp_vData p) s.

(** ** Templates *)

Definition IsSmallInteger (op : opcodetype) : bool := op_le OP_1 op && op_le op OP_16.

(** [MatchPayToPubkey]: the key, when it matches. *)
Definition MatchPayToPubkey (s : script) : option valtype :=
  if (size s =? PUBLIC_KEY_SIZE + 2) && (at_ s 0 =? PUBLIC_KEY_SIZE) && (List.last s 0 =? opcode OP_CHECKSIG) then
    let pubkey := take 65 (drop 1 s) in if CPubKey.ValidSize pubkey then Some pubkey else None
  else if (size s =? COMPRESSED_PUBLIC_KEY_SIZE + 2) && (at_ s 0 =? COMPRESSED_PUBLIC_KEY_SIZE) &&
          (List.last s 0 =? opcode OP_CHECKSIG) then
    let pubkey := take 33 (drop 1 s) in if CPubKey.ValidSize pubkey then Some pubkey else None
  else None.

Definition MatchPayToPubkeyHash (s : script) : option valtype :=
  if (size s =? 25) && (at_ s 0 =? opcode OP_DUP) && (at_ s 1 =? opcode OP_HASH160) && (at_ s 2 =? 20) &&
     (at_ s 23 =? opcode OP_EQUALVERIFY) && (at_ s 24 =? opcode OP_CHECKSIG)
  then Some (take 20 (drop 3 s)) else None.

(** The loop over the keys: the keys, and the opcode and the position it stops at. *)
Fixpoint keys_loop (fuel : nat) (pubkeys : list valtype) (it : script) : list valtype * opcodetype * script :=
  let r := CScript.GetOp2 it in
  match fuel with
  | S f =>
      if go_ret r && CPubKey.ValidSize (go_data r) then keys_loop f (pubkeys ++ [go_data r]) (go_pc r)
      else (pubkeys, go_op r, go_pc r)
  | O => (pubkeys, go_op r, go_pc r)
  end.

(** [MatchMultisig]: the number of signatures and the keys.  [DecodeOP_N] does not assert here. *)
Definition MatchMultisig (s : script) : option (Z * list valtype) :=
  if (size s <? 1) || negb (List.last s 0 =? opcode OP_CHECKMULTISIG) then None
  else
    let r := CScript.GetOp2 s in
    if negb (go_ret r) || negb (IsSmallInteger (go_op r)) then None
    else
      let required := default 0 (DecodeOP_N (go_op r)) in
      let '(pubkeys, op, it) := keys_loop (length s) [] (go_pc r) in
      if negb (IsSmallInteger op) then None
      else
        let keys := default 0 (DecodeOP_N op) in
        if negb (size pubkeys =? keys) || (keys <? required) then None
        else if size it =? 1 then Some (required, pubkeys) else None.

Definition GetTxnOutputType (t : txnouttype) : string :=
  match t with
  | TX_NONSTANDARD => "nonstandard" | TX_PUBKEY => "pubkey" | TX_PUBKEYHASH => "pubkeyhash"
  | TX_SCRIPTHASH => "scripthash" | TX_MULTISIG => "multisig" | TX_NULL_DATA => "nulldata"
  | TX_CRYPTOCONDITION => "cryptocondition"
  end%string.

Section Solver.
Context {R : ConditionReader}.
(** [IsCryptoConditionsEnabled()], [komodo_is_vSolutionsFixActive()], the relay policy and the memory
    that [COptCCParams] objects are made in. *)
Context (ccEnabled vSolutionsFix fAcceptDatacarrier : bool) (nMaxDatacarrierBytes : Z) (p0 : COptCCParams).

(** [MayAcceptCryptoCondition()] *)
Definition MayAcceptCryptoCondition (s : script) : bool :=
  let r := CScript.GetOp2 s in
  if negb (go_ret r) then false
  else if negb (op_lt OP_0 (go_op r) && op_lt (go_op r) OP_PUSHDATA1) then false
  else match cc_readConditionBinary (go_data r) with
       | None => false
       | Some cond => IsSupportedCryptoCondition cond
       end.

(** The solutions of a crypto-condition output: its hash, and before the fix the keys of its
    parameters. *)
Definition cc_solutions (sub : script) (vParams : list valtype) : list valtype :=
  Hash160 sub ::
  (if negb vSolutionsFix then
     match vParams with
     | [] => []
     | v :: _ => let cp := COptCCParams_of p0 v in
                 if cp_IsValid cp then map CPubKey.data (cp_vKeys cp) else []
     end
   else []).

(** The templates that are tried once the special kinds are excluded. *)
Definition solve_template (s : script) : bool * txnouttype * list valtype :=
  match MatchPayToPubkey s with
  | Some data => (true, TX_PUBKEY, [data])
  | None =>
    match MatchPayToPubkeyHash s with
    | Some data => (true, TX_PUBKEYHASH, [data])
    | None =>
      match MatchMultisig s with
      | Some (required, keys) => (true, TX_MULTISIG, [u8 required] :: keys ++ [[u8 (size keys)]])
      | None => (false, TX_NONSTANDARD, [])
      end
    end
  end.

(** [Solver(scriptPubKey, typeRet, vSolutionsRet)]; [typeRet] keeps its value when a crypto-condition
    is refused. *)
Definition Solver (typeRet : txnouttype) (s : script) : bool * txnouttype * list valtype :=
  if IsPayToScriptHash s then (true, TX_SCRIPTHASH, [take 20 (drop 2 s)])
  else if (size s >=? 1) && (at_ s 0 =? opcode OP_RETURN) && IsPushOnly (drop 1 s) then (true, TX_NULL_DATA, [])
  else
    match (if ccEnabled then IsPayToCryptoCondition s else None) with
    | Some (sub, vParams) =>
        if MayAcceptCryptoCondition s then (true, TX_CRYPTOCONDITION, cc_solutions sub vParams)
        else (false, typeRet, [])
    | None => solve_template s
    end.

(** [ScriptSigArgsExpected] *)
Definition ScriptSigArgsExpected (t : txnouttype) (vSolutions : list valtype) : Z :=
  match t with
  | TX_NONSTANDARD | TX_NULL_DATA => -1
  | TX_PUBKEY | TX_SCRIPTHASH | TX_CRYPTOCONDITION => 1
  | TX_PUBKEYHASH => 2
  | TX_MULTISIG => match vSolutions with (x :: _) :: _ => x + 1 | _ => -1 end
  end.

(** [IsStandard(scriptPubKey, whichType)] *)
Definition IsStandard (s : script) : bool :=
  let '(ok, whichType, vSolutions) := Solver TX_NONSTANDARD s in
  if negb ok then false
  else
    match whichType with
    | TX_MULTISIG =>
        let m := hd 0 (hd [] vSolutions) in
        let n := hd 0 (List.last vSolutions []) in
        if (n <? 1) || (n >? 9) then false else if (m <? 1) || (m >? n) then false else true
    | TX_NULL_DATA => negb (negb fAcceptDatacarrier || (size s >? nMaxDatacarrierBytes))
    | t => negb (bool_decide (t = TX_NONSTANDARD))
    end.

(** The script after a CHECKLOCKTIMEVERIFY prefix, or the script itself; the outer [None] is the
    read beyond the end of [IsCheckLockTimeVerify]. *)
Definition after_cltv (s : script) : option (option script) :=
  match IsCheckLockTimeVerify s with
  | None => None
  | Some None => Some None
  | Some (Some _) =>
      let scriptStart := at_ s 0 + 3 in
      Some (Some (if size s >? scriptStart then drop (Z.to_nat scriptStart) s else []))
  end.

(** [ExtractDestination]: the outer [None] is undefined, the inner one is [false]. *)
Definition destination_of (returnPubKey : bool) (s : script) : option CTxDestination :=
  let '(ok, whichType, vSolutions) := Solver TX_NONSTANDARD s in
  if negb ok then None
  else
    let v := hd [] vSolutions in
    match whichType with
    | TX_PUBKEY =>
        let pubKey := key_of v in
        if negb (CPubKey.IsValid pubKey) then None
        else Some (if returnPubKey then DestPubKey pubKey else CKeyID (CPubKey.GetID pubKey))
    | TX_PUBKEYHASH => Some (CKeyID v)
    | TX_SCRIPTHASH => Some (CScriptID v)
    | TX_CRYPTOCONDITION =>
        if negb ccEnabled then None
        else if (size vSolutions >? 1) && negb vSolutionsFix then
          let pk := key_of (nth 1 vSolutions []) in if CPubKey.IsValid pk then Some (DestPubKey pk) else None
        else Some (CKeyID v)
    | _ => None
    end.

Definition ExtractDestination (s : script) (returnPubKey : bool) : option (option CTxDestination) :=
  match after_cltv s with
  | None => None
  | Some o => Some (destination_of returnPubKey (default s o))
  end.

(** What [ExtractDestinations] leaves: its result, [typeRet], [addressRet] and [nRequiredRet]. *)
Record destinations := { ed_ret : bool; ed_type : txnouttype; ed_address : list CTxDestination; ed_required : Z }.

Definition destinations_fail (t : txnouttype) (req : Z) : destinations :=
  {| ed_ret := false; ed_type := t; ed_address := []; ed_required := req |}.

Definition destinations_of (s : script) (req : Z) : option destinations :=
  let '(ok, typeRet, vSolutions) := Solver TX_NONSTANDARD s in
  if negb ok then Some (destinations_fail typeRet req)
  else
    match typeRet with
    | TX_NULL_DATA => Some (destinations_fail typeRet req)
    | TX_MULTISIG =>
        let addresses := map (fun k => CKeyID (CPubKey.GetID k))
          (List.filter CPubKey.IsValid (map key_of (removelast (tl vSolutions)))) in
        Some {| ed_ret := negb (size addresses =? 0); ed_type := typeRet; ed_address := addresses;
                ed_required := hd 0 (hd [] vSolutions) |}
    | _ =>
        match ExtractDestination s false with
        | None => None
        | Some None => Some (destinations_fail typeRet 1)
        | Some (Some d) => Some {| ed_ret := true; ed_type := typeRet; ed_address := [d]; ed_required := 1 |}
        end
    end.

(** The recursion removes CHECKLOCKTIMEVERIFY prefixes. *)
Fixpoint ExtractDestinations (fuel : nat) (s : script) (req : Z) : option destinations :=
  match after_cltv s with
  | None => None
  | Some None => destinations_of s req
  | Some (Some postfix) => match fuel with O => None | S f => ExtractDestinations f postfix req end
  end.
End Solver.

(** ** Scripts of destinations *)

Definition push_ops (s : script) (ops : list opcodetype) : script := s ++ map opcode ops.

(** [CScriptVisitor] *)
Definition GetScriptForDestination (dest : CTxDestination) : script :=
  match dest with
  | CNoDestination => []
  | DestPubKey key => push_ops (CScript.push_data [] (CPubKey.data key)) [OP_CHECKSIG]
  | CKeyID keyID => push_ops (CScript.push_data (push_ops [] [OP_DUP; OP_HASH160]) keyID) [OP_EQUALVERIFY; OP_CHECKSIG]
  | CScriptID scriptID => push_ops (CScript.push_data (push_ops [] [OP_HASH160]) scriptID) [OP_EQUAL]
  end.

(** [None] is the assertion of [EncodeOP_N]. *)
Definition GetScriptForMultisig (nRequired : Z) (keys : list CPubKey.pubkey) : option script :=
  match EncodeOP_N nRequired, EncodeOP_N (size keys) with
  | Some m, Some n =>
      Some (push_ops (fold_left (fun s k => CScript.push_data s (CPubKey.data k)) keys (push_ops [] [m])) [n; OP_CHECKMULTISIG])
  | _, _ => None
  end.

(** ** Facts *)

Lemma valid_size_length k : CPubKey.ValidSize k = true -> length k = 33%nat \/ length k = 65%nat.
Proof.
  unfold CPubKey.ValidSize. intros H. propify. pose proof (GetLen_cases (hd 0 k)). unfold size in *. lia.
Qed.

Lemma push_short b : size b < 76 -> push_data [] b = size b :: b.
Proof. intros H. unfold push_data. cbn [app opcode]. by destruct (Z.ltb_spec (size b) 76); [|lia]. Qed.

Lemma push_key k : CPubKey.ValidSize k = true -> push_data [] k = size k :: k.
Proof. intros H. apply push_short. unfold size. destruct (valid_size_length k H) as [-> | ->]; done. Qed.

(** The script that pays to the key [k]. *)
Definition key_script (k : valtype) : script := push_ops (push_data [] k) [OP_CHECKSIG].

Lemma split_ends n (s : script) : length s = (n + 2)%nat -> s = hd 0 s :: take n (drop 1 s) ++ [List.last s 0].
Proof.
  destruct s as [|x s]; [cbn; lia|]. intros Hl. cbn [hd]. change (drop 1 (x :: s)) with s. f_equal.
  destruct (exists_last (l := s)) as (r & y & ->); [intros ->; cbn in Hl; lia|].
  cbn [length] in Hl. rewrite length_app in Hl. cbn [length] in Hl.
  rewrite take_app_le, take_ge by lia. f_equal. f_equal.
  rewrite app_comm_cons. symmetry. apply last_last.
Qed.

Lemma list_of_20 (P : list Z -> Prop) h : length h = 20%nat ->
  (forall a0 a1 a2 a3 a4 a5 a6 a7 a8 a9 b0 b1 b2 b3 b4 b5 b6 b7 b8 b9,
    P [a0; a1; a2; a3; a4; a5; a6; a7; a8; a9; b0; b1; b2; b3; b4; b5; b6; b7; b8; b9]) -> P h.
Proof. intros Hl H. do 20 (destruct h as [|? h]; [discriminate|]). destruct h; [apply H|discriminate]. Qed.

Lemma MatchPayToPubkeyHash_spec s h :
  MatchPayToPubkeyHash s = Some h <-> length h = 20%nat /\ s = GetScriptForDestination (CKeyID h).
Proof.
  split.
  - unfold MatchPayToPubkeyHash, size. destruct (_ && _) eqn:E; [|done]. propify.
    intros Hh. assert (Hl : length s = 25%nat) by lia.
    do 25 (destruct s as [|? s]; [discriminate|]). destruct s; [|discriminate]. cbn [at_ nth opcode] in *. subst.
    injection Hh as <-. done.
  - intros [Hl ->]. revert Hl. intros Hl. by pattern h; apply (list_of_20 _ _ Hl).
Qed.

Lemma key_script_ends k : CPubKey.ValidSize k = true ->
  size (key_script k) = size k + 2 /\ at_ (key_script k) 0 = size k /\ List.last (key_script k) 0 = 172 /\
  drop 1 (key_script k) = k ++ [172].
Proof.
  intros Hv. unfold key_script, push_ops. split_and!.
  - rewrite push_key, size_app, size_cons by done. change (size (map opcode [OP_CHECKSIG])) with 1. lia.
  - by rewrite push_key.
  - apply last_last.
  - by rewrite push_key.
Qed.

Lemma MatchPayToPubkey_spec s k :
  MatchPayToPubkey s = Some k <-> CPubKey.ValidSize k = true /\ s = key_script k.
Proof.
  split.
  - unfold MatchPayToPubkey, PUBLIC_KEY_SIZE, COMPRESSED_PUBLIC_KEY_SIZE. cbn [opcode].
    assert (forall n, (size s =? n + 2) && (at_ s 0 =? n) && (List.last s 0 =? 172) = true -> 0 <= n < 76 ->
              forall v, (let p := take (Z.to_nat n) (drop 1 s) in if CPubKey.ValidSize p then Some p else None) = Some v ->
              CPubKey.ValidSize v = true /\ s = key_script v) as H.
    { intros n E Hn v. cbn zeta. destruct (CPubKey.ValidSize _) eqn:Ev; [|done]. intros [= <-]. split; [done|].
      propify. unfold size in *.
      assert (Hl : length s = (Z.to_nat n + 2)%nat) by lia. rewrite (split_ends _ _ Hl) at 1.
      unfold key_script. rewrite push_key by done.
      replace (size (take (Z.to_nat n) (drop 1 s))) with n by (unfold size; rewrite length_take, length_drop; lia).
      assert (hd 0 s = n) as -> by (by destruct s).
      by replace (List.last s 0) with 172 by done. }
    destruct (((size s =? 65 + 2) && _) && _) eqn:E1; [by apply (H 65)|].
    destruct (((size s =? 33 + 2) && _) && _) eqn:E2; [by apply (H 33)|done].
  - intros [Hv ->]. destruct (key_script_ends k Hv) as (Hs & H0 & Hl & Hd). unfold MatchPayToPubkey.
    rewrite Hs, H0, Hl, Hd. unfold size, PUBLIC_KEY_SIZE, COMPRESSED_PUBLIC_KEY_SIZE.
    pose proof (take_app_length k [172]) as Ht.
    destruct (valid_size_length k Hv) as [E | E]; rewrite E in Ht |- *.
    + change ((Z.of_nat 33 + 2 =? 65 + 2) && (Z.of_nat 33 =? 65) && (172 =? opcode OP_CHECKSIG)) with false.
      change ((Z.of_nat 33 + 2 =? 33 + 2) && (Z.of_nat 33 =? 33) && (172 =? opcode OP_CHECKSIG)) with true.
      cbv iota zeta. by rewrite Ht, Hv.
    + change ((Z.of_nat 65 + 2 =? 65 + 2) && (Z.of_nat 65 =? 65) && (172 =? opcode OP_CHECKSIG)) with true.
      cbv iota zeta. by rewrite Ht, Hv.
Qed.

(** What the tests before the templates say of the scripts of the templates. *)
Lemma GetOp2_key_script k : CPubKey.ValidSize k = true ->
  exists op, GetOp2 (key_script k) = {| go_ret := true; go_pc := [172]; go_op := op; go_data := k |}.
Proof.
  intros Hv. unfold key_script, push_ops.
  destruct (GetOp2_push_data k (map opcode [OP_CHECKSIG])) as (op & _ & _ & _ & E);
    [unfold size; destruct (valid_size_length k Hv); lia|]. by exists op.
Qed.

Lemma key_script_not_cc k : CPubKey.ValidSize k = true -> IsPayToCryptoCondition (key_script k) = None.
Proof.
  intros Hv. destruct (GetOp2_key_script k Hv) as [op E]. unfold IsPayToCryptoCondition.
  rewrite E. cbn [go_ret go_op go_pc andb]. by destruct (op_lt OP_0 op && op_lt op OP_PUSHDATA1).
Qed.


Section SolverFacts.
Context {R : ConditionReader} (ccEnabled vSolutionsFix fAcceptDatacarrier : bool) (nMaxDatacarrierBytes : Z)
  (p0 : COptCCParams).
#[local] Abbreviation solve := (Solver ccEnabled vSolutionsFix p0).

(** A result that is neither a script hash, nor data, nor a condition is that of the templates. *)
Lemma Solver_cases t0 s :
  (exists h, solve t0 s = (true, TX_SCRIPTHASH, [h]) /\ IsPayToScriptHash s = true /\ h = take 20 (drop 2 s)) \/
  (solve t0 s = (true, TX_NULL_DATA, []) /\ at_ s 0 = 106 /\ IsPushOnly (drop 1 s) = true) \/
  (exists l, solve t0 s = (true, TX_CRYPTOCONDITION, l)) \/
  solve t0 s = (false, t0, []) \/
  (solve t0 s = solve_template s).
Proof.
  unfold Solver. destruct (IsPayToScriptHash s); [left; by eexists|].
  destruct (((_ >=? _) && _) && _) eqn:E; [right; left; propify; cbn [opcode] in *; done|].
  destruct (if ccEnabled then _ else _) as [[sub ps]|]; [|by do 4 right].
  destruct (MayAcceptCryptoCondition s); [right; right; left; by eexists | do 3 right; by left].
Qed.

Lemma solve_template_cases s :
  (exists k, solve_template s = (true, TX_PUBKEY, [k]) /\ MatchPayToPubkey s = Some k) \/
  (exists h, solve_template s = (true, TX_PUBKEYHASH, [h]) /\ MatchPayToPubkeyHash s = Some h) \/
  (exists m ks, solve_template s = (true, TX_MULTISIG, [u8 m] :: ks ++ [[u8 (size ks)]]) /\ MatchMultisig s = Some (m, ks)) \/
  solve_template s = (false, TX_NONSTANDARD, []).
Proof.
  unfold solve_template. destruct (MatchPayToPubkey s) as [k|]; [left; by eexists|].
  destruct (MatchPayToPubkeyHash s) as [h|]; [right; left; by eexists|].
  destruct (MatchMultisig s) as [[m ks]|]; [right; right; left; by do 2 eexists | by do 3 right].
Qed.

Lemma IsPayToScriptHash_spec s :
  IsPayToScriptHash s = true <-> exists h, length h = 20%nat /\ s = GetScriptForDestination (CScriptID h).
Proof.
  split.
  - unfold IsPayToScriptHash, size. intros E. exists (take 20 (drop 2 s)). propify. cbn [opcode] in *.
    assert (Hl : length s = 23%nat) by lia.
    do 23 (destruct s as [|? s]; [discriminate|]). destruct s; [|discriminate]. cbn [at_ nth] in *. subst.
    done.
  - intros (h & Hl & ->). by pattern h; apply (list_of_20 _ _ Hl).
Qed.

(** The scripts that the special kinds do not take. *)
Definition plain (s : script) : Prop :=
  IsPayToScriptHash s = false /\ at_ s 0 <> 106 /\ IsPayToCryptoCondition s = None.

Lemma Solver_plain t0 s : plain s -> solve t0 s = solve_template s.
Proof.
  intros (H1 & H2 & H3). unfold Solver. rewrite H1. cbn [opcode].
  destruct (Z.eqb_spec (at_ s 0) 106); [done|]. rewrite andb_false_r. cbn [andb].
  destruct ccEnabled; [by rewrite H3|done].
Qed.

Lemma key_script_plain k : CPubKey.ValidSize k = true -> plain (key_script k).
Proof.
  intros Hv. destruct (key_script_ends k Hv) as (Hs & H0 & _ & _). unfold plain, IsPayToScriptHash.
  rewrite Hs, H0. split_and!; [| |by apply key_script_not_cc];
    unfold size; by destruct (valid_size_length k Hv) as [-> | ->].
Qed.

Lemma keyid_script_plain h : length h = 20%nat -> plain (GetScriptForDestination (CKeyID h)).
Proof. intros Hl. by pattern h; apply (list_of_20 _ _ Hl). Qed.

(** [Solver] recognises the three templates with one key or hash exactly: its answer is a public
    key, a key hash or a script hash for the script that the destination has, and for no other. *)
Theorem Solver_exact t0 s :
  (forall k, solve t0 s = (true, TX_PUBKEY, [k]) <-> CPubKey.ValidSize k = true /\ s = key_script k) /\
  (forall h, solve t0 s = (true, TX_PUBKEYHASH, [h]) <-> length h = 20%nat /\ s = GetScriptForDestination (CKeyID h)) /\
  (forall h, solve t0 s = (true, TX_SCRIPTHASH, [h]) <-> length h = 20%nat /\ s = GetScriptForDestination (CScriptID h)).
Proof.
  split_and!.
  - intros k. rewrite <- MatchPayToPubkey_spec. split.
    + intros H. destruct (Solver_cases t0 s) as [(? & E & _) | [(E & _) | [(? & E) | [E | E]]]];
        rewrite E in H; try discriminate.
      destruct (solve_template_cases s) as [(? & E' & M) | [(? & E' & _) | [(? & ? & E' & _) | E']]];
        rewrite E' in H; try discriminate. by injection H as ->.
    + intros M. pose proof M as [Hv ->]%MatchPayToPubkey_spec.
      rewrite Solver_plain by by apply key_script_plain. unfold solve_template. by rewrite M.
  - intros h. rewrite <- MatchPayToPubkeyHash_spec. split.
    + intros H. destruct (Solver_cases t0 s) as [(? & E & _) | [(E & _) | [(? & E) | [E | E]]]];
        rewrite E in H; try discriminate.
      destruct (solve_template_cases s) as [(? & E' & M) | [(? & E' & M) | [(? & ? & E' & _) | E']]];
        rewrite E' in H; try discriminate. by injection H as ->.
    + intros M. pose proof M as [Hl ->]%MatchPayToPubkeyHash_spec.
      rewrite Solver_plain by by apply keyid_script_plain. unfold solve_template.
      destruct (MatchPayToPubkey _) eqn:P; [|by rewrite M].
      apply MatchPayToPubkey_spec in P as [Hv Hk]. exfalso. apply (f_equal (fun s => at_ s 0)) in Hk.
      destruct (key_script_ends _ Hv) as (_ & E & _). rewrite E in Hk. cbn in Hk. unfold size in Hk.
      destruct (valid_size_length _ Hv); lia.
  - intros h. split.
    + intros H. destruct (Solver_cases t0 s) as [(h' & E & M & ->) | [(E & _) | [(? & E) | [E | E]]]];
        rewrite E in H; try discriminate.
      * injection H as <-. apply IsPayToScriptHash_spec in M as (h & Hl & ->).
        assert (take 20 (drop 2 (GetScriptForDestination (CScriptID h))) = h) as -> by (by pattern h; apply (list_of_20 _ _ Hl)).
        done.
      * destruct (solve_template_cases s) as [(? & E' & _) | [(? & E' & _) | [(? & ? & E' & _) | E']]];
          rewrite E' in H; discriminate.
    + intros [Hl ->]. by pattern h; apply (list_of_20 _ _ Hl).
Qed.
End SolverFacts.

(** ** Multisig scripts *)

Lemma fold_push_data {A} (f : A -> valtype) l s :
  fold_left (fun s x => push_data s (f x)) l s = s ++ concat (map (fun x => push_data [] (f x)) l).
Proof.
  revert s. induction l as [|x l IH]; intros s; cbn [fold_left map concat]; [by rewrite app_nil_r|].
  by rewrite IH, push_data_app, <- app_assoc.
Qed.

Lemma EncodeOP_N_small n : 1 <= n <= 16 ->
  exists op, EncodeOP_N n = Some op /\ opcode op = 80 + n /\ opcodetype_of (80 + n) = op /\ DecodeOP_N op = Some n /\
             IsSmallInteger op = true.
Proof.
  intros H. exists (opcodetype_of (80 + n)).
  assert (opcode (opcodetype_of (80 + n)) = 80 + n) as E by (apply opcode_of_byte; unfold is_byte; lia).
  split_and!; [| done | done | |].
  - unfold EncodeOP_N. rewrite Z.geb_leb. cbn [opcode].
    destruct (Z.leb_spec 0 n), (Z.leb_spec n 16), (Z.eqb_spec n 0); try lia. cbn [andb]. do 2 f_equal. lia.
  - unfold DecodeOP_N, op_eq, op_le. rewrite E. cbn [opcode].
    destruct (Z.eqb_spec (80 + n) 0), (Z.leb_spec 81 (80 + n)), (Z.leb_spec (80 + n) 96); try lia. cbn [andb]. f_equal. lia.
  - unfold IsSmallInteger, op_le. rewrite E. cbn [opcode].
    destruct (Z.leb_spec 81 (80 + n)), (Z.leb_spec (80 + n) 96); done || lia.
Qed.

Lemma GetOp2_plain b rest : 78 < b ->
  GetOp2 (b :: rest) = {| go_ret := true; go_pc := rest; go_op := opcodetype_of b; go_data := [] |}.
Proof. intros H. cbn [GetOp2 opcode]. destruct (Z.leb_spec b 78); [lia|done]. Qed.

Lemma keys_loop_keys ks : forall fuel pre b, Forall (fun k => CPubKey.ValidSize k = true) ks -> 78 < b ->
  (length ks < fuel)%nat ->
  keys_loop fuel pre (concat (map (fun k => push_data [] k) ks) ++ [b; 174]) = (pre ++ ks, opcodetype_of b, [174]).
Proof.
  induction ks as [|k ks IH]; intros fuel pre b Hks Hb Hf; (destruct fuel as [|fuel]; [cbn [List.length] in Hf; lia|]).
  - cbn [map concat app keys_loop]. rewrite GetOp2_plain by done. cbn [go_ret go_data go_op go_pc andb].
    change (CPubKey.ValidSize []) with false. by rewrite app_nil_r.
  - inversion_clear Hks as [|? ? Hk Hks']. cbn [map concat keys_loop]. rewrite <- app_assoc.
    destruct (GetOp2_push_data k (concat (map (fun k => push_data [] k) ks) ++ [b; 174])) as (op & _ & _ & _ & ->);
      [unfold size; destruct (valid_size_length k Hk); lia|].
    cbn [go_ret go_data go_op go_pc andb]. rewrite Hk, IH by (done || (cbn [List.length] in Hf; lia)).
    by rewrite <- app_assoc.
Qed.

(** The script of [GetScriptForMultisig], by its parts. *)
Definition multisig_script (m : Z) (ks : list valtype) : script :=
  (80 + m) :: concat (map (fun k => push_data [] k) ks) ++ [80 + size ks; 174].

Lemma GetScriptForMultisig_script m keys : 1 <= m <= 16 -> 1 <= size keys <= 16 ->
  GetScriptForMultisig m keys = Some (multisig_script m (map CPubKey.data keys)).
Proof.
  intros Hm Hn. unfold GetScriptForMultisig.
  destruct (EncodeOP_N_small m Hm) as (op & -> & Eop & _), (EncodeOP_N_small (size keys) Hn) as (op' & -> & Eop' & _).
  unfold push_ops, multisig_script. rewrite fold_push_data. cbn [map app]. rewrite Eop, Eop'.
  unfold size. by rewrite length_map, map_map.
Qed.

Lemma concat_push_length ks : (length ks <= length (concat (map (fun k => push_data [] k) ks)))%nat.
Proof.
  induction ks as [|k ks IH]; [done|]. cbn [map concat List.length]. rewrite length_app.
  pose proof (push_data_nonnil k). destruct (push_data [] k); [done|]. cbn [List.length]. lia.
Qed.

Lemma MatchMultisig_script m ks : 1 <= m <= size ks -> size ks <= 16 ->
  Forall (fun k => CPubKey.ValidSize k = true) ks -> MatchMultisig (multisig_script m ks) = Some (m, ks).
Proof.
  intros Hm Hn Hks. unfold MatchMultisig.
  destruct (EncodeOP_N_small m) as (op & _ & Eop & Eof & Edec & Esm); [lia|].
  destruct (EncodeOP_N_small (size ks)) as (op' & _ & Eop' & Eof' & Edec' & Esm'); [lia|].
  assert (List.last (multisig_script m ks) 0 = 174) as ->.
  { unfold multisig_script. change [80 + size ks; 174] with ([80 + size ks] ++ [174]).
    rewrite app_assoc, app_comm_cons. apply last_last. }
  destruct (Z.ltb_spec (size (multisig_script m ks)) 1) as [Hs|_].
  { unfold multisig_script in Hs. rewrite size_cons in Hs.
    pose proof (size_nonneg (concat (map (fun k => push_data [] k) ks) ++ [80 + size ks; 174])). lia. }
  cbn [orb negb opcode]. change (174 =? 174) with true. cbn [negb].
  assert (GetOp2 (multisig_script m ks) = {| go_ret := true; go_op := opcodetype_of (80 + m); go_data := [];
      go_pc := concat (map (fun k => push_data [] k) ks) ++ [80 + size ks; 174] |}) as ->
    by (apply GetOp2_plain; lia).
  cbn [go_ret go_op go_pc negb orb].
  rewrite Eof, Esm, Edec. cbn [negb default].
  rewrite keys_loop_keys; [| done | lia |].
  - cbn [app]. rewrite Eof', Esm', Edec'. cbn [negb default]. rewrite Z.eqb_refl. cbn [negb orb id].
    destruct (Z.ltb_spec (size ks) m); [lia|reflexivity].
  - unfold multisig_script. cbn [List.length]. rewrite length_app. pose proof (concat_push_length ks). lia.
Qed.

Definition valid_key (k : CPubKey.pubkey) : Prop := length k = 65%nat /\ CPubKey.IsValid k = true.

Lemma valid_key_data k : valid_key k -> CPubKey.ValidSize (CPubKey.data k) = true.
Proof.
  intros [Hl Hv]. unfold CPubKey.ValidSize, Script.size. rewrite (data_length k Hl).
  assert (hd 0 (CPubKey.data k) = hd 0 k) as -> by (destruct (data_cons k Hl Hv) as [x ->]; done).
  fold (CPubKey.size k). unfold CPubKey.IsValid in Hv. by rewrite Hv, Z.eqb_refl.
Qed.

(** The key made of the data of another is valid, with the same data and identifier. *)
Lemma key_of_data k : CPubKey.ValidSize k = true ->
  CPubKey.IsValid (key_of k) = true /\ CPubKey.data (key_of k) = k /\ CPubKey.GetID (key_of k) = Hash160 k.
Proof.
  intros Hv. unfold key_of, CPubKey.of_range.
  destruct (Set_valid (replicate 65 0) k) as (Hs & Hd & _); [done|done|].
  unfold CPubKey.IsValid, CPubKey.GetID. rewrite Hs, Hd. split; [|done].
  unfold CPubKey.ValidSize in Hv. propify. apply Z.gtb_lt. done.
Qed.

(** No script of a template starts with a lock time. *)
Lemma after_cltv_key k : CPubKey.ValidSize k = true -> after_cltv (key_script k) = Some None.
Proof.
  intros Hv. destruct (GetOp2_key_script k Hv) as [op E]. unfold after_cltv, IsCheckLockTimeVerify. rewrite E.
  cbn [go_ret go_data]. unfold size. by destruct (valid_size_length k Hv) as [-> | ->].
Qed.

Lemma after_cltv_multisig m ks : 1 <= m -> ks <> [] -> Forall (fun k => CPubKey.ValidSize k = true) ks ->
  after_cltv (multisig_script m ks) = Some None.
Proof.
  intros Hm Hks Hv. destruct ks as [|k ks]; [done|]. inversion_clear Hv as [|? ? Hk _].
  unfold after_cltv, IsCheckLockTimeVerify, multisig_script. cbn [map concat].
  rewrite GetOp2_plain by lia. cbn [go_ret go_data]. rewrite push_key by done. cbn [app nth_error List.length Nat.add].
  change (size (@nil Z) <? 6) with true. cbv iota. unfold size.
  by destruct (valid_size_length k Hk) as [-> | ->].
Qed.

Lemma multisig_plain m ks : 1 <= m <= 16 -> plain (multisig_script m ks).
Proof.
  intros Hm. unfold plain, IsPayToScriptHash, IsPayToCryptoCondition, multisig_script. rewrite GetOp2_plain by lia.
  cbn [at_ nth go_ret go_op andb opcode]. split_and!; [|lia|].
  - destruct (Z.eqb_spec (80 + m) 169); [lia|]. by rewrite andb_false_r.
  - destruct (EncodeOP_N_small m Hm) as (op & _ & Eop & -> & _). unfold op_lt at 2. rewrite Eop. cbn [opcode].
    destruct (Z.ltb_spec (80 + m) 76); [lia|]. by rewrite andb_false_r.
Qed.

Lemma multisig_templates m ks : 1 <= m <= size ks -> size ks <= 16 ->
  Forall (fun k => CPubKey.ValidSize k = true) ks ->
  solve_template (multisig_script m ks) = (true, TX_MULTISIG, [m] :: ks ++ [[size ks]]).
Proof.
  intros Hm Hn Hks. unfold solve_template.
  destruct (MatchPayToPubkey _) as [k|] eqn:P.
  { apply MatchPayToPubkey_spec in P as [Hv P]. apply (f_equal (fun s => at_ s 0)) in P.
    destruct (key_script_ends _ Hv) as (_ & E & _). rewrite E in P. cbn in P. unfold size in P.
    destruct (valid_size_length _ Hv); lia. }
  destruct (MatchPayToPubkeyHash _) as [h|] eqn:P'.
  { apply MatchPayToPubkeyHash_spec in P' as [_ P']. apply (f_equal (fun s => at_ s 0)) in P'. cbn in P'. lia. }
  rewrite MatchMultisig_script by done. by rewrite !uwrap_small by lia.
Qed.

#[local] Opaque Hash160.

Section RoundTrips.
Context {R : ConditionReader} (ccEnabled vSolutionsFix fAcceptDatacarrier : bool) (nMaxDatacarrierBytes : Z)
  (p0 : COptCCParams).

Definition destination_wf (d : CTxDestination) : Prop :=
  match d with
  | CNoDestination => False
  | DestPubKey key => valid_key key
  | CKeyID h | CScriptID h => length h = 20%nat
  end.

(** The destination that a script of [d] is read as. *)
Definition canonical (returnPubKey : bool) (d : CTxDestination) : CTxDestination :=
  match d with
  | DestPubKey key => if returnPubKey then DestPubKey (key_of (CPubKey.data key)) else CKeyID (CPubKey.GetID key)
  | d => d
  end.

(** [C23] The script of a destination pays that destination: [ExtractDestination] gives it back (a key
    as the key with the same bytes or as its identifier, as the caller asks), it is standard, and
    [ExtractDestinations] gives it as the one address; nothing is read outside the script. *)
Theorem destination_round_trip d returnPubKey fuel req : destination_wf d ->
  let s := GetScriptForDestination d in
  ExtractDestination ccEnabled vSolutionsFix p0 s returnPubKey = Some (Some (canonical returnPubKey d)) /\
  IsStandard ccEnabled vSolutionsFix fAcceptDatacarrier nMaxDatacarrierBytes p0 s = true /\
  exists t, ExtractDestinations ccEnabled vSolutionsFix p0 fuel s req =
    Some {| ed_ret := true; ed_type := t; ed_address := [canonical false d]; ed_required := 1 |}.
Proof.
  intros Hwf s.
  assert (exists t v, Solver ccEnabled vSolutionsFix p0 TX_NONSTANDARD s = (true, t, [v]) /\ after_cltv s = Some None /\
    (t = TX_PUBKEY \/ t = TX_PUBKEYHASH \/ t = TX_SCRIPTHASH) /\
    forall b, destination_of ccEnabled vSolutionsFix p0 b s = Some (canonical b d)) as (t & v & Es & Ec & Ht & Ed).
  { destruct d as [|k|h|h]; [done| | |].
    - exists TX_PUBKEY, (CPubKey.data k). pose proof (valid_key_data k Hwf) as Hv.
      assert (s = key_script (CPubKey.data k)) as -> by done.
      assert (Solver ccEnabled vSolutionsFix p0 TX_NONSTANDARD (key_script (CPubKey.data k)) = (true, TX_PUBKEY, [CPubKey.data k])) as Es
        by (by apply Solver_exact).
      split_and!; [done | by apply after_cltv_key | by left |].
      intros b. unfold destination_of. rewrite Es. cbn [hd negb].
      destruct (key_of_data _ Hv) as (-> & _ & E). rewrite E. done.
    - exists TX_PUBKEYHASH, h. assert (Solver ccEnabled vSolutionsFix p0 TX_NONSTANDARD s = (true, TX_PUBKEYHASH, [h])) as Es
        by (by apply Solver_exact).
      split_and!; [done | by unfold s; pattern h; apply (list_of_20 _ _ Hwf) | by right; left |].
      intros b. unfold destination_of. by rewrite Es.
    - exists TX_SCRIPTHASH, h. assert (Solver ccEnabled vSolutionsFix p0 TX_NONSTANDARD s = (true, TX_SCRIPTHASH, [h])) as Es
        by (by apply Solver_exact).
      split_and!; [done | by unfold s; pattern h; apply (list_of_20 _ _ Hwf) | by right; right |].
      intros b. unfold destination_of. by rewrite Es. }
  assert (forall b, ExtractDestination ccEnabled vSolutionsFix p0 s b = Some (Some (canonical b d))) as E
    by (intros b; unfold ExtractDestination; rewrite Ec; cbn [default]; by rewrite <- (Ed b)).
  split_and!; [done | |].
  - unfold IsStandard. rewrite Es. by destruct Ht as [-> | [-> | ->]].
  - exists t. destruct fuel; cbn [ExtractDestinations]; rewrite Ec; unfold destinations_of; rewrite Es; cbn [negb];
      rewrite E; by destruct Ht as [-> | [-> | ->]].
Qed.

(** An m-of-n script made by [GetScriptForMultisig] with m between 1 and n and n at most 16 is
    recognised with its number of signatures and its keys in order, [ExtractDestinations] lists the
    key hashes, the script is standard exactly up to 9 keys, and it has no single destination. *)
Theorem multisig_round_trip m keys fuel req : 1 <= m <= size keys -> size keys <= 16 -> Forall valid_key keys ->
  exists s, GetScriptForMultisig m keys = Some s /\
    Solver ccEnabled vSolutionsFix p0 TX_NONSTANDARD s = (true, TX_MULTISIG, [m] :: map CPubKey.data keys ++ [[size keys]]) /\
    ExtractDestinations ccEnabled vSolutionsFix p0 fuel s req =
      Some {| ed_ret := true; ed_type := TX_MULTISIG; ed_address := map (fun k => CKeyID (CPubKey.GetID k)) keys;
              ed_required := m |} /\
    ExtractDestination ccEnabled vSolutionsFix p0 s false = Some None /\
    IsStandard ccEnabled vSolutionsFix fAcceptDatacarrier nMaxDatacarrierBytes p0 s = (size keys <=? 9).
Proof.
  intros Hm Hn Hk. set (ks := map CPubKey.data keys).
  assert (Forall (fun k => CPubKey.ValidSize k = true) ks) as Hks
    by (apply Forall_map; eapply Forall_impl; [done|]; apply valid_key_data).
  assert (size ks = size keys) as Hsize by (unfold size, ks; by rewrite length_map).
  exists (multisig_script m ks). split; [apply GetScriptForMultisig_script; lia|].
  assert (Solver ccEnabled vSolutionsFix p0 TX_NONSTANDARD (multisig_script m ks) =
          (true, TX_MULTISIG, [m] :: ks ++ [[size keys]])) as Es.
  { rewrite Solver_plain by (apply multisig_plain; lia). rewrite multisig_templates by (done || lia). by rewrite Hsize. }
  assert (after_cltv (multisig_script m ks) = Some None) as Ec.
  { apply after_cltv_multisig; [lia | | done]. intros E. rewrite E, size_nil in Hsize. lia. }
  split; [done|]. split; [|split].
  - assert (destinations_of ccEnabled vSolutionsFix p0 (multisig_script m ks) req =
      Some {| ed_ret := true; ed_type := TX_MULTISIG; ed_address := map (fun k => CKeyID (CPubKey.GetID k)) keys;
              ed_required := m |}) as E; [|destruct fuel; cbn [ExtractDestinations]; rewrite Ec; exact E].
    unfold destinations_of. rewrite Es. cbn [negb tl hd]. rewrite removelast_last.
    assert (map (fun k => CKeyID (CPubKey.GetID k)) (List.filter CPubKey.IsValid (map key_of ks)) =
            map (fun k => CKeyID (CPubKey.GetID k)) keys) as ->.
    { unfold ks. clear -Hk. induction Hk as [|k l Hk Hl IH]; [done|]. cbn [map List.filter].
      destruct (key_of_data _ (valid_key_data k Hk)) as (-> & _ & E). cbn [map]. by rewrite E, IH. }
    do 2 f_equal. unfold size. rewrite length_map. apply negb_true_iff, Z.eqb_neq. unfold size in *. lia.
  - unfold ExtractDestination. rewrite Ec. cbn [default]. unfold destination_of. by rewrite Es.
  - unfold IsStandard. rewrite Es. cbn [negb hd].
    assert (List.last ([m] :: ks ++ [[size keys]]) [] = [size keys]) as -> by (rewrite app_comm_cons; apply last_last).
    cbn [hd]. rewrite !Z.gtb_ltb. repeat case_Z; cbn [orb]; done || lia.
Qed.
End RoundTrips.

(** ** Parameters of crypto-condition outputs *)

Lemma params_loop_items items : forall fuel data, Forall pushable items -> (length items < fuel)%nat ->
  params_loop fuel data (concat (map (fun b => push_data [] b) items)) = (true, data ++ items).
Proof.
  induction items as [|b items IH]; intros fuel data Hi Hf; (destruct fuel as [|fuel]; [cbn [List.length] in Hf; lia|]).
  - by rewrite app_nil_r.
  - inversion_clear Hi as [|? ? Hb Hi']. cbn [map concat].
    destruct (GetOp2_pushable b (concat (map (fun b => push_data [] b) items)) Hb) as (op & E & Ev & _).
    assert (exists x l, push_data [] b ++ concat (map (fun b => push_data [] b) items) = x :: l) as (x & l & El).
    { pose proof (push_data_nonnil b). destruct (push_data [] b) as [|x l]; [done|]. by exists x, (l ++ concat (map (fun b => push_data [] b) items)). }
    rewrite El in *. cbn [params_loop]. rewrite E. cbn [go_ret go_op go_data go_pc]. rewrite Ev.
    rewrite IH by (done || (cbn [List.length] in Hf; lia)). by rewrite <- app_assoc.
Qed.

Lemma load_keys_valid l : forall ks, Forall (fun k => CPubKey.ValidSize k = true) l ->
  load_keys l ks = (ks ++ map key_of l, true).
Proof.
  induction l as [|k l IH]; intros ks Hl; cbn [load_keys map]; [by rewrite app_nil_r|].
  inversion_clear Hl as [|? ? Hk Hl']. destruct (key_of_data k Hk) as (-> & _).
  rewrite IH by done. by rewrite <- app_assoc.
Qed.

Lemma valid_size_pushable k : CPubKey.ValidSize k = true -> pushable k.
Proof.
  intros Hv. split; [by intros ->|]. unfold size. destruct (valid_size_length k Hv) as [-> | ->]; done.
Qed.

Lemma AsVector_items p : AsVector p =
  concat (map (fun b => push_data [] b)
    ([cp_version p; cp_evalCode p; cp_n p; cp_m p] :: map CPubKey.data (cp_vKeys p) ++ cp_vData p)).
Proof.
  unfold AsVector. rewrite !fold_push_data. cbn [map concat].
  by rewrite map_app, concat_app, map_map, app_assoc.
Qed.

(** The parameters of a crypto-condition output with one key, written by [AsVector], are read
    back by the constructor.  With two keys they are not: [AsVector] writes the number of keys
    before the number of signatures, the constructor reads the signatures first and finds the object
    invalid. *)
Theorem ccparams_read_back p0 p : cp_version p = CC_VERSION -> cp_m p = 1 -> cp_n p = size (cp_vKeys p) ->
  Forall valid_key (cp_vKeys p) -> Forall pushable (cp_vData p) ->
  (cp_n p = 1 -> COptCCParams_of p0 (AsVector p) =
     {| cp_version := CC_VERSION; cp_evalCode := cp_evalCode p; cp_m := 1; cp_n := 1;
        cp_vKeys := map (fun k => key_of (CPubKey.data k)) (cp_vKeys p); cp_vData := cp_vData p |}) /\
  (cp_n p = 2 -> cp_IsValid (COptCCParams_of p0 (AsVector p)) = false).
Proof.
  intros Hver Hm Hn Hk Hd. rewrite AsVector_items.
  set (items := _ :: _ ++ _).
  assert (Forall (fun k => CPubKey.ValidSize k = true) (map CPubKey.data (cp_vKeys p))) as Hks
    by (apply Forall_map; eapply Forall_impl; [done|]; apply valid_key_data).
  assert (Forall pushable items) as Hi.
  { constructor; [by split|]. apply Forall_app. split; [|done]. eapply Forall_impl; [done|]. apply valid_size_pushable. }
  assert (params_loop (length (concat (map (fun b => push_data [] b) items))) []
            (concat (map (fun b => push_data [] b) items)) = (true, items)) as E.
  { unfold items. cbn [map concat]. rewrite length_app. rewrite (params_loop_items items); [done | done |].
    unfold items. cbn [List.length]. pose proof (concat_push_length (map CPubKey.data (cp_vKeys p) ++ cp_vData p)).
    change (length (push_data [] [cp_version p; cp_evalCode p; cp_n p; cp_m p])) with 5%nat. lia. }
  unfold COptCCParams_of. rewrite E.
  assert ((size (concat (map (fun b => push_data [] b) items)) >? 1) = true) as ->.
  { unfold items. cbn [map concat]. rewrite size_app. change (size (push_data [] [_; _; _; _])) with 5.
    apply Z.gtb_lt. pose proof (size_nonneg (concat (map (fun b => push_data [] b) (map CPubKey.data (cp_vKeys p) ++ cp_vData p)))). lia. }
  unfold items. cbn [negb]. rewrite Hver, Hm, Z.eqb_refl. split; intros H2; rewrite H2.
  - change (negb true || negb (1 =? 1) || (negb (1 =? 1) && negb (1 =? 2))) with false. cbn [orb].
    destruct (cp_vKeys p) as [|k [|k' l]].
    + rewrite size_nil in Hn. lia.
    + cbn [map app]. destruct (Z.leb_spec (size ([CC_VERSION; cp_evalCode p; 1; 1] :: CPubKey.data k :: cp_vData p)) 1) as [H|_].
      { rewrite !size_cons in H. pose proof (size_nonneg (cp_vData p)). lia. }
      change (take (Z.to_nat 1) (CPubKey.data k :: cp_vData p)) with [CPubKey.data k].
      rewrite load_keys_valid by done. reflexivity.
    + rewrite !size_cons in Hn. pose proof (size_nonneg l). lia.
  - change (negb true || negb (2 =? 1) || (negb (1 =? 1) && negb (1 =? 2))) with true. reflexivity.
Qed.

(** ** Witnesses *)

#[local] Instance no_conditions : ConditionReader := {| cc_readConditionBinary _ := None |}.

Definition blank_params : COptCCParams :=
  {| cp_version := 0; cp_evalCode := 0; cp_m := 0; cp_n := 0; cp_vKeys := []; cp_vData := [] |}.

Definition sample_key (x : Z) : CPubKey.pubkey := [2; x] ++ replicate 63 0.

Lemma destination_round_trip_witness : exists t,
  ExtractDestinations true true blank_params 0 (GetScriptForDestination (CScriptID (replicate 20 9))) 0 =
    Some {| ed_ret := true; ed_type := t; ed_address := [CScriptID (replicate 20 9)]; ed_required := 1 |}.
Proof. apply (destination_round_trip true true true 140 blank_params (CScriptID (replicate 20 9)) true 0 0 eq_refl). Defined.

Lemma multisig_round_trip_witness : exists s,
  GetScriptForMultisig 2 [sample_key 5; sample_key 6; sample_key 7] = Some s /\
  IsStandard false true true 140 blank_params s = true.
Proof.
  destruct (multisig_round_trip false true true 140 blank_params 2 [sample_key 5; sample_key 6; sample_key 7] 0 0)
    as (s & E & _ & _ & _ & Es); [unfold size; cbn; lia | unfold size; cbn; lia | |].
  - do 3 (constructor; [by split|]). constructor.
  - exists s. split; [exact E|]. rewrite Es. reflexivity.
Defined.

Lemma ccparams_read_back_witness :
  cp_IsValid (COptCCParams_of blank_params (AsVector
    {| cp_version := 1; cp_evalCode := 226; cp_m := 1; cp_n := 2; cp_vKeys := [sample_key 1; sample_key 2]; cp_vData := [] |}))
  = false.
Proof.
  apply (ccparams_read_back blank_params
    {| cp_version := 1; cp_evalCode := 226; cp_m := 1; cp_n := 2; cp_vKeys := [sample_key 1; sample_key 2]; cp_vData := [] |});
    try reflexivity; cbn [cp_vKeys cp_vData].
  - do 2 (constructor; [by split|]). constructor.
  - constructor.
Defined.
