(* ===== verification/Compressor.v ===== *)
(** * Compressor: the compact formats of outputs, [src/src/compressor.h] and [compressor.cpp]
    The coin database and the undo files write an output with its amount in a mixed radix and its
    script as one of six special forms when it pays to a key or to a hash.  The theorems: amounts
    and scripts come back from what is written, and where they do not. *)
From S2P Require Import Prelude Endian Uint256 ScriptNum Opcode Script Serialize Amount Transaction Pubkey Standard.
Import CScript.

(** ** Amounts *)

Module CTxOutCompressor.

(** [while (((n % 10) == 0) && e < 9)]: at most nine turns. *)
Fixpoint strip_zeros (fuel : nat) (n e : Z) : Z * Z :=
  match fuel with
  | S f => if (n mod 10 =? 0) && (e <? 9) then strip_zeros f (n / 10) (e + 1) else (n, e)
  | O => (n, e)
  end.

(** [None] is the assertion on the digit. *)
Definition CompressAmount (n : Z) : option Z :=
  if n =? 0 then Some 0
  else
    let '(n, e) := strip_zeros 10 n 0 in
    if e <? 9 then
      let d := n mod 10 in
      if (1 <=? d) && (d <=? 9) then
        let n := n / 10 in Some (u64 (1 + (n * 9 + d - 1) * 10 + e))
      else None
    else Some (u64 (1 + (n - 1) * 10 + 9)).

(** [while (e) { n *= 10; e--; }] *)
Fixpoint add_zeros (e : nat) (n : Z) : Z :=
  match e with O => n | S e => add_zeros e (u64 (n * 10)) end.

Definition DecompressAmount (x : Z) : Z :=
  if x =? 0 then 0
  else
    let x := x - 1 in
    let e := x mod 10 in
    let x := x / 10 in
    let n := if e <? 9 then let d := x mod 9 + 1 in let x := x / 9 in u64 (x * 10 + d) else u64 (x + 1) in
    add_zeros (Z.to_nat e) n.

End CTxOutCompressor.

(** ** Scripts *)

Module CScriptCompressor.

Definition nSpecialScripts : Z := 6.

(** The hash that is set, when the result is [true]. *)
Definition IsToKeyID (s : script) : option (list Z) :=
  if (size s =? 25) && (at_ s 0 =? opcode OP_DUP) && (at_ s 1 =? opcode OP_HASH160) &&
     (at_ s 2 =? 20) && (at_ s 23 =? opcode OP_EQUALVERIFY) && (at_ s 24 =? opcode OP_CHECKSIG)
  then Some (take 20 (drop 3 s))
  else None.

Definition IsToScriptID (s : script) : option (list Z) :=
  if (size s =? 23) && (at_ s 0 =? opcode OP_HASH160) && (at_ s 1 =? 20) &&
     (at_ s 22 =? opcode OP_EQUAL)
  then Some (take 20 (drop 2 s))
  else None.

Definition GetSpecialSize (nSize : Z) : Z :=
  if (nSize =? 0) || (nSize =? 1) then 20
  else if (nSize =? 2) || (nSize =? 3) || (nSize =? 4) || (nSize =? 5) then 32
  else 0.

Section Secp.
Context {E : Secp256k1}.
(** The bytes a new [CPubKey] holds before it is set. *)
Context (vch0 : CPubKey.pubkey).

Definition IsToPubKey (s : script) : option CPubKey.pubkey :=
  if (size s =? 35) && (at_ s 0 =? 33) && (at_ s 34 =? opcode OP_CHECKSIG) &&
     ((at_ s 1 =? 2) || (at_ s 1 =? 3))
  then Some (CPubKey.Set_ (CPubKey.make vch0) (take 33 (drop 1 s)))
  else if (size s =? 67) && (at_ s 0 =? 65) && (at_ s 66 =? opcode OP_CHECKSIG) &&
          (at_ s 1 =? 4)
  then
    let pubkey := CPubKey.Set_ (CPubKey.make vch0) (take 65 (drop 1 s)) in
    if CPubKey.IsFullyValid pubkey then Some pubkey else None
  else None.

(** [out], when the result is [true]. *)
Definition Compress (s : script) : option (list Z) :=
  match IsToKeyID s with
  | Some keyID => Some (0 :: keyID)
  | None =>
  match IsToScriptID s with
  | Some scriptID => Some (1 :: scriptID)
  | None =>
  match IsToPubKey s with
  | Some pubkey =>
      let x := take 32 (drop 1 pubkey) in
      let h := at_ pubkey 0 in
      if (h =? 2) || (h =? 3) then Some (h :: x)
      else if h =? 4 then Some (Z.lor 4 (Z.land (at_ pubkey 64) 1) :: x)
      else None
  | None => None
  end end end.

(** The result and the script after the call; [None] when [in] is too short or the assertion
    fails. *)
Definition Decompress (nSize : Z) (in_ : list Z) (s : script) : option (bool * script) :=
  if size in_ <? GetSpecialSize nSize then None
  else if nSize =? 0 then
    Some (true, [opcode OP_DUP; opcode OP_HASH160; 20] ++ take 20 in_ ++ [opcode OP_EQUALVERIFY; opcode OP_CHECKSIG])
  else if nSize =? 1 then Some (true, [opcode OP_HASH160; 20] ++ take 20 in_ ++ [opcode OP_EQUAL])
  else if (nSize =? 2) || (nSize =? 3) then Some (true, [33; nSize] ++ take 32 in_ ++ [opcode OP_CHECKSIG])
  else if (nSize =? 4) || (nSize =? 5) then
    let vch := (nSize - 2) :: take 32 in_ in
    let '(ok, pubkey) := CPubKey.Decompress (CPubKey.of_range vch0 vch) in
    if negb ok then Some (false, s)
    else if negb (CPubKey.size pubkey =? 65) then None
    else Some (true, 65 :: take 65 pubkey ++ [opcode OP_CHECKSIG])
  else Some (false, s).

Definition Serialize (s : script) : list Z :=
  match Compress s with
  | Some compr => compr
  | None => WriteVarInt (u32 (size s + nSpecialScripts)) ++ s
  end.

(** [s.ignore(nSize)], whose argument is an [int]. *)
Definition ignore (nSize : Z) : Reader unit :=
  if i32 nSize <? 0 then rfail else _ <-- read_bytes nSize ;; rret tt.

(** [Unserialize] into [script]; the result of [Decompress] is not looked at. *)
Definition Unserialize (s : script) : Reader script :=
  nSize <-- ReadVarInt 32 ;;
  if nSize <? nSpecialScripts then
    vch <-- read_bytes (GetSpecialSize nSize) ;;
    match Decompress nSize vch s with
    | Some (_, s') => rret s'
    | None => rfail
    end
  else
    let nSize := nSize - nSpecialScripts in
    if nSize >? MAX_SCRIPT_SIZE then
      _ <-- ignore nSize ;; rret (s ++ [opcode OP_RETURN])
    else read_bytes nSize.

End Secp.
End CScriptCompressor.

(** ** Outputs *)

Section TxOut.
Context {E : Secp256k1} (vch0 : CPubKey.pubkey).

(** [CTxOutCompressor]; [None] is the assertion of [CompressAmount]. *)
Definition Serialize_compressed (txout : CTxOut) : option (list Z) :=
  match CTxOutCompressor.CompressAmount (u64 (nValue txout)) with
  | Some nVal => Some (WriteVarInt nVal ++ CScriptCompressor.Serialize vch0 (scriptPubKey txout))
  | None => None
  end.

(** Into [txout]. *)
Definition Unserialize_compressed (txout : CTxOut) : Reader CTxOut :=
  nVal <-- ReadVarInt 64 ;;
  sc <-- CScriptCompressor.Unserialize vch0 (scriptPubKey txout) ;;
  rret {| nValue := i64 (CTxOutCompressor.DecompressAmount nVal); scriptPubKey := sc |}.

End TxOut.

(** ** Amounts *)

Section Amounts.
Import CTxOutCompressor.

Lemma strip_zeros_spec fuel : forall n e, 0 < n -> 0 <= e <= 9 -> 9 - e < Z.of_nat fuel ->
  exists m e', strip_zeros fuel n e = (m, e') /\ e <= e' <= 9 /\ n = m * 10 ^ (e' - e) /\ 0 < m /\
               (e' < 9 -> m mod 10 <> 0).
Proof.
  induction fuel as [|f IH]; intros n e Hn He Hf; [lia|]. cbn [strip_zeros].
  destruct (Z.eqb_spec (n mod 10) 0) as [E|E]; cbn [andb].
  2: { exists n, e. split; [done|]. rewrite Z.sub_diag. lia. }
  destruct (Z.ltb_spec e 9).
  2: { exists n, e. split; [done|]. rewrite Z.sub_diag. lia. }
  pose proof (Z.div_mod n 10 ltac:(lia)).
  destruct (IH (n / 10) (e + 1)) as (m & e' & -> & ? & Hm & ? & ?); [lia..|].
  exists m, e'. split; [done|]. split; [lia|]. split; [|done].
  replace (e' - e) with (e' - (e + 1) + 1) by lia. rewrite Z.pow_add_r by lia. lia.
Qed.

Lemma add_zeros_spec e : forall n, 0 <= n -> n * 10 ^ Z.of_nat e < 2 ^ 64 -> add_zeros e n = n * 10 ^ Z.of_nat e.
Proof.
  induction e as [|e IH]; intros n Hn Hb; cbn [add_zeros]; [rewrite Z.mul_1_r; done|].
  rewrite Nat2Z.inj_succ, Z.pow_succ_r in Hb |- * by lia.
  pose proof (Z.pow_pos_nonneg 10 (Z.of_nat e) ltac:(lia) ltac:(lia)).
  rewrite uwrap_small by nia. rewrite IH; lia.
Qed.

(** What an amount is compressed to, and that it decompresses to the amount. *)
Lemma amount_round_trip n : 0 <= n -> 9 * n + 9 < 2 ^ 64 ->
  exists x, CompressAmount n = Some x /\ uint_wf 64 x /\ DecompressAmount x = n.
Proof.
  intros Hn Hb. unfold CompressAmount, uint_wf. destruct (Z.eqb_spec n 0) as [->|]; [by exists 0|].
  destruct (strip_zeros_spec 10 n 0) as (m & e & -> & He & Hm & Hm0 & Hd); [lia..|].
  rewrite Z.sub_0_r in Hm. pose proof (Z.pow_pos_nonneg 10 e ltac:(lia) ltac:(lia)) as Hp.
  pose proof (Z.div_mod m 10 ltac:(lia)) as Hq. pose proof (Z.mod_pos_bound m 10 ltac:(lia)).
  pose proof (Z.div_pos m 10 ltac:(lia) ltac:(lia)). unfold DecompressAmount.
  destruct (Z.ltb_spec e 9).
  - replace ((1 <=? m mod 10) && (m mod 10 <=? 9)) with true by (symmetry; apply andb_true_iff; split; lia).
    set (q := m / 10) in *. set (d := m mod 10) in *. assert (m <= n) by nia.
    eexists; split; [reflexivity|]. rewrite uwrap_small by lia. split; [lia|].
    destruct (Z.eqb_spec (1 + (q * 9 + d - 1) * 10 + e) 0); [lia|].
    replace (1 + (q * 9 + d - 1) * 10 + e - 1) with (e + (d - 1 + q * 9) * 10) by lia.
    destruct (digit_split 10 e (d - 1 + q * 9)) as [-> ->]; [lia|]. destruct (Z.ltb_spec e 9); [|lia].
    destruct (digit_split 9 (d - 1) q) as [-> ->]; [lia|]. replace (q * 10 + (d - 1 + 1)) with m by lia.
    rewrite uwrap_small by lia. rewrite add_zeros_spec; rewrite ?Z2Nat.id by lia; lia.
  - assert (e = 9) as -> by lia. change (10 ^ 9) with 1000000000 in *.
    eexists; split; [reflexivity|]. rewrite uwrap_small by lia. split; [lia|].
    destruct (Z.eqb_spec (1 + (m - 1) * 10 + 9) 0); [lia|].
    replace (1 + (m - 1) * 10 + 9 - 1) with (9 + (m - 1) * 10) by lia.
    destruct (digit_split 10 9 (m - 1)) as [-> ->]; [lia|]. destruct (Z.ltb_spec 9 9); [lia|]. rewrite uwrap_small by lia.
    rewrite add_zeros_spec; change (10 ^ Z.of_nat (Z.to_nat 9)) with 1000000000; lia.
Qed.

(** The digit is as the assertion wants it for every amount. *)
Lemma CompressAmount_defined n : 0 <= n -> CompressAmount n <> None.
Proof.
  intros Hn. unfold CompressAmount. destruct (Z.eqb_spec n 0) as [->|]; [done|].
  destruct (strip_zeros_spec 10 n 0) as (m & e & -> & He & _ & Hm0 & Hd); [lia..|].
  destruct (Z.ltb_spec e 9); [|done]. pose proof (Z.mod_pos_bound m 10 ltac:(lia)).
  by replace ((1 <=? m mod 10) && (m mod 10 <=? 9)) with true by (symmetry; apply andb_true_iff; split; lia).
Qed.

(** Above that the product wraps around: an amount of 2^63 - 1 comes back as another one. *)
Lemma amount_wraps : exists x, CompressAmount (2 ^ 63 - 1) = Some x /\ DecompressAmount x <> 2 ^ 63 - 1.
Proof. eexists. split; [vm_compute; reflexivity|]. by vm_compute. Qed.

End Amounts.

(** ** Scripts *)

(** What the formats of a point have to do with each other: the long form of a key is the only
    one with its header, and the short form keeps its first coordinate and the parity of the second. *)
Class Secp256k1Forms (E : Secp256k1) : Prop := {
  uncompressed_canonical : forall k p, length k = 65%nat -> hd 0 k = 4 -> ec_pubkey_parse k = Some p ->
    ec_pubkey_serialize false p = k;
  compressed_form : forall p x y, ec_pubkey_serialize false p = 4 :: x ++ y -> length x = 32%nat ->
    length y = 32%nat -> ec_pubkey_serialize true p = (2 + List.last y 0 mod 2) :: x
}.

Section Scripts.
Import CScriptCompressor.
Context {E : Secp256k1} {L : Secp256k1Laws E} {F : Secp256k1Forms E}.
Context (vch0 : CPubKey.pubkey) (Hvch0 : length vch0 = 65%nat).

Lemma make_length v : length v = 65%nat -> length (CPubKey.make v) = 65%nat.
Proof. unfold CPubKey.make, CPubKey.Invalidate. by destruct v. Qed.

(** The array after it was set to a valid key, byte by byte. *)
Lemma Set_bytes v k : CPubKey.ValidSize k = true -> CPubKey.Set_ v k = CPubKey.overwrite v k.
Proof.
  intros H. pose proof (valid_size_length k H) as Hl. unfold CPubKey.ValidSize in H. propify.
  destruct k as [|h r]; [by destruct Hl|]. cbn [hd] in *. unfold CPubKey.Set_.
  rewrite H0, Z.eqb_refl, andb_true_r. destruct (Z.eqb_spec (size (h :: r)) 0); [lia|]. cbn [negb].
  by rewrite take_ge by (unfold size; lia).
Qed.

(** The scripts with a special form, and their forms. *)
Inductive special : script -> list Z -> Prop :=
  | special_keyid h : length h = 20%nat -> special (GetScriptForDestination (CKeyID h)) (0 :: h)
  | special_scriptid h : length h = 20%nat -> special (GetScriptForDestination (CScriptID h)) (1 :: h)
  | special_short b x : b = 2 \/ b = 3 -> length x = 32%nat -> special (key_script (b :: x)) (b :: x)
  | special_long x y p : length x = 32%nat -> length y = 32%nat -> ec_pubkey_parse (4 :: x ++ y) = Some p ->
      special (key_script (4 :: x ++ y)) (4 + List.last y 0 mod 2 :: x).

Lemma IsToKeyID_some s h : IsToKeyID s = Some h -> special s (0 :: h).
Proof.
  intros H. change (IsToKeyID s) with (MatchPayToPubkeyHash s) in H.
  apply MatchPayToPubkeyHash_spec in H as [Hl ->]. by constructor.
Qed.

Lemma IsToScriptID_some s h : IsToScriptID s = Some h -> special s (1 :: h).
Proof.
  intros H. change (IsToScriptID s) with (if IsPayToScriptHash s then Some (take 20 (drop 2 s)) else None) in H.
  destruct (IsPayToScriptHash s) eqn:Es; [|done]. injection H as <-.
  apply IsPayToScriptHash_spec in Es as (h & Hl & ->).
  replace (take 20 _) with h; [by constructor|]. by pattern h; apply (list_of_20 _ _ Hl).
Qed.

(** A script of a push of [n] bytes and CHECKSIG. *)
Lemma key_script_of s n : length s = (n + 2)%nat -> (n < 76)%nat -> at_ s 0 = Z.of_nat n ->
  at_ s (n + 1) = 172 -> exists k, s = key_script k /\ length k = n /\ k = take n (drop 1 s).
Proof.
  intros Hl Hn H0 H1. exists (take n (drop 1 s)).
  assert (length (take n (drop 1 s)) = n) as Hk by (rewrite length_take, length_drop; lia).
  split; [|done]. unfold key_script, push_ops. rewrite push_short by (unfold size; lia).
  unfold size. rewrite Hk, <- H0. destruct s as [|a s]; [cbn in Hl; lia|]. cbn [at_ nth drop app] in *. f_equal.
  unfold at_ in H1. replace (n + 1)%nat with (S n) in H1 by lia. cbn [nth] in H1. cbn [length] in Hl.
  change (map opcode [OP_CHECKSIG]) with [172]. rewrite <- H1. symmetry. rewrite <- (take_drop n s) at 3. f_equal.
  assert (length (drop n s) = 1)%nat as Hd by (rewrite length_drop; lia).
  rewrite <- (take_drop n s) at 1. rewrite app_nth2; rewrite length_take; [|lia].
  replace (n - n `min` length s)%nat with 0%nat by lia. destruct (drop n s) as [|b [|]]; done.
Qed.

Lemma parity_header y : Z.lor 4 (Z.land y 1) = 4 + y mod 2.
Proof.
  change 1 with (Z.ones 1). rewrite Z.land_ones by lia. change (2 ^ 1) with 2.
  pose proof (Z.mod_pos_bound y 2 ltac:(lia)). by assert (y mod 2 = 0 \/ y mod 2 = 1) as [-> | ->] by lia.
Qed.

Lemma last_nth (l : list Z) n : length l = S n -> List.last l 0 = nth n l 0.
Proof.
  intros H. destruct (exists_last (l := l)) as (r & y & ->); [by intros ->|].
  rewrite length_app in H. cbn [length] in H. rewrite last_last, app_nth2 by lia.
  by replace (n - length r)%nat with 0%nat by lia.
Qed.

Lemma IsToPubKey_some s pk : IsToPubKey vch0 s = Some pk ->
  exists k, s = key_script k /\ pk = CPubKey.overwrite (CPubKey.make vch0) k /\
    ((length k = 33%nat /\ (hd 0 k = 2 \/ hd 0 k = 3)) \/
     (length k = 65%nat /\ hd 0 k = 4 /\ exists p, ec_pubkey_parse k = Some p)).
Proof.
  unfold IsToPubKey. cbn [opcode]. destruct ((((size s =? 35) && _) && _) && _) eqn:E1.
  - intros Epk. apply (inj Some) in Epk as <-. propify. unfold size in *. destruct (key_script_of s 33) as (k & Hs & Hl & <-); [lia..|done|].
    exists k. split; [done|]. assert (hd 0 k = at_ s 1) as Hh.
    { rewrite Hs. unfold key_script, push_ops. rewrite push_short by (unfold size; lia). by destruct k. }
    assert (hd 0 k = 2 \/ hd 0 k = 3) as Hor by (rewrite Hh; apply orb_true_iff in H0 as [?%Z.eqb_eq|?%Z.eqb_eq]; auto).
    rewrite Set_bytes; [by auto|]. unfold CPubKey.ValidSize, size. rewrite Hl. by destruct Hor as [-> | ->].
  - destruct ((((size s =? 67) && _) && _) && _) eqn:E2; [|done]. cbv zeta. propify. unfold size in *.
    destruct (key_script_of s 65) as (k & Hs & Hl & <-); [lia..|done|].
    destruct (CPubKey.IsFullyValid _) eqn:Ev; [|done]. intros Epk. apply (inj Some) in Epk as <-. exists k. split; [done|].
    assert (hd 0 k = 4) as Hh.
    { rewrite <- H0, Hs. unfold key_script, push_ops. rewrite push_short by (unfold size; lia). by destruct k. }
    assert (CPubKey.ValidSize k = true) as Hv by (unfold CPubKey.ValidSize, size; by rewrite Hl, Hh).
    split; [by apply Set_bytes|]. right. split; [done|]. split; [done|]. unfold CPubKey.IsFullyValid in Ev.
    destruct (negb _); [done|].
    destruct (Set_valid (CPubKey.make vch0) k) as (_ & Ed & _); [by apply make_length|done|]. rewrite Ed in Ev.
    destruct (ec_pubkey_parse k) as [p|]; [by exists p|done].
Qed.

Lemma Compress_special s out : Compress vch0 s = Some out -> special s out.
Proof.
  unfold Compress. destruct (IsToKeyID s) as [h|] eqn:E1; [intros [= <-]; by apply IsToKeyID_some|].
  destruct (IsToScriptID s) as [h|] eqn:E2; [intros [= <-]; by apply IsToScriptID_some|].
  destruct (IsToPubKey vch0 s) as [pk|] eqn:E3; [|done]. cbv zeta.
  apply IsToPubKey_some in E3 as (k & -> & -> & [(Hl & Hh)|(Hl & Hh & p & Hp)]);
    (destruct k as [|b x]; [done|]); cbn [hd length] in Hl, Hh; unfold CPubKey.overwrite;
    cbn [app at_ nth drop].
  - replace ((b =? 2) || (b =? 3)) with true by (by destruct Hh as [-> | ->]).
    intros [= <-]. rewrite drop_0, (take_app_length' x) by lia. constructor; [done|lia].
  - subst b. cbn [Z.eqb Pos.eqb orb]. rewrite drop_0. intros [= <-]. rewrite <- (take_drop 32 x) in Hp |- *.
    set (a := take 32 x) in *. set (y := drop 32 x) in *.
    assert (length a = 32%nat) as Ha by (unfold a; rewrite length_take; lia).
    assert (length y = 32%nat) as Hy by (unfold y; rewrite length_drop; lia).
    rewrite parity_header, <- app_assoc, (take_app_length' a) by done. cbn [Pos.eqb orb Z.eqb].
    rewrite app_nth2 by lia. rewrite app_nth1 by lia. rewrite Ha. change (63 - 32)%nat with 31%nat.
    rewrite <- last_nth by done. by econstructor.
Qed.

(** The read back of a special form: its first byte is the code, the others are read whole, and
    the script is written over whatever there was. *)
Lemma Decompress_special s out : special s out ->
  exists b x, out = b :: x /\ 0 <= b < nSpecialScripts /\ size x = GetSpecialSize b /\
    forall s0, Decompress vch0 b x s0 = Some (true, s).
Proof.
  assert (forall n b (x : list Z), GetSpecialSize b = Z.of_nat n -> length x = n ->
            size x = GetSpecialSize b /\ (size x <? GetSpecialSize b) = false) as Hsz.
  { intros n b x -> Hl. unfold size. rewrite Hl. split; [done|]. by apply Z.ltb_ge. }
  intros [h Hl|h Hl|b x Hb Hl|x y p Hx Hy Hp].
  - exists 0, h. destruct (Hsz 20%nat 0 h eq_refl Hl) as [E1 E2]. split_and!; [done..|]. intros s0.
    unfold Decompress. rewrite E2. by pattern h; apply (list_of_20 _ _ Hl).
  - exists 1, h. destruct (Hsz 20%nat 1 h eq_refl Hl) as [E1 E2]. split_and!; [done..|]. intros s0.
    unfold Decompress. rewrite E2. by pattern h; apply (list_of_20 _ _ Hl).
  - exists b, x. destruct (Hsz 32%nat b x) as [E1 E2]; [by destruct Hb as [-> | ->]|done|].
    split_and!; [done|unfold nSpecialScripts; lia..|done|]. intros s0. unfold Decompress. rewrite E2.
    rewrite (take_ge x 32) by lia. unfold key_script, push_ops.
    rewrite push_short by (rewrite size_cons; unfold size; lia). rewrite size_cons. unfold size. rewrite Hl.
    by destruct Hb as [-> | ->].
  - pose proof (Z.mod_pos_bound (List.last y 0) 2 ltac:(lia)) as Hm. set (q := List.last y 0 mod 2) in *.
    exists (4 + q), x. destruct (Hsz 32%nat (4 + q) x) as [E1 E2]; [by assert (q = 0 \/ q = 1) as [-> | ->] by lia|done|].
    split_and!; [done|unfold nSpecialScripts; lia..|done|]. intros s0. unfold Decompress. rewrite E2.
    replace (4 + q =? 0) with false by lia. replace (4 + q =? 1) with false by lia.
    replace (4 + q =? 2) with false by lia. replace (4 + q =? 3) with false by lia.
    replace ((4 + q =? 4) || (4 + q =? 5)) with true by lia. cbn [orb]. cbv zeta.
    replace (4 + q - 2) with (2 + q) by lia. rewrite (take_ge x 32) by lia.
    assert (ec_pubkey_serialize false p = 4 :: x ++ y) as Es
      by (apply uncompressed_canonical; [cbn [length]; rewrite length_app; lia|done|done]).
    pose proof (compressed_form p x y Es Hx Hy) as Ec. fold q in Ec. rewrite <- Ec.
    destruct (Set_serialized vch0 true p Hvch0) as [Ed Ez]. unfold CPubKey.of_range, CPubKey.Decompress.
    unfold CPubKey.IsValid. rewrite Ez. cbn [negb Z.gtb Z.compare]. rewrite Ed, parse_serialize, Es. cbn [negb].
    assert (CPubKey.ValidSize (4 :: x ++ y) = true) as Hv
      by (unfold CPubKey.ValidSize, size; cbn [length hd]; by rewrite length_app, Hx, Hy).
    assert (length (CPubKey.Set_ vch0 (ec_pubkey_serialize true p)) = 65%nat) as H65.
    { rewrite Ec. apply Set_valid; [done|]. unfold CPubKey.ValidSize, size. cbn [length hd]. rewrite Hx.
      by assert (q = 0 \/ q = 1) as [-> | ->] by lia. }
    destruct (Set_valid _ _ H65 Hv) as (Sz & _ & _). rewrite Sz, Set_bytes by done.
    assert (length (4 :: x ++ y) = 65%nat) as Hk by (cbn [length]; rewrite length_app; lia).
    replace (size (4 :: x ++ y)) with 65 by (unfold size; by rewrite Hk). cbn [Z.eqb Pos.eqb negb].
    unfold CPubKey.overwrite. rewrite (take_app_length' (4 :: x ++ y)) by done.
    unfold key_script, push_ops. rewrite push_short; [|unfold size; lia].
    unfold size. by rewrite Hk.
Qed.

Definition script_wf (s : script) : Prop := size s <= MAX_SCRIPT_SIZE.

Lemma ReadVarInt_small b rest : 0 <= b < 128 -> ReadVarInt 32 (b :: rest) = Some (b, rest).
Proof.
  intros Hb. rewrite <- (ReadVarInt_WriteVarInt 32 b rest) by lia. f_equal. unfold WriteVarInt.
  cbn [varint_digits]. destruct (Z.leb_spec b 127); [|lia]. cbn [rev app]. f_equal.
  rewrite Z.lor_0_r, land_127, Z.mod_small; lia.
Qed.

Lemma read_script s s0 rest : script_wf s -> Unserialize vch0 s0 (Serialize vch0 s ++ rest) = Some (s, rest).
Proof.
  intros Hs. unfold Unserialize, Serialize. destruct (Compress vch0 s) as [out|] eqn:Ec.
  - apply Compress_special, Decompress_special in Ec as (b & x & -> & Hb & Hx & Hd). cbn [app].
    unfold nSpecialScripts in Hb. erewrite rbind_ok by (apply ReadVarInt_small; lia).
    destruct (Z.ltb_spec b nSpecialScripts); [|unfold nSpecialScripts in *; lia].
    erewrite rbind_ok by (by apply read_bytes_app). by rewrite Hd.
  - unfold script_wf, MAX_SCRIPT_SIZE in Hs. pose proof (size_nonneg s). unfold nSpecialScripts.
    rewrite uwrap_small by lia. rewrite <- app_assoc. erewrite rbind_ok by (apply ReadVarInt_WriteVarInt; lia).
    destruct (Z.ltb_spec (size s + 6) 6); [lia|]. cbv zeta. unfold MAX_SCRIPT_SIZE. rewrite Z.gtb_ltb.
    destruct (Z.ltb_spec 10000 (size s + 6 - 6)); [lia|]. apply read_bytes_app. unfold size. lia.
Qed.

(** A longer script comes back as [OP_RETURN], after what was there: what cannot be spent. *)
Lemma read_long_script s s0 rest : MAX_SCRIPT_SIZE < size s < 2 ^ 31 ->
  Unserialize vch0 s0 (Serialize vch0 s ++ rest) = Some (s0 ++ [opcode OP_RETURN], rest).
Proof.
  intros Hs. unfold MAX_SCRIPT_SIZE in Hs. unfold Unserialize, Serialize, nSpecialScripts.
  destruct (Compress vch0 s) as [out|] eqn:Ec.
  { exfalso. revert Hs. apply Compress_special in Ec as [h Hl|h Hl|b x Hb Hl|x y p Hx Hy Hp]; intros Hs.
    - revert Hs. pattern h. apply (list_of_20 _ _ Hl). by intros ???????????????????? [Hs _].
    - revert Hs. pattern h. apply (list_of_20 _ _ Hl). by intros ???????????????????? [Hs _].
    - unfold key_script, push_ops in Hs. rewrite push_short in Hs by (rewrite size_cons; unfold size; lia).
      unfold size in Hs. cbn [length app] in Hs. rewrite length_app, Hl in Hs. cbn in Hs. lia.
    - assert (size (4 :: x ++ y) = 65) as Hk by (unfold size; cbn [length]; by rewrite length_app, Hx, Hy).
      unfold key_script, push_ops in Hs. rewrite push_short in Hs by lia. rewrite Hk in Hs.
      unfold size in *. cbn [length app] in *. rewrite !length_app, Hx, Hy in Hs. cbn in Hs. lia. }
  rewrite uwrap_small by lia. rewrite <- app_assoc. erewrite rbind_ok by (apply ReadVarInt_WriteVarInt; lia).
  destruct (Z.ltb_spec (size s + 6) 6); [lia|]. cbv zeta. unfold MAX_SCRIPT_SIZE. rewrite Z.gtb_ltb.
  destruct (Z.ltb_spec 10000 (size s + 6 - 6)); [|lia]. replace (size s + 6 - 6) with (size s) by lia.
  unfold ignore. rewrite swrap_small by lia. destruct (Z.ltb_spec (size s) 0); [lia|].
  erewrite rbind_ok; [done|]. erewrite rbind_ok by (by apply read_bytes_app). done.
Qed.

(** An output whose amount does not overflow. *)
Definition output_wf (o : CTxOut) : Prop := 0 <= nValue o /\ 9 * nValue o + 9 < 2 ^ 64 /\ script_wf (scriptPubKey o).

Lemma read_output o o0 : output_wf o -> exists b, Serialize_compressed vch0 o = Some b /\
  forall rest, Unserialize_compressed vch0 o0 (b ++ rest) = Some (o, rest).
Proof.
  intros (H0 & Hb & Hs). destruct o as [v s]. cbn [nValue scriptPubKey] in *.
  unfold Serialize_compressed, Unserialize_compressed. cbn [nValue scriptPubKey].
  rewrite uwrap_small by lia. destruct (amount_round_trip v H0 Hb) as (x & -> & Hx & Hd).
  eexists. split; [reflexivity|]. intros rest. rewrite <- app_assoc.
  erewrite rbind_ok by (apply ReadVarInt_WriteVarInt; [lia|done]). erewrite rbind_ok by (by apply read_script).
  rewrite Hd, swrap_small by lia. done.
Qed.

(** [Decompress] cannot fail its assertion, nor read outside [in], when [in] has the size that
    [GetSpecialSize] asks for. *)
Lemma Decompress_defined n x s0 : 0 <= n -> size x = GetSpecialSize n -> Decompress vch0 n x s0 <> None.
Proof.
  intros Hn Hx. unfold Decompress. rewrite Hx, Z.ltb_irrefl.
  destruct (n =? 0); [done|]. destruct (n =? 1); [done|]. destruct (_ || _); [done|].
  destruct ((n =? 4) || (n =? 5)) eqn:En; [|done]. unfold CPubKey.Decompress. cbv zeta.
  set (k := (n - 2) :: take 32 x).
  assert (n = 4 \/ n = 5) as Hn' by (apply orb_true_iff in En as [?%Z.eqb_eq|?%Z.eqb_eq]; auto).
  assert (length k = 33%nat) as Hk.
  { unfold k. cbn [length]. rewrite length_take. unfold size in Hx. destruct Hn' as [-> | ->]; cbn in Hx; lia. }
  assert (CPubKey.ValidSize k = true) as Hv.
  { unfold CPubKey.ValidSize, size. rewrite Hk. by destruct Hn' as [-> | ->]. }
  destruct (Set_valid vch0 k Hvch0 Hv) as (_ & _ & Hl). unfold CPubKey.of_range.
  destruct (negb (CPubKey.IsValid _)); [done|]. destruct (ec_pubkey_parse _) as [p|]; [|done]. cbn [negb].
  destruct (Set_serialized _ false p Hl) as [_ ->]. done.
Qed.

End Scripts.

(** A toy curve of two points with both sets of laws. *)
Definition toy_point (p : bool) : list Z := replicate 32 0 ++ replicate 31 0 ++ [if p then 1 else 0].
Definition toy_forms : Secp256k1 := {|
  ec_pubkey := bool; ec_signature := bool; ec_recoverable := unit;
  ec_pubkey_parse := fun l =>
    match l with
    | 2 :: _ => Some false | 3 :: _ => Some true
    | _ => if bool_decide (l = 4 :: toy_point false) then Some false
           else if bool_decide (l = 4 :: toy_point true) then Some true else None
    end;
  ec_pubkey_serialize := fun c p => if c then (if p then 3 else 2) :: replicate 32 0 else 4 :: toy_point p;
  signature_parse_der := fun l => match l with 48 :: _ => Some false | _ => None end;
  signature_normalize := fun s => (false, s);
  ecdsa_verify := fun _ _ p => p;
  recoverable_parse_compact := fun _ _ => Some tt;
  ecdsa_recover := fun _ _ => Some true
|}.

#[export] Instance toy_forms_laws : Secp256k1Laws toy_forms.
Proof.
  split.
  - intros []; repeat eexists; auto.
  - intros []; eexists; (split; [reflexivity|done]).
  - by intros [] [].
  - done.
Qed.

#[export] Instance toy_forms_forms : Secp256k1Forms toy_forms.
Proof.
  split.
  - intros k p Hl Hh. destruct k as [|h k]; [done|]. cbn [hd] in Hh. subst h. cbn -[toy_point].
    repeat case_bool_decide; [intros [= <-]; congruence|intros [= <-]; congruence|done].
  - intros p x y E Hx Hy. cbn -[Z.modulo] in *. injection E as E.
    change ((if p then 3 else 2) :: replicate 32 0 = (2 + List.last y 0 mod 2) :: x).
    assert (toy_point p = x ++ y) as E' by (by unfold toy_point; cbn; f_equal). unfold toy_point in E'.
    apply app_inj_1 in E' as [<- <-]; [|by rewrite Hx]. by destruct p.
Qed.
