(* ===== verification/Coins.v ===== *)
(** * Coins: [src/src/coins.h] and [coins.cpp]
    The unspent outputs of a transaction ([CCoins]) and the views of the set of all of them:
    [CoinsView] is the class of what a view offers, [CCoinsViewCache] the cache in front of another
    view.  The methods of a view that are [const] in the code still fill caches, so every method
    returns the new state.  The two kinds of anchors and nullifiers (Sprout and Sapling) have the
    same code twice; here it is once, indexed by [ShieldedType].  A method that fails an assertion
    is [None].  The commitment trees are a type [Tree] with their root, and the memory sizes of
    objects are arguments. *)
From stdpp Require Import gmap.
From S2P Require Import Prelude Uint256 Script Serialize Amount Transaction.

Abbreviation uint256 := (list Z) (only parsing).

(** ** Unspent outputs of a transaction *)

Record CCoins := { cc_fCoinBase : bool; cc_vout : list CTxOut; cc_nHeight : Z; cc_nVersion : Z }.

(** [CCoins()] and [Clear()] *)
Definition CCoins_empty : CCoins := {| cc_fCoinBase := false; cc_vout := []; cc_nHeight := 0; cc_nVersion := 0 |}.

Definition with_vout (c : CCoins) (v : list CTxOut) : CCoins :=
  {| cc_fCoinBase := cc_fCoinBase c; cc_vout := v; cc_nHeight := cc_nHeight c; cc_nVersion := cc_nVersion c |}.

(** The outputs without the null ones at the end. *)
Fixpoint drop_nulls (v : list CTxOut) : list CTxOut :=
  match v with
  | [] => []
  | o :: v' => match drop_nulls v' with [] => if TxOut.IsNull o then [] else [o] | r => o :: r end
  end.

Definition Cleanup (c : CCoins) : CCoins := with_vout c (drop_nulls (cc_vout c)).

Definition ClearUnspendable (c : CCoins) : CCoins :=
  Cleanup (with_vout c (map (fun o => if CScript.IsUnspendable (scriptPubKey o) then TxOut.SetNull else o) (cc_vout c))).

Definition FromTx (t : tx) (nHeightIn : Z) : CCoins :=
  ClearUnspendable {| cc_fCoinBase := IsCoinBase t; cc_vout := vout t; cc_nHeight := nHeightIn; cc_nVersion := nVersion t |}.

Definition IsAvailable (c : CCoins) (nPos : Z) : bool :=
  match cc_vout c !! Z.to_nat nPos with Some o => negb (TxOut.IsNull o) | None => false end.

Definition IsPruned (c : CCoins) : bool := forallb TxOut.IsNull (cc_vout c).

Definition Spend (c : CCoins) (nPos : Z) : CCoins * bool :=
  if IsAvailable c nPos then (Cleanup (with_vout c (<[Z.to_nat nPos := TxOut.SetNull]> (cc_vout c))), true)
  else (c, false).

Definition txout_eq (a b : CTxOut) : bool :=
  (nValue a =? nValue b) && bool_decide (scriptPubKey a = scriptPubKey b).

(** [operator==]: pruned objects are always equal. *)
Definition CCoins_eq (a b : CCoins) : bool :=
  if IsPruned a && IsPruned b then true
  else Bool.eqb (cc_fCoinBase a) (cc_fCoinBase b) && (cc_nHeight a =? cc_nHeight b) && (cc_nVersion a =? cc_nVersion b) &&
       Nat.eqb (length (cc_vout a)) (length (cc_vout b)) &&
       forallb (fun p => txout_eq (fst p) (snd p)) (combine (cc_vout a) (cc_vout b)).

(** [TotalTxValue()]: the null outputs count with their value of -1. *)
Definition TotalTxValue (c : CCoins) : Z := fold_left (fun total o => i64 (total + nValue o)) (cc_vout c) 0.

(** ** Cache entries *)

Definition DIRTY : Z := 1.
Definition FRESH : Z := 2.

Definition has (flags flag : Z) : bool := negb (Z.land flags flag =? 0).

Record CCoinsCacheEntry := { ce_coins : CCoins; ce_flags : Z }.
Definition CCoinsCacheEntry_new : CCoinsCacheEntry := {| ce_coins := CCoins_empty; ce_flags := 0 |}.

Record CAnchorsCacheEntry (Tree : Type) := { ae_entered : bool; ae_tree : Tree; ae_flags : Z }.
Arguments ae_entered {Tree} _.
Arguments ae_tree {Tree} _.
Arguments ae_flags {Tree} _.

Record CNullifiersCacheEntry := { ne_entered : bool; ne_flags : Z }.
Definition CNullifiersCacheEntry_new : CNullifiersCacheEntry := {| ne_entered := false; ne_flags := 0 |}.

Inductive ShieldedType := SPROUT | SAPLING.

#[export] Instance ShieldedType_eq_dec : EqDecision ShieldedType.
Proof. solve_decision. Defined.

Abbreviation CCoinsMap := (gmap (list Z) CCoinsCacheEntry).
Abbreviation CAnchorsMap Tree := (gmap (list Z) (CAnchorsCacheEntry Tree)).
Abbreviation CNullifiersMap := (gmap (list Z) CNullifiersCacheEntry).

(** A member for each type, the one of a type, and an assignment to it. *)
Record both (A : Type) := Both { sprout : A; sapling : A }.
Arguments Both {A} _ _.
Arguments sprout {A} _.
Arguments sapling {A} _.
Definition sel {A} (b : both A) (t : ShieldedType) : A := match t with SPROUT => sprout b | SAPLING => sapling b end.
Definition upd {A} (b : both A) (t : ShieldedType) (a : A) : both A :=
  match t with SPROUT => Both a (sapling b) | SAPLING => Both (sprout b) a end.

(** ** Views *)

(** The arguments of [BatchWrite]. *)
Record batch (Tree : Type) := {
  b_coins : CCoinsMap; b_hashBlock : list Z; b_hashAnchor : both (list Z);
  b_anchors : both (CAnchorsMap Tree); b_nullifiers : both CNullifiersMap
}.
Arguments b_coins {Tree} _.
Arguments b_hashBlock {Tree} _.
Arguments b_hashAnchor {Tree} _.
Arguments b_anchors {Tree} _.
Arguments b_nullifiers {Tree} _.

(** [CCoinsView], with states in [S]. *)
Class CoinsView (Tree S : Type) := {
  GetAnchorAt : S -> ShieldedType -> list Z -> S * option Tree;
  GetNullifier : S -> ShieldedType -> list Z -> S * bool;
  GetCoins : S -> list Z -> S * option CCoins;
  HaveCoins : S -> list Z -> S * bool;
  GetBestBlock : S -> S * list Z;
  GetBestAnchor : S -> ShieldedType -> S * list Z;
  BatchWrite : S -> batch Tree -> option (S * bool)
}.

(** The trees of commitments, as the cache uses them: [root] by type, [append], which throws when the
    tree is full ([None]), and the empty tree that a new cache entry holds. *)
Class CommitmentTree (Tree : Type) := {
  tree_root : ShieldedType -> Tree -> list Z;
  tree_append : ShieldedType -> Tree -> list Z -> option Tree;
  tree_empty : Tree
}.

(** Appending commitments one after the other. *)
Fixpoint tree_append_list `{CommitmentTree Tree} (ty : ShieldedType) (tree : Tree) (cms : list (list Z)) : option Tree :=
  match cms with
  | [] => Some tree
  | cm :: cms =>
      match tree_append ty tree cm with
      | None => None
      | Some tree => tree_append_list ty tree cms
      end
  end.

(** [CCoinsViewCache]: the members, and the view it is backed by. *)
Record CCoinsViewCache (Tree S : Type) := {
  base : S;
  hasModifier : bool;
  hashBlock : list Z;
  cacheCoins : CCoinsMap;
  hashAnchor : both (list Z);
  cacheAnchors : both (CAnchorsMap Tree);
  cacheNullifiers : both CNullifiersMap;
  cachedCoinsUsage : Z
}.
Arguments base {Tree S} _.
Arguments hasModifier {Tree S} _.
Arguments hashBlock {Tree S} _.
Arguments cacheCoins {Tree S} _.
Arguments hashAnchor {Tree S} _.
Arguments cacheAnchors {Tree S} _.
Arguments cacheNullifiers {Tree S} _.
Arguments cachedCoinsUsage {Tree S} _.

Section Cache.
Context {Tree S : Type} {V : CoinsView Tree S} {T : CommitmentTree Tree}.
(** [DynamicMemoryUsage()] of the objects, which depends on the allocator. *)
Context (coins_usage : CCoins -> Z) (tree_usage : Tree -> Z).
#[local] Abbreviation cache := (CCoinsViewCache Tree S).

(** Assignments to one or two members. *)
Definition set_base (c : cache) (b : S) : cache :=
  {| base := b; hasModifier := hasModifier c; hashBlock := hashBlock c; cacheCoins := cacheCoins c; hashAnchor := hashAnchor c;
     cacheAnchors := cacheAnchors c; cacheNullifiers := cacheNullifiers c; cachedCoinsUsage := cachedCoinsUsage c |}.
Definition set_modifier (c : cache) (b : bool) : cache :=
  {| base := base c; hasModifier := b; hashBlock := hashBlock c; cacheCoins := cacheCoins c; hashAnchor := hashAnchor c;
     cacheAnchors := cacheAnchors c; cacheNullifiers := cacheNullifiers c; cachedCoinsUsage := cachedCoinsUsage c |}.
Definition SetBestBlock (c : cache) (h : list Z) : cache :=
  {| base := base c; hasModifier := hasModifier c; hashBlock := h; cacheCoins := cacheCoins c; hashAnchor := hashAnchor c;
     cacheAnchors := cacheAnchors c; cacheNullifiers := cacheNullifiers c; cachedCoinsUsage := cachedCoinsUsage c |}.
Definition set_coins (c : cache) (m : CCoinsMap) (usage : Z) : cache :=
  {| base := base c; hasModifier := hasModifier c; hashBlock := hashBlock c; cacheCoins := m; hashAnchor := hashAnchor c;
     cacheAnchors := cacheAnchors c; cacheNullifiers := cacheNullifiers c; cachedCoinsUsage := usage |}.
Definition set_hashAnchor (c : cache) (t : ShieldedType) (h : list Z) : cache :=
  {| base := base c; hasModifier := hasModifier c; hashBlock := hashBlock c; cacheCoins := cacheCoins c;
     hashAnchor := upd (hashAnchor c) t h;
     cacheAnchors := cacheAnchors c; cacheNullifiers := cacheNullifiers c; cachedCoinsUsage := cachedCoinsUsage c |}.
Definition set_anchors (c : cache) (t : ShieldedType) (m : CAnchorsMap Tree) (usage : Z) : cache :=
  {| base := base c; hasModifier := hasModifier c; hashBlock := hashBlock c; cacheCoins := cacheCoins c; hashAnchor := hashAnchor c;
     cacheAnchors := upd (cacheAnchors c) t m; cacheNullifiers := cacheNullifiers c; cachedCoinsUsage := usage |}.
Definition set_nullifiers (c : cache) (t : ShieldedType) (m : CNullifiersMap) : cache :=
  {| base := base c; hasModifier := hasModifier c; hashBlock := hashBlock c; cacheCoins := cacheCoins c; hashAnchor := hashAnchor c;
     cacheAnchors := cacheAnchors c; cacheNullifiers := upd (cacheNullifiers c) t m; cachedCoinsUsage := cachedCoinsUsage c |}.

(** [CCoinsViewCache(baseIn)] *)
Definition CCoinsViewCache_new (b : S) : cache :=
  {| base := b; hasModifier := false; hashBlock := replicate 32 0; cacheCoins := ∅; hashAnchor := Both (replicate 32 0) (replicate 32 0);
     cacheAnchors := Both ∅ ∅; cacheNullifiers := Both ∅ ∅; cachedCoinsUsage := 0 |}.

(** [FetchCoins(txid)]: the entry, when there is one. *)
Definition FetchCoins (c : cache) (txid : list Z) : cache * option CCoinsCacheEntry :=
  match cacheCoins c !! txid with
  | Some it => (c, Some it)
  | None =>
      let '(b, r) := GetCoins (base c) txid in
      let c := set_base c b in
      match r with
      | None => (c, None)
      | Some tmp =>
          let ret := {| ce_coins := tmp; ce_flags := if IsPruned tmp then FRESH else 0 |} in
          (set_coins c (<[txid := ret]> (cacheCoins c)) (u64 (cachedCoinsUsage c + coins_usage tmp)), Some ret)
      end
  end.

Definition cache_GetAnchorAt (c : cache) (t : ShieldedType) (rt : list Z) : cache * option Tree :=
  match sel (cacheAnchors c) t !! rt with
  | Some it => (c, if ae_entered it then Some (ae_tree it) else None)
  | None =>
      let '(b, r) := GetAnchorAt (base c) t rt in
      let c := set_base c b in
      match r with
      | None => (c, None)
      | Some tree =>
          (set_anchors c t (<[rt := {| ae_entered := true; ae_tree := tree; ae_flags := 0 |}]> (sel (cacheAnchors c) t))
             (u64 (cachedCoinsUsage c + tree_usage tree)), Some tree)
      end
  end.

Definition cache_GetNullifier (c : cache) (t : ShieldedType) (nullifier : list Z) : cache * bool :=
  match sel (cacheNullifiers c) t !! nullifier with
  | Some it => (c, ne_entered it)
  | None =>
      let '(b, tmp) := GetNullifier (base c) t nullifier in
      let c := set_base c b in
      (set_nullifiers c t (<[nullifier := {| ne_entered := tmp; ne_flags := 0 |}]> (sel (cacheNullifiers c) t)), tmp)
  end.

Definition cache_GetCoins (c : cache) (txid : list Z) : cache * option CCoins :=
  let '(c, it) := FetchCoins c txid in (c, option_map ce_coins it).

(** [AccessCoins(txid)]: the object behind the pointer, or NULL. *)
Definition AccessCoins (c : cache) (txid : list Z) : cache * option CCoins :=
  let '(c, it) := FetchCoins c txid in (c, option_map ce_coins it).

Definition cache_HaveCoins (c : cache) (txid : list Z) : cache * bool :=
  let '(c, it) := FetchCoins c txid in
  (c, match it with Some e => match cc_vout (ce_coins e) with [] => false | _ => true end | None => false end).

(** The backing view is not NULL here. *)
Definition cache_GetBestBlock (c : cache) : cache * list Z :=
  if base_blob.IsNull (hashBlock c) then
    let '(b, h) := GetBestBlock (base c) in (SetBestBlock (set_base c b) h, h)
  else (c, hashBlock c).

Definition cache_GetBestAnchor (c : cache) (t : ShieldedType) : cache * list Z :=
  if base_blob.IsNull (sel (hashAnchor c) t) then
    let '(b, h) := GetBestAnchor (base c) t in (set_hashAnchor (set_base c b) t h, h)
  else (c, sel (hashAnchor c) t).

(** [AbstractPushAnchor]: [insert] keeps an entry that is there, whose members are then assigned. *)
Definition PushAnchor (c : cache) (t : ShieldedType) (tree : Tree) : cache :=
  let newrt := tree_root t tree in
  let '(c, currentRoot) := cache_GetBestAnchor c t in
  if bool_decide (currentRoot = newrt) then c
  else
    let usage := match sel (cacheAnchors c) t !! newrt with
                 | None => u64 (cachedCoinsUsage c + tree_usage tree)
                 | Some _ => cachedCoinsUsage c
                 end in
    set_hashAnchor
      (set_anchors c t (<[newrt := {| ae_entered := true; ae_tree := tree; ae_flags := DIRTY |}]> (sel (cacheAnchors c) t)) usage)
      t newrt.

(** [AbstractPopAnchor] with [BringBestAnchorIntoCache], whose assertion is the [None]. *)
Definition PopAnchor (c : cache) (t : ShieldedType) (newrt : list Z) : option cache :=
  let '(c, currentRoot) := cache_GetBestAnchor c t in
  if bool_decide (currentRoot = newrt) then Some c
  else
    let '(c, tree) := cache_GetAnchorAt c t currentRoot in
    match tree, sel (cacheAnchors c) t !! currentRoot with
    | Some _, Some e =>
        Some (set_hashAnchor
          (set_anchors c t (<[currentRoot := {| ae_entered := false; ae_tree := ae_tree e; ae_flags := DIRTY |}]> (sel (cacheAnchors c) t))
             (cachedCoinsUsage c)) t newrt)
    | _, _ => None
    end.

(** The two statements of the loops of [SetNullifiers]. *)
Definition set_nullifier (t : ShieldedType) (spent : bool) (c : cache) (nullifier : list Z) : cache :=
  let e := default CNullifiersCacheEntry_new (sel (cacheNullifiers c) t !! nullifier) in
  set_nullifiers c t (<[nullifier := {| ne_entered := spent; ne_flags := Z.lor (ne_flags e) DIRTY |}]> (sel (cacheNullifiers c) t)).

Definition sprout_nullifiers (tx : tx) : list (list Z) := concat (map nullifiers (vjoinsplit tx)).
Definition sapling_nullifiers (tx : tx) : list (list Z) := map sd_nullifier (vShieldedSpend tx).

Definition SetNullifiers (c : cache) (tx : tx) (spent : bool) : cache :=
  let c := fold_left (set_nullifier SPROUT spent) (sprout_nullifiers tx) c in
  fold_left (set_nullifier SAPLING spent) (sapling_nullifiers tx) c.

(** ** Modifiers *)

(** [CCoinsModifier]: the iterator (its key) and the memory the object used before. *)
Record CCoinsModifier := { m_it : list Z; m_cachedCoinUsage : Z }.

Definition ModifyCoins (c : cache) (txid : list Z) : option (cache * CCoinsModifier) :=
  if hasModifier c then None
  else
    let '(c, e, usage) :=
      match cacheCoins c !! txid with
      | Some e => (c, e, coins_usage (ce_coins e))
      | None =>
          let '(b, r) := GetCoins (base c) txid in
          let c := set_base c b in
          match r with
          | None => (c, {| ce_coins := CCoins_empty; ce_flags := FRESH |}, 0)
          | Some coins => (c, {| ce_coins := coins; ce_flags := if IsPruned coins then FRESH else 0 |}, 0)
          end
      end in
    let e := {| ce_coins := ce_coins e; ce_flags := Z.lor (ce_flags e) DIRTY |} in
    Some (set_modifier (set_coins c (<[txid := e]> (cacheCoins c)) (cachedCoinsUsage c)) true,
          {| m_it := txid; m_cachedCoinUsage := usage |}).

(** [*m] and [*m = coins]; [None] does not occur while the modifier lives. *)
Definition modifier_get (c : cache) (m : CCoinsModifier) : option CCoins :=
  option_map ce_coins (cacheCoins c !! m_it m).
Definition modifier_set (c : cache) (m : CCoinsModifier) (coins : CCoins) : option cache :=
  match cacheCoins c !! m_it m with
  | None => None
  | Some e => Some (set_coins c (<[m_it m := {| ce_coins := coins; ce_flags := ce_flags e |}]> (cacheCoins c)) (cachedCoinsUsage c))
  end.

(** [~CCoinsModifier()] *)
Definition modifier_end (c : cache) (m : CCoinsModifier) : option cache :=
  if negb (hasModifier c) then None
  else
    let c := set_modifier c false in
    match cacheCoins c !! m_it m with
    | None => None
    | Some e =>
        let coins := Cleanup (ce_coins e) in
        let usage := u64 (cachedCoinsUsage c - m_cachedCoinUsage m) in
        if has (ce_flags e) FRESH && IsPruned coins
        then Some (set_coins c (delete (m_it m) (cacheCoins c)) usage)
        else Some (set_coins c (<[m_it m := {| ce_coins := coins; ce_flags := ce_flags e |}]> (cacheCoins c))
                     (u64 (usage + coins_usage coins)))
    end.

(** A modifier that lives for one statement or block, which computes [f]: the result of [f], or
    [None] for an assertion that fails. *)
Definition modify {A} (c : cache) (txid : list Z) (f : CCoins -> option (CCoins * A)) : option (cache * A) :=
  '(c, m) ← ModifyCoins c txid;
  coins ← modifier_get c m;
  '(coins, a) ← f coins;
  c ← modifier_set c m coins;
  c ← modifier_end c m;
  Some (c, a).

(** ** Writing a child into the cache *)

(** One turn of the loop of [BatchWrite] over the coins; [None] is the failed assertion. *)
Definition write_coins (c : cache) (txid : list Z) (it : CCoinsCacheEntry) : option cache :=
  if has (ce_flags it) DIRTY then
    match cacheCoins c !! txid with
    | None =>
        if negb (IsPruned (ce_coins it)) then
          if has (ce_flags it) FRESH then
            Some (set_coins c (<[txid := {| ce_coins := ce_coins it; ce_flags := Z.lor DIRTY FRESH |}]> (cacheCoins c))
                    (u64 (cachedCoinsUsage c + coins_usage (ce_coins it))))
          else None
        else Some c
    | Some itUs =>
        let usage := u64 (cachedCoinsUsage c - coins_usage (ce_coins itUs)) in
        if has (ce_flags itUs) FRESH && IsPruned (ce_coins it) then
          Some (set_coins c (delete txid (cacheCoins c)) usage)
        else
          Some (set_coins c (<[txid := {| ce_coins := ce_coins it; ce_flags := Z.lor (ce_flags itUs) DIRTY |}]> (cacheCoins c))
                  (u64 (usage + coins_usage (ce_coins it))))
    end
  else Some c.

(** One turn of the loop of [BatchWriteAnchors]. *)
Definition write_anchor (t : ShieldedType) (c : cache) (rt : list Z) (child : CAnchorsCacheEntry Tree) : cache :=
  if has (ae_flags child) DIRTY then
    match sel (cacheAnchors c) t !! rt with
    | None =>
        set_anchors c t (<[rt := {| ae_entered := ae_entered child; ae_tree := ae_tree child; ae_flags := DIRTY |}]> (sel (cacheAnchors c) t))
          (u64 (cachedCoinsUsage c + tree_usage (ae_tree child)))
    | Some parent =>
        if Bool.eqb (ae_entered parent) (ae_entered child) then c
        else set_anchors c t (<[rt := {| ae_entered := ae_entered child; ae_tree := ae_tree parent;
                                         ae_flags := Z.lor (ae_flags parent) DIRTY |}]> (sel (cacheAnchors c) t)) (cachedCoinsUsage c)
    end
  else c.

(** One turn of the loop of [BatchWriteNullifiers]. *)
Definition write_nullifier (t : ShieldedType) (c : cache) (nf : list Z) (child : CNullifiersCacheEntry) : cache :=
  if has (ne_flags child) DIRTY then
    match sel (cacheNullifiers c) t !! nf with
    | None => set_nullifiers c t (<[nf := {| ne_entered := ne_entered child; ne_flags := DIRTY |}]> (sel (cacheNullifiers c) t))
    | Some parent =>
        if Bool.eqb (ne_entered parent) (ne_entered child) then c
        else set_nullifiers c t (<[nf := {| ne_entered := ne_entered child; ne_flags := Z.lor (ne_flags parent) DIRTY |}]>
                                   (sel (cacheNullifiers c) t))
    end
  else c.

(** A loop over the elements of a map, in the order of [map_to_list]. *)
Definition loop {St A} (f : St -> list Z -> A -> St) (l : list (list Z * A)) (s : St) : St :=
  fold_left (fun s p => f s (fst p) (snd p)) l s.

Definition write_all_coins (c : cache) (m : CCoinsMap) : option cache :=
  loop (fun r txid it => match r with None => None | Some c => write_coins c txid it end) (map_to_list m) (Some c).
Definition write_all_anchors (c : cache) (t : ShieldedType) (m : CAnchorsMap Tree) : cache :=
  loop (write_anchor t) (map_to_list m) c.
Definition write_all_nullifiers (c : cache) (t : ShieldedType) (m : CNullifiersMap) : cache :=
  loop (write_nullifier t) (map_to_list m) c.

Definition cache_BatchWrite (c : cache) (b : batch Tree) : option (cache * bool) :=
  if hasModifier c then None
  else
    c ← write_all_coins c (b_coins b);
    let c := write_all_anchors c SPROUT (sel (b_anchors b) SPROUT) in
    let c := write_all_anchors c SAPLING (sel (b_anchors b) SAPLING) in
    let c := write_all_nullifiers c SPROUT (sel (b_nullifiers b) SPROUT) in
    let c := write_all_nullifiers c SAPLING (sel (b_nullifiers b) SAPLING) in
    let c := set_hashAnchor c SPROUT (sel (b_hashAnchor b) SPROUT) in
    let c := set_hashAnchor c SAPLING (sel (b_hashAnchor b) SAPLING) in
    Some (SetBestBlock c (b_hashBlock b), true).

(** What [Flush] gives to the backing view, and the cache it leaves. *)
Definition to_batch (c : cache) : batch Tree :=
  {| b_coins := cacheCoins c; b_hashBlock := hashBlock c; b_hashAnchor := hashAnchor c;
     b_anchors := cacheAnchors c; b_nullifiers := cacheNullifiers c |}.

Definition Flush (c : cache) : option (cache * bool) :=
  '(b, fOk) ← BatchWrite (base c) (to_batch c);
  Some ({| base := b; hasModifier := hasModifier c; hashBlock := hashBlock c; cacheCoins := ∅; hashAnchor := hashAnchor c;
           cacheAnchors := Both ∅ ∅; cacheNullifiers := Both ∅ ∅; cachedCoinsUsage := 0 |}, fOk).

Definition GetCacheSize (c : cache) : Z := u32 (Z.of_nat (Datatypes.length (map_to_list (cacheCoins c)))).

(** ** Questions about the inputs of a transaction *)

(** [GetOutputFor(input)]; [None] is the failed assertion. *)
Definition GetOutputFor (c : cache) (input : CTxIn) : cache * option CTxOut :=
  let '(c, coins) := AccessCoins c (op_hash (prevout input)) in
  (c, match coins with
      | Some cs => if IsAvailable cs (op_n (prevout input)) then cc_vout cs !! Z.to_nat (op_n (prevout input)) else None
      | None => None
      end).

Fixpoint have_inputs (c : cache) (ins : list CTxIn) : cache * bool :=
  match ins with
  | [] => (c, true)
  | i :: ins' =>
      let '(c, coins) := AccessCoins c (op_hash (prevout i)) in
      match coins with
      | Some cs => if IsAvailable cs (op_n (prevout i)) then have_inputs c ins' else (c, false)
      | None => (c, false)
      end
  end.

Definition HaveInputs (c : cache) (t : tx) : cache * bool :=
  if negb (IsMint t) then have_inputs c (vin t) else (c, true).

(** The loop over the nullifiers of one description: whether none is set. *)
Fixpoint none_set (t : ShieldedType) (c : cache) (nfs : list (list Z)) : cache * bool :=
  match nfs with
  | [] => (c, true)
  | nf :: nfs' => let '(c, b) := cache_GetNullifier c t nf in if b then (c, false) else none_set t c nfs'
  end.

(** The loop over the joinsplits; [intermediates] are the trees after the ones before.  [None]: a tree
    is full, and the exception leaves [HaveJoinSplitRequirements]. *)
Fixpoint joinsplits_ok (c : cache) (intermediates : gmap (list Z) Tree) (l : list JSDescription) : option (cache * bool) :=
  match l with
  | [] => Some (c, true)
  | js :: l' =>
      let '(c, ok) := none_set SPROUT c (nullifiers js) in
      if negb ok then Some (c, false)
      else
        let '(c, tree) := match intermediates !! js_anchor js with
                          | Some tree => (c, Some tree)
                          | None => cache_GetAnchorAt c SPROUT (js_anchor js)
                          end in
        match tree with
        | None => Some (c, false)
        | Some tree =>
            match tree_append_list SPROUT tree (commitments js) with
            | None => None
            | Some tree =>
                let rt := tree_root SPROUT tree in
                let intermediates := match intermediates !! rt with Some _ => intermediates | None => <[rt := tree]> intermediates end in
                joinsplits_ok c intermediates l'
            end
        end
  end.

Fixpoint spends_ok (c : cache) (l : list SpendDescription) : cache * bool :=
  match l with
  | [] => (c, true)
  | s :: l' =>
      let '(c, b) := cache_GetNullifier c SAPLING (sd_nullifier s) in
      if b then (c, false)
      else
        let '(c, tree) := cache_GetAnchorAt c SAPLING (sd_anchor s) in
        match tree with None => (c, false) | Some _ => spends_ok c l' end
  end.

Definition HaveJoinSplitRequirements (c : cache) (t : tx) : option (cache * bool) :=
  match joinsplits_ok c ∅ (vjoinsplit t) with
  | None => None
  | Some (c, ok) => Some (if negb ok then (c, false) else spends_ok c (vShieldedSpend t))
  end.
End Cache.

#[export] Instance CCoinsViewCache_view {Tree S} `{CoinsView Tree S} coins_usage tree_usage :
  CoinsView Tree (CCoinsViewCache Tree S) := {
  GetAnchorAt := cache_GetAnchorAt tree_usage;
  GetNullifier := cache_GetNullifier;
  GetCoins := cache_GetCoins coins_usage;
  HaveCoins := cache_HaveCoins coins_usage;
  GetBestBlock := cache_GetBestBlock;
  GetBestAnchor := cache_GetBestAnchor;
  BatchWrite := cache_BatchWrite coins_usage tree_usage
}.

(** ** The database *)

(** [CCoinsViewDB] of [txdb.h/.cpp]: the records of the key-value store by kind.  A batch is written
    atomically by the store. *)
Record CCoinsViewDB (Tree : Type) := {
  db_coins : gmap (list Z) CCoins;
  db_anchors : both (gmap (list Z) Tree);
  db_nullifiers : both (gmap (list Z) bool);
  db_best_block : option (list Z);
  db_best_anchor : both (option (list Z))
}.
Arguments db_coins {Tree} _.
Arguments db_anchors {Tree} _.
Arguments db_nullifiers {Tree} _.
Arguments db_best_block {Tree} _.
Arguments db_best_anchor {Tree} _.

Section DB.
Context {Tree : Type} {T : CommitmentTree Tree}.
#[local] Abbreviation DB := (CCoinsViewDB Tree).

Definition empty_root (t : ShieldedType) : list Z := tree_root t tree_empty.

Definition db_GetAnchorAt (d : DB) (t : ShieldedType) (rt : list Z) : DB * option Tree :=
  (d, if bool_decide (rt = empty_root t) then Some tree_empty else sel (db_anchors d) t !! rt).
(** [db.Read]: whether there is a record; its value is not looked at. *)
Definition db_GetNullifier (d : DB) (t : ShieldedType) (nf : list Z) : DB * bool :=
  (d, bool_decide (is_Some (sel (db_nullifiers d) t !! nf))).
Definition db_GetCoins (d : DB) (txid : list Z) : DB * option CCoins := (d, db_coins d !! txid).
Definition db_HaveCoins (d : DB) (txid : list Z) : DB * bool := (d, bool_decide (is_Some (db_coins d !! txid))).
Definition db_GetBestBlock (d : DB) : DB * list Z := (d, default (replicate 32 0) (db_best_block d)).
Definition db_GetBestAnchor (d : DB) (t : ShieldedType) : DB * list Z := (d, default (empty_root t) (sel (db_best_anchor d) t)).

(** The operations that the loops add to the batch. *)
Definition db_write_coins (m : gmap (list Z) CCoins) (txid : list Z) (it : CCoinsCacheEntry) : gmap (list Z) CCoins :=
  if has (ce_flags it) DIRTY then if IsPruned (ce_coins it) then delete txid m else <[txid := ce_coins it]> m else m.
Definition db_write_anchor (t : ShieldedType) (m : gmap (list Z) Tree) (rt : list Z) (it : CAnchorsCacheEntry Tree) :
    gmap (list Z) Tree :=
  if has (ae_flags it) DIRTY then
    if negb (ae_entered it) then delete rt m
    else if negb (bool_decide (rt = empty_root t)) then <[rt := ae_tree it]> m else m
  else m.
Definition db_write_nullifier (m : gmap (list Z) bool) (nf : list Z) (it : CNullifiersCacheEntry) : gmap (list Z) bool :=
  if has (ne_flags it) DIRTY then if negb (ne_entered it) then delete nf m else <[nf := true]> m else m.

Definition unless_null (h : list Z) (old : option (list Z)) : option (list Z) :=
  if base_blob.IsNull h then old else Some h.

Definition db_BatchWrite (d : DB) (b : batch Tree) : option (DB * bool) :=
  Some ({| db_coins := loop db_write_coins (map_to_list (b_coins b)) (db_coins d);
           db_anchors := Both (loop (db_write_anchor SPROUT) (map_to_list (sel (b_anchors b) SPROUT)) (sel (db_anchors d) SPROUT))
                              (loop (db_write_anchor SAPLING) (map_to_list (sel (b_anchors b) SAPLING)) (sel (db_anchors d) SAPLING));
           db_nullifiers := Both (loop db_write_nullifier (map_to_list (sel (b_nullifiers b) SPROUT)) (sel (db_nullifiers d) SPROUT))
                                 (loop db_write_nullifier (map_to_list (sel (b_nullifiers b) SAPLING)) (sel (db_nullifiers d) SAPLING));
           db_best_block := unless_null (b_hashBlock b) (db_best_block d);
           db_best_anchor := Both (unless_null (sel (b_hashAnchor b) SPROUT) (sel (db_best_anchor d) SPROUT))
                                  (unless_null (sel (b_hashAnchor b) SAPLING) (sel (db_best_anchor d) SAPLING)) |}, true).

#[export] Instance CCoinsViewDB_view : CoinsView Tree DB := {
  GetAnchorAt := db_GetAnchorAt;
  GetNullifier := db_GetNullifier;
  GetCoins := db_GetCoins;
  HaveCoins := db_HaveCoins;
  GetBestBlock := db_GetBestBlock;
  GetBestAnchor := db_GetBestAnchor;
  BatchWrite := db_BatchWrite
}.
End DB.
