(* ===== verification/CoinsLaws.v ===== *)
(** * CoinsLaws: the contract of a view of the unspent outputs
    [UTXO] is the abstract set a view stands for, up to the equivalence of sets with the same answers;
    [CoinsViewLaws] is what a view promises about it.  The database keeps the contract, and a
    [CCoinsViewCache] in front of any view that keeps it keeps it too, so it holds for a stack of caches
    of any height; [Flush] and the operations of the cache are shown to do to the set what they say. *)
From stdpp Require Import gmap.
From S2P Require Import Prelude Uint256 Script Serialize Amount Transaction Coins.

(** ** Flags *)

Lemma has_lor f g b : has (Z.lor f g) b = has f b || has g b.
Proof.
  unfold has. rewrite Z.land_lor_distr_l.
  destruct (Z.eqb_spec (Z.land f b) 0) as [->|H]; [by rewrite Z.lor_0_l|].
  destruct (Z.eqb_spec (Z.lor (Z.land f b) (Z.land g b)) 0) as [E|]; [|done].
  apply Z.lor_eq_0_iff in E. by destruct E.
Qed.

Lemma has_dirty f : has (Z.lor f DIRTY) DIRTY = true.
Proof. rewrite has_lor. apply orb_true_r. Qed.
Lemma has_fresh f : has (Z.lor f DIRTY) FRESH = has f FRESH.
Proof. rewrite has_lor. apply orb_false_r. Qed.

(** ** The abstract set *)

(** A pruned object is as good as none. *)
Definition prune (o : option CCoins) : option CCoins :=
  match o with Some c => if IsPruned c then None else Some c | None => None end.

Record UTXO := {
  u_coins : list Z -> option CCoins;
  u_anchor : ShieldedType -> list Z -> bool;
  u_nullifier : ShieldedType -> list Z -> bool;
  u_best_block : list Z;
  u_best_anchor : ShieldedType -> list Z
}.

Record same (u v : UTXO) : Prop := {
  same_coins k : u_coins u k = u_coins v k;
  same_anchor t rt : u_anchor u t rt = u_anchor v t rt;
  same_nullifier t nf : u_nullifier u t nf = u_nullifier v t nf;
  same_best_block : u_best_block u = u_best_block v;
  same_best_anchor t : u_best_anchor u t = u_best_anchor v t
}.

#[export] Instance UTXO_equiv : Equiv UTXO := same.
#[export] Instance UTXO_equivalence : Equivalence (≡@{UTXO}).
Proof.
  split.
  - done.
  - intros u v H. split; intros; symmetry; apply H.
  - intros u v w H1 H2. split; intros; (etrans; [apply H1 | apply H2]).
Qed.

#[export] Instance u_coins_proper : Proper ((≡) ==> (=) ==> (=)) u_coins.
Proof. intros u v H k _ <-. apply H. Qed.
#[export] Instance u_anchor_proper : Proper ((≡) ==> (=) ==> (=) ==> (=)) u_anchor.
Proof. intros u v H t _ <- rt _ <-. apply H. Qed.
#[export] Instance u_nullifier_proper : Proper ((≡) ==> (=) ==> (=) ==> (=)) u_nullifier.
Proof. intros u v H t _ <- nf _ <-. apply H. Qed.
#[export] Instance u_best_block_proper : Proper ((≡) ==> (=)) u_best_block.
Proof. intros u v H. apply H. Qed.
#[export] Instance u_best_anchor_proper : Proper ((≡) ==> (=) ==> (=)) u_best_anchor.
Proof. intros u v H t _ <-. apply H. Qed.

(** What a batch does to the set: its dirty entries replace those of the set. *)
Definition overlay {Tree} (b : batch Tree) (u : UTXO) : UTXO := {|
  u_coins k := match b_coins b !! k with
               | Some e => if has (ce_flags e) DIRTY then prune (Some (ce_coins e)) else u_coins u k
               | None => u_coins u k end;
  u_anchor t rt := match sel (b_anchors b) t !! rt with
                   | Some e => if has (ae_flags e) DIRTY then ae_entered e else u_anchor u t rt
                   | None => u_anchor u t rt end;
  u_nullifier t nf := match sel (b_nullifiers b) t !! nf with
                      | Some e => if has (ne_flags e) DIRTY then ne_entered e else u_nullifier u t nf
                      | None => u_nullifier u t nf end;
  u_best_block := b_hashBlock b;
  u_best_anchor t := sel (b_hashAnchor b) t |}.

#[export] Instance overlay_proper {Tree} (b : batch Tree) : Proper ((≡) ==> (≡)) (overlay b).
Proof.
  intros u v H. split; cbn; intros; try done.
  - by rewrite (same_coins _ _ H).
  - by rewrite (same_anchor _ _ H).
  - by rewrite (same_nullifier _ _ H).
Qed.

(** ** The contract *)

(** [inv]: the states a view can be in; [set]: the set it stands for; [holds]: the transactions it
    keeps an entry for, which a child may write without marking them fresh. *)
Record view_spec (S : Type) := { inv : S -> Prop; set : S -> UTXO; holds : S -> list Z -> Prop }.
Arguments inv {S} _ _.
Arguments set {S} _ _.
Arguments holds {S} _ _ _.

(** A question leaves the set as it is. *)
Record preserves {S} (P : view_spec S) (s s' : S) : Prop := {
  pr_inv : inv P s';
  pr_set : set P s' ≡ set P s;
  pr_holds k : holds P s k -> holds P s' k
}.

Section Contract.
Context {Tree : Type} {T : CommitmentTree Tree}.

(** What a view may be given to write. *)
Record batch_ok {S} (P : view_spec S) (s : S) (b : batch Tree) : Prop := {
  bo_kept k e : b_coins b !! k = Some e -> has (ce_flags e) DIRTY = true -> has (ce_flags e) FRESH = false -> holds P s k;
  bo_fresh k e : b_coins b !! k = Some e -> has (ce_flags e) DIRTY = true -> has (ce_flags e) FRESH = true ->
    u_coins (set P s) k = None;
  bo_root t rt e : sel (b_anchors b) t !! rt = Some e -> tree_root t (ae_tree e) = rt;
  bo_empty t e : sel (b_anchors b) t !! empty_root t = Some e -> ae_entered e = true;
  bo_best : base_blob.IsNull (b_hashBlock b) = false;
  bo_best_anchor t : base_blob.IsNull (sel (b_hashAnchor b) t) = false
}.

Class CoinsViewLaws {S} (V : CoinsView Tree S) (P : view_spec S) : Prop := {
  GetCoins_law s k s' r : inv P s -> GetCoins s k = (s', r) ->
    preserves P s s' /\ prune r = u_coins (set P s) k /\ (is_Some r -> holds P s' k);
  HaveCoins_law s k s' r : inv P s -> HaveCoins s k = (s', r) ->
    preserves P s s' /\ (is_Some (u_coins (set P s) k) -> r = true);
  GetAnchorAt_law s t rt s' r : inv P s -> GetAnchorAt s t rt = (s', r) ->
    preserves P s s' /\ (is_Some r <-> u_anchor (set P s) t rt = true) /\ (forall tree, r = Some tree -> tree_root t tree = rt);
  GetNullifier_law s t nf s' r : inv P s -> GetNullifier s t nf = (s', r) ->
    preserves P s s' /\ r = u_nullifier (set P s) t nf;
  GetBestBlock_law s s' r : inv P s -> GetBestBlock s = (s', r) -> preserves P s s' /\ r = u_best_block (set P s);
  GetBestAnchor_law s t s' r : inv P s -> GetBestAnchor s t = (s', r) -> preserves P s s' /\ r = u_best_anchor (set P s) t;
  BatchWrite_law s b : inv P s -> batch_ok P s b -> exists s',
    BatchWrite s b = Some (s', true) /\ inv P s' /\ set P s' ≡ overlay b (set P s)
}.
End Contract.

(** ** Loops over maps *)

(** A step that only touches its own key, read back key by key. *)
Lemma loop_lookup {A B} (f : gmap (list Z) B -> list Z -> A -> gmap (list Z) B) (g : list Z -> option B -> A -> option B) :
  (forall m k a, f m k a !! k = g k (m !! k) a) -> (forall m k a k', k' <> k -> f m k a !! k' = m !! k') ->
  forall (m0 : gmap (list Z) A) m k,
    loop f (map_to_list m0) m !! k = match m0 !! k with Some a => g k (m !! k) a | None => m !! k end.
Proof.
  intros Hk Hk' m0 m k.
  assert (forall l m, NoDup l.*1 -> loop f l m !! k =
    match list_to_map (M := gmap (list Z) A) l !! k with Some a => g k (m !! k) a | None => m !! k end) as H.
  { induction l as [|[k0 a] l IH]; intros m1 Hnd; [done|].
    cbn [loop fold_left fst snd]. fold (loop f l (f m1 k0 a)). cbn in Hnd. inversion_clear Hnd as [|? ? Hni Hnd'].
    rewrite IH by done. cbn [list_to_map foldr uncurry]. destruct (decide (k = k0)) as [->|Hne].
    - rewrite lookup_insert_eq. rewrite not_elem_of_list_to_map_1 by done. apply Hk.
    - rewrite lookup_insert_ne by done. by rewrite Hk' by done. }
  rewrite H by apply NoDup_fst_map_to_list. by rewrite list_to_map_to_list.
Qed.

(** A loop over a part of a state is a loop over that part. *)
Lemma loop_lens {St M A} (f : St -> list Z -> A -> St) (h : M -> list Z -> A -> M) (put : St -> M -> Z -> St) :
  (forall s m u k a, exists u', f (put s m u) k a = put s (h m k a) u') ->
  forall l s m u, exists u', loop f l (put s m u) = put s (loop h l m) u'.
Proof.
  intros H l s. induction l as [|[k a] l IH]; intros m u; [by exists u|]. cbn [loop fold_left fst snd].
  destruct (H s m u k a) as [u' ->]. apply IH.
Qed.

(** ** The database keeps the contract *)

Section DB.
Context {Tree : Type} {T : CommitmentTree Tree}.

Definition db_set (d : CCoinsViewDB Tree) : UTXO := {|
  u_coins k := prune (db_coins d !! k);
  u_anchor t rt := bool_decide (rt = empty_root t) || bool_decide (is_Some (sel (db_anchors d) t !! rt));
  u_nullifier t nf := bool_decide (is_Some (sel (db_nullifiers d) t !! nf));
  u_best_block := default (replicate 32 0) (db_best_block d);
  u_best_anchor t := default (empty_root t) (sel (db_best_anchor d) t) |}.

(** Every tree is stored under its root. *)
Definition db_ok (d : CCoinsViewDB Tree) : Prop :=
  forall t rt tree, sel (db_anchors d) t !! rt = Some tree -> tree_root t tree = rt.

Definition db_spec : view_spec (CCoinsViewDB Tree) := {| inv := db_ok; set := db_set; holds _ _ := True |}.

Lemma db_preserves d : db_ok d -> preserves db_spec d d.
Proof. by split. Qed.

Lemma db_coins_lookup (m : gmap (list Z) CCoins) (k : list Z) (m0 : CCoinsMap) : loop db_write_coins (map_to_list m0) m !! k =
  match m0 !! k with
  | Some it => if has (ce_flags it) DIRTY then if IsPruned (ce_coins it) then None else Some (ce_coins it) else m !! k
  | None => m !! k end.
Proof.
  rewrite (loop_lookup _ (fun _ o it => if has (ce_flags it) DIRTY then if IsPruned (ce_coins it) then None else Some (ce_coins it) else o)).
  - done.
  - intros m1 k1 it. unfold db_write_coins. destruct (has _ _); [|done].
    destruct (IsPruned _); [by rewrite lookup_delete_eq | by rewrite lookup_insert_eq].
  - intros m1 k1 it k' Hne. unfold db_write_coins. destruct (has _ _); [|done].
    destruct (IsPruned _); [by rewrite lookup_delete_ne | by rewrite lookup_insert_ne].
Qed.

Lemma db_anchors_lookup (t : ShieldedType) (m : gmap (list Z) Tree) (k : list Z) (m0 : CAnchorsMap Tree) : loop (db_write_anchor t) (map_to_list m0) m !! k =
  match m0 !! k with
  | Some it => if has (ae_flags it) DIRTY then
                 if negb (ae_entered it) then None else if negb (bool_decide (k = empty_root t)) then Some (ae_tree it) else m !! k
               else m !! k
  | None => m !! k end.
Proof.
  rewrite (loop_lookup _ (fun k o (it : CAnchorsCacheEntry Tree) => if has (ae_flags it) DIRTY then
    if negb (ae_entered it) then None else if negb (bool_decide (k = empty_root t)) then Some (ae_tree it) else o else o)).
  - done.
  - intros m1 k1 it. unfold db_write_anchor. destruct (has _ _); [|done].
    destruct (negb (ae_entered it)); [by rewrite lookup_delete_eq|].
    destruct (negb _); [by rewrite lookup_insert_eq|done].
  - intros m1 k1 it k' Hne. unfold db_write_anchor. destruct (has _ _); [|done].
    destruct (negb (ae_entered it)); [by rewrite lookup_delete_ne|].
    destruct (negb _); [by rewrite lookup_insert_ne|done].
Qed.

Lemma db_nullifiers_lookup (m : gmap (list Z) bool) (k : list Z) (m0 : CNullifiersMap) : loop db_write_nullifier (map_to_list m0) m !! k =
  match m0 !! k with
  | Some it => if has (ne_flags it) DIRTY then if negb (ne_entered it) then None else Some true else m !! k
  | None => m !! k end.
Proof.
  rewrite (loop_lookup _ (fun _ o it => if has (ne_flags it) DIRTY then if negb (ne_entered it) then None else Some true else o)).
  - done.
  - intros m1 k1 it. unfold db_write_nullifier. destruct (has _ _); [|done].
    destruct (negb _); [by rewrite lookup_delete_eq | by rewrite lookup_insert_eq].
  - intros m1 k1 it k' Hne. unfold db_write_nullifier. destruct (has _ _); [|done].
    destruct (negb _); [by rewrite lookup_delete_ne | by rewrite lookup_insert_ne].
Qed.

(** What is written, by type. *)
Lemma db_written d b : exists d', db_BatchWrite d b = Some (d', true) /\
  db_coins d' = loop db_write_coins (map_to_list (b_coins b)) (db_coins d) /\
  (forall t, sel (db_anchors d') t = loop (db_write_anchor t) (map_to_list (sel (b_anchors b) t)) (sel (db_anchors d) t)) /\
  (forall t, sel (db_nullifiers d') t = loop db_write_nullifier (map_to_list (sel (b_nullifiers b) t)) (sel (db_nullifiers d) t)) /\
  db_best_block d' = unless_null (b_hashBlock b) (db_best_block d) /\
  (forall t, sel (db_best_anchor d') t = unless_null (sel (b_hashAnchor b) t) (sel (db_best_anchor d) t)).
Proof. eexists. split; [reflexivity|]. split_and!; try (intros []); reflexivity. Qed.

Lemma db_laws : CoinsViewLaws CCoinsViewDB_view db_spec.
Proof.
  split; cbn.
  - intros s k s' r Hs [= <- <-]. split; [by apply db_preserves|done].
  - intros s k s' r Hs [= <- <-]. split; [by apply db_preserves|]. intros H. apply bool_decide_eq_true.
    destruct (db_coins s !! k); [done|]. by destruct H.
  - intros s t rt s' r Hs [= <- <-]. split; [by apply db_preserves|].
    destruct (bool_decide_reflect (rt = empty_root t)) as [->|Hne]; cbn [orb].
    + split; [done|]. by intros tree [= <-].
    + split; [by rewrite bool_decide_eq_true|]. apply Hs.
  - intros s t nf s' r Hs [= <- <-]. by split; [apply db_preserves|].
  - intros s s' r Hs [= <- <-]. by split; [apply db_preserves|].
  - intros s t s' r Hs [= <- <-]. by split; [apply db_preserves|].
  - intros s b Hs Hb. destruct (db_written s b) as (d' & E & Hc & Ha & Hn & Hbb & Hba).
    exists d'. split; [exact E|]. split.
    + intros t rt tree. rewrite Ha, db_anchors_lookup. destruct (sel (b_anchors b) t !! rt) as [it|] eqn:Eit; [|apply Hs].
      destruct (has _ _); [|apply Hs]. destruct (negb (ae_entered it)); [done|]. destruct (negb _); [|apply Hs].
      intros [= <-]. by apply (bo_root _ _ _ Hb).
    + split; cbn.
      * intros k. rewrite Hc, db_coins_lookup. destruct (b_coins b !! k) as [e|]; [|done].
        destruct (has _ _); [|done]. destruct (IsPruned (ce_coins e)) eqn:Ep; cbn; by rewrite ?Ep.
      * intros t rt. rewrite Ha, db_anchors_lookup. destruct (sel (b_anchors b) t !! rt) as [e|] eqn:Ee; [|done].
        destruct (has _ _); [|done]. destruct (bool_decide_reflect (rt = empty_root t)) as [->|Hne].
        { by rewrite (bo_empty _ _ _ Hb t e Ee). }
        by destruct (ae_entered e).
      * intros t nf. rewrite Hn, db_nullifiers_lookup. destruct (sel (b_nullifiers b) t !! nf) as [e|]; [|done].
        destruct (has _ _); [|done]. by destruct (ne_entered e).
      * rewrite Hbb. unfold unless_null. by rewrite (bo_best _ _ _ Hb).
      * intros t. rewrite Hba. unfold unless_null. by rewrite (bo_best_anchor _ _ _ Hb).
Qed.
End DB.

(** ** The cache keeps the contract *)

(** Sets with one answer changed. *)
Definition put_coins (u : UTXO) (k : list Z) (o : option CCoins) : UTXO :=
  {| u_coins k' := if decide (k' = k) then o else u_coins u k'; u_anchor := u_anchor u; u_nullifier := u_nullifier u;
     u_best_block := u_best_block u; u_best_anchor := u_best_anchor u |}.
Definition put_nullifier (u : UTXO) (t : ShieldedType) (nf : list Z) (b : bool) : UTXO :=
  {| u_coins := u_coins u; u_anchor := u_anchor u;
     u_nullifier t' nf' := if decide (t' = t) then if decide (nf' = nf) then b else u_nullifier u t' nf' else u_nullifier u t' nf';
     u_best_block := u_best_block u; u_best_anchor := u_best_anchor u |}.
Definition put_anchor (u : UTXO) (t : ShieldedType) (rt : list Z) (b : bool) : UTXO :=
  {| u_coins := u_coins u;
     u_anchor t' rt' := if decide (t' = t) then if decide (rt' = rt) then b else u_anchor u t' rt' else u_anchor u t' rt';
     u_nullifier := u_nullifier u; u_best_block := u_best_block u; u_best_anchor := u_best_anchor u |}.
Definition put_best_anchor (u : UTXO) (t : ShieldedType) (h : list Z) : UTXO :=
  {| u_coins := u_coins u; u_anchor := u_anchor u; u_nullifier := u_nullifier u; u_best_block := u_best_block u;
     u_best_anchor t' := if decide (t' = t) then h else u_best_anchor u t' |}.
Definition put_best_block (u : UTXO) (h : list Z) : UTXO :=
  {| u_coins := u_coins u; u_anchor := u_anchor u; u_nullifier := u_nullifier u; u_best_block := h;
     u_best_anchor := u_best_anchor u |}.

#[export] Instance put_coins_proper : Proper ((≡) ==> (=) ==> (=) ==> (≡)) put_coins.
Proof. intros u v H k _ <- o _ <-. split; cbn; intros; try apply H. by rewrite (same_coins _ _ H). Qed.
#[export] Instance put_nullifier_proper : Proper ((≡) ==> (=) ==> (=) ==> (=) ==> (≡)) put_nullifier.
Proof. intros u v H t _ <- nf _ <- b _ <-. split; cbn; intros; try apply H. by rewrite !(same_nullifier _ _ H). Qed.
#[export] Instance put_anchor_proper : Proper ((≡) ==> (=) ==> (=) ==> (=) ==> (≡)) put_anchor.
Proof. intros u v H t _ <- rt _ <- b _ <-. split; cbn; intros; try apply H. by rewrite !(same_anchor _ _ H). Qed.
#[export] Instance put_best_anchor_proper : Proper ((≡) ==> (=) ==> (=) ==> (≡)) put_best_anchor.
Proof. intros u v H t _ <- h _ <-. split; cbn; intros; try apply H. by rewrite (same_best_anchor _ _ H). Qed.
#[export] Instance put_best_block_proper : Proper ((≡) ==> (=) ==> (≡)) put_best_block.
Proof. intros u v H h _ <-. split; cbn; intros; done || apply H. Qed.

Lemma sel_upd {A} (b : both A) t t' a : sel (upd b t a) t' = if decide (t' = t) then a else sel b t'.
Proof. by destruct t, t'. Qed.

Section Cache.
Context {Tree S : Type} {T : CommitmentTree Tree} {V : CoinsView Tree S} {P : view_spec S} {L : CoinsViewLaws V P}.
Context (coins_usage : CCoins -> Z) (tree_usage : Tree -> Z).
#[local] Abbreviation cache := (CCoinsViewCache Tree S).

Definition cache_set (c : cache) : UTXO := {|
  u_coins k := match cacheCoins c !! k with Some e => prune (Some (ce_coins e)) | None => u_coins (set P (base c)) k end;
  u_anchor t rt := match sel (cacheAnchors c) t !! rt with Some e => ae_entered e | None => u_anchor (set P (base c)) t rt end;
  u_nullifier t nf := match sel (cacheNullifiers c) t !! nf with Some e => ne_entered e | None => u_nullifier (set P (base c)) t nf end;
  u_best_block := if base_blob.IsNull (hashBlock c) then u_best_block (set P (base c)) else hashBlock c;
  u_best_anchor t := if base_blob.IsNull (sel (hashAnchor c) t) then u_best_anchor (set P (base c)) t else sel (hashAnchor c) t |}.

(** The entries of the cache against the view behind it: fresh entries are not in it, the others it
    holds, and those that are not dirty agree with it. *)
Record coins_entry_ok (b : S) (k : list Z) (e : CCoinsCacheEntry) : Prop := {
  ce_fresh : has (ce_flags e) FRESH = true -> u_coins (set P b) k = None;
  ce_held : has (ce_flags e) FRESH = false -> holds P b k;
  ce_clean : has (ce_flags e) DIRTY = false -> prune (Some (ce_coins e)) = u_coins (set P b) k
}.

Record anchor_entry_ok (b : S) (t : ShieldedType) (rt : list Z) (e : CAnchorsCacheEntry Tree) : Prop := {
  ae_root : tree_root t (ae_tree e) = rt;
  ae_clean : has (ae_flags e) DIRTY = false -> ae_entered e = u_anchor (set P b) t rt;
  ae_empty : rt = empty_root t -> ae_entered e = true
}.

Record cache_ok (c : cache) : Prop := {
  co_base : inv P (base c);
  co_modifier : hasModifier c = false;
  co_coins k e : cacheCoins c !! k = Some e -> coins_entry_ok (base c) k e;
  co_anchors t rt e : sel (cacheAnchors c) t !! rt = Some e -> anchor_entry_ok (base c) t rt e;
  co_nullifiers t nf e : sel (cacheNullifiers c) t !! nf = Some e -> has (ne_flags e) DIRTY = false ->
    ne_entered e = u_nullifier (set P (base c)) t nf
}.

Definition cache_spec : view_spec cache := {| inv := cache_ok; set := cache_set; holds c k := is_Some (cacheCoins c !! k) |}.

Lemma cache_preserves c : cache_ok c -> preserves cache_spec c c.
Proof. by split. Qed.

Lemma preserves_trans c1 c2 c3 : preserves cache_spec c1 c2 -> preserves cache_spec c2 c3 -> preserves cache_spec c1 c3.
Proof. intros [I1 S1 H1] [I2 S2 H2]. split; [done | by etrans | auto]. Qed.

(** *** Changes of one member *)

Lemma set_base_ok c b : cache_ok c -> preserves P (base c) b ->
  preserves cache_spec c (set_base c b).
Proof.
  intros Hc [Hi Hs Hh]. split; cbn; [|split; cbn; intros; by rewrite ?(same_coins _ _ Hs), ?(same_anchor _ _ Hs), ?(same_nullifier _ _ Hs), ?(same_best_block _ _ Hs), ?(same_best_anchor _ _ Hs)|done].
  destruct Hc as [Hb Hm Hcc Hca Hcn]. split; cbn; try done.
  - intros k e Hk. destruct (Hcc k e Hk) as [H1 H2 H3]. split; rewrite ?Hs; auto.
  - intros t rt e Hk. destruct (Hca t rt e Hk) as [H1 H2 H3]. split; rewrite ?Hs; auto.
  - intros t nf e Hk Hd. rewrite Hs. by apply (Hcn t nf e).
Qed.

Lemma insert_coins_ok c k e u : cache_ok c -> coins_entry_ok (base c) k e ->
  let c' := set_coins c (<[k := e]> (cacheCoins c)) u in
  cache_ok c' /\ cache_set c' ≡ put_coins (cache_set c) k (prune (Some (ce_coins e))) /\
  (forall k', is_Some (cacheCoins c !! k') -> is_Some (cacheCoins c' !! k')).
Proof.
  intros Hc He c'. split_and!.
  - destruct Hc as [Hb Hm Hcc Hca Hcn]. split; cbn; try done. intros k' e' Hk.
    destruct (decide (k' = k)) as [->|Hne]; [rewrite lookup_insert_eq in Hk; by injection Hk as <-|].
    rewrite lookup_insert_ne in Hk by done. auto.
  - split; cbn; try done. intros k'. destruct (decide (k' = k)) as [->|Hne]; [by rewrite lookup_insert_eq|].
    by rewrite lookup_insert_ne.
  - intros k' Hk'. cbn. destruct (decide (k' = k)) as [->|Hne]; [by rewrite lookup_insert_eq|]. by rewrite lookup_insert_ne.
Qed.

Lemma delete_coins_ok c k u : cache_ok c -> u_coins (set P (base c)) k = None ->
  let c' := set_coins c (delete k (cacheCoins c)) u in
  cache_ok c' /\ cache_set c' ≡ put_coins (cache_set c) k None.
Proof.
  intros Hc Hk c'. split.
  - destruct Hc as [Hb Hm Hcc Hca Hcn]. split; cbn; try done. intros k' e' Hl. apply lookup_delete_Some in Hl as [_ Hl]. auto.
  - split; cbn; try done. intros k'. destruct (decide (k' = k)) as [->|Hne]; [by rewrite lookup_delete_eq|].
    by rewrite lookup_delete_ne.
Qed.

Lemma insert_anchor_ok c t rt e u : cache_ok c -> anchor_entry_ok (base c) t rt e ->
  let c' := set_anchors c t (<[rt := e]> (sel (cacheAnchors c) t)) u in
  cache_ok c' /\ cache_set c' ≡ put_anchor (cache_set c) t rt (ae_entered e).
Proof.
  intros Hc He c'. split.
  - destruct Hc as [Hb Hm Hcc Hca Hcn]. split; cbn; try done. intros t' rt' e'. rewrite sel_upd.
    destruct (decide (t' = t)) as [->|]; [|apply Hca].
    destruct (decide (rt' = rt)) as [->|Hne]; [rewrite lookup_insert_eq; by intros [= <-]|].
    rewrite lookup_insert_ne by done. apply Hca.
  - split; cbn; try done. intros t' rt'. rewrite sel_upd. destruct (decide (t' = t)) as [->|]; [|done].
    destruct (decide (rt' = rt)) as [->|Hne]; [by rewrite lookup_insert_eq|]. by rewrite lookup_insert_ne.
Qed.

Lemma insert_nullifier_ok c t nf e : cache_ok c ->
  (has (ne_flags e) DIRTY = false -> ne_entered e = u_nullifier (set P (base c)) t nf) ->
  let c' := set_nullifiers c t (<[nf := e]> (sel (cacheNullifiers c) t)) in
  cache_ok c' /\ cache_set c' ≡ put_nullifier (cache_set c) t nf (ne_entered e).
Proof.
  intros Hc He c'. split.
  - destruct Hc as [Hb Hm Hcc Hca Hcn]. split; cbn; try done. intros t' nf' e'. rewrite sel_upd.
    destruct (decide (t' = t)) as [->|]; [|apply Hcn].
    destruct (decide (nf' = nf)) as [->|Hne]; [rewrite lookup_insert_eq; by intros [= <-]|].
    rewrite lookup_insert_ne by done. apply Hcn.
  - split; cbn; try done. intros t' nf'. rewrite sel_upd. destruct (decide (t' = t)) as [->|]; [|done].
    destruct (decide (nf' = nf)) as [->|Hne]; [by rewrite lookup_insert_eq|]. by rewrite lookup_insert_ne.
Qed.

Lemma set_hashAnchor_ok c t h : cache_ok c -> base_blob.IsNull h = false ->
  cache_ok (set_hashAnchor c t h) /\ cache_set (set_hashAnchor c t h) ≡ put_best_anchor (cache_set c) t h.
Proof.
  intros Hc Hh. split; [by destruct Hc|]. split; try done. intros t'.
  cbn [u_best_anchor cache_set put_best_anchor hashAnchor set_hashAnchor base]. rewrite sel_upd.
  destruct (decide (t' = t)); [by rewrite Hh|done].
Qed.

Lemma SetBestBlock_ok c h : cache_ok c -> base_blob.IsNull h = false ->
  cache_ok (SetBestBlock c h) /\ cache_set (SetBestBlock c h) ≡ put_best_block (cache_set c) h.
Proof.
  intros Hc Hh. split; [by destruct Hc|]. split; try done.
  cbn [u_best_block cache_set put_best_block hashBlock SetBestBlock]. by rewrite Hh.
Qed.

(** *** Questions *)

(** An entry that repeats what the view behind says leaves the set as it is. *)
Lemma put_coins_same u k o : o = u_coins u k -> put_coins u k o ≡ u.
Proof. intros ->. split; cbn; intros; try done. by destruct (decide _) as [->|]. Qed.
Lemma put_anchor_same u t rt b : b = u_anchor u t rt -> put_anchor u t rt b ≡ u.
Proof. intros ->. split; cbn; intros; try done. destruct (decide _) as [->|]; [|done]. by destruct (decide _) as [->|]. Qed.
Lemma put_nullifier_same u t nf b : b = u_nullifier u t nf -> put_nullifier u t nf b ≡ u.
Proof. intros ->. split; cbn; intros; try done. destruct (decide _) as [->|]; [|done]. by destruct (decide _) as [->|]. Qed.

Lemma FetchCoins_spec c k c' r : cache_ok c -> FetchCoins coins_usage c k = (c', r) ->
  preserves cache_spec c c' /\ prune (option_map ce_coins r) = u_coins (cache_set c) k /\ cacheCoins c' !! k = r.
Proof.
  intros Hc. unfold FetchCoins. destruct (cacheCoins c !! k) as [e|] eqn:Ek.
  { intros [= <- <-]. split; [by apply cache_preserves|]. cbn. by rewrite Ek. }
  destruct (GetCoins (base c) k) as [b o] eqn:Eg.
  destruct (GetCoins_law (V := V) (P := P) _ _ _ _ (co_base c Hc) Eg) as (Hp & Ho & Hh).
  pose proof (set_base_ok c b Hc Hp) as Hb. assert (u_coins (cache_set c) k = prune o) as Eu by (cbn; by rewrite Ek, Ho).
  destruct o as [tmp|]; intros [= <- <-].
  - set (e := {| ce_coins := tmp; ce_flags := _ |}).
    destruct (insert_coins_ok (set_base c b) k e (u64 (cachedCoinsUsage c + coins_usage tmp))) as (H1 & H2 & H3).
    { apply (pr_inv _ _ _ Hb). }
    { cbn in Eu. rewrite Ek in Eu. split; cbn; rewrite ?(same_coins _ _ (pr_set _ _ _ Hp)), ?Eu; cbn;
        destruct (IsPruned tmp); try done. intros _. by apply Hh. }
    split; [|split].
    + split; [exact H1| |].
      * cbn [set cache_spec]. etrans; [exact H2|]. etrans; [|exact (pr_set _ _ _ Hb)]. apply put_coins_same.
        cbn. by rewrite Ek, (same_coins _ _ (pr_set _ _ _ Hp)), <- Ho.
      * intros k' Hk'. apply H3. exact Hk'.
    + by rewrite Eu.
    + cbn. by rewrite lookup_insert_eq.
  - split; [exact Hb|]. split; [by rewrite Eu|exact Ek].
Qed.

Lemma cache_GetCoins_spec c k c' r : cache_ok c -> cache_GetCoins coins_usage c k = (c', r) ->
  preserves cache_spec c c' /\ prune r = u_coins (cache_set c) k /\ (is_Some r -> is_Some (cacheCoins c' !! k)).
Proof.
  intros Hc. unfold cache_GetCoins. destruct (FetchCoins _ c k) as [c1 it] eqn:E. intros [= <- <-].
  destruct (FetchCoins_spec c k c1 it Hc E) as (Hp & Hr & Hl). split; [done|]. split; [done|].
  rewrite Hl. destruct it; [eauto|by intros [? ?]].
Qed.

Lemma cache_HaveCoins_spec c k c' r : cache_ok c -> cache_HaveCoins coins_usage c k = (c', r) ->
  preserves cache_spec c c' /\ (is_Some (u_coins (cache_set c) k) -> r = true).
Proof.
  intros Hc. unfold cache_HaveCoins. destruct (FetchCoins _ c k) as [c1 it] eqn:E. intros [= <- <-].
  destruct (FetchCoins_spec c k c1 it Hc E) as (Hp & Hr & Hl). split; [done|]. rewrite <- Hr.
  destruct it as [e|]; cbn; [|by intros [? ?]]. unfold IsPruned. by destruct (cc_vout (ce_coins e)) eqn:Ev; [intros [? ?]|].
Qed.

Lemma cache_GetAnchorAt_spec c t rt c' r : cache_ok c -> cache_GetAnchorAt tree_usage c t rt = (c', r) ->
  preserves cache_spec c c' /\ (is_Some r <-> u_anchor (cache_set c) t rt = true) /\
  (forall tree, r = Some tree -> tree_root t tree = rt) /\
  (forall tree, r = Some tree -> exists e, sel (cacheAnchors c') t !! rt = Some e /\ ae_tree e = tree).
Proof.
  intros Hc. unfold cache_GetAnchorAt. destruct (sel (cacheAnchors c) t !! rt) as [e|] eqn:Ek.
  { destruct (co_anchors c Hc t rt e Ek) as [Hr _ _]. intros [= <- <-]. split; [by apply cache_preserves|].
    cbn. rewrite Ek. destruct (ae_entered e); split_and!; try done; intros tree [= <-]; eauto. }
  destruct (GetAnchorAt (base c) t rt) as [b o] eqn:Eg.
  destruct (GetAnchorAt_law (V := V) (P := P) _ _ _ _ _ (co_base c Hc) Eg) as (Hp & Ho & Hr).
  pose proof (set_base_ok c b Hc Hp) as Hb. assert (u_anchor (cache_set c) t rt = u_anchor (set P (base c)) t rt) as Eu by (cbn; by rewrite Ek).
  destruct o as [tree|]; intros [= <- <-].
  - set (e := {| ae_entered := true; ae_tree := tree; ae_flags := 0 |}).
    destruct (insert_anchor_ok (set_base c b) t rt e (u64 (cachedCoinsUsage c + tree_usage tree))) as (H1 & H2).
    { apply (pr_inv _ _ _ Hb). }
    { split; cbn; [by apply Hr | | done]. intros _. rewrite (same_anchor _ _ (pr_set _ _ _ Hp)). symmetry. by apply Ho. }
    split_and!; [split; [exact H1| |done] | by rewrite Eu | done |].
    + cbn [set cache_spec]. etrans; [exact H2|]. etrans; [|exact (pr_set _ _ _ Hb)]. apply put_anchor_same.
      cbn. rewrite Ek, (same_anchor _ _ (pr_set _ _ _ Hp)). symmetry. by apply Ho.
    + intros tree' [= <-]. exists e. split; [|done]. cbn. rewrite sel_upd, decide_True by done. by rewrite lookup_insert_eq.
  - split_and!; [exact Hb | by rewrite Eu | done | done].
Qed.

Lemma cache_GetNullifier_spec c t nf c' r : cache_ok c -> cache_GetNullifier c t nf = (c', r) ->
  preserves cache_spec c c' /\ r = u_nullifier (cache_set c) t nf.
Proof.
  intros Hc. unfold cache_GetNullifier. destruct (sel (cacheNullifiers c) t !! nf) as [e|] eqn:Ek.
  { intros [= <- <-]. split; [by apply cache_preserves|]. cbn. by rewrite Ek. }
  destruct (GetNullifier (base c) t nf) as [b o] eqn:Eg.
  destruct (GetNullifier_law (V := V) (P := P) _ _ _ _ _ (co_base c Hc) Eg) as (Hp & Ho).
  pose proof (set_base_ok c b Hc Hp) as Hb. intros [= <- <-].
  destruct (insert_nullifier_ok (set_base c b) t nf {| ne_entered := o; ne_flags := 0 |}) as (H1 & H2).
  { apply (pr_inv _ _ _ Hb). }
  { intros _. cbn. by rewrite (same_nullifier _ _ (pr_set _ _ _ Hp)). }
  split; [split; [exact H1| |done]|by cbn; rewrite Ek].
  cbn [set cache_spec]. etrans; [exact H2|]. etrans; [|exact (pr_set _ _ _ Hb)]. apply put_nullifier_same.
  cbn. by rewrite Ek, (same_nullifier _ _ (pr_set _ _ _ Hp)).
Qed.

(** The hash that [GetBestBlock] keeps may be null, when that of the view behind is. *)
Lemma cache_GetBestBlock_spec c c' r : cache_ok c -> cache_GetBestBlock c = (c', r) ->
  preserves cache_spec c c' /\ r = u_best_block (cache_set c) /\ hashBlock c' = r.
Proof.
  intros Hc. unfold cache_GetBestBlock. destruct (base_blob.IsNull (hashBlock c)) eqn:En.
  2: { intros [= <- <-]. split; [by apply cache_preserves|]. cbn [u_best_block cache_set]. by rewrite En. }
  destruct (GetBestBlock (base c)) as [b h] eqn:Eg. intros [= <- <-].
  destruct (GetBestBlock_law (V := V) (P := P) _ _ _ (co_base c Hc) Eg) as (Hp & ->).
  pose proof (set_base_ok c b Hc Hp) as [Hi Hs Hh]. split; [|split; [cbn [u_best_block cache_set]; by rewrite En|done]].
  split; [by destruct Hi| |done]. cbn [set cache_spec]. etrans; [|exact Hs]. split; try done.
  cbn [u_best_block set cache_spec cache_set hashBlock SetBestBlock set_base base]. rewrite En, (same_best_block _ _ (pr_set _ _ _ Hp)).
  match goal with |- (if ?b then _ else _) = _ => destruct b end; reflexivity.
Qed.

Lemma cache_GetBestAnchor_spec c t c' r : cache_ok c -> cache_GetBestAnchor c t = (c', r) ->
  preserves cache_spec c c' /\ r = u_best_anchor (cache_set c) t.
Proof.
  intros Hc. unfold cache_GetBestAnchor. destruct (base_blob.IsNull (sel (hashAnchor c) t)) eqn:En.
  2: { intros [= <- <-]. split; [by apply cache_preserves|]. cbn [u_best_anchor cache_set]. by rewrite En. }
  destruct (GetBestAnchor (base c) t) as [b h] eqn:Eg. intros [= <- <-].
  destruct (GetBestAnchor_law (V := V) (P := P) _ _ _ _ (co_base c Hc) Eg) as (Hp & ->).
  pose proof (set_base_ok c b Hc Hp) as [Hi Hs Hh]. split; [|cbn [u_best_anchor cache_set]; by rewrite En].
  split; [by destruct Hi| |done]. cbn [set cache_spec]. etrans; [|exact Hs]. split; try done. intros t'.
  cbn [u_best_anchor set cache_spec cache_set hashAnchor set_hashAnchor set_base base]. rewrite sel_upd.
  destruct (decide (t' = t)) as [->|]; [|done]. rewrite En, (same_best_anchor _ _ (pr_set _ _ _ Hp)).
  match goal with |- (if ?b then _ else _) = _ => destruct b end; reflexivity.
Qed.

(** *** Changes *)

Lemma IsPruned_Cleanup x : IsPruned (Cleanup x) = IsPruned x.
Proof.
  unfold IsPruned, Cleanup. cbn [cc_vout with_vout]. induction (cc_vout x) as [|o v IH]; [done|].
  cbn [drop_nulls forallb]. rewrite <- IH. destruct (drop_nulls v) as [|o' v'] eqn:E; [|done].
  destruct (TxOut.IsNull o) eqn:En; cbn; by rewrite ?En.
Qed.

(** A modifier that lives for one block: it works on an object that the set has for the transaction
    (or on a pruned one, when it has none), and the set then has the cleaned result. *)
Lemma modify_spec {A} c k : cache_ok c -> exists c0, prune (Some c0) = u_coins (cache_set c) k /\
  forall f : CCoins -> option (CCoins * A),
  match f c0 with
  | None => modify coins_usage c k f = None
  | Some (coins, a) => exists c', modify coins_usage c k f = Some (c', a) /\ cache_ok c' /\
      cache_set c' ≡ put_coins (cache_set c) k (prune (Some (Cleanup coins)))
  end.
Proof.
  intros Hc.
  assert (exists c1 e usage, preserves cache_spec c c1 /\ coins_entry_ok (base c1) k e /\
    prune (Some (ce_coins e)) = u_coins (cache_set c) k /\
    ModifyCoins coins_usage c k =
      Some (set_modifier (set_coins c1 (<[k := {| ce_coins := ce_coins e; ce_flags := Z.lor (ce_flags e) DIRTY |}]> (cacheCoins c1))
              (cachedCoinsUsage c1)) true, {| m_it := k; m_cachedCoinUsage := usage |}))
    as (c1 & e & usage & Hp & He & Eu & Em).
  { unfold ModifyCoins. rewrite (co_modifier c Hc). destruct (cacheCoins c !! k) as [e|] eqn:Ek.
    { exists c, e, (coins_usage (ce_coins e)). split_and!; [by apply cache_preserves | by apply co_coins | by cbn; rewrite Ek | done]. }
    destruct (GetCoins (base c) k) as [b o] eqn:Eg.
    destruct (GetCoins_law (V := V) (P := P) _ _ _ _ (co_base c Hc) Eg) as (Hp & Ho & Hh).
    assert (prune o = u_coins (cache_set c) k) as Eu by (cbn; by rewrite Ek, Ho).
    pose proof (set_base_ok c b Hc Hp) as Hb. pose proof (same_coins _ _ (pr_set _ _ _ Hp) k) as Hs.
    destruct o as [coins|].
    - exists (set_base c b), {| ce_coins := coins; ce_flags := if IsPruned coins then FRESH else 0 |}, 0.
      split_and!; [done | | done | done]. split; cbn [ce_flags ce_coins base set_base]; rewrite ?Hs, <- ?Ho; cbn [prune];
        destruct (IsPruned coins); try done. intros _. by apply Hh.
    - exists (set_base c b), {| ce_coins := CCoins_empty; ce_flags := FRESH |}, 0.
      split_and!; [done | | done | done]. split; cbn [ce_flags ce_coins base set_base]; rewrite ?Hs, <- ?Ho; done. }
  exists (ce_coins e). split; [done|]. intros f.
  assert (modify coins_usage c k f = ('(coins, a) ← f (ce_coins e);
    let usage' := u64 (cachedCoinsUsage c1 - usage) in
    Some (if has (ce_flags e) FRESH && IsPruned (Cleanup coins)
          then set_coins (set_modifier c1 false) (delete k (cacheCoins c1)) usage'
          else set_coins (set_modifier c1 false) (<[k := {| ce_coins := Cleanup coins; ce_flags := Z.lor (ce_flags e) DIRTY |}]> (cacheCoins c1))
                 (u64 (usage' + coins_usage (Cleanup coins))), a))) as ->.
  { unfold modify. rewrite Em. cbn [mbind option_bind].
    unfold modifier_get. cbn [cacheCoins set_modifier set_coins m_it]. rewrite lookup_insert_eq. cbn [option_map ce_coins mbind option_bind].
    destruct (f (ce_coins e)) as [[coins a]|]; [|reflexivity]. cbn [mbind option_bind].
    unfold modifier_set. cbn [cacheCoins set_modifier set_coins m_it]. rewrite lookup_insert_eq. cbn [mbind option_bind ce_flags].
    unfold modifier_end. cbn [hasModifier set_modifier set_coins negb cacheCoins m_it m_cachedCoinUsage cachedCoinsUsage].
    rewrite lookup_insert_eq. cbn [ce_flags ce_coins]. rewrite has_fresh, !insert_insert_eq, delete_insert_eq.
    by destruct (has _ _ && _). }
  destruct (f (ce_coins e)) as [[coins a]|]; [|done]. cbn [mbind option_bind].
  assert (set_modifier c1 false = c1) as -> by (destruct c1; unfold set_modifier; cbn; f_equal; symmetry; apply (co_modifier _ (pr_inv _ _ _ Hp))).
  destruct Hp as [Hi Hs Hh].
  eexists. split; [reflexivity|]. rewrite <- (put_coins_proper _ _ Hs _ _ eq_refl _ _ eq_refl).
  destruct (has (ce_flags e) FRESH && IsPruned (Cleanup coins)) eqn:Ef.
  - apply andb_true_iff in Ef as [Ef Epr]. cbn [prune]. rewrite Epr.
    apply delete_coins_ok; [done|]. apply (ce_fresh _ _ _ He Ef).
  - destruct (insert_coins_ok c1 k {| ce_coins := Cleanup coins; ce_flags := Z.lor (ce_flags e) DIRTY |}
      (u64 (u64 (cachedCoinsUsage c1 - usage) + coins_usage (Cleanup coins))) Hi) as (H1 & H2 & _); [|by split].
    destruct He as [F1 F2 F3]. split; cbn [ce_flags ce_coins]; rewrite ?has_fresh, ?has_dirty; done.
Qed.

Lemma set_nullifier_ok t spent c nf : cache_ok c ->
  cache_ok (set_nullifier t spent c nf) /\ cache_set (set_nullifier t spent c nf) ≡ put_nullifier (cache_set c) t nf spent.
Proof.
  intros Hc. unfold set_nullifier. apply insert_nullifier_ok; [done|]. cbn [ne_flags]. by rewrite has_dirty.
Qed.

(** The nullifiers of a list set to [spent]. *)
Definition put_nullifiers (u : UTXO) (t : ShieldedType) (nfs : list (list Z)) (spent : bool) : UTXO :=
  {| u_coins := u_coins u; u_anchor := u_anchor u;
     u_nullifier t' nf := if decide (t' = t) then if decide (nf ∈ nfs) then spent else u_nullifier u t' nf else u_nullifier u t' nf;
     u_best_block := u_best_block u; u_best_anchor := u_best_anchor u |}.

Lemma put_nullifiers_cons u t nf nfs spent :
  put_nullifiers (put_nullifier u t nf spent) t nfs spent ≡ put_nullifiers u t (nf :: nfs) spent.
Proof.
  split; cbn; try done. intros t' nf'. destruct (decide (t' = t)) as [->|]; [|done].
  destruct (decide (nf' ∈ nfs)) as [Hi|Hn]; [by rewrite decide_True by by apply list_elem_of_further|].
  destruct (decide (nf' = nf)) as [->|Hne]; [by rewrite decide_True by apply list_elem_of_here|].
  rewrite decide_False; [done|]. by intros [?|?]%elem_of_cons.
Qed.

#[export] Instance put_nullifiers_proper : Proper ((≡) ==> (=) ==> (=) ==> (=) ==> (≡)) put_nullifiers.
Proof. intros u v H t _ <- nf _ <- b _ <-. split; cbn; intros; try apply H. by rewrite !(same_nullifier _ _ H). Qed.

Lemma fold_set_nullifier_ok t spent nfs : forall c, cache_ok c ->
  cache_ok (fold_left (set_nullifier t spent) nfs c) /\
  cache_set (fold_left (set_nullifier t spent) nfs c) ≡ put_nullifiers (cache_set c) t nfs spent.
Proof.
  induction nfs as [|nf nfs IH]; intros c Hc; cbn [fold_left].
  - split; [done|]. split; cbn; try done. intros t' nf'. destruct (decide _); [|done].
    rewrite decide_False; [done|]. apply not_elem_of_nil.
  - destruct (set_nullifier_ok t spent c nf Hc) as [H1 H2]. destruct (IH _ H1) as [H3 H4]. split; [done|].
    etrans; [exact H4|]. rewrite H2. apply put_nullifiers_cons.
Qed.

(** The set with the nullifiers of a transaction set to [spent]. *)
Definition mark_nullifiers (u : UTXO) (t : tx) (spent : bool) : UTXO :=
  put_nullifiers (put_nullifiers u SPROUT (sprout_nullifiers t) spent) SAPLING (sapling_nullifiers t) spent.

Lemma SetNullifiers_ok c t spent : cache_ok c ->
  cache_ok (SetNullifiers c t spent) /\ cache_set (SetNullifiers c t spent) ≡ mark_nullifiers (cache_set c) t spent.
Proof.
  intros Hc. unfold SetNullifiers, mark_nullifiers.
  destruct (fold_set_nullifier_ok SPROUT spent (sprout_nullifiers t) c Hc) as [H1 H2].
  destruct (fold_set_nullifier_ok SAPLING spent (sapling_nullifiers t) _ H1) as [H3 H4].
  split; [done|]. etrans; [exact H4|]. by rewrite H2.
Qed.

(** *** Anchors *)

(** The set after a tree becomes the best anchor, and after the best one is taken away. *)
Definition push_anchor (u : UTXO) (t : ShieldedType) (rt : list Z) : UTXO :=
  if decide (u_best_anchor u t = rt) then u else put_best_anchor (put_anchor u t rt true) t rt.
Definition pop_anchor (u : UTXO) (t : ShieldedType) (rt : list Z) : UTXO :=
  if decide (u_best_anchor u t = rt) then u else put_best_anchor (put_anchor u t (u_best_anchor u t) false) t rt.

Lemma PushAnchor_ok c t tree : cache_ok c -> base_blob.IsNull (tree_root t tree) = false ->
  cache_ok (PushAnchor tree_usage c t tree) /\
  cache_set (PushAnchor tree_usage c t tree) ≡ push_anchor (cache_set c) t (tree_root t tree).
Proof.
  intros Hc Hn. unfold PushAnchor, push_anchor. destruct (cache_GetBestAnchor c t) as [c1 cur] eqn:Eg.
  destruct (cache_GetBestAnchor_spec c t c1 cur Hc Eg) as ([Hi Hs Hh] & ->). cbn [inv set cache_spec] in Hi, Hs.
  destruct (bool_decide_reflect (u_best_anchor (cache_set c) t = tree_root t tree)) as [E|E].
  { rewrite decide_True by done. by split. }
  rewrite decide_False by done.
  destruct (insert_anchor_ok c1 t (tree_root t tree) {| ae_entered := true; ae_tree := tree; ae_flags := DIRTY |}
    (match sel (cacheAnchors c1) t !! tree_root t tree with None => u64 (cachedCoinsUsage c1 + tree_usage tree) | Some _ => cachedCoinsUsage c1 end) Hi)
    as [H1 H2]; [by split|].
  destruct (set_hashAnchor_ok _ t (tree_root t tree) H1 Hn) as [H3 H4]. split; [done|].
  etrans; [exact H4|]. rewrite H2. by rewrite Hs.
Qed.

(** [PopAnchor] needs the best anchor to be in the set (its assertion), and not to be that of the
    empty tree, which is never taken away. *)
Lemma PopAnchor_ok c t rt : cache_ok c -> base_blob.IsNull rt = false ->
  u_best_anchor (cache_set c) t <> rt ->
  u_anchor (cache_set c) t (u_best_anchor (cache_set c) t) = true -> u_best_anchor (cache_set c) t <> empty_root t ->
  exists c', PopAnchor tree_usage c t rt = Some c' /\ cache_ok c' /\ cache_set c' ≡ pop_anchor (cache_set c) t rt.
Proof.
  intros Hc Hn Hne Ha Hem. unfold PopAnchor, pop_anchor. rewrite decide_False by done.
  destruct (cache_GetBestAnchor c t) as [c1 cur] eqn:Eg.
  destruct (cache_GetBestAnchor_spec c t c1 cur Hc Eg) as ([Hi Hs Hh] & ->). cbn [inv set cache_spec] in Hi, Hs.
  rewrite bool_decide_eq_false_2 by done.
  destruct (cache_GetAnchorAt tree_usage c1 t _) as [c2 o] eqn:Ea.
  destruct (cache_GetAnchorAt_spec c1 t _ c2 o Hi Ea) as ([Hi2 Hs2 Hh2] & Ho & _ & He). cbn [inv set cache_spec] in Hi2, Hs2.
  destruct o as [tree|]; [|rewrite (same_anchor _ _ Hs) in Ho; apply Ho in Ha as [? ?]; done].
  destruct (He tree eq_refl) as (e & Ee & _). rewrite Ee. destruct (co_anchors c2 Hi2 t _ e Ee) as [Hr _ _].
  destruct (insert_anchor_ok c2 t (u_best_anchor (cache_set c) t)
    {| ae_entered := false; ae_tree := ae_tree e; ae_flags := DIRTY |} (cachedCoinsUsage c2) Hi2) as [H1 H2]; [by split|].
  destruct (set_hashAnchor_ok _ t rt H1 Hn) as [H3 H4]. eexists. split; [reflexivity|]. split; [done|].
  etrans; [exact H4|]. rewrite H2. cbn [ae_entered]. by rewrite Hs2, Hs.
Qed.

(** When the root to restore is the current one nothing happens. *)
Lemma PopAnchor_same c t rt : cache_ok c -> u_best_anchor (cache_set c) t = rt ->
  exists c', PopAnchor tree_usage c t rt = Some c' /\ preserves cache_spec c c'.
Proof.
  intros Hc E. unfold PopAnchor. destruct (cache_GetBestAnchor c t) as [c1 cur] eqn:Eg.
  destruct (cache_GetBestAnchor_spec c t c1 cur Hc Eg) as (Hp & ->). rewrite bool_decide_eq_true_2 by done. eauto.
Qed.

(** *** Writing a batch *)

Definition step_coins (o : option CCoinsCacheEntry) (it : CCoinsCacheEntry) : option CCoinsCacheEntry :=
  if has (ce_flags it) DIRTY then
    match o with
    | None => if negb (IsPruned (ce_coins it)) then Some {| ce_coins := ce_coins it; ce_flags := Z.lor DIRTY FRESH |} else None
    | Some us => if has (ce_flags us) FRESH && IsPruned (ce_coins it) then None
                 else Some {| ce_coins := ce_coins it; ce_flags := Z.lor (ce_flags us) DIRTY |}
    end
  else o.

Definition step_anchor (o : option (CAnchorsCacheEntry Tree)) (child : CAnchorsCacheEntry Tree) : option (CAnchorsCacheEntry Tree) :=
  if has (ae_flags child) DIRTY then
    match o with
    | None => Some {| ae_entered := ae_entered child; ae_tree := ae_tree child; ae_flags := DIRTY |}
    | Some parent => if Bool.eqb (ae_entered parent) (ae_entered child) then Some parent
                     else Some {| ae_entered := ae_entered child; ae_tree := ae_tree parent; ae_flags := Z.lor (ae_flags parent) DIRTY |}
    end
  else o.

Definition step_nullifier (o : option CNullifiersCacheEntry) (child : CNullifiersCacheEntry) : option CNullifiersCacheEntry :=
  if has (ne_flags child) DIRTY then
    match o with
    | None => Some {| ne_entered := ne_entered child; ne_flags := DIRTY |}
    | Some parent => if Bool.eqb (ne_entered parent) (ne_entered child) then Some parent
                     else Some {| ne_entered := ne_entered child; ne_flags := Z.lor (ne_flags parent) DIRTY |}
    end
  else o.

(** An entry that can be written over what the cache has: new ones must be fresh. *)
Definition writable (o : option CCoinsCacheEntry) (it : CCoinsCacheEntry) : Prop :=
  has (ce_flags it) DIRTY = true -> o = None -> IsPruned (ce_coins it) = false -> has (ce_flags it) FRESH = true.

Lemma write_coins_step (c : cache) k it : writable (cacheCoins c !! k) it -> exists m u,
  write_coins coins_usage c k it = Some (set_coins c m u) /\ m !! k = step_coins (cacheCoins c !! k) it /\
  forall k', k' <> k -> m !! k' = cacheCoins c !! k'.
Proof.
  intros Hw. unfold write_coins, step_coins, writable in *.
  assert (c = set_coins c (cacheCoins c) (cachedCoinsUsage c)) as Ec by (by destruct c).
  destruct (has (ce_flags it) DIRTY); [|eauto 6 using f_equal].
  destruct (cacheCoins c !! k) as [us|] eqn:Ek.
  - destruct (has (ce_flags us) FRESH && _); do 2 eexists; (split; [reflexivity|]).
    + rewrite lookup_delete_eq. split; [done|]. intros k' Hne. by rewrite lookup_delete_ne.
    + rewrite lookup_insert_eq. split; [done|]. intros k' Hne. by rewrite lookup_insert_ne.
  - destruct (IsPruned (ce_coins it)); cbn [negb].
    + exists (cacheCoins c), (cachedCoinsUsage c). by rewrite <- Ec, Ek.
    + rewrite Hw by done. do 2 eexists. split; [reflexivity|]. rewrite lookup_insert_eq. split; [done|].
      intros k' Hne. by rewrite lookup_insert_ne.
Qed.

Lemma write_all_coins_spec (c : cache) (m0 : CCoinsMap) : (forall k it, m0 !! k = Some it -> writable (cacheCoins c !! k) it) ->
  exists m u, write_all_coins coins_usage c m0 = Some (set_coins c m u) /\
  forall k, m !! k = match m0 !! k with Some it => step_coins (cacheCoins c !! k) it | None => cacheCoins c !! k end.
Proof.
  intros Hw. unfold write_all_coins.
  assert (forall l (c : cache), NoDup l.*1 -> (forall k it, (k, it) ∈ l -> writable (cacheCoins c !! k) it) -> exists m u,
    loop (fun r txid it => match r with None => None | Some c => write_coins coins_usage c txid it end) l (Some c) = Some (set_coins c m u) /\
    forall k, m !! k = match list_to_map (M := CCoinsMap) l !! k with
                       | Some it => step_coins (cacheCoins c !! k) it | None => cacheCoins c !! k end) as H.
  { clear. induction l as [|[k0 it0] l IH]; intros c Hnd Hw.
    { exists (cacheCoins c), (cachedCoinsUsage c). split; [by destruct c|done]. }
    cbn in Hnd. inversion_clear Hnd as [|? ? Hni Hnd'].
    destruct (write_coins_step c k0 it0) as (m1 & u1 & E1 & Hk & Hk'); [apply Hw, list_elem_of_here|].
    destruct (IH (set_coins c m1 u1) Hnd') as (m & u & E & Hm).
    { intros k it Hin. cbn [cacheCoins set_coins]. destruct (decide (k = k0)) as [->|Hne].
      - destruct Hni. by apply (list_elem_of_fmap_2 fst l (k0, it)).
      - rewrite Hk' by done. apply Hw. by apply list_elem_of_further. }
    exists m, u. cbn [loop fold_left fst snd]. rewrite E1. split; [exact E|]. intros k. rewrite Hm. cbn [cacheCoins set_coins list_to_map foldr uncurry].
    destruct (decide (k = k0)) as [->|Hne].
    - rewrite lookup_insert_eq, not_elem_of_list_to_map_1 by done. exact Hk.
    - rewrite lookup_insert_ne by done. by rewrite Hk' by done. }
  destruct (H (map_to_list m0) c) as (m & u & E & Hm).
  { apply NoDup_fst_map_to_list. }
  { intros k it Hin. apply Hw. by apply elem_of_map_to_list. }
  exists m, u. split; [exact E|]. intros k. by rewrite Hm, list_to_map_to_list.
Qed.

Lemma write_all_anchors_spec (c : cache) (t : ShieldedType) (m0 : CAnchorsMap Tree) : exists (m : CAnchorsMap Tree) (u : Z),
  write_all_anchors tree_usage c t m0 = set_anchors c t m u /\
  forall k, m !! k = match m0 !! k with
                     | Some it => step_anchor (sel (cacheAnchors c) t !! k) it | None => sel (cacheAnchors c) t !! k end.
Proof.
  set (h := fun (m : CAnchorsMap Tree) k it => partial_alter (fun o => step_anchor o it) k m).
  destruct (loop_lens (write_anchor tree_usage t) h (fun (c : cache) m u => set_anchors c t m u)) with
    (l := map_to_list m0) (s := c) (m := sel (cacheAnchors c) t) (u := cachedCoinsUsage c) as [u E].
  { intros s m u k it. unfold h, write_anchor.
    assert (sel (cacheAnchors (set_anchors s t m u)) t = m) as -> by (cbn; by rewrite sel_upd, decide_True).
    assert (forall m' u', set_anchors (set_anchors s t m u) t m' u' = set_anchors s t m' u') as Hss by (intros; by destruct t).
    unfold step_anchor. destruct (has (ae_flags it) DIRTY).
    2: { exists u. f_equal. apply map_eq. intros k'. destruct (decide (k' = k)) as [->|Hne];
           [by rewrite lookup_partial_alter_eq | by rewrite lookup_partial_alter_ne]. }
    destruct (m !! k) as [e|] eqn:Ek.
    - destruct (Bool.eqb _ _) eqn:Eb.
      + exists u. f_equal. apply map_eq. intros k'. destruct (decide (k' = k)) as [->|Hne];
          [by rewrite lookup_partial_alter_eq, Ek, Eb | by rewrite lookup_partial_alter_ne].
      + eexists. rewrite Hss. f_equal. apply map_eq. intros k'. destruct (decide (k' = k)) as [->|Hne];
          [by rewrite lookup_partial_alter_eq, Ek, Eb, lookup_insert_eq | by rewrite lookup_partial_alter_ne, lookup_insert_ne].
    - eexists. rewrite Hss. f_equal. apply map_eq. intros k'. destruct (decide (k' = k)) as [->|Hne];
        [by rewrite lookup_partial_alter_eq, Ek, lookup_insert_eq | by rewrite lookup_partial_alter_ne, lookup_insert_ne]. }
  exists (loop h (map_to_list m0) (sel (cacheAnchors c) t)), u. split.
  - rewrite <- E. unfold write_all_anchors. f_equal. by destruct t, c as [? ? ? ? ? [] ? ?].
  - intros k. apply (loop_lookup h (fun _ => step_anchor)).
    + intros m k' it. unfold h. by rewrite lookup_partial_alter_eq.
    + intros m k' it k'' Hne. unfold h. by rewrite lookup_partial_alter_ne.
Qed.

Lemma write_all_nullifiers_spec (c : cache) (t : ShieldedType) (m0 : CNullifiersMap) : exists m : CNullifiersMap,
  write_all_nullifiers c t m0 = set_nullifiers c t m /\
  forall k, m !! k = match m0 !! k with
                     | Some it => step_nullifier (sel (cacheNullifiers c) t !! k) it | None => sel (cacheNullifiers c) t !! k end.
Proof.
  set (h := fun (m : CNullifiersMap) k it => partial_alter (fun o => step_nullifier o it) k m).
  destruct (loop_lens (write_nullifier t) h (fun (c : cache) m u => set_nullifiers c t m)) with
    (l := map_to_list m0) (s := c) (m := sel (cacheNullifiers c) t) (u := 0) as [u E].
  { intros s m u k it. exists u. unfold h, write_nullifier.
    assert (sel (cacheNullifiers (set_nullifiers s t m)) t = m) as -> by (cbn; by rewrite sel_upd, decide_True).
    assert (forall m', set_nullifiers (set_nullifiers s t m) t m' = set_nullifiers s t m') as Hss by (intros; by destruct t).
    unfold step_nullifier. destruct (has (ne_flags it) DIRTY).
    2: { f_equal. apply map_eq. intros k'. destruct (decide (k' = k)) as [->|Hne];
           [by rewrite lookup_partial_alter_eq | by rewrite lookup_partial_alter_ne]. }
    destruct (m !! k) as [e|] eqn:Ek; [destruct (Bool.eqb _ _) eqn:Eb|]; rewrite ?Hss; f_equal; apply map_eq; intros k';
      (destruct (decide (k' = k)) as [->|Hne];
        [by rewrite lookup_partial_alter_eq, Ek, ?Eb, ?lookup_insert_eq | by rewrite lookup_partial_alter_ne, ?lookup_insert_ne]). }
  exists (loop h (map_to_list m0) (sel (cacheNullifiers c) t)). split.
  - rewrite <- E. unfold write_all_nullifiers. f_equal. by destruct t, c as [? ? ? ? ? ? [] ?].
  - intros k. apply (loop_lookup h (fun _ => step_nullifier)).
    + intros m k' it. unfold h. by rewrite lookup_partial_alter_eq.
    + intros m k' it k'' Hne. unfold h. by rewrite lookup_partial_alter_ne.
Qed.

Lemma batch_writable (c : cache) (b : batch Tree) (k : list Z) it : batch_ok cache_spec c b -> b_coins b !! k = Some it -> writable (cacheCoins c !! k) it.
Proof.
  intros Hb Ek Hd Hn _. destruct (has (ce_flags it) FRESH) eqn:Ef; [done|].
  destruct (bo_kept _ _ _ Hb k it Ek Hd Ef) as [e He]. by rewrite Hn in He.
Qed.

(** All that [BatchWrite] does, member by member. *)
Lemma cache_written (c : cache) (b : batch Tree) : cache_ok c -> batch_ok cache_spec c b -> exists c' : cache,
  cache_BatchWrite coins_usage tree_usage c b = Some (c', true) /\
  base c' = base c /\ hasModifier c' = false /\
  (forall k : list Z, cacheCoins c' !! k = match b_coins b !! k with
    | Some it => step_coins (cacheCoins c !! k) it | None => cacheCoins c !! k end) /\
  (forall (t : ShieldedType) (k : list Z), sel (cacheAnchors c') t !! k = match sel (b_anchors b) t !! k with
    | Some it => step_anchor (sel (cacheAnchors c) t !! k) it | None => sel (cacheAnchors c) t !! k end) /\
  (forall (t : ShieldedType) (k : list Z), sel (cacheNullifiers c') t !! k = match sel (b_nullifiers b) t !! k with
    | Some it => step_nullifier (sel (cacheNullifiers c) t !! k) it | None => sel (cacheNullifiers c) t !! k end) /\
  hashBlock c' = b_hashBlock b /\ (forall t, sel (hashAnchor c') t = sel (b_hashAnchor b) t).
Proof.
  intros Hc Hb. unfold cache_BatchWrite. rewrite (co_modifier c Hc).
  destruct (write_all_coins_spec c (b_coins b)) as (m & u & -> & Hm).
  { intros k it. by apply batch_writable. }
  cbn [mbind option_bind].
  destruct (write_all_anchors_spec (set_coins c m u) SPROUT (sel (b_anchors b) SPROUT)) as (ma & ua & -> & Hma).
  destruct (write_all_anchors_spec (set_anchors (set_coins c m u) SPROUT ma ua) SAPLING (sel (b_anchors b) SAPLING)) as (mb & ub & -> & Hmb).
  destruct (write_all_nullifiers_spec (set_anchors (set_anchors (set_coins c m u) SPROUT ma ua) SAPLING mb ub) SPROUT (sel (b_nullifiers b) SPROUT)) as (mc & -> & Hmc).
  match goal with |- context [write_all_nullifiers ?s SAPLING ?x] => destruct (write_all_nullifiers_spec s SAPLING x) as (md & -> & Hmd) end.
  eexists. split; [reflexivity|]. split_and!; try reflexivity; try (intros []); try done; by destruct Hc.
Qed.

Lemma cache_BatchWrite_ok (c : cache) (b : batch Tree) : cache_ok c -> batch_ok cache_spec c b -> exists c' : cache,
  cache_BatchWrite coins_usage tree_usage c b = Some (c', true) /\ cache_ok c' /\ cache_set c' ≡ overlay b (cache_set c).
Proof.
  intros Hc Hb. destruct (cache_written c b Hc Hb) as (c' & E & Hbase & Hmod & Hcc & Hca & Hcn & Hh & Ha).
  exists c'. split; [exact E|]. split; split; rewrite ?Hbase, ?Hmod; try (by destruct Hc).
  - intros k e. rewrite Hcc. destruct (b_coins b !! k) as [it|] eqn:Ek; [|apply Hc]. unfold step_coins.
    destruct (has (ce_flags it) DIRTY) eqn:Ed; [|apply Hc]. pose proof (batch_writable c b k it Hb Ek Ed) as Hw.
    destruct (cacheCoins c !! k) as [us|] eqn:Eu.
    + destruct (co_coins c Hc k us Eu) as [F1 F2 F3]. destruct (_ && _); [done|]. intros [= <-].
      split; cbn [ce_flags ce_coins]; rewrite ?has_fresh, ?has_dirty; done.
    + destruct (IsPruned (ce_coins it)); [done|]. intros [= <-]. split; cbn [ce_flags ce_coins]; try done. intros _.
      rewrite <- (bo_fresh _ _ _ Hb k it Ek Ed (Hw eq_refl eq_refl)). cbn. by rewrite Eu.
  - intros t rt e. rewrite Hca. destruct (sel (b_anchors b) t !! rt) as [it|] eqn:Ek; [|apply Hc]. unfold step_anchor.
    destruct (has (ae_flags it) DIRTY) eqn:Ed; [|apply Hc].
    assert (rt = empty_root t -> ae_entered it = true) as He by (intros ->; by apply (bo_empty _ _ _ Hb t it)).
    destruct (sel (cacheAnchors c) t !! rt) as [us|] eqn:Eu.
    + destruct (co_anchors c Hc t rt us Eu) as [F1 F2 F3]. destruct (Bool.eqb _ _); intros [= <-]; [done|].
      split; cbn [ae_flags ae_entered ae_tree]; rewrite ?has_dirty; done.
    + intros [= <-]. split; cbn [ae_flags ae_entered ae_tree]; [|done|done]. by apply (bo_root _ _ _ Hb t).
  - intros t nf e. rewrite Hcn. destruct (sel (b_nullifiers b) t !! nf) as [it|] eqn:Ek; [|apply Hc]. unfold step_nullifier.
    destruct (has (ne_flags it) DIRTY) eqn:Ed; [|apply Hc]. destruct (sel (cacheNullifiers c) t !! nf) as [us|] eqn:Eu.
    + destruct (Bool.eqb _ _); intros [= <-]; [by apply Hc|]. cbn. by rewrite has_dirty.
    + by intros [= <-].
  - intros k. cbn. rewrite Hcc, Hbase. destruct (b_coins b !! k) as [it|] eqn:Ek; [|done]. unfold step_coins.
    destruct (has (ce_flags it) DIRTY) eqn:Ed; [|done]. destruct (cacheCoins c !! k) as [us|] eqn:Eu.
    + destruct (has (ce_flags us) FRESH) eqn:Ef; cbn [andb]; [|done]. pose proof (ce_fresh _ _ _ (co_coins c Hc k us Eu) Ef).
      by destruct (IsPruned (ce_coins it)) eqn:Ep; [|cbn; rewrite Ep].
    + destruct (IsPruned (ce_coins it)) eqn:Ep; cbn; [|by rewrite Ep].
      destruct (has (ce_flags it) FRESH) eqn:Ef.
      * pose proof (bo_fresh _ _ _ Hb k it Ek Ed Ef) as Hn. cbn in Hn. by rewrite Eu in Hn.
      * destruct (bo_kept _ _ _ Hb k it Ek Ed Ef) as [? He]. by rewrite Eu in He.
  - intros t rt. cbn. rewrite Hca, Hbase. destruct (sel (b_anchors b) t !! rt) as [it|] eqn:Ek; [|done]. unfold step_anchor.
    destruct (has (ae_flags it) DIRTY) eqn:Ed; [|done]. destruct (sel (cacheAnchors c) t !! rt) as [us|] eqn:Eu; [|done].
    destruct (Bool.eqb _ _) eqn:Eb; [|done]. by apply Bool.eqb_prop in Eb.
  - intros t nf. cbn. rewrite Hcn, Hbase. destruct (sel (b_nullifiers b) t !! nf) as [it|] eqn:Ek; [|done]. unfold step_nullifier.
    destruct (has (ne_flags it) DIRTY) eqn:Ed; [|done]. destruct (sel (cacheNullifiers c) t !! nf) as [us|] eqn:Eu; [|done].
    destruct (Bool.eqb _ _) eqn:Eb; [|done]. by apply Bool.eqb_prop in Eb.
  - cbn [u_best_block cache_set overlay]. by rewrite Hh, (bo_best _ _ _ Hb).
  - intros t. cbn [u_best_anchor cache_set overlay]. by rewrite Ha, (bo_best_anchor _ _ _ Hb).
Qed.

(** [C5] A [CCoinsViewCache] in front of a view that keeps the contract of [CoinsView] keeps it too:
    its questions have the answers of the set it stands for and leave that set as it is, and a batch
    that a child may write is written, whatever the entries that the cache already has, without the
    assertion for stale entries failing, and puts the dirty entries of the batch in the set. *)
Theorem cache_laws : CoinsViewLaws (CCoinsViewCache_view coins_usage tree_usage) cache_spec.
Proof.
  split; cbn [GetCoins HaveCoins GetAnchorAt GetNullifier GetBestBlock GetBestAnchor BatchWrite CCoinsViewCache_view inv set holds cache_spec].
  - intros s k s' r Hs E. destruct (cache_GetCoins_spec s k s' r Hs E) as (? & ? & ?). by split_and!.
  - intros. by eapply cache_HaveCoins_spec.
  - intros s t rt s' r Hs E. destruct (cache_GetAnchorAt_spec s t rt s' r Hs E) as (? & ? & ? & _). by split_and!.
  - intros. by eapply cache_GetNullifier_spec.
  - intros s s' r Hs E. destruct (cache_GetBestBlock_spec s s' r Hs E) as (? & ? & _). by split.
  - intros. by eapply cache_GetBestAnchor_spec.
  - intros. by apply cache_BatchWrite_ok.
Qed.

(** *** Flush *)

Lemma to_batch_ok (c : cache) : cache_ok c -> base_blob.IsNull (hashBlock c) = false ->
  (forall t, base_blob.IsNull (sel (hashAnchor c) t) = false) -> batch_ok P (base c) (to_batch c).
Proof.
  intros Hc Hn Hna. split; cbn [to_batch b_coins b_anchors b_hashBlock b_hashAnchor]; try done.
  - intros k e Ek _ Hf. by apply (ce_held _ _ _ (co_coins c Hc k e Ek)).
  - intros k e Ek _ Hf. by apply (ce_fresh _ _ _ (co_coins c Hc k e Ek)).
  - intros t rt e Ek. by destruct (co_anchors c Hc t rt e Ek).
  - intros t e Ek. destruct (co_anchors c Hc t _ e Ek) as [_ _ He]. by apply He.
Qed.

Lemma to_batch_overlay (c : cache) : cache_ok c -> base_blob.IsNull (hashBlock c) = false ->
  (forall t, base_blob.IsNull (sel (hashAnchor c) t) = false) -> overlay (to_batch c) (set P (base c)) ≡ cache_set c.
Proof.
  intros Hc Hn Hna. split; cbn [to_batch b_coins b_anchors b_nullifiers b_hashBlock b_hashAnchor overlay u_coins u_anchor u_nullifier u_best_block u_best_anchor cache_set].
  - intros k. destruct (cacheCoins c !! k) as [e|] eqn:Ek; [|done]. destruct (has _ _) eqn:Ed; [done|].
    by rewrite (ce_clean _ _ _ (co_coins c Hc k e Ek)).
  - intros t rt. destruct (sel (cacheAnchors c) t !! rt) as [e|] eqn:Ek; [|done]. destruct (has _ _) eqn:Ed; [done|].
    by destruct (co_anchors c Hc t rt e Ek) as [_ -> _].
  - intros t nf. destruct (sel (cacheNullifiers c) t !! nf) as [e|] eqn:Ek; [|done]. destruct (has _ _) eqn:Ed; [done|].
    by rewrite (co_nullifiers c Hc t nf e Ek).
  - by rewrite Hn.
  - intros t. by rewrite Hna.
Qed.

(** [C8] [Flush] of a cache with a best block and best anchors gives all its changes to the view behind
    it: that view then stands for the set that the cache stood for, and so does the emptied cache. *)
Theorem Flush_commits (c : cache) : cache_ok c -> base_blob.IsNull (hashBlock c) = false ->
  (forall t, base_blob.IsNull (sel (hashAnchor c) t) = false) ->
  exists c', Flush c = Some (c', true) /\ cache_ok c' /\ cache_set c' ≡ cache_set c /\ set P (base c') ≡ cache_set c /\
             cacheCoins c' = ∅ /\ cachedCoinsUsage c' = 0.
Proof.
  intros Hc Hn Hna. unfold Flush.
  destruct (BatchWrite_law (V := V) (P := P) (base c) (to_batch c) (co_base c Hc) (to_batch_ok c Hc Hn Hna)) as (b & -> & Hi & Hs).
  cbn [mbind option_bind]. eexists. split; [reflexivity|].
  rewrite (to_batch_overlay c Hc Hn Hna) in Hs. split_and!; try done.
  - split; cbn; try done; [by destruct Hc | by intros [] | by intros []].
  - etrans; [|exact Hs]. split; cbn [cache_set u_coins u_anchor u_nullifier u_best_block u_best_anchor base cacheCoins cacheAnchors cacheNullifiers hashBlock hashAnchor]; try done.
    + by intros [].
    + by intros [].
    + rewrite Hn. symmetry. etrans; [exact (same_best_block _ _ Hs)|]. cbn [u_best_block cache_set]. by rewrite Hn.
    + intros t. rewrite Hna. symmetry. etrans; [exact (same_best_anchor _ _ Hs t)|]. cbn [u_best_anchor cache_set]. by rewrite Hna.
Qed.
End Cache.

(** ** A small stack of views *)

(** A tree is the bytes of its commitments, and its root these after a one. *)
#[export] Instance sample_trees : CommitmentTree (list Z) :=
  {| tree_root := fun _ tree => 1 :: tree; tree_append := fun _ tree cm => Some (tree ++ cm); tree_empty := [] |}.

Definition empty_db : CCoinsViewDB (list Z) :=
  {| db_coins := ∅; db_anchors := Both ∅ ∅; db_nullifiers := Both ∅ ∅; db_best_block := None; db_best_anchor := Both None None |}.

Lemma empty_db_ok : db_ok empty_db.
Proof. by intros []. Qed.

Lemma CCoinsViewCache_new_ok {Tree S} `{T : CommitmentTree Tree} (P : view_spec S) (b : S) : inv P b ->
  cache_ok (P := P) (CCoinsViewCache_new (Tree := Tree) b).
Proof. intros Hb. split; cbn; try done; by intros []. Qed.

Definition sample_coins : CCoins :=
  {| cc_fCoinBase := true; cc_vout := [{| nValue := 5; scriptPubKey := [] |}]; cc_nHeight := 1; cc_nVersion := 1 |}.

(** A cache with a new best block, best anchors, and one unspent transaction. *)
Definition sample_cache : CCoinsViewCache (list Z) (CCoinsViewDB (list Z)) :=
  let c := SetBestBlock (CCoinsViewCache_new empty_db) (replicate 32 7) in
  let c := PushAnchor (V := CCoinsViewDB_view) (fun _ => 1) c SPROUT (replicate 32 2) in
  let c := PushAnchor (V := CCoinsViewDB_view) (fun _ => 1) c SAPLING (replicate 32 3) in
  match modify (V := CCoinsViewDB_view) (fun _ => 1) c (replicate 32 9) (fun _ => Some (sample_coins, tt)) with
  | Some (c, _) => c
  | None => c
  end.

Lemma sample_cache_ok : cache_ok (P := db_spec) sample_cache.
Proof.
  unfold sample_cache. set (c1 := SetBestBlock _ _).
  assert (cache_ok (P := db_spec) c1) as H1
    by (apply SetBestBlock_ok; [apply (CCoinsViewCache_new_ok db_spec), empty_db_ok | reflexivity]).
  set (c2 := PushAnchor _ c1 _ _). assert (cache_ok (P := db_spec) c2) as H2
    by (by apply (PushAnchor_ok (L := db_laws) (fun _ => 1) c1 SPROUT (replicate 32 2))).
  set (c3 := PushAnchor _ c2 _ _). assert (cache_ok (P := db_spec) c3) as H3
    by (by apply (PushAnchor_ok (L := db_laws) (fun _ => 1) c2 SAPLING (replicate 32 3))).
  destruct (modify_spec (L := db_laws) (A := unit) (fun _ => 1) c3 (replicate 32 9) H3) as (c0 & _ & Hf).
  destruct (Hf (fun _ => Some (sample_coins, tt))) as (c4 & -> & H4 & _). exact H4.
Qed.

Lemma cache_laws_witness : CoinsViewLaws (Tree := list Z)
  (CCoinsViewCache_view (H := CCoinsViewCache_view (H := CCoinsViewDB_view) (fun _ => 1) (fun _ => 1)) (fun _ => 1) (fun _ => 1))
  (cache_spec (P := cache_spec (P := db_spec))).
Proof. exact (cache_laws (L := cache_laws (L := db_laws) (fun _ => 1) (fun _ => 1)) (fun _ => 1) (fun _ => 1)). Defined.

Lemma Flush_commits_witness : exists c', Flush (V := CCoinsViewDB_view) sample_cache = Some (c', true) /\
  u_coins (db_set (base c')) (replicate 32 9) = Some sample_coins /\ u_best_anchor (db_set (base c')) SAPLING = 1 :: replicate 32 3.
Proof.
  destruct (Flush_commits (L := db_laws) sample_cache sample_cache_ok) as (c' & E & _ & _ & Hs & _).
  - vm_compute. reflexivity.
  - intros []; vm_compute; reflexivity.
  - exists c'. split; [exact E|]. split.
    + etrans; [exact (same_coins _ _ Hs _)|]. vm_compute. reflexivity.
    + etrans; [exact (same_best_anchor _ _ Hs _)|]. vm_compute. reflexivity.
Defined.
