(* ===== verification/UpdateCoins.v ===== *)
(** * UpdateCoins: transactions and blocks applied to the coins and taken back
    [UpdateCoins], [ApplyTxInUndo] and [DisconnectBlock] of [src/src/main.cpp], the undo data of
    [undo.h] and the tombstones of [importcoin.cpp].  They work on a [CCoinsViewCache] over any view
    that keeps the contract of [CoinsLaws]; a failed assertion, or an index out of range, is [None].
    The theorems: connecting a transaction does to the abstract set what [apply_tx] says, and
    disconnecting takes it back exactly. *)
From stdpp Require Import gmap.
From S2P Require Import Prelude Uint256 Script Serialize Amount Transaction Coins CoinsLaws.

(** ** Undo data *)

(** The output an input spent and, when it was the last one of its transaction, what else
    [CCoins] has of that. *)
Record CTxInUndo := { ti_txout : CTxOut; ti_fCoinBase : bool; ti_nHeight : Z; ti_nVersion : Z }.

(** [CTxInUndo(txoutIn)] *)
Definition CTxInUndo_new (txoutIn : CTxOut) : CTxInUndo :=
  {| ti_txout := txoutIn; ti_fCoinBase := false; ti_nHeight := 0; ti_nVersion := 0 |}.

Record CTxUndo := { vprevout : list CTxInUndo }.
Record CBlockUndo := { vtxundo : list CTxUndo; old_sprout_tree_root : list Z }.

(** ** The bodies of the modifiers *)

(** What [UpdateCoins] does to the object of one input; [None] is its assertion. *)
Definition spend_output (nPos : Z) (coins : CCoins) : option (CCoins * CTxInUndo) :=
  match cc_vout coins !! Z.to_nat nPos with
  | None => None
  | Some out =>
      if TxOut.IsNull out then None
      else
        let undo := CTxInUndo_new out in
        let coins := fst (Spend coins nPos) in
        Some (coins, match cc_vout coins with
                     | [] => {| ti_txout := out; ti_fCoinBase := cc_fCoinBase coins; ti_nHeight := u32 (cc_nHeight coins);
                                ti_nVersion := cc_nVersion coins |}
                     | _ => undo
                     end)
  end.

(** What [ApplyTxInUndo] does to the object, and [fClean]; a write past the end is [None]. *)
Definition restore_output (undo : CTxInUndo) (n : Z) (coins : CCoins) : option (CCoins * bool) :=
  let '(coins, fClean) :=
    if negb (ti_nHeight undo =? 0)
    then ({| cc_fCoinBase := ti_fCoinBase undo; cc_vout := []; cc_nHeight := i32 (ti_nHeight undo); cc_nVersion := ti_nVersion undo |},
          IsPruned coins)
    else (coins, negb (IsPruned coins)) in
  let fClean := fClean && negb (IsAvailable coins n) in
  let v := cc_vout coins in
  let v := if Z.of_nat (length v) <? u32 (n + 1) then resize (Z.to_nat (u32 (n + 1))) TxOut.SetNull v else v in
  if (Z.to_nat n <? length v)%nat then Some (with_vout coins (<[Z.to_nat n := ti_txout undo]> v), fClean) else None.

(** The object of the outputs of a transaction that is disconnected: whether it is as expected. *)
Definition outputs_match (tx : tx) (nHeight : Z) (outs : CCoins) : bool :=
  let outs := ClearUnspendable outs in
  let outsBlock := FromTx tx nHeight in
  let outs := if cc_nVersion outsBlock <? 0
              then {| cc_fCoinBase := cc_fCoinBase outs; cc_vout := cc_vout outs; cc_nHeight := cc_nHeight outs;
                      cc_nVersion := cc_nVersion outsBlock |}
              else outs in
  CCoins_eq outs outsBlock.

(** The output that [AddImportTombstone] adds: no value, script [OP_0]. *)
Definition tombstone : CTxOut := {| nValue := 0; scriptPubKey := [0] |}.

Definition add_tombstone (nHeight : Z) (coins : CCoins) : CCoins :=
  {| cc_fCoinBase := cc_fCoinBase coins; cc_vout := cc_vout coins ++ [tombstone]; cc_nHeight := nHeight; cc_nVersion := 4 |}.

Section UpdateCoins.
Context {Tree S : Type} {V : CoinsView Tree S} {T : CommitmentTree Tree}.
Context (coins_usage : CCoins -> Z) (tree_usage : Tree -> Z).
#[local] Abbreviation cache := (CCoinsViewCache Tree S).

(** ** Connecting a transaction *)

(** The transaction whose burnt coins an import claims is named by its only input. *)
Definition burn_hash (importTx : tx) : option (list Z) :=
  match vin importTx with i :: _ => Some (op_hash (prevout i)) | [] => None end.

Definition AddImportTombstone (importTx : tx) (inputs : cache) (nHeight : Z) : option cache :=
  h ← burn_hash importTx;
  '(c, _) ← modify coins_usage inputs h (fun coins => Some (add_tombstone nHeight coins, tt));
  Some c.

Definition RemoveImportTombstone (importTx : tx) (inputs : cache) : option cache :=
  h ← burn_hash importTx;
  '(c, _) ← modify coins_usage inputs h (fun _ => Some (CCoins_empty, tt));
  Some c.

(** The loop over the inputs. *)
Fixpoint spend_inputs (inputs : cache) (ins : list CTxIn) : option (cache * list CTxInUndo) :=
  match ins with
  | [] => Some (inputs, [])
  | txin :: ins' =>
      '(c, undo) ← modify coins_usage inputs (op_hash (prevout txin)) (spend_output (op_n (prevout txin)));
      '(c, undos) ← spend_inputs c ins';
      Some (c, undo :: undos)
  end.

(** [UpdateCoins(tx, inputs, txundo, nHeight)]; [txundo] is empty before. *)
Definition UpdateCoins (tx : CTransaction) (inputs : cache) (nHeight : Z) : option (cache * CTxUndo) :=
  let t := ct_tx tx in
  '(c, undos) ← (if negb (IsMint t) then spend_inputs inputs (vin t) else Some (inputs, []));
  let c := SetNullifiers c t true in
  '(c, _) ← modify coins_usage c (ct_hash tx) (fun _ => Some (FromTx t nHeight, tt));
  c ← (if tx_IsCoinImport t then AddImportTombstone t c nHeight else Some c);
  Some (c, {| vprevout := undos |}).

(** ** Disconnecting *)

Definition ApplyTxInUndo (undo : CTxInUndo) (view : cache) (out : COutPoint) : option (cache * bool) :=
  modify coins_usage view (op_hash out) (restore_output undo (op_n out)).

(** The loop over the inputs, last one first: whether all was clean. *)
Fixpoint apply_undos (view : cache) (l : list (CTxIn * CTxInUndo)) : option (cache * bool) :=
  match l with
  | [] => Some (view, true)
  | (txin, undo) :: l' =>
      '(c, ok) ← ApplyTxInUndo undo view (prevout txin);
      '(c, ok') ← apply_undos c l';
      Some (c, ok && ok')
  end.

(** One turn of the loop of [DisconnectBlock]: [None] in the result is the error return, else it is
    whether all was clean.  The undo data of the first transaction is read past its end. *)
Definition disconnect_tx (view : cache) (nHeight : Z) (tx : CTransaction) (txundo : option CTxUndo) : option (cache * option bool) :=
  let t := ct_tx tx in
  '(c, ok) ← modify coins_usage view (ct_hash tx) (fun outs => Some (CCoins_empty, outputs_match t nHeight outs));
  let c := SetNullifiers c t false in
  if negb (IsMint t) then
    undo ← txundo;
    if negb (Nat.eqb (length (vprevout undo)) (length (vin t))) then Some (c, None)
    else '(c, ok') ← apply_undos c (rev (combine (vin t) (vprevout undo))); Some (c, Some (ok && ok'))
  else if tx_IsCoinImport t then c ← RemoveImportTombstone t c; Some (c, Some ok)
  else Some (c, Some ok).

(** The loop over the transactions, given last one first with their undo data. *)
Fixpoint disconnect_txs (view : cache) (nHeight : Z) (l : list (CTransaction * option CTxUndo)) : option (cache * option bool) :=
  match l with
  | [] => Some (view, Some true)
  | (tx, undo) :: l' =>
      '(c, r) ← disconnect_tx view nHeight tx undo;
      match r with
      | None => Some (c, None)
      | Some ok => '(c, r') ← disconnect_txs c nHeight l'; Some (c, option_map (andb ok) r')
      end
  end.

Definition with_undo (vtx : list CTransaction) (undo : CBlockUndo) : list (CTransaction * option CTxUndo) :=
  combine vtx (None :: map Some (vtxundo undo)).

(** [DisconnectBlock] of the block with hash [block_hash] at height [nHeight], on top of the block
    [prev_hash] whose final Sapling root is [prev_sapling_root]; [blockUndo] is what the undo file
    has, and the index of addresses is off.  The result is [None] for the error returns, and else
    [fClean]. *)
Definition DisconnectBlock (view : cache) (block_hash prev_hash prev_sapling_root : list Z) (sapling_active : bool) (nHeight : Z)
    (vtx : list CTransaction) (blockUndo : option CBlockUndo) : option (cache * option bool) :=
  let '(c, best) := cache_GetBestBlock view in
  if negb (bool_decide (block_hash = best)) then None
  else match blockUndo with
  | None => Some (c, None)
  | Some undo =>
      if negb (Nat.eqb (length (vtxundo undo) + 1) (length vtx)) then Some (c, None)
      else
        '(c, r) ← disconnect_txs c nHeight (rev (with_undo vtx undo));
        match r with
        | None => Some (c, None)
        | Some fClean =>
            c ← PopAnchor tree_usage c SPROUT (old_sprout_tree_root undo);
            c ← PopAnchor tree_usage c SAPLING (if sapling_active then prev_sapling_root else empty_root SAPLING);
            Some (SetBestBlock c prev_hash, Some fClean)
        end
  end.
End UpdateCoins.

(** ** Outputs that are not spent *)

Definition unspent (v : list CTxOut) (n : nat) : option CTxOut :=
  match v !! n with Some o => if TxOut.IsNull o then None else Some o | None => None end.

Lemma unspent_cons o v n : unspent (o :: v) n = match n with 0%nat => if TxOut.IsNull o then None else Some o | S n => unspent v n end.
Proof. by destruct n. Qed.

Lemma unspent_drop_nulls v : forall n, unspent (drop_nulls v) n = unspent v n.
Proof.
  induction v as [|o v IH]; intros n; [done|]. cbn [drop_nulls]. rewrite unspent_cons.
  destruct (drop_nulls v) as [|o' v'] eqn:E.
  - destruct n as [|n]; [|rewrite <- IH]; destruct (TxOut.IsNull o) eqn:En; rewrite ?unspent_cons, ?En; done.
  - rewrite unspent_cons. destruct n; [done|]. apply IH.
Qed.

Lemma drop_nulls_idemp v : drop_nulls (drop_nulls v) = drop_nulls v.
Proof.
  induction v as [|o v IH]; [done|]. cbn [drop_nulls]. destruct (drop_nulls v) as [|o' v'].
  - destruct (TxOut.IsNull o) eqn:En; [done|]. cbn [drop_nulls]. by rewrite En.
  - change (drop_nulls (o :: o' :: v')) with (match drop_nulls (o' :: v') with [] => if TxOut.IsNull o then [] else [o] | r => o :: r end).
    by rewrite IH.
Qed.

Lemma Cleanup_idemp c : Cleanup (Cleanup c) = Cleanup c.
Proof. unfold Cleanup, with_vout; cbn. by rewrite drop_nulls_idemp. Qed.

Lemma drop_nulls_nil v : drop_nulls v = [] <-> forallb TxOut.IsNull v = true.
Proof.
  induction v as [|o v IH]; [done|]. cbn [drop_nulls forallb]. rewrite andb_true_iff, <- IH.
  destruct (drop_nulls v); [|split; [done|by intros [_ ?]]]. destruct (TxOut.IsNull o); split; try done. by intros [? _].
Qed.

Lemma pruned_cleaned c : drop_nulls (cc_vout c) = cc_vout c -> IsPruned c = true -> cc_vout c = [].
Proof. intros H. unfold IsPruned. rewrite <- drop_nulls_nil. by rewrite H. Qed.

Lemma pruned_unspent v n : forallb TxOut.IsNull v = true -> unspent v n = None.
Proof. rewrite <- drop_nulls_nil. intros H. by rewrite <- unspent_drop_nulls, H. Qed.

(** The end of a list without nulls at the end is not null. *)
Lemma drop_nulls_last v : drop_nulls v = v -> forall n, (forall m, (n <= m)%nat -> unspent v m = None) -> (length v <= n)%nat.
Proof.
  induction v as [|o v IH]; intros Hv n Hn; [cbn; lia|]. cbn [drop_nulls] in Hv. cbn [length].
  destruct (drop_nulls v) as [|o' v'] eqn:E.
  - destruct (TxOut.IsNull o) eqn:En; [done|]. injection Hv as <-. destruct n; [|cbn; lia].
    specialize (Hn 0%nat). rewrite unspent_cons, En in Hn. by specialize (Hn (le_n _)).
  - injection Hv as <-. destruct n as [|n].
    + specialize (IH eq_refl 0%nat). assert (length (o' :: v') <= 0)%nat as Hl; [|cbn in Hl; lia].
      apply IH. intros m _. specialize (Hn (S m)). rewrite unspent_cons in Hn. apply Hn. lia.
    + enough (length (o' :: v') <= n)%nat by (cbn in *; lia). apply IH; [done|]. intros m Hm.
      specialize (Hn (S m)). rewrite unspent_cons in Hn. apply Hn. lia.
Qed.

(** Two lists without nulls at the end, and with all nulls alike, that have the same unspent outputs. *)
Definition nulls_alike (v : list CTxOut) : Prop := Forall (fun o => TxOut.IsNull o = true -> o = TxOut.SetNull) v.

Lemma unspent_ext v w : drop_nulls v = v -> drop_nulls w = w -> nulls_alike v -> nulls_alike w ->
  (forall n, unspent v n = unspent w n) -> v = w.
Proof.
  intros Hv Hw Hnv Hnw H.
  assert (length v = length w) as Hl.
  { apply Nat.le_antisymm; [apply (drop_nulls_last v Hv) | apply (drop_nulls_last w Hw)]; intros m Hm; [rewrite H|rewrite <- H];
      unfold unspent; by rewrite lookup_ge_None_2. }
  apply list_eq_same_length with (n := length v); [done|done|]. intros i x y Hi Hx Hy.
  specialize (H i). unfold unspent in H. rewrite Hx, Hy in H.
  pose proof (Forall_lookup_1 _ _ _ _ Hnv Hx). pose proof (Forall_lookup_1 _ _ _ _ Hnw Hy).
  destruct (TxOut.IsNull x) eqn:Ex, (TxOut.IsNull y) eqn:Ey; try done; [|by injection H].
  cbn in *. by rewrite H0, H1.
Qed.

(** Objects as they are in the set: cleaned, all nulls alike, and of a block after the first. *)
Record coins_wf (c : CCoins) : Prop := {
  wf_clean : drop_nulls (cc_vout c) = cc_vout c;
  wf_nulls : nulls_alike (cc_vout c);
  wf_height : 0 < cc_nHeight c < 2 ^ 31;
  wf_unpruned : IsPruned c = false
}.

Lemma nulls_alike_drop v : nulls_alike v -> nulls_alike (drop_nulls v).
Proof.
  induction 1 as [|o v Ho Hv IH]; [constructor|]. cbn [drop_nulls]. destruct (drop_nulls v) as [|o' v'].
  - unfold nulls_alike. destruct (TxOut.IsNull o) eqn:En; [constructor|]. constructor; [by rewrite En|constructor].
  - by constructor.
Qed.

(** ** Spending and restoring one output *)

Lemma IsAvailable_unspent c n : IsAvailable c n = bool_decide (is_Some (unspent (cc_vout c) (Z.to_nat n))).
Proof. unfold IsAvailable, unspent. destruct (cc_vout c !! _) as [o|]; [|done]. by destruct (TxOut.IsNull o). Qed.

Lemma unspent_insert v n o m : (n < length v)%nat ->
  unspent (<[n := o]> v) m = if decide (m = n) then if TxOut.IsNull o then None else Some o else unspent v m.
Proof.
  intros Hn. unfold unspent. destruct (decide (m = n)) as [->|Hne]; [by rewrite list_lookup_insert_eq|].
  by rewrite list_lookup_insert_ne.
Qed.

Lemma unspent_resize v k m : (length v <= k)%nat -> unspent (resize k TxOut.SetNull v) m = unspent v m.
Proof.
  intros Hk. unfold unspent. destruct (decide (m < length v)%nat) as [Hm|Hm]; [by rewrite lookup_resize by lia|].
  rewrite (lookup_ge_None_2 v) by lia. destruct (decide (m < k)%nat) as [Hmk|Hmk].
  - by rewrite lookup_resize_new by lia.
  - by rewrite lookup_resize_old by lia.
Qed.

Lemma nulls_alike_insert v n o : nulls_alike v -> TxOut.IsNull o = false \/ o = TxOut.SetNull -> nulls_alike (<[n := o]> v).
Proof.
  intros Hv Ho. destruct (decide (n < length v)%nat) as [Hn|Hn]; [|by rewrite list_insert_ge by lia].
  apply Forall_insert; [done|]. destruct Ho as [->| ->]; done.
Qed.

Lemma nulls_alike_resize v k : nulls_alike v -> nulls_alike (resize k TxOut.SetNull v).
Proof. intros Hv. by apply Forall_resize. Qed.

Lemma spend_output_inv n c c1 undo : spend_output n c = Some (c1, undo) -> exists out,
  unspent (cc_vout c) (Z.to_nat n) = Some out /\ (Z.to_nat n < length (cc_vout c))%nat /\ TxOut.IsNull out = false /\
  c1 = Cleanup (with_vout c (<[Z.to_nat n := TxOut.SetNull]> (cc_vout c))) /\
  undo = match cc_vout c1 with
         | [] => {| ti_txout := out; ti_fCoinBase := cc_fCoinBase c; ti_nHeight := u32 (cc_nHeight c); ti_nVersion := cc_nVersion c |}
         | _ => CTxInUndo_new out end.
Proof.
  unfold spend_output, Spend. rewrite IsAvailable_unspent. unfold unspent.
  destruct (cc_vout c !! Z.to_nat n) as [out|] eqn:El; [|done]. destruct (TxOut.IsNull out) eqn:En; [done|].
  rewrite bool_decide_eq_true_2 by done. cbn [fst]. intros [= <- <-]. exists out. split_and!; try done.
  by eapply lookup_lt_Some.
Qed.

Lemma spend_output_unspent n c c1 undo : spend_output n c = Some (c1, undo) ->
  forall m, unspent (cc_vout c1) m = if decide (m = Z.to_nat n) then None else unspent (cc_vout c) m.
Proof.
  intros E m. destruct (spend_output_inv n c c1 undo E) as (out & _ & Hlt & _ & -> & _). cbn [Cleanup with_vout cc_vout].
  rewrite unspent_drop_nulls, unspent_insert by done. by destruct (decide (m = Z.to_nat n)).
Qed.

(** What [restore_output] leaves after its first lines, whatever the length of the object. *)
Lemma restored_vout v n : (Z.to_nat n < length v)%nat \/ Z.of_nat (length v) < u32 (n + 1) -> 0 <= n < UINT32_MAX ->
  let v' := if Z.of_nat (length v) <? u32 (n + 1) then resize (Z.to_nat (u32 (n + 1))) TxOut.SetNull v else v in
  (Z.to_nat n < length v')%nat /\ (nulls_alike v -> nulls_alike v') /\ forall m, unspent v' m = unspent v m.
Proof.
  intros Hl Hn. assert (u32 (n + 1) = n + 1) as E by (apply (uwrap_small 32); lia). rewrite E in *. cbv zeta.
  destruct (Z.ltb_spec (Z.of_nat (length v)) (n + 1)) as [H|H].
  - rewrite length_resize. split; [lia|]. split; [apply nulls_alike_resize|]. intros m. apply unspent_resize. lia.
  - split; [lia|]. done.
Qed.

Lemma restore_spend n c c1 undo c0 : coins_wf c -> 0 <= n < UINT32_MAX -> spend_output n c = Some (c1, undo) ->
  (if IsPruned c1 then IsPruned c0 = true else c0 = c1) ->
  exists c2, restore_output undo n c0 = Some (c2, true) /\ Cleanup c2 = c.
Proof.
  intros Hc Hn E H0. pose proof (spend_output_unspent n c c1 undo E) as Hu.
  destruct (spend_output_inv n c c1 undo E) as (out & Hout & Hlt & Hnull & E1 & ->).
  assert (drop_nulls (cc_vout c1) = cc_vout c1) as Hcl by (rewrite E1; apply drop_nulls_idemp).
  assert (nulls_alike (cc_vout c1)) as Hna.
  { rewrite E1. apply nulls_alike_drop, nulls_alike_insert; [apply Hc|by right]. }
  (* the parts of the object before the output is written back *)
  assert (exists v, (forall m, unspent v m = unspent (cc_vout c1) m) /\ nulls_alike v /\
    forall (r : option (CCoins * bool) -> Prop),
      (let v' := if Z.of_nat (length v) <? u32 (n + 1) then resize (Z.to_nat (u32 (n + 1))) TxOut.SetNull v else v in
       r (if (Z.to_nat n <? length v')%nat then Some (with_vout c (<[Z.to_nat n := out]> v'), true) else None)) ->
      r (restore_output (match cc_vout c1 with
         | [] => {| ti_txout := out; ti_fCoinBase := cc_fCoinBase c; ti_nHeight := u32 (cc_nHeight c); ti_nVersion := cc_nVersion c |}
         | _ => CTxInUndo_new out end) n c0)) as (v & Hv & Hvn & Hr).
  { destruct (cc_vout c1) as [|o' v'] eqn:Ev.
    - exists []. split_and!; [done|constructor|]. intros r Hr. unfold restore_output. cbn [ti_nHeight ti_fCoinBase ti_nVersion ti_txout].
      pose proof (wf_height c Hc). rewrite (uwrap_small 32) by lia. rewrite (proj2 (Z.eqb_neq (cc_nHeight c) 0)) by lia. cbn [negb].
      assert (IsPruned c0 = true) as ->. { unfold IsPruned in H0 at 1. by rewrite Ev in H0. }
      rewrite swrap_small by lia. rewrite IsAvailable_unspent. exact Hr.
    - exists (o' :: v'). split_and!; [done|done|]. intros r Hr. assert (IsPruned c1 = false) as Hp.
      { destruct (IsPruned c1) eqn:Ep; [|done]. apply pruned_cleaned in Ep; [|by rewrite Ev]. by rewrite Ev in Ep. }
      rewrite Hp in H0. subst c0. unfold restore_output. cbn [CTxInUndo_new ti_nHeight ti_txout Z.eqb negb].
      rewrite Hp, IsAvailable_unspent, Ev, Hu. rewrite decide_True by done. cbn [negb andb bool_decide].
      assert (forall w, with_vout c1 w = with_vout c w) as Hw by (rewrite E1; done). rewrite Hw. exact Hr. }
  exists (with_vout c (<[Z.to_nat n := out]> (if Z.of_nat (length v) <? u32 (n + 1) then resize (Z.to_nat (u32 (n + 1))) TxOut.SetNull v else v))).
  destruct (restored_vout v n) as (H1 & H2 & H3); [|done|].
  { rewrite (uwrap_small 32) by lia. lia. }
  split.
  - apply Hr. cbv zeta. by rewrite (proj2 (Nat.ltb_lt _ _)).
  - transitivity (with_vout c (cc_vout c)); [|by destruct c]. unfold Cleanup, with_vout; cbn. f_equal.
    apply unspent_ext; [apply drop_nulls_idemp | apply Hc | | apply Hc |].
    + apply nulls_alike_drop, nulls_alike_insert; auto.
    + intros m. rewrite unspent_drop_nulls, unspent_insert by done. rewrite H3, Hv, Hu, Hnull.
      by destruct (decide (m = Z.to_nat n)) as [->|].
Qed.

(** ** The abstract operations *)

(** [f] applied to what the set has for a transaction. *)
Definition modify_set {A} (u : UTXO) (k : list Z) (f : CCoins -> option (CCoins * A)) : option (UTXO * A) :=
  '(coins, a) ← f (default CCoins_empty (u_coins u k));
  Some (put_coins u k (prune (Some (Cleanup coins))), a).

Fixpoint spend_set (u : UTXO) (ins : list CTxIn) : option (UTXO * list CTxInUndo) :=
  match ins with
  | [] => Some (u, [])
  | i :: ins' =>
      '(u, undo) ← modify_set u (op_hash (prevout i)) (spend_output (op_n (prevout i)));
      '(u, undos) ← spend_set u ins';
      Some (u, undo :: undos)
  end.

(** A transaction applied to the set: its inputs are spent, its nullifiers set, its outputs added. *)
Definition apply_tx (u : UTXO) (tx : CTransaction) (nHeight : Z) : option (UTXO * CTxUndo) :=
  let t := ct_tx tx in
  '(u, undos) ← (if negb (IsMint t) then spend_set u (vin t) else Some (u, []));
  Some (put_coins (mark_nullifiers u t true) (ct_hash tx) (prune (Some (FromTx t nHeight))), {| vprevout := undos |}).

Lemma ClearUnspendable_idemp c : ClearUnspendable (ClearUnspendable c) = ClearUnspendable c.
Proof.
  unfold ClearUnspendable, Cleanup, with_vout; cbn. f_equal. set (g := fun o => if CScript.IsUnspendable (scriptPubKey o) then TxOut.SetNull else o).
  rewrite <- (drop_nulls_idemp (map g (cc_vout c))) at 2. f_equal. induction (cc_vout c) as [|o v IH]; [done|].
  cbn [map drop_nulls]. assert (g (g o) = g o) as Hg.
  { subst g. cbv beta. destruct (CScript.IsUnspendable (scriptPubKey o)) eqn:E; [done|]. by rewrite E. }
  destruct (drop_nulls (map g v)) as [|o' v']; [destruct (TxOut.IsNull (g o)); [done|cbn; by rewrite Hg]|].
  cbn [map] in *. by rewrite Hg, IH.
Qed.

Lemma Cleanup_FromTx t h : Cleanup (FromTx t h) = FromTx t h.
Proof. apply Cleanup_idemp. Qed.

Lemma CCoins_eq_refl c : CCoins_eq c c = true.
Proof.
  unfold CCoins_eq. destruct (IsPruned c && IsPruned c); [done|]. rewrite Bool.eqb_reflx, !Z.eqb_refl, Nat.eqb_refl. cbn [andb].
  induction (cc_vout c) as [|o v IH]; [done|]. cbn [combine forallb fst snd]. rewrite IH. unfold txout_eq.
  rewrite Z.eqb_refl. by rewrite bool_decide_eq_true_2.
Qed.

Lemma outputs_match_same t h outs : prune (Some outs) = prune (Some (FromTx t h)) -> outputs_match t h outs = true.
Proof.
  unfold outputs_match. cbn [prune]. intros H.
  destruct (IsPruned (FromTx t h)) eqn:Ep.
  - destruct (IsPruned outs) eqn:Eo; [|done]. unfold CCoins_eq. rewrite Ep.
    assert (IsPruned (ClearUnspendable outs) = true) as Hc.
    { unfold ClearUnspendable. rewrite IsPruned_Cleanup. unfold IsPruned in *. cbn [cc_vout with_vout]. clear -Eo.
      induction (cc_vout outs) as [|o v IH]; [done|]. cbn in *. apply andb_true_iff in Eo as [E1 E2].
      rewrite IH by done. by destruct (CScript.IsUnspendable _); rewrite ?E1. }
    destruct (cc_nVersion (FromTx t h) <? 0); unfold IsPruned in Hc |- *; cbn [cc_vout]; by rewrite Hc.
  - destruct (IsPruned outs); [done|]. injection H as ->.
    assert (ClearUnspendable (FromTx t h) = FromTx t h) as -> by apply ClearUnspendable_idemp.
    destruct (_ <? 0); [|apply CCoins_eq_refl]. assert (forall c, {| cc_fCoinBase := cc_fCoinBase c; cc_vout := cc_vout c;
      cc_nHeight := cc_nHeight c; cc_nVersion := cc_nVersion c |} = c) as E by (by intros []). rewrite E. apply CCoins_eq_refl.
Qed.

(** ** The operations implement them *)

Section Refinement.
Context {Tree S : Type} {T : CommitmentTree Tree} {V : CoinsView Tree S} {P : view_spec S} {L : CoinsViewLaws V P}.
Context (coins_usage : CCoins -> Z) (tree_usage : Tree -> Z).
#[local] Abbreviation cache := (CCoinsViewCache Tree S).

(** A cache stands for a set. *)
Definition stands (c : cache) (u : UTXO) : Prop := cache_ok (P := P) c /\ cache_set (P := P) c ≡ u.

(** A result of the code implements one of the specification: both fail, or both succeed with the
    same value and the new cache stands for the new set. *)
Definition implements {A} (r : option (cache * A)) (s : option (UTXO * A)) : Prop :=
  match r, s with
  | Some (c, a), Some (u, a') => stands c u /\ a = a'
  | None, None => True
  | _, _ => False
  end.

Lemma implements_bind {A B} r s (f : cache * A -> option (cache * B)) (g : UTXO * A -> option (UTXO * B)) :
  implements r s -> (forall c u a, stands c u -> implements (f (c, a)) (g (u, a))) -> implements (r ≫= f) (s ≫= g).
Proof. destruct r as [[c a]|], s as [[u a']|]; try done. intros [Hs ->] H. by apply H. Qed.

Lemma stands_mono c u v : stands c u -> u ≡ v -> stands c v.
Proof. intros [H1 H2] H. split; [done|]. by etrans. Qed.

(** [f] may see any pruned object when the set has none. *)
Lemma modify_implements {A} c u k (f : CCoins -> option (CCoins * A)) : stands c u ->
  (forall c0, prune (Some c0) = u_coins u k -> f c0 = f (default CCoins_empty (u_coins u k))) ->
  implements (modify coins_usage c k f) (modify_set u k f).
Proof.
  intros [Hc Hu] Hf. destruct (modify_spec (A := A) coins_usage c k Hc) as (c0 & E0 & H). specialize (H f).
  unfold modify_set. rewrite <- (Hf c0) by (by rewrite E0, (same_coins _ _ Hu)).
  destruct (f c0) as [[coins a]|]; cbn [mbind option_bind].
  - destruct H as (c' & -> & Hc' & Hu'). cbn. split; [|done]. split; [done|]. etrans; [exact Hu'|]. by rewrite Hu.
  - by rewrite H.
Qed.

Lemma prune_default c0 o : prune (Some c0) = o -> c0 = default CCoins_empty o \/ (o = None /\ IsPruned c0 = true).
Proof. cbn. destruct (IsPruned c0); intros <-; [by right|by left]. Qed.

Lemma spend_output_pruned n c : IsPruned c = true -> spend_output n c = None.
Proof.
  intros Hp. pose proof (pruned_unspent (cc_vout c) (Z.to_nat n) Hp) as Hu. unfold spend_output, unspent in *.
  destruct (cc_vout c !! Z.to_nat n); [|done]. by destruct (TxOut.IsNull _).
Qed.

Lemma spend_inputs_implements ins : forall c u, stands c u -> implements (spend_inputs coins_usage c ins) (spend_set u ins).
Proof.
  induction ins as [|i ins IH]; intros c u Hs; cbn [spend_inputs spend_set]; [done|].
  apply implements_bind.
  { apply modify_implements; [done|]. intros c0 E. apply prune_default in E as [->|[-> Hp]]; [done|].
    rewrite (spend_output_pruned _ c0) by done. by rewrite spend_output_pruned. }
  intros c1 u1 undo Hs1. apply implements_bind; [by apply IH|]. intros c2 u2 undos Hs2. by split.
Qed.

Lemma SetNullifiers_stands c u t spent : stands c u -> stands (SetNullifiers c t spent) (mark_nullifiers u t spent).
Proof.
  intros [Hc Hu]. destruct (SetNullifiers_ok c t spent Hc) as [H1 H2]. split; [done|]. etrans; [exact H2|].
  unfold mark_nullifiers. by rewrite Hu.
Qed.

(** [UpdateCoins] up to the tombstone of a coin import. *)
Definition update_plain (tx : CTransaction) (inputs : cache) (nHeight : Z) : option (cache * CTxUndo) :=
  let t := ct_tx tx in
  '(c, undos) ← (if negb (IsMint t) then spend_inputs coins_usage inputs (vin t) else Some (inputs, []));
  '(c, _) ← modify coins_usage (SetNullifiers c t true) (ct_hash tx) (fun _ => Some (FromTx t nHeight, tt));
  Some (c, {| vprevout := undos |}).

Lemma UpdateCoins_plain tx c nHeight : UpdateCoins coins_usage tx c nHeight =
  '(c, undo) ← update_plain tx c nHeight;
  c ← (if tx_IsCoinImport (ct_tx tx) then AddImportTombstone coins_usage (ct_tx tx) c nHeight else Some c);
  Some (c, undo).
Proof.
  unfold UpdateCoins, update_plain. destruct (if negb (IsMint (ct_tx tx)) then _ else _) as [[c1 undos]|]; cbn [mbind option_bind]; [|done].
  by destruct (modify _ _ _ _) as [[c2 []]|].
Qed.

Lemma update_plain_implements tx c u nHeight : stands c u -> implements (update_plain tx c nHeight) (apply_tx u tx nHeight).
Proof.
  intros Hs. unfold update_plain, apply_tx. apply implements_bind.
  { destruct (negb (IsMint (ct_tx tx))); [by apply spend_inputs_implements|by split]. }
  intros c1 u1 undos Hs1. pose proof (SetNullifiers_stands c1 u1 (ct_tx tx) true Hs1) as Hs2.
  pose proof (modify_implements (A := unit) _ _ (ct_hash tx) (fun _ => Some (FromTx (ct_tx tx) nHeight, tt)) Hs2 ltac:(done)) as H.
  unfold modify_set in H. cbn [mbind option_bind] in H. rewrite Cleanup_FromTx in H.
  destruct (modify coins_usage (SetNullifiers c1 (ct_tx tx) true) (ct_hash tx) _) as [[c2 []]|]; [|done]. by destruct H.
Qed.

Lemma UpdateCoins_implements tx c u nHeight : stands c u -> tx_IsCoinImport (ct_tx tx) = false ->
  implements (UpdateCoins coins_usage tx c nHeight) (apply_tx u tx nHeight).
Proof.
  intros Hs Hi. rewrite UpdateCoins_plain, Hi. pose proof (update_plain_implements tx c u nHeight Hs) as H.
  by destruct (update_plain tx c nHeight) as [[c1 undo]|].
Qed.

(** ** The set of unspent outputs *)

Definition utxo (u : UTXO) (h : list Z) (n : Z) : option CTxOut := c ← u_coins u h; unspent (cc_vout c) (Z.to_nat n).

Definition point (i : CTxIn) : list Z * Z := (op_hash (prevout i), op_n (prevout i)).

(** The inputs that a transaction spends; a mint spends none. *)
Definition spent_by (t : tx) : list (list Z * Z) := if negb (IsMint t) then map point (vin t) else [].

(** The output [n] that a transaction adds. *)
Definition created (t : tx) (n : Z) : option CTxOut :=
  match vout t !! Z.to_nat n with
  | Some o => if CScript.IsUnspendable (scriptPubKey o) || TxOut.IsNull o then None else Some o
  | None => None
  end.

Lemma utxo_same u v h n : u ≡ v -> utxo u h n = utxo v h n.
Proof. intros H. unfold utxo. by rewrite H. Qed.

Lemma utxo_put u k c h n : utxo (put_coins u k (prune (Some c))) h n =
  if decide (h = k) then unspent (cc_vout c) (Z.to_nat n) else utxo u h n.
Proof.
  unfold utxo. cbn [put_coins u_coins]. destruct (decide (h = k)) as [->|]; [|done]. cbn [prune].
  destruct (IsPruned c) eqn:Ep; [|done]. symmetry. by apply pruned_unspent.
Qed.

Lemma unspent_FromTx t h n : unspent (cc_vout (FromTx t h)) (Z.to_nat n) = created t n.
Proof.
  unfold FromTx, ClearUnspendable, Cleanup, created. cbn [cc_vout with_vout]. rewrite unspent_drop_nulls. unfold unspent.
  rewrite list_lookup_fmap. destruct (vout t !! Z.to_nat n) as [o|]; [|done]. cbn. by destruct (CScript.IsUnspendable _).
Qed.

Lemma spend_output_some n c : is_Some (spend_output n c) <-> is_Some (unspent (cc_vout c) (Z.to_nat n)).
Proof.
  unfold spend_output, unspent. destruct (cc_vout c !! Z.to_nat n) as [o|]; [|split; by intros [? ?]].
  destruct (TxOut.IsNull o); [split; by intros [? ?]|]. destruct (cc_vout (fst (Spend c n))); split; done || eauto.
Qed.

Lemma spend_one u i : 0 <= op_n (prevout i) ->
  match modify_set u (op_hash (prevout i)) (spend_output (op_n (prevout i))) with
  | Some (u', _) => is_Some (utxo u (point i).1 (point i).2) /\
      forall h n, 0 <= n -> utxo u' h n = if decide ((h, n) = point i) then None else utxo u h n
  | None => utxo u (point i).1 (point i).2 = None
  end.
Proof.
  intros Hi. set (o := prevout i) in *. unfold modify_set.
  assert (unspent (cc_vout (default CCoins_empty (u_coins u (op_hash o)))) (Z.to_nat (op_n o)) = utxo u (point i).1 (point i).2) as Eu
    by (unfold utxo; cbn; fold o; by destruct (u_coins u (op_hash o))).
  pose proof (spend_output_some (op_n o) (default CCoins_empty (u_coins u (op_hash o)))) as Hs. rewrite Eu in Hs.
  destruct (spend_output (op_n o) _) as [[c1 undo]|] eqn:E; cbn [mbind option_bind].
  2: { destruct (utxo u _ _) eqn:Ex; [|done]. destruct Hs as [_ Hs]. destruct Hs as [? ?]; eauto. done. }
  split; [apply Hs; eauto|]. intros h n Hn. rewrite utxo_put. unfold Cleanup; cbn [cc_vout with_vout].
  rewrite unspent_drop_nulls, (spend_output_unspent _ _ _ _ E). unfold point; fold o.
  destruct (decide (h = op_hash o)) as [->|Hne]; [|rewrite decide_False by congruence; done].
  destruct (decide (n = op_n o)) as [->|Hne].
  - by rewrite !decide_True.
  - rewrite decide_False by lia. rewrite decide_False by congruence. unfold utxo. by destruct (u_coins u (op_hash o)).
Qed.

(** What it takes to spend a list of inputs, and what is left. *)
Lemma spend_set_spec ins : forall u, Forall (fun i => 0 <= op_n (prevout i)) ins ->
  match spend_set u ins with
  | Some (u', _) => NoDup (map point ins) /\ Forall (fun p => is_Some (utxo u p.1 p.2)) (map point ins) /\
      forall h n, 0 <= n -> utxo u' h n = if decide ((h, n) ∈ map point ins) then None else utxo u h n
  | None => ~ (NoDup (map point ins) /\ Forall (fun p => is_Some (utxo u p.1 p.2)) (map point ins))
  end.
Proof.
  induction ins as [|i ins IH]; intros u Hn; cbn [spend_set map].
  { split_and!; [constructor|constructor|]. intros h n _. rewrite decide_False; [done|]. apply not_elem_of_nil. }
  inversion_clear Hn as [|? ? Hi Hins]. pose proof (spend_one u i Hi) as H1.
  destruct (modify_set _ _ _) as [[u1 undo]|]; cbn [mbind option_bind].
  2: { intros [_ Ha]. inversion_clear Ha as [|? ? Hh _]. rewrite H1 in Hh. by destruct Hh. }
  destruct H1 as [Ha1 Hu1]. specialize (IH u1 Hins).
  assert (Hnn : forall p, p ∈ map point ins -> 0 <= p.2).
  { intros p (j & -> & Hj)%list_elem_of_fmap. exact (proj1 (list.Forall_forall _ _) Hins j Hj). }
  assert (Hav : point i ∉ map point ins -> (Forall (fun p => is_Some (utxo u1 p.1 p.2)) (map point ins) <->
                Forall (fun p => is_Some (utxo u p.1 p.2)) (map point ins))).
  { intros Hni. assert (forall p, p ∈ map point ins -> utxo u1 p.1 p.2 = utxo u p.1 p.2) as Heq.
    { intros [h n] Hp. cbn. rewrite Hu1 by (by apply (Hnn (h, n))). rewrite decide_False; [done|]. intros E. by rewrite E in Hp. }
    rewrite !list.Forall_forall. split; intros H p Hp; specialize (H p Hp); [by rewrite <- Heq | by rewrite Heq]. }
  destruct (spend_set u1 ins) as [[u2 undos]|]; cbn [mbind option_bind].
  - destruct IH as (Hnd & Hall & Hu2). assert (point i ∉ map point ins) as Hni.
    { intros Hp. pose proof (proj1 (list.Forall_forall _ _) Hall (point i) Hp) as Hx. cbv beta in Hx. rewrite Hu1 in Hx by done.
      rewrite decide_True in Hx by (by destruct (point i)). by destruct Hx. }
    split_and!; [by constructor | constructor; [done|by apply Hav] |]. intros h n Hn. rewrite Hu2, Hu1 by done.
    destruct (decide ((h, n) ∈ map point ins)) as [Hin|Hni'].
    + by rewrite decide_True by (by apply list_elem_of_further).
    + destruct (decide ((h, n) = point i)) as [E|Hne].
      * by rewrite decide_True by (rewrite E; apply list_elem_of_here).
      * rewrite decide_False; [done|]. by intros [?|?]%elem_of_cons.
  - intros [Hnd Hall]. inversion_clear Hnd as [|? ? Hni Hnd']. inversion_clear Hall as [|? ? _ Hall'].
    apply IH. split; [done|]. by apply Hav.
Qed.

(** The questions of [HaveInputs]. *)
Lemma AccessCoins_spec c k c' r : cache_ok (P := P) c -> AccessCoins coins_usage c k = (c', r) ->
  preserves (cache_spec (P := P)) c c' /\ prune r = u_coins (cache_set (P := P) c) k.
Proof.
  intros Hc E. destruct (cache_GetCoins_spec coins_usage c k c' r Hc E) as (H1 & H2 & _). by split.
Qed.

Lemma utxo_of_coins u r k n : prune r = u_coins u k -> utxo u k n = (c ← r; unspent (cc_vout c) (Z.to_nat n)).
Proof.
  intros H. unfold utxo. rewrite <- H. destruct r as [c|]; [|done]. cbn. destruct (IsPruned c) eqn:Ep; [|done].
  symmetry. by apply pruned_unspent.
Qed.

Lemma have_inputs_spec ins : forall c c' r, cache_ok (P := P) c -> have_inputs coins_usage c ins = (c', r) ->
  preserves (cache_spec (P := P)) c c' /\
  (r = true <-> Forall (fun p => is_Some (utxo (cache_set (P := P) c) p.1 p.2)) (map point ins)).
Proof.
  induction ins as [|i ins IH]; intros c c' r Hc; cbn [have_inputs map].
  { intros [= <- <-]. split; [by apply cache_preserves|]. by split. }
  destruct (AccessCoins coins_usage c (op_hash (prevout i))) as [c1 coins] eqn:E.
  destruct (AccessCoins_spec _ _ _ _ Hc E) as (Hp & Hu).
  pose proof (utxo_of_coins _ _ _ (op_n (prevout i)) Hu) as Hx.
  assert (forall (b : cache * bool), b = (c1, false) -> utxo (cache_set (P := P) c) (point i).1 (point i).2 = None -> b = (c', r) ->
    preserves (cache_spec (P := P)) c c' /\ (r = true <->
      Forall (fun p => is_Some (utxo (cache_set (P := P) c) p.1 p.2)) (point i :: map point ins))) as Hno.
  { intros b -> En [= <- <-]. split; [done|]. split; [done|]. intros Ha. inversion_clear Ha as [|? ? H1 _]. rewrite En in H1. by destruct H1. }
  destruct coins as [cs|]; cbn [mbind option_bind] in Hx; [|by apply Hno].
  rewrite IsAvailable_unspent. destruct (unspent (cc_vout cs) _) as [o|] eqn:Eo; [|by apply Hno].
  rewrite bool_decide_eq_true_2 by done. intros Er. destruct (IH c1 c' r (pr_inv _ _ _ Hp) Er) as (Hp' & Hr).
  split; [by eapply preserves_trans|]. rewrite Hr, list.Forall_cons. cbn [point fst snd]. rewrite Hx.
  assert (forall l, Forall (fun p => is_Some (utxo (cache_set (P := P) c1) p.1 p.2)) l <->
                    Forall (fun p => is_Some (utxo (cache_set (P := P) c) p.1 p.2)) l) as ->; [|split; [by split|by intros [_ ?]]].
  intros l. apply Forall_iff. intros p. by rewrite (utxo_same _ _ _ _ (pr_set _ _ _ Hp)).
Qed.

Lemma HaveInputs_spec c t c' r : cache_ok (P := P) c -> HaveInputs coins_usage c t = (c', r) ->
  preserves (cache_spec (P := P)) c c' /\
  (r = true <-> Forall (fun p => is_Some (utxo (cache_set (P := P) c) p.1 p.2)) (spent_by t)).
Proof.
  intros Hc. unfold HaveInputs, spent_by. destruct (negb (IsMint t)); [by apply have_inputs_spec|].
  intros [= <- <-]. split; [by apply cache_preserves|]. by split.
Qed.

Definition nullifiers_of (t : tx) (ty : ShieldedType) : list (list Z) :=
  match ty with SPROUT => sprout_nullifiers t | SAPLING => sapling_nullifiers t end.

Lemma mark_nullifiers_at u t spent ty nf :
  u_nullifier (mark_nullifiers u t spent) ty nf = if decide (nf ∈ nullifiers_of t ty) then spent else u_nullifier u ty nf.
Proof. by destruct ty. Qed.

Lemma apply_tx_spec u tx nHeight : let t := ct_tx tx in Forall (fun i => 0 <= op_n (prevout i)) (vin t) ->
  match apply_tx u tx nHeight with
  | Some (u', _) => NoDup (spent_by t) /\ Forall (fun p => is_Some (utxo u p.1 p.2)) (spent_by t) /\
      (forall h n, 0 <= n -> utxo u' h n = if decide (h = ct_hash tx) then created t n
                                           else if decide ((h, n) ∈ spent_by t) then None else utxo u h n)
  | None => ~ (NoDup (spent_by t) /\ Forall (fun p => is_Some (utxo u p.1 p.2)) (spent_by t))
  end.
Proof.
  intros t Hn. unfold apply_tx, spent_by. fold t.
  assert (forall u1 h n, utxo (put_coins (mark_nullifiers u1 t true) (ct_hash tx) (prune (Some (FromTx t nHeight)))) h n =
    if decide (h = ct_hash tx) then created t n else utxo u1 h n) as Hput.
  { intros u1 h n. rewrite utxo_put, unspent_FromTx. by destruct (decide _). }
  destruct (negb (IsMint t)).
  - pose proof (spend_set_spec (vin t) u Hn) as H. destruct (spend_set u (vin t)) as [[u1 undos]|]; cbn [mbind option_bind]; [|done].
    destruct H as (H1 & H2 & H3). split_and!; [done|done|]. intros h n Hn0. rewrite Hput. destruct (decide _); [done|]. by apply H3.
  - cbn [mbind option_bind]. split_and!; [constructor|constructor|]. intros h n Hn0. rewrite Hput. destruct (decide _); [done|].
    rewrite decide_False; [done|]. apply not_elem_of_nil.
Qed.

Lemma spend_set_other ins : forall u u' undos, spend_set u ins = Some (u', undos) ->
  u_anchor u' = u_anchor u /\ u_nullifier u' = u_nullifier u /\ u_best_block u' = u_best_block u /\ u_best_anchor u' = u_best_anchor u.
Proof.
  induction ins as [|i ins IH]; intros u u' undos; cbn [spend_set]; [by intros [= <- <-]|]. unfold modify_set.
  destruct (spend_output _ _) as [[c1 undo]|]; cbn [mbind option_bind]; [|done].
  destruct (spend_set _ ins) as [[u2 undos2]|] eqn:E; cbn [mbind option_bind]; [|done]. intros [= <- <-].
  by destruct (IH _ _ _ E) as (-> & -> & -> & ->).
Qed.

Lemma apply_tx_other u tx nHeight u' undo : apply_tx u tx nHeight = Some (u', undo) ->
  (forall ty nf, u_nullifier u' ty nf = bool_decide (nf ∈ nullifiers_of (ct_tx tx) ty) || u_nullifier u ty nf) /\
  u_anchor u' = u_anchor u /\ u_best_block u' = u_best_block u /\ u_best_anchor u' = u_best_anchor u.
Proof.
  unfold apply_tx. set (t := ct_tx tx). destruct (if negb (IsMint t) then _ else _) as [[u1 undos]|] eqn:E; cbn [mbind option_bind]; [|done].
  intros [= <- <-]. assert (u_anchor u1 = u_anchor u /\ u_nullifier u1 = u_nullifier u /\ u_best_block u1 = u_best_block u /\
    u_best_anchor u1 = u_best_anchor u) as (E1 & E2 & E3 & E4).
  { destruct (negb (IsMint t)); [by eapply spend_set_other|by injection E as <- <-]. }
  split; [|by split_and!]. intros ty nf. cbn [u_nullifier put_coins]. rewrite mark_nullifiers_at, E2.
  destruct (decide _) as [Hd|Hd]; [by rewrite bool_decide_eq_true_2|by rewrite bool_decide_eq_false_2].
Qed.

(** The outputs of the set with a transaction connected, but for the mark of a coin import. *)
Definition connected_output (u : UTXO) (tx : CTransaction) (h : list Z) (n : Z) : option CTxOut :=
  if decide (h = ct_hash tx) then created (ct_tx tx) n
  else if decide ((h, n) ∈ spent_by (ct_tx tx)) then None else utxo u h n.

(** Where the mark of a coin import is: an output, unspent by nothing before, of the transaction whose
    burnt coins are claimed. *)
Definition import_mark (u : UTXO) (tx : CTransaction) (mark : option (list Z * Z)) : Prop :=
  match mark with
  | Some (h, n) => tx_IsCoinImport (ct_tx tx) = true /\ burn_hash (ct_tx tx) = Some h /\ 0 <= n /\ connected_output u tx h n = None
  | None => tx_IsCoinImport (ct_tx tx) = false
  end.

Lemma unspent_tombstone c nHeight n : unspent (cc_vout (Cleanup (add_tombstone nHeight c))) n =
  if decide (n = length (cc_vout c)) then Some tombstone else unspent (cc_vout c) n.
Proof.
  unfold Cleanup. cbn [cc_vout with_vout add_tombstone]. rewrite unspent_drop_nulls. unfold unspent.
  destruct (decide (n = length (cc_vout c))) as [->|Hne].
  - by rewrite lookup_app_r, Nat.sub_diag by lia.
  - destruct (decide (n < length (cc_vout c))%nat); [by rewrite lookup_app_l by lia|].
    rewrite !lookup_ge_None_2; [done|lia|]. rewrite length_app. cbn [length]. lia.
Qed.

Lemma AddImportTombstone_stands t c u nHeight h : stands c u -> burn_hash t = Some h ->
  exists c' cc, AddImportTombstone coins_usage t c nHeight = Some c' /\ prune (Some cc) = u_coins u h /\
    stands c' (put_coins u h (prune (Some (Cleanup (add_tombstone nHeight cc))))).
Proof.
  intros [Hc Hu] Eh. unfold AddImportTombstone. rewrite Eh. cbn [mbind option_bind].
  destruct (modify_spec (A := unit) coins_usage c h Hc) as (cc & E & H).
  destruct (H (fun coins => Some (add_tombstone nHeight coins, tt))) as (c' & -> & Hc' & Hu').
  cbn [mbind option_bind]. exists c', cc. split; [done|]. split; [by rewrite E, (same_coins _ _ Hu)|].
  split; [done|]. etrans; [exact Hu'|]. by rewrite Hu.
Qed.

(** The last step of [UpdateCoins], which only a coin import has. *)
Lemma mark_step tx c1 u u1 nHeight : stands c1 u1 -> (forall h n, 0 <= n -> utxo u1 h n = connected_output u tx h n) ->
  exists c' u', (if tx_IsCoinImport (ct_tx tx) then AddImportTombstone coins_usage (ct_tx tx) c1 nHeight else Some c1) = Some c' /\
    stands c' u' /\ u_nullifier u' = u_nullifier u1 /\ u_anchor u' = u_anchor u1 /\ u_best_block u' = u_best_block u1 /\
    u_best_anchor u' = u_best_anchor u1 /\
    exists mark, import_mark u tx mark /\ forall h n, 0 <= n ->
      utxo u' h n = if decide (mark = Some (h, n)) then Some tombstone else connected_output u tx h n.
Proof.
  intros Hst H3. set (t := ct_tx tx). destruct (tx_IsCoinImport t) eqn:Ei.
  2: { exists c1, u1. split_and!; try done. exists None. split; [exact Ei|]. intros h n Hn0. by apply H3. }
  assert (exists h, burn_hash t = Some h) as [h0 Eh]
    by (unfold tx_IsCoinImport in Ei; unfold burn_hash; destruct (vin t) as [|i [|]]; [done|by eexists|done]).
  destruct (AddImportTombstone_stands t c1 u1 nHeight h0 Hst Eh) as (c' & cc & Ec & Ecc & Hst').
  eexists c', _. split; [exact Ec|]. split; [exact Hst'|]. split_and!; try done.
  assert (forall n, 0 <= n -> connected_output u tx h0 n = unspent (cc_vout cc) (Z.to_nat n)) as Hcc.
  { intros n Hn0. rewrite <- H3 by done. by rewrite (utxo_of_coins u1 (Some cc) h0 n Ecc). }
  set (n0 := Z.of_nat (length (cc_vout cc))). exists (Some (h0, n0)). split.
  - split_and!; [exact Ei|exact Eh|lia|]. rewrite Hcc by lia. unfold unspent. by rewrite lookup_ge_None_2 by lia.
  - intros h n Hn0. rewrite utxo_put, unspent_tombstone.
    destruct (decide (h = h0)) as [->|Hne]; [|rewrite decide_False by congruence; by apply H3].
    rewrite Hcc by done. destruct (decide (n = n0)) as [->|Hne].
    + rewrite !decide_True by (done || lia). done.
    + rewrite !decide_False by (congruence || lia). done.
Qed.

(** [C16] Connecting a transaction: [UpdateCoins] fails no assertion exactly when the outputs it spends
    are different and all unspent in the set of the view (a coinbase and a coin import spend none), and
    then the unspent outputs of the new set are those of the old one, without the ones it spends, and
    with its own outputs that can be spent; a coin import, in addition, marks the transaction whose coins
    it claims with an output of its own that was not there.  Its nullifiers are set, and nothing else
    changes. *)
Theorem UpdateCoins_spends_and_creates (c : cache) (tx : CTransaction) (nHeight : Z) :
  cache_ok (P := P) c -> Forall (fun i => 0 <= op_n (prevout i)) (vin (ct_tx tx)) ->
  let t := ct_tx tx in let u := cache_set (P := P) c in
  match UpdateCoins coins_usage tx c nHeight with
  | Some (c', _) => let u' := cache_set (P := P) c' in cache_ok (P := P) c' /\
      NoDup (spent_by t) /\ Forall (fun p => is_Some (utxo u p.1 p.2)) (spent_by t) /\
      (exists mark, import_mark u tx mark /\ forall h n, 0 <= n ->
         utxo u' h n = if decide (mark = Some (h, n)) then Some tombstone else connected_output u tx h n) /\
      (forall ty nf, u_nullifier u' ty nf = bool_decide (nf ∈ nullifiers_of t ty) || u_nullifier u ty nf) /\
      (forall ty rt, u_anchor u' ty rt = u_anchor u ty rt) /\ u_best_block u' = u_best_block u /\
      (forall ty, u_best_anchor u' ty = u_best_anchor u ty)
  | None => ~ (NoDup (spent_by t) /\ Forall (fun p => is_Some (utxo u p.1 p.2)) (spent_by t))
  end.
Proof.
  intros Hc Hn t u. rewrite UpdateCoins_plain. pose proof (update_plain_implements tx c u nHeight (conj Hc (reflexivity _))) as H.
  pose proof (apply_tx_spec u tx nHeight Hn) as Hs. pose proof (apply_tx_other u tx nHeight) as Ho.
  destruct (update_plain tx c nHeight) as [[c1 undo]|], (apply_tx u tx nHeight) as [[u1 undo']|]; try done.
  destruct H as [Hst <-], Hs as (H1 & H2 & H3), (Ho _ _ eq_refl) as (H4 & H5 & H6 & H7). cbn [mbind option_bind]. fold t.
  destruct (mark_step tx c1 u u1 nHeight Hst H3) as (c' & u' & Em & [Hc' Hu'] & E1 & E2 & E3 & E4 & mark & Hm & Hx).
  fold t in Em. rewrite Em.
  cbn [mbind option_bind]. split_and!; try done.
  - exists mark. split; [done|]. intros h n Hn0. rewrite (utxo_same _ _ _ _ Hu'). by apply Hx.
  - intros ty nf. rewrite (same_nullifier _ _ Hu'), E1. apply H4.
  - intros ty rt. by rewrite (same_anchor _ _ Hu'), E2, H5.
  - by rewrite (same_best_block _ _ Hu'), E3, H6.
  - intros ty. by rewrite (same_best_anchor _ _ Hu'), E4, H7.
Qed.

(** ** Taking a transaction back *)

Definition wf_set (u : UTXO) : Prop := forall k c, u_coins u k = Some c -> coins_wf c.

(** The points that a transaction spends are not the null one. *)
Definition spendable_points (t : tx) : Prop := IsMint t = false -> Forall (fun i => 0 <= op_n (prevout i) < UINT32_MAX) (vin t).

Lemma spend_output_wf n c c1 undo : coins_wf c -> spend_output n c = Some (c1, undo) ->
  Cleanup c1 = c1 /\ (IsPruned c1 = false -> coins_wf c1).
Proof.
  intros Hc E. destruct (spend_output_inv n c c1 undo E) as (out & _ & _ & _ & -> & _). split; [apply Cleanup_idemp|].
  intros Hp. split; [apply drop_nulls_idemp | | apply Hc | done].
  apply nulls_alike_drop, nulls_alike_insert; [apply Hc|by right].
Qed.

Lemma wf_put u k c : wf_set u -> (IsPruned c = false -> coins_wf c) -> wf_set (put_coins u k (prune (Some c))).
Proof.
  intros Hu Hc k' c'. cbn. destruct (decide (k' = k)) as [->|]; [|apply Hu].
  destruct (IsPruned c); [done|]. intros [= <-]. by apply Hc.
Qed.

Lemma put_put u k o o' : put_coins (put_coins u k o) k o' ≡ put_coins u k o'.
Proof. split; cbn; try done. intros k'. by destruct (decide _). Qed.

Lemma modify_set_inv u i u1 undo : modify_set u (op_hash (prevout i)) (spend_output (op_n (prevout i))) = Some (u1, undo) ->
  exists cc c1, u_coins u (op_hash (prevout i)) = Some cc /\ spend_output (op_n (prevout i)) cc = Some (c1, undo) /\
    u1 = put_coins u (op_hash (prevout i)) (prune (Some (Cleanup c1))).
Proof.
  unfold modify_set. destruct (u_coins u (op_hash (prevout i))) as [cc|].
  - change (default CCoins_empty (Some cc)) with cc.
    destruct (spend_output (op_n (prevout i)) cc) as [[c1 x]|] eqn:E; cbn [mbind option_bind]; [|done].
    intros [= <- <-]. by exists cc, c1.
  - change (default CCoins_empty None) with CCoins_empty. by rewrite spend_output_pruned.
Qed.

(** One input: the object of its transaction is back as it was. *)
Lemma ApplyTxInUndo_ok c u0 i u1 undo : stands c u1 -> wf_set u0 -> 0 <= op_n (prevout i) < UINT32_MAX ->
  modify_set u0 (op_hash (prevout i)) (spend_output (op_n (prevout i))) = Some (u1, undo) ->
  exists c', ApplyTxInUndo coins_usage undo c (prevout i) = Some (c', true) /\ stands c' u0.
Proof.
  intros [Hc Hu] Hwf Hn E. destruct (modify_set_inv _ _ _ _ E) as (cc & c1 & Ecc & Es & ->).
  destruct (spend_output_wf _ _ _ _ (Hwf _ _ Ecc) Es) as [Hcl _]. rewrite Hcl in Hu.
  unfold ApplyTxInUndo. destruct (modify_spec (A := bool) coins_usage c (op_hash (prevout i)) Hc) as (c0 & E0 & H).
  rewrite (same_coins _ _ Hu) in E0. cbn [u_coins put_coins] in E0. rewrite decide_True in E0 by done.
  destruct (restore_spend _ _ _ _ c0 (Hwf _ _ Ecc) Hn Es) as (c2 & Er & E2).
  { cbn in E0. destruct (IsPruned c0), (IsPruned c1) eqn:E1; try done. by injection E0. }
  specialize (H (restore_output undo (op_n (prevout i)))). rewrite Er in H. destruct H as (c' & Em & Hc' & Hu').
  exists c'. split; [exact Em|]. split; [done|]. etrans; [exact Hu'|]. rewrite Hu, put_put, E2. cbn [prune].
  rewrite (wf_unpruned _ (Hwf _ _ Ecc)). by apply put_coins_same.
Qed.

Lemma apply_undos_app l1 l2 : forall c, apply_undos coins_usage c (l1 ++ l2) =
  '(c, ok) ← apply_undos coins_usage c l1; '(c, ok') ← apply_undos coins_usage c l2; Some (c, ok && ok').
Proof.
  induction l1 as [|[i x] l1 IH]; intros c; cbn [apply_undos app mbind option_bind].
  - by destruct (apply_undos coins_usage c l2) as [[? ?]|].
  - destruct (ApplyTxInUndo coins_usage x c (prevout i)) as [[c1 ok]|]; cbn [mbind option_bind]; [|done]. rewrite IH.
    destruct (apply_undos coins_usage c1 l1) as [[c2 ok2]|]; cbn [mbind option_bind]; [|done].
    destruct (apply_undos coins_usage c2 l2) as [[c3 ok3]|]; cbn [mbind option_bind]; [|done]. by rewrite andb_assoc.
Qed.

Lemma apply_undos_ok ins : forall u0 u1 undos c, wf_set u0 -> Forall (fun i => 0 <= op_n (prevout i) < UINT32_MAX) ins ->
  spend_set u0 ins = Some (u1, undos) -> stands c u1 ->
  length undos = length ins /\ wf_set u1 /\
  exists c', apply_undos coins_usage c (rev (combine ins undos)) = Some (c', true) /\ stands c' u0.
Proof.
  induction ins as [|i ins IH]; intros u0 u1 undos c Hwf Hn; cbn [spend_set].
  { intros [= <- <-] Hs. split; [done|]. split; [done|]. by exists c. }
  inversion_clear Hn as [|? ? Hi Hins].
  destruct (modify_set u0 _ _) as [[ua x]|] eqn:E; cbn [mbind option_bind]; [|done].
  destruct (spend_set ua ins) as [[u2 xs]|] eqn:E2; cbn [mbind option_bind]; [|done]. intros [= <- <-] Hs.
  destruct (modify_set_inv _ _ _ _ E) as (cc & c1 & Ecc & Es & Ea).
  assert (wf_set ua) as Hwfa.
  { rewrite Ea. destruct (spend_output_wf _ _ _ _ (Hwf _ _ Ecc) Es) as [-> H]. by apply wf_put. }
  destruct (IH ua u2 xs c Hwfa Hins E2 Hs) as (Hl & Hwf2 & c' & Ec & Hs').
  destruct (ApplyTxInUndo_ok c' u0 i ua x Hs' Hwf Hi E) as (c'' & Ec' & Hs'').
  split; [cbn; by rewrite Hl|]. split; [done|]. exists c''. split; [|done].
  cbn [combine rev]. rewrite apply_undos_app, Ec. cbn [apply_undos mbind option_bind]. by rewrite Ec'.
Qed.

(** The nullifiers of a transaction are new. *)
Definition new_nullifiers (u : UTXO) (t : tx) : Prop :=
  forall ty, Forall (fun nf => u_nullifier u ty nf = false) (nullifiers_of t ty).

Lemma unmark_nullifiers u t : new_nullifiers u t -> mark_nullifiers (mark_nullifiers u t true) t false ≡ u.
Proof.
  intros Hn. split; try done. intros ty nf. rewrite !mark_nullifiers_at. destruct (decide _) as [Hin|]; [|done].
  symmetry. by apply (proj1 (list.Forall_forall _ _) (Hn ty)).
Qed.

Lemma mark_put u t spent k o : mark_nullifiers (put_coins u k o) t spent ≡ put_coins (mark_nullifiers u t spent) k o.
Proof. by split. Qed.

#[local] Instance mark_nullifiers_proper : Proper ((≡) ==> (=) ==> (=) ==> (≡)) mark_nullifiers.
Proof. intros u v H t _ <- b _ <-. unfold mark_nullifiers. by rewrite H. Qed.

Lemma spend_set_key ins : forall u u1 undos k, spend_set u ins = Some (u1, undos) -> u_coins u k = None -> u_coins u1 k = None.
Proof.
  induction ins as [|i ins IH]; intros u u1 undos k; cbn [spend_set]; [by intros [= <- <-]|].
  destruct (modify_set u _ _) as [[ua x]|] eqn:E; cbn [mbind option_bind]; [|done].
  destruct (spend_set ua ins) as [[u2 xs]|] eqn:E2; cbn [mbind option_bind]; [|done]. intros [= <- <-] Hk.
  apply (IH _ _ _ _ E2). destruct (modify_set_inv _ _ _ _ E) as (cc & c1 & Ecc & _ & ->). cbn.
  rewrite decide_False; [done|]. intros ->. congruence.
Qed.

Lemma disconnect_tx_ok c u0 u1 nHeight tx undo uo : wf_set u0 -> u_coins u0 (ct_hash tx) = None -> new_nullifiers u0 (ct_tx tx) ->
  spendable_points (ct_tx tx) -> tx_IsCoinImport (ct_tx tx) = false -> apply_tx u0 tx nHeight = Some (u1, undo) -> stands c u1 ->
  (IsMint (ct_tx tx) = false -> uo = Some undo) ->
  exists c', disconnect_tx coins_usage c nHeight tx uo = Some (c', Some true) /\ stands c' u0.
Proof.
  intros Hwf Hk Hnf Hn Himp E [Hc Hu] Huo. unfold apply_tx in E. unfold disconnect_tx. set (t := ct_tx tx) in *.
  destruct (if negb (IsMint t) then spend_set u0 (vin t) else Some (u0, [])) as [[ua undos]|] eqn:Es; cbn [mbind option_bind] in E; [|done].
  injection E as <- <-.
  assert (u_coins ua (ct_hash tx) = None) as Hka.
  { destruct (negb (IsMint t)); [by eapply spend_set_key|by injection Es as <- <-]. }
  destruct (modify_spec (A := bool) coins_usage c (ct_hash tx) Hc) as (c0 & E0 & H).
  rewrite (same_coins _ _ Hu) in E0. cbn [u_coins put_coins] in E0. rewrite decide_True in E0 by done.
  specialize (H (fun outs => Some (CCoins_empty, outputs_match t nHeight outs))). cbv beta iota in H.
  rewrite (outputs_match_same t nHeight c0 E0) in H. destruct H as (c1 & -> & Hc1 & Hu1). cbn [mbind option_bind].
  assert (stands (SetNullifiers c1 t false) ua) as Hs.
  { eapply stands_mono; [apply SetNullifiers_stands; split; [done|exact Hu1]|]. rewrite Hu, put_put, mark_put.
    rewrite unmark_nullifiers; [apply put_coins_same; by rewrite Hka|].
    intros ty. specialize (Hnf ty). eapply Forall_impl; [|exact Hnf]. cbv beta. intros nf Hnf'.
    destruct (negb (IsMint t)); [|by injection Es as <- <-]. by destruct (spend_set_other _ _ _ _ Es) as (_ & -> & _). }
  destruct (IsMint t) eqn:Em; cbn [negb] in *.
  - rewrite Himp. injection Es as <- <-. by exists (SetNullifiers c1 t false).
  - rewrite Huo by done. cbn [mbind option_bind vprevout].
    destruct (apply_undos_ok (vin t) u0 ua undos _ Hwf (Hn Em) Es Hs) as (Hl & _ & c2 & Ec & Hs2).
    rewrite Hl, Nat.eqb_refl. cbn [negb]. rewrite Ec. cbn [mbind option_bind]. by exists c2.
Qed.

(** Disconnecting undoes connecting: when the objects of the set are as the node writes them,
    the set has no outputs of the transaction yet (the rule of BIP30) and none of its nullifiers, and
    the transaction is not a coin import, the loop of [DisconnectBlock] with the undo data of
    [UpdateCoins] finds all as expected and leaves exactly the set that there was before. *)
Theorem disconnect_undoes_connect (c c1 : cache) (tx : CTransaction) (undo : CTxUndo) (nHeight : Z) :
  cache_ok (P := P) c -> let u := cache_set (P := P) c in
  wf_set u -> u_coins u (ct_hash tx) = None -> new_nullifiers u (ct_tx tx) ->
  spendable_points (ct_tx tx) -> tx_IsCoinImport (ct_tx tx) = false ->
  UpdateCoins coins_usage tx c nHeight = Some (c1, undo) ->
  exists c2, disconnect_tx coins_usage c1 nHeight tx (Some undo) = Some (c2, Some true) /\
             cache_ok (P := P) c2 /\ cache_set (P := P) c2 ≡ u.
Proof.
  intros Hc u Hwf Hk Hnf Hn Hi E. pose proof (UpdateCoins_implements tx c u nHeight (conj Hc (reflexivity _)) Hi) as H.
  rewrite E in H. destruct (apply_tx u tx nHeight) as [[u1 undo']|] eqn:Ea; [|done]. destruct H as [Hs <-].
  by apply (disconnect_tx_ok c1 u u1 nHeight tx undo (Some undo)).
Qed.

(** The outputs of a transaction of a block have values. *)
Definition outputs_ok (t : tx) : Prop := Forall (fun o => 0 <= nValue o) (vout t).

Lemma FromTx_wf t h : outputs_ok t -> 0 < h < 2 ^ 31 -> IsPruned (FromTx t h) = false -> coins_wf (FromTx t h).
Proof.
  intros Ho Hh Hp. split; [apply drop_nulls_idemp | | done | done]. apply nulls_alike_drop. cbn [cc_vout with_vout].
  apply Forall_fmap. eapply Forall_impl; [|exact Ho]. cbv beta. intros o Hv. cbn. destruct (CScript.IsUnspendable _); [done|].
  unfold TxOut.IsNull. intros E%Z.eqb_eq. lia.
Qed.

Lemma apply_tx_wf u tx nHeight u1 undo : wf_set u -> spendable_points (ct_tx tx) -> outputs_ok (ct_tx tx) -> 0 < nHeight < 2 ^ 31 ->
  apply_tx u tx nHeight = Some (u1, undo) -> wf_set u1.
Proof.
  intros Hwf Hn Ho Hh. unfold apply_tx. set (t := ct_tx tx) in *.
  destruct (if negb (IsMint t) then spend_set u (vin t) else Some (u, [])) as [[ua undos]|] eqn:Es; cbn [mbind option_bind]; [|done].
  intros [= <- _]. apply wf_put; [|by apply FromTx_wf]. enough (wf_set ua) by done. revert Es.
  destruct (negb (IsMint t)); [|by intros [= <- <-]]. clear -Hwf. revert u ua undos Hwf.
  induction (vin t) as [|i ins IH]; intros u ua undos Hwf; cbn [spend_set]; [by intros [= <- <-]|].
  destruct (modify_set u _ _) as [[ub x]|] eqn:E; cbn [mbind option_bind]; [|done].
  destruct (spend_set ub ins) as [[uc xs]|] eqn:E2; cbn [mbind option_bind]; [|done]. intros [= <- <-].
  eapply IH; [|exact E2]. destruct (modify_set_inv _ _ _ _ E) as (cc & c1 & Ecc & Es & ->).
  destruct (spend_output_wf _ _ _ _ (Hwf _ _ Ecc) Es) as [-> H]. by apply wf_put.
Qed.

(** What the objects of the set look like is kept by [UpdateCoins]: no null outputs at the end,
    all null outputs the same, a height of a block after the first, and something left to spend. *)
Theorem UpdateCoins_keeps_wf (c c1 : cache) (tx : CTransaction) (undo : CTxUndo) (nHeight : Z) :
  cache_ok (P := P) c -> wf_set (cache_set (P := P) c) -> spendable_points (ct_tx tx) -> outputs_ok (ct_tx tx) ->
  tx_IsCoinImport (ct_tx tx) = false -> 0 < nHeight < 2 ^ 31 ->
  UpdateCoins coins_usage tx c nHeight = Some (c1, undo) -> wf_set (cache_set (P := P) c1).
Proof.
  intros Hc Hwf Hn Ho Hi Hh E. pose proof (UpdateCoins_implements tx c _ nHeight (conj Hc (reflexivity _)) Hi) as H.
  rewrite E in H. destruct (apply_tx _ tx nHeight) as [[u1 undo']|] eqn:Ea; [|done]. destruct H as [[_ Hs] _].
  intros k cc. rewrite (same_coins _ _ Hs). by eapply apply_tx_wf.
Qed.

(** ** Coin imports *)

(** The tombstone of an import makes the set have outputs of the burn transaction, and when the
    import is disconnected it has none. *)
Lemma tombstone_ok c t h nHeight : cache_ok (P := P) c -> burn_hash t = Some h ->
  exists c', AddImportTombstone coins_usage t c nHeight = Some c' /\ cache_ok (P := P) c' /\
             is_Some (u_coins (cache_set (P := P) c') h) /\
             forall k, k <> h -> u_coins (cache_set (P := P) c') k = u_coins (cache_set (P := P) c) k.
Proof.
  intros Hc Eh. unfold AddImportTombstone. rewrite Eh. cbn [mbind option_bind].
  destruct (modify_spec (A := unit) coins_usage c h Hc) as (c0 & _ & H).
  specialize (H (fun coins => Some (add_tombstone nHeight coins, tt))). cbv beta iota in H. destruct H as (c' & -> & Hc' & Hu).
  cbn [mbind option_bind]. exists c'. split_and!; [done|done| |].
  - rewrite (same_coins _ _ Hu). cbn [u_coins put_coins]. rewrite decide_True by done. cbn [prune]. rewrite IsPruned_Cleanup.
    unfold IsPruned, add_tombstone; cbn [cc_vout]. rewrite forallb_app. cbn [forallb TxOut.IsNull tombstone nValue].
    rewrite andb_false_r. eauto.
  - intros k Hk. rewrite (same_coins _ _ Hu). cbn [u_coins put_coins]. by rewrite decide_False.
Qed.

Lemma untombstone_ok c t h : cache_ok (P := P) c -> burn_hash t = Some h ->
  exists c', RemoveImportTombstone coins_usage t c = Some c' /\ cache_ok (P := P) c' /\
             cache_set (P := P) c' ≡ put_coins (cache_set (P := P) c) h None.
Proof.
  intros Hc Eh. unfold RemoveImportTombstone. rewrite Eh. cbn [mbind option_bind].
  destruct (modify_spec (A := unit) coins_usage c h Hc) as (c0 & _ & H).
  specialize (H (fun _ => Some (CCoins_empty, tt))). cbv beta iota in H. destruct H as (c' & -> & Hc' & Hu).
  cbn [mbind option_bind]. by exists c'.
Qed.
End Refinement.

(** ** A small case *)

Definition plain_tx (ins : list CTxIn) (outs : list CTxOut) : tx := {|
  fOverwintered := false; nVersion := 1; nVersionGroupId := 0; vin := ins; vout := outs; nLockTime := 0; nExpiryHeight := 0;
  valueBalance := 0; vShieldedSpend := []; vShieldedOutput := []; vjoinsplit := [];
  joinSplitPubKey := []; joinSplitSig := []; bindingSig := [] |}.

(** It spends the only output of [sample_cache]. *)
Definition sample_spend : CTransaction := {|
  ct_tx := plain_tx [{| prevout := {| op_hash := replicate 32 9; op_n := 0 |}; scriptSig := []; nSequence := 0 |}]
                    [{| nValue := 3; scriptPubKey := [81] |}; {| nValue := 2; scriptPubKey := [106] |}];
  ct_hash := replicate 32 8 |}.

Definition sample_spent : CCoinsViewCache (list Z) (CCoinsViewDB (list Z)) * CTxUndo :=
  default (sample_cache, {| vprevout := [] |}) (UpdateCoins (V := CCoinsViewDB_view) (fun _ => 1) sample_spend sample_cache 2).

Lemma sample_update : UpdateCoins (V := CCoinsViewDB_view) (fun _ => 1) sample_spend sample_cache 2 = Some sample_spent.
Proof. vm_compute. reflexivity. Qed.

Lemma sample_wf : wf_set (cache_set (P := db_spec) sample_cache).
Proof.
  assert (cacheCoins sample_cache = {[ replicate 32 9 := {| ce_coins := sample_coins; ce_flags := 3 |} ]}) as E by (vm_compute; reflexivity).
  intros k c. cbn [u_coins cache_set]. rewrite E. destruct (decide (k = replicate 32 9)) as [->|Hne].
  - rewrite lookup_singleton_eq. cbn. intros [= <-]. by repeat constructor.
  - rewrite lookup_singleton_ne by done. assert (base sample_cache = empty_db) as -> by (vm_compute; reflexivity).
    cbn. by rewrite lookup_empty.
Qed.

(** A coin import that claims the coins of the transaction of [sample_cache]. *)
Definition sample_import : CTransaction := {|
  ct_tx := plain_tx [{| prevout := {| op_hash := replicate 32 9; op_n := 1000000000 |}; scriptSig := []; nSequence := 0 |}]
                    [{| nValue := 3; scriptPubKey := [81] |}];
  ct_hash := replicate 32 8 |}.

Lemma UpdateCoins_spends_and_creates_witness :
  utxo (cache_set (P := db_spec) sample_spent.1) (replicate 32 8) 0 = Some {| nValue := 3; scriptPubKey := [81] |} /\
  utxo (cache_set (P := db_spec) sample_spent.1) (replicate 32 9) 0 = None /\
  exists c' undo n, UpdateCoins (V := CCoinsViewDB_view) (fun _ => 1) sample_import sample_cache 2 = Some (c', undo) /\
    utxo (cache_set (P := db_spec) c') (replicate 32 9) n = Some tombstone.
Proof.
  assert (forall tx, forallb (fun i => 0 <=? op_n (prevout i)) (vin (ct_tx tx)) = true -> Forall (fun i => 0 <= op_n (prevout i)) (vin (ct_tx tx))) as Hn.
  { intros tx H. apply list.Forall_forall. intros i Hi. rewrite List.forallb_forall in H. apply list_elem_of_In, H in Hi. lia. }
  pose proof (UpdateCoins_spends_and_creates (L := db_laws) (fun _ => 1) sample_cache sample_spend 2 sample_cache_ok (Hn sample_spend eq_refl)) as H.
  rewrite sample_update in H. destruct sample_spent as [c' undo]. destruct H as (_ & _ & _ & ([m|] & Hm & H) & _).
  { destruct m as [h n]. by destruct Hm as [? _]. }
  split; [|split].
  1, 2: rewrite H by done; vm_compute; reflexivity. clear H Hm.
  pose proof (UpdateCoins_spends_and_creates (L := db_laws) (fun _ => 1) sample_cache sample_import 2 sample_cache_ok (Hn sample_import eq_refl)) as H.
  destruct (UpdateCoins _ sample_import _ _) as [[c2 undo2]|].
  2: { exfalso. apply H. split; constructor. }
  destruct H as (_ & _ & _ & ([[h n]|] & Hm & H) & _); [|done].
  destruct Hm as (_ & [= <-] & Hn0 & _). exists c2, undo2, n. split; [reflexivity|]. rewrite H by done. by rewrite decide_True by done.
Defined.

Lemma disconnect_undoes_connect_witness : exists c2,
  disconnect_tx (V := CCoinsViewDB_view) (fun _ => 1) sample_spent.1 2 sample_spend (Some sample_spent.2) = Some (c2, Some true) /\
  cache_set (P := db_spec) c2 ≡ cache_set (P := db_spec) sample_cache.
Proof.
  destruct (disconnect_undoes_connect (L := db_laws) (fun _ => 1) sample_cache sample_spent.1 sample_spend sample_spent.2 2 sample_cache_ok)
    as (c2 & E & _ & Hu).
  - apply sample_wf.
  - vm_compute. reflexivity.
  - intros []; by constructor.
  - intros _. by repeat constructor.
  - done.
  - rewrite sample_update. by destruct sample_spent.
  - exact (ex_intro _ c2 (conj E Hu)).
Defined.

Lemma UpdateCoins_keeps_wf_witness : wf_set (cache_set (P := db_spec) sample_spent.1).
Proof.
  apply (UpdateCoins_keeps_wf (L := db_laws) (fun _ => 1) sample_cache sample_spent.1 sample_spend sample_spent.2 2);
    [apply sample_cache_ok | apply sample_wf | intros _; by repeat constructor | by repeat constructor | done | done |].
  rewrite sample_update. by destruct sample_spent.
Defined.
