(* ===== verification/CoinsFormat.v ===== *)
(** * CoinsFormat: the bytes of the coin database and of the undo files
    [CCoins::Serialize] and [Unserialize] of [src/src/coins.h] with [CalcMaskSize] of [coins.cpp], and
    the undo data of [undo.h], over the compact outputs of [Compressor].  The theorems: what is
    written is read back, for everything a transaction can leave behind. *)
From S2P Require Import Prelude Endian Uint256 Script Serialize Amount Transaction Pubkey Standard Compressor Coins UpdateCoins.
#[local] Open Scope Z_scope.

(** [VARINT] of an [int]: the loop of [WriteVarInt] is the same, and stops at once on a negative
    number; reading wraps around as two's complement. *)
Definition WriteVarInt_int (n : Z) : list Z := WriteVarInt n.
Definition ReadVarInt_int : Reader Z := n <-- ReadVarInt 32 ;; rret (i32 n).

(** ** The outputs of a transaction *)

(** [i < vout.size() && !vout[i].IsNull()] *)
Definition avail (vout : list CTxOut) (i : nat) : bool :=
  match vout !! i with Some o => negb (TxOut.IsNull o) | None => false end.

(** The turns of [for (b = 0; 2+b*8 < vout.size(); b++)]. *)
Definition mask_turns (vout : list CTxOut) : list nat := seq 0 ((length vout + 5) / 8).

Definition fZero (vout : list CTxOut) (b : nat) : bool :=
  forallb (fun i => negb (avail vout (2 + b * 8 + i))) (seq 0 8).

(** [nBytes] and [nNonzeroBytes] after the call. *)
Definition CalcMaskSize (vout : list CTxOut) (nBytes nNonzeroBytes : Z) : Z * Z :=
  let '(nLastUsedByte, nNonzeroBytes) :=
    fold_left (fun '(nLast, nNonzero) b => if fZero vout b then (nLast, nNonzero) else (Z.of_nat b + 1, nNonzero + 1))
      (mask_turns vout) (0, nNonzeroBytes) in
  (nBytes + nLastUsedByte, nNonzeroBytes).

(** The byte [b] of the mask. *)
Definition chAvail (vout : list CTxOut) (b : nat) : Z :=
  fold_left (fun ch i => if avail vout (2 + b * 8 + i) then Z.lor ch (Z.shiftl 1 (Z.of_nat i)) else ch) (seq 0 8) 0.

(** The bits of a byte of the mask, as [Unserialize] takes them. *)
Definition bits (ch : Z) : list bool := map (fun p => negb (Z.land ch (Z.shiftl 1 (Z.of_nat p)) =? 0)) (seq 0 8).

Section Format.
Context {E : Secp256k1} (vch0 : CPubKey.pubkey).

Fixpoint ser_outputs (vout : list CTxOut) : option (list Z) :=
  match vout with
  | [] => Some []
  | o :: vout =>
      if TxOut.IsNull o then ser_outputs vout
      else match Serialize_compressed vch0 o, ser_outputs vout with
      | Some a, Some b => Some (a ++ b)
      | _, _ => None
      end
  end.

(** [None] is the assertion that the coins are not pruned. *)
Definition Serialize_CCoins (c : CCoins) : option (list Z) :=
  let vout := cc_vout c in
  let '(nMaskSize, nMaskCode) := CalcMaskSize vout 0 0 in
  let fFirst := avail vout 0 in
  let fSecond := avail vout 1 in
  if fFirst || fSecond || negb (nMaskCode =? 0) then
    let nCode := u32 (8 * (nMaskCode - (if fFirst || fSecond then 0 else 1)) + (if cc_fCoinBase c then 1 else 0) +
                      (if fFirst then 2 else 0) + (if fSecond then 4 else 0)) in
    match ser_outputs vout with
    | Some outs =>
        Some (WriteVarInt_int (cc_nVersion c) ++ WriteVarInt nCode ++
              concat (map (fun b => ser_writedata8 (chAvail vout b)) (seq 0 (Z.to_nat nMaskSize))) ++
              outs ++ WriteVarInt_int (cc_nHeight c))
    | None => None
    end
  else None.

(** [while (nMaskCode > 0)]: every turn reads a byte, so the bytes left and one more are enough. *)
Fixpoint read_mask (fuel : nat) (nMaskCode : Z) (vAvail : list bool) : Reader (list bool) :=
  match fuel with
  | O => rfail
  | S f =>
      if nMaskCode >? 0 then
        ch <-- ser_readdata8 ;;
        read_mask f (if negb (ch =? 0) then nMaskCode - 1 else nMaskCode) (vAvail ++ bits ch)
      else rret vAvail
  end.

Fixpoint read_outputs (vAvail : list bool) : Reader (list CTxOut) :=
  match vAvail with
  | [] => rret []
  | a :: vAvail =>
      o <-- (if a then Unserialize_compressed vch0 TxOut.SetNull else rret TxOut.SetNull) ;;
      os <-- read_outputs vAvail ;; rret (o :: os)
  end.

(** Every member is set, so the object that is read into does not matter. *)
Definition Unserialize_CCoins : Reader CCoins :=
  nVersion <-- ReadVarInt_int ;;
  nCode <-- ReadVarInt 32 ;;
  let fCoinBase := negb (Z.land nCode 1 =? 0) in
  let vAvail := [negb (Z.land nCode 2 =? 0); negb (Z.land nCode 4 =? 0)] in
  let nMaskCode := nCode / 8 + (if negb (Z.land nCode 6 =? 0) then 0 else 1) in
  vAvail <-- (fun s => read_mask (S (length s)) nMaskCode vAvail s) ;;
  vout <-- read_outputs vAvail ;;
  nHeight <-- ReadVarInt_int ;;
  rret (Cleanup {| cc_fCoinBase := fCoinBase; cc_vout := vout; cc_nHeight := nHeight; cc_nVersion := nVersion |}).

(** ** Undo data *)

Definition Serialize_CTxInUndo (u : CTxInUndo) : option (list Z) :=
  match Serialize_compressed vch0 (ti_txout u) with
  | Some out =>
      Some (WriteVarInt (u32 (u32 (ti_nHeight u * 2) + (if ti_fCoinBase u then 1 else 0))) ++
            (if ti_nHeight u >? 0 then WriteVarInt_int (ti_nVersion u) else []) ++ out)
  | None => None
  end.

(** Into [u]. *)
Definition Unserialize_CTxInUndo (u : CTxInUndo) : Reader CTxInUndo :=
  nCode <-- ReadVarInt 32 ;;
  let nHeight := nCode / 2 in
  nVersion <-- (if nHeight >? 0 then ReadVarInt_int else rret (ti_nVersion u)) ;;
  txout <-- Unserialize_compressed vch0 (ti_txout u) ;;
  rret {| ti_txout := txout; ti_fCoinBase := negb (Z.land nCode 1 =? 0); ti_nHeight := nHeight; ti_nVersion := nVersion |}.

(** A vector of objects whose serialization may fail an assertion. *)
Definition ser_vector {A} (ser : A -> option (list Z)) (v : list A) : option (list Z) :=
  match mapM ser v with
  | Some bs => Some (WriteCompactSize (Z.of_nat (length v)) ++ concat bs)
  | None => None
  end.

(** [CTxInUndo()] *)
Definition CTxInUndo_default : CTxInUndo := CTxInUndo_new TxOut.SetNull.

Definition Serialize_CTxUndo (u : CTxUndo) : option (list Z) := ser_vector Serialize_CTxInUndo (vprevout u).
Definition Unserialize_CTxUndo : Reader CTxUndo :=
  v <-- Unserialize_vector 64 (Unserialize_CTxInUndo CTxInUndo_default) ;; rret {| vprevout := v |}.

Definition Serialize_CBlockUndo (u : CBlockUndo) : option (list Z) :=
  match ser_vector Serialize_CTxUndo (vtxundo u) with
  | Some b => Some (b ++ Serialize_blob (old_sprout_tree_root u))
  | None => None
  end.
Definition Unserialize_CBlockUndo : Reader CBlockUndo :=
  v <-- Unserialize_vector 24 Unserialize_CTxUndo ;; r <-- Unserialize_blob 32 ;;
  rret {| vtxundo := v; old_sprout_tree_root := r |}.

End Format.

(** ** The mask *)

Lemma avail_past v i : (length v <= i)%nat -> avail v i = false.
Proof. intros H. unfold avail. by rewrite (proj2 (lookup_ge_None v i) H). Qed.

(** A byte gives back the eight flags it was made of. *)
Lemma bits_of_flags f0 f1 f2 f3 f4 f5 f6 f7 : let l := [f0; f1; f2; f3; f4; f5; f6; f7] in
  let ch := fold_left (fun ch i => if nth i l false then Z.lor ch (Z.shiftl 1 (Z.of_nat i)) else ch) (seq 0 8) 0 in
  bits ch = l /\ is_byte ch /\ (ch =? 0) = forallb negb l.
Proof. destruct f0, f1, f2, f3, f4, f5, f6, f7; vm_compute; done. Qed.

Lemma chAvail_spec v b : bits (chAvail v b) = map (avail v) (seq (2 + b * 8) 8) /\
  is_byte (chAvail v b) /\ (chAvail v b =? 0) = fZero v b.
Proof.
  pose proof (bits_of_flags (avail v (2 + b * 8 + 0)) (avail v (2 + b * 8 + 1)) (avail v (2 + b * 8 + 2))
    (avail v (2 + b * 8 + 3)) (avail v (2 + b * 8 + 4)) (avail v (2 + b * 8 + 5)) (avail v (2 + b * 8 + 6))
    (avail v (2 + b * 8 + 7))) as H. cbv zeta in H. destruct H as (H1 & H2 & H3).
  unfold chAvail, fZero. cbn [seq fold_left nth map forallb] in *. split; [|by split].
  rewrite H1. repeat (f_equal; try lia).
Qed.

Definition nonzero_turns v := List.filter (fun b => negb (fZero v b)) (mask_turns v).

Lemma CalcMaskSize_count v : forall l a n, snd (fold_left (fun '(nLast, nNonzero) b =>
    if fZero v b then (nLast, nNonzero) else (Z.of_nat b + 1, nNonzero + 1)) l (a, n)) =
  n + Z.of_nat (length (List.filter (fun b => negb (fZero v b)) l)).
Proof.
  induction l as [|b l IH]; intros a n; cbn [fold_left List.filter]; [cbn; lia|].
  destruct (fZero v b); cbn [negb]; rewrite IH; [done|]. cbn [length]. lia.
Qed.

(** No null output at the end. *)
Definition trimmed (v : list CTxOut) : Prop := drop_nulls v = v.

Lemma trimmed_last v : trimmed v -> v <> [] -> avail v (length v - 1) = true.
Proof.
  unfold trimmed. induction v as [|o v IH]; [done|]. cbn [drop_nulls]. intros H _.
  destruct (drop_nulls v) as [|o' r] eqn:Ed.
  - destruct (TxOut.IsNull o) eqn:En; [done|]. injection H as <-. unfold avail. cbn. by rewrite En.
  - injection H as Hv. rewrite Hv in Ed. rewrite <- Hv in *. cbn [length] in *.
    rewrite <- IH; [|by rewrite Hv in *; congruence|done]. unfold avail.
    replace (S (S (length r)) - 1)%nat with (S (S (length r) - 1)) by lia. done.
Qed.

(** The last turn finds an output. *)
Lemma last_turn v k : trimmed v -> ((length v + 5) / 8)%nat = S k -> fZero v k = false.
Proof.
  intros Hv Ek.
  assert (S k * 8 <= length v + 5 < S k * 8 + 8)%nat as Hb.
  { rewrite <- Ek. pose proof (Nat.div_mod (length v + 5) 8 ltac:(lia)).
    pose proof (Nat.mod_upper_bound (length v + 5) 8 ltac:(lia)). lia. }
  destruct (fZero v k) eqn:Hz; [|done]. unfold fZero in Hz. rewrite forallb_forall in Hz.
  specialize (Hz (length v - 1 - (2 + k * 8))%nat). rewrite in_seq in Hz.
  replace (2 + k * 8 + (length v - 1 - (2 + k * 8)))%nat with (length v - 1)%nat in Hz by lia.
  rewrite trimmed_last in Hz; [|done|by destruct v; cbn in Hb; [lia|]].
  assert (negb true = true) by (apply Hz; lia). done.
Qed.

Lemma CalcMaskSize_trimmed v : trimmed v ->
  CalcMaskSize v 0 0 = (Z.of_nat ((length v + 5) / 8), Z.of_nat (length (nonzero_turns v))).
Proof.
  intros Hv. unfold CalcMaskSize, nonzero_turns. destruct (fold_left _ _ _) as [a n] eqn:Ef.
  pose proof (CalcMaskSize_count v (mask_turns v) 0 0) as Hn. rewrite Ef in Hn. cbn [snd] in Hn. subst n.
  rewrite !Z.add_0_l. f_equal. unfold mask_turns in Ef. destruct ((length v + 5) / 8)%nat as [|k] eqn:Ek.
  { cbn in Ef. by inversion Ef. }
  rewrite seq_S, fold_left_app in Ef. cbn [fold_left Nat.add] in Ef. destruct (fold_left _ (seq 0 k) _) as [a' n'].
  pose proof (last_turn v k Hv Ek) as Hz.
  rewrite Hz in Ef. injection Ef as <- _. lia.
Qed.

Lemma read_byte ch rest : ser_readdata8 (ch :: rest) = Some (ch, rest).
Proof. unfold ser_readdata8. by rewrite (rbind_ok _ _ _ _ _ (read_bytes_app 1 [ch] rest eq_refl)). Qed.

(** Reading back the bytes of a mask: all of them, when the last is not zero. *)
Lemma read_mask_bytes l : forall fuel acc rest, Forall is_byte l -> (l = [] \/ List.last l 0 <> 0) ->
  (length l < fuel)%nat ->
  read_mask fuel (Z.of_nat (length (List.filter (fun ch => negb (ch =? 0)) l))) acc (l ++ rest) =
  Some (acc ++ concat (map bits l), rest).
Proof.
  induction l as [|ch l IH]; intros fuel acc rest Hl Hlast Hf; (destruct fuel as [|f]; [cbn in Hf; lia|]).
  - cbn. by rewrite app_nil_r.
  - apply list.Forall_cons in Hl as [Hch Hl].
    set (n := Z.of_nat (length (List.filter _ (ch :: l)))). set (m := Z.of_nat (length (List.filter (fun ch => negb (ch =? 0)) l))).
    assert (n = if negb (ch =? 0) then m + 1 else m) as En.
    { unfold n, m. cbn [List.filter]. destruct (negb (ch =? 0)); cbn [length]; lia. }
    assert (0 < n) as Hn.
    { destruct l as [|c2 l].
      - destruct Hlast as [?|Hlast]; [done|]. cbn [List.last] in Hlast.
        destruct (Z.eqb_spec ch 0); [done|]. unfold m in En. cbn in En. lia.
      - assert (0 < m) as Hm; [|destruct (negb (ch =? 0)); lia].
        destruct Hlast as [?|Hlast]; [done|]. change (List.last (ch :: c2 :: l) 0) with (List.last (c2 :: l) 0) in Hlast.
        destruct (exists_last (l := c2 :: l)) as (r & y & Er); [done|]. rewrite Er, last_last in Hlast.
        unfold m. rewrite Er, List.filter_app, length_app. cbn [List.filter].
        destruct (Z.eqb_spec y 0); [done|]. cbn [negb length]. lia. }
    cbn [read_mask app map concat]. rewrite Z.gtb_ltb. destruct (Z.ltb_spec 0 n); [|lia].
    erewrite rbind_ok by apply read_byte.
    replace (if negb (ch =? 0) then n - 1 else n) with m by (destruct (negb (ch =? 0)); lia).
    cbn [length] in Hf. rewrite IH; [by rewrite app_assoc|done| |lia].
    destruct l as [|c2 l]; [by left|]. right. by destruct Hlast.
Qed.

(** The flags that are written, and the ones read back. *)
Lemma flags_read v k : [avail v 0; avail v 1] ++ concat (map bits (map (chAvail v) (seq 0 k))) =
  map (avail v) (seq 0 (2 + k * 8)).
Proof.
  induction k as [|k IH]; [done|]. rewrite seq_S, !map_app, concat_app, app_assoc, IH. cbn [map concat Nat.add].
  rewrite app_nil_r, (proj1 (chAvail_spec v k)), <- map_app. f_equal.
  replace (S (S (S k * 8))) with (2 + k * 8 + 8)%nat by lia. by rewrite seq_app.
Qed.

Lemma flags_split v n : (length v <= n)%nat ->
  map (avail v) (seq 0 n) = map (fun o => negb (TxOut.IsNull o)) v ++ replicate (n - length v) false.
Proof.
  intros Hn. apply list_eq. intros i. rewrite list_lookup_fmap. destruct (decide (i < length v)%nat) as [Hi|Hi].
  - rewrite lookup_app_l by (by rewrite length_map). rewrite lookup_seq_lt by lia. rewrite list_lookup_fmap.
    unfold avail. cbn. destruct (v !! i) eqn:Ei; [done|]. apply lookup_ge_None in Ei. lia.
  - rewrite lookup_app_r by (rewrite length_map; lia). rewrite length_map.
    destruct (decide (i < n)%nat).
    + rewrite lookup_seq_lt by lia. cbn. rewrite avail_past by lia. by rewrite lookup_replicate_2 by lia.
    + rewrite lookup_seq_ge by lia. symmetry. apply lookup_replicate_None. lia.
Qed.

Lemma drop_nulls_app v n : drop_nulls (v ++ replicate n TxOut.SetNull) = drop_nulls v.
Proof.
  induction v as [|o v IH]; cbn [app drop_nulls]; [|by rewrite IH].
  induction n as [|n IH]; [done|]. cbn [replicate drop_nulls]. by rewrite IH.
Qed.

(** The header code, taken apart. *)
Lemma header_code q (cb f s : bool) : 0 <= q ->
  let c := 8 * q + (if cb then 1 else 0) + (if f then 2 else 0) + (if s then 4 else 0) in
  negb (Z.land c 1 =? 0) = cb /\ negb (Z.land c 2 =? 0) = f /\ negb (Z.land c 4 =? 0) = s /\
  negb (Z.land c 6 =? 0) = f || s /\ c / 8 = q.
Proof.
  intros Hq c.
  assert (forall k, 0 <= k < 8 -> Z.land c k = Z.land (c mod 8) k) as H.
  { intros k Hk. change 8 with (2 ^ 3). rewrite <- Z.land_ones, <- Z.land_assoc by lia. f_equal.
    rewrite Z.land_comm, Z.land_ones, Z.mod_small; lia. }
  rewrite !H by lia.
  set (r := (if cb then 1 else 0) + (if f then 2 else 0) + (if s then 4 else 0)).
  assert (0 <= r < 8) as Hr by (unfold r; destruct cb, f, s; lia).
  replace c with (r + q * 8) by (unfold c, r; lia). destruct (digit_split 8 r q Hr) as [-> ->].
  unfold r. by destruct cb, f, s.
Qed.

Lemma something_left v : trimmed v -> v <> [] ->
  avail v 0 || avail v 1 || negb (Z.of_nat (length (nonzero_turns v)) =? 0) = true.
Proof.
  intros Ht Hne. pose proof (trimmed_last v Ht Hne) as Hl.
  destruct (length v) as [|[|[|n]]] eqn:En; cbn [Nat.sub] in Hl; [by destruct v|..]; [by rewrite Hl|by rewrite Hl, orb_true_r|].
  destruct ((length v + 5) / 8)%nat as [|k] eqn:Ek.
  { rewrite En in Ek. replace (S (S (S n)) + 5)%nat with (n + 1 * 8)%nat in Ek by lia. rewrite Nat.div_add in Ek; lia. }
  pose proof (last_turn v k Ht Ek) as Hz. unfold nonzero_turns, mask_turns. rewrite Ek, seq_S, List.filter_app, length_app.
  cbn [Nat.add List.filter]. rewrite Hz. cbn [negb length]. case_Z; [lia|]. by rewrite !orb_true_r.
Qed.

Lemma nonzero_few v : (length (nonzero_turns v) <= (length v + 5) / 8)%nat.
Proof. unfold nonzero_turns. rewrite List.filter_length_le. unfold mask_turns. by rewrite length_seq. Qed.

(** The bytes of the mask, read with the code that counts those that are not zero. *)
Lemma mask_read v rest : trimmed v ->
  let s := concat (map (fun b => ser_writedata8 (chAvail v b)) (mask_turns v)) ++ rest in
  read_mask (S (length s)) (Z.of_nat (length (nonzero_turns v))) [avail v 0; avail v 1] s =
  Some (map (avail v) (seq 0 (2 + (length v + 5) / 8 * 8)), rest).
Proof.
  intros Ht. cbv zeta.
  assert (forall l, concat (map (fun b => ser_writedata8 (chAvail v b)) l) = map (chAvail v) l) as ->.
  { induction l as [|b l IH]; cbn [map concat]; [done|]. rewrite IH. unfold ser_writedata8.
    by rewrite uwrap_small by apply (chAvail_spec v b). }
  assert (forall l, length (List.filter (fun b => negb (fZero v b)) l) =
            length (List.filter (fun ch => negb (ch =? 0)) (map (chAvail v) l))) as Hf.
  { induction l as [|b l IH]; [done|]. cbn [List.filter map]. rewrite (proj2 (proj2 (chAvail_spec v b))).
    destruct (fZero v b); cbn [negb length]; lia. }
  unfold nonzero_turns. rewrite Hf, <- flags_read. unfold mask_turns. apply read_mask_bytes.
  - apply Forall_map, list.Forall_forall. intros b _. apply (chAvail_spec v b).
  - destruct ((length v + 5) / 8)%nat as [|k] eqn:Ek; [by left|]. right.
    rewrite seq_S, map_app. cbn [map Nat.add]. rewrite last_last.
    pose proof (last_turn v k Ht Ek) as Hz. rewrite <- (proj2 (proj2 (chAvail_spec v k))) in Hz. by apply Z.eqb_neq.
  - rewrite length_app. lia.
Qed.

Section Laws.
Context {E : Secp256k1} {L : Secp256k1Laws E} {F : Secp256k1Forms E}.
Context (vch0 : CPubKey.pubkey) (Hvch0 : length vch0 = 65%nat).

(** What may stand in an array of outputs: spent ones and those that can be written. *)
Definition slot_wf (o : CTxOut) : Prop := o = TxOut.SetNull \/ (TxOut.IsNull o = false /\ output_wf o).

Lemma read_outputs_nulls n s : read_outputs vch0 (replicate n false) s = Some (replicate n TxOut.SetNull, s).
Proof. revert s. induction n as [|n IH]; intros s; [done|]. cbn. unfold rbind, rret in *. by rewrite IH. Qed.

Lemma ser_outputs_read v n : Forall slot_wf v -> exists b, ser_outputs vch0 v = Some b /\ forall rest,
  read_outputs vch0 (map (fun o => negb (TxOut.IsNull o)) v ++ replicate n false) (b ++ rest) =
  Some (v ++ replicate n TxOut.SetNull, rest).
Proof.
  induction 1 as [|o v Ho Hv (b & Eb & IH)]; cbn [ser_outputs].
  - exists []. split; [done|]. apply read_outputs_nulls.
  - destruct Ho as [->|[Hn Ho]].
    + exists b. split; [done|]. intros rest. cbn [map app read_outputs]. cbn [negb TxOut.IsNull nValue TxOut.SetNull Z.eqb].
      erewrite rbind_ok by done. by erewrite rbind_ok by (apply IH).
    + rewrite Hn, Eb. destruct (read_output vch0 Hvch0 o TxOut.SetNull Ho) as (a & -> & Ha).
      eexists. split; [reflexivity|]. intros rest. cbn [map app read_outputs]. rewrite Hn. cbn [negb].
      rewrite <- app_assoc. erewrite rbind_ok by apply Ha. by erewrite rbind_ok by (apply IH).
Qed.

(** The coins that can be stored: as [Cleanup] leaves them, with an output left. *)
Record coins_wf (c : CCoins) : Prop := {
  cw_trimmed : trimmed (cc_vout c);
  cw_some : cc_vout c <> [];
  cw_slots : Forall slot_wf (cc_vout c);
  cw_length : Z.of_nat (length (cc_vout c)) < 2 ^ 28;
  cw_height : 0 <= cc_nHeight c < 2 ^ 31;
  cw_version : 0 <= cc_nVersion c < 2 ^ 31
}.

Lemma ReadVarInt_int_read n rest : 0 <= n < 2 ^ 31 -> ReadVarInt_int (WriteVarInt_int n ++ rest) = Some (n, rest).
Proof.
  intros Hn. unfold ReadVarInt_int, WriteVarInt_int. erewrite rbind_ok by (apply ReadVarInt_WriteVarInt; lia).
  unfold rret. by rewrite swrap_small by lia.
Qed.

(** The bytes of an object that is not pruned: for every object that is not pruned, the
    assertion of [Serialize] holds, and reading its bytes gives the object and leaves what follows. *)
Lemma read_coins c : coins_wf c ->
  exists b, Serialize_CCoins vch0 c = Some b /\ forall rest, Unserialize_CCoins vch0 (b ++ rest) = Some (c, rest).
Proof.
  intros [Ht Hne Hs Hl Hh Hv]. destruct c as [cb v h ver]. cbn [cc_vout cc_nHeight cc_nVersion] in *.
  unfold Serialize_CCoins. cbn [cc_vout cc_nHeight cc_nVersion cc_fCoinBase]. rewrite CalcMaskSize_trimmed by done.
  set (k := ((length v + 5) / 8)%nat). set (m := length (nonzero_turns v)).
  assert (length v <= 2 + k * 8)%nat as Hk.
  { unfold k. pose proof (Nat.div_mod (length v + 5) 8 ltac:(lia)).
    pose proof (Nat.mod_upper_bound (length v + 5) 8 ltac:(lia)). lia. }
  pose proof (something_left v Ht Hne) as Hsome. fold m in Hsome. rewrite Hsome. destruct (ser_outputs_read v (2 + k * 8 - length v) Hs) as (b & -> & Hb).
  eexists. split; [reflexivity|]. intros rest. rewrite Nat2Z.id, <- !app_assoc. unfold Unserialize_CCoins.
  erewrite rbind_ok by (by apply ReadVarInt_int_read).
  set (q := Z.of_nat m - (if avail v 0 || avail v 1 then 0 else 1)).
  assert (Z.of_nat m = q + (if avail v 0 || avail v 1 then 0 else 1)) as Hq by lia.
  assert (0 <= q < 2 ^ 28 + 6) as Hqb.
  { pose proof (nonzero_few v) as Hm. fold m k in Hm.
    assert (k <= length v + 5)%nat by (apply Nat.Div0.div_le_upper_bound; lia). unfold q. destruct (avail v 0 || avail v 1); cbn [orb] in Hsome; [lia|].
    propify. lia. }
  destruct (header_code q cb (avail v 0) (avail v 1) ltac:(lia)) as (H1 & H2 & H3 & H4 & H5).
  set (code := 8 * q + _ + _ + _) in *.
  assert (0 <= code < 2 ^ 32) by (unfold code; destruct cb, (avail v 0), (avail v 1); lia).
  rewrite uwrap_small by lia. erewrite rbind_ok by (apply ReadVarInt_WriteVarInt; lia).
  cbv zeta. rewrite H1, H2, H3, H4, H5, <- Hq. erewrite rbind_ok by (by apply mask_read).
  rewrite flags_split by done. erewrite rbind_ok by apply Hb. erewrite rbind_ok by (by apply ReadVarInt_int_read).
  unfold rret, Cleanup, with_vout. cbn [cc_vout cc_nHeight cc_nVersion cc_fCoinBase]. by rewrite drop_nulls_app, Ht.
Qed.
(** ** What transactions leave is such an object *)

Record coins_good (c : CCoins) : Prop := {
  cg_trimmed : trimmed (cc_vout c);
  cg_slots : Forall slot_wf (cc_vout c);
  cg_length : Z.of_nat (length (cc_vout c)) < 2 ^ 28;
  cg_height : 0 <= cc_nHeight c < 2 ^ 31;
  cg_version : 0 <= cc_nVersion c < 2 ^ 31
}.

Lemma coins_good_wf c : coins_good c -> IsPruned c = false -> coins_wf c.
Proof. intros [? ? ? ? ?] Hp. split; [done| |done..]. intros Hv. unfold IsPruned in Hp. by rewrite Hv in Hp. Qed.

Lemma slots_drop v : Forall slot_wf v -> Forall slot_wf (drop_nulls v) /\ (length (drop_nulls v) <= length v)%nat.
Proof.
  induction 1 as [|o v Ho Hv [IH Hl]]; cbn [drop_nulls length]; [by split|].
  destruct (drop_nulls v) as [|o' r]; [|by split; [constructor|cbn [length] in *; lia]].
  destruct (TxOut.IsNull o); [by split; [constructor|cbn; lia]|]. split; [by constructor|cbn; lia].
Qed.

Lemma Cleanup_good c : Forall slot_wf (cc_vout c) -> Z.of_nat (length (cc_vout c)) < 2 ^ 28 ->
  0 <= cc_nHeight c < 2 ^ 31 -> 0 <= cc_nVersion c < 2 ^ 31 -> coins_good (Cleanup c).
Proof.
  intros Hs Hl Hh Hv. destruct (slots_drop _ Hs) as [Hs' Hl'].
  split; cbn [Cleanup with_vout cc_vout cc_nHeight cc_nVersion]; [apply drop_nulls_idemp|done|lia|done|done].
Qed.

(** The outputs of a transaction, with amounts in range: those that can be spent are short. *)
Definition payable (t : tx) : Prop :=
  Forall (fun o => 0 <= nValue o /\ 9 * nValue o + 9 < 2 ^ 64) (vout t) /\
  Z.of_nat (length (vout t)) < 2 ^ 28 /\ 0 <= nVersion t < 2 ^ 31.

Lemma FromTx_good t h : payable t -> 0 <= h < 2 ^ 31 -> coins_good (FromTx t h).
Proof.
  intros (Ho & Hl & Hv) Hh. unfold FromTx, ClearUnspendable.
  apply Cleanup_good; cbn [with_vout cc_vout cc_nHeight cc_nVersion]; [|by rewrite length_map|done|done].
  apply Forall_map. eapply list.Forall_impl; [exact Ho|]. intros o [H0 H1]. cbv beta.
  destruct (CScript.IsUnspendable (scriptPubKey o)) eqn:Eu; [by left|]. right.
  split; [unfold TxOut.IsNull; apply Z.eqb_neq; lia|]. split_and!; [done..|].
  unfold CScript.IsUnspendable in Eu. propify. unfold script_wf. lia.
Qed.

Lemma Spend_good c n : coins_good c -> coins_good (fst (Spend c n)).
Proof.
  intros [Ht Hs Hl Hh Hv]. unfold Spend. destruct (IsAvailable c n); [|by split]. cbn [fst].
  apply Cleanup_good; cbn [with_vout cc_vout cc_nHeight cc_nVersion]; [|by rewrite length_insert|done|done].
  apply list.Forall_insert; [done|by left].
Qed.

Lemma avail_trimmed v : avail v (length v - 1) = true -> trimmed v.
Proof.
  unfold trimmed. induction v as [|o v IH]; [done|]. intros H. cbn [drop_nulls].
  destruct v as [|o' v].
  - unfold avail in H. cbn in H. cbn. by destruct (TxOut.IsNull o).
  - rewrite IH; [done|]. rewrite <- H. unfold avail. cbn [length].
    by replace (S (S (length v)) - 1)%nat with (S (S (length v) - 1)) by lia.
Qed.

(** What an undo record can hold. *)
Definition undo_wf (u : CTxInUndo) : Prop :=
  output_wf (ti_txout u) /\ 0 <= ti_nHeight u < 2 ^ 31 /\ 0 <= ti_nVersion u < 2 ^ 31 /\
  (ti_nHeight u = 0 -> ti_nVersion u = 0).

Lemma output_not_null o : output_wf o -> TxOut.IsNull o = false.
Proof. intros (H & _). unfold TxOut.IsNull. apply Z.eqb_neq. lia. Qed.

Lemma restore_good u n c c' clean : coins_good c -> undo_wf u -> 0 <= n < 2 ^ 28 - 1 ->
  restore_output u n c = Some (c', clean) -> coins_good c'.
Proof.
  intros Hc (Ho & Hh & Hv & _) Hn. unfold restore_output.
  set (p := if negb (ti_nHeight u =? 0) then _ else _).
  assert (coins_good (fst p)) as Hp.
  { unfold p. destruct (negb _); [|done]. cbn [fst]. rewrite swrap_small by lia. by split. }
  destruct p as [c1 f]. cbn [fst] in Hp. destruct Hp as [Ht Hs Hl Hh1 Hv1]. clear Hc Hh Hv.
  rewrite uwrap_small by lia.
  set (v := if _ <? _ then _ else _).
  assert (Forall slot_wf v /\ Z.of_nat (length v) < 2 ^ 28 /\
          (length v = Z.to_nat (n + 1) \/ (trimmed v /\ n + 1 <= Z.of_nat (length v)))) as (Hs' & Hl' & Hlast).
  { unfold v. destruct (Z.ltb_spec (Z.of_nat (length (cc_vout c1))) (n + 1)).
    - rewrite length_resize. split; [|split; [lia|by left]]. apply Forall_resize; [by left|done].
    - split; [done|]. split; [done|]. right. split; [done|lia]. }
  destruct (Nat.ltb_spec (Z.to_nat n) (length v)) as [Hlt|]; [|done]. intros [= <- _].
  split; cbn [with_vout cc_vout cc_nHeight cc_nVersion]; [|apply list.Forall_insert; [done|]|by rewrite length_insert|done|done].
  2: { right. split; [by apply output_not_null|done]. }
  apply avail_trimmed. rewrite length_insert. unfold avail.
  destruct (decide (Z.to_nat n = length v - 1)%nat) as [<-|Hne].
  - rewrite list_lookup_insert_eq by done. by rewrite output_not_null.
  - rewrite list_lookup_insert_ne by done. destruct Hlast as [?|[Htr _]]; [lia|].
    apply (trimmed_last v Htr). by destruct v; cbn in Hlt; [lia|].
Qed.

(** The objects that connecting and disconnecting transactions can make. *)
Inductive stored : CCoins -> Prop :=
  | stored_empty : stored CCoins_empty
  | stored_new t h : payable t -> 0 <= h < 2 ^ 31 -> stored (FromTx t h)
  | stored_spent c n : stored c -> stored (fst (Spend c n))
  | stored_restored u n c c' clean : stored c -> undo_wf u -> 0 <= n < 2 ^ 28 - 1 ->
      restore_output u n c = Some (c', clean) -> stored c'.

Lemma stored_good c : stored c -> coins_good c.
Proof.
  induction 1; [by split|by apply FromTx_good|by apply Spend_good|by eapply restore_good].
Qed.

(** [C37] The coin database reads back what it writes, for every object that connecting and
    disconnecting transactions can make and that has an output left: the assertion of [Serialize]
    holds, and reading the bytes gives the object and leaves what follows. *)
Theorem stored_coins_read_back c : stored c -> IsPruned c = false ->
  exists b, Serialize_CCoins vch0 c = Some b /\ forall rest, Unserialize_CCoins vch0 (b ++ rest) = Some (c, rest).
Proof. intros Hs Hp. apply read_coins, coins_good_wf; [by apply stored_good|done]. Qed.

(** ** Undo data *)

(** What is written is read back; the other half of [Codec] does not hold for compact formats,
    which have several ways to write a script. *)
Class Decodes {A} (ser : A -> option (list Z)) (unser : Reader A) (wf : A -> Prop) : Prop :=
  decodes : forall a, wf a -> exists b, ser a = Some b /\ forall rest, unser (b ++ rest) = Some (a, rest).

#[local] Instance decodes_vector {A} (ser : A -> option (list Z)) unser wf sizeof_T : Decodes ser unser wf ->
  TCEq (1 <=? sizeof_T) true -> TCEq (sizeof_T <=? 5000000) true ->
  Decodes (ser_vector ser) (Unserialize_vector sizeof_T unser) (vector_wf wf).
Proof.
  intros D H1%TCEq_eq%Z.leb_le H2%TCEq_eq%Z.leb_le v [Hv Hf].
  assert (1 <= 5000000 / sizeof_T) as Hstep by (apply Z.div_le_lower_bound; lia).
  assert (exists bs, mapM ser v = Some bs /\ forall rest,
            read_n unser (length v) (concat bs ++ rest) = Some (v, rest)) as (bs & Eb & Hb).
  { clear Hv. induction Hf as [|a v Ha Hf (bs & Eb & IH)]; [by exists []|].
    destruct (D a Ha) as (b & Ea & Hb). exists (b :: bs). cbn [mapM]. rewrite Ea. cbn. rewrite Eb. split; [done|].
    intros rest. cbn [length read_n concat]. rewrite <- app_assoc. erewrite rbind_ok by apply Hb.
    by erewrite rbind_ok by apply IH. }
  unfold ser_vector. rewrite Eb. eexists. split; [reflexivity|]. intros rest. rewrite <- app_assoc.
  unfold Unserialize_vector. erewrite rbind_ok by (by apply codec_read). cbv zeta.
  rewrite read_in_blocks by (apply read_n_splits || unfold size_wf in Hv; lia). rewrite Nat2Z.id. apply Hb.
Qed.

#[local] Instance decodes_txinundo :
  Decodes (Serialize_CTxInUndo vch0) (Unserialize_CTxInUndo vch0 CTxInUndo_default) undo_wf.
Proof.
  intros u (Ho & Hh & Hv & H0). destruct u as [o cb h ver]. cbn [ti_txout ti_nHeight ti_nVersion] in *.
  unfold Serialize_CTxInUndo. cbn [ti_txout ti_nHeight ti_nVersion ti_fCoinBase].
  destruct (read_output vch0 Hvch0 o TxOut.SetNull Ho) as (a & -> & Ha).
  eexists. split; [reflexivity|]. intros rest. rewrite <- !app_assoc. unfold Unserialize_CTxInUndo.
  rewrite (uwrap_small 32 (h * 2)) by lia.
  set (c := if cb then 1 else 0). assert (0 <= c < 2) as Hc by (unfold c; destruct cb; lia).
  rewrite uwrap_small by lia. erewrite rbind_ok by (apply ReadVarInt_WriteVarInt; lia). cbv zeta.
  rewrite Z.add_comm. destruct (digit_split 2 c h Hc) as [Em ->].
  assert (negb (Z.land (c + h * 2) 1 =? 0) = cb) as ->.
  { change 1 with (Z.ones 1). rewrite Z.land_ones by lia. change (2 ^ 1) with 2. rewrite Em. unfold c. by destruct cb. }
  rewrite Z.gtb_ltb. destruct (Z.ltb_spec 0 h).
  - erewrite rbind_ok by (by apply ReadVarInt_int_read). by erewrite rbind_ok by apply Ha.
  - assert (h = 0) as -> by lia. rewrite H0 by done. erewrite rbind_ok by done. by erewrite rbind_ok by apply Ha.
Qed.

Definition txundo_wf (u : CTxUndo) : Prop := vector_wf undo_wf (vprevout u).

#[local] Instance decodes_txundo : Decodes (Serialize_CTxUndo vch0) (Unserialize_CTxUndo vch0) txundo_wf.
Proof.
  intros [v] Hv.
  destruct (decodes (ser := ser_vector (Serialize_CTxInUndo vch0))
    (unser := Unserialize_vector 64 (Unserialize_CTxInUndo vch0 CTxInUndo_default)) v Hv) as (b & E' & Hb). exists b. split; [done|]. intros rest.
  unfold Unserialize_CTxUndo. by erewrite rbind_ok by apply Hb.
Qed.

Definition blockundo_wf (u : CBlockUndo) : Prop :=
  vector_wf txundo_wf (vtxundo u) /\ length (old_sprout_tree_root u) = 32%nat.

(** The undo files give back the undo data of a block that was written to them. *)
Theorem undo_read_back u : blockundo_wf u ->
  exists b, Serialize_CBlockUndo vch0 u = Some b /\ forall rest, Unserialize_CBlockUndo vch0 (b ++ rest) = Some (u, rest).
Proof.
  intros [Hv Hr]. destruct u as [v r]. cbn [vtxundo old_sprout_tree_root] in *.
  destruct (decodes (ser := ser_vector (Serialize_CTxUndo vch0))
    (unser := Unserialize_vector 24 (Unserialize_CTxUndo vch0)) v Hv) as (b & E' & Hb).
  unfold Serialize_CBlockUndo. cbn [vtxundo old_sprout_tree_root]. rewrite E'.
  eexists. split; [reflexivity|]. intros rest. unfold Unserialize_CBlockUndo. rewrite <- app_assoc.
  erewrite rbind_ok by apply Hb. erewrite rbind_ok; [done|]. apply read_bytes_app. by rewrite Hr.
Qed.

End Laws.

(** A negative version does not survive: it is written as its last seven bits. *)
Lemma negative_version_lost : ReadVarInt_int (WriteVarInt_int (-1)) = Some (127, []).
Proof. reflexivity. Qed.

(** The sizes of the mask, and the bytes, of the examples in the comment of [coins.h]. *)
Definition example_out (v : Z) : CTxOut := {| nValue := v; scriptPubKey := GetScriptForDestination (CKeyID (replicate 20 7)) |}.
Definition example_coins : CCoins :=
  {| cc_fCoinBase := true;
     cc_vout := replicate 4 TxOut.SetNull ++ [example_out 234925952] ++ replicate 11 TxOut.SetNull ++ [example_out 110397];
     cc_nHeight := 120891; cc_nVersion := 1 |}.

Lemma example_bytes : Serialize_CCoins (E := toy_forms) (replicate 65 0) example_coins =
  Some ([1; 9; 4; 64; 134; 239; 151; 213; 121; 0] ++ replicate 20 7 ++ [187; 209; 35; 0] ++ replicate 20 7 ++ [134; 175; 59]).
Proof. vm_compute. reflexivity. Qed.

(** A transaction with an output to a key hash and one to a long key; the first is spent, and an
    output 3 is put back. *)
Definition long_key_out : CTxOut := {| nValue := 5000000000; scriptPubKey := key_script (4 :: toy_point true) |}.
Definition stored_tx : tx := {|
  fOverwintered := false; nVersion := 1; nVersionGroupId := 0; vin := [];
  vout := [example_out 7; long_key_out]; nLockTime := 0; nExpiryHeight := 0; valueBalance := 0;
  vShieldedSpend := []; vShieldedOutput := []; vjoinsplit := []; joinSplitPubKey := []; joinSplitSig := []; bindingSig := [] |}.
Definition stored_undo : CTxInUndo := CTxInUndo_new (example_out 9).
Definition stored_result : CCoins :=
  {| cc_fCoinBase := false; cc_vout := [TxOut.SetNull; long_key_out; TxOut.SetNull; example_out 9]; cc_nHeight := 100; cc_nVersion := 1 |}.

Lemma example_out_wf v : 0 <= v < 2 ^ 60 -> output_wf (example_out v).
Proof. intros Hv. split_and!; cbn [nValue example_out]; [lia|lia|]. by vm_compute. Qed.

Lemma stored_undo_wf : undo_wf stored_undo.
Proof. split_and!; [by apply example_out_wf|done..]. Qed.

Lemma stored_result_stored : stored stored_result.
Proof.
  apply (stored_restored stored_undo 3 (fst (Spend (FromTx stored_tx 100) 0)) stored_result true);
    [|apply stored_undo_wf|lia|vm_compute; reflexivity].
  apply stored_spent, stored_new; [|lia]. split; [|done]. apply (bool_decide_unpack _). vm_compute. exact I.
Qed.

Lemma stored_coins_read_back_witness : exists b,
  Serialize_CCoins (E := toy_forms) (replicate 65 0) stored_result = Some b /\
  forall rest, Unserialize_CCoins (E := toy_forms) (replicate 65 0) (b ++ rest) = Some (stored_result, rest).
Proof.
  by apply (stored_coins_read_back (E := toy_forms) (replicate 65 0) eq_refl stored_result stored_result_stored).
Defined.

Definition example_undo : CBlockUndo :=
  {| vtxundo := [{| vprevout := [stored_undo; {| ti_txout := long_key_out; ti_fCoinBase := true; ti_nHeight := 77; ti_nVersion := 4 |}] |};
                 {| vprevout := [] |}];
     old_sprout_tree_root := replicate 32 5 |}.

Lemma example_undo_wf : blockundo_wf example_undo.
Proof.
  split; [|done]. split; [by vm_compute|]. repeat constructor; try done; try by vm_compute.
Qed.

Lemma undo_read_back_witness : exists b,
  Serialize_CBlockUndo (E := toy_forms) (replicate 65 0) example_undo = Some b /\
  forall rest, Unserialize_CBlockUndo (E := toy_forms) (replicate 65 0) (b ++ rest) = Some (example_undo, rest).
Proof. by apply (undo_read_back (E := toy_forms) (replicate 65 0) eq_refl example_undo example_undo_wf). Defined.
