(* ===== verification/ConnectBlock.v ===== *)
(** * ConnectBlock: blocks checked against the coins and applied to them
    [ConnectBlock] of [src/src/main.cpp], from where it looks at the view to where it makes the block
    the best one of the view, with the functions it calls on the way: [GetLegacySigOpCount],
    [GetP2SHSigOpCount], [Consensus::CheckTxInputs], [ContextualCheckInputs] and the value of inputs of
    [coins.cpp].  They are in a small monad of the view, with the three ways a call ends: a value, a
    rejection with its level and reason, or a failed assertion or exception ([None]).  The checks that
    need no coins ([CheckBlock]), the notary pay, the indexes and the files are before and after
    this part; what they and the scripts, imports and other rules give is in the record [rules]. *)
From stdpp Require Import gmap strings.
From S2P Require Import Prelude Uint256 Script Serialize Amount Transaction Coins CoinsLaws UpdateCoins.

(** ** Results *)

Inductive outcome (A : Type) := Done (a : A) | Reject (dos : Z) (reason : string).
Arguments Done {A} _.
Arguments Reject {A} _ _.

(** What the rest of the node gives to this part. *)
Record rules := {
  r_isKMD : bool;
  r_MAX_MONEY : Z;
  r_MAX_BLOCK_SIGOPS : Z;
  r_TIMELOCKGTE : Z;                       (** [ASSETCHAINS_TIMELOCKGTE] *)
  r_unlocktime : Z -> Z;                   (** [komodo_block_unlocktime] *)
  r_CoinbaseMaturity : Z;
  r_protect : bool;                        (** the two flags of protected coinbases *)
  r_interest : list Z -> Z -> Z -> Z -> Z; (** [komodo_accrued_interest] of an output, its value and a height *)
  r_import_value : tx -> Z;                (** [GetCoinImportValue] *)
  r_import_ok : tx -> bool;                (** [VerifyCoinImport] *)
  r_script_ok : CTxOut -> CTransaction -> nat -> bool;  (** [CScriptCheck] of an input *)
  r_checkPOW_ok : Z -> bool;               (** the proof of stake pays the value *)
  r_EXTRASATOSHI : Z;
  r_height : list Z -> option Z;           (** heights of [mapBlockIndex] *)
  r_sapling : Z -> bool                    (** [NetworkUpgradeActive] of Sapling at a height *)
}.

Definition KOMODO_NOTARIES_HEIGHT1 : Z := 814000.
Definition KOMODO_NOTARIES_HEIGHT2 : Z := 2588672.

Definition KOMODO_VALUETOOBIG (x : Z) : bool := x >? u64 (10000000001 * COIN).

Definition GetLegacySigOpCount (t : tx) : Z :=
  let n := fold_left (fun n i => u32 (n + CScript.GetSigOpCount (scriptSig i) false)) (vin t) 0 in
  fold_left (fun n o => u32 (n + CScript.GetSigOpCount (scriptPubKey o) false)) (vout t) n.

(** What [ConnectBlock] adds up in its loop. *)
Record totals (Tree : Type) := {
  t_nFees : Z; t_interest : Z; t_nSigOps : Z; t_stakeTxValue : Z;
  t_sprout_tree : Tree; t_sapling_tree : Tree;
  t_vtxundo : list CTxUndo;
  t_chainSupplyDelta : Z; t_transparentValueDelta : Z; t_burnedAmountDelta : Z;
  t_scripts : bool  (** the checks in the queue *)
}.
Arguments t_nFees {Tree} _.
Arguments t_interest {Tree} _.
Arguments t_nSigOps {Tree} _.
Arguments t_stakeTxValue {Tree} _.
Arguments t_sprout_tree {Tree} _.
Arguments t_sapling_tree {Tree} _.
Arguments t_vtxundo {Tree} _.
Arguments t_chainSupplyDelta {Tree} _.
Arguments t_transparentValueDelta {Tree} _.
Arguments t_burnedAmountDelta {Tree} _.
Arguments t_scripts {Tree} _.

Section Connect.
Context {Tree S : Type} {V : CoinsView Tree S} {T : CommitmentTree Tree}.
Context (coins_usage : CCoins -> Z) (tree_usage : Tree -> Z) (R : rules).
#[local] Abbreviation cache := (CCoinsViewCache Tree S).

(** ** The monad *)

Definition M (A : Type) : Type := cache -> option (cache * outcome A).

Definition ret {A} (a : A) : M A := fun c => Some (c, Done a).
Definition bind {A B} (m : M A) (f : A -> M B) : M B := fun c =>
  match m c with
  | None => None
  | Some (c, Reject d s) => Some (c, Reject d s)
  | Some (c, Done a) => f a c
  end.
Definition reject {A} (dos : Z) (reason : string) : M A := fun c => Some (c, Reject dos reason).
Definition fail {A} : M A := fun _ => None.

(** A question to the view, and a call that changes it. *)
Definition ask {A} (q : cache -> cache * A) : M A := fun c => let '(c, a) := q c in Some (c, Done a).
Definition call {A} (q : cache -> option (cache * A)) : M A := fun c => match q c with None => None | Some (c, a) => Some (c, Done a) end.
Definition get {A} (o : option A) : M A := match o with None => fail | Some a => ret a end.
Definition require (b : bool) (dos : Z) (reason : string) : M unit := if b then ret tt else reject dos reason.

#[local] Notation "'do' x '<-' m ';' k" := (bind m (fun x => k)) (at level 10, x name, m at level 100, k at level 200).
#[local] Notation "'check' b 'else' d s ';' k" := (bind (require b d s) (fun _ => k))
  (at level 10, b at level 100, d at level 0, s at level 0, k at level 200).

(** A loop over a list with its index, with a state. *)
Fixpoint each {A B} (f : nat -> A -> B -> M B) (i : nat) (l : list A) (b : B) : M B :=
  match l with
  | [] => ret b
  | a :: l' => do b <- f i a b; each f (i + 1) l' b
  end.

(** ** Values and signature operations of inputs *)

(** [GetOutputFor] asserts that the output is there. *)
Definition output_for (i : CTxIn) : M CTxOut :=
  do o <- ask (fun c => GetOutputFor coins_usage c i); get o.

(** The interest counts for KMD above a height, for outputs of at least 10 coins. *)
Definition GetTransparentValueIn (nHeight : Z) (t : tx) : M (Z * Z) :=
  if tx_IsCoinImport t then ret (r_import_value R t, 0)
  else if IsCoinBase t then ret (0, 0)
  else
    each (fun _ i r =>
      do out <- output_for i;
      let value := nValue out in
      let nResult := i64 (fst r + value) in
      if r_isKMD R && (nHeight >=? 60000) && (value >=? 10 * COIN)
      then let interest := r_interest R (op_hash (prevout i)) (op_n (prevout i)) value nHeight in
           ret (i64 (nResult + interest), i64 (snd r + interest))
      else ret (nResult, snd r)) 0 (vin t) (0, 0).

(** The value and the interest in it. *)
Definition GetValueIn (nHeight : Z) (t : tx) : M (Z * Z) :=
  do r <- GetTransparentValueIn nHeight t;
  do shielded <- get (GetShieldedValueIn (r_MAX_MONEY R) t);
  ret (i64 (fst r + shielded), snd r).

Definition GetP2SHSigOpCount (t : tx) : M Z :=
  if IsCoinBase t || tx_IsCoinImport t then ret 0
  else
    each (fun _ i n =>
      do prevout <- output_for i;
      ret (if CScript.IsPayToScriptHash (scriptPubKey prevout)
           then u32 (n + CScript.GetSigOpCount_sig (scriptPubKey prevout) (scriptSig i)) else n)) 0 (vin t) 0.

(** ** Checking inputs *)

Definition money (v : Z) : bool := MoneyRange (r_MAX_MONEY R) v.

(** [AccessCoins] with the assertion that follows it. *)
Definition coins_for (i : CTxIn) : M CCoins :=
  do o <- ask (fun c => AccessCoins coins_usage c (op_hash (prevout i))); get o.

(** The rules for spending a coinbase. *)
Definition coinbase_rules (t : tx) (nSpendHeight : Z) (coins : CCoins) : M unit :=
  check negb ((u64 (TotalTxValue coins) >=? r_TIMELOCKGTE R) &&
              (u64 nSpendHeight <? u64 (r_unlocktime R (u32 (cc_nHeight coins)))))
    else 10 "bad-txns-premature-spend-of-coinbase";
  check negb (u32 (nSpendHeight - cc_nHeight coins) <? r_CoinbaseMaturity R)
    else 0 "bad-txns-premature-spend-of-coinbase";
  require (negb (r_protect R && negb (match vout t with [] => true | _ => false end)))
    100 "bad-txns-coinbase-spend-has-transparent-outputs".

(** One input: [nValueIn] with it. *)
Definition check_input (t : tx) (nSpendHeight : Z) (i : CTxIn) (nValueIn : Z) : M Z :=
  do coins <- coins_for i;
  do _ <- (if cc_fCoinBase coins then coinbase_rules t nSpendHeight coins else ret tt);
  do out <- get (cc_vout coins !! Z.to_nat (op_n (prevout i)));
  let nValueIn := i64 (nValueIn + nValue out) in
  let nValueIn :=
    if r_isKMD R && (nSpendHeight >? 60000) && (nValue out >=? 10 * COIN)
    then i64 (nValueIn + r_interest R (op_hash (prevout i)) (op_n (prevout i)) (nValue out) (nSpendHeight - 1))
    else nValueIn in
  check money (nValue out) && money nValueIn else 100 "bad-txns-inputvalues-outofrange";
  ret nValueIn.

(** The value is the fee, which the code does not return. *)
Definition CheckTxInputs (t : tx) (nSpendHeight : Z) : M Z :=
  do b <- ask (fun c => HaveInputs coins_usage c t);
  check b else 0 "";
  do b <- call (fun c => HaveJoinSplitRequirements tree_usage c t);
  check b else 0 "";
  do nValueIn <- each (fun _ i n => check_input t nSpendHeight i n) 0 (vin t) 0;
  do shielded <- get (GetShieldedValueIn (r_MAX_MONEY R) t);
  let nValueIn := i64 (nValueIn + shielded) in
  check money nValueIn else 100 "bad-txns-inputvalues-outofrange";
  do valueOut <- get (GetValueOut (r_MAX_MONEY R) t);
  check negb (nValueIn <? valueOut) else 100 "bad-txns-in-belowout";
  let nTxFee := i64 (nValueIn - valueOut) in
  check negb (nTxFee <? 0) else 100 "bad-txns-fee-negative";
  check money nTxFee else 100 "bad-txns-fee-outofrange";
  ret nTxFee.

(** [GetSpendHeight(inputs)] *)
Definition GetSpendHeight : M Z :=
  do best <- ask cache_GetBestBlock;
  do h <- get (r_height R best);
  ret (h + 1).

(** [ContextualCheckInputs] with a queue for the scripts: whether the scripts of the inputs pass,
    which is asked when the queue is waited for. *)
Definition ContextualCheckInputs (tx : CTransaction) (fScriptChecks : bool) : M bool :=
  let t := ct_tx tx in
  do ok <- (if negb (IsMint t) then
              do h <- GetSpendHeight;
              do _ <- CheckTxInputs t h;
              if fScriptChecks then
                each (fun n i ok =>
                  do coins <- coins_for i;
                  do out <- get (cc_vout coins !! Z.to_nat (op_n (prevout i)));
                  ret (ok && r_script_ok R out tx n)) 0 (vin t) true
              else ret true
            else ret true);
  check negb (tx_IsCoinImport t) || r_import_ok R t else 0 "invalid-coin-import";
  ret ok.

(** ** The loop over the transactions *)

(** The questions about the inputs of a transaction that is not a mint: the value they take out of
    the transparent pool, and the signature operations of their scripts. *)
Definition inputs_of_tx (t : tx) (nSigOps transparentValueDelta : Z) : M (Z * Z) :=
  if negb (IsMint t) then
    do b <- ask (fun c => HaveInputs coins_usage c t);
    check b else 100 "bad-txns-inputs-missingorspent";
    do delta <- each (fun _ i d => do prevout <- output_for i; ret (i64 (d - nValue prevout))) 0 (vin t) transparentValueDelta;
    do b <- call (fun c => HaveJoinSplitRequirements tree_usage c t);
    check b else 100 "bad-txns-joinsplit-requirements-not-met";
    do n <- GetP2SHSigOpCount t;
    let nSigOps := u32 (nSigOps + n) in
    check negb (nSigOps >? r_MAX_BLOCK_SIGOPS R) else 100 "bad-blk-sigops";
    ret (nSigOps, delta)
  else ret (nSigOps, transparentValueDelta).

(** The fee and the interest of a transaction that is not a coinbase, and whether its scripts pass;
    [tip_height] is the height of the active chain. *)
Definition fee_of_tx (tx : CTransaction) (valueout tip_height : Z) (fExpensiveChecks : bool) : M (Z * Z * bool) :=
  do r <- GetValueIn tip_height (ct_tx tx);
  let txFee := i64 (u64 (fst r) - valueout) in
  do ok <- ContextualCheckInputs tx fExpensiveChecks;
  ret (txFee, snd r, ok).

(** The outputs of a transaction: what goes into the transparent pool, and what is burned. *)
Definition output_deltas (outs : list CTxOut) (transparent burned : Z) : Z * Z :=
  fold_left (fun r o => if negb (CScript.IsUnspendable (scriptPubKey o)) then (i64 (fst r + nValue o), snd r)
                        else (fst r, i64 (snd r + nValue o))) outs (transparent, burned).

(** The commitments go into the trees of the block; a full tree throws. *)
Definition append_commitments (t : tx) (sprout_tree sapling_tree : Tree) : option (Tree * Tree) :=
  match tree_append_list SPROUT sprout_tree (concat (map commitments (vjoinsplit t))) with
  | None => None
  | Some sprout_tree =>
      match tree_append_list SAPLING sapling_tree (map od_cm (vShieldedOutput t)) with
      | None => None
      | Some sapling_tree => Some (sprout_tree, sapling_tree)
      end
  end.

Definition connect_tx (nHeight tip_height : Z) (fExpensiveChecks : bool) (i : nat) (tx : CTransaction) (a : totals Tree) : M (totals Tree) :=
  let t := ct_tx tx in
  let nSigOps := u32 (t_nSigOps a + GetLegacySigOpCount t) in
  check negb (nSigOps >? r_MAX_BLOCK_SIGOPS R) else 100 "bad-blk-sigops";
  do r <- inputs_of_tx t nSigOps (t_transparentValueDelta a);
  let '(nSigOps, transparent) := r in
  do valueout <- get (GetValueOut (r_MAX_MONEY R) t);
  check negb (KOMODO_VALUETOOBIG (u64 valueout)) else 100 "tx valueout is too big";
  do r <- (if IsCoinBase t then ret (t_nFees a, t_interest a, t_stakeTxValue a, i64 (t_chainSupplyDelta a + valueout), true)
           else do r <- fee_of_tx tx (u64 valueout) tip_height fExpensiveChecks;
                let '(txFee, interest, ok) := r in
                ret (i64 (t_nFees a + txFee), i64 (t_interest a + interest), txFee, i64 (t_chainSupplyDelta a - txFee), ok));
  let '(nFees, interest, stake, supply, ok) := r in
  do undo <- call (fun c => UpdateCoins coins_usage tx c nHeight);
  do trees <- get (append_commitments t (t_sprout_tree a) (t_sapling_tree a));
  let '(sprout_tree, sapling_tree) := trees in
  let '(transparent, burned) := output_deltas (vout t) transparent (t_burnedAmountDelta a) in
  ret {| t_nFees := nFees; t_interest := interest; t_nSigOps := nSigOps; t_stakeTxValue := stake;
         t_sprout_tree := sprout_tree; t_sapling_tree := sapling_tree;
         t_vtxundo := if Nat.ltb 0 i then t_vtxundo a ++ [undo] else t_vtxundo a;
         t_chainSupplyDelta := supply; t_transparentValueDelta := transparent; t_burnedAmountDelta := burned;
         t_scripts := t_scripts a && ok |}.

(** The rule of BIP30: no transaction of the block has outputs that are not all spent. *)
Definition check_BIP30 (vtx : list CTransaction) : M unit :=
  each (fun _ tx _ =>
    do coins <- ask (fun c => AccessCoins coins_usage c (ct_hash tx));
    require (match coins with Some cs => IsPruned cs | None => true end) 100 "bad-txns-BIP30") 0 vtx tt.

(** The rules for what the first transaction pays; [checktoshis] is the commission.  When it is due and
    not paid the code logs the value of the second output, which it reads whether there is one or not. *)
Definition coinbase_amount (vtx : list CTransaction) (nHeight blockReward checktoshis : Z) (a : totals Tree) : M unit :=
  match vtx with
  | [] => fail
  | coinbase :: _ =>
      let cb := ct_tx coinbase in
      let blockReward := i64 (blockReward + i64 (t_nFees a + t_interest a)) in
      let blockReward := if r_isKMD R && (nHeight >=? KOMODO_NOTARIES_HEIGHT2) then i64 (blockReward - t_interest a) else blockReward in
      do blockReward <-
        (if negb (checktoshis =? 0) then
          match vout cb with
          | _ :: o :: _ => ret (if u64 (nValue o) =? checktoshis then i64 (blockReward + checktoshis) else blockReward)
          | _ => if nHeight >? 1 then fail else ret blockReward
          end
        else ret blockReward);
      do valueOut <- get (GetValueOut (r_MAX_MONEY R) cb);
      check negb (negb (r_isKMD R) && (nHeight =? 1) && negb (valueOut =? blockReward)) else 100 "bad-cb-amount";
      if valueOut >? i64 (blockReward + r_EXTRASATOSHI R) then
        if negb (r_isKMD R) || (nHeight >=? KOMODO_NOTARIES_HEIGHT1) then reject 100 "bad-cb-amount"
        else do o <- get (vout cb !! 0%nat); require (negb (nValue o >? blockReward)) 100 "bad-cb-amount"
      else ret tt
  end.

(** The trees of the best anchors, with the root of the Sprout one. *)
Definition best_trees : M (list Z * Tree * Tree) :=
  do old_root <- ask (fun c => cache_GetBestAnchor c SPROUT);
  do o <- ask (fun c => cache_GetAnchorAt tree_usage c SPROUT old_root);
  do sprout_tree <- get o;
  if negb (bool_decide (tree_root SPROUT sprout_tree = old_root)) then fail
  else
    do sapling_root <- ask (fun c => cache_GetBestAnchor c SAPLING);
    do o <- ask (fun c => cache_GetAnchorAt tree_usage c SAPLING sapling_root);
    do sapling_tree <- get o;
    ret (old_root, sprout_tree, sapling_tree).

(** The view of a block of height [nHeight] with hash [block_hash] on top of [prev_hash], which is not the
    first one; [blockReward] is the subsidy with the notary pay, [notarypaycheque] that pay.  The value
    is the undo data and the totals. *)
Definition ConnectBlock (vtx : list CTransaction) (block_hash prev_hash block_sapling_root : list Z)
    (nHeight tip_height blockReward notarypaycheque checktoshis : Z) (fExpensiveChecks fCheckPOW fJustCheck staked : bool)
    : M (CBlockUndo * totals Tree) :=
  do best <- ask cache_GetBestBlock;
  check bool_decide (prev_hash = best) else 1 "hashPrevBlock-not-bestblock";
  do _ <- check_BIP30 vtx;
  do r <- best_trees;
  let '(old_root, sprout_tree, sapling_tree) := r in
  do a <- each (connect_tx nHeight tip_height fExpensiveChecks) 0 vtx
    {| t_nFees := 0; t_interest := 0; t_nSigOps := 0; t_stakeTxValue := 0; t_sprout_tree := sprout_tree; t_sapling_tree := sapling_tree;
       t_vtxundo := []; t_chainSupplyDelta := 0; t_transparentValueDelta := 0; t_burnedAmountDelta := 0; t_scripts := true |};
  check negb (staked && fCheckPOW && negb (r_checkPOW_ok R (i64 (blockReward + t_stakeTxValue a - notarypaycheque))))
    else 100 "failed-slow_checkPOW";
  do _ <- call (fun c => Some (PushAnchor tree_usage c SPROUT (t_sprout_tree a), tt));
  do _ <- call (fun c => Some (PushAnchor tree_usage c SAPLING (t_sapling_tree a), tt));
  check negb (r_sapling R nHeight && negb (bool_decide (block_sapling_root = tree_root SAPLING (t_sapling_tree a))))
    else 100 "bad-sapling-root-in-block";
  do _ <- coinbase_amount vtx nHeight blockReward checktoshis a;
  check t_scripts a else 100 "";
  let undo := {| vtxundo := t_vtxundo a; old_sprout_tree_root := old_root |} in
  if fJustCheck then ret (undo, a)
  else
    do _ <- call (fun c => Some (SetBestBlock c block_hash, tt));
    ret (undo, a).
End Connect.
