(* ===== verification/ConnectLaws.v ===== *)
(** * ConnectLaws: what a connected block does to the coins
    A triple for the calls of [ConnectBlock], over the abstract set that the view stands for, and with
    it: what the checks of inputs guarantee (the values add up), that a connected block is its
    transactions applied one by one, and that [DisconnectBlock] takes it back. *)
From stdpp Require Import gmap strings.
From S2P Require Import Prelude Uint256 Script Serialize Amount Transaction Coins CoinsLaws UpdateCoins ConnectBlock.

Section Laws.
Context {Tree S : Type} {T : CommitmentTree Tree} {V : CoinsView Tree S} {P : view_spec S} {L : CoinsViewLaws V P}.
Context (coins_usage : CCoins -> Z) (tree_usage : Tree -> Z) (R : rules).
#[local] Abbreviation cache := (CCoinsViewCache Tree S).
#[local] Abbreviation M := (@M Tree S).
#[local] Abbreviation stands := (stands (P := P)).
#[local] Abbreviation cache_set := (cache_set (P := P)).
#[local] Abbreviation cache_ok := (cache_ok (P := P)).

(** ** Triples *)

(** When a call on a view of the set [u] gives a value, the view is one of a set that, with the value,
    is as [Q] says. *)
Definition triple {A} (u : UTXO) (m : M A) (Q : UTXO -> A -> Prop) : Prop :=
  forall c c' a, stands c u -> m c = Some (c', Done a) -> exists u', stands c' u' /\ Q u' a.

Lemma triple_ret {A} u (a : A) (Q : UTXO -> A -> Prop) : Q u a -> triple u (ret a) Q.
Proof. intros H c c' a' Hs [= <- <-]. eauto. Qed.
Lemma triple_bind {A B} u (m : M A) (f : A -> M B) (Q : UTXO -> B -> Prop) :
  triple u m (fun u' a => triple u' (f a) Q) -> triple u (bind m f) Q.
Proof.
  intros H c c' b Hs. unfold bind. destruct (m c) as [[c1 [a|d s]]|] eqn:E; try done.
  destruct (H _ _ _ Hs E) as (u' & Hs' & Hf). apply Hf, Hs'.
Qed.
Lemma triple_impl {A} u (m : M A) (Q Q' : UTXO -> A -> Prop) : triple u m Q -> (forall u' a, Q u' a -> Q' u' a) -> triple u m Q'.
Proof. intros H HQ c c' a Hs E. destruct (H _ _ _ Hs E) as (u' & Hs' & Hq). eauto. Qed.
Lemma triple_reject {A} u d s (Q : UTXO -> A -> Prop) : triple u (reject d s) Q.
Proof. intros c c' a _. done. Qed.
Lemma triple_fail {A} u (Q : UTXO -> A -> Prop) : triple u fail Q.
Proof. intros c c' a _. done. Qed.
Lemma triple_get {A} u (o : option A) (Q : UTXO -> A -> Prop) : (forall a, o = Some a -> Q u a) -> triple u (get o) Q.
Proof. intros H. destruct o; [by apply triple_ret, H | apply triple_fail]. Qed.
Lemma triple_require u b d s (Q : UTXO -> unit -> Prop) : (b = true -> Q u tt) -> triple u (require b d s) Q.
Proof. intros H. destruct b; [by apply triple_ret, H | apply triple_reject]. Qed.

(** A question leaves the set as it is, and its answer is about that set. *)
Lemma triple_ask {A} u (q : cache -> cache * A) (F : A -> Prop) (Q : UTXO -> A -> Prop) :
  (forall c c' a, stands c u -> q c = (c', a) -> preserves (cache_spec (P := P)) c c' /\ F a) ->
  (forall a, F a -> Q u a) -> triple u (ask q) Q.
Proof.
  intros Hq HQ c c' a Hs. unfold ask. destruct (q c) as [c1 a1] eqn:E. intros [= <- <-].
  destruct (Hq _ _ _ Hs E) as (Hp & Ha). exists u. split; [|by apply HQ]. split; [apply (pr_inv _ _ _ Hp)|].
  etrans; [apply (pr_set _ _ _ Hp)|apply Hs].
Qed.

Lemma triple_call {A} u (q : cache -> option (cache * A)) (Q : UTXO -> A -> Prop) :
  (forall c c' a, stands c u -> q c = Some (c', a) -> exists u', stands c' u' /\ Q u' a) -> triple u (call q) Q.
Proof. intros Hq c c' a Hs. unfold call. destruct (q c) as [[c1 a1]|] eqn:E; [|done]. intros [= <- <-]. by apply (Hq c). Qed.

(** A loop over [l0]: an invariant of the turns done, the set and the state. *)
Lemma triple_each {A B} (f : nat -> A -> B -> M B) (l0 : list A) (I : list A -> UTXO -> B -> Prop) u b :
  I [] u b ->
  (forall done a rest u b, l0 = done ++ a :: rest -> I done u b -> triple u (f (length done) a b) (I (done ++ [a]))) ->
  triple u (each f 0 l0 b) (I l0).
Proof.
  intros HI H. assert (forall l i done u b, l0 = done ++ l -> i = length done -> I done u b -> triple u (each f i l b) (I l0)) as Hl.
  { induction l as [|a l IH]; intros i done u' b' E -> HI'; cbn [each].
    { apply triple_ret. by rewrite E, app_nil_r. }
    apply triple_bind. eapply triple_impl; [by apply (H done a l)|]. cbv beta. intros u2 b2 HI2.
    apply IH with (done := done ++ [a]); [by rewrite <- app_assoc | rewrite length_app; cbn; lia | done]. }
  by apply (Hl l0 0%nat []).
Qed.

(** ** Questions *)

Definition at_point (u : UTXO) (i : CTxIn) : option CTxOut := utxo u (op_hash (prevout i)) (op_n (prevout i)).

Lemma triple_HaveInputs u t (Q : UTXO -> bool -> Prop) :
  (forall b, (b = true -> IsMint t = false -> Forall (fun i => is_Some (at_point u i)) (vin t)) -> Q u b) ->
  triple u (ask (fun c => HaveInputs coins_usage c t)) Q.
Proof.
  intros HQ. apply triple_ask with (F := fun b => b = true -> IsMint t = false -> Forall (fun i => is_Some (at_point u i)) (vin t)); [|done].
  intros c c' b [Hc Hu] E. destruct (HaveInputs_spec coins_usage c t c' b Hc E) as (Hp & Hb). split; [done|]. intros Eb Hm.
  apply Hb in Eb. unfold spent_by in Eb. rewrite Hm in Eb. cbn [negb] in Eb. rewrite (List.Forall_map point) in Eb.
  eapply Forall_impl; [|exact Eb]. intros i Hi. unfold at_point. rewrite <- (utxo_same _ _ _ _ Hu). exact Hi.
Qed.

Lemma triple_coins_for u i (Q : UTXO -> CCoins -> Prop) :
  (forall coins, prune (Some coins) = u_coins u (op_hash (prevout i)) -> Q u coins) -> triple u (coins_for coins_usage i) Q.
Proof.
  intros HQ. apply triple_bind. apply triple_ask with (F := fun o => prune o = u_coins u (op_hash (prevout i))).
  - intros c c' o [Hc Hu] E. destruct (AccessCoins_spec coins_usage c _ c' o Hc E) as (Hp & Ho). split; [done|].
    by rewrite Ho, (same_coins _ _ Hu).
  - intros o Ho. apply triple_get. intros coins ->. by apply HQ.
Qed.

Lemma at_point_of_coins u i coins : prune (Some coins) = u_coins u (op_hash (prevout i)) ->
  at_point u i = unspent (cc_vout coins) (Z.to_nat (op_n (prevout i))).
Proof. intros H. unfold at_point. by rewrite (utxo_of_coins _ _ _ _ H). Qed.

Lemma triple_GetBestBlock u (Q : UTXO -> list Z -> Prop) : Q u (u_best_block u) -> triple u (ask cache_GetBestBlock) Q.
Proof.
  intros HQ. apply triple_ask with (F := fun h => h = u_best_block u); [|by intros h ->].
  intros c c' h [Hc Hu] E. destruct (cache_GetBestBlock_spec c c' h Hc E) as (Hp & -> & _). split; [done|]. apply (same_best_block _ _ Hu).
Qed.

Lemma triple_GetBestAnchor u ty (Q : UTXO -> list Z -> Prop) : Q u (u_best_anchor u ty) -> triple u (ask (fun c => cache_GetBestAnchor c ty)) Q.
Proof.
  intros HQ. apply triple_ask with (F := fun h => h = u_best_anchor u ty); [|by intros h ->].
  intros c c' h [Hc Hu] E. destruct (cache_GetBestAnchor_spec c ty c' h Hc E) as (Hp & ->). split; [done|]. apply (same_best_anchor _ _ Hu).
Qed.

Lemma triple_GetAnchorAt u ty rt (Q : UTXO -> option Tree -> Prop) :
  (forall o, (is_Some o <-> u_anchor u ty rt = true) -> (forall tree, o = Some tree -> tree_root ty tree = rt) -> Q u o) ->
  triple u (ask (fun c => cache_GetAnchorAt tree_usage c ty rt)) Q.
Proof.
  intros HQ. apply triple_ask with (F := fun o => (is_Some o <-> u_anchor u ty rt = true) /\ (forall tree, o = Some tree -> tree_root ty tree = rt)).
  - intros c c' o [Hc Hu] E. destruct (cache_GetAnchorAt_spec tree_usage c ty rt c' o Hc E) as (Hp & Ho & Hr & _).
    split; [done|]. by rewrite <- (same_anchor _ _ Hu).
  - intros o [? ?]. by apply HQ.
Qed.

(** The requirements of shielded transfers: no nullifier is set, and the anchors of Sapling spends are
    in the set. *)
Definition shielded_ok (u : UTXO) (t : tx) : Prop :=
  new_nullifiers u t /\ Forall (fun s => u_anchor u SAPLING (sd_anchor s) = true) (vShieldedSpend t).

Lemma none_set_spec ty nfs : forall c c' r, cache_ok c -> none_set ty c nfs = (c', r) ->
  preserves (cache_spec (P := P)) c c' /\ (r = true -> Forall (fun nf => u_nullifier (cache_set c) ty nf = false) nfs).
Proof.
  induction nfs as [|nf nfs IH]; intros c c' r Hc; cbn [none_set].
  { intros [= <- <-]. split; [by apply cache_preserves|constructor]. }
  destruct (cache_GetNullifier c ty nf) as [c1 b] eqn:E. destruct (cache_GetNullifier_spec c ty nf c1 b Hc E) as (Hp & Hb).
  destruct b; [by intros [= <- <-]|]. intros Er. destruct (IH c1 c' r (pr_inv _ _ _ Hp) Er) as (Hp' & Hr).
  split; [by eapply preserves_trans|]. intros Et. constructor; [done|]. eapply Forall_impl; [|by apply Hr].
  intros x Hx. rewrite <- (same_nullifier _ _ (pr_set _ _ _ Hp)). exact Hx.
Qed.

Lemma joinsplits_ok_spec l : forall c m c' r, cache_ok c -> joinsplits_ok tree_usage c m l = Some (c', r) ->
  preserves (cache_spec (P := P)) c c' /\
  (r = true -> Forall (fun nf => u_nullifier (cache_set c) SPROUT nf = false) (concat (map nullifiers l))).
Proof.
  induction l as [|js l IH]; intros c m c' r Hc; cbn [joinsplits_ok map concat].
  { intros [= <- <-]. split; [by apply cache_preserves|constructor]. }
  destruct (none_set SPROUT c (nullifiers js)) as [c1 ok] eqn:E. destruct (none_set_spec _ _ _ _ _ Hc E) as (Hp & Hok).
  destruct ok; cbn [negb]; [|by intros [= <- <-]].
  set (q := match m !! js_anchor js with Some tree => _ | None => _ end).
  assert (preserves (cache_spec (P := P)) c1 q.1) as Hq.
  { subst q. destruct (m !! js_anchor js) as [tree|]; [by apply cache_preserves, (pr_inv _ _ _ Hp)|].
    destruct (cache_GetAnchorAt tree_usage c1 SPROUT (js_anchor js)) as [c2 o] eqn:E2.
    by destruct (cache_GetAnchorAt_spec tree_usage c1 _ _ c2 o (pr_inv _ _ _ Hp) E2) as (Hp2 & _). }
  destruct q as [c2 [tree|]]; cbn [fst] in Hq; [|intros [= <- <-]; split; [by eapply preserves_trans|done]].
  destruct (tree_append_list SPROUT tree (commitments js)) as [tree'|]; [|done].
  intros Er. destruct (IH c2 _ c' r (pr_inv _ _ _ Hq) Er) as (Hp' & Hr).
  split; [eapply preserves_trans; [done|by eapply preserves_trans]|]. intros Et. apply Forall_app. split; [by apply Hok|].
  eapply Forall_impl; [|by apply Hr]. intros x Hx.
  rewrite <- (same_nullifier _ _ (pr_set _ _ _ Hp)), <- (same_nullifier _ _ (pr_set _ _ _ Hq)). exact Hx.
Qed.

Lemma spends_ok_spec l : forall c c' r, cache_ok c -> spends_ok tree_usage c l = (c', r) ->
  preserves (cache_spec (P := P)) c c' /\
  (r = true -> Forall (fun nf => u_nullifier (cache_set c) SAPLING nf = false) (map sd_nullifier l) /\
               Forall (fun s => u_anchor (cache_set c) SAPLING (sd_anchor s) = true) l).
Proof.
  induction l as [|s l IH]; intros c c' r Hc; cbn [spends_ok map].
  { intros [= <- <-]. split; [by apply cache_preserves|by repeat constructor]. }
  destruct (cache_GetNullifier c SAPLING (sd_nullifier s)) as [c1 b] eqn:E. destruct (cache_GetNullifier_spec c _ _ c1 b Hc E) as (Hp & Hb).
  destruct b; [by intros [= <- <-]|].
  destruct (cache_GetAnchorAt tree_usage c1 SAPLING (sd_anchor s)) as [c2 o] eqn:E2.
  destruct (cache_GetAnchorAt_spec tree_usage c1 _ _ c2 o (pr_inv _ _ _ Hp) E2) as (Hp2 & Ho & _).
  pose proof (preserves_trans _ _ _ Hp Hp2) as Hp'.
  destruct o as [tree|]; [|by intros [= <- <-]]. intros Er. destruct (IH c2 c' r (pr_inv _ _ _ Hp2) Er) as (Hp3 & Hr).
  split; [by eapply preserves_trans|]. intros Et. destruct (Hr Et) as [Hr1 Hr2]. split; constructor; try done.
  - eapply Forall_impl; [|exact Hr1]. intros x Hx. rewrite <- (same_nullifier _ _ (pr_set _ _ _ Hp')). exact Hx.
  - rewrite <- (same_anchor _ _ (pr_set _ _ _ Hp)). apply Ho. eauto.
  - eapply Forall_impl; [|exact Hr2]. intros x Hx. cbv beta. rewrite <- (same_anchor _ _ (pr_set _ _ _ Hp')). exact Hx.
Qed.

Lemma HaveJoinSplitRequirements_spec c t c' r : cache_ok c -> HaveJoinSplitRequirements tree_usage c t = Some (c', r) ->
  preserves (cache_spec (P := P)) c c' /\ (r = true -> shielded_ok (cache_set c) t).
Proof.
  intros Hc. unfold HaveJoinSplitRequirements. destruct (joinsplits_ok tree_usage c ∅ (vjoinsplit t)) as [[c1 ok]|] eqn:E; [|done].
  destruct (joinsplits_ok_spec _ _ _ _ _ Hc E) as (Hp & Hok). destruct ok; cbn [negb]; [|by intros [= <- <-]].
  intros [= Es]. destruct (spends_ok_spec _ _ _ _ (pr_inv _ _ _ Hp) Es) as (Hp2 & Hr).
  split; [by eapply preserves_trans|]. intros Et. destruct (Hr Et) as [Hr1 Hr2]. split.
  - intros []; [by apply Hok|]. eapply Forall_impl; [|exact Hr1]. intros x Hx. rewrite <- (same_nullifier _ _ (pr_set _ _ _ Hp)). exact Hx.
  - eapply Forall_impl; [|exact Hr2]. intros x Hx. cbv beta. rewrite <- (same_anchor _ _ (pr_set _ _ _ Hp)). exact Hx.
Qed.

Lemma shielded_ok_same u v t : u ≡ v -> shielded_ok u t -> shielded_ok v t.
Proof.
  intros H [H1 H2]. split.
  - intros ty. eapply Forall_impl; [|apply (H1 ty)]. intros x Hx. cbv beta. rewrite <- (same_nullifier _ _ H). exact Hx.
  - eapply Forall_impl; [|exact H2]. intros x Hx. cbv beta. rewrite <- (same_anchor _ _ H). exact Hx.
Qed.

Lemma triple_HaveJoinSplitRequirements u t (Q : UTXO -> bool -> Prop) : (forall b, (b = true -> shielded_ok u t) -> Q u b) ->
  triple u (call (fun c => HaveJoinSplitRequirements tree_usage c t)) Q.
Proof.
  intros HQ. apply triple_call. intros c c' b [Hc Hu] E. destruct (HaveJoinSplitRequirements_spec c t c' b Hc E) as (Hp & Hb).
  exists u. split; [split; [apply (pr_inv _ _ _ Hp)|etrans; [apply (pr_set _ _ _ Hp)|exact Hu]]|]. apply HQ. intros Eb. eapply shielded_ok_same; [exact Hu|by apply Hb].
Qed.

(** A call with a value for every answer, when only the set counts. *)
Lemma triple_output_for u i (Q : UTXO -> CTxOut -> Prop) : (forall o, at_point u i = Some o -> Q u o) -> triple u (output_for coins_usage i) Q.
Proof.
  intros HQ. apply triple_bind. apply triple_ask with (F := fun o => forall x, o = Some x -> at_point u i = Some x).
  - intros c c' o [Hc Hu]. unfold GetOutputFor. destruct (AccessCoins coins_usage c (op_hash (prevout i))) as [c1 coins] eqn:E.
    destruct (AccessCoins_spec coins_usage c _ c1 coins Hc E) as (Hp & Ho). intros [= <- <-]. split; [done|]. intros x Hx.
    destruct coins as [cs|]; [|done]. rewrite (at_point_of_coins u i cs) by (by rewrite Ho, (same_coins _ _ Hu)).
    rewrite IsAvailable_unspent in Hx. destruct (bool_decide_reflect (is_Some (unspent (cc_vout cs) (Z.to_nat (op_n (prevout i)))))) as [[y Hy]|]; [|done].
    rewrite Hy. unfold unspent in Hy. rewrite Hx in Hy. by destruct (TxOut.IsNull x).
  - intros o Ho. apply triple_get. intros x ->. by apply HQ, Ho.
Qed.

(** ** The values of inputs add up *)

Section Values.
Context (HM : 0 <= r_MAX_MONEY R < 2 ^ 60) (Hint : forall h n v k, 0 <= r_interest R h n v k < 2 ^ 62).

(** The value of an input with its interest. *)
Definition value_in (u : UTXO) (nSpendHeight : Z) (i : CTxIn) : Z :=
  match at_point u i with
  | None => 0
  | Some o => nValue o + (if r_isKMD R && (nSpendHeight >? 60000) && (nValue o >=? 10 * COIN)
                          then r_interest R (op_hash (prevout i)) (op_n (prevout i)) (nValue o) (nSpendHeight - 1) else 0)
  end.

Definition total_in (u : UTXO) (nSpendHeight : Z) (ins : list CTxIn) : Z := fold_right (fun i n => value_in u nSpendHeight i + n) 0 ins.

Lemma total_in_app u h l1 l2 : total_in u h (l1 ++ l2) = total_in u h l1 + total_in u h l2.
Proof. unfold total_in. induction l1 as [|i l1 IH]; [done|]. cbn [app fold_right]. rewrite IH. lia. Qed.

(** A coinbase is spent only when it is old enough. *)
Definition matured (u : UTXO) (nSpendHeight : Z) (i : CTxIn) : Prop :=
  forall c, u_coins u (op_hash (prevout i)) = Some c -> cc_fCoinBase c = true ->
  r_CoinbaseMaturity R <= u32 (nSpendHeight - cc_nHeight c).

Lemma triple_coinbase_rules u t h c (Q : UTXO -> unit -> Prop) :
  (r_CoinbaseMaturity R <= u32 (h - cc_nHeight c) -> Q u tt) -> triple u (coinbase_rules R t h c) Q.
Proof.
  intros HQ. apply triple_bind, triple_require. intros _. apply triple_bind, triple_require. intros Hm.
  apply triple_require. intros _. apply HQ. rewrite negb_true_iff in Hm. by apply Z.ltb_ge in Hm.
Qed.

Lemma triple_check_input u t h i n : is_Some (at_point u i) -> 0 <= n <= r_MAX_MONEY R ->
  triple u (check_input coins_usage R t h i n) (fun u' n' => u' = u /\ n' = n + value_in u h i /\ 0 <= n' <= r_MAX_MONEY R /\ matured u h i).
Proof.
  intros [o Ho] Hn. apply triple_bind, triple_coins_for. intros coins Hc. rewrite (at_point_of_coins u i coins Hc) in Ho.
  apply triple_bind. eapply triple_impl with (Q := fun u' _ => u' = u /\ matured u h i).
  { assert (forall (X : Prop), (cc_fCoinBase coins = true -> X) -> (forall c, u_coins u (op_hash (prevout i)) = Some c -> cc_fCoinBase c = true -> c = coins /\ X)) as Hsame.
    { intros X HX c Ec Eb. rewrite <- Hc in Ec. cbn in Ec. destruct (IsPruned coins); [done|]. injection Ec as <-. auto. }
    destruct (cc_fCoinBase coins) eqn:Eb.
    - apply triple_coinbase_rules. intros Hm. split; [done|]. intros c Ec E. by destruct (Hsame _ (fun _ => Hm) c Ec E) as [-> _].
    - apply triple_ret. split; [done|]. intros c Ec E. by destruct (Hsame False ltac:(done) c Ec E) as [_ []]. }
  intros u' [] [-> Hm]. unfold unspent in Ho. apply triple_bind, triple_get. intros out Hout. rewrite Hout in Ho.
  assert (at_point u i = Some out) as Hat.
  { rewrite (at_point_of_coins u i coins Hc). unfold unspent. rewrite Hout. by destruct (TxOut.IsNull out). }
  cbv zeta. apply triple_bind, triple_require. intros Hr. apply andb_true_iff in Hr as [Hr1 Hr2]. unfold money in *.
  rewrite !MoneyRange_spec in *. apply triple_ret. split; [done|]. split; [|done]. unfold value_in. rewrite Hat.
  pose proof (Hint (op_hash (prevout i)) (op_n (prevout i)) (nValue out) (h - 1)) as Hi.
  assert (i64 (n + nValue out) = n + nValue out) as E by (apply (swrap_small 64); lia). rewrite E.
  destruct (r_isKMD R && _ && _); [|lia]. rewrite (swrap_small 64); lia.
Qed.

Lemma add_in_range_bound l : forall n r, 0 <= n <= r_MAX_MONEY R -> fold_left (add_in_range (r_MAX_MONEY R)) l (Some n) = Some r ->
  0 <= r <= r_MAX_MONEY R.
Proof.
  induction l as [|v l IH]; intros n r Hn; cbn [fold_left]; [by intros [= <-]|]. unfold add_in_range at 2.
  destruct (negb _ || negb (MoneyRange _ _)) eqn:E.
  - clear. intros H. exfalso. induction l as [|v' l IH]; [done|]. auto.
  - apply IH. apply orb_false_iff in E as [_ E]. rewrite negb_false_iff, MoneyRange_spec in E. done.
Qed.

Lemma GetShieldedValueIn_bound t v : GetShieldedValueIn (r_MAX_MONEY R) t = Some v -> 0 <= v <= r_MAX_MONEY R.
Proof.
  unfold GetShieldedValueIn. destruct (_ >=? 0); [|intros H; eapply (add_in_range_bound _ 0); [lia|exact H]].
  intros H. destruct (add_in_range (r_MAX_MONEY R) (Some 0) (valueBalance t)) as [n|] eqn:E.
  - eapply add_in_range_bound; [|exact H]. apply (add_in_range_bound [valueBalance t] 0); [lia|exact E].
  - clear -H. exfalso. induction (map vpub_new (vjoinsplit t)); [done|auto].
Qed.

Lemma GetValueOut_bound t v : GetValueOut (r_MAX_MONEY R) t = Some v -> 0 <= v <= r_MAX_MONEY R.
Proof.
  unfold GetValueOut. set (a := fold_left _ (map nValue (vout t)) (Some 0)).
  assert (forall l, fold_left (add_in_range (r_MAX_MONEY R)) l None = None) as HN by (induction l; done).
  intros H. assert (exists n, (if valueBalance t <=? 0 then add_in_range (r_MAX_MONEY R) a (i64 (- valueBalance t)) else a) = Some n /\
    0 <= n <= r_MAX_MONEY R) as (n & E & Hn).
  { destruct a as [n|] eqn:Ea; [|destruct (_ <=? 0); cbn [add_in_range] in H; by rewrite HN in H].
    pose proof (add_in_range_bound _ 0 n ltac:(lia) Ea) as Hn.
    destruct (_ <=? 0); [|by exists n]. destruct (add_in_range _ (Some n) _) as [m|] eqn:Em; [|by rewrite HN in H].
    exists m. split; [done|]. apply (add_in_range_bound [i64 (- valueBalance t)] n m Hn Em). }
  rewrite E in H. by eapply add_in_range_bound.
Qed.

Lemma triple_CheckTxInputs u t h : IsMint t = false ->
  triple u (CheckTxInputs coins_usage tree_usage R t h) (fun u' fee => u' = u /\
    Forall (fun i => is_Some (at_point u i)) (vin t) /\ Forall (matured u h) (vin t) /\ shielded_ok u t /\
    0 <= fee <= r_MAX_MONEY R /\ exists shielded out,
      GetShieldedValueIn (r_MAX_MONEY R) t = Some shielded /\ GetValueOut (r_MAX_MONEY R) t = Some out /\
      total_in u h (vin t) + shielded = out + fee).
Proof.
  intros Hmint. apply triple_bind, triple_HaveInputs. intros b Hb. apply triple_bind, triple_require. intros ->. specialize (Hb eq_refl Hmint).
  apply triple_bind, triple_HaveJoinSplitRequirements. intros b Hs. apply triple_bind, triple_require. intros ->. specialize (Hs eq_refl).
  apply triple_bind. eapply triple_impl.
  { apply triple_each with (I := fun ins u' n => u' = u /\ n = total_in u h ins /\ 0 <= n <= r_MAX_MONEY R /\ Forall (matured u h) ins).
    { split_and!; [done|done|lia|lia|constructor]. }
    intros done i rest u' n E (-> & -> & Hn & Hm).
    eapply triple_impl; [apply triple_check_input; [|done]|].
    { rewrite E in Hb. apply Forall_app in Hb as [_ Hb]. by inversion_clear Hb. }
    intros u' n' (-> & -> & Hn' & Hm'). rewrite total_in_app. cbn. split_and!; [done|lia|lia|lia|]. apply Forall_app. by repeat constructor. }
  cbv beta. intros u' n (-> & -> & Hn & Hm). apply triple_bind, triple_get. intros sh Hsh. pose proof (GetShieldedValueIn_bound t sh Hsh).
  cbv zeta. rewrite (swrap_small 64 (total_in u h (vin t) + sh)) by lia. apply triple_bind, triple_require. unfold money. intros Hr.
  apply triple_bind, triple_get. intros out Hout. pose proof (GetValueOut_bound t out Hout). rewrite MoneyRange_spec in Hr.
  rewrite (swrap_small 64 (total_in u h (vin t) + sh - out)) by lia.
  apply triple_bind, triple_require. intros Hge. rewrite negb_true_iff, Z.ltb_ge in Hge.
  apply triple_bind, triple_require. intros _. apply triple_bind, triple_require. intros Hf. rewrite MoneyRange_spec in Hf.
  apply triple_ret. split_and!; try done; try lia. exists sh, out. split_and!; [done|done|lia].
Qed.

(** [C3] A transaction whose inputs [CheckTxInputs] accepts creates no value: its inputs are all
    unspent in the set of the view, their values with the interest they earned, and what comes out
    of the shielded pools, are exactly its outputs, what goes into the pools, and a fee within the
    range of money; the coinbases it spends are old enough, its nullifiers are new, and its Sapling
    anchors are known.  The set stays as it is. *)
Theorem CheckTxInputs_conserves_value (c c' : cache) (t : tx) (nSpendHeight fee : Z) : cache_ok c -> IsMint t = false ->
  CheckTxInputs coins_usage tree_usage R t nSpendHeight c = Some (c', Done fee) ->
  let u := cache_set c in cache_ok c' /\ cache_set c' ≡ u /\
  Forall (fun i => is_Some (at_point u i)) (vin t) /\ Forall (matured u nSpendHeight) (vin t) /\ shielded_ok u t /\
  0 <= fee <= r_MAX_MONEY R /\ exists shielded out,
    GetShieldedValueIn (r_MAX_MONEY R) t = Some shielded /\ GetValueOut (r_MAX_MONEY R) t = Some out /\
    total_in u nSpendHeight (vin t) + shielded = out + fee.
Proof.
  intros Hc Hm E u. destruct (triple_CheckTxInputs u t nSpendHeight Hm c c' fee (conj Hc (reflexivity _)) E) as (u' & [H1 H2] & -> & H).
  split; [done|]. by split.
Qed.
End Values.

(** ** Transactions applied one by one *)

Fixpoint apply_txs (u : UTXO) (vtx : list CTransaction) (nHeight : Z) : option (UTXO * list CTxUndo) :=
  match vtx with
  | [] => Some (u, [])
  | tx :: vtx' =>
      '(u, undo) ← apply_tx u tx nHeight;
      '(u, undos) ← apply_txs u vtx' nHeight;
      Some (u, undo :: undos)
  end.

Lemma apply_txs_snoc vtx : forall u tx h, apply_txs u (vtx ++ [tx]) h =
  '(u1, undos) ← apply_txs u vtx h; '(u2, undo) ← apply_tx u1 tx h; Some (u2, undos ++ [undo]).
Proof.
  induction vtx as [|tx' vtx IH]; intros u tx h; cbn [apply_txs app mbind option_bind].
  - by destruct (apply_tx u tx h) as [[u1 x]|].
  - destruct (apply_tx u tx' h) as [[u1 x]|]; cbn [mbind option_bind]; [|done]. rewrite IH.
    destruct (apply_txs u1 vtx h) as [[u2 xs]|]; cbn [mbind option_bind]; [|done].
    by destruct (apply_tx u2 tx h) as [[u3 y]|].
Qed.

Lemma apply_txs_length vtx : forall u h u' undos, apply_txs u vtx h = Some (u', undos) -> length undos = length vtx.
Proof.
  induction vtx as [|tx vtx IH]; intros u h u' undos; cbn [apply_txs]; [by intros [= <- <-]|].
  destruct (apply_tx u tx h) as [[u1 x]|]; cbn [mbind option_bind]; [|done].
  destruct (apply_txs u1 vtx h) as [[u2 xs]|] eqn:E; cbn [mbind option_bind]; [|done]. intros [= <- <-]. cbn. by rewrite (IH _ _ _ _ E).
Qed.

Lemma apply_txs_other vtx : forall u h u' undos, apply_txs u vtx h = Some (u', undos) ->
  u_anchor u' = u_anchor u /\ u_best_block u' = u_best_block u /\ u_best_anchor u' = u_best_anchor u.
Proof.
  induction vtx as [|tx vtx IH]; intros u h u' undos; cbn [apply_txs]; [by intros [= <- <-]|].
  destruct (apply_tx u tx h) as [[u1 x]|] eqn:E1; cbn [mbind option_bind]; [|done].
  destruct (apply_txs u1 vtx h) as [[u2 xs]|] eqn:E; cbn [mbind option_bind]; [|done]. intros [= <- <-].
  destruct (IH _ _ _ _ E) as (-> & -> & ->). by destruct (apply_tx_other _ _ _ _ _ E1) as (_ & -> & -> & ->).
Qed.

(** Outputs of a transaction that is not of the list do not appear. *)
Lemma apply_txs_key vtx k : k ∉ map ct_hash vtx -> forall u h u' undos, apply_txs u vtx h = Some (u', undos) ->
  u_coins u k = None -> u_coins u' k = None.
Proof.
  induction vtx as [|tx vtx IH]; intros Hk u h u' undos; cbn [apply_txs]; [by intros [= <- <-]|].
  destruct (apply_tx u tx h) as [[u1 x]|] eqn:E1; cbn [mbind option_bind]; [|done].
  destruct (apply_txs u1 vtx h) as [[u2 xs]|] eqn:E; cbn [mbind option_bind]; [|done]. intros [= <- <-] Hu.
  cbn [map] in Hk. apply (IH ltac:(by intros Hin; apply Hk, list_elem_of_further) _ _ _ _ E).
  unfold apply_tx in E1. destruct (if negb (IsMint (ct_tx tx)) then _ else _) as [[ua undos]|] eqn:Es; cbn [mbind option_bind] in E1; [|done].
  injection E1 as <- _. cbn [u_coins put_coins]. rewrite decide_False by (intros ->; apply Hk, list_elem_of_here).
  change (u_coins ua k = None). destruct (negb (IsMint (ct_tx tx))); [by eapply spend_set_key|by injection Es as <- <-].
Qed.

(** The rules that a block of transactions keeps before its coins are looked at: the first one is the
    only mint, and a mint has no nullifiers; the points it spends and the values of its outputs can be. *)
Record tx_rules (tx : CTransaction) : Prop := {
  tr_points : spendable_points (ct_tx tx);
  tr_outputs : outputs_ok (ct_tx tx);
  tr_import : tx_IsCoinImport (ct_tx tx) = false;
  tr_mint : IsMint (ct_tx tx) = true -> forall ty, nullifiers_of (ct_tx tx) ty = []
}.

Lemma Forall_snoc_inv {A} (Q : A -> Prop) l x : Forall Q (l ++ [x]) -> Forall Q l /\ Q x.
Proof. intros [H1 H2]%Forall_app. split; [done|]. by inversion_clear H2. Qed.

Lemma apply_txs_wf vtx : forall u h u' undos, wf_set u -> Forall tx_rules vtx -> 0 < h < 2 ^ 31 ->
  apply_txs u vtx h = Some (u', undos) -> wf_set u'.
Proof.
  induction vtx as [|tx vtx IH]; intros u h u' undos Hwf Hr Hh; cbn [apply_txs]; [by intros [= <- <-]|].
  inversion_clear Hr as [|? ? Htx Hvtx]. destruct (apply_tx u tx h) as [[u1 x]|] eqn:E1; cbn [mbind option_bind]; [|done].
  destruct (apply_txs u1 vtx h) as [[u2 xs]|] eqn:E; cbn [mbind option_bind]; [|done]. intros [= <- <-].
  apply (IH u1 h u2 xs); [|done|done|done]. by apply (apply_tx_wf u tx h u1 x Hwf (tr_points _ Htx) (tr_outputs _ Htx) Hh).
Qed.

Lemma combine_app {A B} (l1 l2 : list A) (k1 k2 : list B) : length l1 = length k1 ->
  combine (l1 ++ l2) (k1 ++ k2) = combine l1 k1 ++ combine l2 k2.
Proof. revert k1. induction l1 as [|a l1 IH]; intros [|b k1] E; try done. cbn in *. rewrite IH; [done|lia]. Qed.

(** Each transaction has new nullifiers when its turn comes. *)
Definition turns_ok (u : UTXO) (vtx : list CTransaction) (nHeight : Z) : Prop :=
  forall done tx rest u' undos, vtx = done ++ tx :: rest -> apply_txs u done nHeight = Some (u', undos) -> new_nullifiers u' (ct_tx tx).

(** The undo data of the list, where a mint needs none. *)
Definition undo_for (tx : CTransaction) (undo : CTxUndo) (uo : option CTxUndo) : Prop :=
  IsMint (ct_tx tx) = false -> uo = Some undo.

Lemma disconnect_txs_ok h u0 : wf_set u0 -> 0 < h < 2 ^ 31 ->
  forall vtx undos uos un c, NoDup (map ct_hash vtx) -> Forall tx_rules vtx -> Forall (fun tx => u_coins u0 (ct_hash tx) = None) vtx ->
  turns_ok u0 vtx h -> apply_txs u0 vtx h = Some (un, undos) -> Forall2 (fun p uo => undo_for p.1 p.2 uo) (combine vtx undos) uos ->
  stands c un -> exists c', disconnect_txs coins_usage c h (rev (combine vtx uos)) = Some (c', Some true) /\ stands c' u0.
Proof.
  intros Hwf Hh vtx. induction vtx as [|tx vtx IH] using rev_ind; intros undos uos un c Hnd Hr Hn Ht E Hu Hs.
  { injection E as <- <-. by exists c. }
  rewrite apply_txs_snoc in E. destruct (apply_txs u0 vtx h) as [[u1 xs]|] eqn:E1; cbn [mbind option_bind] in E; [|done].
  destruct (apply_tx u1 tx h) as [[u2 x]|] eqn:E2; cbn [mbind option_bind] in E; [|done]. injection E as <- <-.
  pose proof (apply_txs_length _ _ _ _ _ E1) as Hl.
  apply Forall_snoc_inv in Hr as [Hr Htx]. apply Forall_snoc_inv in Hn as [Hn Hntx].
  rewrite map_app in Hnd. apply list.NoDup_app in Hnd as (Hnd & Hni & _).
  rewrite combine_app in Hu by done. apply Forall2_app_inv_l in Hu as (uos1 & uos2 & Hu1 & Hu2 & ->).
  cbn [combine] in Hu2. inversion_clear Hu2 as [|? uo ? ? Huo Hnil]. inversion_clear Hnil.
  pose proof (list.Forall2_length _ _ _ Hu1) as Hl1. rewrite length_combine, Hl, Nat.min_id in Hl1.
  rewrite combine_app by done. cbn [combine]. rewrite rev_app_distr. cbn [rev app disconnect_txs].
  assert (u_coins u1 (ct_hash tx) = None) as Hk.
  { eapply apply_txs_key; [|exact E1|exact Hntx]. intros Hin. apply (Hni _ Hin), list_elem_of_here. }
  destruct (disconnect_tx_ok coins_usage c u1 u2 h tx x uo) as (c1 & Ec & Hs1); try done.
  - by eapply apply_txs_wf.
  - by eapply Ht.
  - apply Htx.
  - apply Htx.
  - rewrite Ec. cbn [mbind option_bind]. destruct (IH xs uos1 u1 c1) as (c' & Ec' & Hs'); try done.
    { intros done tx' rest u' undos' Ev. apply (Ht done tx' (rest ++ [tx])). rewrite Ev, <- app_assoc. done. }
    rewrite Ec'. cbn [mbind option_bind option_map andb]. by exists c'.
Qed.

(** ** The loop of ConnectBlock *)

(** Calls that leave the set as it is. *)
Definition keeps {A} (u : UTXO) (m : M A) : Prop := triple u m (fun u' _ => u' = u).

Lemma keeps_bind {A B} u (m : M A) (f : A -> M B) : keeps u m -> (forall a, keeps u (f a)) -> keeps u (bind m f).
Proof. intros Hm Hf. apply triple_bind. eapply triple_impl; [exact Hm|]. intros u' a ->. apply Hf. Qed.
Lemma keeps_ret {A} u (a : A) : keeps u (ret a).
Proof. by apply triple_ret. Qed.
Lemma keeps_get {A} u (o : option A) : keeps u (get o).
Proof. by apply triple_get. Qed.
Lemma keeps_require u b d s : keeps u (require b d s).
Proof. by apply triple_require. Qed.
Lemma keeps_each {A B} u (f : nat -> A -> B -> M B) l b : (forall i a b, keeps u (f i a b)) -> keeps u (each f 0 l b).
Proof.
  intros H. eapply triple_impl; [apply (triple_each f l (fun _ u' _ => u' = u)); [done|]|done].
  intros done a rest u' b' _ ->. apply H.
Qed.
Lemma keeps_coins_for u i : keeps u (coins_for coins_usage i).
Proof. by apply triple_coins_for. Qed.
Lemma keeps_output_for u i : keeps u (output_for coins_usage i).
Proof. by apply triple_output_for. Qed.
Lemma keeps_HaveInputs u t : keeps u (ask (fun c => HaveInputs coins_usage c t)).
Proof. by apply triple_HaveInputs. Qed.
Lemma keeps_HaveJoinSplitRequirements u t : keeps u (call (fun c => HaveJoinSplitRequirements tree_usage c t)).
Proof. by apply triple_HaveJoinSplitRequirements. Qed.
Lemma keeps_GetBestBlock u : keeps u (ask cache_GetBestBlock).
Proof. by apply triple_GetBestBlock. Qed.

(** Follows a call down its binds, branches and loops. *)
Ltac keeps_step :=
  match goal with
  | |- keeps _ (bind _ _) => apply keeps_bind; [|intros ?]
  | |- keeps _ (ret _) => apply keeps_ret
  | |- keeps _ (get _) => apply keeps_get
  | |- keeps _ (require _ _ _) => apply keeps_require
  | |- keeps _ (each _ 0 _ _) => apply keeps_each; intros ? ? ?
  | |- keeps _ (coins_for _ _) => apply keeps_coins_for
  | |- keeps _ (output_for _ _) => apply keeps_output_for
  | |- keeps _ (ask (fun c => HaveInputs _ c _)) => apply keeps_HaveInputs
  | |- keeps _ (call (fun c => HaveJoinSplitRequirements _ c _)) => apply keeps_HaveJoinSplitRequirements
  | |- keeps _ (ask cache_GetBestBlock) => apply keeps_GetBestBlock
  | |- keeps _ (if ?b then _ else _) => destruct b
  | |- keeps _ (let '(_, _) := ?p in _) => destruct p
  end.
Ltac keeps := cbv zeta; repeat (keeps_step; cbv zeta).

Lemma keeps_GetValueIn u h t : keeps u (GetValueIn coins_usage R h t).
Proof. unfold GetValueIn, GetTransparentValueIn. keeps. Qed.
Lemma keeps_GetP2SHSigOpCount u t : keeps u (GetP2SHSigOpCount coins_usage t).
Proof. unfold GetP2SHSigOpCount. keeps. Qed.
Lemma keeps_CheckTxInputs u t h : keeps u (CheckTxInputs coins_usage tree_usage R t h).
Proof. unfold CheckTxInputs, check_input, coinbase_rules. keeps. Qed.
Lemma keeps_ContextualCheckInputs u tx b : keeps u (ContextualCheckInputs coins_usage tree_usage R tx b).
Proof. unfold ContextualCheckInputs, GetSpendHeight. keeps. apply keeps_CheckTxInputs. Qed.
Lemma keeps_fee_of_tx u tx v h b : keeps u (fee_of_tx coins_usage tree_usage R tx v h b).
Proof. unfold fee_of_tx. apply keeps_bind; [apply keeps_GetValueIn|intros r]. apply keeps_bind; [apply keeps_ContextualCheckInputs|intros ok]. keeps. Qed.

Lemma triple_inputs_of_tx u t n d :
  triple u (inputs_of_tx coins_usage tree_usage R t n d) (fun u' _ => u' = u /\ (IsMint t = false -> shielded_ok u t)).
Proof.
  unfold inputs_of_tx. destruct (IsMint t) eqn:Em; cbn [negb]; [by apply triple_ret|].
  apply triple_bind, triple_HaveInputs. intros b _. apply triple_bind, triple_require. intros _.
  apply triple_bind. eapply triple_impl; [apply (keeps_each u); intros; keeps|]. cbv beta. intros ? delta ->.
  apply triple_bind, triple_HaveJoinSplitRequirements. intros b' Hs. apply triple_bind, triple_require. intros ->.
  apply triple_bind. eapply triple_impl; [apply keeps_GetP2SHSigOpCount|]. cbv beta. intros ? n' ->.
  cbv zeta. apply triple_bind, triple_require. intros _. apply triple_ret. split; [done|]. intros _. by apply Hs.
Qed.

Lemma triple_UpdateCoins u tx h : tx_IsCoinImport (ct_tx tx) = false ->
  triple u (call (fun c => UpdateCoins coins_usage tx c h)) (fun u' undo => apply_tx u tx h = Some (u', undo)).
Proof.
  intros Hi. apply triple_call. intros c c' undo Hs E. pose proof (UpdateCoins_implements coins_usage tx c u h Hs Hi) as H.
  rewrite E in H. destruct (apply_tx u tx h) as [[u' undo']|]; [|done]. destruct H as [Hs' <-]. by exists u'.
Qed.

(** What one turn gives. *)
Lemma triple_connect_tx u h tip ex i tx a : tx_rules tx ->
  triple u (connect_tx coins_usage tree_usage R h tip ex i tx a) (fun u' a' => exists undo,
    apply_tx u tx h = Some (u', undo) /\ new_nullifiers u (ct_tx tx) /\
    t_vtxundo a' = (if Nat.ltb 0 i then t_vtxundo a ++ [undo] else t_vtxundo a) /\
    append_commitments (ct_tx tx) (t_sprout_tree a) (t_sapling_tree a) = Some (t_sprout_tree a', t_sapling_tree a')).
Proof.
  intros Hr. unfold connect_tx. cbv zeta. set (t := ct_tx tx). apply triple_bind, triple_require. intros _.
  apply triple_bind. eapply triple_impl; [apply triple_inputs_of_tx|]. cbv beta. intros ? [n d] [-> Hs].
  apply triple_bind, triple_get. intros valueout _. apply triple_bind, triple_require. intros _.
  apply triple_bind. eapply triple_impl with (Q := fun u' _ => u' = u).
  { destruct (IsCoinBase t); [by apply triple_ret|]. apply triple_bind. eapply triple_impl; [apply keeps_fee_of_tx|]. cbv beta.
    intros ? [[fee interest] ok] ->. by apply triple_ret. }
  intros ? [[[[fees interest] stake] supply] ok] ->. apply triple_bind. eapply triple_impl; [apply triple_UpdateCoins, Hr|].
  cbv beta. intros u' undo E. apply triple_bind, triple_get. intros [st zt] Et.
  destruct (output_deltas (vout t) d (t_burnedAmountDelta a)) as [td bd]. apply triple_ret. exists undo. split_and!; try done.
  destruct (IsMint t) eqn:Em; [|by apply (Hs eq_refl)]. intros ty. unfold t. by rewrite (tr_mint _ Hr Em ty).
Qed.

(** The trees with the commitments of a list of transactions. *)
Definition append_all (vtx : list CTransaction) (trees : Tree * Tree) : option (Tree * Tree) :=
  fold_left (fun o tx => p ← o; append_commitments (ct_tx tx) p.1 p.2) vtx (Some trees).

(** The loop: the transactions are applied one by one, with new nullifiers, the undo data is of all but the
    first one, and the trees get all commitments. *)
Lemma triple_connect_txs u h tip ex vtx a : Forall tx_rules vtx -> t_vtxundo a = [] ->
  triple u (each (connect_tx coins_usage tree_usage R h tip ex) 0 vtx a) (fun u' a' => exists undos,
    apply_txs u vtx h = Some (u', undos) /\ turns_ok u vtx h /\ t_vtxundo a' = tail undos /\
    append_all vtx (t_sprout_tree a, t_sapling_tree a) = Some (t_sprout_tree a', t_sapling_tree a')).
Proof.
  intros Hr Ha. set (I := fun done u' (a' : totals Tree) => exists undos,
    apply_txs u done h = Some (u', undos) /\ turns_ok u done h /\ t_vtxundo a' = tail undos /\
    append_all done (t_sprout_tree a, t_sapling_tree a) = Some (t_sprout_tree a', t_sapling_tree a')).
  apply (triple_each _ vtx I).
  - exists []. split_and!; try done. intros [|? ?] tx rest u' undos E; done.
  - intros done tx rest u1 b E (undos & E1 & Ht & Hu & Htrees).
    eapply triple_impl; [apply triple_connect_tx|].
    { rewrite E in Hr. apply Forall_app in Hr as [_ Hr]. by inversion_clear Hr. }
    intros u2 b' (undo & E2 & Hnf & Hv & Hb). exists (undos ++ [undo]). split_and!.
    + rewrite apply_txs_snoc, E1. cbn [mbind option_bind]. by rewrite E2.
    + intros done' tx' rest' u' undos' Ed Ea. destruct rest' as [|r rest' _] using rev_ind.
      * apply app_inj_tail in Ed as [-> ->]. rewrite E1 in Ea. by injection Ea as -> _.
      * rewrite app_comm_cons, app_assoc in Ed. apply app_inj_tail in Ed as [-> ->]. by apply (Ht done' tx' rest' u' undos').
    + rewrite Hv, Hu. pose proof (apply_txs_length _ _ _ _ _ E1) as Hl. destruct done as [|t0 done]; cbn [length] in *.
      * by destruct undos.
      * by destruct undos.
    + unfold append_all in *. rewrite fold_left_app, Htrees. cbn [fold_left]. exact Hb.
Qed.

(** ** The whole block *)

Lemma triple_check_BIP30 u vtx : triple u (check_BIP30 coins_usage vtx) (fun u' _ => u' = u /\ Forall (fun tx => u_coins u (ct_hash tx) = None) vtx).
Proof.
  apply (triple_each _ vtx (fun done u' _ => u' = u /\ Forall (fun tx => u_coins u (ct_hash tx) = None) done)); [done|].
  intros done tx rest u' [] _ [-> Hd]. apply triple_bind.
  apply triple_ask with (F := fun o => prune o = u_coins u (ct_hash tx)).
  { intros c c' o [Hc Hu] E. destruct (AccessCoins_spec coins_usage c _ c' o Hc E) as (Hp & Ho). split; [done|].
    by rewrite Ho, (same_coins _ _ Hu). }
  intros o Ho. apply triple_require. intros Hb. split; [done|]. apply Forall_app. split; [done|]. constructor; [|constructor].
  rewrite <- Ho. destruct o as [cs|]; [|done]. cbn. by rewrite Hb.
Qed.

Lemma triple_best_trees u : triple u (best_trees tree_usage) (fun u' r => u' = u /\
  r.1.1 = u_best_anchor u SPROUT /\ tree_root SPROUT r.1.2 = u_best_anchor u SPROUT /\ tree_root SAPLING r.2 = u_best_anchor u SAPLING).
Proof.
  apply triple_bind, triple_GetBestAnchor, triple_bind, triple_GetAnchorAt. intros o _ Ho.
  apply triple_bind, triple_get. intros st ->. rewrite bool_decide_eq_true_2 by (by apply Ho). cbn [negb].
  apply triple_bind, triple_GetBestAnchor, triple_bind, triple_GetAnchorAt. intros o' _ Ho'.
  apply triple_bind, triple_get. intros zt ->. apply triple_ret. split_and!; [done|done|by apply Ho|by apply Ho'].
Qed.

Lemma triple_PushAnchor u ty tree : base_blob.IsNull (tree_root ty tree) = false ->
  triple u (call (fun c => Some (PushAnchor tree_usage c ty tree, tt))) (fun u' _ => u' = push_anchor u ty (tree_root ty tree)).
Proof.
  intros Hn. apply triple_call. intros c c' [] [Hc Hu] [= <-]. destruct (PushAnchor_ok tree_usage c ty tree Hc Hn) as [Hc' Hu'].
  eexists. split; [|done]. split; [done|]. etrans; [exact Hu'|]. unfold push_anchor. rewrite (same_best_anchor _ _ Hu).
  destruct (decide _); [done|]. by rewrite Hu.
Qed.

Lemma triple_SetBestBlock u h : base_blob.IsNull h = false ->
  triple u (call (fun c => Some (SetBestBlock c h, tt))) (fun u' _ => u' = put_best_block u h).
Proof.
  intros Hn. apply triple_call. intros c c' [] [Hc Hu] [= <-]. destruct (SetBestBlock_ok c h Hc Hn) as [Hc' Hu'].
  eexists. split; [|done]. split; [done|]. etrans; [exact Hu'|]. by rewrite Hu.
Qed.

Lemma keeps_coinbase_amount u vtx h r k (a : totals Tree) : keeps u (coinbase_amount R vtx h r k a).
Proof.
  unfold coinbase_amount. destruct vtx as [|tx vtx]; [by apply triple_fail|]. cbv zeta.
  apply keeps_bind; [|intros w].
  { destruct (negb (k =? 0)); [|apply keeps_ret]. destruct (vout _) as [|? [|? ?]]; [| |apply keeps_ret];
      (destruct (h >? 1); [by apply triple_fail|apply keeps_ret]). }
  apply keeps_bind; [apply keeps_get|intros v]. apply keeps_bind; [apply keeps_require|intros _].
  destruct (v >? _); [|apply keeps_ret]. destruct (_ || _); [by apply triple_reject|]. keeps.
Qed.

(** What is taken for granted of roots and hashes: that they are not the null hash. *)
Context (Hroots : forall ty tree, base_blob.IsNull (tree_root ty tree) = false).

(** The set after the transactions, with the roots of the trees and the block on top. *)
Definition connected (u : UTXO) (sprout_root sapling_root block_hash : list Z) : UTXO :=
  put_best_block (push_anchor (push_anchor u SPROUT sprout_root) SAPLING sapling_root) block_hash.

Section Block.
Context (vtx : list CTransaction) (block_hash prev_hash block_sapling_root : list Z)
        (nHeight tip_height blockReward notarypaycheque checktoshis : Z) (fExpensiveChecks fCheckPOW staked : bool).
Context (Hrules : Forall tx_rules vtx) (Hhash : base_blob.IsNull block_hash = false).

#[local] Abbreviation connect := (ConnectBlock coins_usage tree_usage R vtx block_hash prev_hash block_sapling_root
  nHeight tip_height blockReward notarypaycheque checktoshis fExpensiveChecks fCheckPOW false staked).

(** What an accepted block did. *)
Record applied (u u' : UTXO) (undo : CBlockUndo) (a : totals Tree) : Prop := {
  ap_prev : u_best_block u = prev_hash;
  ap_new : Forall (fun tx => u_coins u (ct_hash tx) = None) vtx;
  ap_turns : turns_ok u vtx nHeight;
  ap_root : old_sprout_tree_root undo = u_best_anchor u SPROUT;
  ap_trees : exists sprout_tree sapling_tree,
    tree_root SPROUT sprout_tree = u_best_anchor u SPROUT /\ tree_root SAPLING sapling_tree = u_best_anchor u SAPLING /\
    append_all vtx (sprout_tree, sapling_tree) = Some (t_sprout_tree a, t_sapling_tree a);
  ap_sapling : r_sapling R nHeight = true -> tree_root SAPLING (t_sapling_tree a) = block_sapling_root;
  ap_scripts : t_scripts a = true;
  ap_txs : exists un undos, apply_txs u vtx nHeight = Some (un, undos) /\ vtxundo undo = tail undos /\
    u' = connected un (tree_root SPROUT (t_sprout_tree a)) (tree_root SAPLING (t_sapling_tree a)) block_hash
}.

Lemma triple_ConnectBlock u : triple u connect (fun u' r => applied u u' r.1 r.2).
Proof.
  apply triple_bind, triple_GetBestBlock, triple_bind, triple_require. intros Hprev. apply bool_decide_eq_true in Hprev.
  apply triple_bind. eapply triple_impl; [apply triple_check_BIP30|]. cbv beta. intros ? [] [-> Hbip].
  apply triple_bind. eapply triple_impl; [apply triple_best_trees|]. cbv beta. intros ? [[old st] zt] (-> & Hold & Hst & Hzt). cbn [fst snd] in *.
  apply triple_bind. eapply triple_impl; [apply triple_connect_txs; done|]. cbv beta. cbn [t_sprout_tree t_sapling_tree].
  intros un a (undos & Ea & Ht & Hu & Htrees).
  apply triple_bind, triple_require. intros _.
  apply triple_bind. eapply triple_impl; [apply triple_PushAnchor, Hroots|]. cbv beta. intros ? [] ->.
  apply triple_bind. eapply triple_impl; [apply triple_PushAnchor, Hroots|]. cbv beta. intros ? [] ->.
  apply triple_bind, triple_require. intros Hsap.
  apply triple_bind. eapply triple_impl; [apply keeps_coinbase_amount|]. cbv beta. intros ? [] ->.
  apply triple_bind, triple_require. intros Hscripts. cbv zeta.
  apply triple_bind. eapply triple_impl; [apply triple_SetBestBlock, Hhash|]. cbv beta. intros ? [] ->.
  apply triple_ret. split; cbn [fst snd old_sprout_tree_root vtxundo]; try done.
  - by exists st, zt.
  - intros Hact. rewrite Hact in Hsap. cbn [andb] in Hsap. rewrite negb_true_iff, negb_false_iff, bool_decide_eq_true in Hsap. done.
  - by exists un, undos.
Qed.

End Block.

(** ** Taking a block back *)

#[local] Instance push_anchor_proper : Proper ((≡) ==> (=) ==> (=) ==> (≡)) push_anchor.
Proof.
  intros u v H ty _ <- rt _ <-. unfold push_anchor. rewrite (same_best_anchor _ _ H). destruct (decide _); [done|]. by rewrite H.
Qed.
#[local] Instance pop_anchor_proper : Proper ((≡) ==> (=) ==> (=) ==> (≡)) pop_anchor.
Proof.
  intros u v H ty _ <- rt _ <-. unfold pop_anchor. rewrite (same_best_anchor _ _ H). destruct (decide _); [done|]. by rewrite H.
Qed.

(** A root that is the best anchor, or is no anchor yet. *)
Definition fresh_root (u : UTXO) (ty : ShieldedType) (rt : list Z) : Prop :=
  rt = u_best_anchor u ty \/ (u_anchor u ty rt = false /\ rt <> empty_root ty).

Lemma pop_push u ty rt : fresh_root u ty rt -> pop_anchor (push_anchor u ty rt) ty (u_best_anchor u ty) ≡ u.
Proof.
  intros Hf. unfold push_anchor. destruct (decide (u_best_anchor u ty = rt)) as [<-|Hne].
  { unfold pop_anchor. by rewrite decide_True. }
  destruct Hf as [->|[Hf _]]; [done|]. unfold pop_anchor. cbn [u_best_anchor put_best_anchor put_anchor].
  rewrite !(decide_True (P := ty = ty)) by done. rewrite decide_False by congruence.
  split; cbn; try done.
  - intros ty' rt'. destruct (decide (ty' = ty)) as [->|]; [|done]. by destruct (decide (rt' = rt)) as [->|].
  - intros ty'. by destruct (decide (ty' = ty)) as [->|].
Qed.

Lemma push_push u rt rt' : push_anchor (push_anchor u SPROUT rt) SAPLING rt' ≡ push_anchor (push_anchor u SAPLING rt') SPROUT rt.
Proof.
  unfold push_anchor. destruct (decide (u_best_anchor u SPROUT = rt)) as [E|E], (decide (u_best_anchor u SAPLING = rt')) as [E'|E'];
    cbn [u_best_anchor put_best_anchor put_anchor]; rewrite ?decide_True, ?decide_False by done; rewrite ?decide_True, ?decide_False by done;
    split; try done; try (intros [] ?; done); intros []; done.
Qed.

Lemma best_put u ty rt h : fresh_root u ty rt <-> fresh_root (put_best_block u h) ty rt.
Proof. done. Qed.

Lemma push_put u ty rt h : push_anchor (put_best_block u h) ty rt ≡ put_best_block (push_anchor u ty rt) h.
Proof. unfold push_anchor. cbn [u_best_anchor put_best_block]. by destruct (decide _). Qed.

Lemma connected_back u rt rt' h : fresh_root u SPROUT rt -> fresh_root u SAPLING rt' ->
  put_best_block (pop_anchor (pop_anchor (connected u rt rt' h) SPROUT (u_best_anchor u SPROUT)) SAPLING (u_best_anchor u SAPLING)) (u_best_block u) ≡ u.
Proof.
  intros Hf Hf'. unfold connected. rewrite push_push.
  rewrite <- (push_put (push_anchor u SAPLING rt') SPROUT rt h).
  assert (u_best_anchor u SPROUT = u_best_anchor (put_best_block (push_anchor u SAPLING rt') h) SPROUT) as E.
  { unfold push_anchor. by destruct (decide _). }
  rewrite E, pop_push.
  2: { destruct Hf as [->|[H1 H2]]; [left; exact E|right]. split; [|done]. unfold push_anchor. by destruct (decide _). }
  rewrite <- push_put. change (u_best_anchor u SAPLING) with (u_best_anchor (put_best_block u h) SAPLING). rewrite pop_push by done.
  by split.
Qed.

Lemma PopAnchor_stands c v ty rt : stands c v -> base_blob.IsNull rt = false ->
  u_best_anchor v ty = rt \/ (u_anchor v ty (u_best_anchor v ty) = true /\ u_best_anchor v ty <> empty_root ty) ->
  exists c', PopAnchor tree_usage c ty rt = Some c' /\ stands c' (pop_anchor v ty rt).
Proof.
  intros [Hc Hu] Hn Hv. pose proof (same_best_anchor _ _ Hu ty) as Hb. destruct (decide (u_best_anchor v ty = rt)) as [E|Hne].
  - destruct (PopAnchor_same tree_usage c ty rt Hc) as (c' & Ec & Hp); [by rewrite Hb|]. exists c'. split; [done|].
    split; [apply (pr_inv _ _ _ Hp)|]. unfold pop_anchor. rewrite decide_True by done. etrans; [exact (pr_set _ _ _ Hp)|done].
  - destruct Hv as [?|[Ha He]]; [done|]. destruct (PopAnchor_ok tree_usage c ty rt Hc Hn) as (c' & Ec & Hc' & Hu').
    + by rewrite Hb.
    + by rewrite Hb, (same_anchor _ _ Hu).
    + by rewrite Hb.
    + exists c'. split; [done|]. split; [done|]. by rewrite <- Hu.
Qed.

(** The coins and nullifiers of a set with the anchors and the best block of another. *)
Definition with_tips (u w : UTXO) : UTXO := {| u_coins := u_coins u; u_nullifier := u_nullifier u;
  u_anchor := u_anchor w; u_best_block := u_best_block w; u_best_anchor := u_best_anchor w |}.

Lemma spend_set_tips ins w : forall u u' undos, spend_set u ins = Some (u', undos) -> spend_set (with_tips u w) ins = Some (with_tips u' w, undos).
Proof.
  induction ins as [|i ins IH]; intros u u' undos; cbn [spend_set]; [by intros [= <- <-]|]. unfold modify_set.
  assert (forall k o, put_coins (with_tips u w) k o = with_tips (put_coins u k o) w) as Hp by done.
  change (u_coins (with_tips u w)) with (u_coins u). destruct (spend_output _ _) as [[c1 x]|]; cbn [mbind option_bind]; [|done].
  destruct (spend_set _ ins) as [[u2 xs]|] eqn:E; cbn [mbind option_bind]; [|done]. intros [= <- <-]. by rewrite Hp, (IH _ _ _ E).
Qed.

Lemma apply_txs_tips vtx w h : forall u u' undos, apply_txs u vtx h = Some (u', undos) ->
  apply_txs (with_tips u w) vtx h = Some (with_tips u' w, undos).
Proof.
  induction vtx as [|tx vtx IH]; intros u u' undos; cbn [apply_txs]; [by intros [= <- <-]|].
  destruct (apply_tx u tx h) as [[u1 x]|] eqn:E1; cbn [mbind option_bind]; [|done].
  destruct (apply_txs u1 vtx h) as [[u2 xs]|] eqn:E; cbn [mbind option_bind]; [|done]. intros [= <- <-].
  assert (apply_tx (with_tips u w) tx h = Some (with_tips u1 w, x)) as ->; [|cbn [mbind option_bind]; by rewrite (IH _ _ _ E)].
  unfold apply_tx in *. destruct (negb (IsMint (ct_tx tx))).
  - destruct (spend_set u (vin (ct_tx tx))) as [[ua undos']|] eqn:Es; cbn [mbind option_bind] in E1; [|done].
    rewrite (spend_set_tips _ _ _ _ _ Es). by injection E1 as <- <-.
  - by injection E1 as <- <-.
Qed.

Lemma turns_ok_tips u w vtx h : (exists u' undos, apply_txs u vtx h = Some (u', undos)) -> turns_ok u vtx h -> turns_ok (with_tips u w) vtx h.
Proof.
  intros (uz & zs & Ez) Ht done tx rest u' undos E Ea. rewrite E in Ez.
  assert (forall l1 l2 u uz zs, apply_txs u (l1 ++ l2) h = Some (uz, zs) -> exists ua xs, apply_txs u l1 h = Some (ua, xs)) as Hpre.
  { clear. induction l1 as [|t l1 IH]; intros l2 u uz zs; cbn [app apply_txs]; [eauto|].
    destruct (apply_tx u t h) as [[u1 x]|]; cbn [mbind option_bind]; [|done].
    destruct (apply_txs u1 (l1 ++ l2) h) as [[u2 xs]|] eqn:E; cbn [mbind option_bind]; [|done]. intros _.
    destruct (IH _ _ _ _ E) as (ua & ys & ->). eauto. }
  destruct (Hpre _ _ _ _ _ Ez) as (ua & xs & Ea'). pose proof (Ht _ _ _ _ _ E Ea') as Hn.
  rewrite (apply_txs_tips _ w _ _ _ _ Ea') in Ea. injection Ea as <- _. exact Hn.
Qed.

(** The first transaction is a mint; it is the only one without undo data. *)
Definition mint_first (vtx : list CTransaction) : Prop := exists tx rest, vtx = tx :: rest /\ IsMint (ct_tx tx) = true.

Lemma with_undo_ok vtx undos undo : mint_first vtx -> length undos = length vtx -> vtxundo undo = tail undos ->
  exists uos, with_undo vtx undo = combine vtx uos /\ Forall2 (fun p uo => undo_for p.1 p.2 uo) (combine vtx undos) uos /\
              (length (vtxundo undo) + 1 = length vtx)%nat.
Proof.
  intros (tx & rest & -> & Hm) Hl Hu. destruct undos as [|x undos]; [done|]. cbn in Hl, Hu.
  exists (None :: map Some undos). split_and!.
  - unfold with_undo. by rewrite Hu.
  - cbn [combine]. constructor; [unfold undo_for; cbn; congruence|]. injection Hl as Hl. clear -Hl. revert undos Hl.
    induction rest as [|t rest IH]; intros [|y undos] Hl; try done; cbn [combine map]; constructor; [done|].
    apply IH. by injection Hl.
  - rewrite Hu. cbn. lia.
Qed.

(** The anchors of the other type stay. *)
Lemma push_other u ty ty' rt : ty <> ty' ->
  u_best_anchor (push_anchor u ty rt) ty' = u_best_anchor u ty' /\ forall x, u_anchor (push_anchor u ty rt) ty' x = u_anchor u ty' x.
Proof. intros Hne. unfold push_anchor. destruct (decide _); [done|]. cbn. assert (ty' <> ty) by congruence. split; [|intros x]; by rewrite decide_False. Qed.
Lemma pop_other u ty ty' rt : ty <> ty' ->
  u_best_anchor (pop_anchor u ty rt) ty' = u_best_anchor u ty' /\ forall x, u_anchor (pop_anchor u ty rt) ty' x = u_anchor u ty' x.
Proof. intros Hne. unfold pop_anchor. destruct (decide _); [done|]. cbn. assert (ty' <> ty) by congruence. split; [|intros x]; by rewrite decide_False. Qed.

(** The coins at the tips of a set with a block connected do not matter to what the block adds. *)
Lemma connected_tips u un r1 r2 h : u_best_anchor un = u_best_anchor u -> u_anchor un = u_anchor u ->
  connected un r1 r2 h ≡ with_tips un (connected u r1 r2 h).
Proof.
  intros Eba Eanc. unfold connected, push_anchor. rewrite Eba.
  destruct (decide (u_best_anchor u SPROUT = r1)); cbn [u_best_anchor put_best_anchor put_anchor];
    rewrite ?Eba; destruct (decide _); split; try done; cbn; intros; rewrite ?Eanc, ?Eba; done.
Qed.
Lemma tips_connected u r1 r2 h : with_tips u (connected u r1 r2 h) ≡ connected u r1 r2 h.
Proof.
  unfold connected, push_anchor. destruct (decide (u_best_anchor u SPROUT = r1)); cbn [u_best_anchor put_best_anchor put_anchor];
    destruct (decide _); by split.
Qed.

(** The root pushed on a set can be popped: it is the one that was there, or one the set has. *)
Lemma pushed_poppable v ty r : fresh_root v ty r -> u_best_anchor (push_anchor v ty r) ty = u_best_anchor v ty \/
  (u_anchor (push_anchor v ty r) ty (u_best_anchor (push_anchor v ty r) ty) = true /\ u_best_anchor (push_anchor v ty r) ty <> empty_root ty).
Proof.
  intros Hfr. unfold push_anchor. destruct (decide _) as [|Hne]; [by left|]. destruct Hfr as [->|[_ He]]; [done|]. right.
  cbn. rewrite !(decide_True (P := ty = ty)) by done. by rewrite decide_True by done.
Qed.

End Laws.

(** ** A small block *)

Definition sample_rules : rules := {|
  r_isKMD := true; r_MAX_MONEY := 10 ^ 16; r_MAX_BLOCK_SIGOPS := 20000; r_TIMELOCKGTE := 2 ^ 64 - 1; r_unlocktime := fun _ => 0;
  r_CoinbaseMaturity := 1; r_protect := false; r_interest := fun _ _ _ _ => 0; r_import_value := fun _ => 0; r_import_ok := fun _ => false;
  r_script_ok := fun _ _ _ => true; r_checkPOW_ok := fun _ => true; r_EXTRASATOSHI := 0; r_height := fun _ => Some 1;
  r_sapling := fun _ => false |}.

Definition sample_coinbase : CTransaction := {|
  ct_tx := plain_tx [{| prevout := OutPoint.SetNull; scriptSig := [1; 2]; nSequence := 0 |}] [{| nValue := 300; scriptPubKey := [81] |}];
  ct_hash := replicate 32 5 |}.

Definition sample_vtx : list CTransaction := [sample_coinbase; sample_spend].

#[local] Abbreviation sample_connect :=
  (ConnectBlock (V := CCoinsViewDB_view) (fun _ => 1) (fun _ => 1) sample_rules sample_vtx (replicate 32 6) (replicate 32 7) [] 2 1 300 0 0
    true true false false).

(** What the block leaves; the default is not used. *)
Definition sample_connected : CCoinsViewCache (list Z) (CCoinsViewDB (list Z)) * (CBlockUndo * totals (list Z)) :=
  match sample_connect sample_cache with
  | Some (c, Done r) => (c, r)
  | _ => (sample_cache, ({| vtxundo := []; old_sprout_tree_root := [] |},
      {| t_nFees := 0; t_interest := 0; t_nSigOps := 0; t_stakeTxValue := 0; t_sprout_tree := []; t_sapling_tree := []; t_vtxundo := [];
         t_chainSupplyDelta := 0; t_transparentValueDelta := 0; t_burnedAmountDelta := 0; t_scripts := true |}))
  end.

Lemma sample_connected_done : sample_connect sample_cache = Some (sample_connected.1, Done (sample_connected.2.1, sample_connected.2.2)).
Proof. vm_compute. reflexivity. Qed.

Lemma sample_tx_rules : Forall tx_rules sample_vtx.
Proof.
  constructor; [|constructor; [|constructor]]; (split; [intros H | by repeat constructor | done | by intros _ []]).
  - vm_compute in H. discriminate.
  - by repeat constructor.
Qed.

Definition sample_checked : CCoinsViewCache (list Z) (CCoinsViewDB (list Z)) :=
  match CheckTxInputs (V := CCoinsViewDB_view) (fun _ => 1) (fun _ => 1) sample_rules (ct_tx sample_spend) 2 sample_cache with
  | Some (c, _) => c
  | None => sample_cache
  end.

Lemma sample_checked_done : CheckTxInputs (V := CCoinsViewDB_view) (fun _ => 1) (fun _ => 1) sample_rules (ct_tx sample_spend) 2
  sample_cache = Some (sample_checked, Done 0).
Proof. vm_compute. reflexivity. Qed.

Lemma CheckTxInputs_conserves_value_witness :
  cache_set (P := db_spec) sample_checked ≡ cache_set (P := db_spec) sample_cache /\
  Forall (matured sample_rules (cache_set (P := db_spec) sample_cache) 2) (vin (ct_tx sample_spend)).
Proof.
  pose proof (CheckTxInputs_conserves_value (L := db_laws) (fun _ => 1) (fun _ => 1) sample_rules) as H.
  specialize (H ltac:(split; [discriminate | reflexivity]) ltac:(intros; split; [discriminate | reflexivity])).
  destruct (H sample_cache sample_checked (ct_tx sample_spend) 2 0 sample_cache_ok eq_refl sample_checked_done) as (_ & Hu & _ & Hm & _).
  exact (conj Hu Hm).
Defined.


