(* ===== verification/KomodoEvents.v ===== *)
(** * KomodoEvents: the records of the komodo state file
    [src/src/komodo_structs.h], [komodo_structs.cpp] and [mem_read.h]: the events, the writer
    ([operator<<]), the parser over a memory image of the file (the constructors taking
    [data, pos, data_len]) and the parser over the file itself (the constructors taking a
    [FILE*]).  A parser is given the whole image and a position; it ends with a value and the
    next position, with [komodo::parse_error], or with an access outside an array. *)
From S2P Require Import Prelude Endian Uint256 Serialize.

(** ** The events *)

Record event_notarized := EventNotarized {
  n_blockhash : list Z; n_desttxid : list Z; n_MoM : list Z;
  n_notarizedheight : Z; n_MoMdepth : Z; n_dest : list Z
}.
Record event_pubkeys := EventPubkeys { pk_num : Z; pk_pubkeys : list (list Z) }.
Record event_u := EventU { u_n : Z; u_nid : Z; u_mask : list Z; u_hash : list Z }.
Record event_kmdheight := EventKmdheight { k_kheight : Z; k_timestamp : Z }.
Record event_opreturn := EventOpreturn { o_txid : list Z; o_vout : Z; o_value : Z; o_opret : list Z }.
Record event_pricefeed := EventPricefeed { v_num : Z; v_prices : list Z }.

Inductive event_body :=
| EVENT_PUBKEYS (e : event_pubkeys)
| EVENT_NOTARIZED (e : event_notarized)
| EVENT_U (e : event_u)
| EVENT_KMDHEIGHT (e : event_kmdheight)
| EVENT_OPRETURN (e : event_opreturn)
| EVENT_PRICEFEED (e : event_pricefeed)
| EVENT_REWIND.

(** The base class: the height, and what the type tag selects. *)
Record event := Event { ev_height : Z; ev_body : event_body }.

(** The default constructors: what the parsers start from. *)
Definition zero256 : list Z := base_blob.zero 32.
Definition new_pubkeys : event_pubkeys := EventPubkeys 0 (replicate 64 (replicate 33 0)).
Definition new_pricefeed : event_pricefeed := EventPricefeed 0 (replicate 35 0).

(** [strncpy(this->dest, _dest, 15)] of a C string (its bytes before the terminator). *)
Definition copy_dest (_dest : list Z) : list Z := take 15 _dest.

(** ** The writer *)

Definition serializable_int32 (value : Z) : list Z :=
  [ u8 (Z.land value 0x000000ff); u8 (Z.shiftr (Z.land value 0x0000ff00) 8);
    u8 (Z.shiftr (Z.land value 0x00ff0000) 16); u8 (Z.shiftr (Z.land value 0xff000000) 24) ].

Definition serializable_uint16 (value : Z) : list Z :=
  [ u8 (Z.land value 0x00ff); u8 (Z.shiftr (Z.land value 0xff00) 8) ].

Definition serializable_uint64 (value : Z) : list Z :=
  [ u8 (Z.land value 0x00000000000000ff); u8 (Z.shiftr (Z.land value 0x000000000000ff00) 8);
    u8 (Z.shiftr (Z.land value 0x0000000000ff0000) 16);
    u8 (Z.shiftr (Z.land value 0x00000000ff000000) 24);
    u8 (Z.shiftr (Z.land value 0x000000ff00000000) 32);
    u8 (Z.shiftr (Z.land value 0x0000ff0000000000) 40);
    u8 (Z.shiftr (Z.land value 0x00ff000000000000) 48);
    u8 (Z.shiftr (Z.land value 0xff00000000000000) 56) ].

Definition has_MoM (e : event_notarized) : bool :=
  negb (n_MoMdepth e =? 0) && negb (base_blob.IsNull (n_MoM e)).

(** The letter of a record (the codes of the characters). *)
Definition event_letter (b : event_body) : Z :=
  match b with
  | EVENT_PUBKEYS _ => 80 (* P *)
  | EVENT_NOTARIZED e => if has_MoM e then 77 (* M *) else 78 (* N *)
  | EVENT_U _ => 85 (* U *)
  | EVENT_KMDHEIGHT e => if k_timestamp e =? 0 then 75 (* K *) else 84 (* T *)
  | EVENT_OPRETURN _ => 82 (* R *)
  | EVENT_PRICEFEED _ => 86 (* V *)
  | EVENT_REWIND => 66 (* B *)
  end.

(** The 5 byte header of an event. *)
Definition write_header (e : event) : list Z :=
  event_letter (ev_body e) :: serializable_int32 (ev_height e).

Definition write_pubkeys (e : event_pubkeys) : list Z :=
  u8 (pk_num e) :: concat (map (take 33) (take (Z.to_nat (pk_num e)) (pk_pubkeys e))).

Definition write_notarized (e : event_notarized) : list Z :=
  serializable_int32 (n_notarizedheight e) ++ Serialize_blob (n_blockhash e)
  ++ Serialize_blob (n_desttxid e)
  ++ (if has_MoM e then Serialize_blob (n_MoM e) ++ serializable_int32 (n_MoMdepth e) else []).

Definition write_u (e : event_u) : list Z :=
  [u8 (u_n e); u8 (u_nid e)] ++ take 8 (u_mask e) ++ take 32 (u_hash e).

Definition write_kmdheight (e : event_kmdheight) : list Z :=
  serializable_int32 (k_kheight e)
  ++ (if k_timestamp e >? 0 then serializable_int32 (k_timestamp e) else []).

Definition write_opreturn (e : event_opreturn) : list Z :=
  Serialize_blob (o_txid e) ++ serializable_uint16 (o_vout e) ++ serializable_uint64 (o_value e)
  ++ serializable_uint16 (Z.of_nat (length (o_opret e))) ++ o_opret e.

(** [os.write] of the array as it is in memory: little-endian words. *)
Definition write_pricefeed (e : event_pricefeed) : list Z :=
  u8 (v_num e) :: concat (map WriteLE32 (take (Z.to_nat (v_num e)) (v_prices e))).

Definition write_event (e : event) : list Z :=
  write_header e ++
  match ev_body e with
  | EVENT_PUBKEYS b => write_pubkeys b
  | EVENT_NOTARIZED b => write_notarized b
  | EVENT_U b => write_u b
  | EVENT_KMDHEIGHT b => write_kmdheight b
  | EVENT_OPRETURN b => write_opreturn b
  | EVENT_PRICEFEED b => write_pricefeed b
  | EVENT_REWIND => []
  end.

(** ** Parsers over an image of the file *)

Inductive outcome (A : Type) :=
| Parsed (a : A) (pos : Z)
| ParseError
| OutOfBounds.
Arguments Parsed {A} a pos.
Arguments ParseError {A}.
Arguments OutOfBounds {A}.

Definition Parser (A : Type) : Type := list Z -> Z -> outcome A.

Definition pret {A} (a : A) : Parser A := fun _ pos => Parsed a pos.
Definition pthrow {A} : Parser A := fun _ _ => ParseError.
Definition pcrash {A} : Parser A := fun _ _ => OutOfBounds.
Definition pbind {A B} (m : Parser A) (k : A -> Parser B) : Parser B := fun data pos =>
  match m data pos with
  | Parsed a pos' => k a data pos'
  | ParseError => ParseError
  | OutOfBounds => OutOfBounds
  end.

Declare Scope parser_scope.
Delimit Scope parser_scope with parser.
Notation "x <== m ;; k" := (pbind m (fun x => k))
  (at level 100, m at next level, right associativity) : parser_scope.
#[global] Open Scope parser_scope.

(** [mem_read] into an object of [sz] bytes, and [mem_nread] into the first elements of an
    array: [memcpy] of [sz] bytes when the image has them. *)
Definition mem_read (sz : Z) : Parser (list Z) := fun filedata fpos =>
  if fpos + sz <=? Z.of_nat (length filedata)
  then Parsed (take (Z.to_nat sz) (drop (Z.to_nat fpos) filedata)) (fpos + sz)
  else ParseError.

(** The objects the constructors read, in the little-endian order of the host. *)
Definition mem_read_u8 : Parser Z := b <== mem_read 1 ;; pret (hd 0 b).
Definition mem_read_u16 : Parser Z := b <== mem_read 2 ;; pret (ReadLE16 b).
Definition mem_read_u32 : Parser Z := b <== mem_read 4 ;; pret (ReadLE32 b).
Definition mem_read_i32 : Parser Z := b <== mem_read 4 ;; pret (i32 (ReadLE32 b)).
Definition mem_read_u64 : Parser Z := b <== mem_read 8 ;; pret (ReadLE64 b).

(** The rows (of [sz] bytes) of a block read at once. *)
Fixpoint rows (sz n : nat) (block : list Z) : list (list Z) :=
  match n with
  | O => []
  | S n' => take sz block :: rows sz n' (drop sz block)
  end.

(** [memcpy] over the first rows of an array. *)
Definition overwrite {A} (new old : list A) : list A := new ++ drop (length new) old.

(** [num = data[pos++]]: nothing checks that [pos] is inside the image. *)
Definition data_at : Parser Z := fun data pos =>
  match data !! Z.to_nat pos with
  | Some b => Parsed b (pos + 1)
  | None => OutOfBounds
  end.

Definition read_pubkeys : Parser event_pubkeys :=
  num <== data_at ;;
  if num >? 64 then pthrow
  else b <== mem_read (33 * num) ;;
       pret (EventPubkeys num
               (overwrite (rows 33 (Z.to_nat num) b) (pk_pubkeys new_pubkeys))).

Definition read_notarized (_dest : list Z) (includeMoM : bool) : Parser event_notarized :=
  notarizedheight <== mem_read_i32 ;;
  blockhash <== mem_read 32 ;;
  desttxid <== mem_read 32 ;;
  if includeMoM then
    MoM <== mem_read 32 ;;
    MoMdepth <== mem_read_i32 ;;
    pret (EventNotarized blockhash desttxid MoM notarizedheight MoMdepth (copy_dest _dest))
  else pret (EventNotarized blockhash desttxid zero256 notarizedheight 0 (copy_dest _dest)).

Definition read_u : Parser event_u :=
  n <== mem_read_u8 ;;
  nid <== mem_read_u8 ;;
  mask <== mem_read 8 ;;
  hash <== mem_read 32 ;;
  pret (EventU n nid mask hash).

Definition read_kmdheight (includeTimestamp : bool) : Parser event_kmdheight :=
  kheight <== mem_read_i32 ;;
  if includeTimestamp then
    timestamp <== mem_read_u32 ;;
    pret (EventKmdheight kheight timestamp)
  else pret (EventKmdheight kheight 0).

(** The script is taken when the image has all of it, and left in place otherwise. *)
Definition take_opret (oplen : Z) : Parser (list Z) := fun data pos =>
  if oplen <=? Z.of_nat (length data) - pos
  then Parsed (take (Z.to_nat oplen) (drop (Z.to_nat pos) data)) (pos + oplen)
  else Parsed [] pos.

Definition read_opreturn : Parser event_opreturn :=
  txid <== mem_read 32 ;;
  vout <== mem_read_u16 ;;
  value <== mem_read_u64 ;;
  oplen <== mem_read_u16 ;;
  opret <== take_opret oplen ;;
  pret (EventOpreturn txid vout value opret).

(** Any other number of prices than 35 is stepped over. *)
Definition skip (n : Z) : Parser unit := fun _ pos => Parsed tt (pos + n).

Definition read_pricefeed : Parser event_pricefeed :=
  num <== mem_read_u8 ;;
  if num =? 35 then
    b <== mem_read (4 * num) ;;
    pret (EventPricefeed num (overwrite (map ReadLE32 (rows 4 (Z.to_nat num) b))
                                        (v_prices new_pricefeed)))
  else _ <== skip (num * 4) ;; pret (EventPricefeed num (v_prices new_pricefeed)).

(** ** Parsers over the file

    [fread] of [sz] bytes which throws when the file does not have them is [mem_read]; three
    constructors differ. *)

(** [fgetc]: the end of the file is -1, stored in a byte. *)
Definition fgetc_u8 : Parser Z := fun data pos =>
  match data !! Z.to_nat pos with
  | Some b => Parsed b (pos + 1)
  | None => Parsed 255 pos
  end.

(** [fread(pubkeys, 33, num, fp)]: nothing bounds [num] by the 64 rows of the array, and what
    the file has of a larger block is written behind it. *)
Definition left_in_file : Parser Z := fun data pos => Parsed (Z.of_nat (length data) - pos) pos.

Definition fread_pubkeys : Parser event_pubkeys :=
  num <== fgetc_u8 ;;
  left <== left_in_file ;;
  if (num >? 64) && (left >? 64 * 33) then pcrash
  else b <== mem_read (33 * num) ;;
  pret (EventPubkeys num (overwrite (rows 33 (Z.to_nat num) b) (pk_pubkeys new_pubkeys))).

Definition fread_opreturn : Parser event_opreturn :=
  txid <== mem_read 32 ;;
  vout <== mem_read_u16 ;;
  value <== mem_read_u64 ;;
  oplen <== mem_read_u16 ;;
  opret <== mem_read oplen ;;
  pret (EventOpreturn txid vout value opret).

(** Up to 35 prices are kept; a larger count is not even stepped over. *)
Definition fread_pricefeed : Parser event_pricefeed :=
  num <== fgetc_u8 ;;
  if num * 4 <=? 140 then
    b <== mem_read (4 * num) ;;
    pret (EventPricefeed num (overwrite (map ReadLE32 (rows 4 (Z.to_nat num) b))
                                        (v_prices new_pricefeed)))
  else pret (EventPricefeed num (v_prices new_pricefeed)).

(** ** One record

    The part of [komodo_parsestatefiledata] and [komodo_parsestatefile] that reads: the letter,
    the height, and the event for the letters that have one ([D] and [B] do not). *)
Definition parse_body (P : Parser event_pubkeys) (R : Parser event_opreturn)
    (V : Parser event_pricefeed) (dest : list Z) (func : Z) : Parser (option event_body) :=
  if func =? 80 (* P *) then e <== P ;; pret (Some (EVENT_PUBKEYS e))
  else if (func =? 78) || (func =? 77) (* N M *) then
    e <== read_notarized dest (func =? 77) ;; pret (Some (EVENT_NOTARIZED e))
  else if func =? 85 (* U *) then e <== read_u ;; pret (Some (EVENT_U e))
  else if (func =? 75) || (func =? 84) (* K T *) then
    e <== read_kmdheight (func =? 84) ;; pret (Some (EVENT_KMDHEIGHT e))
  else if func =? 82 (* R *) then e <== R ;; pret (Some (EVENT_OPRETURN e))
  else if func =? 68 (* D *) then pret None
  else if func =? 86 (* V *) then e <== V ;; pret (Some (EVENT_PRICEFEED e))
  else if func =? 66 (* B *) then pret None
  else pthrow.

Definition parse_record (P : Parser event_pubkeys) (R : Parser event_opreturn)
    (V : Parser event_pricefeed) (dest : list Z) : Parser (Z * Z * option event_body) :=
  func <== data_at ;;
  ht <== mem_read_i32 ;;
  b <== parse_body P R V dest func ;;
  pret (func, ht, b).

Definition parse_data_record := parse_record read_pubkeys read_opreturn read_pricefeed.
Definition parse_file_record := parse_record fread_pubkeys fread_opreturn fread_pricefeed.

(** ** The writer's integers are the little-endian bytes *)

Lemma byte_of_mask (x k : Z) : 0 <= k ->
  u8 (Z.shiftr (Z.land x (Z.shiftl 255 k)) k) = (x / 2 ^ k) mod 2 ^ 8.
Proof.
  intros Hk. rewrite Z.shiftr_land, Z.shiftr_shiftl_l, Z.sub_diag, Z.shiftl_0_r by lia.
  rewrite Z.shiftr_div_pow2 by lia. change 255 with (Z.ones 8). rewrite Z.land_ones by lia.
  unfold uwrap. apply Z.mod_mod. lia.
Qed.

Lemma le_digits_shift w n x k : 0 <= w -> 0 <= k ->
  to_le w (S n) (x / 2 ^ k) = (x / 2 ^ k) mod 2 ^ w :: to_le w n (x / 2 ^ (k + w)).
Proof. intros Hw Hk. cbn [to_le]. by rewrite Z.div_div, <- Z.pow_add_r by lia. Qed.

Lemma le_digits_all n x : to_le 8 n x = to_le 8 n (x / 2 ^ 0).
Proof. by rewrite Z.pow_0_r, Z.div_1_r. Qed.

Lemma serializable_int32_le x : serializable_int32 x = Serialize_int32 x.
Proof.
  unfold serializable_int32, Serialize_int32, ser_writedata32, WriteLE32.
  rewrite le_digits_all, !le_digits_shift by lia. cbn [to_le].
  by rewrite <- !(byte_of_mask x) by lia.
Qed.

Lemma serializable_uint16_le x : serializable_uint16 x = WriteLE16 x.
Proof.
  unfold serializable_uint16, WriteLE16.
  rewrite le_digits_all, !le_digits_shift by lia. cbn [to_le].
  by rewrite <- !(byte_of_mask x) by lia.
Qed.

Lemma serializable_uint64_le x : serializable_uint64 x = WriteLE64 x.
Proof.
  unfold serializable_uint64, WriteLE64.
  rewrite le_digits_all, !le_digits_shift by lia. cbn [to_le].
  by rewrite <- !(byte_of_mask x) by lia.
Qed.

(** ** Parsing what was written

    [reads p l a]: at the start of the bytes [l], wherever they are in the image, the parser [p]
    gives [a] and moves just past them. *)

Definition at_pos (data : list Z) (pos : Z) (rest : list Z) : Prop :=
  exists pre, data = pre ++ rest /\ pos = Z.of_nat (length pre).

Definition reads {A} (p : Parser A) (l : list Z) (a : A) : Prop :=
  forall data pos rest, at_pos data pos (l ++ rest) ->
    p data pos = Parsed a (pos + Z.of_nat (length l)).

Lemma at_pos_app data pos l rest :
  at_pos data pos (l ++ rest) -> at_pos data (pos + Z.of_nat (length l)) rest.
Proof.
  intros (pre & -> & ->). exists (pre ++ l). rewrite <- app_assoc, length_app. split; [done|lia].
Qed.

Lemma at_pos_drop data pos rest : at_pos data pos rest ->
  drop (Z.to_nat pos) data = rest /\ Z.of_nat (length data) = pos + Z.of_nat (length rest).
Proof.
  intros (pre & -> & ->). rewrite Nat2Z.id, drop_app_length, length_app. split; [done|lia].
Qed.

Lemma reads_ret {A} (a : A) : reads (pret a) [] a.
Proof. intros data pos rest _. unfold pret. cbn. by rewrite Z.add_0_r. Qed.

Lemma reads_bind {A B} (m : Parser A) (k : A -> Parser B) l1 l2 a b :
  reads m l1 a -> reads (k a) l2 b -> reads (pbind m k) (l1 ++ l2) b.
Proof.
  intros H1 H2 data pos rest Hat. rewrite <- app_assoc in Hat. unfold pbind.
  rewrite (H1 _ _ _ Hat), (H2 _ _ _ (at_pos_app _ _ _ _ Hat)), length_app. f_equal. lia.
Qed.

(** The last step of a parser. *)
Lemma reads_last {A B} (m : Parser A) (k : A -> Parser B) l a b :
  reads m l a -> reads (k a) [] b -> reads (pbind m k) l b.
Proof. intros H1 H2. rewrite <- (app_nil_r l). by eapply reads_bind. Qed.

Lemma reads_mem_read n l : Z.of_nat (length l) = n -> reads (mem_read n) l l.
Proof.
  intros <- data pos rest Hat. apply at_pos_drop in Hat as [Hd Hl]. unfold mem_read.
  rewrite Hd, Nat2Z.id, take_app_length. rewrite length_app in Hl.
  destruct (Z.leb_spec (pos + Z.of_nat (length l)) (Z.of_nat (length data))); [done|lia].
Qed.

Lemma reads_word {A} n l (f : list Z -> A) a : Z.of_nat (length l) = n -> f l = a ->
  reads (b <== mem_read n ;; pret (f b)) l a.
Proof. intros Hl <-. eapply reads_last; [by apply reads_mem_read | apply reads_ret]. Qed.

Lemma reads_i32 x : sint_wf 32 x -> reads mem_read_i32 (serializable_int32 x) x.
Proof.
  intros Hx. apply (reads_word 4 _ (fun b => i32 (ReadLE32 b))); [done|].
  rewrite serializable_int32_le. pose proof (codec_read (Codec := codec_int32) x [] Hx) as H.
  rewrite app_nil_r in H. unfold Unserialize_int32, ser_readdata32 in H.
  apply rbind_some in H as (y & s & Hy & [= <- _]). apply rbind_some in Hy as (b & s' & Hb & [= <- _]).
  apply read_bytes_inv in Hb as [E Hb]; [|lia]. assert (s' = []) as ->.
  { apply nil_length_inv. apply (f_equal length) in E. rewrite length_app in E.
    unfold Serialize_int32, ser_writedata32 in E. rewrite WriteLE32_length in E. lia. }
  by rewrite E, app_nil_r.
Qed.

Lemma reads_u8 x : uint_wf 8 x -> reads mem_read_u8 [u8 x] x.
Proof. intros Hx. apply (reads_word 1 _ (hd 0)); [done|]. by apply uwrap_small. Qed.

Lemma reads_u16 x : uint_wf 16 x -> reads mem_read_u16 (serializable_uint16 x) x.
Proof.
  intros Hx. apply (reads_word 2 _ ReadLE16); [done|]. rewrite serializable_uint16_le.
  rewrite <- (app_nil_r (WriteLE16 x)). by apply ReadLE16_WriteLE16.
Qed.

Lemma reads_u32 x : uint_wf 32 x -> reads mem_read_u32 (serializable_int32 x) x.
Proof.
  intros Hx. apply (reads_word 4 _ ReadLE32); [done|]. rewrite serializable_int32_le.
  rewrite <- (app_nil_r (Serialize_int32 x)). by apply ReadLE32_WriteLE32.
Qed.

Lemma reads_u64 x : uint_wf 64 x -> reads mem_read_u64 (serializable_uint64 x) x.
Proof.
  intros Hx. apply (reads_word 8 _ ReadLE64); [done|]. rewrite serializable_uint64_le.
  unfold ReadLE64, WriteLE64. rewrite take_ge by (by rewrite to_le_length).
  rewrite le_val_to_le by lia. by apply Z.mod_small.
Qed.

Lemma reads_data_at b : reads data_at [b] b.
Proof.
  intros data pos rest (pre & -> & ->). unfold data_at. rewrite Nat2Z.id.
  by rewrite lookup_app_r, Nat.sub_diag by lia.
Qed.

Lemma reads_fgetc b : reads fgetc_u8 [b] b.
Proof.
  intros data pos rest (pre & -> & ->). unfold fgetc_u8. rewrite Nat2Z.id.
  by rewrite lookup_app_r, Nat.sub_diag by lia.
Qed.

Lemma reads_left {B} (k : Z -> Parser B) l b :
  (forall n, reads (k n) l b) -> reads (pbind left_in_file k) l b.
Proof. intros H data pos rest Hat. unfold pbind, left_in_file. by eapply H. Qed.

Lemma rows_concat sz ls : Forall (fun r => length r = sz) ls -> rows sz (length ls) (concat ls) = ls.
Proof.
  induction 1 as [|r ls Hr _ IH]; cbn [rows length concat]; [done|].
  by rewrite take_app_length', drop_app_length', IH.
Qed.

Create HintDb parse.
#[export] Hint Resolve reads_i32 reads_u8 reads_u16 reads_u32 reads_u64 reads_data_at reads_fgetc
  reads_ret : parse.

(** ** Well-formed events: what fits the fields of the C++ structures *)

Definition hash_wf (h : list Z) : Prop := length h = 32%nat /\ bytes_ok h.

Definition body_wf (b : event_body) : Prop :=
  match b with
  | EVENT_PUBKEYS e => 0 <= pk_num e <= 64 /\ length (pk_pubkeys e) = 64%nat /\
      Forall (fun k => length k = 33%nat) (pk_pubkeys e)
  | EVENT_NOTARIZED e => hash_wf (n_blockhash e) /\ hash_wf (n_desttxid e) /\ hash_wf (n_MoM e) /\
      sint_wf 32 (n_notarizedheight e) /\ sint_wf 32 (n_MoMdepth e)
  | EVENT_U e => uint_wf 8 (u_n e) /\ uint_wf 8 (u_nid e) /\ length (u_mask e) = 8%nat /\
      length (u_hash e) = 32%nat
  | EVENT_KMDHEIGHT e => sint_wf 32 (k_kheight e) /\ uint_wf 32 (k_timestamp e)
  | EVENT_OPRETURN e => hash_wf (o_txid e) /\ uint_wf 16 (o_vout e) /\ uint_wf 64 (o_value e) /\
      Z.of_nat (length (o_opret e)) < 2 ^ 16
  | EVENT_PRICEFEED e => 0 <= v_num e <= 35 /\ length (v_prices e) = 35%nat /\
      Forall (uint_wf 32) (v_prices e)
  | EVENT_REWIND => True
  end.

Definition event_wf (e : event) : Prop := sint_wf 32 (ev_height e) /\ body_wf (ev_body e).

(** What a record leaves of an event: the notary keys beyond [num], a MoM without a depth (or a
    depth without a MoM) and the destination, which is the reader's, are not written; the
    rewind events are written and not read; the memory parser ([mem]) drops the prices when
    there are not 35 of them. *)
Definition stored (mem : bool) (dest : list Z) (b : event_body) : option event_body :=
  match b with
  | EVENT_PUBKEYS e => Some (EVENT_PUBKEYS (EventPubkeys (pk_num e)
      (overwrite (take (Z.to_nat (pk_num e)) (pk_pubkeys e)) (pk_pubkeys new_pubkeys))))
  | EVENT_NOTARIZED e => Some (EVENT_NOTARIZED (EventNotarized (n_blockhash e) (n_desttxid e)
      (if has_MoM e then n_MoM e else zero256) (n_notarizedheight e)
      (if has_MoM e then n_MoMdepth e else 0) (copy_dest dest)))
  | EVENT_PRICEFEED e => Some (EVENT_PRICEFEED (EventPricefeed (v_num e)
      (if mem && negb (v_num e =? 35) then v_prices new_pricefeed
       else overwrite (take (Z.to_nat (v_num e)) (v_prices e)) (v_prices new_pricefeed))))
  | EVENT_REWIND => None
  | b => Some b
  end.

(** ** Each constructor reads what its writer wrote *)

Lemma key_rows e : body_wf (EVENT_PUBKEYS e) ->
  let ks := take (Z.to_nat (pk_num e)) (pk_pubkeys e) in
  map (take 33) ks = ks /\ Forall (fun r => length r = 33%nat) ks /\ length ks = Z.to_nat (pk_num e).
Proof.
  intros (Hn & Hl & Hk) ks.
  assert (Forall (fun r => length r = 33%nat) ks) as Hks by (by apply Forall_take).
  split_and!; [|done|subst ks; rewrite length_take; lia].
  clear -Hks. induction Hks as [|k ks Hk _ IH]; cbn [map]; [done|]. by rewrite IH, take_ge by lia.
Qed.

Lemma length_concat_const {A} (ls : list (list A)) n : Forall (fun r => length r = n) ls ->
  length (concat ls) = (n * length ls)%nat.
Proof. induction 1 as [|r ls Hr _ IH]; cbn [concat length]; [lia|]. rewrite length_app. lia. Qed.

Lemma reads_key_block e : body_wf (EVENT_PUBKEYS e) ->
  reads (b <== mem_read (33 * pk_num e) ;;
         pret (EventPubkeys (pk_num e)
                 (overwrite (rows 33 (Z.to_nat (pk_num e)) b) (pk_pubkeys new_pubkeys))))
    (concat (map (take 33) (take (Z.to_nat (pk_num e)) (pk_pubkeys e))))
    (EventPubkeys (pk_num e)
       (overwrite (take (Z.to_nat (pk_num e)) (pk_pubkeys e)) (pk_pubkeys new_pubkeys))).
Proof.
  intros He. pose proof (key_rows e He) as (E & Hk & Hl). destruct He as (Hn & _).
  rewrite E. eapply reads_last.
  - apply reads_mem_read. rewrite (length_concat_const _ 33), Hl by done. lia.
  - rewrite <- Hl at 1. rewrite rows_concat by done. apply reads_ret.
Qed.

Lemma reads_read_pubkeys e : body_wf (EVENT_PUBKEYS e) ->
  reads read_pubkeys (write_pubkeys e)
    (EventPubkeys (pk_num e)
       (overwrite (take (Z.to_nat (pk_num e)) (pk_pubkeys e)) (pk_pubkeys new_pubkeys))).
Proof.
  intros He. pose proof He as ((Hn & Hn') & _). unfold write_pubkeys.
  rewrite uwrap_small by lia. apply (reads_bind _ _ [_]) with (a := pk_num e); [apply reads_data_at|].
  rewrite Z.gtb_ltb. destruct (Z.ltb_spec 64 (pk_num e)); [lia|]. by apply reads_key_block.
Qed.

Lemma reads_fread_pubkeys e : body_wf (EVENT_PUBKEYS e) ->
  reads fread_pubkeys (write_pubkeys e)
    (EventPubkeys (pk_num e)
       (overwrite (take (Z.to_nat (pk_num e)) (pk_pubkeys e)) (pk_pubkeys new_pubkeys))).
Proof.
  intros He. pose proof He as ((Hn & Hn') & _). unfold write_pubkeys.
  rewrite uwrap_small by lia. apply (reads_bind _ _ [_]) with (a := pk_num e); [apply reads_fgetc|].
  apply reads_left. intros left. rewrite (Z.gtb_ltb (pk_num e)).
  destruct (Z.ltb_spec 64 (pk_num e)); [lia|]. by apply reads_key_block.
Qed.

Lemma reads_read_notarized e dest : body_wf (EVENT_NOTARIZED e) ->
  reads (read_notarized dest (has_MoM e)) (write_notarized e)
    (EventNotarized (n_blockhash e) (n_desttxid e) (if has_MoM e then n_MoM e else zero256)
       (n_notarizedheight e) (if has_MoM e then n_MoMdepth e else 0) (copy_dest dest)).
Proof.
  intros ([Hb _] & [Ht _] & [HM _] & Hh & Hd). unfold write_notarized, read_notarized, Serialize_blob.
  eapply reads_bind; [by apply reads_i32|]. eapply reads_bind; [apply reads_mem_read; lia|].
  eapply reads_bind; [apply reads_mem_read; lia|]. destruct (has_MoM e); [|apply reads_ret].
  eapply reads_bind; [apply reads_mem_read; lia|]. eapply reads_last; [by apply reads_i32|].
  apply reads_ret.
Qed.

Lemma reads_read_u e : body_wf (EVENT_U e) -> reads read_u (write_u e) e.
Proof.
  intros (Hn & Hi & Hm & Hh). unfold write_u, read_u.
  apply (reads_bind _ _ [_]) with (a := u_n e); [by apply reads_u8|].
  apply (reads_bind _ _ [_]) with (a := u_nid e); [by apply reads_u8|].
  rewrite !take_ge by lia. eapply reads_bind; [apply reads_mem_read; lia|].
  eapply reads_last; [apply reads_mem_read; lia|]. destruct e. apply reads_ret.
Qed.

Lemma reads_read_kmdheight e : body_wf (EVENT_KMDHEIGHT e) ->
  reads (read_kmdheight (negb (k_timestamp e =? 0))) (write_kmdheight e) e.
Proof.
  intros (Hk & Ht). unfold write_kmdheight, read_kmdheight. unfold uint_wf in Ht.
  rewrite Z.gtb_ltb. eapply reads_bind; [by apply reads_i32|].
  destruct (Z.eqb_spec (k_timestamp e) 0) as [E|E]; destruct (Z.ltb_spec 0 (k_timestamp e));
    try lia; cbn [negb].
  - destruct e; cbn in *; subst. apply reads_ret.
  - eapply reads_last; [by apply reads_u32|]. destruct e. apply reads_ret.
Qed.

Lemma reads_take_opret n l : Z.of_nat (length l) = n -> reads (take_opret n) l l.
Proof.
  intros <- data pos rest Hat. apply at_pos_drop in Hat as [Hd Hl]. unfold take_opret.
  rewrite Hd, Nat2Z.id, take_app_length. rewrite length_app in Hl.
  destruct (Z.leb_spec (Z.of_nat (length l)) (Z.of_nat (length data) - pos)); [done|lia].
Qed.

Lemma reads_opret (rd : Z -> Parser (list Z)) e : body_wf (EVENT_OPRETURN e) ->
  (forall n l, Z.of_nat (length l) = n -> reads (rd n) l l) ->
  reads (txid <== mem_read 32 ;; vout <== mem_read_u16 ;; value <== mem_read_u64 ;;
         oplen <== mem_read_u16 ;; opret <== rd oplen ;;
         pret (EventOpreturn txid vout value opret)) (write_opreturn e) e.
Proof.
  intros ([Ht _] & Hv & Hval & Ho) Hrd. unfold write_opreturn, Serialize_blob.
  eapply reads_bind; [apply reads_mem_read; lia|]. eapply reads_bind; [by apply reads_u16|].
  eapply reads_bind; [by apply reads_u64|]. eapply reads_bind; [apply reads_u16; unfold uint_wf; lia|].
  eapply reads_last; [by apply Hrd|]. destruct e. apply reads_ret.
Qed.

Lemma price_rows l : Forall (uint_wf 32) l ->
  map ReadLE32 (rows 4 (length l) (concat (map WriteLE32 l))) = l.
Proof.
  intros Hl. rewrite <- (length_map WriteLE32) at 1. rewrite rows_concat.
  - rewrite map_map. induction Hl as [|x l Hx _ IH]; cbn [map]; [done|].
    rewrite IH. f_equal. rewrite <- (app_nil_r (WriteLE32 x)). by apply ReadLE32_WriteLE32.
  - apply list.Forall_forall. intros r Hr. apply list_elem_of_fmap in Hr as (x & -> & _).
    by apply WriteLE32_length.
Qed.

Lemma reads_price_block e : body_wf (EVENT_PRICEFEED e) ->
  reads (b <== mem_read (4 * v_num e) ;;
         pret (EventPricefeed (v_num e)
                 (overwrite (map ReadLE32 (rows 4 (Z.to_nat (v_num e)) b)) (v_prices new_pricefeed))))
    (concat (map WriteLE32 (take (Z.to_nat (v_num e)) (v_prices e))))
    (EventPricefeed (v_num e)
       (overwrite (take (Z.to_nat (v_num e)) (v_prices e)) (v_prices new_pricefeed))).
Proof.
  intros (Hn & Hl & Hp). eapply (Forall_take _ (Z.to_nat (v_num e))) in Hp.
  assert (length (take (Z.to_nat (v_num e)) (v_prices e)) = Z.to_nat (v_num e)) as Hlen
    by (rewrite length_take; lia).
  eapply reads_last.
  - apply reads_mem_read. rewrite (length_concat_const _ 4), length_map, Hlen; [lia|].
    apply list.Forall_forall. intros r Hr. apply list_elem_of_fmap in Hr as (x & -> & _).
    by apply WriteLE32_length.
  - rewrite <- Hlen at 1. rewrite price_rows by done. apply reads_ret.
Qed.

Lemma reads_skip n l : Z.of_nat (length l) = n -> reads (skip n) l tt.
Proof. by intros <- data pos rest _. Qed.

Lemma reads_read_pricefeed e : body_wf (EVENT_PRICEFEED e) ->
  reads read_pricefeed (write_pricefeed e)
    (EventPricefeed (v_num e)
       (if true && negb (v_num e =? 35) then v_prices new_pricefeed
        else overwrite (take (Z.to_nat (v_num e)) (v_prices e)) (v_prices new_pricefeed))).
Proof.
  intros He. pose proof He as (Hn & Hl & Hp). unfold write_pricefeed.
  apply (reads_bind _ _ [_]) with (a := v_num e); [apply reads_u8; unfold uint_wf; lia|].
  destruct (Z.eqb_spec (v_num e) 35); cbn [negb andb]; [by apply reads_price_block|].
  eapply reads_last; [|apply reads_ret]. apply reads_skip.
  rewrite (length_concat_const _ 4), length_map, length_take; [lia|].
  apply list.Forall_forall. intros r Hr. apply list_elem_of_fmap in Hr as (x & -> & _).
  by apply WriteLE32_length.
Qed.

Lemma reads_fread_pricefeed e : body_wf (EVENT_PRICEFEED e) ->
  reads fread_pricefeed (write_pricefeed e)
    (EventPricefeed (v_num e)
       (if false && negb (v_num e =? 35) then v_prices new_pricefeed
        else overwrite (take (Z.to_nat (v_num e)) (v_prices e)) (v_prices new_pricefeed))).
Proof.
  intros He. pose proof He as ((Hn & Hn') & Hl & Hp). unfold write_pricefeed.
  rewrite uwrap_small by lia. apply (reads_bind _ _ [_]) with (a := v_num e); [apply reads_fgetc|].
  destruct (Z.leb_spec (v_num e * 4) 140); [by apply reads_price_block|lia].
Qed.

Lemma reads_body mem P R V dest b : body_wf b ->
  (forall e, b = EVENT_PUBKEYS e -> reads P (write_pubkeys e)
     (EventPubkeys (pk_num e)
       (overwrite (take (Z.to_nat (pk_num e)) (pk_pubkeys e)) (pk_pubkeys new_pubkeys)))) ->
  (forall e, b = EVENT_OPRETURN e -> reads R (write_opreturn e) e) ->
  (forall e, b = EVENT_PRICEFEED e -> reads V (write_pricefeed e)
     (EventPricefeed (v_num e)
       (if mem && negb (v_num e =? 35) then v_prices new_pricefeed
        else overwrite (take (Z.to_nat (v_num e)) (v_prices e)) (v_prices new_pricefeed)))) ->
  reads (parse_body P R V dest (event_letter b))
    match b with
    | EVENT_PUBKEYS b => write_pubkeys b
    | EVENT_NOTARIZED b => write_notarized b
    | EVENT_U b => write_u b
    | EVENT_KMDHEIGHT b => write_kmdheight b
    | EVENT_OPRETURN b => write_opreturn b
    | EVENT_PRICEFEED b => write_pricefeed b
    | EVENT_REWIND => []
    end (stored mem dest b).
Proof.
  intros Hb HP HR HV. destruct b as [e|e|e|e|e|e|]; cbn [event_letter stored].
  - eapply reads_last; [by apply HP | apply reads_ret].
  - pose proof (reads_read_notarized e dest Hb) as H.
    destruct (has_MoM e); (eapply reads_last; [exact H | apply reads_ret]).
  - eapply reads_last; [by apply reads_read_u | apply reads_ret].
  - pose proof (reads_read_kmdheight e Hb) as H.
    destruct (k_timestamp e =? 0); (eapply reads_last; [exact H | apply reads_ret]).
  - eapply reads_last; [by apply HR | apply reads_ret].
  - eapply reads_last; [by apply HV | apply reads_ret].
  - apply reads_ret.
Qed.

Lemma reads_record mem P R V dest e : event_wf e ->
  reads (parse_body P R V dest (event_letter (ev_body e)))
    (drop 5 (write_event e)) (stored mem dest (ev_body e)) ->
  reads (parse_record P R V dest) (write_event e)
    (event_letter (ev_body e), ev_height e, stored mem dest (ev_body e)).
Proof.
  intros [Hh Hb] H. unfold write_event, write_header in *.
  apply (reads_bind _ _ [_]) with (a := event_letter (ev_body e)); [apply reads_data_at|].
  eapply reads_bind; [by apply reads_i32|]. eapply reads_last; [exact H | apply reads_ret].
Qed.

Lemma reads_data_record dest e : event_wf e ->
  reads (parse_data_record dest) (write_event e)
    (event_letter (ev_body e), ev_height e, stored true dest (ev_body e)).
Proof.
  intros [Hh Hb]. apply reads_record; [done|]. unfold write_event, write_header. cbn [app drop].
  apply reads_body; [done| | |]; intros b E; rewrite E in Hb.
  - by apply reads_read_pubkeys.
  - apply reads_opret; [done|]. apply reads_take_opret.
  - by apply reads_read_pricefeed.
Qed.

Lemma reads_file_record dest e : event_wf e ->
  reads (parse_file_record dest) (write_event e)
    (event_letter (ev_body e), ev_height e, stored false dest (ev_body e)).
Proof.
  intros [Hh Hb]. apply reads_record; [done|]. unfold write_event, write_header. cbn [app drop].
  apply reads_body; [done| | |]; intros b E; rewrite E in Hb.
  - by apply reads_fread_pubkeys.
  - apply reads_opret; [done|]. apply reads_mem_read.
  - by apply reads_fread_pricefeed.
Qed.

(** [C29] An event written to the state file is read back, wherever it stands in the file: the
    memory parser and the file parser give the letter and the height of the record and the event
    up to the fields the record does not hold ([stored]), and end just past it.  For every event
    but a price feed of fewer than 35 prices the two parsers agree. *)
Theorem state_record_round_trip dest e pre rest : event_wf e ->
  let data := pre ++ write_event e ++ rest in
  let pos := Z.of_nat (length pre) in
  let next := Z.of_nat (length (pre ++ write_event e)) in
  let head := (event_letter (ev_body e), ev_height e) in
  parse_data_record dest data pos = Parsed (head, stored true dest (ev_body e)) next /\
  parse_file_record dest data pos = Parsed (head, stored false dest (ev_body e)) next /\
  ((forall v, ev_body e = EVENT_PRICEFEED v -> v_num v = 35) ->
   parse_data_record dest data pos = parse_file_record dest data pos).
Proof.
  intros He data pos next head.
  assert (at_pos data pos (write_event e ++ rest)) as Hat by (by exists pre).
  assert (pos + Z.of_nat (length (write_event e)) = next) as Hn
    by (unfold pos, next; rewrite length_app; lia).
  assert (parse_data_record dest data pos = Parsed (head, stored true dest (ev_body e)) next) as E1
    by (rewrite <- Hn; by apply (reads_data_record dest e He _ _ rest)).
  assert (parse_file_record dest data pos = Parsed (head, stored false dest (ev_body e)) next) as E2
    by (rewrite <- Hn; by apply (reads_file_record dest e He _ _ rest)).
  split; [done|]. split; [done|]. intros Hv. rewrite E1, E2. do 2 f_equal.
  destruct (ev_body e) as [| | | | |v|]; try done. cbn [stored]. by rewrite (Hv v eq_refl).
Qed.

Abbreviation sample_notarized :=
  (Event 1000 (EVENT_NOTARIZED (EventNotarized (replicate 32 7) (replicate 32 9) (replicate 32 3)
     990 2 [75; 77; 68]))).

Lemma state_record_round_trip_witness :
  event_wf sample_notarized /\
  parse_data_record [75; 77; 68] ([66; 1; 0; 0; 0] ++ write_event sample_notarized ++ [75]) 5 =
    Parsed (77, 1000, Some (ev_body sample_notarized)) 114.
Proof.
  assert (event_wf sample_notarized) as H.
  { vm_compute. repeat split; try discriminate; repeat constructor; discriminate. }
  split; [exact H|].
  destruct (state_record_round_trip [75; 77; 68] sample_notarized [66; 1; 0; 0; 0] [75] H) as [E _].
  exact E.
Defined.

(** ** Accesses outside an array *)

Definition safe {A} (p : Parser A) : Prop := forall data pos, p data pos <> OutOfBounds.

Lemma safe_bind {A B} (m : Parser A) (k : A -> Parser B) :
  safe m -> (forall a, safe (k a)) -> safe (pbind m k).
Proof.
  intros Hm Hk data pos. unfold pbind. specialize (Hm data pos).
  destruct (m data pos); [apply Hk|done|done].
Qed.

Lemma safe_ret {A} (a : A) : safe (pret a).
Proof. done. Qed.
Lemma safe_throw {A} : safe (@pthrow A).
Proof. done. Qed.
Lemma safe_mem_read n : safe (mem_read n).
Proof. intros data pos. unfold mem_read. by case_match. Qed.
Lemma safe_skip n : safe (skip n).
Proof. done. Qed.
Lemma safe_take_opret n : safe (take_opret n).
Proof. intros data pos. unfold take_opret. by case_match. Qed.
Lemma safe_fgetc : safe fgetc_u8.
Proof. intros data pos. unfold fgetc_u8. by case_match. Qed.

Create HintDb safe_parser.
#[export] Hint Resolve safe_ret safe_throw safe_mem_read safe_skip safe_take_opret safe_fgetc
  : safe_parser.

(** Every constructor that only uses the checked reads is safe. *)
Ltac safe_step :=
  repeat (match goal with
          | |- safe (pbind _ _) => apply safe_bind; [|intros ?]
          | |- safe (if ?b then _ else _) => destruct b
          | |- forall _, _ => intros ?
          end; auto with safe_parser).

Lemma safe_body P R V dest func : (func = 80 -> safe P) -> safe R -> safe V ->
  safe (parse_body P R V dest func).
Proof.
  intros HP HR HV. unfold parse_body. destruct (Z.eqb_spec func 80) as [E|E].
  { apply safe_bind; auto with safe_parser. }
  unfold read_notarized, read_u, read_kmdheight, mem_read_i32, mem_read_u32, mem_read_u8.
  safe_step.
Qed.

Lemma safe_read_opreturn : safe read_opreturn.
Proof. unfold read_opreturn, mem_read_u16, mem_read_u64. safe_step. Qed.
Lemma safe_fread_opreturn : safe fread_opreturn.
Proof. unfold fread_opreturn, mem_read_u16, mem_read_u64. safe_step. Qed.
Lemma safe_read_pricefeed : safe read_pricefeed.
Proof. unfold read_pricefeed, mem_read_u8. safe_step. Qed.
Lemma safe_fread_pricefeed : safe fread_pricefeed.
Proof. unfold fread_pricefeed. safe_step. Qed.

(** A record leaves the bounds exactly when it has its five bytes of header, the letter [P], and
    its constructor leaves them. *)
Lemma record_out_of_bounds P R V dest data pos : safe R -> safe V ->
  0 <= pos < Z.of_nat (length data) ->
  (parse_record P R V dest data pos = OutOfBounds <->
   data !! Z.to_nat pos = Some 80 /\ pos + 5 <= Z.of_nat (length data) /\
   P data (pos + 5) = OutOfBounds).
Proof.
  intros HR HV Hpos. unfold parse_record.
  unfold pbind at 1. unfold data_at at 1.
  destruct (lookup_lt_is_Some_2 data (Z.to_nat pos)) as [b Hb]; [lia|]. rewrite Hb.
  unfold mem_read_i32, pbind at 1. unfold pbind at 1. unfold mem_read.
  destruct (Z.leb_spec (pos + 1 + 4) (Z.of_nat (length data))).
  2: { split; [done|]. intros (_ & ? & _). lia. }
  unfold pret at 1. replace (pos + 1 + 4) with (pos + 5) by lia.
  destruct (Z.eqb_spec b 80) as [->|E].
  - unfold parse_body. cbn [Z.eqb Pos.eqb]. unfold pbind. split.
    + intros HE. split_and!; [done|lia|]. by destruct (P data (pos + 5)).
    + intros (_ & _ & ->). done.
  - split; [|intros ([= ->] & _); done]. intros HE. exfalso. revert HE.
    apply (safe_bind (parse_body P R V dest b)); [|intros ?; apply safe_ret].
    by apply safe_body.
Qed.

Lemma read_pubkeys_out_of_bounds data pos : 0 <= pos ->
  (read_pubkeys data pos = OutOfBounds <-> Z.of_nat (length data) <= pos).
Proof.
  intros Hpos. unfold read_pubkeys, pbind at 1, data_at.
  destruct (data !! Z.to_nat pos) as [num|] eqn:E.
  - apply lookup_lt_Some in E. split; [|lia]. intros H. exfalso. revert H.
    apply (fun p => p : safe _). safe_step.
  - apply lookup_ge_None in E. split; [lia|done].
Qed.

Lemma fread_pubkeys_out_of_bounds data pos : 0 <= pos ->
  (fread_pubkeys data pos = OutOfBounds <->
   exists num, data !! Z.to_nat pos = Some num /\ 64 < num /\ pos + 1 + 64 * 33 < Z.of_nat (length data)).
Proof.
  intros Hpos. unfold fread_pubkeys, pbind at 1, fgetc_u8.
  assert (forall num p, (left <== left_in_file ;;
    (if (num >? 64) && (left >? 64 * 33) then pcrash
     else b <== mem_read (33 * num) ;; pret (EventPubkeys num
       (overwrite (rows 33 (Z.to_nat num) b) (pk_pubkeys new_pubkeys))))) data p = OutOfBounds <->
    64 < num /\ p + 64 * 33 < Z.of_nat (length data)) as H.
  { intros num p. unfold pbind at 1, left_in_file. rewrite !Z.gtb_ltb.
    destruct (Z.ltb_spec 64 num); destruct (Z.ltb_spec (64 * 33) (Z.of_nat (length data) - p));
      cbn [andb].
    1: split; [lia|done].
    all: split; [|lia]; intros HE; exfalso; revert HE; apply (fun p => p : safe _); safe_step. }
  destruct (data !! Z.to_nat pos) as [num|] eqn:E; rewrite H.
  - split; [intros []; eauto|]. intros (n & [= ->] & ?). done.
  - apply lookup_ge_None in E. split; [intros []; lia|]. intros (n & ? & _). done.
Qed.

(** The memory parser stays inside the image it was given except in one case: a record [P]
    whose header is the end of the image, where the number of keys is read one byte behind it.
    The file parser stays inside the array of keys except when the number of keys is above its
    64 rows and the file has more than the 64 rows left. *)
Theorem state_record_bounds dest data pos : 0 <= pos < Z.of_nat (length data) ->
  (parse_data_record dest data pos = OutOfBounds <->
   data !! Z.to_nat pos = Some 80 /\ Z.of_nat (length data) = pos + 5) /\
  (parse_file_record dest data pos = OutOfBounds <->
   data !! Z.to_nat pos = Some 80 /\ exists num, data !! Z.to_nat (pos + 5) = Some num /\
   64 < num /\ pos + 6 + 64 * 33 < Z.of_nat (length data)).
Proof.
  intros Hpos. unfold parse_data_record, parse_file_record. rewrite !record_out_of_bounds
    by auto using safe_read_opreturn, safe_read_pricefeed, safe_fread_opreturn, safe_fread_pricefeed.
  rewrite read_pubkeys_out_of_bounds, fread_pubkeys_out_of_bounds by lia. split.
  - split; intros (? & ?); split; [done|lia|done|lia].
  - split.
    + intros (? & ? & n & ? & ? & ?). split; [done|]. exists n. split_and!; [done|done|lia].
    + intros (? & n & Hn & ? & ?). split; [done|]. split; [lia|]. exists n. split_and!; [done|done|lia].
Qed.

Lemma state_record_bounds_witness :
  parse_data_record [] [66; 80; 1; 0; 0; 0] 1 = OutOfBounds /\
  parse_data_record [] [66; 80; 1; 0; 0; 0; 65] 1 = ParseError.
Proof.
  destruct (state_record_bounds [] [66; 80; 1; 0; 0; 0] 1) as [[_ H] _]; [vm_compute; split; congruence|].
  split; [apply H; split; reflexivity | reflexivity].
Defined.

(** ** Parsers move forward *)

(** From an image of bytes, [p] moves forward and its value satisfies [Q]. *)
Definition post {A} (p : Parser A) (Q : A -> Prop) : Prop := forall data pos a pos',
  bytes_ok data -> 0 <= pos -> p data pos = Parsed a pos' -> pos <= pos' /\ Q a.

Lemma post_bind {A B} (m : Parser A) (k : A -> Parser B) Q R :
  post m Q -> (forall a, Q a -> post (k a) R) -> post (pbind m k) R.
Proof.
  intros Hm Hk data pos b pos' Hd Hp. unfold pbind. destruct (m data pos) as [a p1| |] eqn:E; [|done|done].
  destruct (Hm _ _ _ _ Hd Hp E) as [H1 Ha]. intros E2.
  destruct (Hk a Ha data p1 b pos' Hd ltac:(lia) E2). split; [lia|done].
Qed.

Lemma post_any {A} (p : Parser A) Q : post p Q -> post p (fun _ => True).
Proof. intros H data pos a pos' Hd Hp E. by destruct (H _ _ _ _ Hd Hp E). Qed.

Lemma post_ret {A} (a : A) : post (pret a) (fun _ => True).
Proof. intros data pos b pos' _ _ [= _ <-]. split; [lia|done]. Qed.
Lemma post_throw {A} Q : post (@pthrow A) Q.
Proof. done. Qed.
Lemma post_crash {A} Q : post (@pcrash A) Q.
Proof. done. Qed.

Lemma post_mem_read n : 0 <= n -> post (mem_read n) bytes_ok.
Proof.
  intros Hn data pos a pos' Hd Hp. unfold mem_read. case_match; [|done]. intros [= <- <-].
  split; [lia|]. by apply Forall_take, Forall_drop.
Qed.

Lemma post_word {A} n (f : list Z -> A) : 0 <= n -> post (b <== mem_read n ;; pret (f b)) (fun _ => True).
Proof. intros Hn. eapply post_bind; [by apply post_mem_read|]. intros b _. apply post_ret. Qed.

Lemma byte_lookup data i b : bytes_ok data -> data !! i = Some b -> is_byte b.
Proof. intros Hd Hb. by apply (Forall_lookup_1 _ _ _ _ Hd Hb). Qed.

Lemma post_data_at : post data_at is_byte.
Proof.
  intros data pos a pos' Hd Hp. unfold data_at. destruct (data !! Z.to_nat pos) eqn:E; [|done].
  intros [= <- <-]. split; [lia|]. by eapply byte_lookup.
Qed.

Lemma post_fgetc : post fgetc_u8 is_byte.
Proof.
  intros data pos a pos' Hd Hp. unfold fgetc_u8. destruct (data !! Z.to_nat pos) eqn:E.
  - intros [= <- <-]. split; [lia|]. by eapply byte_lookup.
  - intros [= <- <-]. split; [lia|]. unfold is_byte. lia.
Qed.

Lemma post_u8 : post mem_read_u8 is_byte.
Proof.
  eapply post_bind; [by apply post_mem_read|]. intros b Hb data pos a pos' _ _ [= <- <-].
  split; [lia|]. destruct b as [|x b]; [unfold is_byte; cbn; lia|]. by inversion Hb.
Qed.

Lemma post_oplen : post mem_read_u16 (fun n => 0 <= n).
Proof.
  eapply post_bind; [by apply post_mem_read|]. intros b Hb data pos a pos' _ _ [= <- <-].
  split; [lia|]. unfold ReadLE16. eapply (Forall_take _ 2) in Hb.
  pose proof (le_val_bound 8 (take 2 b) ltac:(lia) Hb). lia.
Qed.

Lemma post_skip n : 0 <= n -> post (skip n) (fun _ => True).
Proof. intros Hn data pos a pos' _ _ [= _ <-]. split; [lia|done]. Qed.

Lemma post_take_opret n : 0 <= n -> post (take_opret n) (fun _ => True).
Proof. intros Hn data pos a pos' _ _. unfold take_opret. case_match; intros [= _ <-]; split; (lia || done). Qed.

Lemma post_left : post left_in_file (fun _ => True).
Proof. intros data pos a pos' _ _ [= _ <-]. split; [lia|done]. Qed.

#[export] Hint Resolve post_ret post_throw post_crash post_left : parse.

(** Step through a parser of checked reads. *)
Ltac post_step :=
  repeat (match goal with
          | |- post (pbind _ _) _ => eapply post_bind; [|intros ? ?]
          | |- post (if ?b then _ else _) _ => destruct b
          | |- post (mem_read _) _ => apply post_mem_read; lia
          | |- post (pret _) _ => apply post_ret
          end; auto with parse).

Lemma post_body P R V dest func :
  post P (fun _ => True) -> post R (fun _ => True) -> post V (fun _ => True) ->
  post (parse_body P R V dest func) (fun _ => True).
Proof.
  intros HP HR HV.
  unfold parse_body, read_notarized, read_u, read_kmdheight, mem_read_i32, mem_read_u32, mem_read_u8.
  post_step; eassumption.
Qed.

Lemma post_keys num : 0 <= num -> post (b <== mem_read (33 * num) ;;
  pret (EventPubkeys num (overwrite (rows 33 (Z.to_nat num) b) (pk_pubkeys new_pubkeys)))) (fun _ => True).
Proof. intros Hn. apply post_word. lia. Qed.

Lemma post_prices num : 0 <= num -> post (b <== mem_read (4 * num) ;;
  pret (EventPricefeed num (overwrite (map ReadLE32 (rows 4 (Z.to_nat num) b)) (v_prices new_pricefeed))))
  (fun _ => True).
Proof. intros Hn. apply post_word. lia. Qed.

Lemma post_record P R V dest data pos r pos' :
  post P (fun _ => True) -> post R (fun _ => True) -> post V (fun _ => True) ->
  bytes_ok data -> 0 <= pos -> parse_record P R V dest data pos = Parsed r pos' ->
  is_byte (fst (fst r)) /\ pos + 5 <= pos'.
Proof.
  intros HP HR HV Hd Hp. unfold parse_record.
  unfold pbind at 1. destruct (data_at data pos) as [func p1| |] eqn:E1; [|done|done].
  assert (p1 = pos + 1 /\ is_byte func) as [-> Hf].
  { split; [|by apply (post_data_at data pos func p1)]. unfold data_at in E1. by case_match; simplify_eq. }
  unfold pbind at 1. destruct (mem_read_i32 data (pos + 1)) as [ht p2| |] eqn:E2; [|done|done].
  assert (p2 = pos + 5) as ->.
  { unfold mem_read_i32, pbind, mem_read, pret in E2.
    destruct (pos + 1 + 4 <=? Z.of_nat (length data)); [|done]. injection E2 as _ <-. lia. }
  unfold pbind. destruct (parse_body P R V dest func data (pos + 5)) as [b p3| |] eqn:E3; [|done|done].
  intros [= <- <-]. split; [done|]. by apply (post_body P R V dest func HP HR HV data (pos + 5) b p3 Hd ltac:(lia)).
Qed.

Lemma parse_data_record_forward dest data pos r pos' : bytes_ok data -> 0 <= pos ->
  parse_data_record dest data pos = Parsed r pos' -> is_byte (fst (fst r)) /\ pos + 5 <= pos'.
Proof.
  apply post_record.
  - unfold read_pubkeys. eapply post_bind; [apply post_data_at|]. intros num [Hn _].
    destruct (num >? 64); [apply post_throw|by apply post_keys].
  - unfold read_opreturn, mem_read_u64.
    eapply post_bind; [by apply post_mem_read|]. intros txid _.
    eapply post_bind; [apply post_oplen|]. intros vout _.
    eapply post_bind; [by apply post_word|]. intros value _.
    eapply post_bind; [apply post_oplen|]. intros oplen Ho.
    eapply post_bind; [by apply post_take_opret|]. intros opret _. apply post_ret.
  - unfold read_pricefeed. eapply post_bind; [apply post_u8|]. intros num [Hn _].
    destruct (num =? 35); [by apply post_prices|].
    eapply post_bind; [apply post_skip; lia|]. intros _ _. apply post_ret.
Qed.

Lemma parse_file_record_forward dest data pos r pos' : bytes_ok data -> 0 <= pos ->
  parse_file_record dest data pos = Parsed r pos' -> is_byte (fst (fst r)) /\ pos + 5 <= pos'.
Proof.
  apply post_record.
  - unfold fread_pubkeys. eapply post_bind; [apply post_fgetc|]. intros num [Hn _].
    eapply post_bind; [apply post_left|]. intros left _.
    destruct ((num >? 64) && _); [apply post_crash|by apply post_keys].
  - unfold fread_opreturn, mem_read_u64.
    eapply post_bind; [by apply post_mem_read|]. intros txid _.
    eapply post_bind; [apply post_oplen|]. intros vout _.
    eapply post_bind; [by apply post_word|]. intros value _.
    eapply post_bind; [apply post_oplen|]. intros oplen Ho.
    eapply post_bind; [by apply post_mem_read|]. intros opret _. apply post_ret.
  - unfold fread_pricefeed. eapply post_bind; [apply post_fgetc|]. intros num [Hn _].
    destruct (num * 4 <=? 140); [by apply post_prices|]. apply post_ret.
Qed.
