(* ===== verification/Checkpoints.v ===== *)
(** * Checkpoints: the notarised checkpoints of [komodo_state]
    [src/src/komodo_structs.h] and [komodo_structs.cpp]: the record [notarized_checkpoint], the
    part of [komodo_state] that holds the checkpoints ([NPOINTS], the cached position
    [NPOINTS_last_index], [last]) and its methods, with the wrappers of
    [src/src/komodo_notary.cpp] that other code calls. *)
From stdpp Require Import relations.
From S2P Require Import Prelude Uint256 Chain KomodoEvents.

(** ** Data *)

Record notarized_checkpoint := Checkpoint {
  notarized_hash : list Z; notarized_desttxid : list Z; MoM : list Z; MoMoM : list Z;
  nHeight : Z; notarized_height : Z; MoMdepth : Z; MoMoMdepth : Z; MoMoMoffset : Z;
  kmdstarti : Z; kmdendi : Z
}.

Definition empty_checkpoint : notarized_checkpoint :=
  Checkpoint zero256 zero256 zero256 zero256 0 0 0 0 0 0 0.

#[export] Instance notarized_checkpoint_eq_dec : EqDecision notarized_checkpoint.
Proof. solve_decision. Defined.

(** The fields of [komodo_state] its code uses. *)
Record komodo_state := KomodoState {
  SAVEDHEIGHT : Z; CURRENT_HEIGHT : Z; SAVEDTIMESTAMP : Z;
  events : list event;
  NPOINTS : list notarized_checkpoint; NPOINTS_last_index : nat; last : notarized_checkpoint
}.

Definition new_komodo_state : komodo_state := KomodoState 0 0 0 [] [] 0 empty_checkpoint.

Definition set_points (sp : komodo_state) (pts : list notarized_checkpoint) (idx : nat)
    (l : notarized_checkpoint) : komodo_state :=
  KomodoState (SAVEDHEIGHT sp) (CURRENT_HEIGHT sp) (SAVEDTIMESTAMP sp) (events sp) pts idx l.

(** [operator==] *)
Definition checkpoint_eq (lhs rhs : notarized_checkpoint) : bool :=
  if negb (bool_decide (notarized_hash lhs = notarized_hash rhs))
     || negb (bool_decide (notarized_desttxid lhs = notarized_desttxid rhs))
     || negb (bool_decide (MoM lhs = MoM rhs))
     || negb (bool_decide (MoMoM lhs = MoMoM rhs))
     || negb (nHeight lhs =? nHeight rhs)
     || negb (notarized_height lhs =? notarized_height rhs)
     || negb (MoMdepth lhs =? MoMdepth rhs)
     || negb (MoMoMdepth lhs =? MoMoMdepth rhs)
     || negb (MoMoMoffset lhs =? MoMoMoffset rhs)
     || negb (kmdstarti lhs =? kmdstarti rhs)
     || negb (kmdendi lhs =? kmdendi rhs)
  then false else true.

(** ** Setters of the last notarisation *)

Definition set_last (sp : komodo_state) (l : notarized_checkpoint) : komodo_state :=
  set_points sp (NPOINTS sp) (NPOINTS_last_index sp) l.

Definition with_hash (h : list Z) (c : notarized_checkpoint) : notarized_checkpoint :=
  Checkpoint h (notarized_desttxid c) (MoM c) (MoMoM c) (nHeight c) (notarized_height c)
    (MoMdepth c) (MoMoMdepth c) (MoMoMoffset c) (kmdstarti c) (kmdendi c).
Definition with_desttxid (h : list Z) (c : notarized_checkpoint) : notarized_checkpoint :=
  Checkpoint (notarized_hash c) h (MoM c) (MoMoM c) (nHeight c) (notarized_height c)
    (MoMdepth c) (MoMoMdepth c) (MoMoMoffset c) (kmdstarti c) (kmdendi c).
Definition with_MoM (h : list Z) (c : notarized_checkpoint) : notarized_checkpoint :=
  Checkpoint (notarized_hash c) (notarized_desttxid c) h (MoMoM c) (nHeight c) (notarized_height c)
    (MoMdepth c) (MoMoMdepth c) (MoMoMoffset c) (kmdstarti c) (kmdendi c).
Definition with_notarized_height (z : Z) (c : notarized_checkpoint) : notarized_checkpoint :=
  Checkpoint (notarized_hash c) (notarized_desttxid c) (MoM c) (MoMoM c) (nHeight c) z
    (MoMdepth c) (MoMoMdepth c) (MoMoMoffset c) (kmdstarti c) (kmdendi c).
Definition with_MoMdepth (z : Z) (c : notarized_checkpoint) : notarized_checkpoint :=
  Checkpoint (notarized_hash c) (notarized_desttxid c) (MoM c) (MoMoM c) (nHeight c)
    (notarized_height c) z (MoMoMdepth c) (MoMoMoffset c) (kmdstarti c) (kmdendi c).

Definition SetLastNotarizedHash (sp : komodo_state) (v : list Z) := set_last sp (with_hash v (last sp)).
Definition SetLastNotarizedDestTxId (sp : komodo_state) (v : list Z) :=
  set_last sp (with_desttxid v (last sp)).
Definition SetLastNotarizedMoM (sp : komodo_state) (v : list Z) := set_last sp (with_MoM v (last sp)).
Definition SetLastNotarizedHeight (sp : komodo_state) (v : Z) :=
  set_last sp (with_notarized_height v (last sp)).
Definition SetLastNotarizedMoMDepth (sp : komodo_state) (v : Z) :=
  set_last sp (with_MoMdepth v (last sp)).

Definition LastNotarizedHash (sp : komodo_state) : list Z := notarized_hash (last sp).
Definition LastNotarizedDestTxId (sp : komodo_state) : list Z := notarized_desttxid (last sp).
Definition LastNotarizedMoM (sp : komodo_state) : list Z := MoM (last sp).
Definition LastNotarizedHeight (sp : komodo_state) : Z := notarized_height (last sp).
Definition LastNotarizedMoMDepth (sp : komodo_state) : Z := MoMdepth (last sp).
Definition NumCheckpoints (sp : komodo_state) : Z := Z.of_nat (length (NPOINTS sp)).

Definition AddCheckpoint (sp : komodo_state) (c : notarized_checkpoint) : komodo_state :=
  set_points sp (NPOINTS sp ++ [c]) (NPOINTS_last_index sp) c.

(** [komodo_notarized_update] *)
Definition komodo_notarized_update (sp : komodo_state) (ht nheight : Z)
    (nhash ndesttxid vMoM : list Z) (vMoMdepth : Z) : komodo_state :=
  if nheight >=? ht then sp
  else AddCheckpoint sp
         (Checkpoint nhash ndesttxid vMoM (MoMoM empty_checkpoint) ht nheight vMoMdepth
            (MoMoMdepth empty_checkpoint) (MoMoMoffset empty_checkpoint)
            (kmdstarti empty_checkpoint) (kmdendi empty_checkpoint)).

(** ** Searches *)

(** The loop both searches share: over [NPOINTS[i..]], until a checkpoint at the height or
    beyond; [np] is the last one passed and [last_index] its position. *)
Fixpoint search (pts : list notarized_checkpoint) (i : nat) (height : Z)
    (np : option notarized_checkpoint) (last_index : nat)
    : bool * option notarized_checkpoint * nat :=
  match pts with
  | [] => (false, np, last_index)
  | p :: rest =>
      if nHeight p >=? height then (true, np, last_index)
      else search rest (S i) height (Some p) i
  end.

(** The search from the cached position. *)
Definition search_cached (sp : komodo_state) (height : Z) : bool * option notarized_checkpoint * nat :=
  let idx := NPOINTS_last_index sp in
  if (idx <? length (NPOINTS sp))%nat && (0 <? idx)%nat then
    match NPOINTS sp !! (idx - 1)%nat with
    | Some np =>
        if nHeight np <? height then search (drop idx (NPOINTS sp)) idx height (Some np) idx
        else (false, Some np, idx)
    | None => (false, None, idx)
    end
  else (false, None, idx).

Definition notarized_result (np : option notarized_checkpoint) : Z * list Z * list Z :=
  match np with
  | Some np => (notarized_height np, notarized_hash np, notarized_desttxid np)
  | None => (0, zero256, zero256)
  end.

(** The height, the hash and the txid of the notarisation below [height]; the state carries the
    new cached position. *)
Definition NotarizedData (sp : komodo_state) (height : Z) : (Z * list Z * list Z) * komodo_state :=
  if (0 <? length (NPOINTS sp))%nat then
    let '(found, np, idx) :=
      let '(found, np, idx) := search_cached sp height in
      if found then (found, np, idx) else search (NPOINTS sp) 0 height None idx in
    (notarized_result np, set_points sp (NPOINTS sp) idx (last sp))
  else (notarized_result None, sp).

(** [PrevMoMHeight]: the notarised height of the newest checkpoint with a MoM. *)
Definition PrevMoMHeight (sp : komodo_state) : Z :=
  if negb (bool_decide (MoM (last sp) = zero256)) then notarized_height (last sp)
  else match List.find (fun c => negb (bool_decide (MoM c = zero256))) (rev (NPOINTS sp)) with
       | Some c => notarized_height c
       | None => 0
       end.

(** [NotarizedHeight]: a last notarisation whose block is not in the index is an orphan and is
    forgotten; the out parameters keep the caller's values. *)
Definition NotarizedHeight (mapBlockIndex : list Z -> option CBlockIndex) (sp : komodo_state)
    (out : Z * list Z * list Z) : (Z * (Z * list Z * list Z)) * komodo_state :=
  match mapBlockIndex (notarized_hash (last sp)) with
  | Some pindex =>
      if Chain.nHeight pindex <? 0 then
        let sp' := set_last sp (with_notarized_height 0
                     (with_desttxid zero256 (with_hash zero256 (last sp)))) in
        ((notarized_height (last sp'), out), sp')
      else ((notarized_height (last sp),
             (PrevMoMHeight sp, notarized_hash (last sp), notarized_desttxid (last sp))), sp)
  | None =>
      let sp' := set_last sp (with_notarized_height 0
                   (with_desttxid zero256 (with_hash zero256 (last sp)))) in
      ((notarized_height (last sp'), out), sp')
  end.

(** [height] is in the range of blocks the notarisation covers. *)
Definition covers (height : Z) (c : notarized_checkpoint) : bool :=
  negb (MoMdepth c =? 0)
  && (height >? i32 (notarized_height c - Z.land (MoMdepth c) 0xffff))
  && (height <=? notarized_height c).

Definition CheckpointAtHeight (sp : komodo_state) (height : Z) : option notarized_checkpoint :=
  List.find (covers height) (rev (NPOINTS sp)).

(** ** The wrappers of [komodo_notary.cpp] *)

(** [komodo_dpowconfs]: once a notarisation has been seen, a transaction that is not below it
    counts one confirmation; the static flag [hadnotarization] is a state of its own. *)
Definition komodo_dpowconfs (KOMODO_DPOWCONFS : Z) (hadnotarization : bool) (sp : komodo_state)
    (txheight numconfs : Z) : Z * bool :=
  if negb (KOMODO_DPOWCONFS =? 0) && (txheight >? 0) && (numconfs >? 0) then
    if LastNotarizedHeight sp >? 0 then
      (if txheight <? LastNotarizedHeight sp then numconfs else 1, true)
    else if hadnotarization then (1, hadnotarization)
    else (numconfs, hadnotarization)
  else (numconfs, hadnotarization).

Record MoM_data := MoMData {
  d_notarized_ht : Z; d_MoM : list Z; d_kmdtxid : list Z; d_MoMoM : list Z; d_MoMoMoffset : Z;
  d_MoMoMdepth : Z; d_kmdstarti : Z; d_kmdendi : Z
}.

(** [komodo_MoMdata]: the depth, and the out parameters. *)
Definition komodo_MoMdata (sp : komodo_state) (height : Z) : Z * MoM_data :=
  match CheckpointAtHeight sp height with
  | Some np =>
      (Z.land (MoMdepth np) 0xffff,
       MoMData (notarized_height np) (MoM np) (notarized_desttxid np) (MoMoM np) (MoMoMoffset np)
         (MoMoMdepth np) (kmdstarti np) (kmdendi np))
  | None => (0, MoMData 0 zero256 zero256 zero256 0 0 0 0)
  end.

(** ** The searches against their specifications *)

Definition below (height : Z) (c : notarized_checkpoint) : bool := nHeight c <? height.

(** The newest checkpoint that satisfies [f]. *)
Definition newest (f : notarized_checkpoint -> bool) (pts : list notarized_checkpoint)
    : option notarized_checkpoint := List.find f (rev pts).

(** The checkpoints were added in the order of their heights. *)
Definition ascending (pts : list notarized_checkpoint) : Prop :=
  forall (i j : nat) p q, (i <= j)%nat -> pts !! i = Some p -> pts !! j = Some q ->
  nHeight p <= nHeight q.

Lemma find_app {A} (f : A -> bool) l1 l2 :
  List.find f (l1 ++ l2) = match List.find f l1 with Some x => Some x | None => List.find f l2 end.
Proof. induction l1 as [|x l1 IH]; cbn; [done|]. by destruct (f x). Qed.

Lemma newest_cons f p pts :
  newest f (p :: pts) = match newest f pts with Some q => Some q | None => if f p then Some p else None end.
Proof. unfold newest. cbn [rev]. rewrite find_app. by destruct (List.find f (rev pts)). Qed.

Lemma newest_app f pts1 pts2 :
  newest f (pts1 ++ pts2) = match newest f pts2 with Some q => Some q | None => newest f pts1 end.
Proof. unfold newest. by rewrite rev_app_distr, find_app. Qed.

Lemma newest_snoc f pts p : newest f (pts ++ [p]) = if f p then Some p else newest f pts.
Proof. rewrite newest_app, newest_cons. cbn. by destruct (f p). Qed.

Lemma newest_none f pts : newest f pts = None <-> Forall (fun p => f p = false) pts.
Proof.
  induction pts as [|p pts IH]; [done|]. rewrite newest_cons, list.Forall_cons, <- IH.
  destruct (newest f pts); [split; [done|intros [_ ?]; done]|]. destruct (f p); intuition done.
Qed.

Lemma newest_some f pts c : newest f pts = Some c <->
  exists i : nat, pts !! i = Some c /\ f c = true /\
    forall (j : nat) q, (i < j)%nat -> pts !! j = Some q -> f q = false.
Proof.
  induction pts as [|p pts IH]; [split; [done|intros (i & ? & _); done]|]. rewrite newest_cons. split.
  - destruct (newest f pts) as [q|] eqn:E.
    + intros [= ->]. destruct (proj1 IH eq_refl) as (i & Hi & Hf & Hl). exists (S i). split_and!; [done|done|].
      intros [|j] q Hj Hq; [lia|]. apply (Hl j q); [lia|done].
    + destruct (f p) eqn:Ef; [|done]. intros [= ->]. exists O. split_and!; [done|done|].
      intros [|j] q Hj Hq; [lia|]. apply newest_none in E. by apply (Forall_lookup_1 _ _ _ _ E Hq).
  - intros (i & Hi & Hf & Hl). destruct i as [|i].
    + cbn in Hi. injection Hi as ->. rewrite (proj2 (newest_none f pts)), Hf; [done|].
      apply Forall_lookup_2. intros j q Hq. apply (Hl (S j)); [lia|done].
    + rewrite (proj2 IH); [done|]. exists i. split_and!; [done|done|].
      intros j q Hj Hq. apply (Hl (S j)); [lia|done].
Qed.

Lemma ascending_tail p pts : ascending (p :: pts) -> ascending pts.
Proof. intros H i j q r Hij Hq Hr. apply (H (S i) (S j)); [lia|done|done]. Qed.

Lemma ascending_drop n pts : ascending pts -> ascending (drop n pts).
Proof.
  intros H i j p q Hij Hp Hq. rewrite lookup_drop in Hp, Hq. apply (H (n + i)%nat (n + j)%nat p q); [lia|done|done].
Qed.

(** On checkpoints in order the loop ends on the newest one below the height, and where it
    ends is a position of the list. *)
Lemma search_spec pts : forall i height np idx, ascending pts ->
  exists found idx', search pts i height np idx =
    (found, match newest (below height) pts with Some c => Some c | None => np end, idx').
Proof.
  induction pts as [|p pts IH]; intros i height np idx Ha; cbn [search]; [by eexists _, _|].
  rewrite newest_cons. unfold below at 2. rewrite Z.geb_leb. destruct (Z.leb_spec height (nHeight p)).
  - rewrite (proj2 (newest_none (below height) pts)).
    + destruct (Z.ltb_spec (nHeight p) height); [lia|]. by eexists _, _.
    + apply Forall_lookup_2. intros j q Hq. apply Z.ltb_ge.
      specialize (Ha O (S j) p q ltac:(lia) eq_refl Hq). lia.
  - destruct (Z.ltb_spec (nHeight p) height); [|lia].
    destruct (IH (S i) height (Some p) i (ascending_tail _ _ Ha)) as (found & idx' & ->).
    eexists _, _. f_equal. f_equal. by destruct (newest (below height) pts).
Qed.

Lemma search_index pts : forall i height np idx,
  (snd (search pts i height np idx) = idx \/
   (i <= snd (search pts i height np idx) < i + length pts)%nat).
Proof.
  induction pts as [|p pts IH]; intros i height np idx; cbn [search length]; [by left|].
  destruct (nHeight p >=? height); [by left|].
  destruct (IH (S i) height (Some p) i) as [->|]; right; lia.
Qed.

Lemma search_cached_spec sp height : ascending (NPOINTS sp) ->
  match search_cached sp height with
  | (true, np, _) => np = newest (below height) (NPOINTS sp)
  | _ => True
  end.
Proof.
  intros Ha. unfold search_cached. set (idx := NPOINTS_last_index sp).
  destruct (Nat.ltb_spec idx (length (NPOINTS sp))); [|done].
  destruct (Nat.ltb_spec 0 idx); [|done]. cbn [andb].
  destruct (NPOINTS sp !! (idx - 1)%nat) as [c|] eqn:Ec; [|done].
  destruct (Z.ltb_spec (nHeight c) height); [|done].
  destruct (search_spec (drop idx (NPOINTS sp)) idx height (Some c) idx) as (found & idx' & ->);
    [by apply ascending_drop|]. destruct found; [|done].
  rewrite <- (take_drop idx (NPOINTS sp)) at 2. rewrite newest_app.
  destruct (newest (below height) (drop idx (NPOINTS sp))); [done|].
  replace idx with (S (idx - 1))%nat by lia. rewrite (take_S_r _ _ c) by done.
  rewrite newest_snoc. unfold below. destruct (Z.ltb_spec (nHeight c) height); [done|lia].
Qed.

Lemma NotarizedData_newest sp height : ascending (NPOINTS sp) ->
  fst (NotarizedData sp height) = notarized_result (newest (below height) (NPOINTS sp)).
Proof.
  intros Ha. unfold NotarizedData. destruct (Nat.ltb_spec 0 (length (NPOINTS sp))).
  - pose proof (search_cached_spec sp height Ha) as Hc.
    destruct (search_cached sp height) as [[[] np] idx]; [by rewrite Hc|].
    destruct (search_spec (NPOINTS sp) 0 height None idx Ha) as (found & idx' & ->).
    cbn. by destruct (newest _ _).
  - destruct (NPOINTS sp); [done|cbn in *; lia].
Qed.

Lemma NotarizedData_points sp height : NPOINTS (snd (NotarizedData sp height)) = NPOINTS sp.
Proof.
  unfold NotarizedData. destruct (0 <? length (NPOINTS sp))%nat; [|done].
  destruct (search_cached sp height) as [[[] np] idx]; [done|].
  by destruct (search (NPOINTS sp) 0 height None idx) as [[? ?] ?].
Qed.

(** [C30] While checkpoints are added in the order of their heights, the cached position does not
    show: [NotarizedData] gives the newest checkpoint below the height (and height 0 with null
    hashes when there is none) from any cached position, so the answer does not depend on the
    queries made before. *)
Theorem NotarizedData_is_newest_below sp height : ascending (NPOINTS sp) ->
  fst (NotarizedData sp height) = notarized_result (newest (below height) (NPOINTS sp)).
Proof. exact (NotarizedData_newest sp height). Qed.

(** A checkpoint of height [ht] for the block [nheight]. *)
Definition checkpoint_of (ht nheight : Z) : notarized_checkpoint :=
  Checkpoint (replicate 32 nheight) (replicate 32 ht) zero256 zero256 ht nheight 0 0 0 0 0.

Lemma NotarizedData_is_newest_below_witness :
  ascending [checkpoint_of 10 5; checkpoint_of 20 15; checkpoint_of 20 18; checkpoint_of 30 25] /\
  fst (NotarizedData (set_points new_komodo_state
         [checkpoint_of 10 5; checkpoint_of 20 15; checkpoint_of 20 18; checkpoint_of 30 25] 3
         empty_checkpoint) 21) = (18, replicate 32 18, replicate 32 20).
Proof.
  assert (ascending [checkpoint_of 10 5; checkpoint_of 20 15; checkpoint_of 20 18; checkpoint_of 30 25]) as H.
  { intros i j p q Hij Hp Hq.
    do 4 (destruct i as [|i]; [do 4 (destruct j as [|j]; [cbn in Hp, Hq; injection Hp as <-;
      injection Hq as <-; vm_compute; try lia; discriminate|]); discriminate|]); discriminate. }
  split; [exact H|].
  etransitivity; [apply NotarizedData_is_newest_below; exact H | vm_compute; reflexivity].
Defined.

(** When the heights are not in order, which a reorganisation makes possible because it does
    not remove checkpoints, the answer depends on the queries made before: with checkpoints at
    heights 10, 50, 20, 30 and 60, the query at 25 answers with the checkpoint of height 10, but
    after a query at 55 with the one of height 20. *)
Theorem NotarizedData_depends_on_queries :
  let sp := fold_left AddCheckpoint [checkpoint_of 10 5; checkpoint_of 50 45; checkpoint_of 20 15;
              checkpoint_of 30 25; checkpoint_of 60 55] new_komodo_state in
  let sp' := snd (NotarizedData sp 55) in
  NPOINTS sp' = NPOINTS sp /\
  fst (fst (fst (NotarizedData sp 25))) = 5 /\ fst (fst (fst (NotarizedData sp' 25))) = 15.
Proof. vm_compute. done. Qed.

(** [CheckpointAtHeight] finds a notarisation that covers the height, the last added of
    those that do, and fails exactly when none does. *)
Theorem CheckpointAtHeight_is_newest sp height :
  match CheckpointAtHeight sp height with
  | Some c => exists i : nat, NPOINTS sp !! i = Some c /\ covers height c = true /\
      forall (j : nat) q, (i < j)%nat -> NPOINTS sp !! j = Some q -> covers height q = false
  | None => Forall (fun c => covers height c = false) (NPOINTS sp)
  end.
Proof.
  change (CheckpointAtHeight sp height) with (newest (covers height) (NPOINTS sp)).
  destruct (newest (covers height) (NPOINTS sp)) as [c|] eqn:E; [by apply newest_some | by apply newest_none].
Qed.

(** ** The life of the checkpoints

    The operations other code performs on this part of the state. *)
Inductive checkpoint_step : komodo_state -> komodo_state -> Prop :=
| step_update sp ht nheight h t m d :
    checkpoint_step sp (komodo_notarized_update sp ht nheight h t m d)
| step_query sp ht : checkpoint_step sp (snd (NotarizedData sp ht))
| step_last mapBlockIndex sp out : checkpoint_step sp (snd (NotarizedHeight mapBlockIndex sp out))
| step_set_hash sp v : checkpoint_step sp (SetLastNotarizedHash sp v)
| step_set_txid sp v : checkpoint_step sp (SetLastNotarizedDestTxId sp v)
| step_set_MoM sp v : checkpoint_step sp (SetLastNotarizedMoM sp v)
| step_set_height sp v : checkpoint_step sp (SetLastNotarizedHeight sp v)
| step_set_depth sp v : checkpoint_step sp (SetLastNotarizedMoMDepth sp v).

(** Every checkpoint notarises a block below the one that carries it, and the cached position is
    one of the list. *)
Definition points_ok (sp : komodo_state) : Prop :=
  Forall (fun c => notarized_height c < nHeight c) (NPOINTS sp) /\
  (NPOINTS_last_index sp = 0 \/ NPOINTS_last_index sp < length (NPOINTS sp))%nat.

Lemma search_cached_index sp height :
  let idx := snd (search_cached sp height) in
  (idx = NPOINTS_last_index sp \/ idx < length (NPOINTS sp))%nat.
Proof.
  unfold search_cached. destruct (Nat.ltb_spec (NPOINTS_last_index sp) (length (NPOINTS sp))); [|by left].
  destruct (Nat.ltb_spec 0 (NPOINTS_last_index sp)); cbn [andb]; [|by left].
  destruct (NPOINTS sp !! _) as [c|]; [|by left]. destruct (nHeight c <? height); [|by left].
  destruct (search_index (drop (NPOINTS_last_index sp) (NPOINTS sp)) (NPOINTS_last_index sp) height
              (Some c) (NPOINTS_last_index sp)) as [->|Hi]; [by left|].
  rewrite length_drop in Hi. right. cbn. lia.
Qed.

Lemma NotarizedData_state sp height :
  exists idx, snd (NotarizedData sp height) = set_points sp (NPOINTS sp) idx (last sp) /\
    (idx = NPOINTS_last_index sp \/ idx < length (NPOINTS sp))%nat.
Proof.
  unfold NotarizedData. destruct (Nat.ltb_spec 0 (length (NPOINTS sp))).
  2: { exists (NPOINTS_last_index sp). split; [by destruct sp|by left]. }
  pose proof (search_cached_index sp height) as Hc.
  destruct (search_cached sp height) as [[[] np] idx]; cbn in Hc; [by exists idx|].
  pose proof (search_index (NPOINTS sp) 0 height None idx) as Hs.
  destruct (search (NPOINTS sp) 0 height None idx) as [[found np'] idx']; cbn in Hs |- *.
  exists idx'. split; [done|]. destruct Hs as [->|]; [done|right; lia].
Qed.

Lemma checkpoint_step_ok sp sp' : checkpoint_step sp sp' ->
  (points_ok sp -> points_ok sp') /\ NPOINTS sp `prefix_of` NPOINTS sp'.
Proof.
  destruct 1 as [sp ht nheight h t m d|sp ht|mapBlockIndex sp out|sp v|sp v|sp v|sp v|sp v]; try done.
  - unfold komodo_notarized_update. rewrite Z.geb_leb. destruct (Z.leb_spec ht nheight); [done|].
    cbn. split; [|by eexists]. intros [Hp Hi]. split; cbn.
    + apply Forall_app. split; [done|]. apply list.Forall_singleton. cbn. lia.
    + rewrite length_app. cbn. lia.
  - destruct (NotarizedData_state sp ht) as (idx & -> & Hi). split; [|done].
    intros [Hp Hl]. split; [done|]. cbn. lia.
  - unfold NotarizedHeight. destruct (mapBlockIndex _) as [b|]; [|done].
    by destruct (Chain.nHeight b <? 0).
Qed.

(** [C31] Whatever sequence of updates, queries and settings the state goes through, every
    checkpoint kept notarises a block strictly below the block that carried it, the cached
    position stays inside the list, and no checkpoint is ever removed or changed. *)
Theorem checkpoints_invariant sp : rtc checkpoint_step new_komodo_state sp ->
  points_ok sp /\ forall sp', rtc checkpoint_step sp sp' -> NPOINTS sp `prefix_of` NPOINTS sp'.
Proof.
  intros H. split.
  - assert (points_ok new_komodo_state) as H0 by (split; [constructor|by left]).
    revert H0. induction H as [sp|sp1 sp2 sp3 H _ IH]; [done|]. intros H1.
    by apply IH, (checkpoint_step_ok sp1 sp2).
  - clear H. induction 1 as [sp|sp1 sp2 sp3 H _ IH]; [done|].
    etransitivity; [by apply (checkpoint_step_ok sp1 sp2)|done].
Qed.

Lemma checkpoints_invariant_witness :
  let sp := komodo_notarized_update (komodo_notarized_update new_komodo_state 10 10 zero256 zero256 zero256 0)
              12 10 zero256 zero256 zero256 0 in
  rtc checkpoint_step new_komodo_state sp /\ length (NPOINTS sp) = 1%nat /\ points_ok sp.
Proof.
  intros sp. assert (rtc checkpoint_step new_komodo_state sp) as H.
  { eapply rtc_l; [apply step_update|]. eapply rtc_l; [apply step_update|]. apply rtc_refl. }
  split; [exact H|]. split; [reflexivity|]. exact (proj1 (checkpoints_invariant sp H)).
Defined.
