(* ===== verification/NotaryTable.v ===== *)
(** * NotaryTable: the notaries of the first elections
    [src/src/komodo_notary.cpp], [komodo_structs.h]: the array [Pubkeys] of notaries by election
    period and [komodo_notarysinit], which fills it from an election on.  A uthash table is the
    list of its entries in the order of insertion, which is the order [HASH_ITER] visits them. *)
From S2P Require Import Prelude.

Definition KOMODO_ELECTION_GAP : Z := 2000.
Definition KOMODO_MAXBLOCKS : Z := 250000.

(** [knotary_entry] *)
Record knotary_entry := KnotaryEntry { kn_pubkey : list Z; kn_notaryid : Z }.

(** [knotaries_entry] *)
Record knotaries_entry := KnotariesEntry {
  kn_height : Z; numnotaries : Z; Notaries : list knotary_entry
}.

Definition no_notaries : knotaries_entry := KnotariesEntry 0 0 [].

(** The index of a height: the divisions of [int32_t] round towards zero. *)
Definition ht_index_from_height (height : Z) : Z :=
  let htind := Z.quot height KOMODO_ELECTION_GAP in
  if htind >=? Z.quot KOMODO_MAXBLOCKS KOMODO_ELECTION_GAP
  then Z.quot KOMODO_MAXBLOCKS KOMODO_ELECTION_GAP - 1
  else htind.

(** [calloc] of the array. *)
Definition new_table : list knotaries_entry :=
  replicate (Z.to_nat (1 + Z.quot KOMODO_MAXBLOCKS KOMODO_ELECTION_GAP)) no_notaries.

(** The first period an election at [origheight] is for. *)
Definition election_index (origheight : Z) : Z :=
  if origheight >? 0 then
    let height := i32 (origheight + KOMODO_ELECTION_GAP / 2) in
    let height := Z.quot height KOMODO_ELECTION_GAP in
    let height := i32 ((height + 1) * KOMODO_ELECTION_GAP) in
    ht_index_from_height height
  else 0.

(** The hash table of the new notaries: [HASH_ADD_KEYPTR] in the order of the keys. *)
Definition notary_hash (pubkeys : list (list Z)) (num : Z) : list knotary_entry :=
  imap (fun k key => KnotaryEntry key (u8 (Z.of_nat k))) (take (Z.to_nat num) pubkeys).

(** The loop over the periods from [i] on, [n] of them. *)
Fixpoint fill_periods (origheight hwmheight : Z) (N : list knotary_entry) (num : Z) (n i : nat)
    (Pubkeys : list knotaries_entry) : list knotaries_entry :=
  match n with
  | O => Pubkeys
  | S n' =>
      if negb (kn_height (nth i Pubkeys no_notaries) =? 0) && (origheight <? hwmheight) then Pubkeys
      else fill_periods origheight hwmheight N num n' (S i)
             (<[i := KnotariesEntry (i32 (Z.of_nat i * KOMODO_ELECTION_GAP)) num N]> Pubkeys)
  end.

(** [komodo_notarysinit]: the array ([None]: not yet allocated) and [hwmheight]. *)
Definition komodo_notarysinit (Pubkeys : option (list knotaries_entry)) (hwmheight origheight : Z)
    (pubkeys : list (list Z)) (num : Z) : list knotaries_entry * Z :=
  let table := match Pubkeys with Some t => t | None => new_table end in
  let htind := election_index origheight in
  let n := Z.to_nat (Z.quot KOMODO_MAXBLOCKS KOMODO_ELECTION_GAP - htind) in
  (fill_periods origheight hwmheight (notary_hash pubkeys num) num n (Z.to_nat htind) table,
   if origheight >? hwmheight then origheight else hwmheight).

(** ** What the array holds after an election *)

Definition table_ok (t : list knotaries_entry) : Prop := length t = 126%nat.

Lemma new_table_ok : table_ok new_table.
Proof. reflexivity. Qed.

Lemma fill_periods_length o w N num n : forall i t,
  length (fill_periods o w N num n i t) = length t.
Proof.
  induction n as [|n IH]; intros i t; cbn [fill_periods]; [done|].
  case_match; [done|]. rewrite IH. apply length_insert.
Qed.

(** Nothing before the first period changes. *)
Lemma fill_periods_before o w N num n : forall i t (j : nat), (j < i)%nat ->
  fill_periods o w N num n i t !! j = t !! j.
Proof.
  induction n as [|n IH]; intros i t j Hj; cbn [fill_periods]; [done|].
  case_match; [done|]. rewrite IH by lia. apply list_lookup_insert_ne. lia.
Qed.

(** With no later election known, every period from the first on changes. *)
Lemma fill_periods_all o w N num : w <= o -> forall n i t (j : nat),
  (i <= j < i + n)%nat -> (j < length t)%nat ->
  fill_periods o w N num n i t !! j =
    Some (KnotariesEntry (i32 (Z.of_nat j * KOMODO_ELECTION_GAP)) num N).
Proof.
  intros Hw. induction n as [|n IH]; intros i t j Hj Hl; [lia|]. cbn [fill_periods].
  destruct (Z.ltb_spec o w); [lia|]. rewrite andb_false_r.
  destruct (decide (j = i)) as [->|].
  - rewrite fill_periods_before by lia. by apply list_lookup_insert_eq.
  - apply IH; [lia|]. by rewrite length_insert.
Qed.

(** The height at which an election takes effect: two half gaps round to the next period. *)
Lemma election_index_bound h : 0 < h < 2 ^ 31 - 4000 ->
  election_index h = Z.min 124 ((h + 1000) / 2000 + 1).
Proof.
  intros Hh. unfold election_index. rewrite Z.gtb_ltb. destruct (Z.ltb_spec 0 h); [|lia].
  change (KOMODO_ELECTION_GAP / 2) with 1000. unfold KOMODO_ELECTION_GAP.
  rewrite (swrap_small 32 (h + 1000)), Z.quot_div_nonneg by lia.
  pose proof (Z.div_mod (h + 1000) 2000). pose proof (Z.mod_pos_bound (h + 1000) 2000).
  rewrite swrap_small by lia. unfold ht_index_from_height, KOMODO_ELECTION_GAP.
  rewrite Z.quot_mul by lia. change (Z.quot KOMODO_MAXBLOCKS 2000) with 125.
  rewrite Z.geb_leb. case_Z; lia.
Qed.

(** An election at a height at or above every earlier one gives its notaries to every
    period from its own on and leaves the earlier periods alone; the period is the one that
    starts two half gaps after the height, rounded down. *)
Theorem notarysinit_elects table hwmheight h pubkeys num :
  table_ok table -> 0 < h < 2 ^ 31 - 4000 -> hwmheight <= h ->
  let '(table', hwm') := komodo_notarysinit (Some table) hwmheight h pubkeys num in
  let first := Z.min 124 ((h + 1000) / 2000 + 1) in
  table_ok table' /\ hwm' = h /\
  (forall j : nat, Z.of_nat j < first -> table' !! j = table !! j) /\
  (forall j : nat, first <= Z.of_nat j < 125 -> table' !! j =
     Some (KnotariesEntry (Z.of_nat j * 2000) num (notary_hash pubkeys num))).
Proof.
  intros Ht Hh Hw. unfold komodo_notarysinit. cbn [fst snd]. rewrite election_index_bound by done.
  change (Z.quot KOMODO_MAXBLOCKS KOMODO_ELECTION_GAP) with 125.
  assert (0 <= (h + 1000) / 2000) by (apply Z.div_pos; lia).
  split; [unfold table_ok; by rewrite fill_periods_length|].
  split; [rewrite Z.gtb_ltb; case_Z; lia|]. split; intros j Hj.
  - apply fill_periods_before. lia.
  - rewrite fill_periods_all by (unfold table_ok in Ht; lia). do 2 f_equal.
    unfold KOMODO_ELECTION_GAP. apply swrap_small; lia.
Qed.

Lemma notarysinit_elects_witness :
  fst (komodo_notarysinit (Some new_table) 0 3500 [[2; 1]; [3; 5]] 2) !! 3%nat =
    Some (KnotariesEntry 6000 2 [KnotaryEntry [2; 1] 0; KnotaryEntry [3; 5] 1]).
Proof.
  pose proof (notarysinit_elects new_table 0 3500 [[2; 1]; [3; 5]] 2 new_table_ok
    ltac:(lia) ltac:(lia)) as H.
  destruct (komodo_notarysinit (Some new_table) 0 3500 [[2; 1]; [3; 5]] 2) as [t w].
  destruct H as (_ & _ & _ & H). apply (H 3%nat). vm_compute. split; congruence.
Defined.
