(* ===== verification/KomodoState.v ===== *)
(** * KomodoState: the handlers of events and the state file
    [src/src/komodo_events.cpp]; [komodo_parsestatefiledata], [komodo_parsestatefile] and
    [komodo_stateupdate] of [src/src/komodo.cpp]; the loop of [komodo_faststateinit]
    ([komodo_gateway.cpp]); [komodo_init] ([komodo_notary.cpp]); [komodo_nameset]
    ([komodo_utils.cpp]).  The process-wide variables these functions share are the record
    [globals]; the state file is the list of the bytes written to it.  [None] is undefined
    behaviour. *)
From Stdlib Require Import String.
From stdpp Require Import relations.
From S2P Require Import Prelude Uint256 Serialize KomodoEvents Checkpoints NotaryKeys NotaryTable.

Record globals := Globals {
  sp : komodo_state;
  Pubkeys : option (list knotaries_entry); hwmheight : Z; didinit : bool;
  KOMODO_LASTMINED : Z; prevKOMODO_LASTMINED : Z;
  (** the calls made to [komodo_kvupdate]: buffer and value, the newest last *)
  kvupdates : list (list Z * Z)
}.

Definition new_globals : globals := Globals new_komodo_state None 0 false 0 0 [].

Definition with_sp (s : komodo_state) (g : globals) : globals :=
  Globals s (Pubkeys g) (hwmheight g) (didinit g) (KOMODO_LASTMINED g) (prevKOMODO_LASTMINED g)
    (kvupdates g).
Definition with_table (t : list knotaries_entry * Z) (g : globals) : globals :=
  Globals (sp g) (Some (fst t)) (snd t) (didinit g) (KOMODO_LASTMINED g) (prevKOMODO_LASTMINED g)
    (kvupdates g).
Definition with_didinit (b : bool) (g : globals) : globals :=
  Globals (sp g) (Pubkeys g) (hwmheight g) b (KOMODO_LASTMINED g) (prevKOMODO_LASTMINED g) (kvupdates g).
Definition with_mined (last prev : Z) (g : globals) : globals :=
  Globals (sp g) (Pubkeys g) (hwmheight g) (didinit g) last prev (kvupdates g).
Definition with_kv (l : list (list Z * Z)) (g : globals) : globals :=
  Globals (sp g) (Pubkeys g) (hwmheight g) (didinit g) (KOMODO_LASTMINED g) (prevKOMODO_LASTMINED g) l.

Definition with_events (l : list event) (s : komodo_state) : komodo_state :=
  KomodoState (SAVEDHEIGHT s) (CURRENT_HEIGHT s) (SAVEDTIMESTAMP s) l (NPOINTS s)
    (NPOINTS_last_index s) (last s).
Definition with_heights (saved current stamp : Z) (s : komodo_state) : komodo_state :=
  KomodoState saved current stamp (events s) (NPOINTS s) (NPOINTS_last_index s) (last s).

Section State.

(** The name of the chain (empty for KMD), the options of the node, and what another daemon
    answers about a notarisation. *)
Context (chainName : string) (IS_KOMODO_NOTARY KOMODO_EXTERNAL_NOTARIES : bool).
Context (komodo_verifynotarization : string -> list Z -> Z -> Z -> list Z -> list Z -> Z).

Definition isKMD : bool := String.eqb chainName "".
Definition isSymbol (s : string) : bool := String.eqb s chainName.

(** [komodo_nameset] of this chain: the symbol and the destination. *)
Definition symbol : string := if isKMD then "KMD" else chainName.
Definition dest : list Z := codes (if isKMD then "BTC" else "KMD").

(** ** Handlers *)

(** [komodo_state::add_event] *)
Definition add_event (s : komodo_state) (e : event) : komodo_state :=
  if negb isKMD then with_events (events s ++ [e]) s else s.

Definition komodo_eventadd_notarized (g : globals) (ht : Z) (ntz : event_notarized) : globals :=
  if IS_KOMODO_NOTARY
     && (komodo_verifynotarization symbol (n_dest ntz) ht (n_notarizedheight ntz) (n_blockhash ntz)
           (n_desttxid ntz) <? 0)
  then g
  else if isSymbol symbol || (isKMD && String.eqb symbol "KMD") then
    with_sp (komodo_notarized_update (add_event (sp g) (Event ht (EVENT_NOTARIZED ntz))) ht
               (n_notarizedheight ntz) (n_blockhash ntz) (n_desttxid ntz) (n_MoM ntz) (n_MoMdepth ntz)) g
  else g.

Definition komodo_eventadd_pubkeys (g : globals) (ht : Z) (pk : event_pubkeys) : globals :=
  with_table (komodo_notarysinit (Pubkeys g) (hwmheight g) ht (pk_pubkeys pk) (pk_num pk))
    (with_sp (add_event (sp g) (Event ht (EVENT_PUBKEYS pk))) g).

Definition komodo_eventadd_pricefeed (g : globals) (ht : Z) (pf : event_pricefeed) : globals :=
  with_sp (add_event (sp g) (Event ht (EVENT_PRICEFEED pf))) g.

(** [opret.data()[0]] is read before the size is looked at. *)
Definition komodo_eventadd_opreturn (g : globals) (ht : Z) (opret : event_opreturn) : option globals :=
  if isKMD then Some g
  else
    let g := with_sp (add_event (sp g) (Event ht (EVENT_OPRETURN opret))) g in
    match o_opret opret with
    | [] => None
    | c :: _ =>
        if (c =? 75) && negb (Z.of_nat (length (o_opret opret)) =? 40)
        then Some (with_kv (kvupdates g ++ [(o_opret opret, o_value opret)]) g)
        else Some g
    end.

(** The two overloads of [komodo_event_undo].  The loop below calls it on an object of the base
    class, which selects the general one. *)
Definition komodo_event_undo (s : komodo_state) (ev : event) : komodo_state := s.
Definition komodo_event_undo_kmdheight (s : komodo_state) (ht : Z) : komodo_state :=
  if ht <=? SAVEDHEIGHT s then with_heights ht (CURRENT_HEIGHT s) (SAVEDTIMESTAMP s) s else s.

(** The loop of [komodo_event_rewind], over the events from the newest. *)
Fixpoint rewind_events (height : Z) (newest_first : list event) (s : komodo_state) : komodo_state :=
  match newest_first with
  | [] => with_events [] s
  | ev :: older =>
      if ev_height ev <? height then with_events (rev newest_first) s
      else rewind_events height older (komodo_event_undo s ev)
  end.

Definition komodo_event_rewind (g : globals) (height : Z) : globals :=
  let g := if isKMD && (height <=? KOMODO_LASTMINED g) && negb (prevKOMODO_LASTMINED g =? 0)
           then with_mined (prevKOMODO_LASTMINED g) 0 g else g in
  with_sp (rewind_events height (rev (events (sp g))) (sp g)) g.

Definition komodo_setkmdheight (s : komodo_state) (kmdheight timestamp : Z) : komodo_state :=
  let s := if kmdheight >? SAVEDHEIGHT s
           then with_heights kmdheight (CURRENT_HEIGHT s) timestamp s else s in
  if kmdheight >? CURRENT_HEIGHT s
  then with_heights (SAVEDHEIGHT s) kmdheight (SAVEDTIMESTAMP s) s else s.

Definition komodo_eventadd_kmdheight (g : globals) (ht : Z) (kmdht : event_kmdheight) : globals :=
  if k_kheight kmdht >? 0 then
    with_sp (komodo_setkmdheight (add_event (sp g) (Event ht (EVENT_KMDHEIGHT kmdht)))
               (k_kheight kmdht) (k_timestamp kmdht)) g
  else komodo_event_rewind (with_sp (add_event (sp g) (Event ht EVENT_REWIND)) g) ht.

(** ** One record of the state file *)

(** The handlers called for a record that was read; [limit] is the bound the file version puts
    on scripts. *)
Definition dispatch (limit : bool) (g : globals) (ht : Z) (b : option event_body) : option globals :=
  let matched := if isKMD && String.eqb symbol "KMD" then true else isSymbol symbol in
  match b with
  | Some (EVENT_PUBKEYS pk) =>
      if (KOMODO_EXTERNAL_NOTARIES && matched)
         || (String.eqb symbol "KMD" && negb KOMODO_EXTERNAL_NOTARIES)
      then Some (komodo_eventadd_pubkeys g ht pk) else Some g
  | Some (EVENT_NOTARIZED e) => Some (komodo_eventadd_notarized g ht e)
  | Some (EVENT_U _) => Some g
  | Some (EVENT_KMDHEIGHT e) => Some (komodo_eventadd_kmdheight g ht e)
  | Some (EVENT_OPRETURN e) =>
      if negb limit || (Z.of_nat (length (o_opret e)) <? 16384 * 4)
      then komodo_eventadd_opreturn g ht e else Some g
  | Some (EVENT_PRICEFEED e) => Some (komodo_eventadd_pricefeed g ht e)
  | Some EVENT_REWIND | None => Some g
  end.

(** The letter (-1 at the end of the file or after an error), the next position, the new
    variables, and whether [StartShutdown] was called. *)
Inductive parse_result :=
| Record_read (func pos : Z) (g : globals) (shutdown : bool)
| Undefined.

Definition run_record (limit : bool) (parse : Parser (Z * Z * option event_body)) (g : globals)
    (data : list Z) (pos : Z) : parse_result :=
  if pos <? Z.of_nat (length data) then
    match parse data pos with
    | Parsed (func, ht, b) pos' =>
        match dispatch limit g ht b with
        | Some g' => Record_read func pos' g' false
        | None => Undefined
        end
    | ParseError => Record_read (-1) pos g true
    | OutOfBounds => Undefined
    end
  else Record_read (-1) pos g false.

Definition komodo_parsestatefiledata := run_record false (parse_data_record dest).
Definition komodo_parsestatefile := run_record true (parse_file_record dest).

(** ** Loading the file *)

Inductive load_result := Loaded (g : globals) | Shutdown (g : globals) | Crashed | Out_of_fuel.

(** [while (!ShutdownRequested() && parse(...) >= 0)] *)
Fixpoint load_loop (parse : globals -> list Z -> Z -> parse_result) (fuel : nat) (g : globals)
    (data : list Z) (pos : Z) : load_result :=
  match fuel with
  | O => Out_of_fuel
  | S fuel' =>
      match parse g data pos with
      | Record_read func pos' g' shutdown =>
          if shutdown then Shutdown g'
          else if func >=? 0 then load_loop parse fuel' g' data pos'
          else Loaded g'
      | Undefined => Crashed
      end
  end.

(** From an image of the file when it could be read into memory, else record by record. *)
Definition load_file (in_memory : bool) (g : globals) (data : list Z) : load_result :=
  load_loop (if in_memory then komodo_parsestatefiledata else komodo_parsestatefile)
    (S (length data)) g data 0.

(** ** [komodo_stateupdate] *)

(** The static [fp]: null, an open stream, or one that [fclose] was called on. *)
Inductive stream := Null_stream | Open_stream | Closed_stream.

Record state := State {
  st_g : globals;
  (** the file on disk, if there is one *)
  st_file : option (list Z);
  fp : stream
}.

Definition st_open (s : state) : bool := match fp s with Open_stream => true | _ => false end.

Inductive update_result := Updated (s : state) | Stopped (s : state) | Crash.

(** [write_event] at the end of the file, then the handler. *)
Definition log_event (s : state) (e : event) (g' : option globals) : update_result :=
  match g' with
  | Some g' => Updated (State g' (Some (default [] (st_file s) ++ write_event e)) (fp s))
  | None => Crash
  end.

Record update_args := UpdateArgs {
  a_notarypubs : option (list (list Z)); a_numnotaries : Z; a_txhash : list Z;
  a_pvals : option (list Z); a_numpvals : Z; a_KMDheight : Z; a_KMDtimestamp : Z;
  a_opretvalue : Z; a_opretbuf : option (list Z); a_opretlen : Z; a_vout : Z
}.

(** Most callers pass zeros and null pointers. *)
Definition no_args : update_args := UpdateArgs None 0 zero256 None 0 0 0 0 None 0 0.

(** Opening the file, on the first call.  When loading asks the node to stop the stream is closed
    and [fp] keeps pointing at it. *)
Definition open_file (in_memory : bool) (s : state) : update_result :=
  match fp s with
  | Null_stream =>
      match st_file s with
      | Some data =>
          match load_file in_memory (st_g s) data with
          | Loaded g => Updated (State g (Some data) Open_stream)
          | Shutdown g => Stopped (State g (Some data) Closed_stream)
          | Crashed | Out_of_fuel => Crash
          end
      | None => Updated (State (st_g s) (Some []) Open_stream)
      end
  | _ => Updated s
  end.

(** The event of the call, written and handled: the first of the five branches that applies. *)
Definition update_notarized (s : state) (height : Z) : update_result :=
  if negb (height =? 0) then
    let l := sp (st_g s) in
    let e := EventNotarized (LastNotarizedHash l) (LastNotarizedDestTxId l) (LastNotarizedMoM l)
               (LastNotarizedHeight l) (LastNotarizedMoMDepth l) (copy_dest dest) in
    log_event s (Event height (EVENT_NOTARIZED e)) (Some (komodo_eventadd_notarized (st_g s) height e))
  else Updated s.

Definition update_prices (s : state) (height : Z) (pvals : list Z) (num : Z) : update_result :=
  if forallb (fun p => negb (p =? 0)) (take 32 pvals) then
    if num >? 35 then Crash
    else let e := EventPricefeed num (overwrite (take (Z.to_nat num) pvals) (v_prices new_pricefeed)) in
         log_event s (Event height (EVENT_PRICEFEED e)) (Some (komodo_eventadd_pricefeed (st_g s) height e))
  else Updated s.

Definition write_and_handle (s : state) (height : Z) (a : update_args) : update_result :=
  let g := st_g s in
  if negb (a_KMDheight a =? 0) then
    let e := EventKmdheight (a_KMDheight a) (a_KMDtimestamp a) in
    log_event s (Event height (EVENT_KMDHEIGHT e)) (Some (komodo_eventadd_kmdheight g height e))
  else if bool_decide (is_Some (a_opretbuf a)) && (a_opretlen a >? 0) then
    let buf := default [] (a_opretbuf a) in
    let e := EventOpreturn (a_txhash a) (a_vout a) (a_opretvalue a) (take (Z.to_nat (a_opretlen a)) buf) in
    log_event s (Event height (EVENT_OPRETURN e)) (komodo_eventadd_opreturn g height e)
  else if bool_decide (is_Some (a_notarypubs a)) && (a_numnotaries a >? 0) then
    let e := EventPubkeys (a_numnotaries a) (default [] (a_notarypubs a)) in
    log_event s (Event height (EVENT_PUBKEYS e)) (Some (komodo_eventadd_pubkeys g height e))
  else if bool_decide (is_Some (a_pvals a)) && (a_numpvals a >? 0) then
    update_prices s height (default [] (a_pvals a)) (a_numpvals a)
  else update_notarized s height.

Definition komodo_stateupdate (in_memory : bool) (s : state) (height : Z) (a : update_args)
    : update_result :=
  match open_file in_memory s with
  | Updated s' =>
      if height <=? 0 then Updated s'
      else if st_open s' then write_and_handle s' height a
      else Crash
  | r => r
  end.

(** ** [komodo_init] *)

(** The loop over the genesis notaries, which stops at an empty pair. *)
Fixpoint genesis_keys (beyond : nat -> Z) (pairs : list (string * string)) : list (list Z) :=
  match pairs with
  | [] => []
  | (first, second) :: rest =>
      if String.eqb first "" || String.eqb second "" then []
      else fst (decode_hex beyond 33 second) :: genesis_keys beyond rest
  end.

Definition komodo_init (in_memory : bool) (beyond : nat -> Z) (GenesisNotaries : list (string * string))
    (s : state) (height : Z) : update_result :=
  if negb (didinit (st_g s)) then
    let g := st_g s in
    let g := if height >=? 0
             then let keys := genesis_keys beyond GenesisNotaries in
                  with_table (komodo_notarysinit (Pubkeys g) (hwmheight g) 0 keys
                                (Z.of_nat (length keys))) g
             else g in
    komodo_stateupdate in_memory (State (with_didinit true g) (st_file s) (fp s)) 0 no_args
  else Updated s.
End State.

(** ** Theorems *)

Section Laws.
Context (chainName : string) (IS_KOMODO_NOTARY KOMODO_EXTERNAL_NOTARIES : bool).
Context (verify : string -> list Z -> Z -> Z -> list Z -> list Z -> Z).

Abbreviation disp := (dispatch chainName IS_KOMODO_NOTARY KOMODO_EXTERNAL_NOTARIES verify).
Abbreviation load_file' := (load_file chainName IS_KOMODO_NOTARY KOMODO_EXTERNAL_NOTARIES verify).

(** Every record read moves at least five bytes on, so a loop with one more round than the file
    has bytes ends. *)
Lemma load_loop_ends parse data : bytes_ok data ->
  (forall g pos func pos' g' sd, 0 <= pos -> parse g data pos = Record_read func pos' g' sd ->
     sd = false -> 0 <= func -> pos + 5 <= pos' /\ pos < Z.of_nat (length data)) ->
  forall fuel g pos, 0 <= pos -> Z.of_nat (length data) - pos < Z.of_nat fuel ->
  0 < Z.of_nat fuel -> load_loop parse fuel g data pos <> Out_of_fuel.
Proof.
  intros Hd Hp. induction fuel as [|fuel IH]; intros g pos Hpos Hf H0; [lia|]. cbn [load_loop].
  destruct (parse g data pos) as [func pos' g' sd|] eqn:E; [|done].
  destruct sd eqn:Es; [done|]. rewrite Z.geb_leb. destruct (Z.leb_spec 0 func); [|done].
  destruct (Hp g pos func pos' g' false Hpos E eq_refl H). apply IH; lia.
Qed.

Lemma run_record_forward limit parse g data pos func pos' g' sd :
  (forall r p, parse data pos = Parsed r p -> is_byte (fst (fst r)) /\ pos + 5 <= p) ->
  run_record chainName IS_KOMODO_NOTARY KOMODO_EXTERNAL_NOTARIES verify limit parse g data pos =
    Record_read func pos' g' sd -> sd = false -> 0 <= func ->
  pos + 5 <= pos' /\ pos < Z.of_nat (length data).
Proof.
  intros Hp. unfold run_record. destruct (Z.ltb_spec pos (Z.of_nat (length data))).
  2: { intros [= <- _ _ _] _ ?. lia. }
  destruct (parse data pos) as [[[f ht] b] p| |] eqn:E; [|intros [= _ _ _ <-]; done|done].
  destruct (dispatch _ _ _ _ _ _ _ _); [|done]. intros [= _ <- _ _] _ _.
  destruct (Hp _ _ eq_refl) as [_ ?]. done.
Qed.

(** [C26] Loading a state file ends whatever its bytes are, from memory and record by record: the
    loop never needs more rounds than the file has bytes. *)
Theorem load_file_terminates in_memory g data : bytes_ok data ->
  load_file' in_memory g data <> Out_of_fuel.
Proof.
  intros Hd. unfold load_file. apply load_loop_ends; [done| |lia|lia|lia].
  intros g0 pos func pos' g' sd Hpos H Hs Hf. destruct in_memory.
  - eapply run_record_forward; [|exact H|done|done]. intros r p. by apply parse_data_record_forward.
  - eapply run_record_forward; [|exact H|done|done]. intros r p. by apply parse_file_record_forward.
Qed.
End Laws.

Lemma load_file_terminates_witness :
  load_file "" false false (fun _ _ _ _ _ _ => 0) true new_globals (replicate 300 77) <> Out_of_fuel.
Proof. apply load_file_terminates. apply Forall_replicate. split; [discriminate|reflexivity]. Defined.

(** ** Rewinding *)

Lemma rewind_events_spec height evs s : exists removed,
  events (rewind_events height (rev evs) s) ++ removed = evs /\
  Forall (fun e => height <= ev_height e) removed /\
  (forall l e, events (rewind_events height (rev evs) s) = l ++ [e] -> ev_height e < height) /\
  rewind_events height (rev evs) s = with_events (events (rewind_events height (rev evs) s)) s.
Proof.
  revert s. induction evs as [|e evs IH] using rev_ind; intros s.
  - exists []. cbn. split; [done|]. split; [done|]. split; [|done]. by intros [|? []] ?.
  - rewrite rev_app_distr. cbn [rev app rewind_events].
    destruct (Z.ltb_spec (ev_height e) height) as [Hlt|Hge].
    + exists []. cbn [events with_events]. rewrite rev_involutive, app_nil_r. split; [done|].
      split; [done|]. split; [|done]. intros l e' E. by apply app_inj_tail in E as [_ ->].
    + destruct (IH s) as (removed & E & Hr & Hl & Hs). unfold komodo_event_undo.
      exists (removed ++ [e]). rewrite app_assoc, E. split; [done|]. split; [|by split].
      apply Forall_app. split; [done|]. by constructor.
Qed.

(** Rewinding to a height removes the newest events, all of them at or above the height,
    until the newest left is below it.  It removes nothing else: the checkpoints, the cached
    position, the saved heights and the notaries stay as they were. *)
Theorem event_rewind_removes_newest chainName g height :
  let g' := komodo_event_rewind chainName g height in
  (exists removed, events (sp g') ++ removed = events (sp g) /\
     Forall (fun e => height <= ev_height e) removed) /\
  (forall l e, events (sp g') = l ++ [e] -> ev_height e < height) /\
  sp g' = with_events (events (sp g')) (sp g) /\ Pubkeys g' = Pubkeys g.
Proof.
  intros g'. subst g'. unfold komodo_event_rewind.
  set (g1 := if isKMD chainName && _ && _ then _ else _).
  assert (sp g1 = sp g /\ Pubkeys g1 = Pubkeys g) as [E1 E2] by (subst g1; by case_match).
  cbn [sp with_sp Pubkeys]. rewrite E1, E2.
  destruct (rewind_events_spec height (events (sp g)) (sp g)) as (removed & E & Hr & Hl & Hs).
  split; [by exists removed|]. split; [done|]. by split.
Qed.

(** So the rewind event a height change adds is gone when its handler returns. *)
Lemma rewind_event_is_removed chainName g ht e : k_kheight e <= 0 ->
  Forall (fun ev => ev_height ev < ht) (events (sp g)) ->
  events (sp (komodo_eventadd_kmdheight chainName g ht e)) = events (sp g).
Proof.
  intros Hk Hev. unfold komodo_eventadd_kmdheight. rewrite Z.gtb_ltb.
  destruct (Z.ltb_spec 0 (k_kheight e)); [lia|].
  set (g1 := with_sp (add_event chainName (sp g) (Event ht EVENT_REWIND)) g).
  destruct (event_rewind_removes_newest chainName g1 ht) as ((removed & E & Hr) & Hl & _ & _).
  revert Hl E. generalize (events (sp (komodo_event_rewind chainName g1 ht))). intros l Hl E.
  assert (exists r, events (sp g1) = events (sp g) ++ r /\ Forall (fun ev => ht <= ev_height ev) r)
    as (r & E1 & Hr1).
  { subst g1. unfold add_event. destruct (isKMD chainName); cbn.
    - exists []. by rewrite app_nil_r.
    - exists [Event ht EVENT_REWIND]. split; [done|]. constructor; [cbn; lia|constructor]. }
  rewrite E1 in E. clear -E Hr Hr1 Hev Hl.
  destruct (app_eq_inv _ _ _ _ E) as [[k [E1 E2]]|[k [E1 E2]]]; subst.
  - destruct k as [|x k] using rev_ind; [by rewrite app_nil_r|]. exfalso.
    assert (ev_height x < ht) by (apply (Hl (events (sp g) ++ k) x); by rewrite app_assoc).
    apply Forall_app in Hr1 as [Hr1 _]. apply Forall_app in Hr1 as [_ Hr1].
    apply list.Forall_cons in Hr1 as [Hr1 _]. cbn in Hr1. lia.
  - destruct k as [|x k]; [by rewrite E1, app_nil_r|]. exfalso. rewrite E1 in Hev.
    apply Forall_app in Hev as [_ Hev]. apply list.Forall_cons in Hev as [Hx _].
    apply list.Forall_cons in Hr as [Hr _]. cbn in Hx, Hr. lia.
Qed.

(** ** The saved height *)

Lemma rewind_events_saved height evs s : SAVEDHEIGHT (rewind_events height evs s) = SAVEDHEIGHT s.
Proof.
  revert s. induction evs as [|e evs IH]; intros s; cbn [rewind_events]; [done|].
  case_match; [done|]. by rewrite IH.
Qed.

Lemma add_event_saved chainName s e : SAVEDHEIGHT (add_event chainName s e) = SAVEDHEIGHT s.
Proof. unfold add_event. by case_match. Qed.

Lemma setkmdheight_saved s h t : SAVEDHEIGHT (komodo_setkmdheight s h t) = Z.max (SAVEDHEIGHT s) h.
Proof.
  unfold komodo_setkmdheight. rewrite !Z.gtb_ltb.
  destruct (Z.ltb_spec (SAVEDHEIGHT s) h); case_Z; cbn; lia.
Qed.

Lemma update_saved s ht nh h t m d : SAVEDHEIGHT (komodo_notarized_update s ht nh h t m d) = SAVEDHEIGHT s.
Proof. unfold komodo_notarized_update. by case_match. Qed.

(** The saved height is the highest KMD height ever handled: an event of the state file
    raises it or leaves it, and no event, the rewinding ones included, lowers it.  (The overload
    of [komodo_event_undo] that lowers it is never selected.) *)
Theorem saved_height_never_decreases chainName notary external verify limit g ht b g' :
  dispatch chainName notary external verify limit g ht b = Some g' ->
  SAVEDHEIGHT (sp g') =
    match b with
    | Some (EVENT_KMDHEIGHT e) =>
        if k_kheight e >? 0 then Z.max (SAVEDHEIGHT (sp g)) (k_kheight e) else SAVEDHEIGHT (sp g)
    | _ => SAVEDHEIGHT (sp g)
    end.
Proof.
  destruct b as [[e|e|e|e|e|e|]|]; cbn [dispatch].
  - case_match; intros [= <-]; [|done]. apply add_event_saved.
  - intros [= <-]. unfold komodo_eventadd_notarized. case_match; [done|]. case_match; [|done].
    cbn. by rewrite update_saved, add_event_saved.
  - by intros [= <-].
  - intros [= <-]. unfold komodo_eventadd_kmdheight. case_match; cbn.
    + by rewrite setkmdheight_saved, add_event_saved.
    + unfold komodo_event_rewind. cbn. rewrite rewind_events_saved. case_match; cbn; apply add_event_saved.
  - case_match; [|by intros [= <-]]. unfold komodo_eventadd_opreturn.
    case_match; [by intros [= <-]|]. destruct (o_opret e); [done|].
    case_match; intros [= <-]; apply add_event_saved.
  - intros [= <-]. apply add_event_saved.
  - by intros [= <-].
  - by intros [= <-].
Qed.

Lemma saved_height_never_decreases_witness :
  SAVEDHEIGHT (sp (komodo_eventadd_kmdheight "LABS"
    (komodo_eventadd_kmdheight "LABS" new_globals 7 (EventKmdheight 100 5)) 7 (EventKmdheight (-7) 5))) = 100.
Proof.
  set (g := komodo_eventadd_kmdheight "LABS" new_globals 7 (EventKmdheight 100 5)).
  etransitivity.
  - apply (saved_height_never_decreases "LABS" false false (fun _ _ _ _ _ _ => 0) false g 7
             (Some (EVENT_KMDHEIGHT (EventKmdheight (-7) 5)))). reflexivity.
  - vm_compute. reflexivity.
Defined.

(** ** The file and the run that wrote it *)

Section Replay.
Context (chainName : string) (IS_KOMODO_NOTARY KOMODO_EXTERNAL_NOTARIES : bool).
Context (verify : string -> list Z -> Z -> Z -> list Z -> list Z -> Z).

Abbreviation disp := (dispatch chainName IS_KOMODO_NOTARY KOMODO_EXTERNAL_NOTARIES verify).
Abbreviation stateupdate := (komodo_stateupdate chainName IS_KOMODO_NOTARY KOMODO_EXTERNAL_NOTARIES verify).

(** The handler [komodo_stateupdate] calls for an event it has written. *)
Definition handle (g : globals) (e : event) : option globals :=
  match ev_body e with
  | EVENT_PUBKEYS pk => Some (komodo_eventadd_pubkeys chainName g (ev_height e) pk)
  | EVENT_NOTARIZED b => Some (komodo_eventadd_notarized chainName IS_KOMODO_NOTARY verify g (ev_height e) b)
  | EVENT_KMDHEIGHT b => Some (komodo_eventadd_kmdheight chainName g (ev_height e) b)
  | EVENT_OPRETURN b => komodo_eventadd_opreturn chainName g (ev_height e) b
  | EVENT_PRICEFEED b => Some (komodo_eventadd_pricefeed chainName g (ev_height e) b)
  | EVENT_U _ | EVENT_REWIND => Some g
  end.

(** The events whose record holds all of them, and that the reader of the chain handles: it takes the
    keys of notaries on KMD, or when the notaries are those of another chain. *)
Definition loggable (e : event) : Prop :=
  event_wf e /\ stored true (dest chainName) (ev_body e) = Some (ev_body e) /\
  match ev_body e with EVENT_PUBKEYS _ => isKMD chainName = true \/ KOMODO_EXTERNAL_NOTARIES = true | _ => True end.

Lemma symbol_matched :
  (if isKMD chainName && String.eqb (symbol chainName) "KMD" then true
   else isSymbol chainName (symbol chainName)) = true.
Proof.
  unfold symbol, isSymbol. destruct (isKMD chainName) eqn:E; [done|]. cbn. apply String.eqb_refl.
Qed.

Lemma dispatch_handle g e : loggable e -> disp false g (ev_height e) (Some (ev_body e)) = handle g e.
Proof.
  intros (_ & _ & Hc). unfold handle. destruct (ev_body e) as [b|b|b|b|b|b|] eqn:E; cbn [dispatch]; try done.
  rewrite symbol_matched. destruct Hc as [Hk| ->]; [|done].
  unfold symbol. rewrite Hk. by destruct KOMODO_EXTERNAL_NOTARIES.
Qed.

(** Events handled one after the other. *)
Fixpoint replay (g : globals) (evs : list event) : option globals :=
  match evs with
  | [] => Some g
  | e :: evs => match handle g e with Some g' => replay g' evs | None => None end
  end.

Lemma replay_snoc evs e : forall g g1, replay g evs = Some g1 -> replay g (evs ++ [e]) = handle g1 e.
Proof.
  induction evs as [|e' evs IH]; intros g g1; cbn [app replay].
  - intros [= <-]. by destruct (handle g e).
  - destruct (handle g e') as [g'|]; [|done]. apply IH.
Qed.

Lemma read_logged g e data pos rest : loggable e -> at_pos data pos (write_event e ++ rest) ->
  komodo_parsestatefiledata chainName IS_KOMODO_NOTARY KOMODO_EXTERNAL_NOTARIES verify g data pos =
    match handle g e with
    | Some g' => Record_read (event_letter (ev_body e)) (pos + Z.of_nat (length (write_event e))) g' false
    | None => Undefined
    end.
Proof.
  intros He Hat. pose proof (dispatch_handle g e He) as Hd. destruct He as (Hw & Hs & _).
  unfold komodo_parsestatefiledata, run_record.
  pose proof (at_pos_drop _ _ _ Hat) as [_ Hl]. rewrite length_app in Hl.
  destruct (Z.ltb_spec pos (Z.of_nat (length data))) as [_|Hge].
  2: { unfold write_event, write_header in Hl. cbn [length app] in Hl. lia. }
  rewrite (reads_data_record _ e Hw _ _ rest Hat), Hs, Hd. by destruct (handle g e).
Qed.

Lemma event_letter_pos b : 0 <= event_letter b.
Proof. destruct b; cbn; try case_match; lia. Qed.

Lemma load_logged evs : forall fuel g g' data pos, Forall loggable evs ->
  at_pos data pos (concat (map write_event evs)) -> (length evs < fuel)%nat -> replay g evs = Some g' ->
  load_loop (komodo_parsestatefiledata chainName IS_KOMODO_NOTARY KOMODO_EXTERNAL_NOTARIES verify)
    fuel g data pos = Loaded g'.
Proof.
  induction evs as [|e evs IH]; intros [|fuel] g g' data pos He Hat Hf Hr; cbn [length] in Hf; try lia; cbn [load_loop].
  - injection Hr as <-. apply at_pos_drop in Hat as [_ Hat]. cbn in Hat. unfold komodo_parsestatefiledata, run_record.
    destruct (Z.ltb_spec pos (Z.of_nat (length data))); [lia|]. done.
  - apply list.Forall_cons in He as [He Hevs]. cbn [map concat] in Hat.
    rewrite (read_logged g e data pos _ He Hat). cbn [replay] in Hr.
    destruct (handle g e) as [g1|]; [|done].
    rewrite Z.geb_leb. destruct (Z.leb_spec 0 (event_letter (ev_body e))).
    2: { pose proof (event_letter_pos (ev_body e)). lia. }
    apply IH; [done|by apply at_pos_app|lia|done].
Qed.

Lemma write_event_nonempty e : (1 <= length (write_event e))%nat.
Proof. unfold write_event, write_header. cbn [app length]. lia. Qed.

Lemma length_concat_ge evs : (length evs <= length (concat (map write_event evs)))%nat.
Proof.
  induction evs as [|e evs IH]; cbn [map concat length]; [lia|].
  rewrite length_app. pose proof (write_event_nonempty e). lia.
Qed.

(** Loading a file with the records of events handles the events. *)
Lemma load_replays g0 evs g : Forall loggable evs -> replay g0 evs = Some g ->
  load_file chainName IS_KOMODO_NOTARY KOMODO_EXTERNAL_NOTARIES verify true g0 (concat (map write_event evs)) = Loaded g.
Proof.
  intros He Hr. unfold load_file. apply (load_logged evs); [done|by exists []| |done].
  pose proof (length_concat_ge evs). lia.
Qed.

(** The event of a call: the notarisation it may write is the last one. *)
Lemma write_and_handle_event s h a :
  match write_and_handle chainName IS_KOMODO_NOTARY verify s h a with
  | Updated s' =>
      s' = s \/ exists e, ev_height e = h /\
        (forall b, ev_body e = EVENT_NOTARIZED b -> n_notarizedheight b = LastNotarizedHeight (sp (st_g s))) /\
        log_event s e (handle (st_g s) e) = Updated s'
  | Stopped _ => False
  | Crash => is_Some (a_opretbuf a) \/ is_Some (a_pvals a)
  end.
Proof.
  unfold write_and_handle.
  assert (forall e, (forall b, ev_body e = EVENT_NOTARIZED b ->
      n_notarizedheight b = LastNotarizedHeight (sp (st_g s))) -> ev_height e = h ->
    (is_Some (handle (st_g s) e) \/ is_Some (a_opretbuf a)) ->
    match log_event s e (handle (st_g s) e) with
    | Updated s' => s' = s \/ exists e, ev_height e = h /\
        (forall b, ev_body e = EVENT_NOTARIZED b -> n_notarizedheight b = LastNotarizedHeight (sp (st_g s))) /\
        log_event s e (handle (st_g s) e) = Updated s'
    | Stopped _ => False
    | Crash => is_Some (a_opretbuf a) \/ is_Some (a_pvals a)
    end) as Hlog.
  { intros e Hn Hh Hs. destruct (handle (st_g s) e) as [g'|] eqn:Eh; cbn [log_event].
    - right. exists e. split; [done|]. split; [done|]. by rewrite Eh.
    - destruct Hs as [[? ?]|]; [done|by left]. }
  destruct (negb (a_KMDheight a =? 0)).
  { apply (Hlog (Event h (EVENT_KMDHEIGHT _))); [done|done|left; by eexists]. }
  destruct (bool_decide (is_Some (a_opretbuf a)) && _) eqn:E1.
  { apply (Hlog (Event h (EVENT_OPRETURN _))); [done|done|right]. by propify. }
  destruct (bool_decide (is_Some (a_notarypubs a)) && _).
  { apply (Hlog (Event h (EVENT_PUBKEYS _))); [done|done|left; by eexists]. }
  destruct (bool_decide (is_Some (a_pvals a)) && _) eqn:E2.
  - propify. unfold update_prices. destruct (forallb _ _); [|by left]. destruct (_ >? 35); [by right|].
    apply (Hlog (Event h (EVENT_PRICEFEED _))); [done|done|left; by eexists].
  - unfold update_notarized. destruct (negb (h =? 0)); [|by left].
    apply (Hlog (Event h (EVENT_NOTARIZED _))); [|done|left; by eexists]. by intros b [= <-].
Qed.

Lemma stateupdate_open in_memory s h a : st_open s = true ->
  stateupdate in_memory s h a =
    if h <=? 0 then Updated s else write_and_handle chainName IS_KOMODO_NOTARY verify s h a.
Proof.
  unfold st_open at 1. intros Ho. unfold komodo_stateupdate, open_file, st_open.
  destruct (fp s) eqn:E; [done| |done]. by rewrite E.
Qed.

(** A call of [komodo_stateupdate] on an open file does one of two things: nothing (when the
    height is not positive, or there is nothing to write), or it appends the record of one event
    of that height to the file and runs that event's handler. *)
Theorem stateupdate_logs_one_event in_memory s h a s' : st_open s = true ->
  stateupdate in_memory s h a = Updated s' ->
  s' = s \/ 0 < h /\ exists e, ev_height e = h /\ log_event s e (handle (st_g s) e) = Updated s'.
Proof.
  intros Ho. rewrite (stateupdate_open _ _ _ _ Ho).
  destruct (Z.leb_spec h 0); [intros [= <-]; by left|]. intros E.
  pose proof (write_and_handle_event s h a) as Hw. rewrite E in Hw.
  destruct Hw as [->|(e & He & _ & Hl)]; [by left|]. right. split; [done|]. by exists e.
Qed.

(** A state file with a record that cannot be read stops the node through a stream that is closed
    and still pointed at: the call that loads the file returns early, without the event it was
    given, and every later call that has something to write writes to the closed stream, which
    is undefined. *)
Theorem update_after_stop_undefined in_memory s h a s' :
  stateupdate in_memory s h a = Stopped s' ->
  fp s = Null_stream /\ st_file s' = st_file s /\ fp s' = Closed_stream /\
  forall h' a', stateupdate in_memory s' h' a' = if h' <=? 0 then Updated s' else Crash.
Proof.
  unfold komodo_stateupdate at 1, open_file. intros E.
  assert (forall s0, (if h <=? 0 then Updated s0 else if st_open s0
    then write_and_handle chainName IS_KOMODO_NOTARY verify s0 h a else Crash) <> Stopped s') as Hns.
  { intros s0. destruct (h <=? 0); [done|]. destruct (st_open s0); [|done].
    pose proof (write_and_handle_event s0 h a) as Hw. by destruct (write_and_handle _ _ _ _ _ _). }
  destruct (fp s); [|by apply Hns in E|by apply Hns in E].
  destruct (st_file s) as [data|]; [|by apply Hns in E].
  destruct (load_file _ _ _ _ _ _ _) as [g|g| |]; [by apply Hns in E| |done|done].
  injection E as <-. cbn. split_and!; [done|done|done|]. done.
Qed.
End Replay.

(** A height, a notarisation and a transaction's data, on the chain LABS. *)
Definition sample_events : list event :=
  [Event 5 (EVENT_KMDHEIGHT (EventKmdheight 100 1600000000));
   Event 6 (EVENT_NOTARIZED (EventNotarized (replicate 32 7) (replicate 32 9) (replicate 32 3) 4 2
              (dest "LABS")));
   Event 6 (EVENT_OPRETURN (EventOpreturn (replicate 32 8) 1 1000 [75; 1; 2]));
   Event 7 (EVENT_KMDHEIGHT (EventKmdheight (-7) 1600000060))].

Lemma sample_events_loggable : Forall (loggable "LABS" false) sample_events.
Proof. repeat constructor; vm_compute; try discriminate; try reflexivity; repeat constructor; discriminate. Qed.

Example sample_replayed : exists g,
  load_file "LABS" false false (fun _ _ _ _ _ _ => 0) true new_globals (concat (map write_event sample_events)) = Loaded g /\
  length (events (sp g)) = 3%nat /\ NumCheckpoints (sp g) = 1.
Proof.
  eexists. split; [|split].
  - apply (load_replays _ _ _ _ _ sample_events); [apply sample_events_loggable|vm_compute; reflexivity].
  - reflexivity.
  - reflexivity.
Qed.

Lemma stateupdate_logs_one_event_witness :
  exists s', komodo_stateupdate "LABS" false false (fun _ _ _ _ _ _ => 0) true
    (State new_globals (Some []) Open_stream) 5 (UpdateArgs None 0 zero256 None 0 (-5) 77 0 None 0 0) = Updated s' /\
  st_file s' = Some [84; 5; 0; 0; 0; 251; 255; 255; 255; 77; 0; 0; 0] /\
  (s' = State new_globals (Some []) Open_stream \/ 0 < 5 /\ exists e, ev_height e = 5 /\
     log_event (State new_globals (Some []) Open_stream) e (handle "LABS" false (fun _ _ _ _ _ _ => 0) new_globals e)
       = Updated s').
Proof.
  eexists. split; [vm_compute; reflexivity|]. split; [reflexivity|].
  apply (stateupdate_logs_one_event "LABS" false false (fun _ _ _ _ _ _ => 0) true
           (State new_globals (Some []) Open_stream) 5 (UpdateArgs None 0 zero256 None 0 (-5) 77 0 None 0 0));
    [reflexivity | vm_compute; reflexivity].
Defined.

Lemma update_after_stop_undefined_witness :
  exists s', komodo_stateupdate "LABS" false false (fun _ _ _ _ _ _ => 0) true
    (State new_globals (Some [33; 1; 0; 0; 0]) Null_stream) 5 no_args = Stopped s' /\
  komodo_stateupdate "LABS" false false (fun _ _ _ _ _ _ => 0) true s' 6 no_args = Crash.
Proof.
  eexists. split; [vm_compute; reflexivity|].
  destruct (update_after_stop_undefined "LABS" false false (fun _ _ _ _ _ _ => 0) true
    (State new_globals (Some [33; 1; 0; 0; 0]) Null_stream) 5 no_args
    (State new_globals (Some [33; 1; 0; 0; 0]) Closed_stream)) as (_ & _ & _ & H);
    [vm_compute; reflexivity|]. exact (H 6 no_args).
Defined.
