(* ===== verification/Notary.v ===== *)
(** * Notary: which notaries a block has
    [src/src/komodo_notary.cpp] (seasons, [komodo_notaries], [komodo_electednotary],
    [komodo_chosennotary], [komodo_ratify_threshold]), [src/src/notaries_staked.cpp]
    ([STAKED_era], [numStakedNotaries]), [komodo_notarycmp] of [src/src/komodo.cpp] and
    [bitweight] of [src/src/komodo_utils.cpp].  The decoded keys of a season are kept in a static
    array; decoding them each time gives the same array. *)
From Stdlib Require Import String.
From S2P Require Import Prelude Subsidy KomodoEvents NotaryKeys NotaryTable.

(** ** Seasons and eras *)

(** The loop of [getkmdseason] and [getacseason], from index [i]: [prev] is the bound before. *)
Fixpoint season_loop (x : Z) (i : Z) (prev : Z) (bounds : list Z) : Z :=
  match bounds with
  | [] => 0
  | b :: rest => if (x <=? b) && (x >? prev) then i + 1 else season_loop x (i + 1) b rest
  end.

Definition season_of (bounds : list Z) (x : Z) : Z :=
  if x <=? nth 0 bounds 0 then 1 else season_loop x 1 (nth 0 bounds 0) (tl bounds).

Definition getkmdseason (height : Z) : Z := season_of KMD_SEASON_HEIGHTS height.
Definition getacseason (timestamp : Z) : Z := season_of KMD_SEASON_TIMESTAMPS timestamp.

Definition STAKED_ERA_GAP : Z := 777.
Definition NUM_STAKED_ERAS : Z := 4.
Definition STAKED_NOTARIES_TIMESTAMP : list Z := [1572523200; 1704244444; 1704244444; 1704244444].
Definition num_notaries_STAKED : list Z := [22; 24; 1; 1].
Definition notaries_STAKED : list (list (string * string)) :=
  [notaries_era_1; notaries_era_2; notaries_era_3; notaries_era_4].

(** The eras have a gap between them, in which the era is 0. *)
Fixpoint era_loop (timestamp : Z) (i : Z) (prev : Z) (bounds : list Z) : Z :=
  match bounds with
  | [] => 0
  | b :: rest =>
      if (timestamp <=? b) && (timestamp >=? prev + STAKED_ERA_GAP) then i + 1
      else era_loop timestamp (i + 1) b rest
  end.

Definition STAKED_era (timestamp : Z) : Z :=
  if timestamp <=? nth 0 STAKED_NOTARIES_TIMESTAMP 0 then 1
  else era_loop timestamp 1 (nth 0 STAKED_NOTARIES_TIMESTAMP 0) (tl STAKED_NOTARIES_TIMESTAMP).

(** [numStakedNotaries]: the number, and the rows written to the caller's array. *)
Definition numStakedNotaries (beyond : nat -> Z) (era : Z) : Z * list (list Z) :=
  if era =? 0 then (64, replicate 64 (replicate 33 0))
  else
    let i := Z.to_nat (era - 1) in
    let num := nth i num_notaries_STAKED 0 in
    (num, map (fun notary => fst (decode_hex beyond 33 (snd notary)))
              (take (Z.to_nat num) (nth i notaries_STAKED []))).

(** ** The notaries of a height or a time *)

Definition KOMODO_NOTARIES_HARDCODED : Z := 180000.

(** The visit of the entries of a table ([HASH_ITER]): the mask of the identifiers met and the
    rows written. *)
Fixpoint table_rows (n : Z) (entries : list knotary_entry) (mask : Z) (rows : list (list Z))
    : Z * list (list Z) :=
  match entries with
  | [] => (mask, rows)
  | kp :: rest =>
      if kn_notaryid kp <? n
      then table_rows n rest (Z.lor mask (u64 (Z.shiftl 1 (kn_notaryid kp))))
             (<[Z.to_nat (kn_notaryid kp) := kn_pubkey kp]> rows)
      else table_rows n rest mask rows
  end.

Section Notaries.

(** The chain, the times of its blocks ([komodo_heightstamp] reads the active chain), the memory
    behind the strings of the tables, and the lookup of the hash table library. *)
Context (chainName : string) (komodo_heightstamp : Z -> Z) (beyond : nat -> Z).
Context (HASH_FIND : list knotary_entry -> list Z -> option knotary_entry).

Definition chain_is_KMD : bool := String.eqb chainName "".

(** The time the selection uses. *)
Definition notaries_timestamp (height timestamp : Z) : Z :=
  if chain_is_KMD then 0
  else if timestamp =? 0 then komodo_heightstamp height else timestamp.

(** The season, or 0 when the notaries come from the elections. *)
Definition notaries_season (height timestamp : Z) : Z :=
  if chain_is_KMD
  then if height >=? KOMODO_NOTARIES_HARDCODED then getkmdseason height else 0
  else getacseason timestamp.

(** [komodo_notaries] with the array [Pubkeys] it finds (after [komodo_init], which fills it) and
    the caller's array: the number of notaries (-1: the table is incomplete) and the array.
    [None]: an index outside the array [Pubkeys]. *)
Definition komodo_notaries (Pubkeys : list knotaries_entry) (pubkeys : list (list Z))
    (height timestamp : Z) : option (Z * list (list Z)) :=
  let timestamp := notaries_timestamp height timestamp in
  let staked := negb (is_STAKED chainName =? 0) in
  let season := if staked then 0 else notaries_season height timestamp in
  if negb (season =? 0) then
    Some (NUM_KMD_NOTARIES, overwrite (season_keys beyond (Z.to_nat season)) pubkeys)
  else if staked && negb (timestamp =? 0) then
    let '(numSN, rows) := numStakedNotaries beyond (STAKED_era (i32 timestamp)) in
    Some (numSN, overwrite rows pubkeys)
  else
    let htind := ht_index_from_height height in
    if htind <? 0 then None
    else match Pubkeys !! Z.to_nat htind with
         | None => None
         | Some e =>
             let n := numnotaries e in
             let '(mask, rows) := table_rows n (Notaries e) 0 pubkeys in
             if ((n <? 64) && (mask =? u64 (Z.shiftl 1 n - 1)))
                || ((n =? 64) && (mask =? 0xffffffffffffffff))
             then Some (n, rows) else Some (-1, rows)
         end.

(** The first row equal to the key. *)
Fixpoint find_row (key : list Z) (i : Z) (rows : list (list Z)) : Z :=
  match rows with
  | [] => -1
  | r :: rest => if bool_decide (key = r) then i else find_row key (i + 1) rest
  end.

(** [komodo_electednotary]: the index and the number of notaries.  The array is a local of the
    function, not initialised: [garbage]. *)
Definition komodo_electednotary (Pubkeys : list knotaries_entry) (garbage : list (list Z))
    (pubkey33 : list Z) (height timestamp : Z) : option (Z * Z) :=
  match komodo_notaries Pubkeys garbage height timestamp with
  | Some (n, rows) => Some (find_row pubkey33 0 (take (Z.to_nat n) rows), n)
  | None => None
  end.

(** [komodo_chosennotary]: the result (-1: not a notary, 1: the special notary of the height)
    and the identifier stored. *)
Definition komodo_chosennotary (Pubkeys : list knotaries_entry) (garbage : list (list Z))
    (height : Z) (pubkey33 : list Z) (timestamp : Z) : option (Z * Z) :=
  let from_table (notaryid : Z) : option (Z * Z) :=
    if height >=? 250000 then Some (-1, notaryid)
    else
      let htind := ht_index_from_height height in
      match Pubkeys !! Z.to_nat htind with
      | None => None
      | Some e =>
          match HASH_FIND (Notaries e) pubkey33 with
          | Some kp =>
              if numnotaries e >? 0
              then Some (if Z.rem height (numnotaries e) =? kn_notaryid kp then 1 else 0, kn_notaryid kp)
              else Some (-1, notaryid)
          | None => Some (-1, notaryid)
          end
      end in
  if height <? 0 then Some (-1, -1)
  else if (height >=? KOMODO_NOTARIES_HARDCODED) || negb chain_is_KMD then
    match komodo_electednotary Pubkeys garbage pubkey33 height timestamp with
    | Some (notaryid, numnotaries) =>
        if (notaryid >=? 0) && negb (numnotaries =? 0)
        then Some (if Z.rem height numnotaries =? notaryid then 1 else 0, notaryid)
        else from_table notaryid
    | None => None
    end
  else from_table (-1).
End Notaries.

(** ** Signatures *)

Definition bitweight (x : Z) : Z :=
  fold_left (fun wt i => if Z.land (u64 (Z.shiftl 1 (Z.of_nat i))) x =? 0 then wt else wt + 1) (seq 0 64) 0.

Definition komodo_ratify_threshold (Pubkeys : list knotaries_entry) (height signedmask : Z) : option Z :=
  match Pubkeys !! Z.to_nat (ht_index_from_height height) with
  | None => None
  | Some e =>
      let n := numnotaries e in
      let wt := fold_left (fun wt i => if Z.land (Z.shiftl 1 (Z.of_nat i)) signedmask =? 0 then wt else wt + 1)
                  (seq 0 (Z.to_nat n)) 0 in
      Some (if (wt >? Z.shiftr n 1) || ((wt >? 7) && negb (Z.land signedmask 1 =? 0)) then 1 else 0)
  end.

(** [komodo_notarycmp]: the index of the notary an output pays to: notary 0 through its hash, the
    others through their keys. *)
Definition komodo_notarycmp (scriptPubKey : list Z) (scriptlen : Z) (pubkeys : list (list Z))
    (numnotaries : Z) (rmd160 : list Z) : Z :=
  if (scriptlen =? 25) && bool_decide (take 20 (drop 3 scriptPubKey) = rmd160) then 0
  else if scriptlen =? 35 then
    find_row (take 33 (drop 1 scriptPubKey)) 0 (take (Z.to_nat numnotaries) pubkeys)
  else -1.

(** ** Seasons cover the line *)

Fixpoint increasing_from (prev : Z) (l : list Z) : Prop :=
  match l with [] => True | b :: r => prev < b /\ increasing_from b r end.

Lemma increasing_from_ge prev l : increasing_from prev l -> Forall (fun b => prev < b) l.
Proof.
  revert prev. induction l as [|b l IH]; intros prev H; [done|]. destruct H as [Hb H].
  constructor; [done|]. apply IH in H. eapply Forall_impl; [|exact H]. intros c. cbn. lia.
Qed.

Lemma season_loop_spec x : forall bounds i prev, 0 <= i -> increasing_from prev bounds -> prev < x ->
  (Forall (fun b => b < x) bounds /\ season_loop x i prev bounds = 0) \/
  exists k : nat, (k < length bounds)%nat /\ season_loop x i prev bounds = i + 1 + Z.of_nat k /\
    nth k (prev :: bounds) 0 < x <= nth k bounds 0.
Proof.
  induction bounds as [|b bounds IH]; intros i prev Hi H Hx; cbn [season_loop]; [by left|].
  destruct H as [Hb H]. rewrite Z.gtb_ltb. destruct (Z.leb_spec x b).
  - destruct (Z.ltb_spec prev x); [|lia]. right. exists O. cbn. split_and!; lia.
  - cbn [andb]. destruct (IH (i + 1) b ltac:(lia) H ltac:(lia)) as [[Hall ->]|(k & Hk & -> & Hn)].
    + left. split; [|done]. by constructor.
    + right. exists (S k). cbn [length nth]. split_and!; [lia|lia|apply Hn|apply Hn].
Qed.

Lemma season_of_spec b0 bounds x : increasing_from b0 bounds ->
  (Forall (fun b => b < x) (b0 :: bounds) /\ season_of (b0 :: bounds) x = 0) \/
  exists k : nat, (k < length (b0 :: bounds))%nat /\ season_of (b0 :: bounds) x = Z.of_nat k + 1 /\
    x <= nth k (b0 :: bounds) 0 /\ (k = O \/ nth (k - 1) (b0 :: bounds) 0 < x).
Proof.
  intros H. unfold season_of. cbn [nth tl]. destruct (Z.leb_spec x b0).
  - right. exists O. cbn. split_and!; [lia|lia|lia|by left].
  - destruct (season_loop_spec x bounds 1 b0 ltac:(lia) H ltac:(lia)) as [[Hall ->]|(k & Hk & -> & Hn)].
    + left. split; [|done]. by constructor.
    + right. exists (S k). cbn [length]. split_and!; [lia|lia|apply Hn|]. right.
      replace (S k - 1)%nat with k by lia. apply Hn.
Qed.

(** A height belongs to the season in whose interval it lies: after the end of the season
    before (the first season has no beginning) and up to its own end; only the heights after the
    last end have no season. *)
Theorem getkmdseason_interval height :
  let season := getkmdseason height in
  0 <= season <= 9 /\
  (season = 0 <-> 8113400 < height) /\
  (0 < season -> height <= nth (Z.to_nat (season - 1)) KMD_SEASON_HEIGHTS 0 /\
     (season = 1 \/ nth (Z.to_nat (season - 2)) KMD_SEASON_HEIGHTS 0 < height)).
Proof.
  unfold getkmdseason, KMD_SEASON_HEIGHTS.
  match goal with |- context [season_of (?b :: ?l) _] => destruct (season_of_spec b l height) as [[H ->]|(k & Hk & E & Hx & Hp)] end.
  - cbn. lia.
  - split; [lia|]. split; [|lia]. split; [|done]. intros _.
    assert (8113400 ∈ [814000; 1444000; 1670000; 1922000; 2437300; 2963330; 3484958; 4125988; 8113400])
      as Hin by (rewrite !elem_of_cons; tauto).
    by apply (proj1 (list.Forall_forall _ _) H _ Hin).
  - rewrite E. cbn [length] in Hk. split; [lia|]. split.
    + split; [lia|]. intros Hgt. exfalso.
      do 9 (destruct k as [|k]; [cbn in Hx; lia|]). lia.
    + intros _. replace (Z.to_nat (Z.of_nat k + 1 - 1)) with k by lia. split; [done|].
      destruct Hp as [->|Hp]; [by left|]. destruct k as [|k]; [by left|]. right.
      replace (Z.to_nat (Z.of_nat (S k) + 1 - 2)) with (S k - 1)%nat by lia. done.
Qed.

Lemma getkmdseason_interval_witness : getkmdseason 1444001 = 3.
Proof.
  destruct (getkmdseason_interval 1444001) as (H1 & H2 & H3).
  vm_compute in H1. vm_compute. reflexivity.
Defined.

(** ** The notary of a height *)

Lemma find_row_nodup rows : NoDup rows -> forall (i : nat) base key, rows !! i = Some key ->
  find_row key base rows = base + Z.of_nat i.
Proof.
  induction 1 as [|r rows Hr Hn IH]; intros i base key Hi; [done|]. cbn [find_row].
  destruct i as [|i]; cbn in Hi.
  - injection Hi as ->. rewrite bool_decide_eq_true_2 by done. lia.
  - rewrite bool_decide_eq_false_2.
    + rewrite (IH i) by done. lia.
    + intros ->. apply Hr. by apply list_elem_of_lookup_2 with i.
Qed.

Lemma find_row_absent rows key base : key ∉ rows -> find_row key base rows = -1.
Proof.
  revert base. induction rows as [|r rows IH]; intros base Hk; cbn [find_row]; [done|].
  rewrite elem_of_cons in Hk. rewrite bool_decide_eq_false_2 by tauto. apply IH. tauto.
Qed.

Lemma take_overwrite {A} (new old : list A) n : length new = n -> take n (overwrite new old) = new.
Proof. intros <-. unfold overwrite. apply take_app_length. Qed.

(** The notaries of a height of the KMD chain are the keys of its season. *)
Lemma notaries_of_height heightstamp beyond Pubkeys garbage height timestamp :
  180000 <= height <= 8113400 ->
  let keys := season_keys beyond (Z.to_nat (getkmdseason height)) in
  length keys = 64%nat /\ NoDup keys /\
  komodo_notaries "" heightstamp beyond Pubkeys garbage height timestamp = Some (64, overwrite keys garbage).
Proof.
  intros Hh keys. destruct (getkmdseason_interval height) as (Hs & H0 & _).
  destruct notary_tables_ok as (_ & _ & _ & _ & Ht).
  destruct (Ht beyond (Z.to_nat (getkmdseason height))) as (Hl & _ & Hnd); [lia|].
  split; [done|]. split; [done|].
  assert (notaries_season "" height 0 = getkmdseason height) as Es.
  { unfold notaries_season, KOMODO_NOTARIES_HARDCODED. rewrite Z.geb_leb.
    by destruct (Z.leb_spec 180000 height); [|lia]. }
  unfold komodo_notaries. change (notaries_timestamp "" heightstamp height timestamp) with 0.
  change (negb (is_STAKED "" =? 0)) with false. cbn [andb]. rewrite Es.
  by destruct (Z.eqb_spec (getkmdseason height) 0); [lia|].
Qed.

Lemma find_row_range key rows base : find_row key base rows = -1 \/
  (base <= find_row key base rows < base + Z.of_nat (length rows) /\
   rows !! Z.to_nat (find_row key base rows - base) = Some key).
Proof.
  revert base. induction rows as [|r rows IH]; intros base; cbn [find_row]; [by left|].
  destruct (bool_decide_reflect (key = r)) as [<-|Hne].
  - right. cbn [length]. split; [lia|]. by rewrite Z.sub_diag.
  - destruct (IH (base + 1)) as [E|[Hb Hr]]; [by left|right]. cbn [length]. split; [lia|].
    replace (Z.to_nat (find_row key (base + 1) rows - base))
      with (S (Z.to_nat (find_row key (base + 1) rows - (base + 1)))) by lia. done.
Qed.

(** [komodo_chosennotary] looks the key up among those of the season. *)
Lemma chosennotary_find heightstamp beyond HASH_FIND Pubkeys garbage height key timestamp :
  180000 <= height <= 8113400 ->
  let nid := find_row key 0 (season_keys beyond (Z.to_nat (getkmdseason height))) in
  0 <= nid \/ 250000 <= height ->
  komodo_chosennotary "" heightstamp beyond HASH_FIND Pubkeys garbage height key timestamp =
    Some (if 0 <=? nid then (if height mod 64 =? nid then 1 else 0) else -1, nid).
Proof.
  intros Hh nid Hn.
  destruct (notaries_of_height heightstamp beyond Pubkeys garbage height timestamp Hh) as (Hl & _ & E).
  assert (komodo_electednotary "" heightstamp beyond Pubkeys garbage key height timestamp = Some (nid, 64)) as Ee.
  { unfold komodo_electednotary. rewrite E. change (Z.to_nat 64) with 64%nat. by rewrite take_overwrite. }
  unfold komodo_chosennotary, KOMODO_NOTARIES_HARDCODED. rewrite !Z.geb_leb, Ee.
  destruct (Z.ltb_spec height 0); [lia|]. destruct (Z.leb_spec 180000 height); [|lia]. cbn [orb].
  rewrite Z.geb_leb. destruct (Z.leb_spec 0 nid); cbn [Z.eqb negb andb]; [by rewrite Z.rem_mod_nonneg by lia|].
  destruct (Z.leb_spec 250000 height); [done|lia].
Qed.

(** On the KMD chain, from the end of the fixed notaries to the end of the last season, each
    of the 64 keys of the height's season is an elected notary under its own index, exactly one of
    them, the one whose index is the height modulo 64, is the special notary of the height, and
    (once the first elections are over) no other key is a notary at all.  Neither the table of
    elections, nor uninitialised memory, nor the time given has a part in it. *)
Theorem chosennotary_of_height heightstamp beyond HASH_FIND Pubkeys garbage height timestamp :
  180000 <= height <= 8113400 ->
  let keys := season_keys beyond (Z.to_nat (getkmdseason height)) in
  let chosen key := komodo_chosennotary "" heightstamp beyond HASH_FIND Pubkeys garbage height key timestamp in
  length keys = 64%nat /\
  (forall (i : nat) key, keys !! i = Some key ->
     chosen key = Some (if height mod 64 =? Z.of_nat i then 1 else 0, Z.of_nat i)) /\
  (forall key, key ∉ keys -> 250000 <= height -> chosen key = Some (-1, -1)).
Proof.
  intros Hh keys chosen.
  destruct (notaries_of_height heightstamp beyond Pubkeys garbage height timestamp Hh) as (Hl & Hnd & _).
  fold keys in Hl, Hnd. split; [done|]. unfold chosen. split.
  - intros i key Hi. pose proof (find_row_nodup keys Hnd i 0 key Hi) as Ef. fold keys in Ef.
    rewrite chosennotary_find; [|done|left; fold keys; lia]. fold keys. rewrite Ef, Z.add_0_l.
    by destruct (Z.leb_spec 0 (Z.of_nat i)); [|lia].
  - intros key Hk Hb. pose proof (find_row_absent keys key 0 Hk) as Ef.
    rewrite chosennotary_find; [|done|by right]. fold keys. by rewrite Ef.
Qed.

Lemma chosennotary_of_height_witness :
  exists key, komodo_chosennotary "" (fun _ => 0) (fun _ => 0) (fun _ _ => None) [] [] 4125990 key 0 = Some (1, 38).
Proof.
  destruct (chosennotary_of_height (fun _ => 0) (fun _ => 0) (fun _ _ => None) [] [] 4125990 0) as (Hl & H & _);
    [lia|].
  destruct (lookup_lt_is_Some_2 (season_keys (fun _ => 0) (Z.to_nat (getkmdseason 4125990))) 38) as [key Hk];
    [rewrite Hl; lia|].
  exists key. exact (H 38%nat key Hk).
Defined.

(** ** Lookups are defined *)

Lemma ht_index_bound height : 0 <= height -> 0 <= ht_index_from_height height < 125.
Proof.
  intros Hh. unfold ht_index_from_height, KOMODO_ELECTION_GAP.
  change (Z.quot KOMODO_MAXBLOCKS 2000) with 125. rewrite Z.geb_leb, Z.quot_div_nonneg by lia.
  pose proof (Z.div_pos height 2000). case_Z; lia.
Qed.

Lemma chosennotary_defined chainName heightstamp beyond HASH_FIND table garbage height key timestamp :
  table_ok table -> 0 <= height ->
  is_Some (komodo_chosennotary chainName heightstamp beyond HASH_FIND table garbage height key timestamp).
Proof.
  intros Ht Hh. pose proof (ht_index_bound height Hh) as Hi.
  assert (is_Some (table !! Z.to_nat (ht_index_from_height height))) as [e He]
    by (apply lookup_lt_is_Some_2; rewrite Ht; lia).
  unfold komodo_chosennotary. rewrite He.
  assert (forall id, is_Some (if height >=? 250000 then Some (-1, id)
    else match HASH_FIND (Notaries e) key with
         | Some kp => if numnotaries e >? 0
                      then Some (if Z.rem height (numnotaries e) =? kn_notaryid kp then 1 else 0, kn_notaryid kp)
                      else Some (-1, id)
         | None => Some (-1, id)
         end)) as Htab.
  { intros id. destruct (height >=? 250000); [by eexists|]. destruct (HASH_FIND _ _); [|by eexists].
    destruct (_ >? 0); by eexists. }
  destruct (height <? 0); [by eexists|]. destruct (_ || _); [|apply Htab].
  unfold komodo_electednotary, komodo_notaries. rewrite He.
  assert ((ht_index_from_height height <? 0) = false) as -> by (apply Z.ltb_ge; lia).
  set (r := if negb (_ =? 0) then _ else _).
  assert (is_Some r) as [[n rows] ->].
  { subst r. destruct (negb (_ =? 0)); [by eexists|].
    destruct (_ && _); [destruct (numStakedNotaries _ _); by eexists|].
    destruct (table_rows _ _ _ _) as [mask rows]. destruct (_ || _); by eexists. }
  destruct (_ && _); [by eexists|]. apply Htab.
Qed.
