(* ===== verification/NotarySign.v ===== *)
(** * NotarySign: what counts as the signature of a notary
    A block is notarised by a transaction that spends enough outputs of notaries;
    [gettxout_scriptPubKey] and [komodo_notarycmp] of [src/src/komodo.cpp] decide which outputs
    are a notary's.  This file compares that with what it takes to spend them. *)
From Stdlib Require Import String.
From S2P Require Import Prelude Uint256 Script Opcode Hash Pubkey Interpreter EvalSafety EvalRun Spending NotaryKeys Notary.

(** The script of an output, cut to the size of the caller's buffer: its start and length. *)
Definition gettxout_scriptPubKey (maxsize : nat) (scriptPubKey : list Z) : list Z * Z :=
  let s := take maxsize scriptPubKey in (s, Z.of_nat (length s)).

(** The notary an output counts for, through the 35 byte buffer of [komodo_connectblock]. *)
Definition output_notary (scriptPubKey : list Z) (pubkeys : list (list Z)) (numnotaries : Z)
    (rmd160 : list Z) : Z :=
  let '(s, scriptlen) := gettxout_scriptPubKey 35 scriptPubKey in
  if scriptlen >? 0 then komodo_notarycmp s scriptlen pubkeys numnotaries rmd160 else -1.

(** The script notaries use, and one without any check of a signature. *)
Definition pay_to_pubkey (key : list Z) : list Z := 33 :: key ++ [172].
Definition push_and_nop (key : list Z) : list Z := 33 :: key ++ [97].

Lemma output_notary_key c rest key pubkeys n rmd160 : length key = 33%nat -> (1 <= length rest)%nat ->
  output_notary (c :: key ++ rest) pubkeys n rmd160 = find_row key 0 (take (Z.to_nat n) pubkeys).
Proof.
  intros Hk Hr. unfold output_notary, gettxout_scriptPubKey.
  destruct rest as [|r rest]; [cbn in Hr; lia|].
  assert (take 35 (c :: key ++ r :: rest) = c :: key ++ [r]) as ->.
  { cbn [take]. f_equal. rewrite take_app, Hk. by rewrite take_ge by lia. }
  assert (Z.of_nat (length (c :: key ++ [r])) = 35) as -> by (cbn [length]; rewrite length_app, Hk; done).
  change (35 >? 0) with true. cbv iota. unfold komodo_notarycmp.
  change (35 =? 25) with false. change (35 =? 35) with true. cbn [andb drop]. f_equal.
  by rewrite drop_0, take_app_length' by done.
Qed.

(** ** Spending an output that counts for a notary *)

Section Spend.
Context {E : Secp256k1}.
Context (ASSETCHAINS_CC : Z) (flags : Z) (check : checker) (consensusBranchId : Z).

Lemma push_key_op key : length key = 33%nat -> CScript.push_data [] key = 33 :: key.
Proof.
  intros Hk. unfold CScript.push_data, Script.size. rewrite Hk. change (Z.of_nat 33) with 33.
  change (33 <? opcode OP_PUSHDATA1) with true. done.
Qed.

Lemma push_and_nop_not_cc key : length key = 33%nat ->
  CScript.IsPayToCryptoCondition (push_and_nop key) = None.
Proof.
  intros Hk. unfold push_and_nop, CScript.IsPayToCryptoCondition.
  change (33 :: key ++ [97]) with ((33 :: key) ++ [97]). rewrite <- push_key_op by done.
  destruct (push_data_minimal key [97]) as (op & -> & _ & _ & _).
  { unfold Script.size. rewrite Hk. by vm_compute. }
  cbn [CScript.go_ret CScript.go_op CScript.go_pc]. destruct (_ && _); [|done]. done.
Qed.

Lemma op_nop_run scr st n :
  exec_op ASSETCHAINS_CC flags check consensusBranchId scr OP_NOP true (at_state [] st n) =
  (Val tt, at_state [] st n).
Proof. done. Qed.

Lemma eval_push_and_nop key : length key = 33%nat ->
  EvalScript ASSETCHAINS_CC flags check consensusBranchId (push_and_nop key) [] =
    Some (true, [key], SCRIPT_ERR_OK).
Proof.
  intros Hk. assert (length (push_and_nop key) = 35%nat) as Hl
    by (unfold push_and_nop; cbn [length]; rewrite length_app, Hk; done).
  apply (eval_true_of_end _ _ _ _ _ _ _ 1 36 []); [unfold Script.size; rewrite Hl; by vm_compute| |by rewrite Hl].
  set (scr := push_and_nop key) at 1. unfold push_and_nop.
  change (33 :: key ++ [97]) with ((33 :: key) ++ [97]). rewrite <- push_key_op by done.
  rewrite eval_loop_step by (by rewrite push_key_op).
  rewrite (step_push_to ASSETCHAINS_CC flags check consensusBranchId scr) by (unfold Script.size; rewrite ?Hk; by vm_compute).
  rewrite eval_loop_step by done.
  rewrite (step_op_to ASSETCHAINS_CC flags check consensusBranchId scr 97 [] [key] [key] 0 OP_NOP) by (done || apply op_nop_run).
  done.
Qed.

Lemma spend_push_and_nop key : flags_sane flags -> length key = 33%nat -> CastToBool key = true ->
  VerifyScript ASSETCHAINS_CC flags check consensusBranchId [] (push_and_nop key) =
    Some (true, [key], SCRIPT_ERR_OK).
Proof.
  intros Hf Hk Hb. unfold VerifyScript. change (CScript.IsPushOnly []) with true. rewrite andb_false_r.
  assert (eval_sig ASSETCHAINS_CC flags check consensusBranchId [] (push_and_nop key) =
    Some (true, [], SCRIPT_ERR_OK)) as ->.
  { unfold eval_sig. by rewrite push_and_nop_not_cc, andb_false_r. }
  cbn [after]. rewrite eval_push_and_nop by done. cbn [after require_true]. rewrite Hb. cbn [negb].
  assert (CScript.IsPayToScriptHash (push_and_nop key) = false) as ->.
  { unfold CScript.IsPayToScriptHash, push_and_nop, Script.size. cbn [length]. by rewrite length_app, Hk. }
  rewrite andb_false_r. by apply check_clean_single.
Qed.
End Spend.

Lemma key_ok_truthy key : key_ok key = true -> length key = 33%nat /\ CastToBool key = true.
Proof.
  unfold key_ok. intros H. propify. apply Nat.eqb_eq in H. split; [done|].
  destruct key as [|b [|c key]]; [done|done|]. cbn [hd] in *. cbn [CastToBool].
  apply orb_true_iff in H0 as [H0|H0]; by apply Z.eqb_eq in H0 as ->.
Qed.

(** [C28] An output counts for the notary whose key stands behind its first byte, whatever the
    other bytes are: both the script notaries use and the script that pushes the key and does
    nothing, which anybody spends with an empty input script and no signature, count as the
    signature of that notary in every season.  (The comparison looks at neither the first byte
    nor the last of the script, nor at what a longer script has behind them.) *)
Theorem notary_signature_without_key {E : Secp256k1} CC flags check branch beyond (season : nat)
    (i : nat) key rmd160 :
  (1 <= season <= 9)%nat -> season_keys beyond season !! i = Some key -> flags_sane flags ->
  output_notary (pay_to_pubkey key) (season_keys beyond season) 64 rmd160 = Z.of_nat i /\
  output_notary (push_and_nop key) (season_keys beyond season) 64 rmd160 = Z.of_nat i /\
  VerifyScript CC flags check branch [] (push_and_nop key) = Some (true, [key], SCRIPT_ERR_OK).
Proof.
  intros Hs Hi Hf. destruct notary_tables_ok as (_ & _ & _ & _ & Ht).
  destruct (Ht beyond season Hs) as (Hl & Hk & Hn).
  destruct (key_ok_truthy key (Forall_lookup_1 _ _ _ _ Hk Hi)) as [Hlen Hb].
  assert (find_row key 0 (take (Z.to_nat 64) (season_keys beyond season)) = Z.of_nat i) as Hrow.
  { rewrite take_ge by (rewrite Hl; done). by rewrite (find_row_nodup _ Hn i). }
  split; [by rewrite <- Hrow; apply output_notary_key; cbn; [|lia]|].
  split; [by rewrite <- Hrow; apply output_notary_key; cbn; [|lia]|].
  by apply spend_push_and_nop.
Qed.

Lemma notary_signature_without_key_witness : exists key,
  season_keys (fun _ => 0) 9 !! 0%nat = Some key /\
  output_notary (push_and_nop key) (season_keys (fun _ => 0) 9) 64 [] = 0 /\
  VerifyScript (E := toy_secp) 0 0 accepting 0 [] (push_and_nop key) = Some (true, [key], SCRIPT_ERR_OK).
Proof.
  destruct (season_keys (fun _ => 0) 9 !! 0%nat) as [key|] eqn:Ek; [|vm_compute in Ek; discriminate].
  exists key. split; [reflexivity|].
  destruct (notary_signature_without_key (E := toy_secp) 0 0 accepting 0 (fun _ => 0) 9 0 key []) as (_ & H1 & H2).
  - lia.
  - exact Ek.
  - intros H. vm_compute in H. discriminate H.
  - split; assumption.
Defined.
