(* ===== verification/Notarisation.v ===== *)
(** * Notarisation: the notarisations of a block
    [komodo_validate_chain], [komodo_voutupdate] and [komodo_connectblock] of
    [src/src/komodo.cpp].  The buffers of the scripts are lists; an [int] expression whose value
    may leave its range is undefined there ([None]). *)
From Stdlib Require Import String.
From S2P Require Import Prelude Endian Uint256 Hash Serialize Amount Transaction Subsidy KomodoEvents Checkpoints NotaryKeys NotaryTable KomodoState Notary NotarySign.

(** ** Reading scripts *)

Definition at_ (s : list Z) (i : Z) : Z := nth (Z.to_nat i) s 0.
Definition sub (s : list Z) (off n : Z) : list Z := take (Z.to_nat n) (drop (Z.to_nat off) s).

(** [iguana_rwnum(0, ...)] and [iguana_rwbignum(0, ...)]: little-endian, and a copy. *)
Definition rwnum32 (s : list Z) (off : Z) : Z := ReadLE32 (drop (Z.to_nat off) s).
Definition rwbignum (s : list Z) (off : Z) : list Z := sub s off 32.

(** [CheckChainNameInScript] *)
Definition CheckChainNameInScript (chainPattern : list Z) (scriptbuf : list Z) (scriptlen off : Z) : bool :=
  let n := Z.of_nat (length chainPattern) in
  if off + n <? scriptlen
  then bool_decide (sub scriptbuf off n = chainPattern) && (at_ scriptbuf (off + n) =? 0)
  else false.

(** [GetChainNameFromScript]: at most 65 characters, up to a null or the end of the script. *)
Fixpoint name_chars (max : nat) (s : list Z) : list Z :=
  match max, s with
  | S max', c :: rest => if c =? 0 then [] else c :: name_chars max' rest
  | _, _ => []
  end.
Definition GetChainNameFromScript (scriptbuf : list Z) (scriptlen off : Z) : list Z :=
  name_chars 65 (drop (Z.to_nat off) (take (Z.to_nat scriptlen) scriptbuf)).

(** The data of an [OP_RETURN] script: its length and where it starts.  [None]: the script is
    not one, or is too short for what it says it pushes. *)
Definition opret_header (scriptbuf : list Z) (scriptlen : Z) : option (Z * Z) :=
  if negb (at_ scriptbuf 0 =? 0x6a) then None
  else if scriptlen - 1 <? 1 then None
  else
    let opcode := at_ scriptbuf 1 in
    let len := 2 in
    let checked (r : option (Z * Z)) :=
      match r with
      | Some (opretlen, len) =>
          if (scriptlen - len <? 0) || (u32 (scriptlen - len) <? u32 opretlen) then None
          else if opretlen <? 34 then None else Some (opretlen, len)
      | None => None
      end in
    if opcode <? 76 then checked (Some (opcode, len))
    else if opcode =? 76 then
      checked (if scriptlen - len <? 1 then None else Some (at_ scriptbuf len, len + 1))
    else if opcode =? 77 then
      checked (if scriptlen - len <? 2 then None
               else Some (ReadLE16 (drop (Z.to_nat len) scriptbuf), len + 2))
    else if opcode =? 78 then
      checked (if scriptlen - len <? 4 then None
               else Some (i32 (ReadLE32 (drop (Z.to_nat len) scriptbuf)), len + 4))
    else None.

(** ** [komodo_voutupdate] *)

(** The variables of the caller that it updates. *)
Record vout_vars := VoutVars {
  v_isratification : Z; v_voutmask : Z; v_specialtx : Z; v_notarizedheight : Z
}.

(** The MoM part of the data of a notarisation. *)
Record mom := Mom { m_MoM : list Z; m_MoMdepth : Z }.

Section Notarise.

(** The chain and the options of the node; the key of the node; what another daemon answers; the
    active chain; the hash table library. *)
Context (chainName : string) (IS_KOMODO_NOTARY KOMODO_EXTERNAL_NOTARIES : bool).
Context (NOTARY_PUBKEY33 : list Z).
Context (verify : string -> list Z -> Z -> Z -> list Z -> list Z -> Z).
Context (komodo_heightstamp : Z -> Z) (beyond : nat -> Z).
Context (HASH_FIND : list knotary_entry -> list Z -> option knotary_entry).
Context (in_memory : bool).
(** [IsInitialBlockDownload], and the heights of the blocks of the index. *)
Context (IsInitialBlockDownload : bool) (komodo_getblockindex : list Z -> option Z).

Definition CRYPTO777 : list Z := fst (decode_hex beyond 33
  "020e46e79a2a8d12b9b5d12c7a91adb4e454edfae43c0a0cb805427d2ac7613fd9").

(** [chainName.ToString()] *)
Definition chain_pattern : list Z := codes (if isKMD chainName then "KMD" else chainName)%string.

Definition MINRATIFY (height : Z) : Z := if height <? 90000 then 7 else 11.

(** The static [last_rewind] of [komodo_validate_chain] only decides what is logged. *)
Definition komodo_validate_chain (srchash : list Z) (notarized_height : Z) : Z :=
  if negb IsInitialBlockDownload
     && match komodo_getblockindex srchash with
        | None => true
        | Some h => negb (h =? notarized_height)
        end
  then 0 else 1.

(** A void call of [komodo_stateupdate]: it returns when the node is asked to stop, too. *)
Definition returned (r : update_result) : option state :=
  match r with Updated s | Stopped s => Some s | Crash => None end.

Definition stateupdate (s : state) (height : Z) (a : update_args) : option state :=
  returned (komodo_stateupdate chainName IS_KOMODO_NOTARY KOMODO_EXTERNAL_NOTARIES verify in_memory
              s height a).

Definition on_g (f : globals -> globals) (s : state) : state :=
  State (f (st_g s)) (st_file s) (fp s).
Definition on_sp (f : komodo_state -> komodo_state) (s : state) : state :=
  on_g (fun g => with_sp (f (sp g)) g) s.

(** Outputs to a public key: the last block this node mined, the special output, the notary the
    transaction pays. *)
Definition pays_to_key (scriptbuf : list Z) (scriptlen : Z) : bool :=
  (scriptlen =? 35) && (at_ scriptbuf 0 =? 33) && (at_ scriptbuf 34 =? 0xac).

Definition vout_pubkey (s : state) (notaryid : Z) (scriptbuf : list Z) (scriptlen height i j timestamp : Z)
    (v : vout_vars) : option (state * Z * vout_vars) :=
  if pays_to_key scriptbuf scriptlen then
    let key := sub scriptbuf 1 33 in
    let s := if (i =? 0) && (j =? 0) && bool_decide (NOTARY_PUBKEY33 = key) && IS_KOMODO_NOTARY
             then on_g (fun g => with_mined height (KOMODO_LASTMINED g) g) s else s in
    if bool_decide (CRYPTO777 = key) then
      Some (s, notaryid, VoutVars (v_isratification v) (v_voutmask v) 1 (v_notarizedheight v))
    else
      match Pubkeys (st_g s) with
      | None => None
      | Some table =>
        match komodo_chosennotary chainName komodo_heightstamp beyond HASH_FIND table
                (replicate 64 (replicate 33 0)) height key timestamp with
        | None => None
        | Some (r, nid) =>
            let bit := u64 (Z.shiftl 1 j) in
            let mask m := VoutVars (v_isratification v) m (v_specialtx v) (v_notarizedheight v) in
            if (r >=? 0) && (notaryid <? 64) then
              if (0 <=? notaryid) && negb (notaryid =? nid) then Some (s, 64, mask 0)
              else if j >=? 64 then None (* [1LL << j] *)
              else Some (s, if notaryid <? 0 then nid else notaryid, mask (Z.lor (v_voutmask v) bit))
            else Some (s, notaryid, v)
        end
      end
  else Some (s, notaryid, v).

(** The last part of the data of a notarisation (MoMoM), which is parsed and dropped: it matters
    only through the arithmetic of [int]. *)
Definition int_ok (z : Z) : bool := (INT32_MIN <=? z) && (z <=? INT32_MAX).

Definition MoMoM_defined (name : list Z) (scriptbuf : list Z) (len opoffset opretlen : Z) : bool :=
  (* after MoM and MoMdepth *)
  if len + 4 - opoffset <=? opretlen then
    let len := len + 4 in
    if negb (isKMD chainName) then
      if (len + 48 - opoffset <=? opretlen) && bool_decide (name = codes chainName) then
        let numpairs := i32 (rwnum32 scriptbuf (len + 44)) in
        let len := len + 48 in
        int_ok (numpairs * 8) && int_ok (len + numpairs * 8) && int_ok (len + numpairs * 8 - opoffset)
      else true
    else true
  else true.

(** The MoM, when the data has one and it is consistent. *)
Definition read_MoM (scriptbuf : list Z) (len opoffset opretlen notarizedheight : Z) : mom :=
  if len + 36 - opoffset <=? opretlen then
    let MoM := rwbignum scriptbuf len in
    let MoMdepth := i32 (rwnum32 scriptbuf (len + 32)) in
    if bool_decide (MoM = zero256) || (Z.land MoMdepth 0xffff >? notarizedheight)
       || (Z.land MoMdepth 0xffff <? 0)
    then Mom zero256 0 else Mom MoM MoMdepth
  else Mom zero256 0.

(** The last notarisation becomes the one of this output, and is written to the state file. *)
Definition record_notarisation (s : state) (height nheight : Z) (srchash desttxid : list Z) (m : mom)
    : option state :=
  let s := on_sp (fun sp =>
    let sp := SetLastNotarizedHeight sp nheight in
    let sp := SetLastNotarizedHash sp srchash in
    let sp := SetLastNotarizedDestTxId sp desttxid in
    if negb (bool_decide (m_MoM m = zero256)) && (Z.land (m_MoMdepth m) 0xffff >? 0)
    then SetLastNotarizedMoMDepth (SetLastNotarizedMoM sp (m_MoM m)) (m_MoMdepth m) else sp) s in
  stateupdate s height no_args.

(** The prefix [TXSCL] of a name, and the names that need no signatures. *)
Definition unsigned_name (name : list Z) : bool :=
  bool_decide (name = codes "PIZZA") || bool_decide (name = codes "BEER")
  || bool_decide (take 5 name = codes "TXSCL").

(** The data of the second output of a transaction. *)
Definition vout_notarisation (fJustCheck : bool) (s : state) (notaryid : Z) (scriptbuf : list Z)
    (height notarized signedmask : Z) (v : vout_vars) (matched : bool) (name : list Z)
    (len opretlen : Z) : option (Z * state * vout_vars) :=
  let opoffset := len in
  let notarized := if negb matched && negb (signedmask =? 0) && (bitweight signedmask >=? MINRATIFY height)
                   then 1 else notarized in
  let notarized := if unsigned_name name then 1 else notarized in
  let srchash := rwbignum scriptbuf len in
  let nheight := i32 (rwnum32 scriptbuf (len + 32)) in
  let v := VoutVars (v_isratification v) (v_voutmask v) (v_specialtx v) nheight in
  let len := len + 36 in
  let desttxid := if matched then rwbignum scriptbuf len else zero256 in
  let len := if matched then len + 32 else len in
  let validated := if matched then komodo_validate_chain srchash nheight else 1 in
  if fJustCheck && matched then Some (-2, s, v)
  else if negb (notarized =? 0) && negb (validated =? 0) then
    let len := len + (Z.of_nat (length name) + 1) in
    let m := read_MoM scriptbuf len opoffset opretlen nheight in
    if (len + 36 - opoffset <=? opretlen)
       && negb (MoMoM_defined name scriptbuf (len + 36) opoffset opretlen)
    then None
    else if matched && (nheight >? LastNotarizedHeight (sp (st_g s))) && (nheight <? height) then
      match record_notarisation s height nheight srchash desttxid m with
      | Some s => Some (notaryid, s, v)
      | None => None
      end
    else Some (notaryid, s, v)
  else Some (notaryid, s, v).

(** [komodo_voutupdate]: the result, the state and the variables of the caller. *)
Definition komodo_voutupdate (fJustCheck : bool) (s : state) (notaryid : Z) (scriptbuf : list Z)
    (scriptlen height i j notarized signedmask timestamp : Z) (v : vout_vars)
    : option (Z * state * vout_vars) :=
  match vout_pubkey s notaryid scriptbuf scriptlen height i j timestamp v with
  | None => None
  | Some (s, notaryid, v) =>
      match opret_header scriptbuf scriptlen with
      | None => Some (notaryid, s, v)
      | Some (opretlen, len) =>
          let matched := CheckChainNameInScript chain_pattern scriptbuf scriptlen (len + 32 * 2 + 4) in
          let offset := 32 * (if matched then 2 else 1) + 4 in
          let name := GetChainNameFromScript scriptbuf scriptlen (len + offset) in
          match name with
          | [] => Some (notaryid, s, v)
          | _ =>
              if (j =? 1) && (opretlen >=? offset) then
                vout_notarisation fJustCheck s notaryid scriptbuf height notarized signedmask v matched
                  name len opretlen
              else if matched && (i =? 0) && (j =? 1) && (opretlen =? 149) then Some (notaryid, s, v)
              else if matched
                      && ((opretlen >=? 32 * 2 + 4)
                          && CheckChainNameInScript chain_pattern scriptbuf scriptlen (len + 32 * 2 + 4))
                      && forallb (fun b => b =? 0) (sub scriptbuf len 32)
              then Some (notaryid, s, VoutVars 1 (v_voutmask v) (v_specialtx v) (v_notarizedheight v))
              else Some (notaryid, s, v)
          end
      end
  end.

(** ** [komodo_connectblock]

    What it reads of the block and the chain: the hashes of transactions, earlier transactions
    ([GetTransaction]), the tip of the active chain; and the genesis notaries and the options that
    matter to it. *)
Context (GetHash : tx -> list Z) (GetTransaction : list Z -> option tx) (block_GetHash : list Z).
Context (tip_height tip_time : Z).
Context (GenesisNotaries : list (string * string)) (notary_pay regtest : bool).

(** The static [hwmheight] of [komodo.cpp] beside the state. *)
Record cstate := CState { c_st : state; c_hwmheight : Z }.

Definition set_CURRENT_HEIGHT (h : Z) (s : komodo_state) : komodo_state :=
  with_heights (SAVEDHEIGHT s) h (SAVEDTIMESTAMP s) s.

(** The loop over the inputs: the notaries whose outputs are spent. *)
Definition input_notary (pubkeys : list (list Z)) (numnotaries : Z) (rmd160 : list Z) (i : CTxIn) : Z :=
  match GetTransaction (op_hash (prevout i)) with
  | None => -1
  | Some t =>
      match vout t !! Z.to_nat (op_n (prevout i)) with
      | None => -1
      | Some o => output_notary (scriptPubKey o) pubkeys numnotaries rmd160
      end
  end.

Definition signed_mask (height i : Z) (pubkeys : list (list Z)) (numnotaries : Z) (rmd160 : list Z)
    (vin : list CTxIn) : Z :=
  fold_left (fun mask inp =>
    let k := input_notary pubkeys numnotaries rmd160 inp in
    if k >=? 0 then Z.lor mask (u64 (Z.shiftl 1 k)) else mask)
    (if i =? 0 then tl vin else vin) (if height <? 91400 then 1 else 0).

(** Enough notaries signed. *)
Definition enough_signatures (height signedmask numnotaries : Z) : bool :=
  let numvalid := bitweight signedmask in
  (((height <? 90000) || negb (Z.land signedmask 1 =? 0)) && (numvalid >=? MINRATIFY height))
  || ((numvalid >=? MINRATIFY height) && negb (isKMD chainName))
  || (numvalid >? Z.quot numnotaries 5).

(** The loop over the outputs. *)
Record out_acc := OutAcc { oa_s : state; oa_notaryid : Z; oa_vars : vout_vars; oa_notarisations : list Z }.

Fixpoint outputs_loop (fJustCheck : bool) (height i notarized signedmask : Z) (j : Z)
    (vouts : list CTxOut) (a : out_acc) : option out_acc :=
  match vouts with
  | [] => Some a
  | o :: rest =>
      let len := Z.of_nat (length (scriptPubKey o)) in
      if (len >=? 4) && (len <=? 10001) then
        match komodo_voutupdate fJustCheck (oa_s a) (oa_notaryid a) (scriptPubKey o) len height i j
                notarized signedmask tip_time (oa_vars a) with
        | None => None
        | Some (notaryid, s, v) =>
            outputs_loop fJustCheck height i notarized signedmask (j + 1) rest
              (OutAcc s notaryid v (if fJustCheck && (notaryid =? -2)
                                    then oa_notarisations a ++ [i] else oa_notarisations a))
        end
      else outputs_loop fJustCheck height i notarized signedmask (j + 1) rest a
  end.

(** The keys of a ratification: the outputs to a public key between the first and the last. *)
Definition ratified_keys (vouts : list CTxOut) : list (list Z) :=
  take 64 (omap (fun o => let len := Z.of_nat (length (scriptPubKey o)) in
                  if (len >=? 4) && (len <=? 10001) && pays_to_key (scriptPubKey o) len
                  then Some (sub (scriptPubKey o) 1 33) else None)
            (take (length vouts - 2) (drop 1 vouts))).

Definition ratification (s : state) (height signedmask numnotaries : Z) (vouts : list CTxOut) : option state :=
  let keys := ratified_keys vouts in
  let numvalid := Z.of_nat (length keys) in
  if (negb (Z.land signedmask 1 =? 0) && (numvalid >=? MINRATIFY height))
     || (bitweight signedmask >? Z.quot numnotaries 3)
  then stateupdate s height
         (UpdateArgs (Some (overwrite keys (pk_pubkeys new_pubkeys))) numvalid zero256 None 0 0 0 0 None 0 0)
  else Some s.

(** One transaction; [i] is its position.  A ratification collects the new keys in the array
    [pubkeys] itself, which the transactions after it in the block are then compared with. *)
Definition connect_tx (fJustCheck : bool) (height : Z) (pubkeys : list (list Z)) (numnotaries : Z)
    (rmd160 : list Z) (i : Z) (t : tx) (s : state) (notarisations : list Z)
    : option (state * list Z * list (list Z)) :=
  let signedmask := signed_mask height i pubkeys numnotaries rmd160 (vin t) in
  let notarized := if enough_signatures height signedmask numnotaries then 1 else 0 in
  let simulate := regtest && (Z.rem height 7 =? 0) in
  let notarized := if simulate then 1 else notarized in
  let s := if simulate
           then on_sp (fun sp => SetLastNotarizedDestTxId (SetLastNotarizedHash
                  (SetLastNotarizedHeight sp height) block_GetHash) (GetHash t)) s
           else s in
  match outputs_loop fJustCheck height i notarized signedmask 0 (vout t)
          (OutAcc s (-1) (VoutVars 0 0 0 0) notarisations) with
  | None => None
  | Some a =>
      let v := oa_vars a in
      if negb fJustCheck && negb (notarized =? 0)
         && (negb (v_notarizedheight v =? 0) || negb (v_specialtx v =? 0))
         && (negb (v_specialtx v =? 0) && negb (v_isratification v =? 0) && (2 <? Z.of_nat (length (vout t))))
         && (isKMD chainName && (height <? 100000))
      then match ratification (oa_s a) height signedmask numnotaries (vout t) with
           | None => None
           | Some s => Some (s, oa_notarisations a,
                             overwrite (ratified_keys (vout t)) (pk_pubkeys new_pubkeys))
           end
      else Some (oa_s a, oa_notarisations a, pubkeys)
  end.

(** The loop over the transactions: a banned chain, or one between two eras, has no
    notarisations; a chain that pays its notaries looks at the first two transactions only. *)
Fixpoint connect_txs (fJustCheck : bool) (height staked_era : Z) (pubkeys : list (list Z))
    (numnotaries : Z) (rmd160 : list Z) (i : Z) (txs : list tx) (s : state) (notarisations : list Z)
    : option (state * list Z) :=
  match txs with
  | [] => Some (s, notarisations)
  | t :: rest =>
      if (negb (is_STAKED chainName =? 0) && (staked_era =? 0)) || (is_STAKED chainName =? 255)
      then Some (s, notarisations)
      else if negb fJustCheck && (i >? 1) && notary_pay then Some (s, notarisations)
      else match connect_tx fJustCheck height pubkeys numnotaries rmd160 i t s notarisations with
           | None => None
           | Some (s, notarisations, pubkeys) =>
               connect_txs fJustCheck height staked_era pubkeys numnotaries rmd160 (i + 1) rest s notarisations
           end
  end.

(** The notarisations found when only checking: none, one in the second transaction, or others. *)
Definition check_result (notarisations : list Z) : Z :=
  match notarisations with
  | [] => 0
  | [n] => if n =? 1 then 1 else -1
  | _ => -1
  end.

Definition kmd_args (KMDheight stamp : Z) : update_args :=
  UpdateArgs None 0 zero256 None 0 KMDheight stamp 0 None 0 0.

(** The new [hwmheight], and the rewind when the height is not above it. *)
Definition connect_reorg (fJustCheck : bool) (c : cstate) (nHeight nTime : Z) : option cstate :=
  if nHeight >? c_hwmheight c then Some (CState (c_st c) nHeight)
  else if fJustCheck then Some (CState (c_st c) nHeight)
  else match stateupdate (on_g (fun g => komodo_event_rewind chainName g nHeight) (c_st c)) nHeight
               (kmd_args (i32 (- nHeight)) nTime) with
       | Some s => Some (CState s nHeight)
       | None => None
       end.

(** [komodo_connectblock] on a block of height [nHeight] and time [nTime].  The array of keys is a
    local of the function, not initialised: [garbage]. *)
Definition komodo_connectblock (fJustCheck : bool) (garbage : list (list Z)) (nHeight nTime : Z)
    (vtx : list tx) (c : cstate) : option (Z * cstate) :=
  match returned (komodo_init chainName IS_KOMODO_NOTARY KOMODO_EXTERNAL_NOTARIES verify in_memory beyond
                    GenesisNotaries (c_st c) nHeight) with
  | None => None
  | Some s =>
  let staked_era := STAKED_era (i32 nTime) in
  match Pubkeys (st_g s) with
  | None => None
  | Some table =>
  match komodo_notaries chainName komodo_heightstamp beyond table garbage nHeight nTime with
  | None => None
  | Some (numnotaries, pubkeys) =>
  let rmd160 := Hash160 (nth 0 pubkeys []) in
  match connect_reorg fJustCheck (CState s (c_hwmheight c)) nHeight nTime with
  | None => None
  | Some c =>
  let s := on_sp (set_CURRENT_HEIGHT tip_height) (c_st c) in
  match connect_txs fJustCheck nHeight staked_era pubkeys numnotaries rmd160 0 vtx s [] with
  | None => None
  | Some (s, notarisations) =>
      match (if negb fJustCheck && (nHeight =? c_hwmheight c)
             then stateupdate s nHeight (kmd_args nHeight nTime) else Some s) with
      | None => None
      | Some s => Some (if fJustCheck then check_result notarisations else 0, CState s (c_hwmheight c))
      end
  end end end end end.
End Notarise.

(** ** Calls of [komodo_stateupdate] on an open file *)

Section Laws.
Context (chainName : string) (IS_KOMODO_NOTARY KOMODO_EXTERNAL_NOTARIES : bool).
Context (NOTARY_PUBKEY33 : list Z).
Context (verify : string -> list Z -> Z -> Z -> list Z -> list Z -> Z).
Context (komodo_heightstamp : Z -> Z) (beyond : nat -> Z).
Context (HASH_FIND : list knotary_entry -> list Z -> option knotary_entry).
Context (in_memory : bool).
Context (IsInitialBlockDownload : bool) (komodo_getblockindex : list Z -> option Z).

Abbreviation supdate :=
  (stateupdate chainName IS_KOMODO_NOTARY KOMODO_EXTERNAL_NOTARIES verify in_memory).
Abbreviation voutupdate :=
  (komodo_voutupdate chainName IS_KOMODO_NOTARY KOMODO_EXTERNAL_NOTARIES NOTARY_PUBKEY33 verify
     komodo_heightstamp beyond HASH_FIND in_memory IsInitialBlockDownload komodo_getblockindex).

Definition last_height (s : state) : Z := LastNotarizedHeight (sp (st_g s)).
Definition points (s : state) : list notarized_checkpoint := NPOINTS (sp (st_g s)).

(** [s'] comes after [s] in a run: the file is still open and the list of checkpoints has only
    grown. *)
Definition follows (s s' : state) : Prop :=
  fp s' = fp s /\ points s `prefix_of` points s' /\
  (is_Some (Pubkeys (st_g s)) -> is_Some (Pubkeys (st_g s'))).

Lemma follows_open s s' : follows s s' -> st_open s' = st_open s.
Proof. intros [E _]. unfold st_open. by rewrite E. Qed.
Lemma follows_refl s : follows s s.
Proof. by split_and!. Qed.
Lemma follows_trans s1 s2 s3 : follows s1 s2 -> follows s2 s3 -> follows s1 s3.
Proof.
  intros (H1 & H2 & H3) (K1 & K2 & K3). split; [congruence|]. split; [by etransitivity|]. auto.
Qed.

Lemma rewind_events_points height evs s :
  NPOINTS (rewind_events height evs s) = NPOINTS s /\ last (rewind_events height evs s) = last s.
Proof.
  revert s. induction evs as [|e evs IH]; intros s; cbn [rewind_events]; [done|].
  destruct (ev_height e <? height); [done|]. apply IH.
Qed.

(** The handlers leave the height of the last notarisation alone, but for that of a notarisation,
    which sets it to the one of the event or leaves it. *)
Lemma handle_last s e s' :
  log_event s e (handle chainName IS_KOMODO_NOTARY verify (st_g s) e) = Updated s' ->
  (forall b, ev_body e = EVENT_NOTARIZED b -> n_notarizedheight b = last_height s) ->
  last_height s' = last_height s /\ follows s s'.
Proof.
  unfold log_event. destruct (handle _ _ _ _ _) as [g|] eqn:E; [|done]. intros [= <-] Hn.
  unfold last_height, follows, points, LastNotarizedHeight in *. cbn [st_g fp].
  unfold handle in E. destruct (ev_body e) as [b|b|b|b|b|b|].
  - injection E as <-. unfold komodo_eventadd_pubkeys, add_event. cbn. by case_match.
  - injection E as <-. unfold komodo_eventadd_notarized. case_match; [done|]. case_match; [|done].
    cbn [sp with_sp Pubkeys]. unfold komodo_notarized_update. rewrite (Hn b eq_refl).
    unfold add_event. case_match; case_match; cbn; split; try done; split_and!; try done; by eexists.
  - by injection E as <-.
  - injection E as <-. unfold komodo_eventadd_kmdheight. case_match.
    + unfold komodo_setkmdheight, add_event. cbn. repeat case_match; done.
    + unfold komodo_event_rewind. cbn [sp with_sp Pubkeys].
      match goal with |- context [rewind_events ?h ?l ?x] => destruct (rewind_events_points h l x) as [-> ->] end.
      case_match; cbn; unfold add_event; by case_match.
  - unfold komodo_eventadd_opreturn in E. destruct (isKMD chainName) eqn:EK; [by injection E as <-|].
    destruct (o_opret b); [done|]. unfold add_event in E. rewrite EK in E.
    case_match; injection E as <-; done.
  - injection E as <-. unfold komodo_eventadd_pricefeed, add_event. cbn. by case_match.
  - by injection E as <-.
Qed.

Lemma stateupdate_last s h a s' : st_open s = true -> supdate s h a = Some s' ->
  last_height s' = last_height s /\ follows s s'.
Proof.
  intros Ho. unfold stateupdate. rewrite stateupdate_open by done.
  destruct (h <=? 0); [intros [= <-]; split; [done|apply follows_refl]|].
  pose proof (write_and_handle_event chainName IS_KOMODO_NOTARY verify s h a) as Hw.
  destruct (write_and_handle _ _ _ _ _ _) as [s1|s1|]; [|done|done]. intros [= <-].
  destruct Hw as [->|(e & _ & Hn & Hl)]; [split; [done|apply follows_refl]|]. by apply (handle_last s e).
Qed.

Lemma stateupdate_defined s h a : st_open s = true -> a_opretbuf a = None -> a_pvals a = None ->
  is_Some (supdate s h a).
Proof.
  intros Ho H1 H2. unfold stateupdate. rewrite stateupdate_open by done.
  destruct (h <=? 0); [by eexists|].
  pose proof (write_and_handle_event chainName IS_KOMODO_NOTARY verify s h a) as Hw.
  destruct (write_and_handle _ _ _ _ _ _) as [s1|s1|]; [by eexists|done|].
  rewrite H1, H2 in Hw. by destruct Hw as [[? ?]|[? ?]].
Qed.

(** ** What a run of [komodo_connectblock] may do to the state *)

(** The regression test network: the blocks of every seventh height notarise themselves. *)
Definition simulated (regtest : bool) (height : Z) : bool := regtest && (Z.rem height 7 =? 0).

(** Any number of notarisations recorded: each above the last one and below the block, or a simulated
    one of the block itself. *)
Definition notarises (regtest : bool) (height : Z) (s s' : state) : Prop := st_open s = true ->
  follows s s' /\ (last_height s' = last_height s \/ last_height s < last_height s' < height \/
                   simulated regtest height = true /\ last_height s' = height).

(** Nothing but the memory of the blocks this node mined. *)
Definition only_mined (s s' : state) : Prop := exists l p, s' = on_g (with_mined l p) s.

#[export] Instance notarises_preorder regtest height : PreOrder (notarises regtest height).
Proof.
  split.
  - intros s _. split; [apply follows_refl|by left].
  - intros s1 s2 s3 H1 H2 Ho. destruct (H1 Ho) as [F1 L1].
    rewrite <- (follows_open _ _ F1) in Ho. destruct (H2 Ho) as [F2 L2].
    split; [by eapply follows_trans|]. destruct L1 as [?|[?|[? ?]]], L2 as [?|[?|[? ?]]]; auto; try lia;
      right; right; split; done || lia.
Qed.

#[export] Instance only_mined_preorder : PreOrder only_mined.
Proof.
  split.
  - intros [g f o]. exists (KOMODO_LASTMINED g), (prevKOMODO_LASTMINED g). unfold on_g. cbn.
    f_equal. by destruct g.
  - intros s1 s2 s3 (l1 & p1 & ->) (l2 & p2 & ->). exists l2, p2. done.
Qed.

Lemma mined_notarises regtest height l p s : notarises regtest height s (on_g (with_mined l p) s).
Proof. intros _. split; [by split_and!|by left]. Qed.

Lemma vout_pubkey_state s n buf len height i j t v s' n' v' :
  vout_pubkey chainName IS_KOMODO_NOTARY NOTARY_PUBKEY33 komodo_heightstamp beyond HASH_FIND
    s n buf len height i j t v = Some (s', n', v') ->
  exists l p, s' = on_g (with_mined l p) s.
Proof.
  unfold vout_pubkey. destruct (pays_to_key buf len).
  2: { intros; simplify_eq. by apply only_mined_preorder. }
  set (s1 := if _ && _ then on_g _ s else s).
  assert (only_mined s s1) as H1.
  { subst s1. destruct (_ && _); [|by apply only_mined_preorder].
    by exists height, (KOMODO_LASTMINED (st_g s)). }
  clearbody s1. destruct (bool_decide _); [by intros; simplify_eq|].
  destruct (Pubkeys (st_g s1)); [|done].
  destruct (komodo_chosennotary _ _ _ _ _ _ _ _ _) as [[r nid]|]; [|done].
  destruct (_ && (n <? 64)); [|by intros; simplify_eq].
  destruct (_ && negb (n =? nid)); [by intros; simplify_eq|]. destruct (j >=? 64); by intros; simplify_eq.
Qed.

Lemma record_notarisation_state s height nheight src desttx m s' : st_open s = true ->
  record_notarisation chainName IS_KOMODO_NOTARY KOMODO_EXTERNAL_NOTARIES verify in_memory
    s height nheight src desttx m = Some s' ->
  follows s s' /\ last_height s' = nheight.
Proof.
  intros Ho. unfold record_notarisation. set (s1 := on_sp _ s). intros E.
  assert (follows s s1 /\ last_height s1 = nheight) as [F1 L1].
  { subst s1. unfold follows, points, last_height, on_sp. cbn. by destruct (_ && _). }
  apply stateupdate_last in E as [L2 F2]; [|by rewrite (follows_open _ _ F1)].
  split; [by eapply follows_trans|congruence].
Qed.

Lemma vout_notarisation_state check s n buf height nz mask v matched name len opretlen n' s' v' :
  vout_notarisation chainName IS_KOMODO_NOTARY KOMODO_EXTERNAL_NOTARIES verify in_memory
    IsInitialBlockDownload komodo_getblockindex check s n buf height nz mask v matched name len opretlen
    = Some (n', s', v') ->
  (forall regtest, notarises regtest height s s') /\ (check = true -> s' = s).
Proof.
  unfold vout_notarisation.
  set (nz' := if unsigned_name name then 1 else _). set (nh := i32 (rwnum32 buf (len + 32))).
  destruct (check && matched) eqn:Ecm.
  { intros [= _ <- _]. split; [intros; by apply notarises_preorder|done]. }
  destruct (negb (nz' =? 0) && _).
  2: { intros [= _ <- _]. split; [intros; by apply notarises_preorder|done]. }
  destruct (_ && negb (MoMoM_defined _ _ _ _ _ _)); [done|].
  destruct (matched && _ && _) eqn:Em.
  2: { intros [= _ <- _]. split; [intros; by apply notarises_preorder|done]. }
  propify. subst matched.
  destruct (record_notarisation _ _ _ _ _ _ _ _ _ _ _) as [s1|] eqn:E; [|done]. intros [= _ <- _].
  split; [|by rewrite andb_true_r in Ecm; intros ->].
  intros regtest Ho. apply record_notarisation_state in E as [F L]; [|done]. split; [done|].
  right; left. rewrite L. unfold last_height. lia.
Qed.

Lemma voutupdate_state check s n buf len height i j nz mask t v n' s' v' :
  voutupdate check s n buf len height i j nz mask t v = Some (n', s', v') ->
  (forall regtest, notarises regtest height s s') /\ (check = true -> only_mined s s').
Proof.
  unfold komodo_voutupdate.
  destruct (vout_pubkey _ _ _ _ _ _ _ _ _ _ _ _ _ _ _) as [[[s1 n1] v1]|] eqn:E1; [|done].
  apply vout_pubkey_state in E1. destruct E1 as (l & p & ->).
  assert (forall s' : state, s' = on_g (with_mined l p) s ->
    (forall regtest, notarises regtest height s s') /\ (check = true -> only_mined s s')) as Hsame.
  { intros ? ->. split; [intros; apply mined_notarises|]. intros _. by exists l, p. }
  destruct (opret_header buf len) as [[opretlen off]|]; [|by intros [= _ <- _]; apply Hsame].
  destruct (GetChainNameFromScript _ _ _) as [|c name]; [by intros [= _ <- _]; apply Hsame|].
  destruct (_ && (opretlen >=? _)).
  - intros E. apply vout_notarisation_state in E as [H1 H2]. split.
    + intros regtest. etransitivity; [apply mined_notarises|apply H1].
    + intros Hc. rewrite (H2 Hc). by exists l, p.
  - destruct (_ && (opretlen =? 149)); [by intros [= _ <- _]; apply Hsame|].
    destruct (_ && forallb _ _); by intros [= _ <- _]; apply Hsame.
Qed.
End Laws.

Section ConnectLaws.
Context (chainName : string) (IS_KOMODO_NOTARY KOMODO_EXTERNAL_NOTARIES : bool).
Context (NOTARY_PUBKEY33 : list Z).
Context (verify : string -> list Z -> Z -> Z -> list Z -> list Z -> Z).
Context (komodo_heightstamp : Z -> Z) (beyond : nat -> Z).
Context (HASH_FIND : list knotary_entry -> list Z -> option knotary_entry).
Context (in_memory : bool).
Context (IsInitialBlockDownload : bool) (komodo_getblockindex : list Z -> option Z).
Context (GetHash : tx -> list Z) (GetTransaction : list Z -> option tx) (block_GetHash : list Z).
Context (tip_height tip_time : Z).
Context (GenesisNotaries : list (string * string)) (notary_pay regtest : bool).

Abbreviation connectblock :=
  (komodo_connectblock chainName IS_KOMODO_NOTARY KOMODO_EXTERNAL_NOTARIES NOTARY_PUBKEY33 verify
     komodo_heightstamp beyond HASH_FIND in_memory IsInitialBlockDownload komodo_getblockindex
     GetHash GetTransaction block_GetHash tip_height tip_time GenesisNotaries notary_pay regtest).
Abbreviation txs_loop :=
  (connect_txs chainName IS_KOMODO_NOTARY KOMODO_EXTERNAL_NOTARIES NOTARY_PUBKEY33 verify
     komodo_heightstamp beyond HASH_FIND in_memory IsInitialBlockDownload komodo_getblockindex
     GetHash GetTransaction block_GetHash tip_time notary_pay regtest).
Abbreviation outs_loop :=
  (outputs_loop chainName IS_KOMODO_NOTARY KOMODO_EXTERNAL_NOTARIES NOTARY_PUBKEY33 verify
     komodo_heightstamp beyond HASH_FIND in_memory IsInitialBlockDownload komodo_getblockindex tip_time).

Lemma outputs_loop_state check height i nz mask vouts : forall j a a',
  outs_loop check height i nz mask j vouts a = Some a' ->
  notarises regtest height (oa_s a) (oa_s a') /\ (check = true -> only_mined (oa_s a) (oa_s a')).
Proof.
  induction vouts as [|o vouts IH]; intros j a a'; cbn [outputs_loop].
  - intros [= <-]. split; [by apply notarises_preorder|]. intros _. by apply only_mined_preorder.
  - destruct (_ && _); [|apply IH].
    destruct (komodo_voutupdate _ _ _ _ _ _ _ _ _ _ _ _ _ _ _ _ _ _ _ _ _ _) as [[[n s] v]|] eqn:E; [|done].
    intros H. apply voutupdate_state in E as [E1 E2]. apply IH in H as [H1 H2]. cbn [oa_s] in *.
    split; [etransitivity; [apply E1|exact H1]|]. intros Hc. etransitivity; [by apply E2 | by apply H2].
Qed.

Lemma ratification_state height nh s mask n vouts s' :
  ratification chainName IS_KOMODO_NOTARY KOMODO_EXTERNAL_NOTARIES verify in_memory s nh mask n vouts = Some s' ->
  notarises regtest height s s'.
Proof.
  unfold ratification. destruct (_ || _); [|by intros [= <-]].
  intros E Ho. apply stateupdate_last in E as [L F]; [|done]. split; [done|by left].
Qed.

(** The simulated notarisation at the head of a transaction. *)
Lemma simulate_state height txhash s : let s1 := if simulated regtest height
    then on_sp (fun sp => SetLastNotarizedDestTxId (SetLastNotarizedHash (SetLastNotarizedHeight sp height) block_GetHash) txhash) s
    else s in notarises regtest height s s1 /\ (simulated regtest height = false -> s1 = s).
Proof.
  cbv zeta. destruct (simulated regtest height) eqn:E; (split; [|done]).
  - intros _. split; [by split_and!|]. right; right. done.
  - by apply notarises_preorder.
Qed.

Lemma connect_tx_state check height keys n rmd i t s l s' l' keys' :
  connect_tx chainName IS_KOMODO_NOTARY KOMODO_EXTERNAL_NOTARIES NOTARY_PUBKEY33 verify komodo_heightstamp beyond
    HASH_FIND in_memory IsInitialBlockDownload komodo_getblockindex GetHash GetTransaction block_GetHash tip_time regtest
    check height keys n rmd i t s l = Some (s', l', keys') ->
  notarises regtest height s s' /\ (check = true -> simulated regtest height = false -> only_mined s s').
Proof.
  unfold connect_tx. fold (simulated regtest height). pose proof (simulate_state height (GetHash t) s) as Hsim. cbv zeta in Hsim.
  set (s1 := if simulated regtest height then _ else s) in *. destruct Hsim as [Hs1 Hs1'].
  destruct (outputs_loop _ _ _ _ _ _ _ _ _ _ _ _ _ _ _ _ _ _ _ _) as [a|] eqn:Eo; [|done].
  apply outputs_loop_state in Eo as [O1 O2]. cbn [oa_s] in *.
  assert (check = true -> simulated regtest height = false -> only_mined s (oa_s a)) as Hm
    by (intros Hc Hf; rewrite <- (Hs1' Hf); by apply O2).
  destruct check; cbn [negb andb].
  - intros [= <- _ _]. split; [by etransitivity|exact Hm].
  - destruct (_ && _ && _ && _); [|intros [= <- _ _]; split; [by etransitivity|done]].
    destruct (ratification _ _ _ _ _ _ _ _ _ _) as [s2|] eqn:Er; [|done]. intros [= <- _ _]. split; [|done].
    etransitivity; [exact Hs1|]. etransitivity; [exact O1|]. by eapply ratification_state.
Qed.

Lemma connect_txs_state check height era n rmd txs : forall i keys s l s' l',
  txs_loop check height era keys n rmd i txs s l = Some (s', l') ->
  notarises regtest height s s' /\ (check = true -> simulated regtest height = false -> only_mined s s').
Proof.
  induction txs as [|t txs IH]; intros i keys s l s' l'; cbn [connect_txs].
  - intros [= <- _]. split; [by apply notarises_preorder|]. intros _ _. by apply only_mined_preorder.
  - destruct (_ || _). { intros [= <- _]. split; [by apply notarises_preorder|]. intros _ _. by apply only_mined_preorder. }
    destruct (negb check && _ && _). { intros [= <- _]. split; [by apply notarises_preorder|]. intros _ _. by apply only_mined_preorder. }
    destruct (connect_tx _ _ _ _ _ _ _ _ _ _ _ _ _ _ _ _ _ _ _ _ _ _ _ _ _) as [[[s1 l1] keys1]|] eqn:E; [|done].
    intros H. apply IH in H as [H1 H2]. apply connect_tx_state in E as [E1 E2].
    split; [by etransitivity|]. intros Hc Hf. etransitivity; [by apply E2|by apply H2].
Qed.

(** The node has been started: the file is open and the genesis notaries are in place. *)
Definition started (s : state) : Prop := st_open s = true /\ didinit (st_g s) = true.

Lemma init_started s h : started s ->
  komodo_init chainName IS_KOMODO_NOTARY KOMODO_EXTERNAL_NOTARIES verify in_memory beyond GenesisNotaries s h
    = Updated s.
Proof. intros [_ Hi]. unfold komodo_init. by rewrite Hi. Qed.

(** Checking a block for notarisations records nothing: after [komodo_connectblock] with
    [fJustCheck] the state file, the table of notaries, the events, the checkpoints and the last
    notarisation are what they were; only the current height, the highest height seen and the
    memory of mined blocks may differ.  (In the regression test network the blocks of every seventh
    height are notarised by a check, too.) *)
Theorem just_check_records_nothing garbage nHeight nTime vtx c r c' : started (c_st c) -> simulated regtest nHeight = false ->
  connectblock true garbage nHeight nTime vtx c = Some (r, c') ->
  st_file (c_st c') = st_file (c_st c) /\
  Pubkeys (st_g (c_st c')) = Pubkeys (st_g (c_st c)) /\
  sp (st_g (c_st c')) = set_CURRENT_HEIGHT tip_height (sp (st_g (c_st c))) /\
  (r = 0 \/ r = 1 \/ r = -1).
Proof.
  intros Hs Hf. unfold komodo_connectblock. rewrite init_started by done. cbn [returned].
  destruct (Pubkeys (st_g (c_st c))) as [table|] eqn:Et; [|done].
  destruct (komodo_notaries _ _ _ _ _ _ _) as [[n keys]|]; [|done].
  assert (connect_reorg chainName IS_KOMODO_NOTARY KOMODO_EXTERNAL_NOTARIES verify in_memory true
    (CState (c_st c) (c_hwmheight c)) nHeight nTime = Some (CState (c_st c) nHeight)) as ->
    by (unfold connect_reorg; by case_match).
  destruct (connect_txs _ _ _ _ _ _ _ _ _ _ _ _ _ _ _ _ _ _ _ _ _ _ _ _ _ _) as [[s l]|] eqn:E; [|done].
  apply connect_txs_state in E as [_ E]. destruct (E eq_refl Hf) as (la & pr & ->).
  cbn [negb andb]. intros [= <- <-]. cbn. split_and!; [done|done|done|].
  destruct l as [|z [|? ?]]; cbn; [tauto| |tauto]. destruct (z =? 1); tauto.
Qed.

(** [C27] On a node that has started, connecting or checking a block never takes back a notarisation, except in the regression test network: the
    checkpoints only grow, and the height of the last notarisation stays or rises to a height below the
    block's.  It holds through rewinds: connecting a block at or below the highest height seen, which
    removes events, removes no checkpoint.  In the regression test network the blocks at every seventh
    height (and only these) may set the last height to their own, also a lower one after a rewind. *)
Theorem connectblock_notarises_forward fJustCheck garbage nHeight nTime vtx c r c' : started (c_st c) ->
  connectblock fJustCheck garbage nHeight nTime vtx c = Some (r, c') ->
  points (c_st c) `prefix_of` points (c_st c') /\
  (last_height (c_st c') = last_height (c_st c) \/ last_height (c_st c) < last_height (c_st c') < nHeight \/
   regtest = true /\ Z.rem nHeight 7 = 0 /\ last_height (c_st c') = nHeight).
Proof.
  intros Hs. pose proof Hs as [Ho _]. unfold komodo_connectblock. rewrite init_started by done. cbn [returned].
  destruct (Pubkeys (st_g (c_st c))) as [table|] eqn:Et; [|done].
  destruct (komodo_notaries _ _ _ _ _ _ _) as [[n keys]|]; [|done].
  destruct (connect_reorg _ _ _ _ _ _ _ _ _) as [c1|] eqn:Er; [|done].
  assert (notarises regtest nHeight (c_st c) (c_st c1)) as H1.
  { unfold connect_reorg in Er. destruct (_ >? _); [injection Er as <-; by apply notarises_preorder|].
    destruct fJustCheck; [injection Er as <-; by apply notarises_preorder|].
    cbn [c_st] in Er. set (s0 := on_g _ _) in Er.
    assert (notarises regtest nHeight (c_st c) s0) as H0.
    { intros _. subst s0. unfold follows, points, last_height, on_g, komodo_event_rewind, LastNotarizedHeight.
      cbn [fp st_g sp with_sp Pubkeys].
      match goal with |- context [rewind_events ?h ?l ?x] => destruct (rewind_events_points h l x) as [-> ->] end.
      destruct (isKMD chainName && _ && _); cbn; (split; [by split_and!|by left]). }
    destruct (stateupdate _ _ _ _ _ _ _ _) as [s1|] eqn:Es; [|done]. injection Er as <-. cbn [c_st].
    etransitivity; [exact H0|]. intros Ho'. apply stateupdate_last in Es as [L F]; [|done]. split; [done|by left]. }
  set (s2 := on_sp _ (c_st c1)).
  assert (notarises regtest nHeight (c_st c1) s2) as H2 by (intros _; split; [by split_and!|by left]).
  destruct (connect_txs _ _ _ _ _ _ _ _ _ _ _ _ _ _ _ _ _ _ _ _ _ _ _ _ _ _) as [[s3 l]|] eqn:E; [|done].
  apply connect_txs_state in E as [H3 _].
  set (fin := if negb fJustCheck && _ then _ else Some s3).
  destruct fin as [s4|] eqn:Ef; [|done]. intros [= _ <-]. cbn [c_st].
  assert (notarises regtest nHeight s3 s4) as H4.
  { subst fin. destruct (_ && _); [|injection Ef as <-; by apply notarises_preorder].
    intros Ho'. apply stateupdate_last in Ef as [L F]; [|done]. split; [done|by left]. }
  assert (notarises regtest nHeight (c_st c) s4) as H
    by (etransitivity; [exact H1|]; etransitivity; [exact H2|]; etransitivity; [exact H3|exact H4]).
  destruct (H Ho) as [(_ & Hp & _) [?|[?|[Hs' ?]]]]; (split; [done|]); auto.
  right; right. apply andb_true_iff in Hs' as [? ?%Z.eqb_eq]. done.
Qed.
End ConnectLaws.

(** ** A notarised block

    A block of KMD at height 4000000 whose second transaction spends outputs of thirteen notaries
    of the season and carries the notarisation of the block at 3999990. *)
Definition plain_tx (ins : list CTxIn) (outs : list CTxOut) : tx :=
  {| fOverwintered := false; nVersion := 1; nVersionGroupId := 0; vin := ins; vout := outs;
     nLockTime := 0; nExpiryHeight := 0; valueBalance := 0; vShieldedSpend := []; vShieldedOutput := [];
     vjoinsplit := []; joinSplitPubKey := []; joinSplitSig := []; bindingSig := [] |}.

Definition sample_keys : list (list Z) := season_keys (fun _ => 0) 8.
Definition sample_notary_tx : tx :=
  plain_tx ([])
    (map (fun k => {| nValue := 10000; scriptPubKey := pay_to_pubkey k |}) sample_keys).
Definition sample_opret : list Z :=
  [0x6a; 0x4c; 108] ++ replicate 32 7 ++ WriteLE32 3999990 ++ replicate 32 9 ++ codes "KMD"%string ++ [0]
  ++ replicate 32 3 ++ WriteLE32 10.
Definition sample_notarisation : tx :=
  plain_tx (map (fun n => {| prevout := {| op_hash := replicate 32 1; op_n := n |}; scriptSig := []; nSequence := 0 |})
              [0; 1; 2; 3; 4; 5; 6; 7; 8; 9; 10; 11; 12])
    ([{| nValue := 10000; scriptPubKey := [1; 1; 1; 1] |}; {| nValue := 0; scriptPubKey := sample_opret |}]).
Definition sample_coinbase : tx :=
  plain_tx ([{| prevout := {| op_hash := replicate 32 0; op_n := 4294967295 |}; scriptSig := [1; 2]; nSequence := 0 |}])
    ([{| nValue := 300000000; scriptPubKey := [1; 1; 1; 1] |}]).

Definition sample_start : cstate :=
  CState (State (Globals new_komodo_state (Some new_table) 0 true 0 0 []) (Some []) Open_stream) 3999999.

Definition sample_connect (fJustCheck : bool) : option (Z * cstate) :=
  komodo_connectblock "" false false [] (fun _ _ _ _ _ _ => 0) (fun _ => 0) (fun _ => 0) (fun _ _ => None) true
    false (fun h => if bool_decide (h = replicate 32 7) then Some 3999990 else None)
    (fun _ => replicate 32 5) (fun _ => Some sample_notary_tx) (replicate 32 6) 3999999 1700000000 [] false
    false fJustCheck [] 4000000 1700000000 [sample_coinbase; sample_notarisation] sample_start.


Lemma just_check_records_nothing_witness : exists c', sample_connect true = Some (1, c') /\
  st_file (c_st c') = Some [] /\ (1 = 0 \/ 1 = 1 \/ 1 = -1).
Proof.
  destruct (sample_connect true) as [[r c']|] eqn:E; [|vm_compute in E; discriminate].
  exists c'. assert (r = 1) as ->.
  { assert (option_map fst (sample_connect true) = Some 1) as H by (vm_compute; reflexivity).
    rewrite E in H. cbn [option_map fst] in H. injection H. done. }
  split; [reflexivity|].
  destruct (just_check_records_nothing "" false false [] (fun _ _ _ _ _ _ => 0) (fun _ => 0) (fun _ => 0)
    (fun _ _ => None) true false (fun h => if bool_decide (h = replicate 32 7) then Some 3999990 else None)
    (fun _ => replicate 32 5) (fun _ => Some sample_notary_tx) (replicate 32 6) 3999999 1700000000 [] false false
    [] 4000000 1700000000 [sample_coinbase; sample_notarisation] sample_start 1 c')
    as (Hf & _ & _ & Hr); [split; reflexivity|reflexivity|exact E|]. split; [exact Hf|exact Hr].
Defined.

Lemma connectblock_notarises_forward_witness : exists c', sample_connect false = Some (0, c') /\
  last_height (c_st c') = 3999990 /\ length (points (c_st c')) = 1%nat /\
  (last_height (c_st c') = 0 \/ 0 < last_height (c_st c') < 4000000).
Proof.
  destruct (sample_connect false) as [[r c']|] eqn:E; [|vm_compute in E; discriminate].
  exists c'.
  assert (option_map (fun x => (fst x, (last_height (c_st (snd x)), length (points (c_st (snd x))))))
            (sample_connect false) = Some (0, (3999990, 1%nat))) as H by (vm_compute; reflexivity).
  rewrite E in H. cbn [option_map fst snd] in H. injection H as Hr Hl Hp. subst r.
  split; [reflexivity|]. split; [exact Hl|]. split; [exact Hp|].
  destruct (connectblock_notarises_forward "" false false [] (fun _ _ _ _ _ _ => 0) (fun _ => 0) (fun _ => 0)
    (fun _ _ => None) true false (fun h => if bool_decide (h = replicate 32 7) then Some 3999990 else None)
    (fun _ => replicate 32 5) (fun _ => Some sample_notary_tx) (replicate 32 6) 3999999 1700000000 [] false
    false false [] 4000000 1700000000 [sample_coinbase; sample_notarisation] sample_start 0 c')
    as [_ [Hh|[Hh|[? _]]]]; [split; reflexivity|exact E|left; exact Hh|right; exact Hh|discriminate].
Defined.

(** ** Undefined behaviour *)

(** The data of a notarisation that is not this chain's own ([matched] is 0: there is no second
    hash before the name), of the chain ABC, with room for a count of pairs. *)
Definition pairs_script (numpairs : Z) : list Z :=
  [0x6a; 0x4c; 128] ++ replicate 32 7 ++ WriteLE32 90 ++ codes "ABC"%string ++ [0]
  ++ replicate 32 3 ++ WriteLE32 10 ++ WriteLE32 0 ++ replicate 44 1 ++ WriteLE32 numpairs.

Definition pairs_update (numpairs : Z) : option (Z * state * vout_vars) :=
  komodo_voutupdate "ABC" false false [] (fun _ _ _ _ _ _ => 0) (fun _ => 0) (fun _ => 0) (fun _ _ => None)
    true false (fun _ => None) false (State (Globals new_komodo_state (Some new_table) 0 true 0 0 []) (Some []) Open_stream)
    (-1) (pairs_script numpairs) (Z.of_nat (length (pairs_script numpairs))) 200 1 1 1 0 1600000000
    (VoutVars 0 0 0 0).

(** On an asset chain, a transaction with enough signatures of notaries can make
    [komodo_voutupdate] leave the range of [int]: the number of pairs comes from the script and is
    multiplied by 8 before anything bounds it.  A count of 2^28 or more overflows, one below does not. *)
Theorem voutupdate_pairs_overflow :
  pairs_update (2 ^ 28) = None /\ is_Some (pairs_update (2 ^ 28 - 100)).
Proof. split; [vm_compute; reflexivity|]. eexists. vm_compute. reflexivity. Qed.

Section Defined.
Context (IS_KOMODO_NOTARY KOMODO_EXTERNAL_NOTARIES : bool) (NOTARY_PUBKEY33 : list Z).
Context (verify : string -> list Z -> Z -> Z -> list Z -> list Z -> Z).
Context (komodo_heightstamp : Z -> Z) (beyond : nat -> Z).
Context (HASH_FIND : list knotary_entry -> list Z -> option knotary_entry).
Context (in_memory : bool).
Context (IsInitialBlockDownload : bool) (komodo_getblockindex : list Z -> option Z).

Lemma record_notarisation_defined s height nheight src desttx m : st_open s = true ->
  is_Some (record_notarisation "" IS_KOMODO_NOTARY KOMODO_EXTERNAL_NOTARIES verify in_memory
             s height nheight src desttx m).
Proof. intros Ho. unfold record_notarisation. by apply stateupdate_defined. Qed.

(** On the KMD chain [komodo_voutupdate] is defined on the first 64 outputs of a transaction:
    whatever the script, the height (from 0 on), the position and the time, with the file open and
    the table of notaries in place it returns.  From output 64 on a key of the notary the
    transaction pays shifts a 64-bit number by its whole width. *)
Theorem voutupdate_defined_on_KMD check s n buf len height i j nz mask t v table :
  st_open s = true -> Pubkeys (st_g s) = Some table -> table_ok table -> 0 <= height -> j < 64 ->
  is_Some (komodo_voutupdate "" IS_KOMODO_NOTARY KOMODO_EXTERNAL_NOTARIES NOTARY_PUBKEY33 verify
    komodo_heightstamp beyond HASH_FIND in_memory IsInitialBlockDownload komodo_getblockindex
    check s n buf len height i j nz mask t v).
Proof.
  intros Ho Ht Hok Hh Hj. unfold komodo_voutupdate.
  destruct (vout_pubkey _ _ _ _ _ _ _ _ _ _ _ _ _ _ _) as [[[s1 n1] v1]|] eqn:E1.
  2: { exfalso. revert E1. unfold vout_pubkey. destruct (pays_to_key buf len); [|done].
       set (s1 := if _ && _ then on_g _ s else s).
       assert (Pubkeys (st_g s1) = Some table) as Hs1 by (subst s1; by destruct (_ && _)).
       clearbody s1. destruct (bool_decide _); [done|]. rewrite Hs1.
       destruct (chosennotary_defined "" komodo_heightstamp beyond HASH_FIND table
                   (replicate 64 (replicate 33 0)) height (sub buf 1 33) t Hok Hh) as [[r nid] ->].
       destruct (_ && (n <? 64)); [|done]. destruct (_ && negb (n =? nid)); [done|].
       destruct (Z.geb_spec j 64); [lia|done]. }
  apply vout_pubkey_state in E1. destruct E1 as (l & p & ->).
  destruct (opret_header buf len) as [[opretlen off]|]; [|by eexists].
  destruct (GetChainNameFromScript _ _ _) as [|c name]; [by eexists|].
  destruct (_ && (opretlen >=? _)).
  2: { destruct (_ && (opretlen =? 149)); [by eexists|]. destruct (_ && forallb _ _); by eexists. }
  unfold vout_notarisation.
  set (nz' := if unsigned_name _ then 1 else _). set (nh := i32 (rwnum32 buf (off + 32))).
  destruct (check && _); [by eexists|]. destruct (negb (nz' =? 0) && _); [|by eexists].
  assert (forall l o1 o2, MoMoM_defined "" (c :: name) buf l o1 o2 = true) as Hdef
    by (intros; unfold MoMoM_defined; by case_match).
  rewrite Hdef, andb_false_r. destruct (_ && (nh <? height)); [|by eexists].
  edestruct record_notarisation_defined as [s2 ->]; [done|by eexists].
Qed.
End Defined.

Lemma voutupdate_defined_on_KMD_witness :
  is_Some (komodo_voutupdate "" false false [] (fun _ _ _ _ _ _ => 0) (fun _ => 0) (fun _ => 0) (fun _ _ => None)
    true false (fun _ => None) false (c_st sample_start) (-1) (pairs_script (2 ^ 28)) 131 200 1 1 1 0 0
    (VoutVars 0 0 0 0)).
Proof.
  apply voutupdate_defined_on_KMD with (table := new_table); [reflexivity|reflexivity|reflexivity|lia|lia].
Defined.
