(* ===== verification/Restart.v ===== *)
(** * Restart: what the state file keeps of a run
    A node that has started on an empty state file, connected and checked blocks
    ([komodo_connectblock], [src/src/komodo.cpp]) and is started again loads the file
    ([komodo_init], [komodo_stateupdate], [komodo_parsestatefiledata]).  This file says which of its
    variables are then as they were: those that every handler and every step of a run keep in step
    with the file. *)
From Stdlib Require Import String.
From stdpp Require Import relations.
From S2P Require Import Prelude Endian Uint256 Hash Serialize Amount Transaction Subsidy KomodoEvents Checkpoints NotaryKeys NotaryTable KomodoState Notary NotarySign Notarisation.

(** ** The variables that are recorded

    The current height, the blocks this node mined last and the position cached by searches are
    not; the last notarisation is when [l] holds. *)
Record recorded (l : bool) (g g' : globals) : Prop := Recorded {
  rec_events : events (sp g) = events (sp g');
  rec_saved : SAVEDHEIGHT (sp g) = SAVEDHEIGHT (sp g');
  rec_stamp : SAVEDTIMESTAMP (sp g) = SAVEDTIMESTAMP (sp g');
  rec_points : NPOINTS (sp g) = NPOINTS (sp g');
  rec_table : Pubkeys g = Pubkeys g';
  rec_hwm : hwmheight g = hwmheight g';
  rec_init : didinit g = didinit g';
  rec_kv : kvupdates g = kvupdates g';
  rec_last : l = true -> last (sp g) = last (sp g')
}.

#[export] Instance recorded_equiv l : Equivalence (recorded l).
Proof.
  split.
  - by intros g.
  - intros g g' []. split; try done. intros H. symmetry. auto.
  - intros g1 g2 g3 [] []. split; try congruence. intros H. etransitivity; auto.
Qed.

Lemma recorded_less l g g' : recorded l g g' -> recorded false g g'.
Proof. by intros []. Qed.

(** ** Rewinding *)

(** The events left by a rewind, of a list with the newest first. *)
Fixpoint kept (height : Z) (newest_first : list event) : list event :=
  match newest_first with
  | [] => []
  | ev :: older => if ev_height ev <? height then newest_first else kept height older
  end.

Lemma rewind_events_kept height l s : rewind_events height l s = with_events (rev (kept height l)) s.
Proof.
  revert s. induction l as [|e l IH]; intros s; cbn [rewind_events kept]; [done|].
  destruct (ev_height e <? height); [done|]. apply IH.
Qed.

Lemma kept_idemp height l : kept height (kept height l) = kept height l.
Proof.
  induction l as [|e l IH]; cbn [kept]; [done|]. destruct (ev_height e <? height) eqn:E; [|done].
  cbn [kept]. by rewrite E.
Qed.

Section Recorded.
Context (chainName : string) (IS_KOMODO_NOTARY : bool).
Context (verify : string -> list Z -> Z -> Z -> list Z -> list Z -> Z).
Abbreviation handle := (handle chainName IS_KOMODO_NOTARY verify).

Lemma add_event_recorded l g g' e s s' :
  recorded l g g' -> s = add_event chainName (sp g) e -> s' = add_event chainName (sp g') e ->
  recorded l (with_sp s g) (with_sp s' g').
Proof. intros [] -> ->. unfold add_event. destruct (negb _); split; cbn; congruence || auto. Qed.

Lemma rewind_recorded l g g' h : recorded l g g' ->
  recorded l (komodo_event_rewind chainName g h) (komodo_event_rewind chainName g' h).
Proof.
  intros []. unfold komodo_event_rewind. rewrite !rewind_events_kept.
  destruct (_ && _), (_ && _); split; cbn; congruence || auto.
Qed.

(** A rewind before the event that rewinds changes nothing that is recorded. *)
Lemma rewind_absorbed l g g' h : recorded l g g' ->
  let rewinding g := komodo_event_rewind chainName (with_sp (add_event chainName (sp g) (Event h EVENT_REWIND)) g) h in
  recorded l (rewinding g) (rewinding (komodo_event_rewind chainName g' h)).
Proof.
  intros Hr. cbv zeta. etransitivity; [apply rewind_recorded; eapply add_event_recorded; [exact Hr|done|done]|].
  assert (forall g, events (sp (komodo_event_rewind chainName (with_sp (add_event chainName (sp g) (Event h EVENT_REWIND)) g) h))
    = rev (kept h (rev (events (sp g))))) as Hev.
  { intros g0. unfold komodo_event_rewind. rewrite rewind_events_kept. destruct (_ && _); cbn;
      (unfold add_event; destruct (negb _); cbn; [|done]; rewrite rev_app_distr; cbn;
       destruct (Z.ltb_spec h h); [lia|done]). }
  split; [|unfold komodo_event_rewind; rewrite !rewind_events_kept; unfold add_event; by repeat case_match ..].
  rewrite !Hev. unfold komodo_event_rewind. rewrite rewind_events_kept.
  assert (forall e, rev (kept h (rev e)) = rev (kept h (rev (rev (kept h (rev e)))))) as Hk
    by (intros; by rewrite rev_involutive, kept_idemp).
  destruct (_ && _); cbn; apply Hk.
Qed.

(** The handlers keep states alike that are recorded alike. *)
Lemma handle_recorded l g g' e h : recorded l g g' -> handle g e = Some h ->
  exists h', handle g' e = Some h' /\ recorded l h h'.
Proof.
  intros Hr. pose proof Hr as []. unfold KomodoState.handle. destruct (ev_body e) as [b|b|b|b|b|b|].
  - intros [= <-]. eexists. split; [reflexivity|]. unfold komodo_eventadd_pubkeys. rewrite rec_table0, rec_hwm0.
    pose proof (add_event_recorded l g g' (Event (ev_height e) (EVENT_PUBKEYS b)) _ _ Hr eq_refl eq_refl) as [].
    split; cbn in *; congruence || auto.
  - intros [= <-]. eexists. split; [reflexivity|]. unfold komodo_eventadd_notarized.
    destruct (_ && _); [done|]. destruct (_ || _); [|done].
    pose proof (add_event_recorded l g g' (Event (ev_height e) (EVENT_NOTARIZED b)) _ _ Hr eq_refl eq_refl) as [].
    unfold komodo_notarized_update. destruct (_ >=? _); split; cbn in *; congruence || auto.
  - intros [= <-]. by eexists.
  - intros [= <-]. eexists. split; [reflexivity|]. unfold komodo_eventadd_kmdheight.
    destruct (_ >? 0); [|apply rewind_recorded; by eapply add_event_recorded].
    pose proof (add_event_recorded l g g' (Event (ev_height e) (EVENT_KMDHEIGHT b)) _ _ Hr eq_refl eq_refl) as [].
    cbn [sp with_sp Pubkeys hwmheight didinit kvupdates] in *. unfold komodo_setkmdheight. rewrite rec_saved1.
    destruct (_ >? SAVEDHEIGHT _), (_ >? CURRENT_HEIGHT _), (_ >? CURRENT_HEIGHT _); split; cbn in *; congruence || auto.
  - unfold komodo_eventadd_opreturn. destruct (isKMD chainName); [intros [= <-]; by eexists|].
    pose proof (add_event_recorded l g g' (Event (ev_height e) (EVENT_OPRETURN b)) _ _ Hr eq_refl eq_refl) as [].
    destruct (o_opret b); [done|]. destruct (_ && _); intros [= <-]; eexists; (split; [reflexivity|]);
      split; cbn in *; congruence || auto.
  - intros [= <-]. eexists. split; [reflexivity|]. unfold komodo_eventadd_pricefeed. by eapply add_event_recorded.
  - intros [= <-]. by eexists.
Qed.

(** A notarisation below its block sets the last one, whatever it was; on a notary node only when the
    other daemon knows it. *)
Lemma notarized_recorded g g' ht nb : recorded false g g' -> IS_KOMODO_NOTARY = false -> n_notarizedheight nb < ht ->
  recorded true (komodo_eventadd_notarized chainName IS_KOMODO_NOTARY verify g ht nb)
                (komodo_eventadd_notarized chainName IS_KOMODO_NOTARY verify g' ht nb).
Proof.
  intros Hr -> Hh. unfold komodo_eventadd_notarized. cbn [andb].
  assert (isSymbol chainName (symbol chainName) || (isKMD chainName && String.eqb (symbol chainName) "KMD") = true) as ->.
  { pose proof (symbol_matched chainName) as H. destruct (_ && _); [by rewrite orb_true_r|by rewrite H]. }
  pose proof (add_event_recorded false g g' (Event ht (EVENT_NOTARIZED nb)) _ _ Hr eq_refl eq_refl) as [].
  unfold komodo_notarized_update. rewrite Z.geb_leb. destruct (Z.leb_spec ht (n_notarizedheight nb)); [lia|].
  split; cbn in *; congruence || auto.
Qed.
End Recorded.

(** ** The file and the variables in step *)

(** The last notarisation fits its record: hashes and numbers of their sizes, and a MoM together with a
    depth or neither. *)
Definition last_ok (c : notarized_checkpoint) : Prop :=
  hash_wf (notarized_hash c) /\ hash_wf (notarized_desttxid c) /\ hash_wf (MoM c) /\
  sint_wf 32 (notarized_height c) /\ sint_wf 32 (MoMdepth c) /\
  (MoM c = zero256 /\ MoMdepth c = 0 \/ MoM c <> zero256 /\ MoMdepth c <> 0).

Lemma zero256_wf : hash_wf zero256.
Proof. split; [done|]. apply (bool_decide_unpack _). vm_compute. exact I. Qed.

Lemma IsNull_zero256 h : length h = 32%nat -> base_blob.IsNull h = true -> h = zero256.
Proof.
  intros Hl Hn. unfold base_blob.IsNull in Hn. unfold zero256, base_blob.zero. rewrite <- Hl. clear Hl.
  induction h as [|x h IH]; [done|]. cbn in Hn. apply andb_true_iff in Hn as [->%Z.eqb_eq Hn].
  cbn [length replicate]. by rewrite <- IH.
Qed.

(** The arguments of a call that write a record which is read back as it was. *)
Definition args_ok (chainName : string) (EXT : bool) (a : update_args) : Prop :=
  sint_wf 32 (a_KMDheight a) /\ uint_wf 32 (a_KMDtimestamp a) /\ a_opretbuf a = None /\ a_pvals a = None /\
  match a_notarypubs a with
  | Some rows => (isKMD chainName = true \/ EXT = true) /\ body_wf (EVENT_PUBKEYS (EventPubkeys (a_numnotaries a) rows)) /\
      rows = overwrite (take (Z.to_nat (a_numnotaries a)) rows) (pk_pubkeys new_pubkeys)
  | None => True
  end.

Section InStep.
Context (chainName : string) (IS_KOMODO_NOTARY KOMODO_EXTERNAL_NOTARIES : bool).
Context (verify : string -> list Z -> Z -> Z -> list Z -> list Z -> Z).
Abbreviation replay := (replay chainName IS_KOMODO_NOTARY verify).
Abbreviation handle := (handle chainName IS_KOMODO_NOTARY verify).
Abbreviation loggable := (loggable chainName KOMODO_EXTERNAL_NOTARIES).

(** The file holds the records of events whose replay, from [g0], gives what is recorded of the
    variables. *)
Definition in_step (l : bool) (g0 : globals) (s : state) : Prop :=
  st_open s = true /\ last_ok (last (sp (st_g s))) /\
  exists evs g, Forall loggable evs /\ st_file s = Some (concat (map write_event evs)) /\
    replay g0 evs = Some g /\ recorded l g (st_g s).

Lemma in_step_less l g0 s : in_step l g0 s -> in_step false g0 s.
Proof. intros (? & ? & evs & g & ? & ? & ? & ?). split_and!; [done..|]. exists evs, g. split_and!; [done..|]. by eapply recorded_less. Qed.

(** A change of the variables that keeps what is recorded. *)
Lemma in_step_on_g l g0 f s : in_step l g0 s -> recorded l (st_g s) (f (st_g s)) -> last_ok (last (sp (f (st_g s)))) ->
  in_step l g0 (on_g f s).
Proof.
  intros (? & ? & evs & g & ? & ? & ? & ?) Hr Hl. split_and!; [done..|]. exists evs, g. split_and!; [done..|].
  by etransitivity.
Qed.

(** An event written, and handled from variables recorded like those of the state. *)
Lemma in_step_log l l' g0 s e g' : in_step l g0 s -> loggable e -> last_ok (last (sp g')) ->
  (forall g, recorded l g (st_g s) -> exists g1, handle g e = Some g1 /\ recorded l' g1 g') ->
  in_step l' g0 (State g' (Some (default [] (st_file s) ++ write_event e)) (fp s)).
Proof.
  intros (Ho & _ & evs & g & He & Hf & Hr & Hg) Hl Hlast Hh. destruct (Hh g Hg) as (g1 & E1 & Hg1).
  split_and!; [done..|]. exists (evs ++ [e]), g1. split_and!; [|rewrite Hf|by rewrite (replay_snoc _ _ _ _ _ _ _ Hr)|done].
  - apply Forall_app. by split; [|constructor].
  - cbn [st_file default]. unfold id. by rewrite map_app, concat_app; cbn [map concat]; rewrite app_nil_r.
Qed.

Lemma in_step_handle l g0 s e g' : in_step l g0 s -> loggable e -> handle (st_g s) e = Some g' -> last_ok (last (sp g')) ->
  in_step l g0 (State g' (Some (default [] (st_file s) ++ write_event e)) (fp s)).
Proof.
  intros Hs He E Hl. apply (in_step_log l); [done..|]. intros g Hg. symmetry in Hg.
  destruct (handle_recorded _ _ _ _ _ _ _ _ Hg E) as (g1 & E1 & H1). exists g1. split; [done|]. by symmetry.
Qed.

(** The event of the last notarisation. *)
Definition last_event (c : notarized_checkpoint) : event_notarized :=
  EventNotarized (notarized_hash c) (notarized_desttxid c) (MoM c) (notarized_height c) (MoMdepth c) (copy_dest (dest chainName)).

Lemma last_event_loggable h c : sint_wf 32 h -> last_ok c -> loggable (Event h (EVENT_NOTARIZED (last_event c))).
Proof.
  intros Hh (H1 & H2 & H3 & H4 & H5 & H6). split; [by split|]. split; [|done]. unfold last_event, has_MoM.
  cbn [ev_body stored n_blockhash n_desttxid n_MoM n_notarizedheight n_MoMdepth n_dest]. unfold has_MoM; cbn [n_MoM n_MoMdepth].
  destruct H6 as [[-> ->]|[Hm Hd]]; [done|]. rewrite (proj2 (Z.eqb_neq _ _) Hd). cbn [negb andb].
  destruct (base_blob.IsNull (MoM c)) eqn:E; [|done]. exfalso. apply Hm. by apply IsNull_zero256; [apply H3|].
Qed.

Lemma notarized_last_ok g h c : last_ok (last (sp g)) -> last_ok c ->
  last_ok (last (sp (komodo_eventadd_notarized chainName IS_KOMODO_NOTARY verify g h (last_event c)))).
Proof.
  intros Hg Hc. unfold komodo_eventadd_notarized. destruct (_ && _); [done|]. destruct (_ || _); [|done].
  unfold komodo_notarized_update, add_event. destruct (_ >=? _), (negb _); exact Hg || exact Hc.
Qed.

(** A call of [komodo_stateupdate] on the open file. *)
Lemma in_step_write l g0 s h a s' : in_step l g0 s -> sint_wf 32 h -> args_ok chainName KOMODO_EXTERNAL_NOTARIES a ->
  write_and_handle chainName IS_KOMODO_NOTARY verify s h a = Updated s' -> in_step l g0 s'.
Proof.
  intros Hs Hh (Hk & Ht & Ho & Hp & Hn). pose proof Hs as (_ & Hl & _). unfold write_and_handle. rewrite Ho, Hp.
  destruct (negb (a_KMDheight a =? 0)).
  { intros [= <-]. eapply in_step_handle; [exact Hs|by split; [split|split]|reflexivity|].
    unfold komodo_eventadd_kmdheight. cbn [k_kheight]. destruct (_ >? 0).
    - unfold komodo_setkmdheight. cbn [sp with_sp].
      destruct (_ >? SAVEDHEIGHT _), (_ >? CURRENT_HEIGHT _); unfold add_event; by destruct (negb (isKMD chainName)).
    - unfold komodo_event_rewind. rewrite rewind_events_kept. destruct (_ && _); unfold add_event; by destruct (negb (isKMD chainName)). }
  rewrite bool_decide_eq_false_2 by (by intros [? ?]). cbn [andb].
  destruct (bool_decide (is_Some (a_notarypubs a)) && _) eqn:En.
  { destruct (a_notarypubs a) as [rows|]; [|done]. destruct Hn as (Hc & Hw & Er). intros [= <-].
    eapply in_step_handle; [exact Hs| |reflexivity|unfold komodo_eventadd_pubkeys, add_event; by destruct (negb (isKMD chainName))].
    split; [by split|]. split; [|exact Hc]. cbn [ev_body stored default pk_num pk_pubkeys]. unfold id. do 3 f_equal. by symmetry. }
  unfold update_notarized.
  destruct (negb (h =? 0)); [|by intros [= <-]]. intros [= <-]. fold (last_event (last (sp (st_g s)))).
  eapply in_step_handle; [exact Hs|by apply last_event_loggable|reflexivity|by apply notarized_last_ok].
Qed.

Context (in_memory : bool).
Abbreviation supdate := (stateupdate chainName IS_KOMODO_NOTARY KOMODO_EXTERNAL_NOTARIES verify in_memory).

Lemma supdate_open s h a s' : st_open s = true -> 0 < h -> supdate s h a = Some s' ->
  write_and_handle chainName IS_KOMODO_NOTARY verify s h a = Updated s'.
Proof.
  intros Ho Hh. unfold stateupdate. rewrite stateupdate_open by done. destruct (Z.leb_spec h 0); [lia|].
  pose proof (write_and_handle_event chainName IS_KOMODO_NOTARY verify s h a) as Hw.
  destruct (write_and_handle _ _ _ _ _ _); [by intros [= <-]|done|done].
Qed.

Lemma in_step_supdate l g0 s h a s' : in_step l g0 s -> 0 < h < 2 ^ 31 -> args_ok chainName KOMODO_EXTERNAL_NOTARIES a ->
  supdate s h a = Some s' -> in_step l g0 s'.
Proof.
  intros Hs Hh Ha E. apply supdate_open in E; [|by apply Hs|lia]. apply (in_step_write l g0 s h a); try done. split; lia.
Qed.
End InStep.

(** ** Reading the script of a notarisation *)

Lemma sub_hash_wf buf off : bytes_ok buf -> 0 <= off -> off + 32 <= Z.of_nat (length buf) -> hash_wf (rwbignum buf off).
Proof.
  intros Hb H0 Hl. unfold rwbignum, sub. split; [rewrite length_take, length_drop; lia|]. by apply Forall_take, Forall_drop.
Qed.

Lemma i32_wf x : sint_wf 32 (i32 x).
Proof. apply swrap_bound. lia. Qed.

Lemma at_byte buf i : bytes_ok buf -> 0 <= at_ buf i < 256.
Proof.
  intros Hb. unfold at_. destruct (nth_in_or_default (Z.to_nat i) buf 0) as [Hin| ->]; [|lia].
  exact (proj1 (List.Forall_forall _ _) Hb _ Hin).
Qed.

(** The data of an OP_RETURN script lies in the script. *)
Lemma opret_header_inside buf len opretlen off : bytes_ok buf -> 0 <= len < 2 ^ 31 ->
  opret_header buf len = Some (opretlen, off) -> 34 <= opretlen /\ 0 <= off /\ off + opretlen <= len.
Proof.
  intros Hb Hl. unfold opret_header.
  assert (forall ol o, 0 <= o -> ol < 2 ^ 32 ->
    (if (len - o <? 0) || (u32 (len - o) <? u32 ol) then None else if ol <? 34 then None else Some (ol, o)) = Some (opretlen, off) ->
    34 <= opretlen /\ 0 <= off /\ off + opretlen <= len) as Hc.
  { intros ol o Ho Hol.
    destruct ((len - o <? 0) || _) eqn:E; [done|]. destruct (Z.ltb_spec ol 34); [done|]. intros [= <- <-].
    apply orb_false_iff in E as [E1%Z.ltb_ge E2%Z.ltb_ge]. rewrite !uwrap_small in E2 by lia. lia. }
  cbv zeta. destruct (negb _); [done|]. destruct (len - 1 <? 1); [done|].
  pose proof (at_byte buf 1 Hb). pose proof (at_byte buf 2 Hb).
  destruct (_ <? 76); [apply Hc; lia|]. destruct (at_ buf 1 =? 76).
  { destruct (_ <? 1); [done|]. apply Hc; lia. }
  destruct (at_ buf 1 =? 77).
  { destruct (len - 2 <? 2); [done|]. apply Hc; [lia|]. unfold ReadLE16.
    pose proof (le_val_bound 8 (take 2 (drop (Z.to_nat 2) buf)) ltac:(lia) (Forall_take _ _ _ (Forall_drop _ _ _ Hb))) as HB.
    assert (length (take 2 (drop (Z.to_nat 2) buf)) <= 2)%nat by (rewrite length_take; lia).
    eapply Z.lt_le_trans; [apply HB|]. apply Z.pow_le_mono_r; lia. }
  destruct (at_ buf 1 =? 78); [|done]. destruct (len - 2 <? 4); [done|]. apply Hc; [lia|].
  pose proof (i32_wf (ReadLE32 (drop (Z.to_nat 2) buf))) as HB. unfold sint_wf in HB. lia.
Qed.

Lemma read_MoM_ok buf len off opretlen h : bytes_ok buf -> 0 <= len -> off + opretlen <= Z.of_nat (length buf) ->
  hash_wf (m_MoM (read_MoM buf len off opretlen h)) /\ sint_wf 32 (m_MoMdepth (read_MoM buf len off opretlen h)).
Proof.
  intros Hb H0 Hl. unfold read_MoM. assert (hash_wf zero256 /\ sint_wf 32 0) by (split; [apply zero256_wf|done]).
  destruct (Z.leb_spec (len + 36 - off) opretlen); [|done]. destruct (_ || _); [done|].
  split; [apply sub_hash_wf; done || lia|apply i32_wf].
Qed.

(** ** The steps of [komodo_connectblock] *)

Section Block.
Context (chainName : string) (IS_KOMODO_NOTARY KOMODO_EXTERNAL_NOTARIES : bool).
Context (NOTARY_PUBKEY33 : list Z).
Context (verify : string -> list Z -> Z -> Z -> list Z -> list Z -> Z).
Context (komodo_heightstamp : Z -> Z) (beyond : nat -> Z).
Context (HASH_FIND : list knotary_entry -> list Z -> option knotary_entry).
Context (in_memory : bool).
Context (GenesisNotaries : list (string * string)) (notary_pay regtest : bool).

(** Outside the regression test network, and on a node that does not ask another daemon about
    notarisations, the last one is recorded, too. *)
Definition last_recorded : bool := negb regtest && negb IS_KOMODO_NOTARY.

Context (g0 : globals).
Abbreviation ok := (in_step chainName IS_KOMODO_NOTARY KOMODO_EXTERNAL_NOTARIES verify last_recorded g0).
Abbreviation supdate := (stateupdate chainName IS_KOMODO_NOTARY KOMODO_EXTERNAL_NOTARIES verify in_memory).

Lemma record_notarisation_in_step s height nheight src desttx m s' : ok s -> 0 < height < 2 ^ 31 -> nheight < height ->
  sint_wf 32 nheight -> hash_wf src -> hash_wf desttx -> hash_wf (m_MoM m) -> sint_wf 32 (m_MoMdepth m) ->
  record_notarisation chainName IS_KOMODO_NOTARY KOMODO_EXTERNAL_NOTARIES verify in_memory s height nheight src desttx m = Some s' ->
  ok s'.
Proof.
  intros Hs Hh Hn Hwn Hsrc Hdst HM Hd. unfold record_notarisation. set (f := fun sp : komodo_state => _). set (s1 := on_sp f s).
  pose proof Hs as (_ & (H1 & H2 & H3 & H4 & H5 & H6) & _).
  assert (last_ok (last (sp (st_g s1))) /\ notarized_height (last (sp (st_g s1))) = nheight) as [Hl1 Hn1].
  { subst s1 f. unfold on_sp, on_g. cbn [st_g sp with_sp]. destruct (negb (bool_decide _) && _) eqn:E; cbn; [|by split_and!].
    apply andb_true_iff in E as [E1%negb_true_iff%bool_decide_eq_false_1 E2]. split; [|done]. split_and!; try done. right. split; [done|].
    intros Hz. change (m_MoMdepth m = 0) in Hz. by rewrite Hz in E2. }
  assert (in_step chainName IS_KOMODO_NOTARY KOMODO_EXTERNAL_NOTARIES verify false g0 s1) as Hs1.
  { apply in_step_on_g; [by eapply in_step_less| |exact Hl1]. subst f. cbv beta. destruct (_ && _); by split. }
  clearbody s1. intros E. apply supdate_open in E; [|by apply Hs1|lia]. unfold write_and_handle, no_args in E.
  cbn [a_KMDheight a_opretbuf a_notarypubs a_pvals a_opretlen a_numnotaries a_numpvals Z.eqb negb andb] in E.
  rewrite !bool_decide_eq_false_2 in E by (by intros [? ?]). cbn [andb] in E. unfold update_notarized in E.
  destruct (Z.eqb_spec height 0); [lia|]. cbn [negb] in E. injection E as <-.
  fold (last_event chainName (last (sp (st_g s1)))).
  eapply in_step_log; [exact Hs1|apply last_event_loggable; [split; lia|exact Hl1]|by apply notarized_last_ok|].
  intros g Hg. eexists. split; [reflexivity|]. cbn [ev_height]. unfold last_recorded.
  destruct IS_KOMODO_NOTARY eqn:EN.
  - rewrite andb_false_r. symmetry in Hg |- *.
    destruct (handle_recorded chainName true verify _ _ _ (Event height (EVENT_NOTARIZED (last_event chainName (last (sp (st_g s1)))))) _ Hg eq_refl)
      as (h' & [= <-] & Hh'). exact Hh'.
  - assert (recorded true (komodo_eventadd_notarized chainName false verify g height (last_event chainName (last (sp (st_g s1)))))
      (komodo_eventadd_notarized chainName false verify (st_g s1) height (last_event chainName (last (sp (st_g s1)))))) as Hr
      by (apply notarized_recorded; [exact Hg|done|cbn; lia]).
    destruct Hr. split; auto.
Qed.
Context (IsInitialBlockDownload : bool) (komodo_getblockindex : list Z -> option Z).

Lemma mined_in_step a b s : ok s -> ok (on_g (with_mined a b) s).
Proof. intros Hs. apply in_step_on_g; [done| |apply Hs]. by split. Qed.

Lemma vout_notarisation_in_step check s n buf height nz mask v matched name off opretlen n' s' v' :
  ok s -> 0 < height < 2 ^ 31 -> bytes_ok buf -> 0 <= off -> off + opretlen <= Z.of_nat (length buf) ->
  (matched = true -> 68 <= opretlen) ->
  vout_notarisation chainName IS_KOMODO_NOTARY KOMODO_EXTERNAL_NOTARIES verify in_memory IsInitialBlockDownload komodo_getblockindex
    check s n buf height nz mask v matched name off opretlen = Some (n', s', v') -> ok s'.
Proof.
  intros Hs Hh Hb Ho Hl Hm. unfold vout_notarisation. set (nz' := if unsigned_name name then 1 else _).
  destruct (check && matched); [by intros [= _ <- _]|].
  destruct (negb (nz' =? 0) && _); [|by intros [= _ <- _]].
  destruct (_ && negb (MoMoM_defined _ _ _ _ _ _)); [done|].
  destruct (matched && _ && _) eqn:Em; [|by intros [= _ <- _]]. propify. subst matched. specialize (Hm eq_refl).
  destruct (record_notarisation _ _ _ _ _ _ _ _ _ _ _) as [s1|] eqn:E; [|done]. intros [= _ <- _].
  pose proof (read_MoM_ok buf (off + 36 + 32 + (Z.of_nat (length name) + 1)) off opretlen (i32 (rwnum32 buf (off + 32))) Hb
    ltac:(lia) ltac:(lia)) as [HM Hd].
  apply record_notarisation_in_step in E; try done; [apply i32_wf|apply sub_hash_wf; done || lia..].
Qed.

Lemma voutupdate_in_step check s n buf height i j nz mask t v n' s' v' :
  ok s -> 0 < height < 2 ^ 31 -> bytes_ok buf -> Z.of_nat (length buf) < 2 ^ 31 ->
  komodo_voutupdate chainName IS_KOMODO_NOTARY KOMODO_EXTERNAL_NOTARIES NOTARY_PUBKEY33 verify
     komodo_heightstamp beyond HASH_FIND in_memory IsInitialBlockDownload komodo_getblockindex
     check s n buf (Z.of_nat (length buf)) height i j nz mask t v = Some (n', s', v') -> ok s'.
Proof.
  intros Hs Hh Hb Hl. unfold komodo_voutupdate.
  destruct (vout_pubkey _ _ _ _ _ _ _ _ _ _ _ _ _ _ _) as [[[s1 n1] v1]|] eqn:E1; [|done].
  apply vout_pubkey_state in E1 as (a & b & ->). pose proof (mined_in_step a b s Hs) as Hs1.
  destruct (opret_header _ _) as [[opretlen off]|] eqn:Eh; [|by intros [= _ <- _]].
  apply opret_header_inside in Eh as (H1 & H2 & H3); [|done|lia].
  set (matched := CheckChainNameInScript _ _ _ _). clearbody matched.
  destruct (GetChainNameFromScript _ _ _) as [|c name]; [by intros [= _ <- _]|].
  destruct (_ && (opretlen >=? _)) eqn:Ej.
  - intros E. apply vout_notarisation_in_step in E; try done. intros ->. apply andb_true_iff in Ej as [_ Ej]. cbn in Ej. lia.
  - destruct (_ && (opretlen =? 149)); [by intros [= _ <- _]|]. destruct (_ && forallb _ _); by intros [= _ <- _].
Qed.

Definition scripts_ok (vouts : list CTxOut) : Prop := Forall (fun o => bytes_ok (scriptPubKey o)) vouts.

Lemma outputs_in_step tip_time check height i nz mask vouts : 0 < height < 2 ^ 31 -> scripts_ok vouts -> forall j a a',
  ok (oa_s a) -> outputs_loop chainName IS_KOMODO_NOTARY KOMODO_EXTERNAL_NOTARIES NOTARY_PUBKEY33 verify
     komodo_heightstamp beyond HASH_FIND in_memory IsInitialBlockDownload komodo_getblockindex tip_time
     check height i nz mask j vouts a = Some a' -> ok (oa_s a').
Proof.
  intros Hh. induction 1 as [|o vouts Ho _ IH]; intros j a a' Ha; cbn [outputs_loop]; [by intros [= <-]|].
  destruct (_ && _) eqn:Eb; [|by apply IH].
  destruct (komodo_voutupdate _ _ _ _ _ _ _ _ _ _ _ _ _ _ _ _ _ _ _ _ _ _) as [[[n s] v]|] eqn:E; [|done].
  apply IH. cbn [oa_s]. apply voutupdate_in_step in E; try done. apply andb_true_iff in Eb as [_ Eb]. lia.
Qed.

(** The keys of a ratification. *)
Lemma ratified_keys_ok vouts : scripts_ok vouts ->
  (length (ratified_keys vouts) <= 64)%nat /\ Forall (fun k => length k = 33%nat) (ratified_keys vouts).
Proof.
  intros Hv. unfold ratified_keys. split; [rewrite length_take; lia|]. apply Forall_take, list.Forall_forall. intros k Hk.
  apply list_elem_of_omap in Hk as (o & _ & Hk). destruct (_ && _ && _) eqn:E; [|done]. injection Hk as <-.
  apply andb_true_iff in E as [_ E]. unfold pays_to_key in E. apply andb_true_iff in E as [E _]. apply andb_true_iff in E as [E _].
  unfold sub. rewrite length_take, length_drop. lia.
Qed.

Lemma ratified_rows keys : (length keys <= 64)%nat -> Forall (fun k => length k = 33%nat) keys ->
  let rows := overwrite keys (pk_pubkeys new_pubkeys) in
  body_wf (EVENT_PUBKEYS (EventPubkeys (Z.of_nat (length keys)) rows)) /\
  rows = overwrite (take (Z.to_nat (Z.of_nat (length keys))) rows) (pk_pubkeys new_pubkeys).
Proof.
  intros Hl Hk rows. subst rows. unfold overwrite. rewrite Nat2Z.id, take_app_length. split; [|done].
  cbn [body_wf pk_num pk_pubkeys]. split; [lia|]. split.
  - rewrite length_app, length_drop. cbn [new_pubkeys pk_pubkeys]. rewrite length_replicate. lia.
  - apply Forall_app. split; [done|]. apply Forall_drop. cbn [new_pubkeys pk_pubkeys]. by apply Forall_replicate.
Qed.

Lemma ratification_in_step s height mask n vouts s' : ok s -> 0 < height < 2 ^ 31 -> scripts_ok vouts -> isKMD chainName = true ->
  ratification chainName IS_KOMODO_NOTARY KOMODO_EXTERNAL_NOTARIES verify in_memory s height mask n vouts = Some s' -> ok s'.
Proof.
  intros Hs Hh Hv Hk. destruct (ratified_keys_ok vouts Hv) as [Hl Hf]. destruct (ratified_rows _ Hl Hf) as [Hw Er].
  unfold ratification. destruct (_ || _); [|by intros [= <-]]. intros E. eapply in_step_supdate; [exact Hs|exact Hh| |exact E].
  split_and!; try done. cbn [a_notarypubs a_numnotaries]. split; [by left|by split].
Qed.

Context (GetHash : tx -> list Z) (GetTransaction : list Z -> option tx) (block_GetHash : list Z) (tip_height tip_time : Z).
Context (hashes_wf : (forall t, hash_wf (GetHash t)) /\ hash_wf block_GetHash).

(** The simulated notarisation of the regression test network, which no record is written for. *)
Lemma simulate_in_step height txhash s : ok s -> 0 < height < 2 ^ 31 -> hash_wf txhash ->
  ok (if simulated regtest height
      then on_sp (fun sp => SetLastNotarizedDestTxId (SetLastNotarizedHash (SetLastNotarizedHeight sp height) block_GetHash) txhash) s
      else s).
Proof.
  intros Hs Hh Ht. destruct (simulated regtest height) eqn:E; [|done]. unfold simulated in E. apply andb_true_iff in E as [Er _].
  pose proof Hs as (_ & (H1 & H2 & H3 & H4 & H5 & H6) & _). apply in_step_on_g; [done| |].
  - split; try done. unfold last_recorded. by rewrite Er.
  - cbn. split_and!; try done; [apply hashes_wf|change (sint_wf 32 height); split; lia].
Qed.

Lemma connect_tx_in_step check height keys n rmd i t s l s' l' keys' : ok s -> 0 < height < 2 ^ 31 -> scripts_ok (vout t) ->
  connect_tx chainName IS_KOMODO_NOTARY KOMODO_EXTERNAL_NOTARIES NOTARY_PUBKEY33 verify komodo_heightstamp beyond
    HASH_FIND in_memory IsInitialBlockDownload komodo_getblockindex GetHash GetTransaction block_GetHash tip_time regtest
    check height keys n rmd i t s l = Some (s', l', keys') -> ok s'.
Proof.
  intros Hs Hh Hv. unfold connect_tx. fold (simulated regtest height).
  pose proof (simulate_in_step height (GetHash t) s Hs Hh (proj1 hashes_wf t)) as Hs1.
  set (s1 := if simulated regtest height then _ else s) in *. clearbody s1.
  destruct (outputs_loop _ _ _ _ _ _ _ _ _ _ _ _ _ _ _ _ _ _ _ _) as [a|] eqn:Eo; [|done].
  apply outputs_in_step in Eo; [|done..]. destruct (_ && _ && _ && _) eqn:Ec; [|by intros [= <- _ _]].
  destruct (ratification _ _ _ _ _ _ _ _ _ _) as [s2|] eqn:Er; [|done]. intros [= <- _ _].
  apply andb_true_iff in Ec as [_ Ec]. apply andb_true_iff in Ec as [Ek _]. by eapply ratification_in_step.
Qed.

Lemma connect_txs_in_step check height era n rmd txs : 0 < height < 2 ^ 31 -> Forall (fun t => scripts_ok (vout t)) txs ->
  forall i keys s l s' l', ok s ->
  connect_txs chainName IS_KOMODO_NOTARY KOMODO_EXTERNAL_NOTARIES NOTARY_PUBKEY33 verify
     komodo_heightstamp beyond HASH_FIND in_memory IsInitialBlockDownload komodo_getblockindex
     GetHash GetTransaction block_GetHash tip_time notary_pay regtest check height era keys n rmd i txs s l = Some (s', l') -> ok s'.
Proof.
  intros Hh. induction 1 as [|t txs Ht _ IH]; intros i keys s l s' l' Hs; cbn [connect_txs]; [by intros [= <- _]|].
  destruct (_ || _); [by intros [= <- _]|]. destruct (negb check && _ && _); [by intros [= <- _]|].
  destruct (connect_tx _ _ _ _ _ _ _ _ _ _ _ _ _ _ _ _ _ _ _ _ _ _ _ _ _) as [[[s1 l1] keys1]|] eqn:E; [|done].
  apply IH. by eapply connect_tx_in_step.
Qed.

(** The rewind of a block that is not above the highest one: the events are removed at once, and again
    by the handler of the event that is written. *)
Lemma connect_reorg_in_step check c nHeight nTime c' : ok (c_st c) -> 0 < nHeight < 2 ^ 31 -> uint_wf 32 nTime ->
  connect_reorg chainName IS_KOMODO_NOTARY KOMODO_EXTERNAL_NOTARIES verify in_memory check c nHeight nTime = Some c' -> ok (c_st c').
Proof.
  intros Hs Hh Ht. unfold connect_reorg. destruct (_ >? _); [by intros [= <-]|]. destruct check; [by intros [= <-]|].
  set (s0 := on_g (fun g => komodo_event_rewind chainName g nHeight) (c_st c)).
  destruct (stateupdate _ _ _ _ _ _ _ _) as [s1|] eqn:E; [|done]. intros [= <-]. cbn [c_st].
  apply supdate_open in E; [|apply Hs|lia]. unfold write_and_handle, kmd_args in E. cbn [a_KMDheight a_KMDtimestamp] in E.
  assert (i32 (- nHeight) = - nHeight) as Ei by (apply swrap_small; lia). rewrite Ei in E.
  destruct (Z.eqb_spec (- nHeight) 0); [lia|]. cbn [negb] in E. injection E as <-.
  assert (forall g, komodo_eventadd_kmdheight chainName g nHeight (EventKmdheight (- nHeight) nTime) =
    komodo_event_rewind chainName (with_sp (add_event chainName (sp g) (Event nHeight EVENT_REWIND)) g) nHeight) as Ek.
  { intros g. unfold komodo_eventadd_kmdheight. cbn [k_kheight]. rewrite Z.gtb_ltb. by destruct (Z.ltb_spec 0 (- nHeight)); [lia|]. }
  rewrite Ek.
  assert (last_ok (last (sp (komodo_event_rewind chainName (with_sp (add_event chainName (sp (st_g s0)) (Event nHeight EVENT_REWIND))
    (st_g s0)) nHeight)))) as Hl.
  { pose proof Hs as (_ & Hl & _). subst s0. unfold on_g. cbn [st_g]. unfold komodo_event_rewind. rewrite !rewind_events_kept.
    destruct (_ && _), (_ && _); unfold add_event; by destruct (negb (isKMD chainName)). }
  apply (in_step_log _ _ _ _ last_recorded last_recorded g0 (c_st c) (Event nHeight (EVENT_KMDHEIGHT (EventKmdheight (- nHeight) nTime)))
    _ Hs); [|exact Hl|].
  - split; [|by split]. split; [split; cbn; lia|]. split; [split; cbn; lia|done].
  - intros g Hg. eexists. split; [reflexivity|]. cbn [ev_height]. rewrite Ek. by apply rewind_absorbed.
Qed.

Lemma connectblock_in_step check garbage nHeight nTime vtx c r c' : ok (c_st c) -> didinit (st_g (c_st c)) = true ->
  0 < nHeight < 2 ^ 31 -> uint_wf 32 nTime -> Forall (fun t => scripts_ok (vout t)) vtx ->
  komodo_connectblock chainName IS_KOMODO_NOTARY KOMODO_EXTERNAL_NOTARIES NOTARY_PUBKEY33 verify
     komodo_heightstamp beyond HASH_FIND in_memory IsInitialBlockDownload komodo_getblockindex
     GetHash GetTransaction block_GetHash tip_height tip_time GenesisNotaries notary_pay regtest check garbage nHeight nTime vtx c
    = Some (r, c') -> ok (c_st c').
Proof.
  intros Hs Hd Hh Ht Hv. unfold komodo_connectblock. rewrite init_started by (split; [apply Hs|done]). cbn [returned].
  destruct (Pubkeys (st_g (c_st c))); [|done]. destruct (komodo_notaries _ _ _ _ _ _ _) as [[n keys]|]; [|done].
  destruct (connect_reorg _ _ _ _ _ _ _ _ _) as [c1|] eqn:Er; [|done]. apply connect_reorg_in_step in Er; [|done..].
  set (s2 := on_sp _ (c_st c1)). assert (ok s2) as Hs2 by (apply in_step_on_g; [done|by split|apply Er]). clearbody s2.
  destruct (connect_txs _ _ _ _ _ _ _ _ _ _ _ _ _ _ _ _ _ _ _ _ _ _ _ _ _ _) as [[s3 nots]|] eqn:E; [|done].
  apply connect_txs_in_step in E; [|done..]. destruct (negb check && _); [|by intros [= _ <-]].
  destruct (stateupdate _ _ _ _ _ _ _ _) as [s4|] eqn:Eu; [|done]. intros [= _ <-]. cbn [c_st].
  eapply in_step_supdate; [exact E|exact Hh| |exact Eu]. split_and!; try done. cbn. split; lia.
Qed.
End Block.

(** ** Starting, running, starting again *)

Lemma handle_init chainName NOTARY verify g e g' : handle chainName NOTARY verify g e = Some g' -> didinit g' = didinit g.
Proof.
  unfold handle. destruct (ev_body e) as [b|b|b|b|b|b|]; [intros [= <-]..| |intros [= <-]|intros [= <-]]; try done.
  - unfold komodo_eventadd_notarized. destruct (_ && _); [done|]. by destruct (_ || _).
  - unfold komodo_eventadd_kmdheight, komodo_event_rewind. destruct (_ >? 0); [done|]. by destruct (_ && _).
  - unfold komodo_eventadd_opreturn. destruct (isKMD chainName); [by intros [= <-]|]. destruct (o_opret b); [done|].
    destruct (_ && _); by intros [= <-].
Qed.

Lemma in_step_init chainName NOTARY EXT verify l g0 s : in_step chainName NOTARY EXT verify l g0 s -> didinit (st_g s) = didinit g0.
Proof.
  intros (_ & _ & evs & g & _ & _ & Hr & Hg). rewrite <- (rec_init _ _ _ Hg). clear Hg. revert g0 Hr.
  induction evs as [|e evs IH]; intros g0; cbn [replay]; [by intros [= <-]|].
  destruct (handle _ _ _ g0 e) as [g1|] eqn:E; [|done]. intros H. rewrite (IH _ H). by eapply handle_init.
Qed.

Section Run.
Context (chainName : string) (IS_KOMODO_NOTARY KOMODO_EXTERNAL_NOTARIES : bool).
Context (NOTARY_PUBKEY33 : list Z).
Context (verify : string -> list Z -> Z -> Z -> list Z -> list Z -> Z).
Context (komodo_heightstamp : Z -> Z) (beyond : nat -> Z).
Context (HASH_FIND : list knotary_entry -> list Z -> option knotary_entry).
Context (in_memory : bool).
Context (GenesisNotaries : list (string * string)) (notary_pay regtest : bool).

(** One step of a run: a block is connected or checked, whatever the rest of the node answers about the
    chain at that moment; or variables change that are not recorded (the current height, the blocks
    this node mined, the position cached by a search). *)
Inductive run_step : cstate -> cstate -> Prop :=
| step_block IsInitialBlockDownload komodo_getblockindex GetHash GetTransaction block_GetHash tip_height tip_time
    check garbage nHeight nTime vtx c r c' :
    (forall t, hash_wf (GetHash t)) -> hash_wf block_GetHash ->
    0 < nHeight < 2 ^ 31 -> uint_wf 32 nTime -> Forall (fun t => scripts_ok (vout t)) vtx ->
    komodo_connectblock chainName IS_KOMODO_NOTARY KOMODO_EXTERNAL_NOTARIES NOTARY_PUBKEY33 verify
      komodo_heightstamp beyond HASH_FIND in_memory IsInitialBlockDownload komodo_getblockindex
      GetHash GetTransaction block_GetHash tip_height tip_time GenesisNotaries notary_pay regtest check garbage nHeight nTime vtx c
      = Some (r, c') -> run_step c c'
| step_unrecorded c g : recorded true (st_g (c_st c)) g ->
    run_step c (CState (State g (st_file (c_st c)) (fp (c_st c))) (c_hwmheight c)).

Abbreviation lrec := (last_recorded IS_KOMODO_NOTARY regtest).
Abbreviation ok := (in_step chainName IS_KOMODO_NOTARY KOMODO_EXTERNAL_NOTARIES verify lrec).

Lemma run_in_step g0 c c' : rtc run_step c c' -> didinit g0 = true -> ok g0 (c_st c) -> ok g0 (c_st c').
Proof.
  intros Hrun Hi. induction Hrun as [|c c1 c2 Hstep _ IH]; [done|]. intros Hs. apply IH. clear IH c2.
  destruct Hstep as [ibd gbi gh gt bh th tt check garbage nHeight nTime vtx c r c' H1 H2 Hh Ht Hv E | c g Hg].
  - eapply connectblock_in_step; [by split|exact Hs| |exact Hh|exact Ht|exact Hv|exact E].
    by rewrite (in_step_init _ _ _ _ _ _ _ Hs).
  - apply (in_step_on_g _ _ _ _ _ _ (fun _ => g)); [done| |].
    + destruct Hg. split; auto.
    + rewrite <- (rec_last _ _ _ Hg eq_refl). apply Hs.
Qed.

Abbreviation init mem := (komodo_init chainName IS_KOMODO_NOTARY KOMODO_EXTERNAL_NOTARIES verify mem beyond GenesisNotaries).

(** The variables once the genesis notaries are in place, before the file is opened. *)
Definition started_globals : globals :=
  let keys := genesis_keys beyond GenesisNotaries in
  with_didinit true (with_table (komodo_notarysinit (Pubkeys new_globals) (hwmheight new_globals) 0 keys
                                   (Z.of_nat (length keys))) new_globals).

Lemma init_fresh mem h file : 0 <= h -> init mem (State new_globals file Null_stream) h =
  match file with
  | None => Updated (State started_globals (Some []) Open_stream)
  | Some data =>
      match load_file chainName IS_KOMODO_NOTARY KOMODO_EXTERNAL_NOTARIES verify mem started_globals data with
      | Loaded g => Updated (State g (Some data) Open_stream)
      | Shutdown g => Stopped (State g (Some data) Closed_stream)
      | Crashed | Out_of_fuel => Crash
      end
  end.
Proof.
  intros Hh. unfold komodo_init. cbn [st_g didinit new_globals negb]. rewrite Z.geb_leb. destruct (Z.leb_spec 0 h); [|lia].
  unfold komodo_stateupdate, open_file. cbn [fp st_file st_g]. fold started_globals.
  destruct file as [data|]; [|done]. by destruct (load_file _ _ _ _ _ _ _).
Qed.

(** [C14] Restarting rebuilds what the run had.  A node starts without a state file, runs, connecting and
    checking blocks above height 0 through any reorganisations, and is started again with the file the run has left,
    which is loaded from memory.  It starts, on the same file, and then has the events, the
    checkpoints, the saved height and its time, the table of notaries and, in order, the calls of
    [komodo_kvupdate] of the run; the
    last notarisation, too, outside the regression test network and unless the node is a notary that
    asks another daemon about each notarisation.  The current height, the blocks the node mined last
    and the position cached by searches are not in the file. *)
Theorem restart_replays_the_run mem h h' s0 hwm c : 0 <= h -> 0 <= h' ->
  init mem (State new_globals None Null_stream) h = Updated s0 -> rtc run_step (CState s0 hwm) c ->
  exists s, init true (State new_globals (st_file (c_st c)) Null_stream) h' = Updated s /\
    st_file s = st_file (c_st c) /\ st_open s = true /\ recorded lrec (st_g s) (st_g (c_st c)).
Proof.
  intros Hh Hh' E Hrun. rewrite init_fresh in E by done. injection E as <-.
  apply (run_in_step started_globals) in Hrun as (_ & _ & evs & g & He & Hf & Hr & Hg); [|done|].
  - rewrite init_fresh, Hf by done. rewrite (load_replays _ _ _ _ _ _ _ He Hr). by eexists.
  - split; [done|]. split; [|by exists [], started_globals].
    split_and!; try apply zero256_wf; try done. by left.
Qed.
End Run.

(** ** A run of one block: the notarised block of [Notarisation] *)

Definition run_start : state :=
  State (started_globals (fun _ => 0) []) (Some []) Open_stream.

Definition run_block : option (Z * cstate) :=
  komodo_connectblock "" false false [] (fun _ _ _ _ _ _ => 0) (fun _ => 0) (fun _ => 0) (fun _ _ => None) true
    false (fun h => if bool_decide (h = replicate 32 7) then Some 3999990 else None)
    (fun _ => replicate 32 5) (fun _ => Some sample_notary_tx) (replicate 32 6) 3999999 1700000000 [] false
    false false [] 4000000 1700000000 [sample_coinbase; sample_notarisation] (CState run_start 3999999).

Lemma bytes_ok_b l : forallb (fun x => (0 <=? x) && (x <? 256)) l = true -> bytes_ok l.
Proof.
  intros Hf. apply List.Forall_forall. intros x Hx. rewrite List.forallb_forall in Hf. apply Hf in Hx. unfold is_byte. lia.
Qed.

Lemma scripts_ok_b vtx : forallb (fun t => forallb (fun o => forallb (fun x => (0 <=? x) && (x <? 256)) (scriptPubKey o)) (vout t)) vtx = true ->
  Forall (fun t => scripts_ok (vout t)) vtx.
Proof.
  intros H. apply List.Forall_forall. intros t Ht. rewrite List.forallb_forall in H. apply H in Ht. apply List.Forall_forall.
  intros o Ho. rewrite List.forallb_forall in Ht. by apply bytes_ok_b, Ht.
Qed.

Lemma restart_replays_the_run_witness : exists c s, run_block = Some (0, c) /\ length (points (c_st c)) = 1%nat /\
  komodo_init "" false false (fun _ _ _ _ _ _ => 0) true (fun _ => 0) [] (State new_globals (st_file (c_st c)) Null_stream) 1
    = Updated s /\ recorded true (st_g s) (st_g (c_st c)).
Proof.
  destruct run_block as [[r c]|] eqn:E; [|vm_compute in E; discriminate].
  assert (option_map (fun x => (fst x, length (points (c_st (snd x))))) run_block = Some (0, 1%nat)) as H by (vm_compute; reflexivity).
  rewrite E in H. cbn [option_map fst snd] in H. injection H as Hr Hp. subst r.
  destruct (restart_replays_the_run "" false false [] (fun _ _ _ _ _ _ => 0) (fun _ => 0) (fun _ => 0) (fun _ _ => None) true [] false false
    true 0 1 run_start 3999999 c) as (s & Es & _ & _ & Hrec); [lia|lia|reflexivity| |].
  - apply rtc_once. eapply step_block; [| | | | |exact E].
    + intros t. split; [reflexivity|]. by apply bytes_ok_b.
    + split; [reflexivity|]. by apply bytes_ok_b.
    + lia.
    + by split.
    + by apply scripts_ok_b.
  - exists c, s. split; [reflexivity|]. split; [exact Hp|]. split; [exact Es|exact Hrec].
Defined.
