(* ===== verification/Pow.v ===== *)
(** * Pow: the difficulty of the next block
    [src/src/pow.cpp]: [CalculateNextWorkRequired], [GetNextWorkRequired] with the adaptive
    difficulty of asset chains (the functions [RT_CST_RST_*] and [zawy_*]) and
    [GetBlockProofEquivalentTime]; the parameters of [consensus/params.h].  Signed arithmetic is
    checked: [None] is an [int] or [int64_t] expression that leaves its range, a division by
    zero, a dereference of NULL or an exception of [arith_uint256]. *)
From stdpp Require Import gmap.
From S2P Require Import Prelude Endian Uint256 ArithUint256 Chain.

(** ** Checked arithmetic *)

Definition as_int (z : Z) : option Z := if (INT32_MIN <=? z) && (z <=? INT32_MAX) then Some z else None.
Definition as_int64 (z : Z) : option Z := if (INT64_MIN <=? z) && (z <=? INT64_MAX) then Some z else None.
(** Division of signed integers, which truncates. *)
Definition quot_ (a b : Z) : option Z := if b =? 0 then None else Some (Z.quot a b).

(** [arith_uint256(b)] of a signed [b]. *)
Definition arith (b : Z) : uint := base_uint_of (u64 b).

(** ** Parameters *)

Record pow_params := PowParams {
  powLimit : list Z; powAlternate : list Z;
  nPowAveragingWindow : Z; nPowMaxAdjustDown : Z; nPowMaxAdjustUp : Z; nPowTargetSpacing : Z;
  ASSETCHAINS_ADAPTIVEPOW : Z; ASSETCHAINS_BLOCKTIME : Z; equihash : bool
}.

Definition AveragingWindowTimespan (P : pow_params) : Z := nPowAveragingWindow P * nPowTargetSpacing P.
Definition MinActualTimespan (P : pow_params) : Z :=
  Z.quot (AveragingWindowTimespan P * (100 - nPowMaxAdjustUp P)) 100.
Definition MaxActualTimespan (P : pow_params) : Z :=
  Z.quot (AveragingWindowTimespan P * (100 + nPowMaxAdjustDown P)) 100.

Definition bnLimit (P : pow_params) : uint :=
  UintToArith256 (if equihash P then powLimit P else powAlternate P).

(** ** [CalculateNextWorkRequired] *)

Definition actual_timespan (P : pow_params) (nLastBlockTime nFirstBlockTime : Z) : Z :=
  let n := nLastBlockTime - nFirstBlockTime in
  let n := AveragingWindowTimespan P + Z.quot (n - AveragingWindowTimespan P) 4 in
  if ASSETCHAINS_ADAPTIVEPOW P <=? 0 then
    let n := if n <? MinActualTimespan P then MinActualTimespan P else n in
    if n >? MaxActualTimespan P then MaxActualTimespan P else n
  else n.

(** [bnNew *= nActualTimespan] is the multiplication by a [uint32_t]. *)
Definition CalculateNextWorkRequired (P : pow_params) (bnAvg : uint) (nLastBlockTime nFirstBlockTime : Z)
    : option Z :=
  bnNew ← div_assign bnAvg (arith (AveragingWindowTimespan P));
  let bnNew := mul32_assign bnNew (u32 (actual_timespan P nLastBlockTime nFirstBlockTime)) in
  GetCompact (if ugt bnNew (bnLimit P) then bnLimit P else bnNew).

(** ** Adaptive difficulty *)

Definition K : Z := 1000000.

Section Zawy.
(** [T] is [ASSETCHAINS_BLOCKTIME]. *)
Context (T : Z).

Definition ts_at (ts : list Z) (i : nat) : Z := nth i ts 0.
Definition ct_at (ct : list uint) (i : nat) : uint := nth i ct base_uint_zero.

Definition RT_CST_RST_outer (nTime : Z) (bnTarget : uint) (ts : list Z) (ct : list uint)
    (numerator denominator : Z) (W : nat) : option uint :=
  mintarget ← div_assign bnTarget (arith 2);
  tn ← as_int (T * numerator);
  cmpval ← quot_ tn denominator;
  let cmpval := if cmpval <? 2 then 2 else cmpval in
  let span := u32 (ts_at ts 0 - ts_at ts W) in
  if span <? u32 cmpval then
    p ← as_int64 (K * u32 (nTime - ts_at ts 0) * span);
    p ← as_int64 (p * denominator);
    tt ← as_int (T * T);
    nt ← as_int (numerator * tt);
    outerK ← quot_ p nt;
    bnTarget ← (if outerK <? K
                then q ← div_assign (ct_at ct 0) (arith K); Some (mul_assign q (arith outerK))
                else Some bnTarget);
    Some (if ugt bnTarget mintarget then mintarget else bnTarget)
  else Some bnTarget.

Definition RT_CST_RST_target (nTime : Z) (ts : list Z) (ct : list uint) (width : nat) : option uint :=
  let sum := fold_left (fun b i => add_assign b (ct_at ct i)) (seq 1 (width - 1)) (ct_at ct 0) in
  q ← div_assign sum (arith (Z.of_nat width * K));
  p ← as_int64 (K * u32 (nTime - ts_at ts 0));
  p ← as_int64 (p * u32 (ts_at ts 0 - ts_at ts width));
  wt ← as_int (Z.of_nat width * T);
  wtt ← as_int (wt * T);
  innerK ← quot_ p wtt;
  Some (mul_assign q (arith innerK)).

Definition RT_CST_RST_inner (nTime : Z) (bnTarget : uint) (ts : list Z) (ct : list uint) (W outeri : nat)
    : option uint :=
  let width := (outeri + W)%nat in
  expected ← as_int ((Z.of_nat width + 1) * T);
  let elapsed := i32 (ts_at ts 0 - ts_at ts width) in
  if elapsed <? expected then
    q ← div_assign bnTarget (arith 101);
    let mintarget := mul_assign q (arith 100) in
    t ← RT_CST_RST_target nTime ts ct W;
    Some (if ueq t bnTarget then mintarget else t)
  else Some bnTarget.

Definition zawy_targetMA (easy bnSum : uint) (num numerator divisor : Z) : option uint :=
  d ← as_int (T * num); d ← as_int (d * num); d ← as_int (d * divisor);
  q ← div_assign bnSum (arith d);
  let bnSum := mul_assign q (arith numerator) in
  Some (if ugt bnSum easy then easy else bnSum).

(** The loop [A *= 3], [n] times. *)
Fixpoint triple (n : nat) (A : Z) : option Z :=
  match n with O => Some A | S n' => A' ← as_int64 (A * 3); triple n' A' end.

Definition zawy_exponential_val360000 (num : Z) : option Z :=
  n ← quot_ num T;
  A ← (if n >? 0 then triple (Z.to_nat n) 1 else Some 1);
  let modval := Z.rem num T in
  B ← (if negb (modval =? 0) then
         a ← as_int (3600 * 110 * modval);
         b ← as_int (3600 * 60 * modval);
         b ← as_int (b * modval);
         tt ← as_int (T * T);
         qa ← quot_ a T; qb ← quot_ b tt;
         Some (3600 * 100 + qa + qb)
       else Some (3600 * 100));
  as_int64 (A * B).

Definition zawy_exponential (bnTarget : uint) (mult : Z) : option uint :=
  q ← div_assign bnTarget (arith (100 * 3600));
  v ← zawy_exponential_val360000 mult;
  Some (mul_assign q (arith v)).

Definition zawy_ctB (bnTarget : uint) (solvetime : Z) : option uint :=
  p ← as_int64 (1000 * solvetime * solvetime);
  p ← as_int64 (p * 1000);
  tt ← as_int (T * T);
  d ← as_int (tt * 784);
  num ← quot_ p d;
  if num >? 1 then q ← div_assign bnTarget (arith 1000); Some (mul_assign q (arith num))
  else Some bnTarget.

Definition zawy_TSA_EMA (tipdiff : Z) (prevTarget : uint) : option uint :=
  let tipdiff := if tipdiff <? 4 then 4 else tipdiff in
  let tipdiff := Z.land tipdiff (Z.lnot 1) in
  b ← div_assign prevTarget (arith (K * T));
  v ← zawy_exponential_val360000 (Z.quot tipdiff 2);
  q ← div_assign b (arith 360000);
  tv ← as_int64 (tipdiff * v);
  Tv ← as_int64 (T * v);
  let A := mul_assign b (arith T) in
  let B := mul_assign q (arith tv) in
  let C := mul_assign q (arith Tv) in
  r ← div_assign (sub_assign (add_assign A B) C) (arith tipdiff);
  Some (mul_assign r (arith (K * T))).
End Zawy.

(** ** [GetNextWorkRequired] *)

(** The block at [p] and its ancestors, at most [n] of them, and the pointer after them. *)
Fixpoint walk_back (n : nat) (I : BlockIndex) (p : option ptr) : option (list CBlockIndex * option ptr) :=
  match n, p with
  | S n', Some q =>
      b ← blocks I !! q;
      '(l, rest) ← walk_back n' I (pprev b);
      Some (b :: l, rest)
  | _, _ => Some ([], p)
  end.

(** The arrays [ts], [ct] and [zflags] of 64 entries, and [tipdiff] and [mult]. *)
Record zawy_state := ZawyState {
  z_ts : list Z; z_ct : list uint; z_zflags : list Z; z_tipdiff : Z; z_mult : Z
}.

Definition zawy_zero : zawy_state :=
  ZawyState (replicate 64 0) (replicate 64 base_uint_zero) (replicate 64 0) 0 0.

(** An entry of [ct] that took long under a raised difficulty. *)
Fixpoint stretch (T : Z) (ts : list Z) (ct : list uint) (zflags : list Z) : option (list uint) :=
  match ts, ct, zflags with
  | t0 :: ((t1 :: _) as ts'), c :: ct', z :: zs =>
      c' ← (if (z =? 1) || (z =? 2) then zawy_ctB T c (u32 (t0 - t1)) else Some c);
      rest ← stretch T ts' ct' zs;
      Some (c' :: rest)
  | _, ct, _ => Some ct
  end.

Definition zawy_fill (I : BlockIndex) (P : pow_params) (pl : ptr) (nTime : Z) : option zawy_state :=
  b ← blocks I !! pl;
  let T := ASSETCHAINS_BLOCKTIME P in
  let tipdiff := i32 (nTime - bi_nTime b) in
  T7 ← as_int (7 * T);
  mult ← as_int (tipdiff - T7);
  '(l, rest) ← walk_back 64 I (Some pl);
  let pad {A} (d : A) (x : list A) := x ++ replicate (64 - length x) d in
  let ts := pad 0 (map bi_nTime l) in
  let ct := pad base_uint_zero (map (fun b => cr_value (SetCompact (bi_nBits b))) l) in
  let zflags := pad 0 (map (fun b => Z.land (bi_nBits b) 3) l) in
  ct ← (match rest with Some _ => stretch T ts ct zflags | None => Some ct end);
  Some (ZawyState ts ct zflags tipdiff mult).

(** The loop over the averaging window: [bnTot] and [mult]. *)
Fixpoint average_loop (P : pow_params) (zflags : list Z) (nTime : option Z) (i : nat) (l : list CBlockIndex)
    (mult : Z) (bnTot : uint) : option (uint * Z) :=
  match l with
  | [] => Some (bnTot, mult)
  | b :: l' =>
      let bnTmp := cr_value (SetCompact (bi_nBits b)) in
      match nTime with
      | Some nTime =>
          if ASSETCHAINS_ADAPTIVEPOW P >? 0 then
            let diff := i32 (nTime - bi_nTime b) in
            mult ← (if (i <? 6)%nat then
                      d ← as_int ((8 + Z.of_nat i) * ASSETCHAINS_BLOCKTIME P);
                      diff ← as_int (diff - d);
                      Some (if diff >? mult then diff else mult)
                    else Some mult);
            bnTmp ← (if negb (nth i zflags 0 =? 0) && (nth 0 zflags 0 =? 0)
                     then q ← div_assign bnTmp (arith 8); Some (mul_assign q (arith 7))
                     else Some bnTmp);
            average_loop P zflags (Some nTime) (S i) l' mult (add_assign bnTot bnTmp)
          else average_loop P zflags (Some nTime) (S i) l' mult (add_assign bnTot bnTmp)
      | None => average_loop P zflags None (S i) l' mult (add_assign bnTot bnTmp)
      end
  end.

(** The attempts with the outer triggers: the first one that lowers the target. *)
Fixpoint outer_attempts (T nTime : Z) (zs : zawy_state) (origtarget : uint) (params : list (Z * Z * nat))
    : option (uint * Z) :=
  match params with
  | [] => Some (origtarget, 0)
  | (numerator, denominator, W) :: rest =>
      t ← RT_CST_RST_outer T nTime origtarget (z_ts zs) (z_ct zs) numerator denominator W;
      if ult t origtarget then Some (t, 2)
      else match rest with
           | [] => Some (t, 0)
           | _ => outer_attempts T nTime zs origtarget rest
           end
  end.

(** The parameters of the outer triggers: the first one depends on the block time, and there is
    none below a minute. *)
Definition outer_params (T : Z) : list (Z * Z * nat) :=
  (if (T >=? 60) && (T <? 100) then [(1, 60, 1%nat)] else if T >=? 100 then [(1, 100, 1%nat)] else [])
  ++ [(15, 100, 2%nat); (1, 2, 3%nat); (7, 3, 6%nat); (12, 7, 12%nat)].

(** The index of the last block with the flag 2, among 50. *)
Fixpoint flag2_index (zflags : list Z) : nat :=
  match zflags with
  | [] => 0
  | z :: rest => if z =? 2 then 0 else S (flag2_index rest)
  end.

(** The attempts with the inner trigger: the width, and the bound on the index. *)
Definition inner_attempts (T nTime : Z) (zs : zawy_state) (origtarget : uint) : option (uint * Z) :=
  let i := flag2_index (take 50 (z_zflags zs)) in
  let inner t W := RT_CST_RST_inner T nTime t (z_ts zs) (z_ct zs) W i in
  let lower (o : option uint) '(bound, W) :=
    t ← o;
    if (i <? bound)%nat then t' ← inner t W; Some (if ult t' t then t' else t) else Some t in
  t ← (if (i <? 10)%nat then t ← inner origtarget 1%nat; Some (if ugt t origtarget then origtarget else t)
       else Some origtarget);
  t ← fold_left lower [(20, 2); (30, 3); (40, 6); (50, 12)]%nat (Some t);
  Some (t, if negb (ueq t origtarget) then 1 else 0).

Definition KOMODO_MINDIFF_NBITS : Z := 0x200f0f0f.

(** The adaptive part: the target and the flag, or the minimum difficulty at once. *)
Definition zawy_adjust (P : pow_params) (height nTime : Z) (zs : zawy_state) (mult : Z) (bnTarget : uint)
    : option (uint * Z + Z) :=
  let T := ASSETCHAINS_BLOCKTIME P in
  if (height >? 64) && (z_tipdiff zs >? 0) then
    let easy := cr_value (SetCompact (Z.land KOMODO_MINDIFF_NBITS (Z.lnot 3))) in
    let z0 := nth 0 (z_zflags zs) 0 in
    '(bnTarget, zawyflag) ← (if (z0 =? 0) || (z0 =? 3)
                             then outer_attempts T nTime zs bnTarget (outer_params T)
                             else inner_attempts T nTime zs bnTarget);
    if mult >? 1 then
      t ← zawy_exponential T bnTarget mult;
      if ult t bnTarget || ugt t easy then Some (inr (Z.land KOMODO_MINDIFF_NBITS (Z.lnot 3)))
      else Some (inl (t, zawyflag))
    else Some (inl (bnTarget, zawyflag))
  else Some (inl (bnTarget, 0)).

(** [nbits & 0xfffffffc | zawyflag] *)
Definition with_flag (nbits zawyflag : Z) : Z := Z.lor (Z.land nbits 0xfffffffc) zawyflag.

(** [pblock] is the time of the block being made, when there is one. *)
Definition GetNextWorkRequired (I : BlockIndex) (P : pow_params) (pindexLast : option ptr) (pblock : option Z)
    : option Z :=
  nProofOfWorkLimit ← GetCompact (bnLimit P);
  match pindexLast with
  | None => Some nProofOfWorkLimit
  | Some pl =>
    b ← blocks I !! pl;
    let height := nHeight b + 1 in
    let adaptive := ASSETCHAINS_ADAPTIVEPOW P >? 0 in
    zs ← (match pblock with
          | Some nTime => if adaptive && (height >=? 64) then zawy_fill I P pl nTime else Some zawy_zero
          | None => Some zawy_zero
          end);
    if adaptive && (height >=? 64) && bool_decide (is_Some pblock) && (ASSETCHAINS_ADAPTIVEPOW P =? 2) then
      t ← zawy_TSA_EMA (ASSETCHAINS_BLOCKTIME P) (z_tipdiff zs) (ct_at (z_ct zs) 0);
      nbits ← GetCompact t;
      Some (with_flag nbits 0)
    else
      '(l, pindexFirst) ← walk_back (Z.to_nat (nPowAveragingWindow P)) I (Some pl);
      '(bnTot, mult) ← average_loop P (z_zflags zs) pblock 0 l (z_mult zs) base_uint_zero;
      match pindexFirst with
      | None => Some nProofOfWorkLimit
      | Some pf =>
        bnAvg ← div_assign bnTot (arith (nPowAveragingWindow P));
        last ← GetMedianTimePast I pl;
        first ← GetMedianTimePast I pf;
        nbits ← CalculateNextWorkRequired P bnAvg last first;
        if adaptive then
          let bnTarget := cr_value (SetCompact nbits) in
          r ← (match pblock with
               | Some nTime => zawy_adjust P height nTime zs mult bnTarget
               | None => Some (inl (bnTarget, 0))
               end);
          match r with
          | inr nbits => Some nbits
          | inl (bnTarget, zawyflag) => nbits ← GetCompact bnTarget; Some (with_flag nbits zawyflag)
          end
        else Some nbits
      end
  end.

(** ** [GetBlockProofEquivalentTime] *)

Definition GetBlockProofEquivalentTime (P : pow_params) (to from tip : CBlockIndex) : option Z :=
  let later := ugt (nChainWork to) (nChainWork from) in
  let r := if later then sub_assign (nChainWork to) (nChainWork from)
           else sub_assign (nChainWork from) (nChainWork to) in
  let sign := if later then 1 else -1 in
  proof ← GetBlockProof (bi_nBits tip);
  r ← div_assign (mul_assign r (arith (nPowTargetSpacing P))) proof;
  if bits r >? 63 then Some (sign * INT64_MAX) else Some (i64 (u64 sign * GetLow64 r)).

(** ** Retargeting *)

(** The parameters are sane: the limits are numbers of 32 bytes, the window and the spacing are
    positive, and the limit leaves room for the sum of a window and for its adjustment (the
    assertion of [chainparams.cpp] on [powLimit], with the adjustments in percent below it). *)
Record pow_ok (P : pow_params) : Prop := {
  po_limit : bytes_ok (powLimit P); po_alternate : bytes_ok (powAlternate P);
  po_window : 0 < nPowAveragingWindow P; po_spacing : 0 < nPowTargetSpacing P;
  po_up : 0 <= nPowMaxAdjustUp P <= 100; po_down : 0 <= nPowMaxAdjustDown P;
  po_down_window : 100 + nPowMaxAdjustDown P <= 100 * nPowAveragingWindow P;
  po_timespan : MaxActualTimespan P < 2 ^ 32;
  po_room : val (bnLimit P) * nPowAveragingWindow P < 2 ^ 256
}.

Lemma bnLimit_ok P : pow_ok P -> uint_ok (bnLimit P).
Proof. intros H. unfold bnLimit. apply UintToArith256_ok. destruct (equihash P); apply H. Qed.

Lemma timespan_bounds P last first : pow_ok P -> ASSETCHAINS_ADAPTIVEPOW P <= 0 ->
  0 < AveragingWindowTimespan P < 2 ^ 32 /\ 0 <= MinActualTimespan P <= MaxActualTimespan P /\
  MinActualTimespan P <= actual_timespan P last first <= MaxActualTimespan P /\
  100 * MaxActualTimespan P <= AveragingWindowTimespan P * (100 + nPowMaxAdjustDown P).
Proof.
  intros H Ha. destruct H. unfold MinActualTimespan, MaxActualTimespan, AveragingWindowTimespan in *.
  set (A := nPowAveragingWindow P * nPowTargetSpacing P) in *.
  assert (0 < A) by (unfold A; nia).
  rewrite !Z.quot_div_nonneg in * by nia.
  assert (A <= A * (100 + nPowMaxAdjustDown P) / 100) by (apply Z.div_le_lower_bound; nia).
  assert (A * (100 - nPowMaxAdjustUp P) / 100 <= A * (100 + nPowMaxAdjustDown P) / 100) by (apply Z.div_le_mono; nia).
  assert (0 <= A * (100 - nPowMaxAdjustUp P) / 100) by (apply Z.div_pos; nia).
  pose proof (Z.mul_div_le (A * (100 + nPowMaxAdjustDown P)) 100 ltac:(lia)).
  unfold actual_timespan, MinActualTimespan, MaxActualTimespan, AveragingWindowTimespan. fold A.
  rewrite !(Z.quot_div_nonneg _ 100) by nia. destruct (Z.leb_spec (ASSETCHAINS_ADAPTIVEPOW P) 0); [|lia].
  rewrite Z.gtb_ltb. split_and!; try lia; repeat case_Z; lia.
Qed.

(** The target of the next block before it is rounded: the average over the window times the
    dampened and clamped time it took, over the time it should take, up to the limit. *)
Definition retarget (P : pow_params) (avg last first : Z) : Z :=
  Z.min (val (bnLimit P)) (avg / AveragingWindowTimespan P * actual_timespan P last first).

Lemma arith_val b : 0 <= b < 2 ^ 64 -> val (arith b) = b.
Proof. intros H. unfold arith. rewrite uwrap_small by lia. by apply val_base_uint_of. Qed.

Lemma CalculateNextWorkRequired_spec P bnAvg last first :
  pow_ok P -> ASSETCHAINS_ADAPTIVEPOW P <= 0 -> uint_ok bnAvg -> val bnAvg <= val (bnLimit P) ->
  exists r, CalculateNextWorkRequired P bnAvg last first = GetCompact r /\ uint_ok r /\
    val r = retarget P (val bnAvg) last first.
Proof.
  intros HP Ha Hok Hle. pose proof (bnLimit_ok P HP) as Hl. pose proof (val_bound bnAvg Hok).
  destruct (timespan_bounds P last first HP Ha) as (HA & Hmm & Ht & Hmax).
  unfold CalculateNextWorkRequired, retarget.
  set (A := AveragingWindowTimespan P) in *. set (n := actual_timespan P last first) in *.
  assert (val (arith A) = A) as EA by (apply arith_val; lia).
  destruct (div_assign_spec bnAvg (arith A) Hok (base_uint_of_ok _) ltac:(lia)) as (q & -> & Hq & Eq).
  cbn [mbind option_bind]. rewrite EA in Eq.
  assert (0 <= n < 2 ^ 32) by (pose proof (po_timespan P HP); lia).
  rewrite (uwrap_small 32) by lia.
  pose proof (mul32_assign_ok q n Hq) as Hm. pose proof (mul32_assign_val q n Hq ltac:(lia)) as Em.
  rewrite ugt_spec, Em, Eq by done.
  assert (val bnAvg / A * n < 2 ^ 256) as Hfit.
  { pose proof (Z.mul_div_le (val bnAvg) A ltac:(lia)). assert (0 <= val bnAvg / A) by (apply Z.div_pos; lia).
    set (q0 := val bnAvg / A) in *. set (d := 100 + nPowMaxAdjustDown P) in *.
    assert (100 * (q0 * n) <= val bnAvg * d).
    { transitivity (q0 * (100 * MaxActualTimespan P));
        [replace (100 * (q0 * n)) with (q0 * (100 * n)) by ring; apply Z.mul_le_mono_nonneg_l; lia|]. transitivity (q0 * (A * d)); [by apply Z.mul_le_mono_nonneg_l|].
      pose proof (po_down P HP). unfold d. nia. }
    pose proof (po_room P HP). pose proof (po_down_window P HP) as Hdw. fold d in Hdw.
    assert (val bnAvg * d <= val (bnLimit P) * (100 * nPowAveragingWindow P))
      by (pose proof (po_down P HP); apply Z.mul_le_mono_nonneg; unfold d in *; lia). lia. }
  assert (0 <= val bnAvg / A * n) by (apply Z.mul_nonneg_nonneg; [apply Z.div_pos; lia|lia]).
  rewrite Z.mod_small by lia.
  destruct (Z.ltb_spec (val (bnLimit P)) (val bnAvg / A * n)).
  - exists (bnLimit P). split; [done|]. split; [done|]. lia.
  - exists (mul32_assign q n). split; [done|]. split; [done|]. rewrite Em, Eq, Z.mod_small by lia. lia.
Qed.

(** ** The averaging window *)

Section Window.
Context (I : BlockIndex) (Hok : tree_ok (blocks I)).

Lemma walk_back_spec n : forall p b, blocks I !! p = Some b ->
  exists l rest, walk_back n I (Some p) = Some (l, rest) /\
    Z.of_nat (length l) = Z.min (Z.of_nat n) (nHeight b + 1) /\
    (forall k, (k < length l)%nat -> exists q bq, up (blocks I) k p = Some q /\ blocks I !! q = Some bq /\
       l !! k = Some bq) /\
    rest = up (blocks I) n p.
Proof.
  induction n as [|n IH]; intros p b Hb.
  - exists [], (Some p). pose proof (height_range _ Hok p b Hb). cbn. split_and!; [done|lia|intros k Hk; lia|done].
  - cbn [walk_back up]. rewrite Hb. cbn [mbind option_bind].
    pose proof (Hok p b Hb) as Hn. unfold node_ok in Hn. destruct (pprev b) as [q|] eqn:Ep.
    + destruct Hn as (bq & Hq & _ & Hh & _). destruct (IH q bq Hq) as (l & rest & -> & Hl & Hup & ->).
      cbn. exists (b :: l), (up (blocks I) n q). split; [done|]. split; [cbn [length]; lia|]. split; [|done].
      intros [|k] Hk; [by exists p, b|]. cbn [length] in Hk. destruct (Hup k ltac:(lia)) as (r & br & H1 & H2 & H3).
      exists r, br. cbn [up]. rewrite Hb, Ep. done.
    + destruct Hn as [H0 _]. assert (walk_back n I None = Some ([], None)) as -> by (by destruct n). cbn.
      exists [b], None. split; [done|]. split; [cbn [length]; lia|]. split; [|done].
      intros [|k] Hk; [by exists p, b|]. cbn in Hk. lia.
Qed.
End Window.

(** Targets of a list of blocks, and their sum. *)
Definition target_of (b : CBlockIndex) : Z := val (cr_value (SetCompact (bi_nBits b))).
Definition sum_targets (l : list CBlockIndex) : Z := foldr (fun b s => target_of b + s) 0 l.

Lemma SetCompact_ok c : 0 <= c < 2 ^ 32 -> uint_ok (cr_value (SetCompact c)).
Proof. intros Hc. by destruct (SetCompact_fields c Hc). Qed.

Lemma sum_targets_bound l m : Forall (fun b => 0 <= target_of b <= m) l ->
  0 <= sum_targets l <= Z.of_nat (length l) * m.
Proof.
  induction 1 as [|b l' Hb _ IH]; [cbn; lia|].
  change (sum_targets (b :: l')) with (target_of b + sum_targets l'). cbn [length]. lia.
Qed.

(** Without adaptive difficulty the loop adds the targets. *)
Lemma average_loop_sum P zflags nTime l : ASSETCHAINS_ADAPTIVEPOW P <= 0 ->
  Forall (fun b => 0 <= bi_nBits b < 2 ^ 32) l ->
  forall i mult tot, uint_ok tot -> val tot + sum_targets l < 2 ^ 256 ->
  exists tot', average_loop P zflags nTime i l mult tot = Some (tot', mult) /\ uint_ok tot' /\
    val tot' = val tot + sum_targets l.
Proof.
  intros Ha. induction l as [|b l IH]; intros Hl i mult tot Htot Hs; cbn [average_loop].
  { exists tot. cbn. split_and!; [done|done|lia]. }
  apply list.Forall_cons in Hl as [Hb Hl]. change (sum_targets (b :: l)) with (target_of b + sum_targets l) in *.
  pose proof (SetCompact_ok _ Hb) as Hc. pose proof (val_bound _ Hc). pose proof (val_bound _ Htot).
  assert (0 <= sum_targets l) as Hsl.
  { apply (sum_targets_bound l (2 ^ 256)). eapply list.Forall_impl; [exact Hl|]. intros x Hx. cbn beta in Hx.
    pose proof (val_bound _ (SetCompact_ok _ Hx)). unfold target_of. lia. }
  pose proof (add_assign_val tot (cr_value (SetCompact (bi_nBits b))) Htot Hc) as Ev.
  rewrite Z.mod_small in Ev by (unfold target_of in Hs; lia).
  destruct (IH Hl (S i) mult (add_assign tot (cr_value (SetCompact (bi_nBits b))))) as (tot' & Ht & Hok & Hv);
    [by apply add_assign_ok|rewrite Ev; unfold target_of in Hs; lia|].
  assert ((ASSETCHAINS_ADAPTIVEPOW P >? 0) = false) as Ea by (rewrite Z.gtb_ltb; apply Z.ltb_ge; lia).
  exists tot'. rewrite Ea. split; [by destruct nTime|]. split; [done|].
  rewrite Hv, Ev. unfold target_of. lia.
Qed.

(** What is left of a target in the 32 bits of a header. *)
Definition rounded (v : Z) : Z := v / 2 ^ compact_shift v * 2 ^ compact_shift v.

Lemma rounded_le v : 0 <= v -> 0 <= rounded v <= v.
Proof. intros H. apply rounded_bounds; [done|unfold compact_shift; lia]. Qed.

(** The blocks of the averaging window that ends at [p]. *)
Definition window (I : BlockIndex) (n : nat) (p : ptr) (l : list CBlockIndex) : Prop :=
  length l = n /\ forall k bk, l !! k = Some bk ->
    exists q, up (blocks I) k p = Some q /\ blocks I !! q = Some bk.

(** The header words of the index are valid targets. *)
Definition targets_ok (I : BlockIndex) (P : pow_params) : Prop := forall q bq, blocks I !! q = Some bq ->
  0 <= bi_nBits bq < 2 ^ 32 /\ target_of bq <= val (bnLimit P).

Lemma median_defined I p b : tree_ok (blocks I) -> blocks I !! p = Some b ->
  exists m, GetMedianTimePast I p = Some m.
Proof.
  intros Ht Hb. unfold GetMedianTimePast.
  destruct (past_times_spec (blocks I) I nMedianTimeSpan Ht eq_refl p b Hb) as (l & -> & _). by eexists.
Qed.

Lemma average_le P I l : pow_ok P -> targets_ok I P -> 
  (forall k bk, l !! k = Some bk -> exists q, blocks I !! q = Some bk) ->
  Z.of_nat (length l) <= nPowAveragingWindow P ->
  Forall (fun b => 0 <= bi_nBits b < 2 ^ 32) l /\ 0 <= sum_targets l < 2 ^ 256 /\
  sum_targets l / nPowAveragingWindow P <= val (bnLimit P).
Proof.
  intros HP Hok Hl Hlen. pose proof (po_window P HP). pose proof (po_room P HP).
  pose proof (val_bound _ (bnLimit_ok P HP)).
  assert (Forall (fun b => 0 <= bi_nBits b < 2 ^ 32 /\ target_of b <= val (bnLimit P)) l) as Hf.
  { apply Forall_lookup. intros k bk Hk. destruct (Hl k bk Hk) as [q Hq]. by apply (Hok q). }
  assert (0 <= sum_targets l <= Z.of_nat (length l) * val (bnLimit P)) as Hs.
  { apply sum_targets_bound. eapply list.Forall_impl; [exact Hf|]. intros x [Hx Hle]. split; [|done].
    by destruct (val_bound _ (SetCompact_ok _ Hx)). }
  assert (sum_targets l <= val (bnLimit P) * nPowAveragingWindow P).
  { etransitivity; [apply Hs|]. rewrite Z.mul_comm. apply Z.mul_le_mono_nonneg_l; lia. }
  split; [|split; [lia|]].
  - eapply list.Forall_impl; [exact Hf|]. by intros x [? _].
  - apply Z.div_le_upper_bound; lia.
Qed.

Lemma GetCompact_rounds r : uint_ok r -> exists c, GetCompact r = Some c /\
  cr_overflow (SetCompact c) = false /\ cr_negative (SetCompact c) = false /\
  val (cr_value (SetCompact c)) = rounded (val r).
Proof.
  intros Hr. destruct (GetCompact_decodes r Hr) as (c & Hc & _ & _ & H1 & H2 & H3). by exists c.
Qed.

(** The window is a 32-bit number of blocks: the time it spans is one of seconds. *)
Lemma window_below P : pow_ok P -> ASSETCHAINS_ADAPTIVEPOW P <= 0 -> nPowAveragingWindow P < 2 ^ 32.
Proof.
  intros HP Ha. destruct (timespan_bounds P 0 0 HP Ha) as [HA _]. unfold AveragingWindowTimespan in HA.
  pose proof (po_spacing P HP). pose proof (po_window P HP). destruct HA as [_ HA].
  eapply Z.le_lt_trans; [|exact HA]. rewrite <- (Z.mul_1_r (nPowAveragingWindow P)) at 1.
  apply Z.mul_le_mono_nonneg_l; lia.
Qed.

(** [C33] Without adaptive difficulty the work required after a block is always defined: it is the
    limit while the chain is shorter than the averaging window, and then the average target of
    the window times the dampened time between the median times of its ends, over the time it
    should have taken; that time is clamped to the allowed adjustments, so the target moves by no
    more than they say, and it never exceeds the limit. *)
Theorem GetNextWorkRequired_retargets I P p b pblock :
  pow_ok P -> ASSETCHAINS_ADAPTIVEPOW P <= 0 -> tree_ok (blocks I) -> targets_ok I P ->
  blocks I !! p = Some b ->
  exists c, GetNextWorkRequired I P (Some p) pblock = Some c /\
    let t := val (cr_value (SetCompact c)) in
    cr_overflow (SetCompact c) = false /\ cr_negative (SetCompact c) = false /\ t <= val (bnLimit P) /\
    if nHeight b <? nPowAveragingWindow P then t = rounded (val (bnLimit P))
    else exists l q last first,
      window I (Z.to_nat (nPowAveragingWindow P)) p l /\
      up (blocks I) (Z.to_nat (nPowAveragingWindow P)) p = Some q /\
      GetMedianTimePast I p = Some last /\ GetMedianTimePast I q = Some first /\
      t = rounded (retarget P (sum_targets l / nPowAveragingWindow P) last first) /\
      MinActualTimespan P <= actual_timespan P last first <= MaxActualTimespan P.
Proof.
  intros HP Ha Ht Htg Hb. pose proof (bnLimit_ok P HP) as Hl. pose proof (val_bound _ Hl).
  pose proof (po_window P HP) as Hw. pose proof (height_range _ Ht p b Hb).
  destruct (GetCompact_rounds _ Hl) as (cl & Ecl & Ol & Nl & Vl).
  unfold GetNextWorkRequired. rewrite Ecl, Hb. cbn [mbind option_bind].
  assert ((ASSETCHAINS_ADAPTIVEPOW P >? 0) = false) as -> by (rewrite Z.gtb_ltb; apply Z.ltb_ge; lia).
  cbn [andb].
  assert (match pblock with Some _ => Some zawy_zero | None => Some zawy_zero end = Some zawy_zero) as ->
    by (by destruct pblock).
  cbn [mbind option_bind].
  destruct (walk_back_spec I Ht (Z.to_nat (nPowAveragingWindow P)) p b Hb) as (l & rest & -> & Hlen & Hup & ->).
  cbn [mbind option_bind].
  assert (forall k bk, l !! k = Some bk -> exists q, up (blocks I) k p = Some q /\ blocks I !! q = Some bk) as Hl2.
  { intros k bk Hk. destruct (Hup k) as (q & bq & H1 & H2 & H3); [by eapply lookup_lt_Some|].
    exists q. split; [done|]. congruence. }
  destruct (average_le P I l HP Htg) as (Hbits & Hsum & Havg); [|lia|].
  { intros k bk Hk. destruct (Hl2 k bk Hk) as (q & _ & Hq). by exists q. }
  destruct (average_loop_sum P (z_zflags zawy_zero) pblock l Ha Hbits 0 (z_mult zawy_zero) base_uint_zero)
    as (tot & -> & Htot & Etot); [apply zero_ok|rewrite val_zero; lia|].
  cbn [mbind option_bind]. rewrite val_zero, Z.add_0_l in Etot.
  destruct (Z.ltb_spec (nHeight b) (nPowAveragingWindow P)) as [Hs|Hs].
  - rewrite (up_beyond _ Ht (Z.to_nat (nPowAveragingWindow P)) p b Hb) by lia.
    exists cl. cbv zeta. rewrite Vl. pose proof (rounded_le (val (bnLimit P)) ltac:(lia)). split_and!; try done; lia.
  - destruct (up_height _ Ht (Z.to_nat (nPowAveragingWindow P)) p b Hb) as (q & bq & Eq & Hbq & _); [lia|].
    rewrite Eq.
    pose proof (window_below P HP Ha) as Hw32.
    assert (val (arith (nPowAveragingWindow P)) = nPowAveragingWindow P) as Ew by (apply arith_val; lia).
    destruct (div_assign_spec tot (arith (nPowAveragingWindow P)) Htot (base_uint_of_ok _) ltac:(lia))
      as (avg & -> & Havgok & Eavg). cbn [mbind option_bind]. rewrite Ew, Etot in Eavg.
    destruct (median_defined I p b Ht Hb) as [last El]. destruct (median_defined I q bq Ht Hbq) as [first Ef].
    rewrite El, Ef. cbn [mbind option_bind].
    destruct (CalculateNextWorkRequired_spec P avg last first HP Ha Havgok ltac:(lia)) as (r & -> & Hr & Er).
    destruct (GetCompact_rounds _ Hr) as (c & Ec & Oc & Nc & Vc). rewrite Ec. cbn [mbind option_bind].
    exists c. cbv zeta. rewrite Vc, Er, Eavg.
    pose proof (val_bound _ Hr). rewrite Er, Eavg in *.
    pose proof (rounded_le (retarget P (sum_targets l / nPowAveragingWindow P) last first) ltac:(lia)) as Hrd.
    assert (retarget P (sum_targets l / nPowAveragingWindow P) last first <= val (bnLimit P))
      by (unfold retarget; lia).
    split; [done|]. split; [done|]. split; [done|]. split; [lia|].
    exists l, q, last, first. destruct (timespan_bounds P last first HP Ha) as (_ & _ & ? & _).
    split; [split; [lia|exact Hl2]|]. split_and!; done || lia.
Qed.

(** ** The adaptive difficulty *)

Lemma triple_spec n A : 1 <= A -> A <= INT64_MAX ->
  triple n A = if A * 3 ^ Z.of_nat n <=? INT64_MAX then Some (A * 3 ^ Z.of_nat n) else None.
Proof.
  revert A. induction n as [|n IH]; intros A H1 H2; cbn [triple].
  - rewrite Z.mul_1_r. destruct (Z.leb_spec A INT64_MAX); [done|lia].
  - rewrite Nat2Z.inj_succ, Z.pow_succ_r by lia.
    assert (1 <= 3 ^ Z.of_nat n) by (pose proof (Z.pow_pos_nonneg 3 (Z.of_nat n)); lia).
    replace (A * (3 * 3 ^ Z.of_nat n)) with (A * 3 * 3 ^ Z.of_nat n) by ring.
    unfold as_int64. destruct (Z.leb_spec INT64_MIN (A * 3)); [|lia]. cbn [andb].
    destruct (Z.leb_spec (A * 3) INT64_MAX); cbn [mbind option_bind].
    + apply IH; lia.
    + destruct (Z.leb_spec (A * 3 * 3 ^ Z.of_nat n) INT64_MAX); [nia|done].
Qed.

Lemma quot_nonneg a b : 0 <= a -> 0 < b -> quot_ a b = Some (a / b).
Proof. intros Ha Hb. unfold quot_. destruct (Z.eqb_spec b 0); [lia|]. by rewrite Z.quot_div_nonneg. Qed.

(** The products that [zawy_exponential_val360000] takes in an [int] stay in its range. *)
Definition int_products_fit (T m : Z) : bool :=
  (m =? 0) || ((396000 * m <=? INT32_MAX) && (216000 * m * m <=? INT32_MAX) && (T * T <=? INT32_MAX)).

(** Up to a block time of 100 seconds they do; the first that does not fit is for 101. *)
Lemma int_products_fit_100 T m : 0 < T <= 100 -> 0 <= m < T -> int_products_fit T m = true.
Proof.
  intros HT Hm. unfold int_products_fit. destruct (Z.eqb_spec m 0); [done|].
  destruct (Z.leb_spec (396000 * m) INT32_MAX), (Z.leb_spec (216000 * m * m) INT32_MAX), (Z.leb_spec (T * T) INT32_MAX);
    cbn; done || nia.
Qed.
Example int_products_101 : int_products_fit 101 100 = false.
Proof. reflexivity. Qed.

(** The interpolation between two powers. *)
Lemma interpolation_defined T m : 0 < T -> 0 <= m < T ->
  (if negb (m =? 0) then
     a ← as_int (3600 * 110 * m); b ← as_int (3600 * 60 * m); b ← as_int (b * m);
     tt ← as_int (T * T); qa ← quot_ a T; qb ← quot_ b tt; Some (3600 * 100 + qa + qb)
   else Some (3600 * 100))
  = if int_products_fit T m then Some (360000 + 396000 * m / T + 216000 * m * m / (T * T)) else None.
Proof.
  intros HT Hm. unfold int_products_fit. destruct (Z.eqb_spec m 0) as [->|Em]; cbn [negb orb].
  { by rewrite !Z.mul_0_r, !Z.div_0_l by nia. }
  change (3600 * 110 * m) with (396000 * m). change (3600 * 60 * m) with (216000 * m). unfold as_int.
  destruct (Z.leb_spec INT32_MIN (396000 * m)); [|lia]. cbn [andb].
  destruct (Z.leb_spec (396000 * m) INT32_MAX) as [H1|H1]; cbn [mbind option_bind andb]; [|done].
  destruct (Z.leb_spec INT32_MIN (216000 * m)); [|lia]. destruct (Z.leb_spec (216000 * m) INT32_MAX); [|lia].
  cbn [mbind option_bind andb]. destruct (Z.leb_spec INT32_MIN (216000 * m * m)); [|nia]. cbn [andb].
  destruct (Z.leb_spec (216000 * m * m) INT32_MAX); cbn [mbind option_bind]; [|done].
  destruct (Z.leb_spec INT32_MIN (T * T)); [|nia]. cbn [andb].
  destruct (Z.leb_spec (T * T) INT32_MAX); cbn [mbind option_bind]; [|done]. by rewrite !quot_nonneg by nia.
Qed.

(** [C34] The exponential of the adaptive difficulty, for any block time: it is 360000 times an
    interpolation of 3^(num/T), exact at the whole multiples of [T], and undefined exactly when a
    product taken in an [int] leaves its range (never up to a block time of 100 seconds) or the
    result needs more than 63 bits. *)
Theorem zawy_exponential_exact T num : 0 < T <= INT32_MAX -> 0 <= num <= INT32_MAX ->
  let m := num mod T in
  let v := 3 ^ (num / T) * (360000 + 396000 * m / T + 216000 * m * m / (T * T)) in
  zawy_exponential_val360000 T num = (if int_products_fit T m && (v <=? INT64_MAX) then Some v else None) /\
  (T <= 100 -> int_products_fit T m = true) /\ (m = 0 -> v = 360000 * 3 ^ (num / T)).
Proof.
  intros HT Hn m v. pose proof (Z.mod_pos_bound num T ltac:(lia)) as Hm. fold m in Hm.
  assert (0 <= num / T) by (apply Z.div_pos; lia).
  split; [|split; [intros; apply int_products_fit_100; lia|unfold v; intros ->; rewrite !Z.mul_0_r, !Z.div_0_l by nia; lia]].
  unfold zawy_exponential_val360000. rewrite quot_nonneg, Z.rem_mod_nonneg by lia. fold m.
  cbn [mbind option_bind].
  assert ((if num / T >? 0 then triple (Z.to_nat (num / T)) 1 else Some 1)
          = if 3 ^ (num / T) <=? INT64_MAX then Some (3 ^ (num / T)) else None) as ->.
  { rewrite Z.gtb_ltb. destruct (Z.ltb_spec 0 (num / T)).
    - rewrite triple_spec, Z2Nat.id, Z.mul_1_l by lia. done.
    - replace (num / T) with 0 by lia. done. }
  rewrite interpolation_defined by lia. set (B := 360000 + 396000 * m / T + 216000 * m * m / (T * T)) in *.
  assert (360000 <= B).
  { assert (0 <= 396000 * m / T) by (apply Z.div_pos; nia). assert (0 <= 216000 * m * m / (T * T)) by (apply Z.div_pos; nia).
    unfold B. lia. }
  assert (1 <= 3 ^ (num / T)) by (pose proof (Z.pow_pos_nonneg 3 (num / T)); lia). unfold v.
  destruct (int_products_fit T m); cbn [andb];
    [|by destruct (Z.leb_spec (3 ^ (num / T)) INT64_MAX); cbn [mbind option_bind]].
  destruct (Z.leb_spec (3 ^ (num / T)) INT64_MAX); cbn [mbind option_bind].
  - unfold as_int64. destruct (Z.leb_spec INT64_MIN (3 ^ (num / T) * B)); [done|nia].
  - destruct (Z.leb_spec (3 ^ (num / T) * B) INT64_MAX); [nia|done].
Qed.

Lemma zawy_exponential_exact_witness :
  zawy_exponential_val360000 60 90 = Some (3 * (360000 + 198000 + 54000)) /\
  zawy_exponential_val360000 60 1740 = None /\ zawy_exponential_val360000 101 100 = None.
Proof.
  split_and!.
  - destruct (zawy_exponential_exact 60 90) as [-> _]; [lia|lia|]. reflexivity.
  - destruct (zawy_exponential_exact 60 1740) as [-> _]; [lia|lia|]. reflexivity.
  - destruct (zawy_exponential_exact 101 100) as [-> _]; [lia|lia|]. reflexivity.
Defined.

(** ** Concrete chains *)

Definition kmd_params (window adaptive : Z) : pow_params :=
  PowParams (replicate 32 15) (replicate 32 15) window 32 16 60 adaptive 60 true.

(** A chain of 70 blocks a minute apart. *)
Definition minute_block (n : nat) : CBlockIndex := {|
  phashBlock := None; pprev := match n with O => None | S m => Some m end; pskip := None;
  nHeight := Z.of_nat n; nChainWork := base_uint_zero; nTx := 1; nChainTx := 1; nStatus := 0; nSequenceId := 0;
  bi_nVersion := 4; bi_hashMerkleRoot := []; bi_hashFinalSaplingRoot := [];
  bi_nTime := 1600000000 + 60 * Z.of_nat n; bi_nBits := 0x1f07fffc; bi_nNonce := []; bi_nSolution := [] |}.

Definition minute_chain : BlockIndex :=
  {| blocks := map minute_block (seq 0 70); mapBlockIndex := ∅; pindexBestHeader := None;
     setDirtyBlockIndex := ∅ |}.

(** The work required of a block that comes [gap] seconds after the last one. *)
Definition after_gap (gap : Z) : option Z :=
  GetNextWorkRequired minute_chain (kmd_params 17 1) (Some 69%nat) (Some (1600000000 + 60 * 69 + gap)).

(** On a chain with adaptive difficulty and a block time of a minute the work required is
    undefined once no block has come for 36 minutes: the exponential overflows.  Until then a
    late block may have the minimum difficulty. *)
Theorem adaptive_work_undefined_after_gap :
  after_gap (35 * 60) = Some (Z.land KOMODO_MINDIFF_NBITS (Z.lnot 3)) /\ after_gap (36 * 60) = None.
Proof. split; vm_compute; reflexivity. Qed.

Lemma kmd_params_ok window : 2 <= window <= 17 -> pow_ok (kmd_params window 0).
Proof.
  intros Hw. assert (bytes_ok (replicate 32 15)) by (vm_compute; repeat constructor; discriminate).
  assert (val (bnLimit (kmd_params window 0)) * 17 <= 2 ^ 256 - 1) as Hl by (vm_compute; discriminate).
  assert (0 <= val (bnLimit (kmd_params window 0))) by (vm_compute; discriminate).
  split; cbn [powLimit powAlternate nPowAveragingWindow nPowTargetSpacing nPowMaxAdjustUp nPowMaxAdjustDown kmd_params];
    try done; try lia.
  - unfold MaxActualTimespan, AveragingWindowTimespan. cbn. rewrite Z.quot_div_nonneg by lia.
    apply Z.div_lt_upper_bound; lia.
  - nia.
Qed.

Lemma targets_ok_check I P :
  forallb (fun b => (0 <=? bi_nBits b) && (bi_nBits b <? 2 ^ 32) && (target_of b <=? val (bnLimit P)))
    (blocks I) = true -> targets_ok I P.
Proof.
  intros H q bq Hq. apply forallb_forall with (x := bq) in H; [propify; by split|].
  apply list_elem_of_In, list_elem_of_lookup. by exists q.
Qed.

Lemma sample_targets_ok : targets_ok sample_index (kmd_params 2 0).
Proof. apply targets_ok_check. vm_compute. reflexivity. Qed.

Lemma GetNextWorkRequired_retargets_witness :
  GetNextWorkRequired sample_index (kmd_params 2 0) (Some 2%nat) None = Some 520543709 /\
  val (cr_value (SetCompact 520543709)) <= val (bnLimit (kmd_params 2 0)).
Proof.
  assert (GetNextWorkRequired sample_index (kmd_params 2 0) (Some 2%nat) None = Some 520543709) as E
    by (vm_compute; reflexivity).
  split; [exact E|].
  destruct (GetNextWorkRequired_retargets sample_index (kmd_params 2 0) 2%nat (block_at 2%nat) None)
    as (c & Hc & _ & _ & Hle & _); [apply kmd_params_ok; lia|discriminate|apply sample_index_ok
      |apply sample_targets_ok|apply sample_lookup; lia|].
  rewrite E in Hc. injection Hc as Ec. rewrite Ec. exact Hle.
Defined.
