(* ===== verification/PowNotary.v ===== *)
(** * PowNotary: notaries and the proof of work
    [src/src/komodo_bitcoind.cpp]: the key of a block, [komodo_eligiblenotary], [komodo_is_special],
    [komodo_minerids]; [src/src/pow.cpp]: [isSecondBlockAllowed] and [CheckProofOfWork].  The
    blocks on disk are an argument; [None] is an index outside an array. *)
From Stdlib Require Import String.
From stdpp Require Import gmap sorting.
From S2P Require Import Prelude Endian Uint256 ArithUint256 Script Transaction Block Chain Pubkey Standard NotaryKeys NotaryTable Notary Pow.

(** ** The key that mined a block *)

Section BlockKeys.
Context {R : ConditionReader} (ccEnabled vSolutionsFix fAcceptDatacarrier : bool)
  (nMaxDatacarrierBytes : Z) (p0 : COptCCParams).

(** [komodo_block2pubkey33]: the 33 bytes it leaves, of the outputs of the coinbase, and its
    result.  The bytes a [CPubKey] starts from do not matter to its validity. *)
Definition komodo_block2pubkey33 (KOMODO_LOADINGBLOCKS : bool) (vout0 : list CTxOut) : list Z * bool :=
  match vout0 with
  | [] => (replicate 33 (if KOMODO_LOADINGBLOCKS then 0 else 255), false)
  | o :: _ =>
      let '(ret, whichType, vch) :=
        Solver ccEnabled vSolutionsFix p0 TX_NONSTANDARD (scriptPubKey o) in
      match whichType, vch with
      | TX_PUBKEY, key :: _ =>
          if ret && CPubKey.IsValid (CPubKey.of_range (replicate 65 0) key)
          then (take 33 key, true) else (replicate 33 0, false)
      | _, _ => (replicate 33 0, false)
      end
  end.
End BlockKeys.

Section CheckPow.

(** The chain, its notaries (see [Notary]), the index and the active chain, the outputs of the
    coinbases of the blocks on disk through [komodo_block2pubkey33] ([None]: a block that cannot
    be loaded). *)
Context (chainName : string) (komodo_heightstamp : Z -> Z) (beyond : nat -> Z).
Context (HASH_FIND : list knotary_entry -> list Z -> option knotary_entry).
Context (Pubkeys : list knotaries_entry) (garbage : list (list Z)).
Context (I : BlockIndex) (chainActive : CChain) (block_key : ptr -> option (list Z)).

Definition chosen (height : Z) (pubkey33 : list Z) (timestamp : Z) : option (Z * Z) :=
  komodo_chosennotary chainName komodo_heightstamp beyond HASH_FIND Pubkeys garbage height pubkey33 timestamp.

Definition block_time (p : ptr) : Z := match blocks I !! p with Some b => bi_nTime b | None => 0 end.
Definition block_height (p : ptr) : Z := match blocks I !! p with Some b => nHeight b | None => 0 end.

Definition komodo_chainactive_timestamp : Z :=
  match Tip chainActive with Some p => block_time p | None => 0 end.

Definition komodo_chainactive (height : Z) : option ptr :=
  match Tip chainActive with
  | Some p => if height <=? block_height p then chain_at chainActive height else None
  | None => None
  end.

(** The 66 blocks from a height down, as [komodo_eligiblenotary] sees them: the notary that
    mined each (-1: none) and its time (0: no block). *)
Definition recent_miner (rows : list (list Z)) (p : option ptr) : Z :=
  match p with
  | Some p => match block_key p with Some key => find_row key 0 rows | None => -1 end
  | None => -1
  end.
Definition recent_time (p : option ptr) : Z := match p with Some p => block_time p | None => 0 end.

Definition komodo_eligiblenotary (height : Z) : option (Z * list Z * list Z * Z) :=
  match komodo_notaries chainName komodo_heightstamp beyond Pubkeys garbage height 0 with
  | None => None
  | Some (n, rows) =>
      let rows := take (Z.to_nat n) rows in
      let pindexes := map (fun i => komodo_chainactive (height - Z.of_nat i)) (seq 0 66) in
      let mids := map (recent_miner rows) pindexes in
      let blocktimes := map recent_time pindexes in
      let nonzpkeys := Z.of_nat (length (filter (fun m => 0 <= m) mids)) in
      let m0 := hd (-1) mids in
      let duplicate := length (filter (fun m => 0 <= m0 /\ m = m0) (tl mids)) in
      Some (if (duplicate =? 0)%nat && ((height >? 186233) || (nonzpkeys >? 0)) then 1 else 0,
            mids, blocktimes, nonzpkeys)
  end.

(** The miners of [width] blocks up to [height], the number of notaries for a key that is no
    notary's.  A block that is missing or cannot be loaded is left out. *)
Definition komodo_minerids (height : Z) (width : nat) : option (list Z) :=
  match komodo_notaries chainName komodo_heightstamp beyond Pubkeys garbage height 0 with
  | None => None
  | Some (n, rows) =>
      let rows := take (Z.to_nat n) rows in
      Some (omap (fun i =>
        if height - Z.of_nat i <=? 0 then None
        else match komodo_chainactive (height - Z.of_nat width + Z.of_nat i + 1) with
             | None => None
             | Some p => match block_key p with
                         | None => None
                         | Some key =>
                             let j := find_row key 0 rows in
                             if j >=? 0 then Some j else if n >=? 0 then Some n else None
                         end
             end) (seq 0 width))
  end.

(** The loop of [komodo_is_special] below height 82000: whether it returns -1. *)
Fixpoint early_repeat (height notaryid : Z) (pubkey33 : list Z) (blocktimes : list Z) (i n : nat) : option bool :=
  match n with
  | O => Some false
  | S n' =>
      match chosen (height - Z.of_nat i) pubkey33 (nth i blocktimes 0) with
      | None => None
      | Some (_, nid) =>
          if (nid =? notaryid) && (height >? 225000) then Some true
          else early_repeat height notaryid pubkey33 blocktimes (S i) n'
      end
  end.

(** [komodo_is_special] *)
Definition komodo_is_special (mids blocktimes : list Z) (height : Z) (pubkey33 : list Z) (blocktime : Z)
    : option Z :=
  match chosen height pubkey33 (nth 0 blocktimes 0) with
  | None => None
  | Some (_, notaryid) =>
      if height >=? 82000 then
        if notaryid >=? 0 then
          if bool_decide (notaryid ∈ take 65 (drop 1 mids)) && (height >? 792000) then Some (-1)
          else
            let t1 := nth 1 blocktimes 0 in
            if negb (blocktime =? 0) && negb (t1 =? 0) && (blocktime <? u32 (t1 + 57)) && (height >? 807000)
            then Some (-2) else Some 1
        else Some 0
      else if (height >=? 34000) && (notaryid >=? 0) then
        let limit := if height <? 79693 then 64%nat else if height <? 82000 then 8%nat else 66%nat in
        match early_repeat height notaryid pubkey33 blocktimes 1 (limit - 1) with
        | None => None
        | Some r => Some (if r then -1 else 1)
        end
      else Some 0
  end.

(** ** The second block of a notary *)

(** [it = find(id); if (it != end && next(it) != end) rotate(it, next(it), end)]: the first
    occurrence goes to the end. *)
Fixpoint move_to_end (id : Z) (l : list Z) : list Z :=
  match l with
  | [] => []
  | x :: rest => if x =? id then rest ++ [x] else x :: move_to_end id rest
  end.

(** The list of priorities of [CheckProofOfWork]: over [mids[65]] down to [mids[1]]. *)
Definition vPriorityList (mids : list Z) : list Z :=
  fold_left (fun l m => if negb (m =? -1) then move_to_end m l else l) (rev (take 65 (drop 1 mids)))
    (map Z.of_nat (seq 0 64)).

Definition isSecondBlockAllowed (notaryid blocktime threshold delta : Z) (vPriorityList : list Z) : bool :=
  if (blocktime >=? threshold) && (delta >? 0) && (length vPriorityList =? 64)%nat && (notaryid >=? 0) then
    let nPos := (blocktime - threshold) / delta in
    if nPos <? Z.of_nat (length vPriorityList)
    then bool_decide (notaryid ∈ take (Z.to_nat nPos + 1) vPriorityList)
    else true
  else false.

(** ** [CheckProofOfWork] *)

(** The parameters of the chain it reads besides those of [Pow]. *)
Record check_params := CheckParams {
  cp_pow : pow_params; nHF22Height : option Z; nHF22NotariesPriorityRotateDelta : Z;
  nMaxFutureBlockTime : Z; ASSETCHAINS_STAKED : bool; KOMODO_LOADINGBLOCKS : bool;
  currentheight : Z
}.

(** [flag] from the rules of the time. *)
Definition notary_flag (height special special2 flag : Z) : Z :=
  let gap := Z.rem height KOMODO_ELECTION_GAP in
  if (height >? 10000) && (height <? 80000) && (negb (special =? 0) || (special2 >? 0)) then 1
  else if (height >=? 80000) && (height <? 108000) && (special2 >? 0) then 1
  else if (height >=? 108000) && (special2 >? 0) then
    if (height >? 1000000) || (gap >? 64) || (gap =? 0) then 1 else 0
  else if height =? 790833 then 1
  else if special2 <? 0 then if height >? 792000 then 0 else flag
  else flag.

(** The rule of a second block after a gap: [special2] becomes 2. *)
Definition gap_rule (C : check_params) (height notaryid special2 blocktime tiptime : Z)
    (mids blocktimes : list Z) : Z :=
  match nHF22Height C with
  | None => special2
  | Some after =>
      let nMaxGAPAllowed := u32 (nMaxFutureBlockTime C + 1) in
      let threshold := u32 (tiptime + nMaxGAPAllowed) in
      if String.eqb chainName "" && (height >? after)
         && (blocktime >=? threshold) && (tiptime =? nth 1 blocktimes 0)
         && ((special2 =? -1) || (special2 =? 1))
         && isSecondBlockAllowed notaryid blocktime threshold (nHF22NotariesPriorityRotateDelta C)
              (vPriorityList mids)
      then 2 else special2
  end.

(** Whether the block may have the minimum difficulty, for a key that is not null. *)
Definition easy_mining (C : check_params) (height : Z) (pubkey33 : list Z) (blocktime : Z) : option bool :=
  let tiptime := komodo_chainactive_timestamp in
  match chosen height pubkey33 tiptime, komodo_eligiblenotary height with
  | Some (special, notaryid), Some (flag, mids, blocktimes, _) =>
      match komodo_is_special mids blocktimes height pubkey33 blocktime with
      | None => None
      | Some special2 =>
          if notaryid >=? 0 then
            let flag := notary_flag height special special2 flag in
            let special2 := gap_rule C height notaryid special2 blocktime tiptime mids blocktimes in
            Some ((negb (flag =? 0) || (special2 >? 0)) && negb (special2 =? -2))
          else Some false
      end
  | _, _ => None
  end.

(** The comparison of the hash with a target given by a compact word. *)
Definition check_target (C : check_params) (height : Z) (hash : list Z) (nBits : Z) : bool :=
  let r := SetCompact nBits in
  let P := cp_pow C in
  let bnLimit := UintToArith256 (if (height <=? 1) || equihash P then powLimit P else powAlternate P) in
  if cr_negative r || EqualTo (cr_value r) 0 || cr_overflow r || ugt (cr_value r) bnLimit then false
  else
    let bnTarget := if ASSETCHAINS_STAKED C then cr_value (SetCompact KOMODO_MINDIFF_NBITS) else cr_value r in
    if ugt (UintToArith256 hash) bnTarget
    then KOMODO_LOADINGBLOCKS C || negb (negb (String.eqb chainName "") || (height >? 792000))
    else true.

(** [CheckProofOfWork(blkHeader, pubkey33, height, params)] on the hash, the bits and the time of
    the header. *)
Definition CheckProofOfWork (C : check_params) (hash : list Z) (nBits nTime : Z) (pubkey33 : list Z) (height : Z)
    : option bool :=
  let height := if height =? 0 then currentheight C + 1 else height in
  if (height >? 34000) && String.eqb chainName "" then
    if forallb (fun b => b =? 0) pubkey33 then
      match chosen height pubkey33 komodo_chainactive_timestamp with None => None | Some _ => Some true end
    else
      match easy_mining C height pubkey33 nTime with
      | None => None
      | Some easy => Some (check_target C height hash (if easy then KOMODO_MINDIFF_NBITS else nBits))
      end
  else Some (check_target C height hash nBits).
End CheckPow.

(** ** Turns *)

(** How many blocks ago a notary mined, counted over the list: its length when it did not. *)
Fixpoint turn (ms : list Z) (a : Z) : nat :=
  match ms with [] => O | m :: rest => if a =? m then O else S (turn rest a) end.

(** [a] comes before [b]: it mined longer ago, or neither mined and its index is lower. *)
Definition before (ms : list Z) (a b : Z) : Prop :=
  (turn ms b < turn ms a)%nat \/ (turn ms a = turn ms b /\ a < b).

#[export] Instance before_dec ms a b : Decision (before ms a b).
Proof. unfold before. apply _. Defined.

#[export] Instance before_strict ms : StrictOrder (before ms).
Proof. split; [intros a|intros a b c]; unfold before, complement; lia. Qed.

Abbreviation notary_ids := (map Z.of_nat (seq 0 64)).

Lemma notary_id_range i : i ∈ notary_ids <-> 0 <= i < 64.
Proof.
  rewrite list_elem_of_fmap. split.
  - intros (n & -> & Hn%elem_of_seq). lia.
  - intros Hi. exists (Z.to_nat i). split; [lia|]. apply elem_of_seq. lia.
Qed.

Lemma move_to_end_perm id l : move_to_end id l ≡ₚ l.
Proof.
  induction l as [|x l IH]; cbn [move_to_end]; [done|]. case_Z; [symmetry; apply Permutation_cons_append|].
  by rewrite IH.
Qed.

(** Moving an element to the end of a sorted list sorts it by an order that puts that element
    last and agrees elsewhere. *)
Lemma move_to_end_sorted (R R' : Z -> Z -> Prop) id l : NoDup l -> StronglySorted R l ->
  (forall a b, a <> id -> b <> id -> R a b -> R' a b) -> (forall a, a <> id -> R' a id) ->
  StronglySorted R' (move_to_end id l).
Proof.
  intros Hn Hs HR Hid.
  assert (forall l, id ∉ l -> StronglySorted R l -> StronglySorted R' l) as Hsame.
  { clear -HR. induction 2 as [|x l Hs IH Hf]; constructor.
    - apply IH. by intros ?%(list_elem_of_further _ x).
    - apply list.Forall_forall. intros y Hy. rewrite list.Forall_forall in Hf. apply HR; [..|by apply Hf].
      + intros ->. apply H. by left.
      + intros ->. apply H. by right. }
  induction Hs as [|x l Hs IH Hf]; cbn [move_to_end]; [constructor|].
  apply list.NoDup_cons in Hn as [Hx Hn]. destruct (Z.eqb_spec x id) as [->|Hne].
  - apply StronglySorted_app_2; [|by apply Hsame|repeat constructor].
    intros a b Ha ->%list_elem_of_singleton. apply Hid. by intros ->.
  - constructor; [by apply IH|]. apply list.Forall_forall. intros y Hy. rewrite move_to_end_perm in Hy.
    destruct (decide (y = id)) as [->|Hy']; [by apply Hid|].
    rewrite list.Forall_forall in Hf. apply HR; [done..|by apply Hf].
Qed.

Lemma vPriorityList_sorted mids :
  Forall (fun m => -1 <= m < 64) (take 65 (drop 1 mids)) ->
  vPriorityList mids ≡ₚ notary_ids /\ StronglySorted (before (take 65 (drop 1 mids))) (vPriorityList mids).
Proof.
  unfold vPriorityList. intros Hm. rewrite <- fold_left_rev_right, rev_involutive.
  induction Hm as [|m ms Hm _ [IHp IHs]]; cbn [fold_right].
  - split; [done|]. assert (StronglySorted (fun a b => a < b)%nat (seq 0 64)) as Hs
      by (repeat constructor; lia).
    induction Hs as [|x l Hs IH Hf]; cbn [map]; constructor; [done|].
    apply list.Forall_fmap. eapply list.Forall_impl; [exact Hf|]. intros y Hy. cbv beta in Hy. right. split; [done|lia].
  - set (l := fold_right _ _ ms) in *. clearbody l. destruct (Z.eqb_spec m (-1)) as [->|Hne]; cbn [negb].
    + split; [done|].
      assert (Forall (fun a => 0 <= a < 64) l) as Hr
        by (rewrite IHp; apply list.Forall_forall; intros a; apply notary_id_range).
      clear IHp. induction IHs as [|x l Hs IH Hf]; constructor; apply list.Forall_cons in Hr as [Hx Hr]; [by apply IH|].
      rewrite list.Forall_forall in Hf, Hr |- *. intros y Hy. pose proof (Hf y Hy). pose proof (Hr y Hy).
      unfold before in *. cbn [turn]. do 2 case_Z; lia.
    + split; [by rewrite move_to_end_perm|]. apply move_to_end_sorted with (before ms); [|done|..].
      * rewrite IHp. apply NoDup_fmap_2; [intros ???; lia|apply NoDup_seq].
      * intros a b Ha Hb. unfold before. cbn [turn]. do 2 case_Z; lia.
      * intros a Ha. left. cbn [turn]. rewrite Z.eqb_refl. case_Z; lia.
Qed.

Lemma filter_none {A} (P : A -> Prop) `{!forall x, Decision (P x)} l : Forall (fun x => ~ P x) l -> filter P l = [].
Proof. induction 1 as [|x l Hx _ IH]; [done|]. rewrite filter_cons. by rewrite decide_False. Qed.

(** In a list sorted by a strict order the position of an element is the number of those before it. *)
Lemma sorted_rank (R : Z -> Z -> Prop) `{!StrictOrder R, !forall x y, Decision (R x y)} l : StronglySorted R l ->
  forall k x, l !! k = Some x -> length (filter (fun y => R y x) l) = k.
Proof.
  induction 1 as [|y l Hs IH Hf]; intros k x Hk; [done|]. rewrite filter_cons. destruct k as [|k]; cbn in Hk.
  - injection Hk as ->. destruct (decide (R x x)) as [Hr|_]; [by apply StrictOrder_Irreflexive in Hr|].
    rewrite filter_none; [done|]. eapply list.Forall_impl; [exact Hf|]. intros z Hz Hzx. apply (StrictOrder_Irreflexive x). by transitivity z.
  - rewrite decide_True; [cbn [length]; by rewrite (IH k x)|].
    rewrite list.Forall_forall in Hf. apply Hf. by apply list_elem_of_lookup_2 with k.
Qed.

Lemma elem_of_take_nodup {A} (l : list A) k x n : NoDup l -> l !! k = Some x -> x ∈ take n l <-> (k < n)%nat.
Proof.
  intros Hn Hk. split.
  - intros Hx. apply list_elem_of_lookup in Hx as [j Hj]. apply lookup_take_Some in Hj as [Hj Hlt].
    by rewrite (NoDup_lookup l k j x Hn Hk Hj).
  - intros Hlt. apply list_elem_of_lookup_2 with k. by rewrite lookup_take_lt.
Qed.

(** [C32] After a gap in the chain the notaries get their turns one by one: a notary may mine from
    the moment [threshold + delta * rank] on, where its rank is the number of notaries that mined
    longer ago than it did within the last 65 blocks, those that did not mine coming first in the
    order of their indices.  The rank is below 64, so every notary's turn comes. *)
Theorem second_block_turns mids notaryid blocktime threshold delta :
  let ms := take 65 (drop 1 mids) in
  let rank := length (filter (fun j => before ms j notaryid) notary_ids) in
  Forall (fun m => -1 <= m < 64) ms -> 0 <= notaryid < 64 -> 0 < delta ->
  (isSecondBlockAllowed notaryid blocktime threshold delta (vPriorityList mids) = true <->
   threshold + delta * Z.of_nat rank <= blocktime) /\ (rank < 64)%nat.
Proof.
  intros ms rank Hms Hid Hd. destruct (vPriorityList_sorted mids Hms) as [Hp Hs].
  set (l := vPriorityList mids) in *. clearbody l.
  assert (notaryid ∈ l) as Hin by (rewrite Hp; by apply notary_id_range).
  apply list_elem_of_lookup in Hin as [k Hk].
  assert (rank = k) as -> by (unfold rank; rewrite <- Hp; by apply (sorted_rank (before ms))).
  assert (length l = 64%nat) as Hl by (rewrite Hp; done).
  assert (k < 64)%nat by (rewrite <- Hl; by eapply lookup_lt_Some).
  assert (NoDup l) as Hn by (rewrite Hp; apply NoDup_fmap_2; [intros ???; lia|apply NoDup_seq]).
  split; [|done]. unfold isSecondBlockAllowed. rewrite Hl, Nat.eqb_refl, !Z.geb_leb, Z.gtb_ltb.
  destruct (Z.leb_spec threshold blocktime); [|split; [done|nia]].
  destruct (Z.ltb_spec 0 delta); [|lia]. destruct (Z.leb_spec 0 notaryid); [|lia]. cbn [andb].
  pose proof (Z.div_mod (blocktime - threshold) delta ltac:(lia)) as Ediv.
  pose proof (Z.mod_pos_bound (blocktime - threshold) delta Hd) as Hmod.
  set (n := (blocktime - threshold) / delta) in *. assert (0 <= n) by (apply Z.div_pos; lia).
  destruct (Z.ltb_spec n (Z.of_nat 64)).
  - rewrite bool_decide_eq_true, (elem_of_take_nodup l k) by done. split; intros; nia.
  - split; [nia|done].
Qed.

Lemma second_block_turns_witness :
  isSecondBlockAllowed 2 1000 900 20 (vPriorityList (replicate 64 (-1) ++ [1; 0])) = true /\
  isSecondBlockAllowed 0 1000 900 20 (vPriorityList (replicate 64 (-1) ++ [1; 0])) = false.
Proof.
  assert (Forall (fun m => -1 <= m < 64) (take 65 (drop 1 (replicate 64 (-1) ++ [1; 0])))) as Hm
    by (apply (bool_decide_unpack _); vm_compute; exact Logic.I).
  split.
  - apply (second_block_turns (replicate 64 (-1) ++ [1; 0])); [exact Hm|lia|lia|].
    vm_compute. discriminate.
  - destruct (isSecondBlockAllowed 0 1000 900 20 (vPriorityList (replicate 64 (-1) ++ [1; 0]))) eqn:E; [|done].
    apply (second_block_turns (replicate 64 (-1) ++ [1; 0])) in E; [|exact Hm|lia|lia].
    exfalso. vm_compute in E. apply E. reflexivity.
Defined.

(** ** The rule of easy mining *)

Section KMD.
Context (komodo_heightstamp : Z -> Z) (beyond : nat -> Z).
Context (HASH_FIND : list knotary_entry -> list Z -> option knotary_entry).
Context (Pubkeys : list knotaries_entry) (garbage : list (list Z)).
Context (I : BlockIndex) (chainActive : CChain) (block_key : ptr -> option (list Z)).

Abbreviation check_pow :=
  (CheckProofOfWork "" komodo_heightstamp beyond HASH_FIND Pubkeys garbage I chainActive block_key).

(** The keys of the season of a height; the notaries that mined the 66 blocks down from a
    height, and the times of those blocks. *)
Definition keys_at (height : Z) : list (list Z) := season_keys beyond (Z.to_nat (getkmdseason height)).
Definition blocks_from (height : Z) : list (option ptr) :=
  map (fun i => komodo_chainactive I chainActive (height - Z.of_nat i)) (seq 0 66).
Definition miners_from (height : Z) : list Z := map (recent_miner block_key (keys_at height)) (blocks_from height).
Definition times_from (height : Z) : list Z := map (recent_time I) (blocks_from height).

(** The turn of a notary after a gap. *)
Definition after_gap_allowed (C : check_params) (height nid blocktime tiptime : Z) (mids times : list Z) : Prop :=
  exists after, nHF22Height C = Some after /\ after < height /\ tiptime = nth 1 times 0 /\
    isSecondBlockAllowed nid blocktime (u32 (tiptime + u32 (nMaxFutureBlockTime C + 1)))
      (nHF22NotariesPriorityRotateDelta C) (vPriorityList mids) = true.

(** A block with the minimum difficulty: the key is a notary's that has not mined within 65
    blocks and comes 57 seconds after the last block, or that has, and whose turn it is after a
    gap. *)
Definition may_mine_easily (C : check_params) (height : Z) (key : list Z) (blocktime : Z) : Prop :=
  let nid := find_row key 0 (keys_at height) in
  let mids := miners_from height in
  let t1 := nth 1 (times_from height) 0 in
  let tiptime := komodo_chainactive_timestamp I chainActive in
  0 <= nid /\
  (((nid ∉ take 65 (drop 1 mids)) /\ (blocktime = 0 \/ t1 = 0 \/ u32 (t1 + 57) <= blocktime)) \/
   (nid ∈ take 65 (drop 1 mids) /\ after_gap_allowed C height nid blocktime tiptime mids (times_from height))).

Lemma eligible_at height : 180000 <= height <= 8113400 -> exists flag n,
  komodo_eligiblenotary "" komodo_heightstamp beyond Pubkeys garbage I chainActive block_key height =
    Some (flag, miners_from height, times_from height, n).
Proof.
  intros Hh. unfold komodo_eligiblenotary.
  destruct (notaries_of_height komodo_heightstamp beyond Pubkeys garbage height 0 Hh) as (Hl & _ & ->).
  change (Z.to_nat 64) with 64%nat. rewrite take_overwrite by done. by do 2 eexists.
Qed.

Lemma allowed_after nid blocktime threshold delta l :
  isSecondBlockAllowed nid blocktime threshold delta l = true -> threshold <= blocktime.
Proof. unfold isSecondBlockAllowed. rewrite Z.geb_leb. by destruct (Z.leb_spec threshold blocktime). Qed.

Lemma notary_flag_late height special special2 flag : 1000000 < height -> special2 <> 0 ->
  notary_flag height special special2 flag = if 0 <? special2 then 1 else 0.
Proof.
  intros Hh Hs. unfold notary_flag. rewrite !Z.gtb_ltb, !Z.geb_leb.
  destruct (Z.ltb_spec height 80000), (Z.ltb_spec height 108000), (Z.eqb_spec height 790833); try lia.
  destruct (Z.leb_spec 108000 height), (Z.ltb_spec 1000000 height), (Z.ltb_spec 792000 height); try lia.
  rewrite !andb_false_r. cbn [andb orb]. destruct (Z.ltb_spec 0 special2), (Z.ltb_spec special2 0); done || lia.
Qed.

Lemma gap_rule_cases C height nid special2 blocktime tiptime mids times :
  let r := gap_rule "" C height nid special2 blocktime tiptime mids times in
  (r = 2 /\ (special2 = -1 \/ special2 = 1) /\ after_gap_allowed C height nid blocktime tiptime mids times) \/
  (r = special2 /\ ~ ((special2 = -1 \/ special2 = 1) /\ after_gap_allowed C height nid blocktime tiptime mids times)).
Proof.
  intros r. subst r. unfold gap_rule, after_gap_allowed. destruct (nHF22Height C) as [after|].
  2: { right. split; [done|]. intros (_ & ? & [=] & _). }
  rewrite Z.gtb_ltb, Z.geb_leb. set (th := u32 (tiptime + u32 (nMaxFutureBlockTime C + 1))).
  destruct (isSecondBlockAllowed _ _ th _ _) eqn:Ea.
  2: { rewrite andb_false_r. right. split; [done|]. intros (_ & a & _ & _ & _ & [=]). }
  pose proof (allowed_after _ _ _ _ _ Ea) as Ht. destruct (Z.leb_spec th blocktime); [|lia].
  rewrite !andb_true_r. cbn [String.eqb andb].
  destruct (Z.ltb_spec after height), (Z.eqb_spec tiptime (nth 1 times 0)), (Z.eqb_spec special2 (-1)), (Z.eqb_spec special2 1);
    cbn [andb orb]; (left; split; [done|]; split; [by auto|by exists after]) ||
    (right; split; [done|]; intros [? (a & [= <-] & ? & ? & _)]; lia).
Qed.

Lemma easy_mining_iff C height key blocktime : 1000000 < height <= 8113400 -> exists easy,
  easy_mining "" komodo_heightstamp beyond HASH_FIND Pubkeys garbage I chainActive block_key C height key blocktime
    = Some easy /\ (easy = true <-> may_mine_easily C height key blocktime).
Proof.
  intros Hh. unfold easy_mining, komodo_is_special, chosen.
  rewrite !chosennotary_find by lia. fold (keys_at height).
  destruct (eligible_at height ltac:(lia)) as (flag & n & ->).
  rewrite chosennotary_find by lia. fold (keys_at height).
  unfold may_mine_easily. set (nid := find_row key 0 (keys_at height)). set (mids := miners_from height).
  set (t1 := nth 1 (times_from height) 0). set (tiptime := komodo_chainactive_timestamp I chainActive).
  clearbody nid mids t1 tiptime.
  rewrite !Z.geb_leb, !Z.gtb_ltb. destruct (Z.leb_spec 82000 height); [|lia].
  destruct (Z.leb_spec 0 nid) as [Hn|Hn].
  2: { exists false.  split; [done|]. split; [done|lia]. }
  set (special2 := if bool_decide _ && _ then _ else _).
  assert (special2 = Some (if bool_decide (nid ∈ take 65 (drop 1 mids)) then -1
    else if negb (blocktime =? 0) && negb (t1 =? 0) && (blocktime <? u32 (t1 + 57)) then -2 else 1)) as ->.
  { subst special2. destruct (Z.ltb_spec 792000 height), (Z.ltb_spec 807000 height); try lia.
    rewrite !andb_true_r. destruct (bool_decide _); [done|]. by destruct (_ && _). }
  eexists. split; [reflexivity|].
  set (s2 := if bool_decide _ then _ else _).
  pose proof (gap_rule_cases C height nid s2 blocktime tiptime mids (times_from height)) as Hg. cbv zeta in Hg.
  set (r := gap_rule _ _ _ _ _ _ _ _ _) in *. clearbody r.
  fold (after_gap_allowed C height nid blocktime tiptime mids (times_from height)).
  set (A := after_gap_allowed _ _ _ _ _ _ _) in *. clearbody A.
  assert (s2 <> 0) by (subst s2; destruct (bool_decide _); [done|]; by destruct (_ && _)).
  rewrite notary_flag_late by lia. destruct (bool_decide_reflect (nid ∈ take 65 (drop 1 mids))) as [Hin|Hin].
  - subst s2. destruct Hg as [(-> & _ & HA)|(-> & HA)]; cbn; split; [auto|done|done|]. intros (_ & [[? _]|[_ ?]]); [done|].
    exfalso. apply HA. auto.
  - assert (s2 = 1 /\ (blocktime = 0 \/ t1 = 0 \/ u32 (t1 + 57) <= blocktime) \/
            s2 = -2 /\ ~ (blocktime = 0 \/ t1 = 0 \/ u32 (t1 + 57) <= blocktime)) as Hs.
    { subst s2. do 2 (case_Z; cbn [negb andb]; [left; lia|]). case_Z; [right|left]; lia. }
    clearbody s2. destruct Hs as [[-> Hs]|[-> Hs]].
    + split; [auto|intros _]. by destruct Hg as [(-> & _)|(-> & _)].
    + destruct Hg as [(_ & [[=]|[=]] & _)|(-> & _)]. cbn. split; [done|]. intros (_ & [[_ ?]|[? _]]); done.
Qed.

(** A hash passes for a compact word: the number it stands for has no sign, is not zero and is at most
    the limit of the chain, and the hash is at most that number or the blocks are being loaded. *)
Definition passes_for (C : check_params) (height : Z) (hash : list Z) (nBits : Z) : Prop :=
  let limit := if (height <=? 1) || equihash (cp_pow C) then powLimit (cp_pow C) else powAlternate (cp_pow C) in
  let N := compact_number nBits in
  0 < N <= val (UintToArith256 limit) /\ Z.testbit nBits 23 = false /\
  (val (UintToArith256 hash) <= N \/ KOMODO_LOADINGBLOCKS C = true).

Lemma check_target_passes C height hash nBits :
  bytes_ok (powLimit (cp_pow C)) -> bytes_ok (powAlternate (cp_pow C)) -> bytes_ok hash -> 0 <= nBits < 2 ^ 32 ->
  ASSETCHAINS_STAKED C = false -> 792000 < height ->
  check_target "" C height hash nBits = true <-> passes_for C height hash nBits.
Proof.
  intros Hl Ha Hh Hb Hs Hheight. unfold check_target, passes_for. rewrite Hs.
  set (limit := if (height <=? 1) || equihash (cp_pow C) then _ else _).
  assert (uint_ok (UintToArith256 limit)) as Hlim by (apply UintToArith256_ok; subst limit; by destruct ((height <=? 1) || _)).
  clearbody limit. destruct (SetCompact_fields nBits Hb) as (Hok & Hv & Ho & Hn).
  pose proof (val_bound _ Hlim) as Bl. pose proof (UintToArith256_ok _ Hh) as Hhash.
  set (r := SetCompact nBits) in *. clearbody r. set (N := compact_number nBits) in *.
  assert (0 <= N).
  { subst N. unfold compact_number. assert (0 <= compact_mantissa nBits) by (apply Z.mod_pos_bound; lia).
    case_Z; [apply Z.div_pos; [done|]; apply Z.pow_pos_nonneg; lia|apply Z.mul_nonneg_nonneg; [done|]; apply Z.pow_nonneg; lia]. }
  clearbody N. rewrite !ugt_spec, EqualTo_spec, Hn, Ho by (done || lia).
  destruct (Z.leb_spec (2 ^ 256) N) as [Hbig|Hsmall]; [rewrite !orb_true_r; split; [done|lia]|].
  rewrite Hv, Z.mod_small by lia. cbn [String.eqb negb orb]. rewrite Z.gtb_ltb.
  destruct (Z.ltb_spec 792000 height); [|lia].
  destruct (Z.eqb_spec N 0) as [->|]; [rewrite orb_true_r; split; [done|lia]|].
  destruct (Z.testbit nBits 23); [split; [done|by intros (_ & ? & _)]|]. cbn [negb andb orb].
  destruct (Z.ltb_spec (val (UintToArith256 limit)) N); [split; [done|lia]|].
  rewrite orb_false_r. destruct (Z.ltb_spec N (val (UintToArith256 hash))), (KOMODO_LOADINGBLOCKS C); split; try done; try (intros _; split_and!; auto; lia).
  intros (_ & _ & [?|?]); [lia|done].
Qed.

(** [C11] On the KMD chain above height 1000000, until the last season of notaries ends at 8113400, the
    check of a block with a non-null key is defined, and passes exactly for the minimum difficulty
    when the key is a notary's that may mine easily, and for the bits of the header otherwise: the
    word must be positive and at most the limit of the chain, and the hash at most what it stands
    for.  While the node loads its blocks ([KOMODO_LOADINGBLOCKS], at start-up) any hash passes, but
    the word is still checked. *)
Theorem CheckProofOfWork_rule C hash nBits nTime key height :
  bytes_ok (powLimit (cp_pow C)) -> bytes_ok (powAlternate (cp_pow C)) -> bytes_ok hash -> 0 <= nBits < 2 ^ 32 ->
  ASSETCHAINS_STAKED C = false -> 1000000 < height <= 8113400 -> Exists (fun b => b <> 0) key ->
  exists passes, check_pow C hash nBits nTime key height = Some passes /\
    (may_mine_easily C height key nTime -> (passes = true <-> passes_for C height hash KOMODO_MINDIFF_NBITS)) /\
    (~ may_mine_easily C height key nTime -> (passes = true <-> passes_for C height hash nBits)).
Proof.
  intros Hl Ha Hh Hb Hs Hheight Hkey. unfold CheckProofOfWork.
  destruct (Z.eqb_spec height 0); [lia|]. rewrite Z.gtb_ltb. destruct (Z.ltb_spec 34000 height); [|lia].
  cbn [String.eqb andb]. destruct (forallb _ key) eqn:Ef.
  { exfalso. rewrite List.forallb_forall in Ef. apply list.Exists_exists in Hkey as (b & Hin & Hne).
    apply list_elem_of_In, Ef in Hin. lia. }
  destruct (easy_mining_iff C height key nTime Hheight) as (easy & -> & He). eexists. split; [reflexivity|].
  rewrite check_target_passes by (done || lia || (destruct easy; done || lia)). destruct easy; split; intros Hm; try done.
  - exfalso. by apply Hm, He.
  - exfalso. by apply He in Hm.
Qed.
End KMD.

(** The parameters of the KMD chain: the minimum difficulty is its limit. *)
Definition kmd_check : check_params :=
  {| cp_pow := kmd_params 17 0; nHF22Height := Some 2973410; nHF22NotariesPriorityRotateDelta := 20;
     nMaxFutureBlockTime := 420; ASSETCHAINS_STAKED := false; KOMODO_LOADINGBLOCKS := false; currentheight := 0 |}.

(** Before any block is in memory: the first notary of a season may mine easily. *)
Lemma may_mine_easily_first beyond height key :
  keys_at beyond height !! 0%nat = Some key -> NoDup (keys_at beyond height) ->
  may_mine_easily beyond empty_index [] (fun _ => None) kmd_check height key 1600000000.
Proof.
  intros Hk Hn. unfold may_mine_easily. rewrite (find_row_nodup _ Hn 0 0 key Hk).
  split; [done|]. left. split; [|by right; left].
  intros Hin. assert (Forall (fun m => m = -1) (take 65 (drop 1 (miners_from beyond empty_index [] (fun _ => None) height)))) as Hf.
  { apply Forall_take, Forall_drop. unfold miners_from. apply list.Forall_fmap. unfold blocks_from.
    apply list.Forall_fmap, list.Forall_true. done. }
  rewrite list.Forall_forall in Hf. by apply Hf in Hin.
Qed.

Lemma CheckProofOfWork_rule_witness :
  exists key, CheckProofOfWork "" (fun _ => 0) (fun _ => 0) (fun _ _ => None) [] [] empty_index [] (fun _ => None)
    kmd_check (replicate 32 5) 0x1d00ffff 1600000000 key 1500000 = Some true.
Proof.
  destruct (notaries_of_height (fun _ => 0) (fun _ => 0) [] [] 1500000 0) as (Hl & Hn & _); [lia|].
  destruct (lookup_lt_is_Some_2 (keys_at (fun _ => 0) 1500000) 0) as [key Hk]; [unfold keys_at; rewrite Hl; lia|].
  exists key.
  assert (forall l : list Z, forallb (fun b => (0 <=? b) && (b <? 256)) l = true -> bytes_ok l) as Hb.
  { intros l Hf. apply List.Forall_forall. intros x Hx. rewrite List.forallb_forall in Hf. apply Hf in Hx. unfold is_byte. lia. }
  destruct (CheckProofOfWork_rule (fun _ => 0) (fun _ => 0) (fun _ _ => None) [] [] empty_index [] (fun _ => None)
    kmd_check (replicate 32 5) 0x1d00ffff 1600000000 key 1500000) as (passes & Hc & He & _);
    [by apply Hb|by apply Hb|by apply Hb|lia|done|lia| |].
  - assert (forallb (existsb (fun b => negb (b =? 0))) (keys_at (fun _ => 0) 1500000) = true) as Hz by (vm_compute; reflexivity).
    rewrite List.forallb_forall in Hz. apply list_elem_of_lookup_2, list_elem_of_In, Hz in Hk.
    apply List.existsb_exists in Hk as (b & Hin & Hne). apply list.Exists_exists. exists b.
    split; [by apply list_elem_of_In|lia].
  - rewrite Hc. f_equal. apply He; [by apply may_mine_easily_first|].
    split; [|split; [done|left]]; vm_compute; [split; [done|discriminate]|discriminate].
Defined.
