(* ===== verification/Upgrades.v ===== *)
(** * Upgrades: the network upgrades of [src/src/consensus/upgrades.cpp]
    The activation heights of a chain are a list, in the order of [Consensus::UpgradeIndex]; [None] is
    a failed assertion. *)
From S2P Require Import Prelude.

(** [Consensus::UpgradeIndex] *)
Abbreviation BASE_SPROUT := 0%nat.
Abbreviation UPGRADE_TESTDUMMY := 1%nat.
Abbreviation UPGRADE_OVERWINTER := 2%nat.
Abbreviation UPGRADE_SAPLING := 3%nat.
Abbreviation UPGRADE_DORMANCY := 4%nat.
Abbreviation MAX_NETWORK_UPGRADES := 5%nat.

Definition NO_ACTIVATION_HEIGHT : Z := -1.

(** The branch identifiers of [NetworkUpgradeInfo]. *)
Definition NetworkUpgradeInfo : list Z := [0; 0x74736554; 0x5ba81b19; 0x76b809bb; 0x64726d6e].
Definition NSPV_BRANCHID : Z := 0x76b809bb.

Inductive UpgradeState := UPGRADE_DISABLED | UPGRADE_PENDING | UPGRADE_ACTIVE.

#[export] Instance UpgradeState_eq : EqDecision UpgradeState.
Proof. solve_decision. Defined.

Section Upgrades.
(** [params.vUpgrades[idx].nActivationHeight] *)
Context (vUpgrades : list Z).

Definition NetworkUpgradeState (nHeight : Z) (idx : nat) : option UpgradeState :=
  if negb (nHeight >=? 0) then None
  else if negb (Nat.ltb idx MAX_NETWORK_UPGRADES) then None
  else
    nActivationHeight ← vUpgrades !! idx;
    Some (if nActivationHeight =? NO_ACTIVATION_HEIGHT then UPGRADE_DISABLED
          else if nHeight >=? nActivationHeight then UPGRADE_ACTIVE else UPGRADE_PENDING).

Definition NetworkUpgradeActive (nHeight : Z) (idx : nat) : option bool :=
  s ← NetworkUpgradeState nHeight idx; Some (bool_decide (s = UPGRADE_ACTIVE)).

(** The loop of [CurrentEpoch] below the index [n]. *)
Fixpoint epoch_below (nHeight : Z) (n : nat) : option nat :=
  match n with
  | O => Some BASE_SPROUT
  | S idx => b ← NetworkUpgradeActive nHeight idx; if (b : bool) then Some idx else epoch_below nHeight idx
  end.
Definition CurrentEpoch (nHeight : Z) : option nat := epoch_below nHeight MAX_NETWORK_UPGRADES.

(** [KOMODO_NSPV_SUPERLITE] is given. *)
Definition CurrentEpochBranchId (superlite : bool) (nHeight : Z) : option Z :=
  if superlite then Some NSPV_BRANCHID else e ← CurrentEpoch nHeight; NetworkUpgradeInfo !! e.

(** The loop of [PrevEpochBranchId] from the entry after [prev]. *)
Fixpoint prev_branch (currentBranchId prev : Z) (rest : list Z) : Z :=
  match rest with
  | [] => 0
  | id :: rest => if currentBranchId =? id then prev else prev_branch currentBranchId id rest
  end.
Definition PrevEpochBranchId (superlite : bool) (currentBranchId : Z) : Z :=
  if superlite then NSPV_BRANCHID else prev_branch currentBranchId 0 (tl NetworkUpgradeInfo).

(** The comparison is of an [int] with a [uint32_t]. *)
Definition IsConsensusBranchId (branchId : Z) : bool := bool_decide (u32 branchId ∈ NetworkUpgradeInfo).

Definition IsActivationHeight (nHeight : Z) (idx : nat) : option bool :=
  if negb (Nat.ltb idx MAX_NETWORK_UPGRADES) then None
  else if Nat.eqb idx BASE_SPROUT then Some false
  else a ← vUpgrades !! idx; Some ((nHeight >=? 0) && (nHeight =? a)).

Definition IsActivationHeightForAnyUpgrade (nHeight : Z) : bool :=
  if nHeight <? 0 then false else existsb (fun a => nHeight =? a) (take 4 (tl vUpgrades)).

(** The loop of [NextEpoch] over [n] indices from [idx]; the inner [None] is [boost::none]. *)
Fixpoint pending_from (nHeight : Z) (idx n : nat) : option (option nat) :=
  match n with
  | O => Some None
  | S n' =>
      s ← NetworkUpgradeState nHeight idx;
      if bool_decide (s = UPGRADE_PENDING) then Some (Some idx) else pending_from nHeight (S idx) n'
  end.
Definition NextEpoch (nHeight : Z) : option (option nat) :=
  if nHeight <? 0 then Some None else pending_from nHeight 1 4.

Definition NextActivationHeight (nHeight : Z) : option (option Z) :=
  e ← NextEpoch nHeight;
  match e with None => Some None | Some idx => a ← vUpgrades !! idx; Some (Some a) end.

(** ** The order of the epochs *)

Lemma upgrade_state h idx : length vUpgrades = MAX_NETWORK_UPGRADES -> 0 <= h -> (idx < 5)%nat -> exists a,
  vUpgrades !! idx = Some a /\
  NetworkUpgradeState h idx =
    Some (if a =? NO_ACTIVATION_HEIGHT then UPGRADE_DISABLED else if a <=? h then UPGRADE_ACTIVE else UPGRADE_PENDING).
Proof.
  intros Hl Hh Hi. unfold NetworkUpgradeState. rewrite !Z.geb_leb. destruct (Z.leb_spec 0 h); [|lia]. cbn [negb].
  destruct (Nat.ltb_spec idx MAX_NETWORK_UPGRADES); [|lia]. cbn [negb].
  destruct (lookup_lt_is_Some_2 vUpgrades idx) as [a E]; [lia|]. exists a. rewrite E. cbn [mbind option_bind].
  by rewrite Z.geb_leb.
Qed.

Lemma upgrade_active h idx : length vUpgrades = MAX_NETWORK_UPGRADES -> 0 <= h -> (idx < 5)%nat -> exists a,
  vUpgrades !! idx = Some a /\ NetworkUpgradeActive h idx = Some (negb (a =? NO_ACTIVATION_HEIGHT) && (a <=? h)).
Proof.
  intros Hl Hh Hi. destruct (upgrade_state h idx Hl Hh Hi) as (a & E & Es). exists a. split; [done|].
  unfold NetworkUpgradeActive. rewrite Es. cbn [mbind option_bind]. by do 2 case_Z.
Qed.

Lemma epoch_below_spec h n : length vUpgrades = MAX_NETWORK_UPGRADES -> 0 <= h -> (n <= 5)%nat -> exists e,
  epoch_below h n = Some e /\
  (e = BASE_SPROUT \/ ((e < n)%nat /\ NetworkUpgradeActive h e = Some true)) /\
  forall i, (e < i < n)%nat -> NetworkUpgradeActive h i = Some false.
Proof.
  intros Hl Hh. induction n as [|idx IH]; intros Hn; cbn [epoch_below].
  - exists BASE_SPROUT. split; [done|]. split; [by left|lia].
  - destruct (upgrade_active h idx Hl Hh ltac:(lia)) as (a & _ & E). rewrite E. cbn [mbind option_bind].
    destruct (negb _ && _) eqn:Eb.
    + exists idx. split; [done|]. split; [right; split; [lia|done]|lia].
    + destruct IH as (e & -> & He & Hi); [lia|]. exists e. split; [done|]. split.
      * destruct He as [?|[? ?]]; [by left|right; split; [lia|done]].
      * intros i Hi'. destruct (decide (i = idx)) as [->|]; [done|apply Hi; lia].
Qed.

Lemma epoch_of h : length vUpgrades = MAX_NETWORK_UPGRADES -> 0 <= h -> exists e,
  CurrentEpoch h = Some e /\ (e < 5)%nat /\
  (e = BASE_SPROUT \/ NetworkUpgradeActive h e = Some true) /\
  forall i, (e < i < 5)%nat -> NetworkUpgradeActive h i = Some false.
Proof.
  intros Hl Hh. unfold CurrentEpoch. destruct (epoch_below_spec h 5 Hl Hh (le_n _)) as (e & -> & He & Hi). exists e.
  split; [done|]. split; [destruct He as [->|[? _]]; lia|]. split; [destruct He as [?|[_ ?]]; auto|done].
Qed.

(** The branch of the epoch before. *)
Lemma prev_branch_id e id : NetworkUpgradeInfo !! e = Some id ->
  Some (PrevEpochBranchId false id) = NetworkUpgradeInfo !! (e - 1)%nat.
Proof. intros H. destruct e as [|[|[|[|[|e]]]]]; [injection H as <-; reflexivity..|done]. Qed.
End Upgrades.

(** The epochs of a chain only move forward, an upgrade once active stays active, and the branch
    that signatures of the previous epoch were made for is the one before the current. *)
Theorem epochs_advance vUpgrades h h' :
  length vUpgrades = MAX_NETWORK_UPGRADES -> 0 <= h <= h' ->
  exists e e' id, CurrentEpoch vUpgrades h = Some e /\ CurrentEpoch vUpgrades h' = Some e' /\ (e <= e')%nat /\
    CurrentEpochBranchId vUpgrades false h = Some id /\
    Some (PrevEpochBranchId false id) = NetworkUpgradeInfo !! (e - 1)%nat /\
    forall i, NetworkUpgradeActive vUpgrades h i = Some true -> NetworkUpgradeActive vUpgrades h' i = Some true.
Proof.
  intros Hl Hh.
  assert (forall i, NetworkUpgradeActive vUpgrades h i = Some true -> NetworkUpgradeActive vUpgrades h' i = Some true) as Hmono.
  { intros i Hi. assert (i < 5)%nat as Hi5.
    { unfold NetworkUpgradeActive, NetworkUpgradeState in Hi. destruct (negb (h >=? 0)); [done|].
      destruct (Nat.ltb_spec i 5); [done|done]. }
    destruct (upgrade_active vUpgrades h i Hl ltac:(lia) Hi5) as (a & Ea & E).
    destruct (upgrade_active vUpgrades h' i Hl ltac:(lia) Hi5) as (a' & Ea' & ->). rewrite Ea in Ea'. injection Ea' as <-.
    rewrite E in Hi. injection Hi as Hi. apply andb_true_iff in Hi as [-> Hi]. propify.
    by destruct (Z.leb_spec a h'); [|lia]. }
  destruct (epoch_of vUpgrades h Hl ltac:(lia)) as (e & Ee & H5 & He & _).
  destruct (epoch_of vUpgrades h' Hl ltac:(lia)) as (e' & Ee' & _ & _ & Hi').
  destruct (lookup_lt_is_Some_2 NetworkUpgradeInfo e) as [id Eid]; [done|].
  exists e, e', id. split; [done|]. split; [done|]. split_and!.
  - destruct He as [->|He]; [lia|]. destruct (decide (e <= e')%nat); [done|].
    specialize (Hi' e ltac:(lia)). apply Hmono in He. congruence.
  - unfold CurrentEpochBranchId. by rewrite Ee.
  - by apply prev_branch_id.
  - exact Hmono.
Qed.

Lemma epochs_advance_witness :
  exists e e' id, CurrentEpoch [0; -1; 500; 1000; 2000] 600 = Some e /\
    CurrentEpoch [0; -1; 500; 1000; 2000] 2000 = Some e' /\ (e <= e')%nat /\
    CurrentEpochBranchId [0; -1; 500; 1000; 2000] false 600 = Some id /\
    Some (PrevEpochBranchId false id) = NetworkUpgradeInfo !! (e - 1)%nat.
Proof.
  destruct (epochs_advance [0; -1; 500; 1000; 2000] 600 2000) as (e & e' & id & H1 & H2 & H3 & H4 & H5 & _); [done|lia|].
  by exists e, e', id.
Defined.
