(* ===== verification/CheckTx.v ===== *)
(** * CheckTx: the checks of a transaction that need no coins
    [CheckTransactionWithoutProofVerification], [CheckTransaction], [ContextualCheckTransaction] and
    [ContextualCheckCoinbaseTransaction] of [src/src/main.cpp], with the banned outputs of
    [komodo_gateway.cpp], the staking output and [komodo_acpublic] of [komodo_bitcoind.cpp].  The proof
    systems, the addresses of notaries and the clock of the initial download are given. *)
From Stdlib Require Import Ascii String.
From stdpp Require Import strings gmap.
From S2P Require Import Prelude Verdict Uint256 Hash ScriptNum Opcode Script Interpreter Serialize Amount Transaction SigHash Finality NotaryKeys Notary Upgrades.

(** ** Constants *)

Definition SPROUT_MIN_TX_VERSION : Z := 1.
Definition OVERWINTER_MIN_TX_VERSION : Z := 3.
Definition OVERWINTER_MAX_TX_VERSION : Z := 3.
Definition SAPLING_MIN_TX_VERSION : Z := 4.
Definition SAPLING_MAX_TX_VERSION : Z := 4.
Definition MAX_TX_SIZE_BEFORE_SAPLING : Z := 100000.
Definition MAX_TX_SIZE_AFTER_SAPLING : Z := 2 * MAX_TX_SIZE_BEFORE_SAPLING.
Definition TX_EXPIRY_HEIGHT_THRESHOLD : Z := 500000000.
Definition IGUANA_MAXSCRIPTSIZE : Z := 10001.
Definition KOMODO_SAPLING_DEADLINE : Z := 1550188800.

(** [GetSerializeSize(tx, SER_NETWORK, PROTOCOL_VERSION)]; an exception when the format is unknown. *)
Definition GetSerializeSize (t : tx) : option Z := match Serialize_tx t with Some b => Some (size b) | None => None end.

(** The chain and its options. *)
Record tx_rules := {
  tr_isKMD : bool;
  tr_isZEX : bool;                        (** [chainName.isSymbol("ZEX")] *)
  tr_main : bool;                         (** [NetworkIDString() == "main"] *)
  tr_MAX_MONEY : Z;
  tr_PUBLIC : Z;                          (** [ASSETCHAINS_PUBLIC] *)
  tr_PRIVATE : bool;                      (** [ASSETCHAINS_PRIVATE] *)
  tr_TXPOW : Z;                           (** [ASSETCHAINS_TXPOW] *)
  tr_STAKED : bool;                       (** [ASSETCHAINS_STAKED] *)
  tr_TIMELOCKGTE : Z;                     (** [ASSETCHAINS_TIMELOCKGTE] *)
  tr_tiptime : option Z;                  (** the time of the tip *)
  tr_heightstamp : Z -> Z;                (** [komodo_heightstamp] *)
  tr_isnotaryvout : script -> Z -> bool;  (** [komodo_isnotaryvout] of the address of a script *)
  tr_unlocktime : Z -> Z;                 (** [komodo_block_unlocktime] *)
  tr_block_subsidy : Z -> Z;              (** [komodo_ac_block_subsidy] *)
  tr_vUpgrades : list Z;                  (** [params.vUpgrades] *)
  tr_superlite : bool;                    (** [KOMODO_NSPV_SUPERLITE] *)
  tr_initial_download : bool              (** [isInitBlockDownload()] *)
}.

(** ** Banned outputs and staking transactions *)

(** The transactions of [banned_txids] (komodo_gateway.cpp). *)
Definition banned_txids : list string :=
  ["78cb4e21245c26b015b888b14c4f5096e18137d2741a6de9734d62b07014dfca";
   "00697be658e05561febdee1aafe368b821ca33fbb89b7027365e3d77b5dfede5";
   "e909465788b32047c472d73e882d79a92b0d550f90be008f76e1edaee6d742ea";
   "f56c6873748a327d0b92b8108f8ec8505a2843a541b1926022883678fb24f9dc";
   "abf08be07d8f5b3a433ddcca7ef539e79a3571632efd6d0294ec0492442a0204";
   "3b854b996cc982fba8c06e76cf507ae7eed52ab92663f4c0d7d10b3ed879c3b0";
   "fa9e474c2cda3cb4127881a40eb3f682feaba3f3328307d518589024a6032cc4";
   "ca746fa13e0113c4c0969937ea2c66de036d20274efad4ce114f6b699f1bc0f3";
   "43ce88438de4973f21b1388ffe66e68fda592da38c6ef939be10bb1b86387041";
   "0aeb748de82f209cd5ff7d3a06f65543904c4c17387c9d87c65fd44b14ad8f8c";
   "bbd3a3d9b14730991e1066bd7c626ca270acac4127131afe25f877a5a886eb25";
   "fa9943525f2e6c32cbc243294b08187e314d83a2870830180380c3c12a9fd33c";
   "a01671c8775328a41304e31a6693bbd35e9acbab28ab117f729eaba9cb769461";
   "2ef49d2d27946ad7c5d5e4ab5c089696762ff04e855f8ab48e83bdf0cc68726d";
   "c85dcffb16d5a45bd239021ad33443414d60224760f11d535ae2063e5709efee";
   "c4ea1462c207547cd6fb6a4155ca6d042b22170d29801a465db5c09fec55b19d";
   "305dc96d8bc23a69d3db955e03a6a87c1832673470c32fe25473a46cc473c7d1"]%string.

Definition komodo_checkvout (vout k indallvouts : Z) : bool :=
  if k <? indallvouts then vout =? 1
  else if (k =? indallvouts) || (k =? indallvouts + 1) then true
  else vout =? 0.

(** [uint256S] reads the hexadecimal text. *)
Definition komodo_bannedset : list (list Z) * Z :=
  let array := map (fun s => base_blob.SetHex 32 (codes s)) banned_txids in
  (array, Z.of_nat (length banned_txids) - 2).

(** Whether an input spends a banned output: the double loop. *)
Definition spends_banned (prev : COutPoint) : bool :=
  let '(array, indallvouts) := komodo_bannedset in
  existsb (fun ka => base_blob.eq (op_hash prev) (snd ka) && komodo_checkvout (i32 (op_n prev)) (Z.of_nat (fst ka)) indallvouts)
    (imap (fun k a => (k, a)) array).

(** [GetOpReturnData] (script/cc.cpp): the data pushed after OP_RETURN. *)
Definition GetOpReturnData (sig : script) : bool * list Z :=
  let r := CScript.GetOp2 sig in
  if CScript.go_ret r then
    if op_eq (CScript.go_op r) OP_RETURN then
      let r2 := CScript.GetOp2 (CScript.go_pc r) in
      if CScript.go_ret r2 then
        (op_lt OP_0 (CScript.go_op r2) && op_le (CScript.go_op r2) OP_PUSHDATA4, CScript.go_data r2)
      else (false, CScript.go_data r2)
    else (false, [])
  else (false, []).

(** [DecodeStakingOpRet]: the evaluation code 77 and a Merkle root, and nothing else. *)
Definition DecodeStakingOpRet (scriptPubKey : script) : option (list Z) :=
  let vopret := snd (GetOpReturnData scriptPubKey) in
  if size vopret >? 2 then
    match vopret with
    | evalcode :: ss => if (size ss =? 32) && (evalcode =? 77) then Some ss else None
    | [] => None
    end
  else None.

(** [empty()] of a vector. *)
Abbreviation is_nil l := (match l with [] => true | _ => false end).

#[export] Instance COutPoint_eq_dec : EqDecision COutPoint.
Proof. solve_decision. Defined.

Section Chain.
Context (R : tx_rules).

Definition komodo_newStakerActive (height timestamp : Z) : bool :=
  (timestamp >? nStakedDecemberHardforkTimestamp) || (tr_heightstamp R height >? nStakedDecemberHardforkTimestamp).

Definition komodo_acpublic (tiptime : Z) : Z :=
  let acpublic := tr_PUBLIC R in
  if acpublic =? 0 then
    let tiptime := if tiptime =? 0 then match tr_tiptime R with Some t => t | None => tiptime end else tiptime in
    if tr_isZEX R && (tiptime >=? KOMODO_SAPLING_DEADLINE) then 1 else acpublic
  else acpublic.

Definition money (v : Z) : bool := MoneyRange (tr_MAX_MONEY R) v.

(** ** [CheckTransactionWithoutProofVerification] *)

(** The versions. *)
Definition check_version (t : tx) : checked unit :=
  if negb (fOverwintered t) && (nVersion t <? SPROUT_MIN_TX_VERSION) then DoS 100 "bad-txns-version-too-low"
  else if fOverwintered t then
    reject nVersion t <? OVERWINTER_MIN_TX_VERSION with 100 "bad-tx-overwinter-version-too-low";
    reject negb (nVersionGroupId t =? OVERWINTER_VERSION_GROUP_ID) && negb (nVersionGroupId t =? SAPLING_VERSION_GROUP_ID)
      with 100 "bad-tx-version-group-id";
    reject_if (nExpiryHeight t >=? TX_EXPIRY_HEIGHT_THRESHOLD) 100 "bad-tx-expiry-height-too-high"
  else Pass tt.

(** The loop over the outputs: the value so far and whether an output is not for the notaries. *)
Definition check_output (iscoinbase : bool) (tiptime : Z) (st : Z * bool) (o : CTxOut) : checked (Z * bool) :=
  let '(nValueOut, invalid_private_taddr) := st in
  reject nValue o <? 0 with 100 "bad-txns-vout-negative";
  reject nValue o >? tr_MAX_MONEY R with 100 "bad-txns-vout-toolarge";
  let invalid_private_taddr :=
    if tr_PRIVATE R && negb iscoinbase && (nValue o >? 0) && negb (tr_isnotaryvout R (scriptPubKey o) tiptime)
    then true else invalid_private_taddr in
  reject size (scriptPubKey o) >? IGUANA_MAXSCRIPTSIZE with 100 "bad-txns-opret-too-big";
  let nValueOut := i64 (nValueOut + nValue o) in
  reject negb (money nValueOut) with 100 "bad-txns-txouttotal-toolarge";
  Pass (nValueOut, invalid_private_taddr).

(** The exception for a private chain: a transaction without inputs that reveals the script of its
    first output. *)
Definition reveals_script (t : tx) : bool :=
  is_nil (vin t) &&
  match vout t with
  | [o0; o1] => CScript.IsPayToScriptHash (scriptPubKey o0) && CScript.IsRedeemScriptReveal (scriptPubKey o0) (scriptPubKey o1)
  | _ => false
  end.

(** The counts of JoinSplits by what they move. *)
Record js_counts := { z_z : Z; z_t : Z; t_z : Z }.

Definition check_joinsplit (acpublic tiptime : Z) (st : Z * js_counts) (d : JSDescription) : checked (Z * js_counts) :=
  let '(nValueOut, c) := st in
  reject negb (acpublic =? 0) with 100 "bad-txns-acpublic-chain";
  reject tiptime >=? KOMODO_SAPLING_DEADLINE with 100 "bad-txns-sprout-expired";
  reject vpub_old d <? 0 with 100 "bad-txns-vpub_old-negative";
  reject vpub_new d <? 0 with 100 "bad-txns-vpub_new-negative";
  reject vpub_old d >? tr_MAX_MONEY R with 100 "bad-txns-vpub_old-toolarge";
  reject vpub_new d >? tr_MAX_MONEY R with 100 "bad-txns-vpub_new-toolarge";
  reject negb (vpub_new d =? 0) && negb (vpub_old d =? 0) with 100 "bad-txns-vpubs-both-nonzero";
  let nValueOut := i64 (nValueOut + vpub_old d) in
  reject negb (money nValueOut) with 100 "bad-txns-txouttotal-toolarge";
  Pass (nValueOut,
    if (vpub_new d =? 0) && (vpub_old d =? 0) then {| z_z := z_z c + 1; z_t := z_t c; t_z := t_z c |}
    else if (vpub_new d =? 0) && negb (vpub_old d =? 0) then {| z_z := z_z c; z_t := z_t c; t_z := t_z c + 1 |}
    else if negb (vpub_new d =? 0) && (vpub_old d =? 0) then {| z_z := z_z c; z_t := z_t c + 1; t_z := t_z c |}
    else c).

(** The rule of a chain with proof of work on transactions. *)
Definition genesistxid : list Z :=
  base_blob.SetHex 32 (codes "4a5e1e4baab89f3a32518a88c31bc87f618f76673e2cc77ab2127b7afdeda33b").
Definition txpow_ok (iscoinbase : bool) (txid : list Z) : bool :=
  if (negb (Z.land (tr_TXPOW R) 2 =? 0) && iscoinbase) || (negb (Z.land (tr_TXPOW R) 1 =? 0) && negb iscoinbase) then
    ((nth 0 txid 0 =? 0) && (nth 31 txid 0 =? 0)) || base_blob.eq txid genesistxid
  else true.

(** The value that the shielded parts bring in. *)
Definition check_values_in (t : tx) : checked unit :=
  do nValueIn <- each (fun nValueIn d =>
    let nValueIn := i64 (nValueIn + vpub_new d) in
    reject negb (money (vpub_new d)) || negb (money nValueIn) with 100 "bad-txns-txintotal-toolarge";
    Pass nValueIn) (vjoinsplit t) 0;
  if valueBalance t >=? 0 then
    let nValueIn := i64 (nValueIn + valueBalance t) in
    reject_if (negb (money nValueIn)) 100 "bad-txns-txintotal-toolarge"
  else Pass tt.

(** A set of what has been seen ([std::set] of the inputs, of the nullifiers). *)
Definition check_distinct {A} `{!EqDecision A} (reason : string) (l : list A) : checked (list A) :=
  each (fun seen a => reject bool_decide (a ∈ seen) with 100 reason; Pass (a :: seen)) l [].

(** The last rules: on the script of a mint, and on null inputs of any other transaction. *)
Definition check_mint (t : tx) : checked unit :=
  if IsMint t then
    reject negb (is_nil (vjoinsplit t)) with 100 "bad-cb-has-joinsplits";
    reject negb (is_nil (vShieldedSpend t)) with 100 "bad-cb-has-spend-description";
    reject negb (is_nil (vShieldedOutput t)) with 100 "bad-cb-has-output-description";
    do i <- defined (vin t !! 0%nat);
    reject_if ((size (scriptSig i) <? 2) || (size (scriptSig i) >? 100)) 100 "bad-cb-length"
  else reject_if (existsb (fun i => OutPoint.IsNull (prevout i)) (vin t)) 10 "bad-txns-prevout-null".

(** The rule of private chains on shielded inputs: whether an output that is not for the notaries
    remains. *)
Definition check_private (t : tx) (tiptime : Z) (invalid_private_taddr : bool) : checked bool :=
  if tr_PRIVATE R && invalid_private_taddr && negb (is_nil (vShieldedSpend t)) then
    if (getacseason tiptime >? 5) && reveals_script t then Pass false
    else DoS 100 "bad-txns-acprivate-chain"
  else Pass invalid_private_taddr.

(** [tx] is the transaction with its hash. *)
Definition CheckTransactionWithoutProofVerification (tiptime : Z) (tx : CTransaction) : checked unit :=
  let t := ct_tx tx in
  let acpublic := komodo_acpublic tiptime in
  do _ <- check_version t;
  reject is_nil (vin t) && is_nil (vjoinsplit t) && is_nil (vShieldedSpend t) with 10 "bad-txns-vin-empty";
  reject is_nil (vout t) && is_nil (vjoinsplit t) && is_nil (vShieldedOutput t) with 10 "bad-txns-vout-empty";
  do sz <- defined (GetSerializeSize t);
  reject sz >? MAX_TX_SIZE_AFTER_SAPLING with 100 "bad-txns-oversize";
  do st <- each (check_output (IsCoinBase t) tiptime) (vout t) (0, false);
  let '(nValueOut, invalid_private_taddr) := st in
  reject no_shielded (vShieldedSpend t) (vShieldedOutput t) && negb (valueBalance t =? 0) with 100 "bad-txns-valuebalance-nonzero";
  reject negb (acpublic =? 0) && negb (no_shielded (vShieldedSpend t) (vShieldedOutput t)) with 100 "bad-txns-acpublic-chain";
  do invalid_private_taddr <- check_private t tiptime invalid_private_taddr;
  reject (valueBalance t >? tr_MAX_MONEY R) || (valueBalance t <? - tr_MAX_MONEY R) with 100 "bad-txns-valuebalance-toolarge";
  let nValueOut := if valueBalance t <=? 0 then i64 (nValueOut + - valueBalance t) else nValueOut in
  reject (valueBalance t <=? 0) && negb (money nValueOut) with 100 "bad-txns-txouttotal-toolarge";
  do st <- each (check_joinsplit acpublic tiptime) (vjoinsplit t) (nValueOut, {| z_z := 0; z_t := 0; t_z := 0 |});
  let '(nValueOut, c) := st in
  reject tr_PRIVATE R && invalid_private_taddr &&
         ((z_t c =? 0) || negb (z_z c =? 0) || negb (t_z c =? 0) || negb (is_nil (vin t))) with 100 "bad-txns-acprivacy-chain";
  reject negb (tr_TXPOW R =? 0) && negb (txpow_ok (IsCoinBase t) (ct_hash tx)) with 100 "bad-txns-actxpow-chain";
  do _ <- check_values_in t;
  do _ <- check_distinct "bad-txns-inputs-duplicate" (map prevout (vin t));
  do _ <- check_distinct "bad-joinsplits-nullifiers-duplicate" (concat (map nullifiers (vjoinsplit t)));
  do _ <- check_distinct "bad-spend-description-nullifiers-duplicate" (map sd_nullifier (vShieldedSpend t));
  check_mint t.

(** ** [CheckTransaction] *)

(** [joinsplit.Verify] of a JoinSplit for the key of the transaction is given. *)
Context (joinsplit_Verify : JSDescription -> list Z -> bool).

Definition CheckTransaction (tiptime : Z) (tx : CTransaction) (txIndex numTxs : Z) : checked unit :=
  let t := ct_tx tx in
  if tr_isKMD R && existsb (fun i => spends_banned (prevout i)) (vin t) then ReturnFalse
  else
    reject tr_STAKED R && komodo_newStakerActive 0 tiptime
           && match vout t with [_; o] => bool_decide (is_Some (DecodeStakingOpRet (scriptPubKey o))) | _ => false end
           && ((numTxs =? 0) || negb (txIndex =? numTxs - 1)) with 100 "bad-txns-stakingtx";
    do _ <- CheckTransactionWithoutProofVerification tiptime tx;
    reject_if (negb (forallb (fun d => joinsplit_Verify d (joinSplitPubKey t)) (vjoinsplit t))) 100
      "bad-txns-joinsplit-verification-failed".

(** ** [ContextualCheckTransaction] *)

(** libsodium and librustzcash: the signature of the JoinSplits, and the checker of the Sapling
    proofs with its context. *)
Context {B : Blake2b}.
Context (crypto_sign_verify : list Z -> list Z -> list Z -> bool).
Context {sapling_ctx : Type} (ctx_init : sapling_ctx).
Context (check_spend : sapling_ctx -> SpendDescription -> list Z -> sapling_ctx * bool).
Context (sapling_check_output : sapling_ctx -> OutputDescription -> sapling_ctx * bool).
Context (final_check : sapling_ctx -> Z -> list Z -> list Z -> bool).

(** The data of the second output of a timelocked coinbase. *)
Definition timelock_reveals (nHeight : Z) (scriptHash : list Z) (opretData : list Z) : checked bool :=
  match opretData with
  | ty :: opretScript =>
      if ty =? OPRETTYPE_TIMELOCK then
        if bool_decide (Hash160 opretScript = scriptHash) then
          do u <- defined (CScript.IsCheckLockTimeVerify opretScript);
          Pass (match u with Some unlocktime => tr_unlocktime R nHeight =? unlocktime | None => false end)
        else Pass false
      else Pass false
  | [] => Pass false
  end.

Definition ContextualCheckCoinbaseTransaction (t : tx) (nHeight : Z) : checked bool :=
  do valueOut <- defined (GetValueOut (tr_MAX_MONEY R) t);
  if (u64 valueOut >=? tr_TIMELOCKGTE R) || (tr_block_subsidy R nHeight >=? tr_TIMELOCKGTE R) then
    match vout t with
    | [o0; o1] =>
        if CScript.IsPayToScriptHash (scriptPubKey o0) && (size (scriptPubKey o1) >=? 7) then
          match scriptPubKey o1 with
          | op :: it =>
              if op =? opcode OP_RETURN then
                let r := CScript.GetOp2 it in
                if CScript.go_ret r
                then timelock_reveals nHeight (take 20 (drop 2 (scriptPubKey o0))) (CScript.go_data r)
                else Pass false
              else Pass false
          | [] => Pass false
          end
        else Pass false
    | _ => Pass false
    end
  else Pass true.

(** The shielded transactions that KMD forbids until the Dormancy upgrade. *)
Definition check_dormancy (t : tx) (nHeight : Z) (dormancyActive : bool) : checked unit :=
  if tr_isKMD R && tr_main R && negb dormancyActive then
    do ht <- defined (tr_vUpgrades R !! UPGRADE_DORMANCY);
    reject_if ((nHeight >=? 1226869) && (nHeight <? ht) &&
               (negb (no_shielded (vShieldedSpend t) (vShieldedOutput t)) || negb (valueBalance t =? 0))) 100
      "bad-txns-shielded-transactions-not-allowed"
  else Pass tt.

(** The formats of each epoch. *)
Definition check_epoch (t : tx) (nHeight dosLevel : Z) (overwinterActive saplingActive : bool) : checked unit :=
  let relaxed := if tr_initial_download R then 0 else dosLevel in
  do ht <- defined (tr_vUpgrades R !! UPGRADE_OVERWINTER);
  let inactive := (ht <? 0) || (nHeight <? ht) in
  reject negb overwinterActive && fOverwintered t with (if inactive then 0 else dosLevel) "tx-overwinter-not-active";
  do _ <- (if saplingActive then
    reject (nVersion t >=? SAPLING_MIN_TX_VERSION) && negb (fOverwintered t) with dosLevel "tx-overwintered-flag-not-set";
    reject fOverwintered t && negb (nVersionGroupId t =? SAPLING_VERSION_GROUP_ID) with relaxed "bad-sapling-tx-version-group-id";
    reject fOverwintered t && (nVersion t <? SAPLING_MIN_TX_VERSION) with 100 "bad-tx-sapling-version-too-low";
    reject_if (fOverwintered t && (nVersion t >? SAPLING_MAX_TX_VERSION)) 100 "bad-tx-sapling-version-too-high"
  else if overwinterActive then
    reject (nVersion t >=? OVERWINTER_MIN_TX_VERSION) && negb (fOverwintered t) with dosLevel "tx-overwinter-flag-not-set";
    reject fOverwintered t && negb (nVersionGroupId t =? OVERWINTER_VERSION_GROUP_ID) with relaxed "bad-overwinter-tx-version-group-id";
    reject_if (fOverwintered t && (nVersion t >? OVERWINTER_MAX_TX_VERSION)) 100 "bad-tx-overwinter-version-too-high"
  else Pass tt);
  do _ <- (if overwinterActive then
    reject negb (fOverwintered t) with (if tr_PRIVATE R || inactive then 0 else dosLevel) "tx-overwinter-active";
    reject_if (IsExpiredTx t nHeight)
      (if IsExpiredTx t (nHeight - 1) then Z.max dosLevel 10 else 0) "tx-overwinter-expired"
  else Pass tt);
  if negb saplingActive then
    do sz <- defined (GetSerializeSize t);
    reject_if (sz >? MAX_TX_SIZE_BEFORE_SAPLING) 100 "bad-txns-oversize"
  else Pass tt.

(** The hash signed by the shielded parts, for a branch. *)
Definition data_to_be_signed (t : tx) (branchId : Z) : checked (list Z) :=
  match SignatureHash [] t NOT_AN_INPUT SIGHASH_ALL 0 branchId None with
  | Sighash h => Pass h
  | LogicError => DoS 100 "error-computing-signature-hash"
  | Uncaught => Undefined
  end.

Definition check_joinsplit_signature (t : tx) (dataToBeSigned prevDataToBeSigned : list Z) : checked unit :=
  let relaxing := if tr_initial_download R then 0 else 10 in
  if negb (IsMint t) && negb (is_nil (vjoinsplit t)) then
    if crypto_sign_verify (joinSplitSig t) dataToBeSigned (joinSplitPubKey t) then Pass tt
    else if crypto_sign_verify (joinSplitSig t) prevDataToBeSigned (joinSplitPubKey t)
    then DoS relaxing "old-consensus-branch-id"
    else DoS relaxing "bad-txns-invalid-joinsplit-signature"
  else Pass tt.

Definition check_sapling (t : tx) (dataToBeSigned : list Z) : checked unit :=
  if no_shielded (vShieldedSpend t) (vShieldedOutput t) then Pass tt
  else
    do ctx <- each (fun ctx spend =>
      let '(ctx, ok) := check_spend ctx spend dataToBeSigned in
      reject negb ok with 100 "bad-txns-sapling-spend-description-invalid"; Pass ctx) (vShieldedSpend t) ctx_init;
    do ctx <- each (fun ctx output =>
      let '(ctx, ok) := sapling_check_output ctx output in
      reject negb ok with 100 "bad-txns-sapling-output-description-invalid"; Pass ctx) (vShieldedOutput t) ctx;
    reject_if (negb (final_check ctx (valueBalance t) (bindingSig t) dataToBeSigned)) 100
      "bad-txns-sapling-binding-signature-invalid".

Definition ContextualCheckTransaction (t : tx) (nHeight dosLevel : Z) : checked unit :=
  do overwinterActive <- defined (NetworkUpgradeActive (tr_vUpgrades R) nHeight UPGRADE_OVERWINTER);
  do saplingActive <- defined (NetworkUpgradeActive (tr_vUpgrades R) nHeight UPGRADE_SAPLING);
  do dormancyActive <- defined (NetworkUpgradeActive (tr_vUpgrades R) nHeight UPGRADE_DORMANCY);
  do _ <- check_dormancy t nHeight dormancyActive;
  do _ <- check_epoch t nHeight dosLevel overwinterActive saplingActive;
  do consensusBranchId <- defined (CurrentEpochBranchId (tr_vUpgrades R) (tr_superlite R) nHeight);
  let prevConsensusBranchId := PrevEpochBranchId (tr_superlite R) consensusBranchId in
  do hashes <- (if negb (IsMint t) && (negb (is_nil (vjoinsplit t)) || negb (no_shielded (vShieldedSpend t) (vShieldedOutput t))) then
      do h <- data_to_be_signed t consensusBranchId;
      do p <- data_to_be_signed t prevConsensusBranchId;
      Pass (h, p)
    else Pass (replicate 32 0, replicate 32 0));
  do _ <- check_joinsplit_signature t (fst hashes) (snd hashes);
  do coinbase_ok <- (if IsCoinBase t then ContextualCheckCoinbaseTransaction t nHeight else Pass true);
  reject negb coinbase_ok with 100 "bad-txns-invalid-script-data-for-coinbase-time-lock";
  check_sapling t (fst hashes).
End Chain.

(** ** Well-formed transactions *)

Section WellFormed.
Context (R : tx_rules).

Definition script_size_ok (s : script) : Prop := size s <= IGUANA_MAXSCRIPTSIZE.
Definition version_ok (t : tx) : Prop :=
  if fOverwintered t
  then OVERWINTER_MIN_TX_VERSION <= nVersion t /\ nExpiryHeight t < TX_EXPIRY_HEIGHT_THRESHOLD /\
       (nVersionGroupId t = OVERWINTER_VERSION_GROUP_ID \/ nVersionGroupId t = SAPLING_VERSION_GROUP_ID)
  else SPROUT_MIN_TX_VERSION <= nVersion t.

Definition output_ok (o : CTxOut) : Prop := 0 <= nValue o <= tr_MAX_MONEY R /\ script_size_ok (scriptPubKey o).
Definition joinsplit_ok (acpublic tiptime : Z) (d : JSDescription) : Prop :=
  acpublic = 0 /\ tiptime < KOMODO_SAPLING_DEADLINE /\
  0 <= vpub_old d <= tr_MAX_MONEY R /\ 0 <= vpub_new d <= tr_MAX_MONEY R /\ (vpub_new d = 0 \/ vpub_old d = 0).

Definition mint_ok (t : tx) : Prop :=
  if IsMint t
  then vjoinsplit t = [] /\ vShieldedSpend t = [] /\ vShieldedOutput t = [] /\
       exists i, vin t !! 0%nat = Some i /\ 2 <= size (scriptSig i) <= 100
  else Forall (fun i => OutPoint.IsNull (prevout i) = false) (vin t).

Abbreviation total l := (foldr Z.add 0 l).

Record tx_checked (tiptime : Z) (t : tx) : Prop := {
  tc_version : version_ok t;
  tc_inputs : vin t <> [] \/ vjoinsplit t <> [] \/ vShieldedSpend t <> [];
  tc_outputs : vout t <> [] \/ vjoinsplit t <> [] \/ vShieldedOutput t <> [];
  tc_size : exists b, Serialize_tx t = Some b /\ size b <= MAX_TX_SIZE_AFTER_SAPLING;
  tc_outs : Forall output_ok (vout t);
  tc_joinsplits : Forall (joinsplit_ok (komodo_acpublic R tiptime) tiptime) (vjoinsplit t);
  tc_balance : - tr_MAX_MONEY R <= valueBalance t <= tr_MAX_MONEY R;
  tc_transparent : vShieldedSpend t = [] -> vShieldedOutput t = [] -> valueBalance t = 0;
  tc_public : komodo_acpublic R tiptime = 0 \/ (vShieldedSpend t = [] /\ vShieldedOutput t = []);
  tc_out_total : total (values_out t) <= tr_MAX_MONEY R;
  tc_in_total : total (shielded_values_in t) <= tr_MAX_MONEY R;
  tc_distinct : NoDup (map prevout (vin t));
  tc_nullifiers : NoDup (concat (map nullifiers (vjoinsplit t)));
  tc_sapling_nullifiers : NoDup (map sd_nullifier (vShieldedSpend t));
  tc_mint : mint_ok t
}.

(** A loop that adds up values within the range of money. *)
Section Sums.
Context {A St : Type} (f : St -> A -> checked St) (get : St -> Z) (next : St -> A -> St).
Context (Q : A -> Prop) (v : A -> Z).
Context (v_pos : forall a, Q a -> 0 <= v a) (get_next : forall st a, get (next st a) = get st + v a).
Context (step : forall st a st', 0 <= get st <= tr_MAX_MONEY R ->
  f st a = Pass st' <-> Q a /\ get st + v a <= tr_MAX_MONEY R /\ st' = next st a).

Lemma total_pos l : Forall Q l -> 0 <= total (map v l).
Proof using v_pos. induction 1 as [|a l Ha _ IH]; cbn; [lia|]. specialize (v_pos a Ha). lia. Qed.

Lemma each_sum l : forall st st', 0 <= get st <= tr_MAX_MONEY R ->
  each f l st = Pass st' <->
  Forall Q l /\ get st + total (map v l) <= tr_MAX_MONEY R /\ st' = fold_left next l st.
Proof using v_pos get_next step.
  induction l as [|a l IH]; intros st st' Hst; cbn [each map fold_left foldr].
  - split; [intros [= <-]; split_and!; [constructor|lia|done]|by intros (_ & _ & ->)].
  - rewrite cbind_pass, list.Forall_cons. split.
    + intros (st1 & Hf & Hr). apply step in Hf as (Ha & Hm & ->); [|done]. specialize (v_pos a Ha).
      apply IH in Hr as (Hl & Hs & ->); rewrite get_next in *; [|lia]. split_and!; [done|done|lia|done].
    + intros ([Ha Hl] & Hs & ->). pose proof (total_pos l Hl). specialize (v_pos a Ha).
      exists (next st a). split; [apply step; split_and!; done || lia|]. apply IH; rewrite get_next; split_and!; done || lia.
Qed.

Lemma get_fold l : forall st, get (fold_left next l st) = get st + total (map v l).
Proof using get_next. induction l as [|a l IH]; intros st; cbn; [lia|]. rewrite IH, get_next. lia. Qed.
End Sums.

Context (M_range : 0 <= tr_MAX_MONEY R < 2 ^ 62).

Lemma money_spec v : money R v = true <-> 0 <= v <= tr_MAX_MONEY R.
Proof. apply MoneyRange_spec. Qed.
Lemma not_money v : negb (money R v) = false <-> 0 <= v <= tr_MAX_MONEY R.
Proof. by rewrite negb_false_iff, money_spec. Qed.

Lemma outputs_pass iscoinbase tiptime l n b st : tr_PRIVATE R = false -> 0 <= n <= tr_MAX_MONEY R ->
  each (check_output R iscoinbase tiptime) l (n, b) = Pass st <->
  Forall output_ok l /\ n + total (map nValue l) <= tr_MAX_MONEY R /\ st = (n + total (map nValue l), b).
Proof.
  intros Hp Hn.
  rewrite (each_sum (check_output R iscoinbase tiptime) fst (fun (st : Z * bool) o => (fst st + nValue o, snd st)) output_ok nValue); cbn [fst].
  - assert (forall st, fold_left (fun (st : Z * bool) o => (fst st + nValue o, snd st)) l st = (fst st + total (map nValue l), snd st)) as Hf.
    { induction l as [|o l IH]; intros [m c]; cbn; [by rewrite Z.add_0_r|]. rewrite IH. cbn. f_equal. lia. }
    by rewrite Hf.
  - intros o [[? ?] _]. lia.
  - intros [m c] o. done.
  - intros [m c] o st' Hm. cbn [fst snd] in *. unfold check_output. rewrite Hp. cbn [andb].
    repeat setoid_rewrite cbind_pass. repeat setoid_rewrite reject_if_pass.
    rewrite !Z.gtb_ltb. unfold output_ok, script_size_ok. split.
    + intros (_ & H1 & _ & H2 & _ & H3 & _ & H4 & [= <-]). propify. rewrite swrap_small in * by lia.
      apply money_spec in H4. split_and!; done || lia.
    + intros ([[? ?] ?] & ? & ->). rewrite swrap_small by lia.
      exists tt. split; [apply Z.ltb_ge; lia|]. exists tt. split; [apply Z.ltb_ge; lia|].
      exists tt. split; [apply Z.ltb_ge; lia|]. exists tt. split; [|done]. apply not_money. lia.
  - cbn. lia.
Qed.

Lemma joinsplits_pass ac tiptime l n c : 0 <= n <= tr_MAX_MONEY R ->
  (exists st, each (check_joinsplit R ac tiptime) l (n, c) = Pass st) <->
  Forall (joinsplit_ok ac tiptime) l /\ n + total (map vpub_old l) <= tr_MAX_MONEY R.
Proof.
  intros Hn.
  set (count := fun c d =>
    if (vpub_new d =? 0) && (vpub_old d =? 0) then {| z_z := z_z c + 1; z_t := z_t c; t_z := t_z c |}
    else if (vpub_new d =? 0) && negb (vpub_old d =? 0) then {| z_z := z_z c; z_t := z_t c; t_z := t_z c + 1 |}
    else if negb (vpub_new d =? 0) && (vpub_old d =? 0) then {| z_z := z_z c; z_t := z_t c + 1; t_z := t_z c |}
    else c).
  set (next := fun (st : Z * js_counts) d => (fst st + vpub_old d, count (snd st) d)).
  assert (forall st st', 0 <= fst st <= tr_MAX_MONEY R ->
    each (check_joinsplit R ac tiptime) l st = Pass st' <->
    Forall (joinsplit_ok ac tiptime) l /\ fst st + total (map vpub_old l) <= tr_MAX_MONEY R /\ st' = fold_left next l st) as Hsum.
  { apply (each_sum _ fst next (joinsplit_ok ac tiptime) vpub_old).
    - intros d (_ & _ & ? & _). lia.
    - done.
    - intros [m k] d st' Hm. cbn [fst snd] in *. unfold check_joinsplit, next, joinsplit_ok. cbn [fst snd].
      repeat setoid_rewrite cbind_pass. repeat setoid_rewrite reject_if_pass.
      rewrite !Z.gtb_ltb, !Z.geb_leb. split.
      + intros (_ & H1 & _ & H2 & _ & H3 & _ & H4 & _ & H5 & _ & H6 & _ & H7 & _ & H8 & [= <-]).
        apply andb_false_iff in H7. rewrite !negb_false_iff, !Z.eqb_eq in H7. propify.
        rewrite swrap_small in * by lia. apply money_spec in H8. split_and!; done || lia.
      + intros ((-> & ? & ? & ? & H7) & ? & ->). rewrite swrap_small by lia.
        exists tt. split; [done|]. exists tt. split; [apply Z.leb_gt; lia|].
        do 2 (exists tt; split; [apply Z.ltb_ge; lia|]). do 2 (exists tt; split; [apply Z.ltb_ge; lia|]).
        exists tt. split; [destruct H7 as [-> | ->]; [done|apply andb_false_r]|].
        exists tt. split; [apply not_money; lia|done]. }
  split.
  - intros [st H]. apply Hsum in H as (? & ? & _); done.
  - intros [? ?]. exists (fold_left next l (n, c)). by apply Hsum.
Qed.

Lemma values_in_pass t : valueBalance t <= tr_MAX_MONEY R ->
  check_values_in R t = Pass tt <->
  Forall (fun d => 0 <= vpub_new d <= tr_MAX_MONEY R) (vjoinsplit t) /\ total (shielded_values_in t) <= tr_MAX_MONEY R.
Proof.
  intros Hb. unfold check_values_in, shielded_values_in. rewrite foldr_app.
  rewrite cbind_pass.
  assert (forall n, each (fun nValueIn d =>
      let nValueIn := i64 (nValueIn + vpub_new d) in
      cbind (reject_if (negb (money R (vpub_new d)) || negb (money R nValueIn)) 100 "bad-txns-txintotal-toolarge") (fun _ => Pass nValueIn))
      (vjoinsplit t) 0 = Pass n <->
    Forall (fun d => 0 <= vpub_new d <= tr_MAX_MONEY R) (vjoinsplit t) /\
    0 + total (map vpub_new (vjoinsplit t)) <= tr_MAX_MONEY R /\ n = fold_left (fun n d => n + vpub_new d) (vjoinsplit t) 0) as Hs.
  { intros n. apply (each_sum _ (fun n => n)); [by intros ? [? _]|done| |lia].
    clear n. intros n d n' Hn. cbv zeta. rewrite cbind_pass. setoid_rewrite reject_if_pass. split.
    - intros (_ & H & [= <-]). apply orb_false_iff in H as [H1 H2]. apply not_money in H1.
      rewrite swrap_small in * by lia. apply not_money in H2. split_and!; done || lia.
    - intros (Hd & H & ->). rewrite swrap_small by lia. exists tt. split; [|done].
      apply orb_false_iff. split; apply not_money; lia. }
  setoid_rewrite Hs. clear Hs.
  assert (fold_left (fun n d => n + vpub_new d) (vjoinsplit t) 0 = total (map vpub_new (vjoinsplit t))) as Hf.
  { rewrite (get_fold (fun n => n) (fun n d => n + vpub_new d) vpub_new); [lia|done]. }
  pose proof (total_pos (fun d => 0 <= vpub_new d <= tr_MAX_MONEY R) vpub_new ltac:(by intros ? [? _]) (vjoinsplit t)) as Hpos.
  set (T := total (map vpub_new (vjoinsplit t))) in *. clearbody T.
  assert (foldr Z.add T (if valueBalance t >=? 0 then [valueBalance t] else []) =
          (if valueBalance t >=? 0 then valueBalance t + T else T)) as -> by (by destruct (_ >=? _)).
  rewrite Z.geb_leb. destruct (Z.leb_spec 0 (valueBalance t)).
  - setoid_rewrite reject_if_pass. setoid_rewrite not_money. split.
    + intros (n & (Hd & Ht & ->) & H'). rewrite Hf in H'. specialize (Hpos Hd). split; [done|]. rewrite swrap_small in H'; lia.
    + intros [Hd Ht]. specialize (Hpos Hd). exists T. rewrite swrap_small by lia. split_and!; done || lia.
  - split; [by intros (n & (Hd & Ht & _) & _)|]. intros [Hd Ht]. exists T. split_and!; done || lia.
Qed.

Lemma distinct_pass {A} `{!EqDecision A} reason (l : list A) :
  (exists seen, check_distinct reason l = Pass seen) <-> NoDup l.
Proof.
  unfold check_distinct.
  assert (forall seen, NoDup seen ->
    (exists r, each (fun seen a => cbind (reject_if (bool_decide (a ∈ seen)) 100 reason) (fun _ => Pass (a :: seen))) l seen = Pass r)
    <-> NoDup (l ++ seen)) as H.
  { induction l as [|a l IH]; intros seen Hs; cbn [each app]; [split; [done|by eexists]|].
    setoid_rewrite cbind_pass. setoid_rewrite cbind_pass. setoid_rewrite reject_if_pass.
    rewrite list.NoDup_cons, not_elem_of_app. split.
    - intros (r & s' & (_ & Hb & [= <-]) & Hr). propify.
      assert (NoDup (a :: seen)) as Hs' by by constructor.
      apply (ex_intro (fun r => _ = Pass r)) in Hr. apply IH in Hr; [|done].
      apply NoDup_app in Hr as (Hl & Hd & _). split; [split; [intros Hi; by apply (Hd a Hi), list_elem_of_here|done]|].
      apply NoDup_app. split_and!; [done| |done]. intros x Hx Hx'. apply (Hd x Hx). by right.
    - intros [[Ha Hb] Hn]. apply NoDup_app in Hn as (Hl & Hd & _).
      destruct (proj2 (IH (a :: seen) ltac:(by constructor))) as [r Hr].
      + apply NoDup_app. split_and!; [done| |by constructor]. intros x Hx [->|Hx']%elem_of_cons; [done|by apply (Hd x Hx)].
      + exists r, (a :: seen). split; [|done]. exists tt. split; [by apply bool_decide_eq_false|done]. }
  rewrite H by constructor. by rewrite app_nil_r.
Qed.

Lemma version_pass t : check_version t = Pass tt <-> version_ok t.
Proof.
  unfold check_version, version_ok. destruct (fOverwintered t); cbn [negb andb].
  - repeat setoid_rewrite cbind_pass. repeat setoid_rewrite reject_if_pass. rewrite Z.geb_leb. split.
    + intros (_ & H1 & _ & H2 & H3). propify. apply andb_false_iff in H2. rewrite !negb_false_iff, !Z.eqb_eq in H2.
      split_and!; done || lia.
    + intros (? & ? & H). exists tt. split; [apply Z.ltb_ge; lia|]. exists tt. split; [|apply Z.leb_gt; lia].
      apply andb_false_iff. by rewrite !negb_false_iff, !Z.eqb_eq.
  - destruct (Z.ltb_spec (nVersion t) SPROUT_MIN_TX_VERSION); split; done || lia.
Qed.

Lemma empty_true {A} (l : list A) : is_nil l = true <-> l = [].
Proof. by destruct l. Qed.
Lemma empty_false {A} (l : list A) : negb (is_nil l) = false <-> l = [].
Proof. by destruct l. Qed.
Lemma one_nonempty {A B C} (a : list A) (b : list B) (c : list C) :
  is_nil a && is_nil b && is_nil c = false <-> a <> [] \/ b <> [] \/ c <> [].
Proof. destruct a, b, c; cbn; split; auto; by intros [?|[?|?]]. Qed.

Lemma mint_pass t : check_mint t = Pass tt <-> mint_ok t.
Proof.
  unfold check_mint, mint_ok. destruct (IsMint t).
  - repeat setoid_rewrite cbind_pass. repeat setoid_rewrite reject_if_pass. repeat setoid_rewrite empty_false. split.
    + intros (_ & ? & _ & ? & _ & ? & i & Hi & H). destruct (vin t !! 0%nat) as [i'|]; [|done]. injection Hi as <-.
      rewrite Z.gtb_ltb in H. propify. split_and!; try done. exists i'. split; [done|lia].
    + intros (? & ? & ? & i & Hi & H). exists tt. split; [done|]. exists tt. split; [done|]. exists tt. split; [done|].
      exists i. rewrite Hi. split; [done|]. rewrite Z.gtb_ltb. apply orb_false_iff. split; apply Z.ltb_ge; lia.
  - rewrite reject_if_pass. split.
    + intros H. apply list.Forall_forall. intros i Hi. destruct (OutPoint.IsNull (prevout i)) eqn:E; [|done].
      rewrite <- not_true_iff_false in H. exfalso. apply H, List.existsb_exists. exists i. by rewrite <- list_elem_of_In.
    + intros H. apply not_true_iff_false. intros (i & Hi & E)%List.existsb_exists.
      rewrite list.Forall_forall in H. apply list_elem_of_In, H in Hi. congruence.
Qed.

Lemma no_shielded_true {A B} (l : list A) (k : list B) : no_shielded l k = true <-> l = [] /\ k = [].
Proof. destruct l, k; cbn; split; done || by intros [? ?]. Qed.

Lemma shielded_balance t :
  no_shielded (vShieldedSpend t) (vShieldedOutput t) && negb (valueBalance t =? 0) = false <->
  (vShieldedSpend t = [] -> vShieldedOutput t = [] -> valueBalance t = 0).
Proof.
  rewrite andb_false_iff, negb_false_iff, Z.eqb_eq, <- not_true_iff_false, no_shielded_true. split.
  - intros [H|H] ? ?; [exfalso; auto|done].
  - intros H. destruct (decide (valueBalance t = 0)); [by right|]. left. intros [? ?]. auto.
Qed.

Lemma shielded_public t ac :
  negb (ac =? 0) && negb (no_shielded (vShieldedSpend t) (vShieldedOutput t)) = false <->
  ac = 0 \/ (vShieldedSpend t = [] /\ vShieldedOutput t = []).
Proof. by rewrite andb_false_iff, !negb_false_iff, Z.eqb_eq, no_shielded_true. Qed.

Lemma balance_range t :
  (valueBalance t >? tr_MAX_MONEY R) || (valueBalance t <? - tr_MAX_MONEY R) = false <->
  - tr_MAX_MONEY R <= valueBalance t <= tr_MAX_MONEY R.
Proof. rewrite orb_false_iff, Z.gtb_ltb, !Z.ltb_ge. lia. Qed.

(** The value taken out by a negative balance. *)
Definition taken (t : tx) : Z := if valueBalance t <=? 0 then - valueBalance t else 0.

Lemma values_out_total t :
  total (values_out t) = total (map nValue (vout t)) + taken t + total (map vpub_old (vjoinsplit t)).
Proof.
  assert (forall l k, total (l ++ k) = total l + total k) as Ha by (induction l as [|x l IH]; intros k; cbn; [done|]; rewrite IH; lia).
  unfold values_out, taken. rewrite !Ha. destruct (valueBalance t <=? 0); cbn; lia.
Qed.

(** The running total of the outputs after the balance. *)
Lemma balance_step t n : 0 <= n <= tr_MAX_MONEY R -> - tr_MAX_MONEY R <= valueBalance t <= tr_MAX_MONEY R ->
  let n' := if valueBalance t <=? 0 then i64 (n + - valueBalance t) else n in
  n' = n + taken t /\ ((valueBalance t <=? 0) && negb (money R n') = false <-> n + taken t <= tr_MAX_MONEY R).
Proof.
  intros Hn Hb n'. unfold n', taken. destruct (Z.leb_spec (valueBalance t) 0).
  - rewrite swrap_small by lia. split; [done|]. cbn [andb]. rewrite not_money. lia.
  - split; [lia|]. cbn [andb]. split; [lia|done].
Qed.

Section Public.
Context (tiptime : Z) (tx : CTransaction) (Hp : tr_PRIVATE R = false) (Htp : tr_TXPOW R = 0).

Lemma checked_is_wellformed :
  CheckTransactionWithoutProofVerification R tiptime tx = Pass tt -> tx_checked tiptime (ct_tx tx).
Proof using M_range Hp Htp.
  set (t := ct_tx tx). unfold CheckTransactionWithoutProofVerification, check_private. fold t.
  rewrite Hp, Htp. cbn [negb andb Z.eqb]. pose proof (values_out_total t) as Eo.
  intros H.
  apply cbind_pass in H as ([] & Hv%version_pass & H).
  apply reject_bind in H as [Hi%one_nonempty H]. apply reject_bind in H as [Ho%one_nonempty H].
  apply cbind_pass in H as (sz & Hsz & H). apply reject_bind in H as [Hle H].
  apply cbind_pass in H as (st & Hout & H). apply outputs_pass in Hout as (Hout & Hsum & ->); [|done|lia].
  apply reject_bind in H as [Hb H]. rewrite shielded_balance in Hb. apply reject_bind in H as [Hpub%shielded_public H].
  cbn [cbind] in H. apply reject_bind in H as [Hbal%balance_range H]. apply reject_bind in H as [Htot H].
  assert (0 <= total (map nValue (vout t))) by (apply (total_pos output_ok nValue); [by intros ? [[? ?] ?]|done]).
  destruct (balance_step t (0 + total (map nValue (vout t))) ltac:(lia) Hbal) as [En Htk].
  apply Htk in Htot. rewrite En in H. clear Htk En. apply cbind_pass in H as ([n c] & Hjs & H).
  apply (ex_intro (fun st => _ = Pass st)) in Hjs. apply joinsplits_pass in Hjs as [Hjs Hold]; [|unfold taken in *; case_Z; lia].
  cbn [reject_if cbind] in H. apply cbind_pass in H as ([] & Hin & H). apply values_in_pass in Hin as [_ Hin]; [|lia].
  apply cbind_pass in H as (s1 & Hd1 & H). apply cbind_pass in H as (s2 & Hd2 & H). apply cbind_pass in H as (s3 & Hd3 & H).
  apply (ex_intro (fun r => _ = Pass r)), distinct_pass in Hd1, Hd2, Hd3. apply mint_pass in H.
  constructor; try done; [|lia].
  unfold GetSerializeSize in Hsz. destruct (Serialize_tx t) as [b|]; [|done]. injection Hsz as <-. exists b.
  rewrite Z.gtb_ltb in Hle. split; [done|by apply Z.ltb_ge].
Qed.

Lemma wellformed_is_checked :
  tx_checked tiptime (ct_tx tx) -> CheckTransactionWithoutProofVerification R tiptime tx = Pass tt.
Proof using M_range Hp Htp.
  set (t := ct_tx tx). unfold CheckTransactionWithoutProofVerification, check_private. fold t.
  rewrite Hp, Htp. cbn [negb andb Z.eqb]. pose proof (values_out_total t) as Eo.
  intros [Hv Hi Ho (b & Hs & Hsz) Hout Hjs Hbal Hb Hpub Htot Hin Hd1 Hd2 Hd3 Hm]. rewrite Eo in Htot.
  assert (0 <= total (map nValue (vout t))) by (apply (total_pos output_ok nValue); [by intros ? [[? ?] ?]|done]).
  assert (0 <= total (map vpub_old (vjoinsplit t))).
  { apply (total_pos (joinsplit_ok (komodo_acpublic R tiptime) tiptime) vpub_old); [|done]. intros d (_ & _ & ? & _). lia. }
  assert (0 <= taken t) by (unfold taken; case_Z; lia).
  apply cbind_pass. exists tt. split; [by apply version_pass|].
  apply reject_bind. split; [by apply one_nonempty|]. apply reject_bind. split; [by apply one_nonempty|].
  apply cbind_pass. exists (size b). split; [unfold GetSerializeSize; by rewrite Hs|].
  apply reject_bind. split; [rewrite Z.gtb_ltb; by apply Z.ltb_ge|].
  apply cbind_pass. eexists. split; [apply outputs_pass; [done|lia|split_and!; [done|lia|reflexivity]]|].
  apply reject_bind. split; [by apply shielded_balance|]. apply reject_bind. split; [by apply shielded_public|].
  cbn [cbind]. apply reject_bind. split; [by apply balance_range|].
  destruct (balance_step t (0 + total (map nValue (vout t))) ltac:(lia) Hbal) as [En Htk].
  apply reject_bind. split; [apply Htk; lia|]. rewrite En.
  destruct (proj2 (joinsplits_pass (komodo_acpublic R tiptime) tiptime (vjoinsplit t)
    (0 + total (map nValue (vout t)) + taken t) {| z_z := 0; z_t := 0; t_z := 0 |} ltac:(lia)))
    as [[n c] Ej]; [split; [done|lia]|].
  apply cbind_pass. exists (n, c). split; [done|]. cbn [reject_if cbind].
  apply cbind_pass. exists tt. split.
  { apply values_in_pass; [lia|]. split; [|done]. eapply list.Forall_impl; [exact Hjs|]. by intros d (_ & _ & _ & ? & _). }
  apply cbind_pass. destruct (proj2 (distinct_pass "bad-txns-inputs-duplicate" _) Hd1) as [s1 E1]. exists s1. split; [done|].
  apply cbind_pass. destruct (proj2 (distinct_pass "bad-joinsplits-nullifiers-duplicate" _) Hd2) as [s2 E2].
  exists s2. split; [done|].
  apply cbind_pass. destruct (proj2 (distinct_pass "bad-spend-description-nullifiers-duplicate" _) Hd3) as [s3 E3].
  exists s3. split; [done|]. by apply mint_pass.
Qed.
End Public.

(** [C6] Which transactions pass the checks that need no coins, on a chain that is not private and
    has no proof of work on transactions: exactly the well-formed ones.  Version, size and scripts
    are within the limits, every amount is in the range of money and so are the totals that go out
    and that shielded parts bring in (nothing overflows), no input and no nullifier occurs twice,
    a mint has no shielded part, and no other transaction has a null input. *)
Theorem CheckTransaction_wellformed tiptime tx :
  tr_PRIVATE R = false -> tr_TXPOW R = 0 ->
  CheckTransactionWithoutProofVerification R tiptime tx = Pass tt <-> tx_checked tiptime (ct_tx tx).
Proof. intros Hp Htp. split; [by apply checked_is_wellformed|by apply wellformed_is_checked]. Qed.

(** What passes does not make the sums of values throw: they are the totals. *)
Lemma checked_values tiptime t : tx_checked tiptime t ->
  GetValueOut (tr_MAX_MONEY R) t = Some (total (values_out t)) /\
  GetShieldedValueIn (tr_MAX_MONEY R) t = Some (total (shielded_values_in t)).
Proof.
  intros [_ _ _ _ Hout Hjs Hbal _ _ Htot Hin _ _ _ _].
  destruct (value_sums_checked (tr_MAX_MONEY R) t) as [-> ->]; unfold sint_wf; [done|..|lia|].
  - eapply list.Forall_impl; [exact Hout|]. intros o [? _]. lia.
  - eapply list.Forall_impl; [exact Hjs|]. intros d (_ & _ & ? & ? & _). lia.
  - assert (forall l, Forall (fun v => 0 <= v <= tr_MAX_MONEY R) l -> forallb (MoneyRange (tr_MAX_MONEY R)) l = true) as Hf.
    { intros l Hl. apply List.forallb_forall. intros v Hv. rewrite list.Forall_forall in Hl. by apply MoneyRange_spec, Hl, list_elem_of_In. }
    assert (Forall (fun v => 0 <= v <= tr_MAX_MONEY R) (values_out t)) as H1.
    { unfold values_out. rewrite !Forall_app, !list.Forall_fmap. split_and!.
      - eapply list.Forall_impl; [exact Hout|]. by intros o [? _].
      - case_Z; repeat constructor; lia.
      - eapply list.Forall_impl; [exact Hjs|]. by intros d (_ & _ & ? & _). }
    assert (Forall (fun v => 0 <= v <= tr_MAX_MONEY R) (shielded_values_in t)) as H2.
    { unfold shielded_values_in. rewrite Forall_app, list.Forall_fmap, Z.geb_leb. split.
      - case_Z; repeat constructor; lia.
      - eapply list.Forall_impl; [exact Hjs|]. by intros d (_ & _ & _ & ? & _). }
    unfold checked_sum. rewrite !Hf by done. cbn [andb]. by do 2 (case_Z; [|lia]).
Qed.
End WellFormed.

(** ** The format of each epoch *)

Section Epoch.
Context (R : tx_rules) {B : Blake2b} (verify : list Z -> list Z -> list Z -> bool).
Context {ctx : Type} (init : ctx) (spend : ctx -> SpendDescription -> list Z -> ctx * bool).
Context (output : ctx -> OutputDescription -> ctx * bool) (final : ctx -> Z -> list Z -> list Z -> bool).
Abbreviation contextual_check := (ContextualCheckTransaction R verify init spend output final).
Abbreviation active h i := (NetworkUpgradeActive (tr_vUpgrades R) h i).

Lemma check_epoch_format t h dosLevel overwinter sapling :
  check_epoch R t h dosLevel overwinter sapling = Pass tt -> check_version t = Pass tt ->
  fOverwintered t = overwinter /\
  (overwinter = true -> (if sapling then isSaplingV4 t else isOverwinterV3 t) = true /\ IsExpiredTx t h = false).
Proof.
  unfold check_epoch, isSaplingV4, isOverwinterV3, is_v4, is_v3. intros H Hv. apply version_pass in Hv. unfold version_ok in Hv.
  apply cbind_pass in H as (ht & _ & H). apply reject_bind in H as [H1 H].
  apply cbind_pass in H as ([] & Hf & H). apply cbind_pass in H as ([] & He & _).
  destruct overwinter; [|split; [by destruct (fOverwintered t)|done]].
  apply reject_bind in He as [Ho%negb_false_iff Hx%reject_if_pass]. rewrite Ho in *.
  split; [done|]. intros _. split; [|done]. cbn [negb andb] in *.
  destruct sapling; repeat (apply reject_bind in Hf as [? Hf]); apply reject_if_pass in Hf; propify;
    unfold SAPLING_MAX_TX_VERSION, OVERWINTER_MAX_TX_VERSION, SAPLING_MIN_TX_VERSION, OVERWINTER_MIN_TX_VERSION in *;
    apply andb_true_iff; rewrite !Z.eqb_eq; unfold SAPLING_TX_VERSION, OVERWINTER_TX_VERSION; split; lia.
Qed.

(** [C12] The rules of each epoch fix the format of its transactions: a transaction that passes the
    checks at a height has the format of the epoch there (plain, Overwinter or Sapling) and from
    Overwinter on has not expired; so if it passes at two heights, the same upgrades are active at
    both, and no transaction can be replayed across the activation of a format. *)
Theorem checks_fix_format t h h' dosLevel dosLevel' :
  check_version t = Pass tt ->
  contextual_check t h dosLevel = Pass tt -> contextual_check t h' dosLevel' = Pass tt ->
  active h UPGRADE_OVERWINTER = Some (fOverwintered t) /\
  (fOverwintered t = true ->
     active h UPGRADE_SAPLING = Some (isSaplingV4 t) /\ isOverwinterV3 t = negb (isSaplingV4 t) /\ IsExpiredTx t h = false) /\
  active h' UPGRADE_OVERWINTER = active h UPGRADE_OVERWINTER /\
  (fOverwintered t = true -> active h' UPGRADE_SAPLING = active h UPGRADE_SAPLING).
Proof.
  intros Hv H H'.
  assert (forall h dosLevel, contextual_check t h dosLevel = Pass tt ->
    active h UPGRADE_OVERWINTER = Some (fOverwintered t) /\
    (fOverwintered t = true ->
     active h UPGRADE_SAPLING = Some (isSaplingV4 t) /\ isOverwinterV3 t = negb (isSaplingV4 t) /\ IsExpiredTx t h = false)) as Hone.
  { clear H H'. intros k d H. unfold ContextualCheckTransaction in H.
    apply cbind_pass in H as (ow & Eo & H). apply cbind_pass in H as (sp & Es & H). apply cbind_pass in H as (dm & _ & H).
    apply cbind_pass in H as ([] & _ & H). apply cbind_pass in H as ([] & He & _).
    destruct (check_epoch_format t k d ow sp He Hv) as [<- Hf].
    destruct (active k UPGRADE_OVERWINTER); [|done]. destruct (active k UPGRADE_SAPLING); [|done].
    injection Eo as ->. injection Es as ->. split; [done|]. intros Ho. destruct (Hf Ho) as [Hfmt Hx].
    unfold isSaplingV4, isOverwinterV3, is_v4, is_v3 in *. rewrite Ho in *. cbn [andb] in *.
    destruct sp; apply andb_true_iff in Hfmt as [Hg Hn]; rewrite Z.eqb_eq in Hg, Hn; rewrite Hg, Hn; done. }
  destruct (Hone h dosLevel H) as [E1 F1]. destruct (Hone h' dosLevel' H') as [E2 F2].
  split; [done|]. split; [done|]. split; [congruence|]. intros Ho. destruct (F1 Ho) as [-> _]. by destruct (F2 Ho) as [-> _].
Qed.
End Epoch.

(** ** Examples *)

Definition kmd_rules : tx_rules := {|
  tr_isKMD := true; tr_isZEX := false; tr_main := true; tr_MAX_MONEY := 200000000 * COIN; tr_PUBLIC := 0;
  tr_PRIVATE := false; tr_TXPOW := 0; tr_STAKED := false; tr_TIMELOCKGTE := 2 ^ 64 - 1; tr_tiptime := None;
  tr_heightstamp := fun _ => 0; tr_isnotaryvout := fun _ _ => false; tr_unlocktime := fun _ => 0;
  tr_block_subsidy := fun _ => 3 * COIN; tr_vUpgrades := [0; -1; 500; 800; -1]; tr_superlite := false;
  tr_initial_download := false |}.

(** A Sapling transaction that spends one output and pays one. *)
Definition plain_tx : tx := {|
  fOverwintered := true; nVersion := 4; nVersionGroupId := SAPLING_VERSION_GROUP_ID;
  vin := [{| prevout := {| op_hash := replicate 32 7; op_n := 1 |}; scriptSig := [81]; nSequence := UINT32_MAX |}];
  vout := [{| nValue := 5 * COIN; scriptPubKey := [81] |}];
  nLockTime := 0; nExpiryHeight := 0; valueBalance := 0; vShieldedSpend := []; vShieldedOutput := []; vjoinsplit := [];
  joinSplitPubKey := replicate 32 0; joinSplitSig := replicate 64 0; bindingSig := replicate 64 0 |}.
Definition plain_ctx : CTransaction := {| ct_tx := plain_tx; ct_hash := replicate 32 9 |}.

Lemma CheckTransaction_wellformed_witness : tx_checked kmd_rules 1600000000 plain_tx.
Proof.
  refine (proj1 (CheckTransaction_wellformed kmd_rules _ 1600000000 plain_ctx eq_refl eq_refl) _).
  - split; [discriminate|reflexivity].
  - vm_compute. reflexivity.
Defined.

Lemma checks_fix_format_witness :
  NetworkUpgradeActive (tr_vUpgrades kmd_rules) 1000 UPGRADE_SAPLING = Some (isSaplingV4 plain_tx) /\
  NetworkUpgradeActive (tr_vUpgrades kmd_rules) 900 UPGRADE_SAPLING = NetworkUpgradeActive (tr_vUpgrades kmd_rules) 1000 UPGRADE_SAPLING.
Proof.
  destruct (@checks_fix_format kmd_rules (fun _ _ => replicate 32 0) (fun _ _ _ => true) unit tt (fun c _ _ => (c, true))
    (fun c _ => (c, true)) (fun _ _ _ _ => true) plain_tx 1000 900 100 100) as (_ & H & _ & H');
    [vm_compute; reflexivity..|].
  split; [by destruct (H eq_refl)|exact (H' eq_refl)].
Defined.
