(* ===== verification/Headers.v ===== *)
(** * Headers: the acceptance of block headers ([src/src/main.cpp])
    [CheckBlockHeader], [ContextualCheckBlockHeader], [AcceptBlockHeader] and the loop over the
    message [headers], with the lock-in checkpoints of [checkpoints.cpp] and [komodo_checkpoint] of
    [komodo_bitcoind.cpp].  The objects are those of [Chain]; the notarisations those of
    [Checkpoints].  The clock and the check of the Equihash solution are given.  The theorem says
    that no message of headers brings an object at or below the last notarised height. *)
From Stdlib Require Import String.
From stdpp Require Import gmap.
From S2P Require Import Prelude Verdict Uint256 Hash Checkpoints Block Chain Pow.

(** The chain, its options and the clock. *)
Record header_rules := {
  h_isKMD : bool;
  h_now : Z;                              (** [GetTime()] *)
  h_solution_ok : CBlockHeader -> bool;   (** [CheckEquihashSolution] *)
  h_genesis : list Z;                     (** [hashGenesisBlock] *)
  h_pow : pow_params;
  h_MaxFutureBlockTime : Z;
  h_fCheckpointsEnabled : bool;
  h_mapCheckpoints : list (Z * list Z);   (** [mapCheckpoints], by ascending height *)
  h_CC : Z                                (** [ASSETCHAINS_CC] *)
}.

Definition MIN_BLOCK_VERSION : Z := 4.

(** ** Lock-in checkpoints ([checkpoints.cpp]) *)

Module LockIn.
(** [Checkpoints::CheckBlock] *)
Definition CheckBlock (checkpoints : list (Z * list Z)) (nHeight : Z) (hash : list Z) : bool :=
  match List.find (fun i => fst i =? nHeight) checkpoints with
  | None => true
  | Some i => base_blob.eq hash (snd i)
  end.

Definition GetTotalBlocksEstimate (checkpoints : list (Z * list Z)) : Z :=
  match checkpoints with [] => 0 | _ => fst (List.last checkpoints (0, [])) end.

(** The newest checkpoint whose block is in the index; its pointer may be NULL. *)
Definition GetLastCheckpoint (I : BlockIndex) (checkpoints : list (Z * list Z)) : option ptr :=
  match List.find (fun i => bool_decide (is_Some (mapBlockIndex I !! snd i))) (rev checkpoints) with
  | Some i => mjoin (mapBlockIndex I !! snd i)
  | None => None
  end.
End LockIn.

(** ** Checks that search the notarisations
    [NotarizedData] leaves a cached position in the state, also when the check fails. *)
Definition searching (A : Type) := komodo_state -> komodo_state * checked A.

Definition lift {A} (m : checked A) : searching A := fun sp => (sp, m).
Definition sbind {A B} (m : searching A) (f : A -> searching B) : searching B := fun sp =>
  let '(sp, v) := m sp in
  match v with
  | Pass a => f a sp
  | DoS l r => (sp, DoS l r)
  | ReturnFalse => (sp, ReturnFalse)
  | Undefined => (sp, Undefined)
  end.
Notation "'then_' x '<-' m ';' k" := (sbind m (fun x => k)) (at level 10, x name, m at level 100, k at level 200).

Section Headers.
Context (H : header_rules) (chainActive : CChain).

(** ** [CheckBlockHeader] *)

(** The value of [*futureblockp], which is always written, and the verdict. *)
Definition CheckBlockHeader (height : Z) (blockhdr : CBlockHeader) (fCheckPOW : bool) : bool * checked unit :=
  let rest :=
    reject (height >? 0) && (bh_nVersion blockhdr <? MIN_BLOCK_VERSION) with 100 "version-too-low";
    reject_if (fCheckPOW && negb (h_solution_ok H blockhdr)) 100 "invalid-solution" in
  if ASSETCHAINS_ADAPTIVEPOW (h_pow H) >? 0 then
    if bh_nTime blockhdr >? h_now H + 4 then (false, ReturnFalse) else (false, rest)
  else if bh_nTime blockhdr >? h_now H + 60 then (bh_nTime blockhdr <? h_now H + 300, ReturnFalse)
  else (false, rest).

(** ** [komodo_checkpoint] *)

Definition komodo_checkpoint (I : BlockIndex) (nHeight : Z) (hash : list Z) : searching bool := fun sp =>
  match Tip chainActive with
  | None => (sp, Pass false)
  | Some tip =>
      match blocks I !! tip with
      | None => (sp, Undefined)
      | Some pindex =>
          let '((notarized_height, notarized_hash, _), sp) := NotarizedData sp (Chain.nHeight pindex) in
          (sp,
           if (notarized_height >=? 0) && (notarized_height <=? Chain.nHeight pindex) then
             match mapBlockIndex I !! notarized_hash with
             | Some (Some q) =>
                 do notary <- defined (blocks I !! q);
                 Pass (if Chain.nHeight notary =? notarized_height then
                         if nHeight <? notarized_height then false
                         else if (nHeight =? notarized_height) && negb (bool_decide (hash = notarized_hash)) then false
                         else true
                       else true)
             | _ => Pass true
             end
           else Pass true)
      end
  end.

(** ** [ContextualCheckBlockHeader] *)

(** Whether the active chain has the block of that hash at the height. *)
Definition on_chain (I : BlockIndex) (nHeight : Z) (hash : list Z) : checked bool :=
  match chain_at chainActive nHeight with
  | None => Pass false
  | Some p => do b <- defined (blocks I !! p); Pass (bool_decide (phashBlock b = Some hash))
  end.

(** The height of the tip. *)
Definition tip_height (I : BlockIndex) : checked (option Z) :=
  match Tip chainActive with
  | None => Pass None
  | Some p => do b <- defined (blocks I !! p); Pass (Some (Chain.nHeight b))
  end.

(** The checks against checkpoints and notarisations: the outcome [false] is a [return true] of the
    function before its last check. *)
Definition below_last_checkpoint (I : BlockIndex) (nHeight : Z) : checked bool :=
  match LockIn.GetLastCheckpoint I (h_mapCheckpoints H) with
  | Some c => do b <- defined (blocks I !! c); Pass (nHeight <? Chain.nHeight b)
  | None => Pass false
  end.
Definition known_or_reject (I : BlockIndex) (nHeight : Z) (hash : list Z) : checked bool :=
  do known <- on_chain I nHeight hash; if known then Pass false else DoS 1 "".

Definition check_checkpoints (I : BlockIndex) (nHeight : Z) (hash : list Z) : searching bool :=
  if h_fCheckpointsEnabled H then
    then_ _ <- lift (reject_if (negb (LockIn.CheckBlock (h_mapCheckpoints H) nHeight hash)) 100 "checkpoint mismatch");
    then_ tip <- lift (tip_height I);
    if (nHeight =? 1) && match tip with Some h => h >? 1 | None => false end then lift (known_or_reject I nHeight hash)
    else if negb (nHeight =? 0) then
      then_ old <- lift (below_last_checkpoint I nHeight);
      then_ _ <- lift (reject_if old 1 "");
      then_ ok <- komodo_checkpoint I nHeight hash;
      if ok then lift (Pass true) else lift (known_or_reject I nHeight hash)
    else lift (Pass true)
  else lift (Pass true).

(** The checks that do not look at the checkpoints; they give the height. *)
Definition check_work_and_time (I : BlockIndex) (block : CBlockHeader) (pindexPrev : option ptr) : checked Z :=
  do prev <- defined pindexPrev;
  do p <- defined (blocks I !! prev);
  let nHeight := Chain.nHeight p + 1 in
  do bad <- (if negb (h_isKMD H) || (nHeight <? 235300) || (nHeight >? 236000) then
      do nBits <- defined (GetNextWorkRequired I (h_pow H) (Some prev) (Some (bh_nTime block)));
      Pass (negb (bh_nBits block =? nBits))
    else Pass false);
  reject bad with 100 "bad-diffbits";
  do early <- (if (ASSETCHAINS_ADAPTIVEPOW (h_pow H) <=? 0) || (nHeight <? 30) then
      do mtp <- defined (GetMedianTimePast I prev); Pass (bh_nTime block <=? mtp)
    else Pass (bh_nTime block <=? bi_nTime p));
  reject early with 0 "time-too-old";
  reject bh_nTime block >? h_now H + h_MaxFutureBlockTime H with 0 "time-too-new";
  Pass nHeight.

Definition ContextualCheckBlockHeader (I : BlockIndex) (block : CBlockHeader) (pindexPrev : option ptr) : searching unit :=
  let hash := header_GetHash block in
  if base_blob.eq hash (h_genesis H) then lift (Pass tt)
  else
    then_ nHeight <- lift (check_work_and_time I block pindexPrev);
    then_ last_check <- check_checkpoints I nHeight hash;
    lift (reject_if (last_check && (bh_nVersion block <? 4)) 0 "bad-version").

(** ** [AcceptBlockHeader] *)

Definition with_map (I : BlockIndex) (hash : list Z) (p : option ptr) : BlockIndex :=
  {| blocks := blocks I; mapBlockIndex := <[hash := p]> (mapBlockIndex I); pindexBestHeader := pindexBestHeader I;
     setDirtyBlockIndex := setDirtyBlockIndex I |}.
Definition with_block (I : BlockIndex) (p : ptr) (b : CBlockIndex) : BlockIndex :=
  {| blocks := <[p := b]> (blocks I); mapBlockIndex := mapBlockIndex I; pindexBestHeader := pindexBestHeader I;
     setDirtyBlockIndex := setDirtyBlockIndex I |}.

(** What a call leaves: the index, the notarisations, [*futureblockp], [*ppindex] and the verdict. *)
Record accepted := Accepted { a_index : BlockIndex; a_sp : komodo_state; a_future : bool; a_pindex : option ptr; a_verdict : checked unit }.

Definition failed (b : CBlockIndex) : bool := negb (Z.land (nStatus b) BLOCK_FAILED_MASK =? 0).

(** A header whose hash is in the map, with its pointer: no check is made. *)
Definition known_header (I : BlockIndex) (sp : komodo_state) (hash : list Z) (entry : option ptr) (block : CBlockHeader)
    (future : bool) (ppindex : option ptr) : accepted :=
  match (match entry with
         | Some p => Some (Some p, I)
         | None => match AddToBlockIndex I block with Some (r, I') => Some (r, with_map I' hash r) | None => None end
         end) with
  | None => Accepted I sp future ppindex Undefined
  | Some (None, J) => Accepted J sp future None (Pass tt)
  | Some (Some p, J) =>
      match blocks J !! p with
      | None => Accepted J sp future (Some p) Undefined
      | Some b =>
          if failed b then
            if h_CC H =? 0 then Accepted J sp future (Some p) (DoS 0 "duplicate")
            else Accepted (with_block J p (with_status b (Z.land (nStatus b) (Z.lnot BLOCK_FAILED_MASK)))) sp future
                   (Some p) (Pass tt)
          else Accepted J sp future (Some p) (Pass tt)
      end
  end.

(** The parent of a new header. *)
Definition parent_checked (I : BlockIndex) (block : CBlockHeader) : checked (option ptr) :=
  if base_blob.eq (header_GetHash block) (h_genesis H) then Pass None
  else match mapBlockIndex I !! hashPrevBlock block with
       | Some (Some q) =>
           do b <- defined (blocks I !! q);
           reject failed b with 100 "bad-prevblk";
           Pass (Some q)
       | _ => ReturnFalse
       end.

(** The height that the header is checked for: that of [*ppindex]. *)
Definition claimed_height (I : BlockIndex) (ppindex : option ptr) : checked Z :=
  match ppindex with
  | Some p => do b <- defined (blocks I !! p); Pass (Chain.nHeight b)
  | None => Pass 0
  end.

(** [futureblock] and [ppindex] are what the pointers point to before the call. *)
Definition AcceptBlockHeader (I : BlockIndex) (sp : komodo_state) (block : CBlockHeader) (futureblock : bool)
    (ppindex : option ptr) : accepted :=
  let hash := header_GetHash block in
  match mapBlockIndex I !! hash with
  | Some entry => known_header I sp hash entry block futureblock ppindex
  | None =>
      match claimed_height I ppindex with
      | Pass height =>
          let '(future, verdict) := CheckBlockHeader height block false in
          let go_on := match verdict with Pass _ => true | Undefined => false | _ => future end in
          if go_on then
            let '(sp, verdict) :=
              (then_ prev <- lift (parent_checked I block); ContextualCheckBlockHeader I block prev) sp in
            match verdict with
            | Pass _ =>
                match AddToBlockIndex I block with
                | None => Accepted I sp future ppindex Undefined
                | Some (Some p, I') => Accepted (with_map I' hash (Some p)) sp future (Some p) (Pass tt)
                | Some (None, I') => Accepted I' sp future None (Pass tt)
                end
            | v => Accepted I sp future ppindex v
            end
          else Accepted I sp future ppindex verdict
      | _ => Accepted I sp futureblock ppindex Undefined
      end
  end.

(** ** The message [headers] *)

(** How the loop ends: at the last header, or with an increment of the misbehaviour of the peer, or
    by an exception. *)
Inductive headers_end := Finished (pindexLast : option ptr) | Stopped (misbehaving : Z) | Thrown.

(** [garbage]: the variable [futureblock] of each round is not initialised. *)
Fixpoint process_headers (I : BlockIndex) (sp : komodo_state) (garbage : nat -> bool) (pindexLast : option ptr)
    (headers : list CBlockHeader) {struct headers} : BlockIndex * komodo_state * headers_end :=
  match headers with
  | [] => (I, sp, Finished pindexLast)
  | header :: rest =>
      match (match pindexLast with
             | Some p => match GetBlockHash I p with Some h => Some (negb (base_blob.eq (hashPrevBlock header) h)) | None => None end
             | None => Some false
             end) with
      | None => (I, sp, Thrown)
      | Some true => (I, sp, Stopped 20)
      | Some false =>
          let r := AcceptBlockHeader I sp header (garbage (length rest)) pindexLast in
          match a_verdict r with
          | DoS level _ => if a_future r then process_headers (a_index r) (a_sp r) garbage (a_pindex r) rest
                           else (a_index r, a_sp r, Stopped (if level >? 0 then 1 else 0))
          | Undefined => (a_index r, a_sp r, Thrown)
          | _ => process_headers (a_index r) (a_sp r) garbage (a_pindex r) rest
          end
      end
  end.
End Headers.

(** ** New headers and the last notarisation *)

Lemma header_GetHash_length h : length (header_GetHash h) = 32%nat.
Proof. unfold header_GetHash, GetSHA256DHash. rewrite Hash_spec. apply hash256_length. Qed.

Section Finality.
#[local] Opaque header_GetHash.
Context (H : header_rules) (chainActive : CChain) (pts : list notarized_checkpoint).
Context (nh : Z) (Hen : h_fCheckpointsEnabled H = true) (Hcc : h_CC H = 0)
  (Hgl : length (h_genesis H) = 32%nat).

(** The last notarisation below the tip is of height [nh] and its block is in the index. *)
Definition notarised (I : BlockIndex) : Prop :=
  exists tip b hash txid q bq, Tip chainActive = Some tip /\ blocks I !! tip = Some b /\
    notarized_result (newest (below (Chain.nHeight b)) pts) = (nh, hash, txid) /\ 0 <= nh <= Chain.nHeight b /\
    mapBlockIndex I !! hash = Some (Some q) /\ blocks I !! q = Some bq /\ Chain.nHeight bq = nh.

(** An index without NULL entries that has the genesis block and the last notarised block. *)
Record headers_ok (I : BlockIndex) : Prop := {
  ho_index : index_ok I;
  ho_null : forall h, mapBlockIndex I !! h <> Some None;
  ho_genesis : is_Some (mapBlockIndex I !! h_genesis H);
  ho_notarised : notarised I
}.

(** The checkpoints, whatever the cached position. *)
Definition points_are (sp : komodo_state) : Prop := NPOINTS sp = pts /\ ascending pts.

Lemma sbind_pass {A B} (m : searching A) (f : A -> searching B) sp sp' b :
  sbind m f sp = (sp', Pass b) -> exists sp1 a, m sp = (sp1, Pass a) /\ f a sp1 = (sp', Pass b).
Proof. unfold sbind. destruct (m sp) as [sp1 [a| | |]]; try done. by exists sp1, a. Qed.

Lemma lift_pass {A} (m : checked A) sp sp' a : lift m sp = (sp', Pass a) -> sp' = sp /\ m = Pass a.
Proof. by intros [= <- ->]. Qed.

(** The searches keep the checkpoints. *)
Definition keeps {A} (m : searching A) : Prop := forall sp, points_are sp -> points_are (fst (m sp)).

Lemma keeps_lift {A} (m : checked A) : keeps (lift m).
Proof. by intros sp Hp. Qed.
Lemma kept_bind {A B} (m : searching A) (f : A -> searching B) : keeps m -> (forall a, keeps (f a)) -> keeps (sbind m f).
Proof.
  intros Hm Hf sp Hp. specialize (Hm sp Hp). unfold sbind. destruct (m sp) as [sp1 [a| | |]]; try done. by apply Hf.
Qed.

Lemma keeps_checkpoint I h hash : keeps (komodo_checkpoint chainActive I h hash).
Proof.
  intros sp Hp. unfold komodo_checkpoint. destruct (Tip chainActive) as [t|]; [|done].
  destruct (blocks I !! t) as [b|]; [|done].
  pose proof (NotarizedData_points sp (Chain.nHeight b)) as E.
  destruct (NotarizedData sp (Chain.nHeight b)) as [[[n x] y] sp']. cbn [fst snd] in *. destruct Hp as [Hp Ha].
  split; [congruence|done].
Qed.

Lemma keeps_contextual I block prev : keeps (ContextualCheckBlockHeader H chainActive I block prev).
Proof.
  unfold ContextualCheckBlockHeader, check_checkpoints. destruct (base_blob.eq _ _); [apply keeps_lift|].
  repeat first [apply keeps_lift|apply keeps_checkpoint|apply kept_bind; [|intros ?]|case_match].
Qed.

Lemma on_chain_known I nHeight hash : index_ok I -> on_chain chainActive I nHeight hash = Pass true ->
  is_Some (mapBlockIndex I !! hash).
Proof.
  intros Hok. unfold on_chain. destruct (chain_at chainActive nHeight) as [p|]; [|done].
  destruct (blocks I !! p) as [b|] eqn:Hb; [|done]. cbn. intros [= E%bool_decide_eq_true_1].
  rewrite (io_all I Hok p b hash Hb E). by eexists.
Qed.

Lemma checkpoint_height I sp sp' nHeight hash : headers_ok I -> points_are sp -> mapBlockIndex I !! hash = None ->
  komodo_checkpoint chainActive I nHeight hash sp = (sp', Pass true) -> nh < nHeight.
Proof.
  intros [_ _ _ (tip & b & nhash & txid & q & bq & Htip & Hb & Hn & Hr & Hq & Hbq & Hh)] [Hp Ha] Hnew.
  unfold komodo_checkpoint. rewrite Htip, Hb.
  pose proof (NotarizedData_newest sp (Chain.nHeight b)) as E. rewrite Hp, Hn in E. specialize (E Ha).
  destruct (NotarizedData sp (Chain.nHeight b)) as [d sp1]. cbn [fst] in E. subst d.
  destruct (Z.geb_spec nh 0); [|lia]. destruct (Z.leb_spec nh (Chain.nHeight b)); [|lia]. cbn [andb].
  rewrite Hq, Hbq. cbn [defined cbind]. rewrite Hh, Z.eqb_refl.
  destruct (Z.ltb_spec nHeight nh); [done|]. destruct (Z.eqb_spec nHeight nh) as [->|]; [|lia].
  destruct (bool_decide_reflect (hash = nhash)) as [->|]; [congruence|done].
Qed.

Lemma not_genesis I block : headers_ok I -> mapBlockIndex I !! header_GetHash block = None ->
  base_blob.eq (header_GetHash block) (h_genesis H) = false.
Proof using Hgl.
  intros Hok Hnew. destruct (base_blob.eq _ _) eqn:Eg; [|done].
  rewrite blob_eq_true in Eg by (by rewrite header_GetHash_length). apply bool_decide_eq_true_1 in Eg.
  destruct (ho_genesis I Hok) as [? Hg]. rewrite <- Eg in Hg. congruence.
Qed.

Lemma unknown_rejected I h hash v : index_ok I -> mapBlockIndex I !! hash = None -> known_or_reject chainActive I h hash <> Pass v.
Proof.
  intros Hok Hnew Hk. unfold known_or_reject in Hk. apply cbind_pass in Hk as ([] & Hk & Hv); [|done].
  destruct (on_chain_known I h _ Hok Hk). congruence.
Qed.

(** A new header that passes is above the last notarisation. *)
Lemma new_header_height I sp sp' block q bq : headers_ok I -> points_are sp ->
  mapBlockIndex I !! header_GetHash block = None -> blocks I !! q = Some bq ->
  ContextualCheckBlockHeader H chainActive I block (Some q) sp = (sp', Pass tt) -> nh < Chain.nHeight bq + 1.
Proof using Hen Hgl.
  intros Hok Hp Hnew Hbq. unfold ContextualCheckBlockHeader. rewrite (not_genesis I block Hok Hnew).
  intros Hc. apply sbind_pass in Hc as (s1 & h & E & Hc). apply lift_pass in E as [-> Hw].
  unfold check_work_and_time in Hw. cbn [defined cbind] in Hw. rewrite Hbq in Hw. cbn [defined cbind] in Hw.
  apply cbind_pass in Hw as (bad & _ & Hw). apply reject_bind in Hw as [_ Hw].
  apply cbind_pass in Hw as (early & _ & Hw). do 2 (apply reject_bind in Hw as [_ Hw]). injection Hw as <-.
  apply sbind_pass in Hc as (s2 & r & Hc & _). unfold check_checkpoints in Hc. rewrite Hen in Hc.
  apply sbind_pass in Hc as (s3 & [] & E & Hc). apply lift_pass in E as [-> _].
  apply sbind_pass in Hc as (s4 & tip & E & Hc). apply lift_pass in E as [-> _].
  destruct ((Chain.nHeight bq + 1 =? 1) && _).
  { apply lift_pass in Hc as [_ Hc]. by destruct (unknown_rejected I _ _ _ (ho_index I Hok) Hnew Hc). }
  pose proof (height_range (blocks I) (io_tree I (ho_index I Hok)) q bq Hbq).
  destruct (Z.eqb_spec (Chain.nHeight bq + 1) 0); [lia|]. cbn [negb] in Hc.
  apply sbind_pass in Hc as (s5 & old & E & Hc). apply lift_pass in E as [-> _].
  apply sbind_pass in Hc as (s6 & [] & E & Hc). apply lift_pass in E as [-> _].
  apply sbind_pass in Hc as (s7 & [] & Hk & Hc); [by apply (checkpoint_height I sp s7 _ _ Hok Hp Hnew)|].
  apply lift_pass in Hc as [_ Hc]. by destruct (unknown_rejected I _ _ _ (ho_index I Hok) Hnew Hc).
Qed.

(** The object that a new header adds. *)
Lemma AddToBlockIndex_new I block : index_ok I -> 0 <= bh_nBits block < 2 ^ 32 ->
  mapBlockIndex I !! header_GetHash block = None -> exists b I',
  AddToBlockIndex I block = Some (Some (length (blocks I)), I') /\ index_ok I' /\ blocks I' = blocks I ++ [b] /\
  mapBlockIndex I' = <[header_GetHash block := Some (length (blocks I))]> (mapBlockIndex I) /\
  pprev b = mjoin (mapBlockIndex I !! hashPrevBlock block).
Proof.
  intros Hok Hbits Hnew. destruct (new_block_spec I block Hok Hbits) as (b & Eb & Hmb & Hwb & Hnb & Hpp & _).
  destruct (better_header_spec I b Hok (proj1 Hwb)) as (best & Hbest & Hmax).
  unfold AddToBlockIndex. rewrite Hnew, Eb, Hbest. do 2 eexists. split; [reflexivity|].
  split; [|done]. apply add_block_ok; try done. by rewrite Hnew.
Qed.

Lemma with_map_same I hash p : mapBlockIndex I !! hash = Some p -> with_map I hash p = I.
Proof. intros Hp. destruct I. unfold with_map. cbn in *. by rewrite insert_id. Qed.

(** What may happen to the index. *)
Definition grows (I I' : BlockIndex) : Prop :=
  headers_ok I' /\ blocks I `prefix_of` blocks I' /\
  forall p b, blocks I' !! p = Some b -> (length (blocks I) <= p)%nat -> nh < Chain.nHeight b.

Lemma grows_refl I : headers_ok I -> grows I I.
Proof. intros Hok. split; [done|]. split; [done|]. intros p b Hb. apply lookup_lt_Some in Hb. lia. Qed.

Lemma grows_trans I J K : grows I J -> grows J K -> grows I K.
Proof.
  intros (_ & P1 & H1) (Hok & P2 & H2). split; [done|]. split; [by etrans|]. intros p b Hb Hp.
  destruct (decide (p < length (blocks J))%nat) as [Hlt|]; [|apply (H2 p b Hb); lia].
  destruct (lookup_lt_is_Some_2 _ _ Hlt) as [c Hc]. pose proof (prefix_lookup_Some _ _ _ _ Hc P2) as E.
  apply (H1 p b); [congruence|done].
Qed.

Lemma grows_new I block q bq b I' : headers_ok I -> mapBlockIndex I !! header_GetHash block = None ->
  mapBlockIndex I !! hashPrevBlock block = Some (Some q) -> blocks I !! q = Some bq -> nh < Chain.nHeight bq + 1 ->
  index_ok I' -> blocks I' = blocks I ++ [b] ->
  mapBlockIndex I' = <[header_GetHash block := Some (length (blocks I))]> (mapBlockIndex I) ->
  pprev b = mjoin (mapBlockIndex I !! hashPrevBlock block) -> grows I I'.
Proof.
  intros [Hi Hn Hg (tip & t & nhash & txid & r & br & Htip & Ht & Hnd & Hr & Hm & Hbr & Hh)] Hnew Hq Hbq Hlt Hi' Eb Em Hp.
  assert (forall (p : ptr) c, blocks I !! p = Some c -> blocks I' !! p = Some c) as Hold.
  { intros p c Hc. rewrite Eb. by apply lookup_app_l_Some. }
  split; [split; [done|..]|].
  - intros h E. rewrite Em in E. apply lookup_insert_Some in E as [[_ ?]|[_ E]]; [done|by destruct (Hn h)].
  - rewrite Em. apply lookup_insert_is_Some'. by right.
  - exists tip, t, nhash, txid, r, br. repeat (split; [by auto|]). split; [|by auto].
    rewrite Em, lookup_insert_ne; [done|]. intros E. rewrite E in Hnew. congruence.
  - split; [rewrite Eb; by apply prefix_app_r|]. intros p c Hc Hle. pose proof (io_tree I' Hi' p c Hc) as Hnode.
    rewrite Eb in Hc. apply lookup_app_Some in Hc as [Hc|[_ Hc]]; [apply lookup_lt_Some in Hc; lia|].
    apply list_lookup_singleton_Some in Hc as [_ <-]. rewrite Hq in Hp. unfold node_ok in Hnode. cbn in Hp. rewrite Hp in Hnode.
    destruct Hnode as (bq' & Hbq' & _ & Hht & _). rewrite (Hold q bq Hbq) in Hbq'. injection Hbq' as <-. lia.
Qed.

Lemma accept_grows I sp block future pp : headers_ok I -> points_are sp -> 0 <= bh_nBits block < 2 ^ 32 ->
  let r := AcceptBlockHeader H chainActive I sp block future pp in grows I (a_index r) /\ points_are (a_sp r).
Proof.
  intros Hok Hp Hbits. unfold AcceptBlockHeader. destruct (mapBlockIndex I !! header_GetHash block) as [[p|]|] eqn:Em.
  - unfold known_header. destruct (blocks I !! p) as [b|]; [|by split; [apply grows_refl|]].
    rewrite Hcc. destruct (failed b); by (split; [apply grows_refl|]).
  - by destruct (ho_null I Hok (header_GetHash block)).
  - destruct (claimed_height I pp) as [h| | |]; try by (split; [apply grows_refl|]).
    destruct (CheckBlockHeader H h block false) as [f v].
    destruct (match v with Pass _ => _ | _ => _ end); [|by split; [apply grows_refl|]].
    pose proof (kept_bind (lift (parent_checked H I block)) (fun prev => ContextualCheckBlockHeader H chainActive I block prev)
      (keeps_lift _) (fun prev => keeps_contextual I block prev) sp Hp) as Hp'.
    destruct (sbind (lift (parent_checked H I block)) _ sp) as [sp' v'] eqn:Ev. cbn [fst] in Hp'.
    destruct v' as [[]| | |]; try by (split; [apply grows_refl|]).
    apply sbind_pass in Ev as (s1 & prev & E & Hc). apply lift_pass in E as [-> Hprev].
    unfold parent_checked in Hprev. rewrite (not_genesis I block Hok Em) in Hprev.
    destruct (mapBlockIndex I !! hashPrevBlock block) as [[q|]|] eqn:Eq; try done.
    destruct (blocks I !! q) as [bq|] eqn:Hbq; [|done]. cbn [defined cbind] in Hprev.
    apply reject_bind in Hprev as [_ [= <-]].
    destruct (AddToBlockIndex_new I block (ho_index I Hok) Hbits Em) as (b & I' & -> & Hi' & Eb & Emap & Hpp).
    cbn [a_index a_sp]. rewrite with_map_same by (by rewrite Emap, lookup_insert_eq). split; [|exact Hp'].
    exact (grows_new I block q bq b I' Hok Em Eq Hbq (new_header_height I sp sp' block q bq Hok Hp Em Hbq Hc) Hi' Eb Emap Hpp).
Qed.

Lemma process_grows headers : forall I sp garbage pp, headers_ok I -> points_are sp ->
  Forall (fun h => 0 <= bh_nBits h < 2 ^ 32) headers ->
  grows I (fst (fst (process_headers H chainActive I sp garbage pp headers))).
Proof.
  induction headers as [|h rest IH]; intros I sp garbage pp Hok Hp Hb; cbn [process_headers]; [by apply grows_refl|].
  apply list.Forall_cons in Hb as [Hh Hb].
  destruct (match pp with Some p => _ | None => _ end) as [[]|]; try by apply grows_refl.
  pose proof (accept_grows I sp h (garbage (length rest)) pp Hok Hp Hh) as [Hg Hp'].
  set (r := AcceptBlockHeader H chainActive I sp h (garbage (length rest)) pp) in *.
  assert (grows I (fst (fst (process_headers H chainActive (a_index r) (a_sp r) garbage (a_pindex r) rest)))) as Hrest.
  { eapply grows_trans; [exact Hg|]. apply IH; [apply Hg|exact Hp'|exact Hb]. }
  destruct (a_verdict r); [exact Hrest| |exact Hrest|exact Hg]. destruct (a_future r); [exact Hrest|exact Hg].
Qed.
End Finality.

(** * Properties *)


(** A peer that sends a header known to be invalid: the function returns without writing the flag
    that the loop over the message then reads, an uninitialised variable. *)
Lemma known_invalid_leaves_flag H chainActive I sp block p b future pp :
  mapBlockIndex I !! header_GetHash block = Some (Some p) -> blocks I !! p = Some b -> failed b = true -> h_CC H = 0 ->
  AcceptBlockHeader H chainActive I sp block future pp = Accepted I sp future (Some p) (DoS 0 "duplicate").
Proof. intros Hm Hb Hf Hc. unfold AcceptBlockHeader, known_header. by rewrite Hm, Hb, Hf, Hc. Qed.

(** ** A chain of five blocks, the block of height 2 notarised in the block of height 3 *)

Definition easy_on (prev : list Z) (time : Z) : CBlockHeader := {|
  bh_nVersion := 4; hashPrevBlock := prev; hashMerkleRoot := replicate 32 1; hashFinalSaplingRoot := replicate 32 2;
  bh_nTime := time; bh_nBits := 0x200f0f0f; bh_nNonce := replicate 32 3; bh_nSolution := [7] |}.
Definition k0 : CBlockHeader := easy_on (replicate 32 0) 1000.
Definition k1 : CBlockHeader := Eval vm_compute in easy_on (header_GetHash k0) 1060.
Definition k2 : CBlockHeader := Eval vm_compute in easy_on (header_GetHash k1) 1120.
Definition k3 : CBlockHeader := Eval vm_compute in easy_on (header_GetHash k2) 1180.
Definition k4 : CBlockHeader := Eval vm_compute in easy_on (header_GetHash k3) 1240.
Definition k5 : CBlockHeader := Eval vm_compute in easy_on (header_GetHash k4) 1300.
Definition k2' : CBlockHeader := Eval vm_compute in easy_on (header_GetHash k1) 1130.

Definition kept_index : BlockIndex := Eval vm_compute in default empty_index (add_all [k0; k1; k2; k3; k4]).
Definition kept_chain : CChain := Eval vm_compute in default [] (SetTip kept_index [] (Some 4%nat)).
Definition kept_rules : header_rules := {|
  h_isKMD := true; h_now := 2000; h_solution_ok := fun _ => true; h_genesis := header_GetHash k0;
  h_pow := kmd_params 17 0; h_MaxFutureBlockTime := 420; h_fCheckpointsEnabled := true; h_mapCheckpoints := []; h_CC := 0 |}.
Definition kept_points : list notarized_checkpoint := Eval vm_compute in
  [Checkpoint (header_GetHash k2) (replicate 32 9) (replicate 32 0) (replicate 32 0) 3 2 0 0 0 0 0].
Definition kept_state : komodo_state := set_points new_komodo_state kept_points 0 empty_checkpoint.

(** The next block is accepted, another block of height 2 is not. *)
Example kept_accepts : a_verdict (AcceptBlockHeader kept_rules kept_chain kept_index kept_state k5 false None) = Pass tt.
Proof. vm_compute. reflexivity. Qed.
Example kept_rejects : a_verdict (AcceptBlockHeader kept_rules kept_chain kept_index kept_state k2' false None) = DoS 1 "".
Proof. vm_compute. reflexivity. Qed.

Lemma kept_index_built : add_all [k0; k1; k2; k3; k4] = Some kept_index.
Proof. vm_compute. reflexivity. Qed.

Lemma kept_ok : headers_ok kept_rules kept_chain kept_points 2 kept_index.
Proof.
  split.
  - destruct (add_all_ok [k0; k1; k2; k3; k4]) as (J & E & HJ); [repeat constructor; vm_compute; intros ?; discriminate|].
    rewrite kept_index_built in E. injection E as <-. exact HJ.
  - intros h. assert (map_Forall (fun _ v => v <> None) (mapBlockIndex kept_index)) as Hm
      by (apply (bool_decide_unpack _); vm_compute; exact Logic.I).
    intros E. by apply (Hm h None E).
  - vm_compute. by eexists.
  - do 6 eexists. split; [vm_compute; reflexivity|]. split; [vm_compute; reflexivity|].
    split; [vm_compute; reflexivity|]. split; [vm_compute; split; intros ?; discriminate|].
    split; [vm_compute; reflexivity|]. split; vm_compute; reflexivity.
Qed.

