(* ===== verification/CheckBlock.v ===== *)
(** * CheckBlock: the checks of a block that need no coins ([src/src/main.cpp])
    [CheckBlock] and [ContextualCheckBlock] for chains without crypto-condition modules, staking,
    commission and notary pay, as KMD; with [komodo_checkPOW], [komodo_checkopret] and
    [komodo_block2height] of [komodo_bitcoind.cpp], [komodo_check_deposit] of [komodo_gateway.cpp],
    [GetMerkleRoot] of [cc/eval.cpp] and [MAX_BLOCK_SIZE] of [chainparams.cpp].  Headers are checked by
    [Headers], proofs of work by [PowNotary], transactions by [CheckTx]. *)
From Stdlib Require Import String.
From stdpp Require Import gmap.
From S2P Require Import Prelude Verdict Uint256 ArithUint256 Hash Opcode Script Serialize Transaction SigHash Finality Interest Subsidy Block Merkle Chain Standard NotaryKeys NotaryTable Notary Pow PowNotary Upgrades CheckTx ConnectBlock Headers.

Definition nS5HardforkHeight : Z := 2437300.
Definition nKIP0003Activation : Z := nS8HardforkHeight.
Definition _MAX_BLOCK_SIZE : Z := 4096 * 1024.

(** [MAX_BLOCK_SIZE(height)], from the activation height of Sapling. *)
Definition MAX_BLOCK_SIZE (saplinght height : Z) : Z :=
  if (height <=? 0) || ((saplinght >? 0) && (height >=? saplinght)) then _MAX_BLOCK_SIZE else 2000000.

Definition block_hash (b : CBlock) : list Z := header_GetHash (block_header b).

(** ** The Merkle root in the last output *)

Definition GetMerkleRoot (vLeaves : list (list Z)) : list Z := fst (ComputeMerkleRoot vLeaves true).

(** [komodo_makeopret(pblock, fNew)]; the loop does not run when there is no transaction. *)
Definition komodo_makeopret (b : CBlock) (fNew : bool) : script :=
  let n := (length (vtx b) - (if fNew then 0 else 1))%nat in
  let vLeaves := hashPrevBlock (block_header b) :: map ct_hash (take n (vtx b)) in
  CScript.push_data [opcode OP_RETURN] (GetMerkleRoot vLeaves).

Definition komodo_checkopret (b : CBlock) : bool :=
  match List.last (map Some (vtx b)) None with
  | None => false
  | Some tx =>
      match List.last (map Some (vout (ct_tx tx))) None with
      | None => false
      | Some o => CScript.IsOpReturn (scriptPubKey o) && bool_decide (scriptPubKey o = komodo_makeopret b false)
      end
  end.

Section Blocks.

(** The chain and its notaries (see [Notary]), the index and the active chain, the keys of the
    coinbases of blocks on disk (see [PowNotary]). *)
Context (chainName : string) (komodo_heightstamp : Z -> Z) (beyond : nat -> Z).
Context (HASH_FIND : list knotary_entry -> list Z -> option knotary_entry).
Context (Pubkeys : list knotaries_entry) (garbage : list (list Z)).
Context (I : BlockIndex) (chainActive : CChain) (block_key : ptr -> option (list Z)).
(** The options of scripts (see [Standard]). *)
Context {CR : ConditionReader} (ccEnabled vSolutionsFix fAcceptDatacarrier : bool).
Context (nMaxDatacarrierBytes : Z) (p0 : COptCCParams).
(** The rules of headers, proofs of work and transactions; [GetBlockSubsidy]. *)
Context (H : header_rules) (C : check_params) (R : tx_rules) (GetBlockSubsidy : Z -> Z).
(** Transactions by their hash ([None]: not found), and the memory behind the bytes of a script. *)
Context (GetTransaction : list Z -> option tx) (memory : script -> list Z).

Abbreviation isKMD := (String.eqb chainName "").

(** The key of the coinbase; a block without transactions has none to look at. *)
Definition block2pubkey33 (b : CBlock) : checked (list Z * bool) :=
  do cb <- defined (vtx b !! 0%nat);
  Pass (komodo_block2pubkey33 ccEnabled vSolutionsFix p0 (KOMODO_LOADINGBLOCKS C) (vout (ct_tx cb))).

(** ** [komodo_checkPOW] *)

(** The place of the key among the notaries of the height; -1 when there is none. *)
Definition notary_of_key (height timestamp : Z) (pubkey33 : list Z) : checked Z :=
  do r <- defined (komodo_notaries chainName komodo_heightstamp beyond Pubkeys garbage height timestamp);
  let '(n, rows) := r in
  Pass (if n >? 0 then find_row pubkey33 0 (take (Z.to_nat n) rows) else -1).

(** KIP-0003: the outputs of an easy block. *)
Definition KIP0003_ok (b : CBlock) (height : Z) : bool :=
  (size (vtx b) >? 1) &&
  match vtx b with
  | cb :: _ =>
      match vout (ct_tx cb) with
      | [o0; o1] => (nValue o0 <=? GetBlockSubsidy height) && CScript.IsOpReturn (scriptPubKey o1)
      | _ => false
      end
  | [] => false
  end.

(** The height of a block whose height is not known: above its parent. *)
Definition height_above_parent (b : CBlock) : checked Z :=
  match mapBlockIndex I !! hashPrevBlock (block_header b) with
  | Some (Some q) => do p <- defined (blocks I !! q); Pass (Chain.nHeight p + 1)
  | _ => Pass 0
  end.

(** The check of the hash against the target and of the key among the notaries, from a height
    that is not 0. *)
Definition checkPOW_at (b : CBlock) (height : Z) (pubkey33 : list Z) (possible skip_pow : bool) : checked Z :=
  let bnTarget := cr_value (SetCompact (bh_nBits (block_header b))) in
  let failed := (negb isKMD || (height >? 792000)) && ugt (UintToArith256 (block_hash b)) bnTarget in
  if failed && negb ((height >? 0) && isKMD) && (negb possible || negb isKMD)
  then Pass (if skip_pow then 0 else -1)
  else
    do notaryid <- (if failed && (height >? 0) && isKMD
                    then notary_of_key height (bh_nTime (block_header b)) pubkey33 else Pass (-1));
    Pass (if isKMD && (height >? nKIP0003Activation) && possible && failed && negb (notaryid =? -1)
             && negb (KIP0003_ok b height) then -1
          else if failed && negb possible && (notaryid <? 0) then -1 else 0).

Definition komodo_checkPOW (skip_pow slowflag : bool) (b : CBlock) (height : Z) : checked Z :=
  if negb (h_solution_ok H (block_header b)) then Pass (-1)
  else
    do key <- block2pubkey33 b;
    let '(pubkey33, possible) := key in
    if height =? 0 then
      if slowflag then Pass 0
      else
        do height <- height_above_parent b;
        if height =? 0 then Pass 0 else checkPOW_at b height pubkey33 possible skip_pow
    else checkPOW_at b height pubkey33 possible skip_pow.

(** ** [komodo_check_deposit] *)

(** The last transaction of the block proves that a notary mined it: its input spends an output of
    the script of the coinbase. *)
Definition notary_proof (b : CBlock) : checked bool :=
  match vtx b, List.last (map Some (vtx b)) None with
  | cb :: _ :: _, Some tx =>
      match vout (ct_tx tx), vin (ct_tx tx) with
      | o :: _, [i] =>
          if nValue o =? 5000 then
            let hash := op_hash (prevout i) in
            match (match GetTransaction hash with
                   | Some t => Some t
                   | None => match List.find (fun c => base_blob.eq (ct_hash c) hash) (vtx b) with
                             | Some c => Some (ct_tx c)
                             | None => None
                             end
                   end) with
            | None => Pass false
            | Some t =>
                do paid <- defined (vout (ct_tx cb) !! 0%nat);
                do spent <- defined (vout t !! Z.to_nat (op_n (prevout i)));
                Pass (bool_decide (scriptPubKey paid = scriptPubKey spent))
            end
          else Pass false
      | _, _ => Pass false
      end
  | _, _ => Pass false
  end.

(** The outputs of the coinbase after the first: whether they are out of range, how many are
    strange, and their total. *)
Record deposit := { d_overflow : bool; d_strangeout : Z; d_total : Z; d_prevtotal : Z }.

Fixpoint deposit_loop (i : nat) (outs : list CTxOut) (d : deposit) : deposit :=
  match outs with
  | [] => d
  | o :: outs =>
      let val := nValue o in
      if (val <? 0) || (val >=? tr_MAX_MONEY R)
      then {| d_overflow := true; d_strangeout := d_strangeout d; d_total := d_total d; d_prevtotal := d_prevtotal d |}
      else
        let strange := if Nat.ltb 1 i && negb (nth 0 (scriptPubKey o ++ memory (scriptPubKey o)) 0 =? 106) && (val <? 5000)
                       then d_strangeout d + 1 else d_strangeout d in
        let total := u64 (d_total d + val) in
        if (total <? u64 (d_prevtotal d)) || (negb (val =? 0) && (total =? u64 (d_prevtotal d)))
        then {| d_overflow := true; d_strangeout := strange; d_total := total; d_prevtotal := d_prevtotal d |}
        else deposit_loop (S i) outs
               {| d_overflow := false; d_strangeout := strange; d_total := total; d_prevtotal := i64 total |}
  end.

Definition coinbase_deposit (outs : list CTxOut) : deposit :=
  deposit_loop 1 (drop 1 outs) {| d_overflow := false; d_strangeout := 0; d_total := 0; d_prevtotal := 0 |}.

(** The 33 bytes after the first of the script of the first output, whatever its length. *)
Definition script_key (s : script) : list Z := take 33 (drop 1 (s ++ memory s)).

(** Whether the result is not negative. *)
Definition komodo_check_deposit (height : Z) (b : CBlock) : checked bool :=
  do notmatched <- (if isKMD then notary_proof b else Pass false);
  if isKMD && existsb (fun tx => existsb (fun i => spends_banned (prevout i)) (vin (ct_tx tx))) (vtx b) then Pass false
  else
    do sapling <- (if isKMD then Pass true else defined (NetworkUpgradeActive (tr_vUpgrades R) height UPGRADE_SAPLING));
    if sapling then
      do cb <- defined (vtx b !! 0%nat);
      let outs := vout (ct_tx cb) in
      let d := coinbase_deposit outs in
      if isKMD then
        if d_overflow d && (height >=? 235300) then Pass false
        else if negb (d_strangeout d =? 0) || notmatched then Pass (negb ((height >? 1000000) && negb (d_strangeout d =? 0)))
        else if height >? 814000 then
          do paid <- defined (outs !! 0%nat);
          do r <- defined (komodo_electednotary chainName komodo_heightstamp beyond Pubkeys garbage
                             (script_key (scriptPubKey paid)) height 0);
          Pass (negb ((fst r >=? 0) && (height >? 1000000)))
        else Pass true
      else
        do checktoshis <- (if height >? 1 then
                             do paid <- defined (outs !! 0%nat); Pass (i64 (u64 (GetBlockSubsidy height) - nValue paid))
                           else Pass 0);
        Pass (negb ((height >=? 2) && (d_overflow d || (d_total d >? u64 checktoshis) || negb (d_strangeout d =? 0))))
    else Pass true.

(** ** [CheckBlock] *)

(** [joinsplit.Verify]; the size of a block. *)
Context (joinsplit_Verify : JSDescription -> list Z -> bool).
Context (saplinght : Z) (MAX_BLOCK_SIGOPS : Z) (skip_pow : bool).

Definition block_size (b : CBlock) : option Z := match Serialize_CBlock b with Some s => Some (size s) | None => None end.

(** The proof of work and the key of the block; a null key when they are not asked for. *)
Definition check_pow (b : CBlock) (height : Z) (fCheckPOW : bool) : checked (list Z) :=
  if fCheckPOW then
    do key <- block2pubkey33 b;
    let pubkey33 := fst key in
    let h := block_header b in
    do ok <- defined (CheckProofOfWork chainName komodo_heightstamp beyond HASH_FIND Pubkeys garbage I chainActive block_key
                        C (block_hash b) (bh_nBits h) (bh_nTime h) pubkey33 height);
    reject negb ok with 50 "high-hash";
    do slow <- komodo_checkPOW skip_pow true b height;
    reject slow <? 0 with 100 "failed-slow_checkPOW";
    Pass pubkey33
  else Pass (replicate 33 0).

(** After the hard fork of December 2019 the block of a notary has the Merkle root in its last
    output. *)
Definition check_opret (b : CBlock) (height : Z) (pubkey33 : list Z) (tiptime : Z) : checked unit :=
  if (height >? nDecemberHardforkHeight) && isKMD then
    do r <- defined (chosen chainName komodo_heightstamp beyond HASH_FIND Pubkeys garbage height pubkey33 tiptime);
    let notaryid := snd r in
    reject_if (((notaryid >? 0) || ((notaryid =? 0) && (height >? nS5HardforkHeight))) && negb (komodo_checkopret b)) 100
      "failed-merkle-opret-in-easy-mined"
  else Pass tt.

Definition check_merkle (b : CBlock) (fCheckMerkleRoot : bool) : checked unit :=
  if fCheckMerkleRoot then
    let '(hashMerkleRoot2, mutated) := BlockMerkleRoot (vtx b) true in
    reject negb (base_blob.eq (hashMerkleRoot (block_header b)) hashMerkleRoot2) with 100 "bad-txnmrklroot";
    reject_if mutated 100 "bad-txns-duplicate"
  else Pass tt.

(** The size, and the coinbase: the first transaction and no other. *)
Definition check_shape (b : CBlock) (height : Z) : checked unit :=
  reject is_nil (vtx b) || (size (vtx b) >? MAX_BLOCK_SIZE saplinght height) with 100 "bad-blk-length";
  do sz <- defined (block_size b);
  reject sz >? MAX_BLOCK_SIZE saplinght height with 100 "bad-blk-length";
  reject negb (match vtx b with cb :: _ => IsCoinBase (ct_tx cb) | [] => false end) with 100 "bad-cb-missing";
  reject_if (existsb (fun tx => IsCoinBase (ct_tx tx)) (drop 1 (vtx b))) 100 "bad-cb-multiple".

(** The transactions one by one, with their places. *)
Definition check_txs (b : CBlock) (tiptime : Z) : checked unit :=
  Verdict.each (fun _ p => CheckTransaction R joinsplit_Verify tiptime (snd p) (fst p) (size (vtx b)))
    (imap (fun i tx => (Z.of_nat i, tx)) (vtx b)) tt.

Definition nSigOps (b : CBlock) : Z := fold_left (fun n tx => u32 (n + GetLegacySigOpCount (ct_tx tx))) (vtx b) 0.

(** The time of the block before, or else of the block. *)
Definition block_tiptime (b : CBlock) (pindex : option ptr) : checked Z :=
  match pindex with
  | None => Pass (bh_nTime (block_header b))
  | Some p =>
      do bi <- defined (blocks I !! p);
      match pprev bi with
      | None => Pass (bh_nTime (block_header b))
      | Some q => do prev <- defined (blocks I !! q); Pass (bi_nTime prev)
      end
  end.

Definition check_body (b : CBlock) (height : Z) (pindex : option ptr) (fCheckPOW fCheckMerkleRoot : bool) : checked unit :=
  do tiptime <- block_tiptime b pindex;
  do pubkey33 <- check_pow b height fCheckPOW;
  do _ <- check_opret b height pubkey33 tiptime;
  do _ <- check_merkle b fCheckMerkleRoot;
  do _ <- check_shape b height;
  do _ <- check_txs b tiptime;
  reject nSigOps b >? MAX_BLOCK_SIGOPS with 100 "bad-blk-sigops";
  do ok <- (if fCheckPOW then komodo_check_deposit height b else Pass true);
  if ok then Pass tt else ReturnFalse.

(** [CheckBlock]: [*futureblockp] and the verdict.  A block from the near future goes on although its
    header failed. *)
Definition CheckBlock (height : Z) (pindex : option ptr) (b : CBlock) (fCheckPOW fCheckMerkleRoot : bool)
    : bool * checked unit :=
  let '(future, verdict) := CheckBlockHeader H height (block_header b) fCheckPOW in
  match verdict with
  | Pass _ => (future, check_body b height pindex fCheckPOW fCheckMerkleRoot)
  | Undefined => (future, Undefined)
  | v => (future, if future then check_body b height pindex fCheckPOW fCheckMerkleRoot else v)
  end.

(** ** [komodo_block2height] *)

(** The height in the script of the coinbase; reading past the script or shifting past the width is
    undefined. *)
Definition script_height (s : script) : option Z :=
  match s with
  | [] => None
  | n :: bytes =>
      foldl (fun o i =>
        h ← o; b ← bytes !! i;
        if Nat.ltb i 4 then Some (i32 (h + u32 (Z.shiftl b (8 * Z.of_nat i)))) else None)
        (Some 0) (seq 0 (Z.to_nat n))
  end.

Definition komodo_block2height (b : CBlock) : checked Z :=
  match mapBlockIndex I !! block_hash b with
  | Some (Some p) =>
      do bi <- defined (blocks I !! p);
      if Chain.nHeight bi >=? 0 then Pass (Chain.nHeight bi)
      else
        do cb <- defined (vtx b !! 0%nat);
        match vin (ct_tx cb) with
        | i :: _ => if size (scriptSig i) >? 5 then defined (script_height (scriptSig i)) else Pass 0
        | [] => Pass 0
        end
  | _ => Pass 0
  end.

(** ** [ContextualCheckBlock] *)

Context {B : Blake2b} (crypto_sign_verify : list Z -> list Z -> list Z -> bool).
Context {sapling_ctx : Type} (ctx_init : sapling_ctx).
Context (check_spend : sapling_ctx -> SpendDescription -> list Z -> sapling_ctx * bool).
Context (sapling_check_output : sapling_ctx -> OutputDescription -> sapling_ctx * bool).
Context (final_check : sapling_ctx -> Z -> list Z -> list Z -> bool).
Context (KOMODO_REWIND : Z).

(** The time that lock times are compared with: from HF22 on it is that of the chain. *)
Definition interest_time (b : CBlock) (pindexPrev : option ptr) (txheight : Z) : checked Z :=
  match nHF22Height C, pindexPrev with
  | Some after, Some prev =>
      if isKMD && (u32 txheight >? after) then do mtp <- defined (GetMedianTimePast I prev); Pass (u32 (mtp + 777))
      else Pass (bh_nTime (block_header b))
  | _, _ => Pass (bh_nTime (block_header b))
  end.

Definition contextual_tx (b : CBlock) (nHeight txheight cmptime : Z) (tx : CTransaction) : checked unit :=
  let t := ct_tx tx in
  reject negb (komodo_validate_interest isKMD KOMODO_REWIND t txheight cmptime) with 0 "komodo-interest-invalid";
  do _ <- ContextualCheckTransaction R crypto_sign_verify ctx_init check_spend sapling_check_output final_check t nHeight 100;
  reject_if (negb (IsFinalTx isKMD (Height chainActive) t nHeight (bh_nTime (block_header b)))) 10 "bad-txns-nonfinal".

(** BIP 34: the script of the coinbase starts with the height. *)
Definition check_cb_height (b : CBlock) (nHeight : Z) : checked unit :=
  if nHeight >? 0 then
    do cb <- defined (vtx b !! 0%nat);
    do i <- defined (vin (ct_tx cb) !! 0%nat);
    let expect := CScript.push_int64 [] nHeight in
    reject_if (negb (bool_decide (take (length expect) (scriptSig i) = expect))) 100 "bad-cb-height"
  else Pass tt.

Definition ContextualCheckBlock (b : CBlock) (pindexPrev : option ptr) : checked unit :=
  do nHeight <- (match pindexPrev with
                 | None => Pass 0
                 | Some q => do p <- defined (blocks I !! q); Pass (Chain.nHeight p + 1)
                 end);
  do _ <- defined (NetworkUpgradeActive (tr_vUpgrades R) nHeight UPGRADE_SAPLING);
  do txheight <- (if nHeight =? 0 then komodo_block2height b else Pass nHeight);
  do cmptime <- interest_time b pindexPrev txheight;
  do _ <- Verdict.each (fun _ tx => contextual_tx b nHeight txheight cmptime tx) (vtx b) tt;
  check_cb_height b nHeight.
End Blocks.
