(* ===== verification/BlockLaws.v ===== *)
(** * BlockLaws: what the hash and the height of an accepted block determine
    Theorems about [CheckBlock] and [ContextualCheckBlock]: from the Overwinter upgrade on the hash of
    a header commits to the whole block, and blocks of different heights have different
    coinbases. *)
From Stdlib Require Import String.
From stdpp Require Import gmap sets.
From S2P Require Import Prelude Verdict Endian Uint256 Hash ScriptNum Opcode Script Serialize Transaction SigHash Finality Amount ArithUint256 Block Merkle Chain Standard NotaryTable Pow PowNotary Upgrades CheckTx Headers CheckBlock.

(** ** The bytes of a transaction *)

Lemma vector_min {A} (ser : A -> list Z) k l : l <> [] -> Forall (fun a => (k <= length (ser a))%nat) l ->
  (S k <= length (Serialize_vector ser l))%nat.
Proof.
  intros Hne Hl. destruct Hl as [|a l Ha _]; [done|]. unfold Serialize_vector. cbn [map concat].
  rewrite !length_app. assert (1 <= length (WriteCompactSize (Z.of_nat (length (a :: l)))))%nat; [|lia].
  unfold WriteCompactSize. repeat case_match; cbn; lia.
Qed.

Lemma txin_min i : txin_wf i -> (41 <= length (Serialize_CTxIn i))%nat.
Proof.
  intros (([Hh _] & _) & _ & _). unfold Serialize_CTxIn, Serialize_COutPoint, Serialize_bytes, Serialize_blob, ser_writedata32.
  rewrite !length_app, !WriteLE32_length, Hh.
  assert (1 <= length (WriteCompactSize (Z.of_nat (length (scriptSig i)))))%nat; [|lia].
  unfold WriteCompactSize. repeat case_match; cbn; lia.
Qed.

Lemma txout_min o : (9 <= length (Serialize_CTxOut o))%nat.
Proof.
  unfold Serialize_CTxOut, Serialize_int64, ser_writedata64, Serialize_bytes. rewrite !length_app.
  assert (length (WriteLE64 (nValue o)) = 8%nat) as -> by apply to_le_length.
  assert (1 <= length (WriteCompactSize (Z.of_nat (length (scriptPubKey o)))))%nat; [|lia].
  unfold WriteCompactSize. repeat case_match; cbn; lia.
Qed.

Lemma spend_min d : spend_wf d -> (64 <= length (Serialize_SpendDescription d))%nat.
Proof.
  intros ([H1 _] & [H2 _] & _). unfold Serialize_SpendDescription, Serialize_blob. rewrite !length_app, H1, H2. lia.
Qed.

Lemma output_min d : output_wf d -> (64 <= length (Serialize_OutputDescription d))%nat.
Proof.
  intros ([H1 _] & [H2 _] & _). unfold Serialize_OutputDescription, Serialize_blob. rewrite !length_app, H1, H2. lia.
Qed.

Lemma js_min h d : js_wf h d -> (64 <= length (js_bytes d))%nat.
Proof.
  intros (_ & _ & [H1 _] & _ & _ & [H2 _] & _). unfold js_bytes, Serialize_blob. rewrite !length_app, H1, H2. lia.
Qed.

Lemma when_length b l : length (when b l) = if b then length l else 0%nat.
Proof. by destruct b. Qed.

(** An Overwinter transaction with inputs and outputs of some kind is longer than a node of a tree. *)
Lemma big_tx c : ctx_wf c -> fOverwintered (ct_tx c) = true ->
  vin (ct_tx c) <> [] \/ vjoinsplit (ct_tx c) <> [] \/ vShieldedSpend (ct_tx c) <> [] ->
  vout (ct_tx c) <> [] \/ vjoinsplit (ct_tx c) <> [] \/ vShieldedOutput (ct_tx c) <> [] ->
  (64 < length (tx_bytes (ct_tx c)))%nat.
Proof.
  destruct c as [t h]. cbn [ct_tx]. intros (Hw & Hk & Ha & _) Hf Hi Ho. cbn [ct_tx] in *.
  destruct Hw as (_ & _ & [_ Hin] & [_ Hout] & _ & _ & _ & [_ Hsp] & [_ Hou] & [_ Hjs] & _).
  unfold known_version in Hk. rewrite Hf in Hk. apply negb_true_iff, negb_false_iff in Hk.
  assert ((nVersion t >=? 2) = true) as H2.
  { unfold isOverwinterV3, isSaplingV4, is_v3, is_v4 in Hk. apply orb_true_iff in Hk as [Hk|Hk];
      apply andb_true_iff in Hk as [_ Hk%Z.eqb_eq]; by rewrite Hk. }
  assert (isSaplingV4 t = false -> vShieldedSpend t = [] /\ vShieldedOutput t = []) as H4.
  { intros E. unfold adopt in Ha. rewrite E in Ha. rewrite <- Ha. done. }
  unfold tx_bytes. rewrite !length_app, !when_length, Hf, Hk, H2. unfold ser_writedata32. rewrite !WriteLE32_length.
  pose proof (fun H => vector_min Serialize_CTxIn 41 (vin t) H (list.Forall_impl _ _ _ Hin txin_min)) as L1.
  pose proof (fun H => vector_min Serialize_CTxOut 9 (vout t) H (list.Forall_impl _ _ _ Hout (fun o _ => txout_min o))) as L2.
  pose proof (fun H => vector_min js_bytes 64 (vjoinsplit t) H (list.Forall_impl _ _ _ Hjs (js_min (GetHeader t)))) as L3.
  pose proof (fun H => vector_min _ 64 (vShieldedSpend t) H (list.Forall_impl _ _ _ Hsp spend_min)) as L4.
  pose proof (fun H => vector_min _ 64 (vShieldedOutput t) H (list.Forall_impl _ _ _ Hou output_min)) as L5.
  destruct (isSaplingV4 t); [|destruct (H4 eq_refl) as [E1 E2]; rewrite E1, E2 in *].
  - destruct Hi as [Hi%L1|[Hi%L3|Hi%L4]], Ho as [Ho%L2|[Ho%L3|Ho%L5]]; lia.
  - destruct Hi as [Hi%L1|[Hi%L3|Hi]], Ho as [Ho%L2|[Ho%L3|Ho]]; lia || done.
Qed.

(** The bytes determine the transaction. *)
Lemma tx_bytes_inj c c' : ctx_wf c -> ctx_wf c' -> tx_bytes (ct_tx c) = tx_bytes (ct_tx c') -> c = c'.
Proof.
  intros (Hw & Hk & Ha & Hh) (Hw' & Hk' & Ha' & Hh') E.
  pose proof (Unserialize_tx_read tx_default (ct_tx c) [] Hw Hk) as R.
  pose proof (Unserialize_tx_read tx_default (ct_tx c') [] Hw' Hk') as R'. rewrite E, R', Ha, Ha' in R. injection R as Et.
  destruct c, c'. cbn in *. congruence.
Qed.

Lemma header_bytes_inj h h' : header_wf h -> header_wf h' -> Serialize_CBlockHeader h = Serialize_CBlockHeader h' -> h = h'.
Proof.
  intros Hw Hw' E. pose proof (codec_read h [] Hw) as R. pose proof (codec_read h' [] Hw') as R'.
  rewrite E, R' in R. by injection R.
Qed.

(** ** Nodes *)

(** All that [CheckBlock] and [ContextualCheckBlock] use: see the parameters of [CheckBlock]. *)
Record node := {
  n_chainName : string; n_heightstamp : Z -> Z; n_beyond : nat -> Z;
  n_find : list knotary_entry -> list Z -> option knotary_entry;
  n_Pubkeys : list knotaries_entry; n_garbage : list (list Z);
  n_index : BlockIndex; n_chainActive : CChain; n_block_key : ptr -> option (list Z);
  n_conditions : ConditionReader; n_ccEnabled : bool; n_vSolutionsFix : bool; n_p0 : COptCCParams;
  n_headers : header_rules; n_checks : check_params; n_rules : tx_rules; n_subsidy : Z -> Z;
  n_GetTransaction : list Z -> option tx; n_memory : script -> list Z;
  n_joinsplit : JSDescription -> list Z -> bool; n_saplinght : Z; n_MAX_BLOCK_SIGOPS : Z; n_skip_pow : bool;
  n_blake : Blake2b; n_sign_verify : list Z -> list Z -> list Z -> bool;
  n_sapling : Type; n_init : n_sapling; n_spend : n_sapling -> SpendDescription -> list Z -> n_sapling * bool;
  n_output : n_sapling -> OutputDescription -> n_sapling * bool;
  n_final : n_sapling -> Z -> list Z -> list Z -> bool; n_rewind : Z
}.

Definition node_CheckBlock (N : node) : Z -> option ptr -> CBlock -> bool -> bool -> bool * checked unit :=
  @CheckBlock (n_chainName N) (n_heightstamp N) (n_beyond N) (n_find N) (n_Pubkeys N) (n_garbage N) (n_index N)
    (n_chainActive N) (n_block_key N) (n_conditions N) (n_ccEnabled N) (n_vSolutionsFix N) (n_p0 N) (n_headers N)
    (n_checks N) (n_rules N) (n_subsidy N) (n_GetTransaction N) (n_memory N) (n_joinsplit N) (n_saplinght N)
    (n_MAX_BLOCK_SIGOPS N) (n_skip_pow N).

Definition node_ContextualCheckBlock (N : node) : CBlock -> option ptr -> checked unit :=
  @ContextualCheckBlock (n_chainName N) (n_index N) (n_chainActive N) (n_checks N) (n_rules N) (n_blake N)
    (n_sign_verify N) (n_sapling N) (n_init N) (n_spend N) (n_output N) (n_final N) (n_rewind N).

Abbreviation contextual_tx_check N := (@ContextualCheckTransaction (n_rules N) (n_blake N) (n_sign_verify N)
  (n_sapling N) (n_init N) (n_spend N) (n_output N) (n_final N)).

(** A block that passes both checks at a height, as [AcceptBlock] makes them. *)
Definition passes (N : node) (nHeight : Z) (b : CBlock) : Prop :=
  (exists pindex fCheckPOW, snd (node_CheckBlock N nHeight pindex b fCheckPOW true) = Pass tt) /\
  (exists prev p, blocks (n_index N) !! prev = Some p /\ Chain.nHeight p + 1 = nHeight /\
     node_ContextualCheckBlock N b (Some prev) = Pass tt).

(** A block as it is read from the network ([Block.block_round_trip]). *)
Definition block_wf (b : CBlock) : Prop := header_wf (block_header b) /\ Forall ctx_wf (vtx b).

(** ** What passing gives *)

Lemma CheckBlock_body N nHeight pindex b fCheckPOW :
  snd (node_CheckBlock N nHeight pindex b fCheckPOW true) = Pass tt ->
  check_merkle b true = Pass tt /\ vtx b <> [] /\
  exists tiptime, Forall (fun c => exists i, CheckTransaction (n_rules N) (n_joinsplit N) tiptime c i (size (vtx b)) = Pass tt) (vtx b).
Proof.
  unfold node_CheckBlock, CheckBlock. destruct (CheckBlockHeader _ _ _ _) as [future v]. intros Hb.
  set (body := @check_body _ _ _ _ _ _ _ _ _ _ _ _ _ _ _ _ _ _ _ _ _ _ _ _ _ _ _ _) in Hb.
  assert (body = Pass tt) as Hbody by (destruct v as [[]| | |]; [done| | |done]; by destruct future). clear Hb.
  unfold body, check_body in Hbody. clear body.
  apply cbind_pass in Hbody as (tiptime & _ & Hb). apply cbind_pass in Hb as (key & _ & Hb).
  apply cbind_pass in Hb as ([] & _ & Hb). apply cbind_pass in Hb as ([] & Hm & Hb).
  apply cbind_pass in Hb as ([] & Hs & Hb). apply cbind_pass in Hb as ([] & Ht & _).
  split; [exact Hm|]. split.
  - unfold check_shape in Hs. apply reject_bind in Hs as [Hs _]. apply orb_false_iff in Hs as [Hs _]. by destruct (vtx b).
  - exists tiptime. unfold check_txs in Ht. apply (each_all _ _) in Ht. rewrite Forall_lookup in Ht.
    apply Forall_lookup. intros i c Hc. exists (Z.of_nat i).
    specialize (Ht i (Z.of_nat i, c)). rewrite list_lookup_imap, Hc in Ht. by apply Ht.
Qed.

Lemma CheckTransaction_nonempty R js tiptime c i n : CheckTransaction R js tiptime c i n = Pass tt ->
  check_version (ct_tx c) = Pass tt /\
  (vin (ct_tx c) <> [] \/ vjoinsplit (ct_tx c) <> [] \/ vShieldedSpend (ct_tx c) <> []) /\
  (vout (ct_tx c) <> [] \/ vjoinsplit (ct_tx c) <> [] \/ vShieldedOutput (ct_tx c) <> []).
Proof.
  unfold CheckTransaction. destruct (tr_isKMD R && _); [done|]. intros Hc. apply reject_bind in Hc as [_ Hc].
  apply cbind_pass in Hc as ([] & Hc & _). unfold CheckTransactionWithoutProofVerification in Hc.
  apply cbind_pass in Hc as ([] & Hv & Hc). apply reject_bind in Hc as [Hi%one_nonempty Hc].
  by apply reject_bind in Hc as [Ho%one_nonempty _].
Qed.

Lemma ContextualCheckBlock_txs N nHeight b prev p : blocks (n_index N) !! prev = Some p -> Chain.nHeight p + 1 = nHeight ->
  node_ContextualCheckBlock N b (Some prev) = Pass tt ->
  Forall (fun c => contextual_tx_check N (ct_tx c) nHeight 100 = Pass tt) (vtx b) /\ check_cb_height b nHeight = Pass tt.
Proof.
  unfold node_ContextualCheckBlock, ContextualCheckBlock. intros Hp Hh Hc.
  apply cbind_pass in Hc as (h & E & Hc). rewrite Hp in E. cbn in E. injection E as E. rewrite Hh in E. subst h.
  apply cbind_pass in Hc as (s & _ & Hc). apply cbind_pass in Hc as (th & _ & Hc). apply cbind_pass in Hc as (ct & _ & Hc).
  apply cbind_pass in Hc as ([] & Ht & Hc). split; [|exact Hc]. apply (each_all _ _) in Ht.
  eapply list.Forall_impl; [exact Ht|]. intros c Hx. unfold contextual_tx in Hx. cbv beta zeta in Hx.
  apply reject_bind in Hx as [_ Hx]. by apply cbind_pass in Hx as ([] & Hx & _).
Qed.

(** From Overwinter on every transaction of a block that passes is longer than 64 bytes. *)
Lemma passes_big N nHeight b : passes N nHeight b -> block_wf b ->
  NetworkUpgradeActive (tr_vUpgrades (n_rules N)) nHeight UPGRADE_OVERWINTER = Some true ->
  Forall (fun c => (64 < length (tx_bytes (ct_tx c)))%nat) (vtx b).
Proof.
  intros [(pi & f & H1) (prev & p & Hp & Hh & H2)] [_ Hw] Ha.
  destruct (CheckBlock_body N nHeight pi b f H1) as (_ & _ & tiptime & Ht).
  destruct (ContextualCheckBlock_txs N nHeight b prev p Hp Hh H2) as [Hc _].
  rewrite Forall_lookup in Ht, Hc, Hw. apply Forall_lookup. intros i c Hi.
  destruct (Ht i c Hi) as [j Hj]. destruct (CheckTransaction_nonempty _ _ _ _ _ _ Hj) as (Hv & Hin & Hout).
  apply big_tx; [by apply (Hw i)| |done|done]. specialize (Hc i c Hi). cbv beta in Hc.
  unfold ContextualCheckTransaction in Hc. rewrite Ha in Hc. cbn [defined cbind] in Hc.
  apply cbind_pass in Hc as (sp & _ & Hc). apply cbind_pass in Hc as (dm & _ & Hc).
  apply cbind_pass in Hc as ([] & _ & Hc). apply cbind_pass in Hc as ([] & He & _).
  by destruct (check_epoch_format _ _ _ _ _ _ He Hv).
Qed.

(** ** The hash commits to the block *)

(** What is hashed for the hash of a block: the header, the transactions and the nodes of the tree. *)
Definition block_inputs (b : CBlock) : list (list Z) :=
  Serialize_CBlockHeader (block_header b) :: map (fun c => tx_bytes (ct_tx c)) (vtx b) ++
  node_inputs (length (map ct_hash (vtx b))) (map ct_hash (vtx b)).

#[local] Opaque Hash.

Lemma leaves_wf b : Forall ctx_wf (vtx b) -> hashes32 (map ct_hash (vtx b)).
Proof.
  intros Hw. unfold hashes32. apply list.Forall_fmap. eapply list.Forall_impl; [exact Hw|].
  intros c (_ & _ & _ & E). unfold compose. rewrite E, Hash_spec. apply hash256_length.
Qed.

Lemma root_of_length f row : hashes32 row -> length (root_of f row) = 32%nat.
Proof.
  revert row. induction f as [|f IH]; intros row Hw; cbn [root_of].
  - by destruct Hw.
  - destruct (1 <? length row)%nat; [apply IH, pair_up_hashes|by destruct Hw].
Qed.

(** The two things that the check of the root says. *)
Lemma check_merkle_root b : block_wf b -> check_merkle b true = Pass tt ->
  let leaves := map ct_hash (vtx b) in
  hashMerkleRoot (block_header b) = root_of (length leaves) leaves /\
  existsb twin_end (rows (length leaves) leaves) = false.
Proof.
  intros [Hh Hw] Hc leaves. pose proof (leaves_wf b Hw) as Hl. fold leaves in Hl.
  destruct (ComputeMerkleRoot_result leaves Hl) as [Hr Hm]. unfold check_merkle, BlockMerkleRoot in Hc. fold leaves in Hc.
  destruct (ComputeMerkleRoot leaves true) as [r m]. cbn [fst snd] in *. subst r.
  apply reject_bind in Hc as [He Hd%reject_if_pass]. split; [|by apply Hm].
  apply negb_false_iff in He. rewrite blob_eq_true in He; [by apply bool_decide_eq_true_1 in He|].
  destruct Hh as (_ & _ & [Hx _] & _). by rewrite Hx, root_of_length.
Qed.

Lemma txs_agree Q l : forall l', Forall ctx_wf l -> Forall ctx_wf l' ->
  Forall (fun c => tx_bytes (ct_tx c) ∈ Q) l -> Forall (fun c => tx_bytes (ct_tx c) ∈ Q) l' ->
  map ct_hash l = map ct_hash l' -> collision_in Q \/ l = l'.
Proof.
  induction l as [|c l IH]; intros [|c' l'] W W' B B' E; try done; [by right|].
  apply list.Forall_cons in W as [Wc W], W' as [Wc' W'], B as [Bc B], B' as [Bc' B']. injection E as Ec El.
  destruct (IH l' W W' B B' El) as [?| ->]; [by left|].
  pose proof Wc as (_ & _ & _ & Hc). pose proof Wc' as (_ & _ & _ & Hc'). rewrite Hc, Hc' in Ec.
  destruct (Hash_inj_in Q _ _ Bc Bc' Ec) as [?|Eb]; [by left|right]. by rewrite (tx_bytes_inj c c').
Qed.

Lemma inputs_tx b Q : block_inputs b ⊆ Q -> Forall (fun c => tx_bytes (ct_tx c) ∈ Q) (vtx b).
Proof.
  intros HQ. apply list.Forall_forall. intros c Hc. apply HQ. unfold block_inputs. right. apply elem_of_app. left.
  by apply (list_elem_of_fmap_2 (fun c => tx_bytes (ct_tx c))).
Qed.

Lemma big_leaves b Q : Forall ctx_wf (vtx b) -> block_inputs b ⊆ Q ->
  Forall (fun c => (64 < length (tx_bytes (ct_tx c)))%nat) (vtx b) -> Forall (no_node Q) (map ct_hash (vtx b)).
Proof.
  intros Hw HQ Hb. apply list.Forall_fmap. apply list.Forall_forall. intros c Hc. unfold no_node, compose.
  exists (tx_bytes (ct_tx c)). rewrite list.Forall_forall in Hb, Hw. specialize (Hb c Hc). destruct (Hw c Hc) as (_ & _ & _ & He).
  pose proof (inputs_tx b Q HQ) as Hi. rewrite list.Forall_forall in Hi. split; [by apply Hi|]. split; [lia|done].
Qed.

Lemma map_ne {A B} (f : A -> B) l : l <> [] -> map f l <> [].
Proof. by destruct l. Qed.

(** [C4] From the Overwinter upgrade on the hash of a block commits to the whole block: two blocks
    that pass the checks of two nodes, at heights where Overwinter is active, and whose headers have
    the same hash have the same header and the same transactions, or else two of the inputs
    hashed for them collide.  Nothing is assumed of the numbers of transactions or of the heights
    of the trees: a transaction is longer than 64 bytes, so no node passes for a transaction, and a
    repeated end of the list (CVE-2012-2459) is rejected. *)
Theorem block_hash_commits N N' h h' b b' :
  passes N h b -> passes N' h' b' -> block_wf b -> block_wf b' ->
  NetworkUpgradeActive (tr_vUpgrades (n_rules N)) h UPGRADE_OVERWINTER = Some true ->
  NetworkUpgradeActive (tr_vUpgrades (n_rules N')) h' UPGRADE_OVERWINTER = Some true ->
  block_hash b = block_hash b' ->
  collision_in (block_inputs b ++ block_inputs b') \/ (block_header b = block_header b' /\ vtx b = vtx b').
Proof.
  intros P P' W W' A A' E. set (Q := block_inputs b ++ block_inputs b').
  assert (block_inputs b ⊆ Q) as Q1 by (by apply list_subseteq_app_l).
  assert (block_inputs b' ⊆ Q) as Q2 by (by apply list_subseteq_app_r).
  destruct (Hash_inj_in Q (Serialize_CBlockHeader (block_header b)) (Serialize_CBlockHeader (block_header b'))) as [?|Eh];
    [apply Q1; left|apply Q2; left|exact E|by left|].
  pose proof (header_bytes_inj _ _ (proj1 W) (proj1 W') Eh) as Ehd.
  pose proof (passes_big N h b P W A) as B1. pose proof (passes_big N' h' b' P' W' A') as B2.
  destruct P as [(pi & f & H1) _], P' as [(pi' & f' & H1') _].
  destruct (CheckBlock_body N h pi b f H1) as (M & Ne & _). destruct (CheckBlock_body N' h' pi' b' f' H1') as (M' & Ne' & _).
  destruct (check_merkle_root b W M) as [R T]. destruct (check_merkle_root b' W' M') as [R' T'].
  assert (forall c, node_inputs (length (map ct_hash (vtx c))) (map ct_hash (vtx c)) ⊆ block_inputs c) as Hn.
  { intros c x Hx. unfold block_inputs. right. apply elem_of_app. by right. }
  destruct (roots_agree Q (map ct_hash (vtx b)) (map ct_hash (vtx b'))) as [?|El]; try done.
  - by apply map_ne.
  - by apply map_ne.
  - by apply leaves_wf, W.
  - by apply leaves_wf, W'.
  - by apply big_leaves; [apply W|..].
  - by apply big_leaves; [apply W'|..].
  - etrans; [apply Hn|done].
  - etrans; [apply Hn|done].
  - congruence.
  - by left.
  - destruct (txs_agree Q (vtx b) (vtx b')) as [?|Ev]; [apply W|apply W'|by apply inputs_tx|by apply inputs_tx|done|by left|].
    right. split; [exact Ehd|exact Ev].
Qed.

(** ** The height in the coinbase *)

Lemma serialize_short n : 0 < n < 2 ^ 39 -> (length (ScriptNum.serialize n) <= 5)%nat /\ ScriptNum.of_vch (ScriptNum.serialize n) true 5 = Some n.
Proof.
  intros Hn. pose proof (ScriptNum.serialize_of_vch n 5 ltac:(lia) ltac:(lia)) as E. split; [|done].
  unfold ScriptNum.of_vch in E. destruct (Z.ltb_spec 5 (Z.of_nat (length (ScriptNum.serialize n)))); [done|lia].
Qed.

(** How a height is pushed: one byte up to 16, and otherwise a length of at most 5 and the bytes. *)
Lemma push_height n : 0 < n < 2 ^ 39 ->
  (1 <= n <= 16 /\ CScript.push_int64 [] n = [80 + n]) \/
  (16 < n /\ CScript.push_int64 [] n = size (ScriptNum.serialize n) :: ScriptNum.serialize n /\ size (ScriptNum.serialize n) <= 5).
Proof.
  intros Hn. destruct (serialize_short n Hn) as [Hl _]. unfold CScript.push_int64.
  destruct (Z.eqb_spec n (-1)); [lia|]. destruct (Z.geb_spec n 1); [|lia]. cbn [orb andb].
  destruct (Z.leb_spec n 16).
  - left. split; [lia|]. cbn [app]. f_equal. rewrite uwrap_small; change (opcode OP_1) with 81; lia.
  - right. split; [lia|]. destruct (Z.eqb_spec n 0); [lia|]. unfold CScript.push_data. cbn [app].
    unfold size. change (opcode OP_PUSHDATA1) with 76.
    destruct (Z.ltb_spec (Z.of_nat (length (ScriptNum.serialize n))) 76); [|lia]. split; [done|lia].
Qed.

(** A script starts with the push of one height only. *)
Lemma push_height_inj n m s : 0 < n < 2 ^ 39 -> 0 < m < 2 ^ 39 ->
  take (length (CScript.push_int64 [] n)) s = CScript.push_int64 [] n ->
  take (length (CScript.push_int64 [] m)) s = CScript.push_int64 [] m -> n = m.
Proof.
  intros Hn Hm. destruct (push_height n Hn) as [[R E]|(R & E & L)], (push_height m Hm) as [[R' E']|(R' & E' & L')];
    rewrite E, E'; destruct s as [|x s]; cbn [length take]; try done.
  - intros [= ->] [= ?]. lia.
  - intros [= ->] [= ? _]. lia.
  - intros [= -> _] [= ?]. lia.
  - intros [= Ex En] [= Ex' Em]. assert (length (ScriptNum.serialize n) = length (ScriptNum.serialize m)) as El.
    { unfold size in *. lia. }
    rewrite El, Em in En. destruct (serialize_short n Hn) as [_ D], (serialize_short m Hm) as [_ D']. congruence.
Qed.

(** [C13] Blocks of different heights have different coinbases (BIP 34): if the coinbases of two blocks
    that pass the checks at their heights have the same hash, the heights are the same, or else the
    bytes of the two transactions collide.  So no accepted block can create again the outputs of a
    coinbase that another height has created. *)
Theorem coinbase_commits_to_height N N' h h' b b' c c' :
  passes N h b -> passes N' h' b' -> block_wf b -> block_wf b' -> 0 < h < 2 ^ 31 -> 0 < h' < 2 ^ 31 ->
  vtx b !! 0%nat = Some c -> vtx b' !! 0%nat = Some c' -> ct_hash c = ct_hash c' ->
  collision_in [tx_bytes (ct_tx c); tx_bytes (ct_tx c')] \/ h = h'.
Proof.
  intros [_ (q & p & Hq & Hp & P)] [_ (q' & p' & Hq' & Hp' & P')] [_ W] [_ W'] Hh Hh' Hc Hc' E.
  destruct (ContextualCheckBlock_txs N h b q p Hq Hp P) as [_ H].
  destruct (ContextualCheckBlock_txs N' h' b' q' p' Hq' Hp' P') as [_ H'].
  rewrite Forall_lookup in W, W'. pose proof (W _ _ Hc) as Wc. pose proof (W' _ _ Hc') as Wc'.
  pose proof Wc as (_ & _ & _ & Ec). pose proof Wc' as (_ & _ & _ & Ec'). rewrite Ec, Ec' in E.
  destruct (Hash_inj_in [tx_bytes (ct_tx c); tx_bytes (ct_tx c')] (tx_bytes (ct_tx c)) (tx_bytes (ct_tx c'))) as [?|Eb];
    [left|right; left|exact E|by left|right].
  pose proof (tx_bytes_inj c c' Wc Wc' Eb) as <-. clear Eb E Ec Ec'.
  unfold check_cb_height in H, H'. destruct (Z.gtb_spec h 0); [|lia]. destruct (Z.gtb_spec h' 0); [|lia].
  rewrite Hc in H. rewrite Hc' in H'. cbn [defined cbind] in H, H'.
  destruct (vin (ct_tx c) !! 0%nat) as [i|]; [|done]. cbn [defined cbind] in H, H'.
  apply reject_if_pass, negb_false_iff, bool_decide_eq_true_1 in H.
  apply reject_if_pass, negb_false_iff, bool_decide_eq_true_1 in H'.
  apply (push_height_inj h h' (scriptSig i)); [lia|lia|done|done].
Qed.

(** ** A node and two blocks *)

(** The next block of a chain whose tip is the object 0. *)
Definition sample_coinbase (height fee : Z) : CTransaction :=
  let t := {| fOverwintered := true; nVersion := 4; nVersionGroupId := SAPLING_VERSION_GROUP_ID;
    vin := [{| prevout := {| op_hash := replicate 32 0; op_n := UINT32_MAX |};
               scriptSig := CScript.push_int64 [] height ++ [1]; nSequence := UINT32_MAX |}];
    vout := [{| nValue := 3 * COIN + fee; scriptPubKey := [81] |}];
    nLockTime := 0; nExpiryHeight := 0; valueBalance := 0; vShieldedSpend := []; vShieldedOutput := []; vjoinsplit := [];
    joinSplitPubKey := replicate 32 0; joinSplitSig := replicate 64 0; bindingSig := replicate 64 0 |} in
  {| ct_tx := t; ct_hash := Hash (tx_bytes t) |}.

Definition next_block (height fee : Z) : CBlock := {|
  block_header := {| bh_nVersion := 4; hashPrevBlock := replicate 32 8; hashMerkleRoot := ct_hash (sample_coinbase height fee);
    hashFinalSaplingRoot := replicate 32 0; bh_nTime := 1600000000; bh_nBits := 0x200f0f0f; bh_nNonce := replicate 32 3;
    bh_nSolution := [7] |};
  vtx := [sample_coinbase height fee]; vMerkleTree := [] |}.

Definition tip_at (height : Z) : BlockIndex := {|
  blocks := [{| phashBlock := Some (replicate 32 8); pprev := None; pskip := None; nHeight := height;
    nChainWork := base_uint_zero; nTx := 1; nChainTx := 1; nStatus := 0; nSequenceId := 0; bi_nVersion := 4;
    bi_hashMerkleRoot := []; bi_hashFinalSaplingRoot := []; bi_nTime := 1599999940; bi_nBits := 0x200f0f0f;
    bi_nNonce := []; bi_nSolution := [] |}];
  mapBlockIndex := {[ replicate 32 8 := Some 0%nat ]}; pindexBestHeader := Some 0%nat; setDirtyBlockIndex := ∅ |}.

Definition sample_node (height : Z) : node := {|
  n_chainName := ""; n_heightstamp := fun _ => 0; n_beyond := fun _ => 0; n_find := fun _ _ => None; n_Pubkeys := [];
  n_garbage := []; n_index := tip_at height; n_chainActive := [Some 0%nat]; n_block_key := fun _ => None;
  n_conditions := {| cc_readConditionBinary := fun _ => None |}; n_ccEnabled := false; n_vSolutionsFix := false;
  n_p0 := {| cp_version := 0; cp_evalCode := 0; cp_m := 0; cp_n := 0; cp_vKeys := []; cp_vData := [] |};
  n_headers := {| h_isKMD := true; h_now := 1600000000; h_solution_ok := fun _ => true; h_genesis := replicate 32 0;
    h_pow := kmd_params 17 0; h_MaxFutureBlockTime := 420; h_fCheckpointsEnabled := true; h_mapCheckpoints := []; h_CC := 0 |};
  n_checks := kmd_check; n_rules := kmd_rules; n_subsidy := fun _ => 3 * COIN; n_GetTransaction := fun _ => None;
  n_memory := fun _ => []; n_joinsplit := fun _ _ => true; n_saplinght := 800; n_MAX_BLOCK_SIGOPS := 20000;
  n_skip_pow := false; n_blake := fun _ _ => replicate 32 0; n_sign_verify := fun _ _ _ => true; n_sapling := unit;
  n_init := tt; n_spend := fun c _ _ => (c, true); n_output := fun c _ => (c, true); n_final := fun _ _ _ _ => true;
  n_rewind := 0 |}.

Lemma next_block_passes height fee : In (height, fee) [(1000, 0); (1000, 5); (1001, 0)] ->
  passes (sample_node (height - 1)) height (next_block height fee).
Proof.
  intros Hin. split.
  - exists None, false. repeat destruct Hin as [[= <- <-]|Hin]; [vm_compute; reflexivity..|done].
  - exists 0%nat. eexists. split; [reflexivity|]. split; [cbn; lia|].
    repeat destruct Hin as [[= <- <-]|Hin]; [vm_compute; reflexivity..|done].
Qed.

Lemma sample_coinbase_wf height fee : In (height, fee) [(1000, 0); (1000, 5); (1001, 0)] -> ctx_wf (sample_coinbase height fee).
Proof.
  intros Hin. split; [|split; [reflexivity|split; reflexivity]].
  unfold tx_wf. repeat destruct Hin as [[= <- <-]|Hin]; [..|done];
    (split_and!; try (by apply (bool_decide_unpack _)); try (unfold uint_wf, sint_wf; cbn; lia);
     (split; [unfold size_wf, MAX_SIZE; cbn; lia|]);
     repeat first [done|constructor]; unfold uint_wf, sint_wf; try lia; by apply (bool_decide_unpack _)).
Qed.

Lemma next_block_wf height fee : In (height, fee) [(1000, 0); (1000, 5); (1001, 0)] -> block_wf (next_block height fee).
Proof.
  intros Hin. split; [|constructor; [by apply sample_coinbase_wf|constructor]].
  assert (blob_wf 32 (ct_hash (sample_coinbase height fee))) as Hr.
  { unfold sample_coinbase. cbn [ct_hash]. rewrite Hash_spec. split; [apply hash256_length|apply hash256_ok]. }
  assert (forall n x, 0 <= x < 256 -> blob_wf n (replicate n x)) as Hb.
  { intros n x Hx. split; [apply length_replicate|]. by apply Forall_replicate. }
  unfold header_wf. cbn [next_block block_header bh_nVersion hashPrevBlock hashMerkleRoot hashFinalSaplingRoot bh_nTime bh_nBits
    bh_nNonce bh_nSolution].
  split; [unfold sint_wf; lia|]. split; [apply (Hb 32%nat); lia|]. split; [exact Hr|]. split; [apply (Hb 32%nat); lia|].
  split; [unfold uint_wf; lia|]. split; [unfold uint_wf; lia|]. split; [apply (Hb 32%nat); lia|].
  split; [unfold size_wf, MAX_SIZE; cbn; lia|]. repeat constructor; lia.
Qed.

Lemma block_hash_commits_witness :
  collision_in (block_inputs (next_block 1000 5) ++ block_inputs (next_block 1000 5)) \/
  (block_header (next_block 1000 5) = block_header (next_block 1000 5) /\ vtx (next_block 1000 5) = vtx (next_block 1000 5)).
Proof.
  apply (block_hash_commits (sample_node 999) (sample_node 999) 1000 1000 (next_block 1000 5) (next_block 1000 5)).
  - apply (next_block_passes 1000 5). right. left. reflexivity.
  - apply (next_block_passes 1000 5). right. left. reflexivity.
  - apply next_block_wf. right. left. reflexivity.
  - apply next_block_wf. right. left. reflexivity.
  - reflexivity.
  - reflexivity.
  - reflexivity.
Defined.

Lemma coinbase_commits_to_height_witness :
  collision_in [tx_bytes (ct_tx (sample_coinbase 1001 0)); tx_bytes (ct_tx (sample_coinbase 1001 0))] \/ 1001 = 1001.
Proof.
  apply (coinbase_commits_to_height (sample_node 1000) (sample_node 1000) 1001 1001 (next_block 1001 0) (next_block 1001 0)
    (sample_coinbase 1001 0) (sample_coinbase 1001 0)).
  - apply (next_block_passes 1001 0). right. right. left. reflexivity.
  - apply (next_block_passes 1001 0). right. right. left. reflexivity.
  - apply next_block_wf. right. right. left. reflexivity.
  - apply next_block_wf. right. right. left. reflexivity.
  - lia.
  - lia.
  - reflexivity.
  - reflexivity.
  - reflexivity.
Defined.

(** ** A read outside an array in [komodo_check_deposit]
    A block whose last transaction pays 5000 satoshis first and spends an output that the transaction
    it names does not have: the check reads the output anyway. *)
Definition outside_tx : CTransaction :=
  let t := {| fOverwintered := true; nVersion := 4; nVersionGroupId := SAPLING_VERSION_GROUP_ID;
    vin := [{| prevout := {| op_hash := ct_hash (sample_coinbase 1000 0); op_n := 1 |}; scriptSig := []; nSequence := UINT32_MAX |}];
    vout := [{| nValue := 5000; scriptPubKey := [81] |}];
    nLockTime := 0; nExpiryHeight := 0; valueBalance := 0; vShieldedSpend := []; vShieldedOutput := []; vjoinsplit := [];
    joinSplitPubKey := replicate 32 0; joinSplitSig := replicate 64 0; bindingSig := replicate 64 0 |} in
  {| ct_tx := t; ct_hash := Hash (tx_bytes t) |}.
Definition outside_block : CBlock := {| block_header := block_header (next_block 1000 0);
  vtx := [sample_coinbase 1000 0; outside_tx]; vMerkleTree := [] |}.

Lemma deposit_reads_outside :
  komodo_check_deposit "" (fun _ => 0) (fun _ => 0) [] [] kmd_rules (fun _ => 0) (fun _ => None) (fun _ => []) 1000 outside_block
  = Undefined.
Proof. vm_compute. reflexivity. Qed.
