(* ===== verification/TextCodec.v ===== *)
(** * TextCodec: bytes as text, [src/src/utilstrencodings.h] and [utilstrencodings.cpp]
    [ConvertBits], base 64, base 32, hexadecimal, and the parser of decimal amounts.  A string is the
    list of its characters as unsigned numbers; a C string ends at its first NUL.  The theorems: what
    is encoded is decoded, and what is accepted is the encoding of the result. *)
From Stdlib Require Import String.
From S2P Require Import Prelude Uint256.
#[local] Open Scope Z_scope.
#[local] Abbreviation length := List.length (only parsing).
#[local] Abbreviation concat := List.concat (only parsing).

(** The characters of a literal, and what [c_str()] shows of a string. *)
Definition chars (s : string) : list Z := map (fun c => Z.of_nat (Ascii.nat_of_ascii c)) (list_ascii_of_string s).

Fixpoint c_str (s : list Z) : list Z :=
  match s with c :: s' => if c =? 0 then [] else c :: c_str s' | [] => [] end.

(** ** Bases *)

(** The number that digits in base [b] stand for, the first digit the highest. *)
Definition be_val (b : Z) (l : list Z) : Z := fold_left (fun a d => a * b + d) l 0.

(** ** ConvertBits *)

Section ConvertBits.
Context (frombits tobits : Z).

Definition maxv : Z := Z.shiftl 1 tobits - 1.
Definition max_acc : Z := Z.shiftl 1 (frombits + tobits - 1) - 1.

(** [while (bits >= tobits)]: every turn takes [tobits] off. *)
Fixpoint emit (fuel : nat) (acc bits : Z) (out : list Z) : Z * list Z :=
  match fuel with
  | S f =>
      if bits >=? tobits then
        let bits := bits - tobits in emit f acc bits (out ++ [Z.land (Z.shiftr acc bits) maxv])
      else (bits, out)
  | O => (bits, out)
  end.

Fixpoint convert_loop (it : list Z) (acc bits : Z) (out : list Z) : Z * Z * list Z :=
  match it with
  | [] => (acc, bits, out)
  | x :: it =>
      let acc := Z.land (Z.lor (Z.shiftl acc frombits) x) max_acc in
      let bits := bits + frombits in
      let '(bits, out) := emit (Z.to_nat bits) acc bits out in
      convert_loop it acc bits out
  end.

(** The result and what [outfn] was called with. *)
Definition ConvertBits (pad : bool) (it : list Z) : bool * list Z :=
  let '(acc, bits, out) := convert_loop it 0 0 [] in
  if pad then
    (true, if negb (bits =? 0) then out ++ [Z.land (Z.shiftl acc (tobits - bits)) maxv] else out)
  else
    (negb ((bits >=? frombits) || negb (Z.land (Z.shiftl acc (tobits - bits)) maxv =? 0)), out).

End ConvertBits.

(** ** Base 64 and base 32 *)

Definition pbase64 : list Z := Eval compute in chars "ABCDEFGHIJKLMNOPQRSTUVWXYZabcdefghijklmnopqrstuvwxyz0123456789+/".
Definition pbase32 : list Z := Eval compute in chars "abcdefghijklmnopqrstuvwxyz234567".

Definition decode64_table : list Z := [
  -1; -1; -1; -1; -1; -1; -1; -1; -1; -1; -1; -1; -1; -1; -1; -1; -1; -1; -1; -1;
  -1; -1; -1; -1; -1; -1; -1; -1; -1; -1; -1; -1; -1; -1; -1; -1; -1; -1; -1; -1;
  -1; -1; -1; 62; -1; -1; -1; 63; 52; 53; 54; 55; 56; 57; 58; 59; 60; 61; -1; -1;
  -1; -1; -1; -1; -1;  0;  1;  2;  3;  4;  5;  6;  7;  8;  9; 10; 11; 12; 13; 14;
  15; 16; 17; 18; 19; 20; 21; 22; 23; 24; 25; -1; -1; -1; -1; -1; -1; 26; 27; 28;
  29; 30; 31; 32; 33; 34; 35; 36; 37; 38; 39; 40; 41; 42; 43; 44; 45; 46; 47; 48;
  49; 50; 51; -1; -1; -1; -1; -1; -1; -1; -1; -1; -1; -1; -1; -1; -1; -1; -1; -1;
  -1; -1; -1; -1; -1; -1; -1; -1; -1; -1; -1; -1; -1; -1; -1; -1; -1; -1; -1; -1;
  -1; -1; -1; -1; -1; -1; -1; -1; -1; -1; -1; -1; -1; -1; -1; -1; -1; -1; -1; -1;
  -1; -1; -1; -1; -1; -1; -1; -1; -1; -1; -1; -1; -1; -1; -1; -1; -1; -1; -1; -1;
  -1; -1; -1; -1; -1; -1; -1; -1; -1; -1; -1; -1; -1; -1; -1; -1; -1; -1; -1; -1;
  -1; -1; -1; -1; -1; -1; -1; -1; -1; -1; -1; -1; -1; -1; -1; -1; -1; -1; -1; -1;
  -1; -1; -1; -1; -1; -1; -1; -1; -1; -1; -1; -1; -1; -1; -1; -1 ].

Definition decode32_table : list Z := [
  -1; -1; -1; -1; -1; -1; -1; -1; -1; -1; -1; -1; -1; -1; -1; -1; -1; -1; -1; -1;
  -1; -1; -1; -1; -1; -1; -1; -1; -1; -1; -1; -1; -1; -1; -1; -1; -1; -1; -1; -1;
  -1; -1; -1; -1; -1; -1; -1; -1; -1; -1; 26; 27; 28; 29; 30; 31; -1; -1; -1; -1;
  -1; -1; -1; -1; -1;  0;  1;  2;  3;  4;  5;  6;  7;  8;  9; 10; 11; 12; 13; 14;
  15; 16; 17; 18; 19; 20; 21; 22; 23; 24; 25; -1; -1; -1; -1; -1; -1;  0;  1;  2;
   3;  4;  5;  6;  7;  8;  9; 10; 11; 12; 13; 14; 15; 16; 17; 18; 19; 20; 21; 22;
  23; 24; 25; -1; -1; -1; -1; -1; -1; -1; -1; -1; -1; -1; -1; -1; -1; -1; -1; -1;
  -1; -1; -1; -1; -1; -1; -1; -1; -1; -1; -1; -1; -1; -1; -1; -1; -1; -1; -1; -1;
  -1; -1; -1; -1; -1; -1; -1; -1; -1; -1; -1; -1; -1; -1; -1; -1; -1; -1; -1; -1;
  -1; -1; -1; -1; -1; -1; -1; -1; -1; -1; -1; -1; -1; -1; -1; -1; -1; -1; -1; -1;
  -1; -1; -1; -1; -1; -1; -1; -1; -1; -1; -1; -1; -1; -1; -1; -1; -1; -1; -1; -1;
  -1; -1; -1; -1; -1; -1; -1; -1; -1; -1; -1; -1; -1; -1; -1; -1; -1; -1; -1; -1;
  -1; -1; -1; -1; -1; -1; -1; -1; -1; -1; -1; -1; -1; -1; -1; -1 ].

(** [while (str.size() % n) str += '=']: at most [n] turns. *)
Fixpoint pad_to (fuel : nat) (n : Z) (str : list Z) : list Z :=
  match fuel with
  | S f => if negb (Z.of_nat (length str) mod n =? 0) then pad_to f n (str ++ [61]) else str
  | O => str
  end.

Definition EncodeBase64 (pch : list Z) : list Z :=
  pad_to 4 4 (map (fun v => nth (Z.to_nat v) pbase64 0) (snd (ConvertBits 8 6 true pch))).
Definition EncodeBase32 (pch : list Z) : list Z :=
  pad_to 8 8 (map (fun v => nth (Z.to_nat v) pbase32 0) (snd (ConvertBits 8 5 true pch))).

(** The digits up to the first character that is none, and the rest. *)
Fixpoint read_digits (table : list Z) (p : list Z) : list Z * list Z :=
  match p with
  | [] => ([], [])
  | c :: p' =>
      if c =? 0 then ([], p)
      else
        let x := nth (Z.to_nat c) table 0 in
        if x =? -1 then ([], p) else let '(val, q) := read_digits table p' in (x :: val, q)
  end.

(** The bytes that are returned and [!*pfInvalid]; [n] characters stand for whole bytes. *)
Definition decode_base (frombits : Z) (n : Z) (table : list Z) (p : list Z) : list Z * bool :=
  let p := c_str p in
  let '(val, q) := read_digits table p in
  let '(valid, ret) := ConvertBits frombits 8 false val in
  let valid := valid && forallb (fun c => c =? 61) q in
  (ret, valid && (Z.of_nat (length p) mod n =? 0) && (Z.of_nat (length q) <? n)).

Definition DecodeBase64 (p : list Z) : list Z * bool := decode_base 6 4 decode64_table p.
Definition DecodeBase32 (p : list Z) : list Z * bool := decode_base 5 8 decode32_table p.

(** ** Hexadecimal *)

Definition HexStr_chars (vch : list Z) : list Z :=
  flat_map (fun val => [hex_char (Z.shiftr val 4); hex_char (Z.land val 15)]) vch.

Definition IsHex (str : list Z) : bool :=
  forallb (fun c => HexDigit c >=? 0) str && (Z.of_nat (length str) >? 0) && (Z.of_nat (length str) mod 2 =? 0).

(** The loop over a C string, which ends with a NUL; every turn takes two characters. *)
Fixpoint parse_hex (fuel : nat) (psz : list Z) : list Z :=
  match fuel with
  | O => []
  | S f =>
      match base_blob.skip_space psz with
      | a :: b :: psz' =>
          if HexDigit a =? -1 then []
          else if HexDigit b =? -1 then []
          else Z.lor (u8 (Z.shiftl (HexDigit a) 4)) (HexDigit b) :: parse_hex f psz'
      | _ => []
      end
  end.

Definition ParseHex (str : list Z) : list Z := parse_hex (length (c_str str)) (c_str str).

Definition SanitizeFilename (str : list Z) : list Z :=
  List.filter (fun c => existsb (Z.eqb c)
    (chars "abcdefghijklmnopqrstuvwxyzABCDEFGHIJKLMNOPQRSTUVWXYZ01234567890")) str.

(** [a], [b]: sequences of bytes. *)
Definition TimingResistantEqual (a b : list Z) : bool :=
  if Z.of_nat (length b) =? 0 then Z.of_nat (length a) =? 0
  else
    let accumulator := Z.lxor (Z.of_nat (length a)) (Z.of_nat (length b)) in
    fold_left (fun acc i => Z.lor acc (Z.lxor (nth i a 0) (nth (i mod length b) b 0)))
      (seq 0 (length a)) accumulator =? 0.

(** ** Bases *)

Lemma digit_inj b d q d' q' : 0 <= d < b -> 0 <= d' < b -> d + q * b = d' + q' * b -> d = d' /\ q = q'.
Proof. intros H H' E. destruct (digit_split b d q H), (digit_split b d' q' H'). rewrite E in *. by split; congruence. Qed.

Section Base.
Context (b : Z) (Hb : 1 < b).

Definition digits_ok (l : list Z) : Prop := Forall (fun d => 0 <= d < b) l.

Lemma fold_be_val l : forall a, fold_left (fun a d => a * b + d) l a = a * b ^ Z.of_nat (length l) + be_val b l.
Proof.
  induction l as [|d l IH]; intros a; cbn [fold_left length]; [unfold be_val; cbn; lia|].
  unfold be_val. cbn [fold_left]. rewrite !IH. rewrite Nat2Z.inj_succ, Z.pow_succ_r by lia. lia.
Qed.

Lemma be_val_app l k : be_val b (l ++ k) = be_val b l * b ^ Z.of_nat (length k) + be_val b k.
Proof. unfold be_val at 1. rewrite fold_left_app. apply fold_be_val. Qed.

Lemma be_val_snoc l d : be_val b (l ++ [d]) = be_val b l * b + d.
Proof. rewrite be_val_app. cbn [length]. unfold be_val at 2. cbn. lia. Qed.

Lemma be_val_cons d l : be_val b (d :: l) = d * b ^ Z.of_nat (length l) + be_val b l.
Proof. change (d :: l) with ([d] ++ l). rewrite be_val_app. unfold be_val at 1. cbn. lia. Qed.

Lemma be_val_bound l : digits_ok l -> 0 <= be_val b l < b ^ Z.of_nat (length l).
Proof.
  induction 1 as [|d l Hd Hl IH]; [done|]. rewrite be_val_cons. cbn [length].
  rewrite Nat2Z.inj_succ, Z.pow_succ_r by lia. nia.
Qed.

(** Digits of the same number in the same places are the same. *)
Lemma be_val_inj l : forall k, digits_ok l -> digits_ok k -> length l = length k -> be_val b l = be_val b k -> l = k.
Proof.
  induction l as [|d l IH]; intros [|e k] Hl Hk Hn Hv; try done.
  apply list.Forall_cons in Hl as [Hd Hl]. apply list.Forall_cons in Hk as [He Hk]. injection Hn as Hn.
  rewrite !be_val_cons, Hn in Hv.
  pose proof (be_val_bound l Hl) as Bl. pose proof (be_val_bound k Hk) as Bk. rewrite Hn in Bl.
  assert (d = e) as -> by nia. f_equal. apply IH; [done..|lia].
Qed.

Lemma be_val_zeros n : be_val b (replicate n 0) = 0.
Proof. induction n as [|n IH]; [done|]. cbn [replicate]. rewrite be_val_cons, IH. lia. Qed.

End Base.

(** ** ConvertBits *)

Section ConvertLaws.
Context (frombits tobits : Z) (Hf : 1 <= frombits) (Ht : 1 <= tobits).
#[local] Abbreviation vfrom := (be_val (2 ^ frombits)).
#[local] Abbreviation vto := (be_val (2 ^ tobits)).
#[local] Abbreviation len l := (Z.of_nat (length l)).

Lemma base_gt w : 1 <= w -> 1 < 2 ^ w.
Proof. intros H. change 1 with (2 ^ 0). apply Z.pow_lt_mono_r; lia. Qed.

Lemma maxv_ones : maxv tobits = Z.ones tobits.
Proof. unfold maxv. by rewrite Z.ones_equiv, Z.shiftl_1_l, Z.sub_1_r. Qed.

(** The digits taken off and what is left are the number there was. *)
Lemma emit_spec fuel : forall acc bits out, 0 <= bits <= Z.of_nat fuel -> 0 <= acc -> digits_ok (2 ^ tobits) out ->
  exists bits' out', emit tobits fuel acc bits out = (bits', out') /\ 0 <= bits' < tobits /\ digits_ok (2 ^ tobits) out' /\
    len out' * tobits + bits' = len out * tobits + bits /\
    vto out' * 2 ^ bits' + acc mod 2 ^ bits' = vto out * 2 ^ bits + acc mod 2 ^ bits.
Proof.
  induction fuel as [|f IH]; intros acc bits out Hb Ha Ho; cbn [emit].
  - exists bits, out. split_and!; [done|lia|lia|done|done|done].
  - rewrite Z.geb_leb. destruct (Z.leb_spec tobits bits) as [Hge|]; [|exists bits, out; split_and!; [done|lia|lia|done..]].
    cbv zeta. set (d := Z.land _ _).
    assert (d = acc / 2 ^ (bits - tobits) mod 2 ^ tobits) as Hd
      by (unfold d; by rewrite maxv_ones, Z.land_ones, Z.shiftr_div_pow2 by lia).
    pose proof (Z.pow_pos_nonneg 2 tobits ltac:(lia) ltac:(lia)) as Hp.
    destruct (IH acc (bits - tobits) (out ++ [d])) as (b' & o' & -> & Hb' & Ho' & Hl & Hv); [lia|done| |].
    { apply Forall_app. split; [done|]. constructor; [|done]. rewrite Hd. by apply Z.mod_pos_bound. }
    exists b', o'. split_and!; [done|lia|lia|done| |].
    + rewrite Hl, length_app. cbn [length]. lia.
    + rewrite Hv, be_val_snoc by (by apply base_gt).
      replace bits with (bits - tobits + tobits) at 3 4 by lia. rewrite Z.pow_add_r by lia.
      pose proof (Z.pow_pos_nonneg 2 (bits - tobits) ltac:(lia) ltac:(lia)).
      rewrite (Z.rem_mul_r acc (2 ^ (bits - tobits)) (2 ^ tobits)) by lia. rewrite <- Hd. lia.
Qed.

Lemma convert_loop_spec it : forall p acc bits out, digits_ok (2 ^ frombits) it -> 0 <= bits < tobits -> 0 <= acc ->
  digits_ok (2 ^ tobits) out -> len out * tobits + bits = len p * frombits ->
  vto out * 2 ^ bits + acc mod 2 ^ bits = vfrom p ->
  exists acc' bits' out', convert_loop frombits tobits it acc bits out = (acc', bits', out') /\ 0 <= bits' < tobits /\
    0 <= acc' /\ digits_ok (2 ^ tobits) out' /\ len out' * tobits + bits' = len (p ++ it) * frombits /\
    vto out' * 2 ^ bits' + acc' mod 2 ^ bits' = vfrom (p ++ it).
Proof.
  induction it as [|x it IH]; intros p acc bits out Hit Hb Ha Ho Hl Hv; cbn [convert_loop].
  - exists acc, bits, out. rewrite app_nil_r. split_and!; (done || lia).
  - apply list.Forall_cons in Hit as [Hx Hit].
    set (acc' := Z.land _ _). set (bits1 := bits + frombits).
    pose proof (Z.pow_pos_nonneg 2 frombits ltac:(lia) ltac:(lia)) as Hp.
    set (y := acc * 2 ^ frombits + x).
    assert (acc' = y mod 2 ^ (frombits + tobits - 1)) as Ea.
    { unfold acc', max_acc. rewrite Z.shiftl_1_l, Z.sub_1_r, <- Z.ones_equiv, Z.land_ones by lia. f_equal.
      rewrite Z.shiftl_mul_pow2, Z.lor_comm, lor_add by lia. unfold y. lia. }
    assert (acc' mod 2 ^ bits1 = (acc mod 2 ^ bits) * 2 ^ frombits + x) as Em.
    { rewrite Ea, mod_pow_mod by (unfold bits1; lia). unfold y, bits1. rewrite Z.add_comm, Z.pow_add_r by lia.
      pose proof (Z.pow_pos_nonneg 2 bits ltac:(lia) ltac:(lia)).
      rewrite (Z.mul_comm (2 ^ bits)), Z.rem_mul_r by lia.
      destruct (digit_split (2 ^ frombits) x acc Hx) as [-> ->]. lia. }
    assert (0 <= acc') as Ha' by (rewrite Ea; apply Z.mod_pos_bound, Z.pow_pos_nonneg; lia).
    destruct (emit_spec (Z.to_nat bits1) acc' bits1 out) as (b' & o' & -> & Hb' & Ho' & Hl' & Hv');
      [unfold bits1; lia|done|done|].
    replace (p ++ x :: it) with ((p ++ [x]) ++ it) by (by rewrite <- app_assoc).
    apply IH; [done..| |].
    + rewrite Hl', length_app. cbn [length]. unfold bits1. lia.
    + rewrite Hv', Em, be_val_snoc by (by apply base_gt). rewrite <- Hv. unfold bits1. rewrite Z.pow_add_r by lia. lia.
Qed.

Lemma low_digits acc bits : 0 <= bits < tobits -> 0 <= acc ->
  Z.land (Z.shiftl acc (tobits - bits)) (maxv tobits) = (acc mod 2 ^ bits) * 2 ^ (tobits - bits).
Proof.
  intros Hb Ha. rewrite maxv_ones, Z.land_ones, Z.shiftl_mul_pow2 by lia.
  replace tobits with (bits + (tobits - bits)) at 2 by lia. rewrite Z.pow_add_r by lia.
  rewrite Z.mul_mod_distr_r; [done|..]; apply Z.pow_nonzero; lia.
Qed.

(** With padding, the digits are those of the number and of [k] zero bits. *)
Lemma ConvertBits_pad it : digits_ok (2 ^ frombits) it -> exists out k,
  ConvertBits frombits tobits true it = (true, out) /\ digits_ok (2 ^ tobits) out /\ 0 <= k < tobits /\ len out * tobits = len it * frombits + k /\ vto out = vfrom it * 2 ^ k.
Proof.
  intros Hit. destruct (convert_loop_spec it [] 0 0 []) as (acc & bits & out & Ec & Hb & Ha & Ho & Hl & Hv);
    [done|lia|lia|constructor|done|done|].
  unfold ConvertBits. rewrite Ec. cbn [app] in *. pose proof (base_gt tobits Ht).
  destruct (Z.eqb_spec bits 0) as [->|Hne]; cbn [negb].
  - exists out, 0. rewrite Z.mod_1_r in Hv. split_and!; (done || lia).
  - rewrite low_digits by lia. set (d := _ * _). exists (out ++ [d]), (tobits - bits).
    pose proof (Z.mod_pos_bound acc (2 ^ bits) ltac:(apply Z.pow_pos_nonneg; lia)) as Hm.
    assert (2 ^ tobits = 2 ^ bits * 2 ^ (tobits - bits)) as Ep by (rewrite <- Z.pow_add_r by lia; f_equal; lia).
    pose proof (Z.pow_pos_nonneg 2 (tobits - bits) ltac:(lia) ltac:(lia)).
    split_and!; [done| |lia|lia| |].
    + apply Forall_app. split; [done|]. constructor; [|done]. unfold d. rewrite Ep. nia.
    + rewrite length_app. cbn [length]. lia.
    + rewrite be_val_snoc by done. rewrite <- Hv, Ep. unfold d. lia.
Qed.

(** Without, [r] is what is left, which must be fewer than [frombits] bits, and zeros. *)
Lemma ConvertBits_exact it : digits_ok (2 ^ frombits) it -> exists ok out bits r,
  ConvertBits frombits tobits false it = (ok, out) /\ digits_ok (2 ^ tobits) out /\ 0 <= bits < tobits /\ len out * tobits + bits = len it * frombits /\ 0 <= r < 2 ^ bits /\ vto out * 2 ^ bits + r = vfrom it /\  (ok = true <-> bits < frombits /\ r = 0).
Proof.
  intros Hit. destruct (convert_loop_spec it [] 0 0 []) as (acc & bits & out & Ec & Hb & Ha & Ho & Hl & Hv);
    [done|lia|lia|constructor|done|done|].
  unfold ConvertBits. rewrite Ec. cbn [app] in *. exists (negb ((bits >=? frombits) || negb (Z.land (Z.shiftl acc (tobits - bits)) (maxv tobits) =? 0))), out, bits, (acc mod 2 ^ bits).
  pose proof (Z.mod_pos_bound acc (2 ^ bits) ltac:(apply Z.pow_pos_nonneg; lia)).
  split; [done|]. split; [done|]. split; [lia|]. split; [lia|]. split; [lia|]. split; [done|].
  rewrite low_digits by lia. pose proof (Z.pow_pos_nonneg 2 (tobits - bits) ltac:(lia) ltac:(lia)).
  rewrite negb_true_iff, orb_false_iff, negb_false_iff, Z.geb_leb, Z.leb_gt, Z.eqb_eq. nia.
Qed.
End ConvertLaws.

(** Wider digits to narrower ones and back: what is encoded is decoded, and only encodings are
    accepted. *)
Lemma ConvertBits_back w n it : 1 <= n <= w -> digits_ok (2 ^ w) it ->
  ConvertBits n w false (snd (ConvertBits w n true it)) = (true, it).
Proof.
  intros Hw Hit. destruct (ConvertBits_pad w n ltac:(lia) ltac:(lia) it Hit) as (q & k & -> & Hq & Hk & Hlq & Hvq).
  cbn [snd]. destruct (ConvertBits_exact n w ltac:(lia) ltac:(lia) q Hq) as (ok & out & bits & r & -> & Ho & Hb & Hl & Hr & Hv & Hok).
  assert (bits = k /\ length out = length it) as [-> El].
  { destruct (digit_inj w bits (Z.of_nat (length out)) k (Z.of_nat (length it))); [lia..|]. split; lia. }
  assert (r = 0 /\ be_val (2 ^ w) out = be_val (2 ^ w) it) as [-> Ev].
  { rewrite Hvq in Hv. destruct (digit_inj (2 ^ k) r (be_val (2 ^ w) out) 0 (be_val (2 ^ w) it)); [lia..|done]. }
  f_equal; [apply Hok; lia|]. by apply (be_val_inj (2 ^ w) (base_gt w ltac:(lia))).
Qed.

Lemma ConvertBits_only w n q : 1 <= n <= w -> digits_ok (2 ^ n) q ->
  fst (ConvertBits n w false q) = true ->
  digits_ok (2 ^ w) (snd (ConvertBits n w false q)) /\ ConvertBits w n true (snd (ConvertBits n w false q)) = (true, q).
Proof.
  intros Hw Hq. destruct (ConvertBits_exact n w ltac:(lia) ltac:(lia) q Hq) as (ok & out & bits & r & -> & Ho & Hb & Hl & Hr & Hv & Hok).
  cbn [fst snd]. intros Ht%Hok. split; [done|].
  destruct (ConvertBits_pad w n ltac:(lia) ltac:(lia) out Ho) as (q' & k & -> & Hq' & Hk & Hlq & Hvq).
  assert (k = bits /\ length q' = length q) as [-> El].
  { destruct (digit_inj n k (Z.of_nat (length q)) bits (Z.of_nat (length q'))); [lia..|]. split; lia. }
  f_equal.
  apply (be_val_inj (2 ^ n) (base_gt n ltac:(lia))); [done..|]. lia.
Qed.

(** ** Base 64 and base 32 *)

Lemma pad_to_spec g fuel : forall s : list Z, 0 < g -> g - Z.of_nat (length s) mod g <= Z.of_nat fuel ->
  exists m, pad_to fuel g s = s ++ replicate m 61 /\ Z.of_nat m < g /\ (Z.of_nat (length s) + Z.of_nat m) mod g = 0.
Proof.
  induction fuel as [|f IH]; intros s Hg Hf; pose proof (Z.mod_pos_bound (Z.of_nat (length s)) g Hg); [lia|].
  cbn [pad_to]. destruct (Z.eqb_spec (Z.of_nat (length s) mod g) 0) as [E|E]; cbn [negb].
  { exists 0%nat. rewrite app_nil_r, Z.add_0_r. split_and!; (done || lia). }
  assert (Z.of_nat (length (s ++ [61])) = Z.of_nat (length s) + 1) as El by (rewrite length_app; cbn; lia).
  assert (Z.of_nat (length s) mod g = g - 1 \/ Z.of_nat (length s) mod g < g - 1) as [E1|Hlt] by lia.
  - exists 1%nat. assert ((Z.of_nat (length s) + Z.of_nat 1) mod g = 0) as E0.
    { rewrite <- Z.add_mod_idemp_l, E1 by lia. replace (g - 1 + Z.of_nat 1) with (1 * g) by lia. apply Z.mod_mul. lia. }
    destruct f as [|f']; cbn [pad_to]; [split_and!; (done || lia)|].
    rewrite El. replace (Z.of_nat (length s) + 1) with (Z.of_nat (length s) + Z.of_nat 1) by lia. rewrite E0.
    split_and!; (done || lia).
  - assert (Z.of_nat (length (s ++ [61])) mod g = Z.of_nat (length s) mod g + 1) as Em.
    { rewrite El, <- Z.add_mod_idemp_l by lia. apply Z.mod_small. lia. }
    destruct (IH (s ++ [61]) Hg) as (m & -> & Hm & E0); [lia|]. exists (S m). rewrite <- app_assoc. split; [done|].
    rewrite El in E0. replace (Z.of_nat (length s) + Z.of_nat (S m)) with (Z.of_nat (length s) + 1 + Z.of_nat m) by lia.
    split; [|done].
    assert (Z.of_nat m <> g - 1); [|lia]. intros Hmg. rewrite Hmg in E0.
    replace (Z.of_nat (length s) + 1 + (g - 1)) with (Z.of_nat (length s) + 1 * g) in E0 by lia.
    rewrite Z.mod_add in E0 by lia. done.
Qed.

Section Codec.
Context (n g : Z) (alphabet table : list Z) (canon : Z -> Z).
Context (Hn : 1 <= n <= 8) (Hg : 0 < g).
(** Each digit has a character that is neither NUL nor [=] and stands for it, and a character
    stands for a digit when its canonical form is the digit's. *)
Context (Halpha : forall v, 0 <= v < 2 ^ n -> let c := nth (Z.to_nat v) alphabet 0 in
  c <> 0 /\ c <> 61 /\ nth (Z.to_nat c) table 0 = v /\ canon c = c).
Context (Htable : forall c, is_byte c -> nth (Z.to_nat c) table 0 = -1 \/
  (0 <= nth (Z.to_nat c) table 0 < 2 ^ n /\ nth (Z.to_nat (nth (Z.to_nat c) table 0)) alphabet 0 = canon c)).
Context (Hpad : nth (Z.to_nat 61) table 0 = -1 /\ canon 61 = 61).

Definition encode_base (s : list Z) : list Z :=
  pad_to (Z.to_nat g) g (map (fun v => nth (Z.to_nat v) alphabet 0) (snd (ConvertBits 8 n true s))).

Lemma read_digits_map q m : digits_ok (2 ^ n) q ->
  read_digits table (map (fun v => nth (Z.to_nat v) alphabet 0) q ++ replicate m 61) = (q, replicate m 61).
Proof.
  induction 1 as [|v q Hv Hq IH]; cbn [map app read_digits].
  - destruct m; [done|]. cbn [replicate read_digits]. by rewrite (proj1 Hpad).
  - destruct (Halpha v Hv) as (H0 & _ & Ht & _). destruct (Z.eqb_spec (nth (Z.to_nat v) alphabet 0) 0); [done|].
    rewrite Ht. destruct (Z.eqb_spec v (-1)); [lia|]. by rewrite IH.
Qed.

Lemma c_str_id p : ~ In 0 p -> c_str p = p.
Proof.
  induction p as [|c p IH]; [done|]. intros Hp. cbn [c_str]. destruct (Z.eqb_spec c 0) as [->|]; [destruct Hp; by left|].
  f_equal. apply IH. intros H. apply Hp. by right.
Qed.

Lemma alphabet_no_nul q m : digits_ok (2 ^ n) q ->
  ~ In 0 (map (fun v => nth (Z.to_nat v) alphabet 0) q ++ replicate m 61).
Proof.
  intros Hq [(v & Hv & Hin)%in_map_iff|Hin]%in_app_iff.
  - unfold digits_ok in Hq. rewrite list.Forall_forall in Hq. destruct (Halpha v (Hq v ltac:(by apply list_elem_of_In))) as [Hne _]. done.
  - apply list_elem_of_In, elem_of_replicate in Hin. by destruct Hin.
Qed.

Lemma forallb_pads m : forallb (fun c => c =? 61) (replicate m 61) = true.
Proof. by induction m. Qed.

Lemma decode_encode s : bytes_ok s -> decode_base n g table (encode_base s) = (s, true).
Proof.
  intros Hs. unfold encode_base. destruct (ConvertBits 8 n true s) as [b q] eqn:Ec.
  pose proof (ConvertBits_back 8 n s Hn Hs) as Hback. rewrite Ec in Hback. cbn [snd] in *.
  destruct (ConvertBits_pad 8 n ltac:(lia) ltac:(lia) s Hs) as (q' & k & E & Hq & _). rewrite Ec in E. injection E as _ <-.
  destruct (pad_to_spec g (Z.to_nat g) (map (fun v => nth (Z.to_nat v) alphabet 0) q) Hg) as (m & -> & Hm & E0).
  { pose proof (Z.mod_pos_bound (Z.of_nat (length (map (fun v => nth (Z.to_nat v) alphabet 0) q))) g Hg). lia. }
  unfold decode_base. rewrite c_str_id by (by apply alphabet_no_nul). rewrite read_digits_map by done.
  rewrite Hback, forallb_pads. f_equal. cbn [andb]. rewrite length_app, Nat2Z.inj_add, length_replicate, E0.
  apply andb_true_iff. split; [done|]. by apply Z.ltb_lt.
Qed.

Lemma read_digits_spec p : bytes_ok p -> exists pre q, p = pre ++ q /\ read_digits table p = (map (fun c => nth (Z.to_nat c) table 0) pre, q) /\
  digits_ok (2 ^ n) (map (fun c => nth (Z.to_nat c) table 0) pre) /\
  map (fun v => nth (Z.to_nat v) alphabet 0) (map (fun c => nth (Z.to_nat c) table 0) pre) = map canon pre.
Proof.
  induction 1 as [|c p Hc Hp (pre & q & -> & Hr & Hd & Hm)]; [by exists [], []; split_and!; [..|constructor|]|].
  cbn [read_digits]. destruct (Z.eqb_spec c 0); [by exists [], (c :: pre ++ q); split_and!; [..|constructor|]|].
  destruct (Z.eqb_spec (nth (Z.to_nat c) table 0) (-1)) as [|Hne]; [by exists [], (c :: pre ++ q); split_and!; [..|constructor|]|].
  destruct (Htable c Hc) as [?|[Hx Ha]]; [done|]. exists (c :: pre), q. cbn [map]. rewrite Hr, Ha, Hm.
  split_and!; [done|done|by constructor|done].
Qed.

Lemma all_pads q : forallb (fun c => c =? 61) q = true -> q = replicate (length q) 61.
Proof.
  induction q as [|c q IH]; [done|]. cbn [forallb length replicate]. intros [E%Z.eqb_eq H]%andb_true_iff. subst.
  f_equal. by apply IH.
Qed.

Lemma map_pads m : map canon (replicate m 61) = replicate m 61.
Proof. induction m as [|m IH]; [done|]. cbn [replicate map]. by rewrite IH, (proj2 Hpad). Qed.

Lemma decode_only p : bytes_ok p -> ~ In 0 p -> snd (decode_base n g table p) = true ->
  bytes_ok (fst (decode_base n g table p)) /\ encode_base (fst (decode_base n g table p)) = map canon p.
Proof.
  intros Hp H0. unfold decode_base. rewrite c_str_id by done.
  destruct (read_digits_spec p Hp) as (pre & q & -> & -> & Hd & Hm). set (val := map _ pre) in *.
  pose proof (ConvertBits_only 8 n val Hn Hd) as Honly.
  destruct (ConvertBits n 8 false val) as [ok ret]. cbn [fst snd] in *.
  rewrite !andb_true_iff, Z.eqb_eq, Z.ltb_lt. intros [[[-> Hq] E0] Hlt].
  destruct (Honly eq_refl) as [Hret Hc]. split; [done|]. unfold encode_base. rewrite Hc. cbn [snd]. rewrite Hm.
  apply all_pads in Hq. destruct (pad_to_spec g (Z.to_nat g) (map canon pre) Hg) as (m & -> & Hlm & Em).
  { pose proof (Z.mod_pos_bound (Z.of_nat (length (map canon pre))) g Hg). lia. }
  rewrite map_app. f_equal. rewrite Hq, map_pads. f_equal.
  rewrite length_map in Em. rewrite length_app, Nat2Z.inj_add in E0.
  apply Nat2Z.inj. set (a := Z.of_nat (length pre)) in *.
  pose proof (Z.div_mod (a + Z.of_nat m) g ltac:(lia)). pose proof (Z.div_mod (a + Z.of_nat (length q)) g ltac:(lia)).
  rewrite Em in *. rewrite E0 in *.
  destruct (digit_inj g (Z.of_nat m) ((a + Z.of_nat (length q)) / g) (Z.of_nat (length q)) ((a + Z.of_nat m) / g)); lia.
Qed.
End Codec.

(** A test on the numbers below [k]. *)
Lemma below_all (P : Z -> bool) k : forallb P (map Z.of_nat (seq 0 (Z.to_nat k))) = true -> forall v, 0 <= v < k -> P v = true.
Proof.
  intros H v Hv. rewrite forallb_forall in H. apply H, in_map_iff. exists (Z.to_nat v).
  split; [lia|]. apply in_seq. lia.
Qed.

Definition alphabet_ok (n : Z) (alphabet table : list Z) (canon : Z -> Z) (v : Z) : bool :=
  let c := nth (Z.to_nat v) alphabet 0 in
  negb (c =? 0) && negb (c =? 61) && (nth (Z.to_nat c) table 0 =? v) && (canon c =? c).

Definition table_ok (n : Z) (alphabet table : list Z) (canon : Z -> Z) (c : Z) : bool :=
  let x := nth (Z.to_nat c) table 0 in
  (x =? -1) || ((0 <=? x) && (x <? 2 ^ n) && (nth (Z.to_nat x) alphabet 0 =? canon c)).

Lemma tables_ok n alphabet table canon :
  forallb (alphabet_ok n alphabet table canon) (map Z.of_nat (seq 0 (Z.to_nat (2 ^ n)))) = true ->
  forallb (table_ok n alphabet table canon) (map Z.of_nat (seq 0 (Z.to_nat 256))) = true ->
  (forall v, 0 <= v < 2 ^ n -> let c := nth (Z.to_nat v) alphabet 0 in
     c <> 0 /\ c <> 61 /\ nth (Z.to_nat c) table 0 = v /\ canon c = c) /\
  (forall c, is_byte c -> nth (Z.to_nat c) table 0 = -1 \/
     (0 <= nth (Z.to_nat c) table 0 < 2 ^ n /\ nth (Z.to_nat (nth (Z.to_nat c) table 0)) alphabet 0 = canon c)).
Proof.
  intros Ha Ht. split.
  - intros v Hv. pose proof (below_all _ _ Ha v Hv) as H. unfold alphabet_ok in H. propify. cbv zeta. done.
  - intros c Hc. pose proof (below_all _ _ Ht c Hc) as H. unfold table_ok in H.
    apply orb_true_iff in H as [H|H]; propify; [by left|right; lia].
Qed.

Lemma tables64 : (forall v, 0 <= v < 2 ^ 6 -> let c := nth (Z.to_nat v) pbase64 0 in
    c <> 0 /\ c <> 61 /\ nth (Z.to_nat c) decode64_table 0 = v /\ id c = c) /\
  (forall c, is_byte c -> nth (Z.to_nat c) decode64_table 0 = -1 \/
     (0 <= nth (Z.to_nat c) decode64_table 0 < 2 ^ 6 /\
      nth (Z.to_nat (nth (Z.to_nat c) decode64_table 0)) pbase64 0 = id c)).
Proof. apply tables_ok; vm_compute; reflexivity. Qed.

Lemma tables32 : (forall v, 0 <= v < 2 ^ 5 -> let c := nth (Z.to_nat v) pbase32 0 in
    c <> 0 /\ c <> 61 /\ nth (Z.to_nat c) decode32_table 0 = v /\ tolower c = c) /\
  (forall c, is_byte c -> nth (Z.to_nat c) decode32_table 0 = -1 \/
     (0 <= nth (Z.to_nat c) decode32_table 0 < 2 ^ 5 /\
      nth (Z.to_nat (nth (Z.to_nat c) decode32_table 0)) pbase32 0 = tolower c)).
Proof. apply tables_ok; vm_compute; reflexivity. Qed.

(** Base 64 and base 32: what is encoded is decoded to the same bytes; and a string without NULs
    that is accepted is the encoding of the bytes it gives, in base 32 up to the case of its letters. *)
Theorem base_codecs s p : bytes_ok s -> bytes_ok p -> ~ In 0 p ->
  DecodeBase64 (EncodeBase64 s) = (s, true) /\ DecodeBase32 (EncodeBase32 s) = (s, true) /\
  (snd (DecodeBase64 p) = true -> EncodeBase64 (fst (DecodeBase64 p)) = p) /\
  (snd (DecodeBase32 p) = true -> EncodeBase32 (fst (DecodeBase32 p)) = map tolower p).
Proof.
  intros Hs Hp H0. destruct tables64 as [A64 T64], tables32 as [A32 T32].
  split; [|split; [|split]].
  - exact (decode_encode 6 4 pbase64 decode64_table id ltac:(lia) ltac:(lia) A64 (conj eq_refl eq_refl) s Hs).
  - exact (decode_encode 5 8 pbase32 decode32_table tolower ltac:(lia) ltac:(lia) A32 (conj eq_refl eq_refl) s Hs).
  - intros Hv. rewrite <- (map_id p) at 2.
    exact (proj2 (decode_only 6 4 pbase64 decode64_table id ltac:(lia) ltac:(lia) T64 (conj eq_refl eq_refl) p Hp H0 Hv)).
  - intros Hv.
    exact (proj2 (decode_only 5 8 pbase32 decode32_table tolower ltac:(lia) ltac:(lia) T32 (conj eq_refl eq_refl) p Hp H0 Hv)).
Qed.

Lemma base_codecs_witness :
  DecodeBase64 (EncodeBase64 (chars "foob")) = (chars "foob", true) /\
  EncodeBase32 (fst (DecodeBase32 (chars "MzXW6===")) ) = map tolower (chars "MzXW6===").
Proof.
  assert (bytes_ok (chars "foob")) as H1 by (apply (bool_decide_unpack _); vm_compute; exact I).
  assert (bytes_ok (chars "MzXW6===")) as H2 by (apply (bool_decide_unpack _); vm_compute; exact I).
  assert (~ In 0 (chars "MzXW6===")) as H3 by (vm_compute; intros H; repeat (destruct H as [H|H]; [discriminate|]); exact H).
  destruct (base_codecs (chars "foob") (chars "MzXW6===") H1 H2 H3) as (E1 & _ & _ & E2).
  split; [exact E1|]. apply E2. vm_compute. reflexivity.
Defined.

Example base64_text : EncodeBase64 (chars "foob") = chars "Zm9vYg==".
Proof. vm_compute. reflexivity. Qed.

(** ** Hexadecimal *)

Lemma hex_not_space d : 0 <= d < 16 -> isspace (hex_char d) = false.
Proof. intros Hd. pose proof (hex_char_range d Hd). unfold isspace. apply orb_false_iff. split; [lia|]. apply andb_false_iff. lia. Qed.

Lemma nibble_ranges v : is_byte v -> 0 <= Z.shiftr v 4 < 16 /\ 0 <= Z.land v 15 < 16.
Proof.
  unfold is_byte. intros H. rewrite Z.shiftr_div_pow2 by lia. change 15 with (Z.ones 4). rewrite Z.land_ones by lia.
  change (2 ^ 4) with 16. split; [|by apply Z.mod_pos_bound]. split; [apply Z.div_pos|apply Z.div_lt_upper_bound]; lia.
Qed.

Lemma nibbles_value v : is_byte v -> Z.lor (u8 (Z.shiftl (Z.shiftr v 4) 4)) (Z.land v 15) = v.
Proof.
  intros Hv. rewrite Z.lor_comm. change 15 with (Z.ones 4). rewrite Z.land_ones by lia.
  rewrite Z.shiftr_div_pow2 by lia. by apply nibbles_join.
Qed.

Lemma HexStr_digits l : bytes_ok l -> Forall (fun c => exists d, 0 <= d < 16 /\ c = hex_char d) (HexStr_chars l).
Proof.
  induction 1 as [|v l Hv Hl IH]; [constructor|]. destruct (nibble_ranges v Hv).
  cbn [HexStr_chars flat_map app]. constructor; [by eexists; split; [|reflexivity]|]. constructor; [by eexists; split; [|reflexivity]|done].
Qed.

(** A hexadecimal dump is hexadecimal and reads back as the bytes. *)
Lemma hex_text_round_trip l : bytes_ok l -> ParseHex (HexStr_chars l) = l /\ (l <> [] -> IsHex (HexStr_chars l) = true).
Proof.
  intros Hl. pose proof (HexStr_digits l Hl) as Hd. split.
  - assert (c_str (HexStr_chars l) = HexStr_chars l) as Ec.
    { apply c_str_id. intros Hin. rewrite list.Forall_forall in Hd.
      destruct (Hd 0 ltac:(by apply list_elem_of_In)) as (d & H & E). pose proof (hex_char_range d H). lia. }
    unfold ParseHex. rewrite Ec. clear Ec Hd.
    assert (forall f, (length (HexStr_chars l) <= f)%nat -> parse_hex f (HexStr_chars l) = l) as H; [|by apply H].
    induction Hl as [|v l Hv Hl IH]; intros f Hf; [by destruct f|]. cbn [HexStr_chars flat_map app length] in *.
    destruct f as [|f]; [cbn in Hf; lia|]. destruct (nibble_ranges v Hv) as [H1 H2]. cbn [parse_hex base_blob.skip_space].
    rewrite hex_not_space by done. rewrite !HexDigit_hex_char by done.
    destruct (Z.eqb_spec (Z.shiftr v 4) (-1)); [lia|]. destruct (Z.eqb_spec (Z.land v 15) (-1)); [lia|].
    rewrite nibbles_value by done. f_equal. apply IH. unfold HexStr_chars. cbn [length] in Hf. lia.
  - intros Hne. unfold IsHex. assert (length (HexStr_chars l) = 2 * length l)%nat as El.
    { clear. unfold HexStr_chars. induction l as [|v l IH]; [done|]. cbn [flat_map app length]. rewrite IH. lia. }
    assert (0 < length l)%nat by (destruct l; [done|cbn; lia]).
    rewrite !andb_true_iff. split_and!.
    + apply forallb_forall. intros c Hin. rewrite list.Forall_forall in Hd.
      destruct (Hd c ltac:(by apply list_elem_of_In)) as (d & H' & ->). rewrite HexDigit_hex_char by done. lia.
    + lia.
    + rewrite El, Nat2Z.inj_mul, Z.mul_comm. by rewrite Z.mod_mul.
Qed.
