(* ===== verification/AmountText.v ===== *)
(** * AmountText: amounts as text
    [FormatMoney] and [ParseMoney] of [src/src/utilmoneystr.cpp], and [ParseFixedPoint] of
    [utilstrencodings.cpp], which reads the amounts of the RPC interface.  The theorems: amounts that
    are printed are read back by both parsers, [ParseFixedPoint] is exact on decimal numbers, and
    where it is not. *)
From Stdlib Require Import String.
From S2P Require Import Prelude Uint256 Amount TextCodec.
#[local] Open Scope Z_scope.
#[local] Abbreviation length := List.length (only parsing).

Definition isdigit (c : Z) : bool := (48 <=? c) && (c <=? 57).

(** ** ParseFixedPoint *)

Definition UPPER_BOUND : Z := 1000000000000000000 - 1.

(** [for (i = 0; i < n; ++i)]: one more factor of ten, if it fits. *)
Fixpoint scale_mantissa (n : nat) (mantissa : Z) : option Z :=
  match n with
  | O => Some mantissa
  | S n => if mantissa >? UPPER_BOUND / 10 then None else scale_mantissa n (mantissa * 10)
  end.

(** The state is the mantissa and [mantissa_tzeros]. *)
Definition ProcessMantissaDigit (ch : Z) (s : Z * nat) : option (Z * nat) :=
  let '(mantissa, mantissa_tzeros) := s in
  if ch =? 48 then Some (mantissa, S mantissa_tzeros)
  else match scale_mantissa (S mantissa_tzeros) mantissa with
  | Some mantissa => Some (mantissa + (ch - 48), O)
  | None => None
  end.

(** The digits at [ptr], and what is left of the string. *)
Fixpoint mantissa_digits (val : list Z) (s : Z * nat) : option ((Z * nat) * list Z) :=
  match val with
  | c :: val' =>
      if isdigit c then match ProcessMantissaDigit c s with Some s => mantissa_digits val' s | None => None end
      else Some (s, val)
  | [] => Some (s, [])
  end.

Fixpoint exponent_digits (val : list Z) (exponent : Z) : option (Z * list Z) :=
  match val with
  | c :: val' =>
      if isdigit c then
        if exponent >? UPPER_BOUND / 10 then None else exponent_digits val' (exponent * 10 + c - 48)
      else Some (exponent, val)
  | [] => Some (exponent, [])
  end.

Definition starts_with_digit (val : list Z) : bool := match val with c :: _ => isdigit c | [] => false end.

(** The last loop, over a mantissa with its sign. *)
Fixpoint scale_signed (n : nat) (mantissa : Z) : option Z :=
  match n with
  | O => Some mantissa
  | S n =>
      if (mantissa >? UPPER_BOUND / 10) || (mantissa <? - (UPPER_BOUND / 10)) then None
      else scale_signed n (mantissa * 10)
  end.

(** The case of eleven digits that comes first: whole coins. *)
Definition eleven_digits (val : list Z) : option Z :=
  if (Z.of_nat (length val) =? 11) && ((swrap 8 (nth 0 val 0) <? 57) || (swrap 8 (nth 1 val 0) <? 51)) then
    if forallb isdigit val then
      Some (i64 (u64 (fold_left (fun val64 c => u64 (val64 * 10 + (c - 48))) val 0 * 100000000)))
    else None
  else None.

(** Optional parts of the number; [None] is [return false]. *)
Definition integer_part (val : list Z) : option ((Z * nat) * list Z) :=
  match val with
  | c :: val' =>
      if c =? 48 then Some ((0, O), val')
      else if (49 <=? c) && (c <=? 57) then mantissa_digits val (0, O)
      else None
  | [] => None
  end.

(** The third component is [point_ofs]. *)
Definition fraction_part (val : list Z) (s : Z * nat) : option ((Z * nat) * list Z * Z) :=
  match val with
  | c :: val' =>
      if c =? 46 then
        if starts_with_digit val' then
          match mantissa_digits val' s with
          | Some (s, rest) => Some (s, rest, Z.of_nat (length val' - length rest))
          | None => None
          end
        else None
      else Some (s, val, 0)
  | [] => Some (s, val, 0)
  end.

Definition exponent_part (val : list Z) : option (bool * Z * list Z) :=
  match val with
  | c :: val' =>
      if (c =? 101) || (c =? 69) then
        let '(exponent_sign, val') :=
          match val' with
          | d :: val'' => if d =? 43 then (false, val'') else if d =? 45 then (true, val'') else (false, val')
          | [] => (false, val')
          end in
        if starts_with_digit val' then
          match exponent_digits val' 0 with
          | Some (exponent, rest) => Some (exponent_sign, exponent, rest)
          | None => None
          end
        else None
      else Some (false, 0, val)
  | [] => Some (false, 0, val)
  end.

Definition finalize (mantissa_sign exponent_sign : bool) (mantissa exponent point_ofs mantissa_tzeros decimals : Z) : option Z :=
  let exponent := if exponent_sign then - exponent else exponent in
  let exponent := exponent - point_ofs + mantissa_tzeros in
  let mantissa := if mantissa_sign then - mantissa else mantissa in
  let exponent := exponent + decimals in
  if exponent <? 0 then None
  else if exponent >=? 18 then None
  else match scale_signed (Z.to_nat exponent) mantissa with
  | Some mantissa =>
      if (mantissa >? UPPER_BOUND) || (mantissa <? - UPPER_BOUND) then None else Some mantissa
  | None => None
  end.

(** What is stored in [*amount_out] when the result is [true]. *)
Definition ParseFixedPoint (val : list Z) (decimals : Z) : option Z :=
  match eleven_digits val with
  | Some amount => Some amount
  | None =>
      let '(mantissa_sign, val) := match val with c :: val' => if c =? 45 then (true, val') else (false, val) | [] => (false, val) end in
      match integer_part val with
      | None => None
      | Some (s, val) =>
          match fraction_part val s with
          | None => None
          | Some ((mantissa, tzeros), val, point_ofs) =>
              match exponent_part val with
              | Some (exponent_sign, exponent, []) =>
                  finalize mantissa_sign exponent_sign mantissa exponent point_ofs (Z.of_nat tzeros) decimals
              | _ => None
              end
          end
      end
  end.

(** ** FormatMoney and ParseMoney *)

(** The digits of a number, as "%d" prints one that is not negative; 20 digits hold 64 bits. *)
Fixpoint dec_digits (fuel : nat) (n : Z) : list Z :=
  match fuel with
  | O => []
  | S f => if n <? 10 then [48 + n] else dec_digits f (n / 10) ++ [48 + n mod 10]
  end.
Definition print_d (n : Z) : list Z := if n <? 0 then 45 :: dec_digits 20 (- n) else dec_digits 20 n.
(** "%08d" *)
Definition print_08d (n : Z) : list Z :=
  if n <? 0 then 45 :: replicate (7 - length (dec_digits 20 (- n))) 48 ++ dec_digits 20 (- n)
  else replicate (8 - length (dec_digits 20 n)) 48 ++ dec_digits 20 n.

(** The zeros at the end, down to the one before which is the point: [rev str], from its start. *)
Fixpoint trim_zeros (r : list Z) : list Z :=
  match r with
  | c :: r' => if (c =? 48) && isdigit (nth 1 r' 0) then trim_zeros r' else r
  | [] => []
  end.

Definition FormatMoney (n : Z) : list Z :=
  let n_abs := if n >? 0 then n else i64 (- n) in
  let quotient := Z.quot n_abs COIN in
  let remainder := Z.rem n_abs COIN in
  let str := print_d quotient ++ [46] ++ print_08d remainder in
  let str := rev (trim_zeros (rev str)) in
  if n <? 0 then 45 :: str else str.

(** [while (isdigit( *p) && (nMult > 0))] *)
Fixpoint read_units (p : list Z) (nMult nUnits : Z) : Z * list Z :=
  match p with
  | c :: p' => if isdigit c && (nMult >? 0) then read_units p' (nMult / 10) (nUnits + nMult * (c - 48)) else (nUnits, p)
  | [] => (nUnits, [])
  end.

(** The first loop: [strWhole], [nUnits] and the rest; [None] is [return false]. *)
Fixpoint read_whole (p : list Z) (strWhole : list Z) : option (list Z * Z * list Z) :=
  match p with
  | [] => Some (strWhole, 0, [])
  | c :: p' =>
      if c =? 46 then let '(nUnits, rest) := read_units p' (CENT * 10) 0 in Some (strWhole, nUnits, rest)
      else if isspace c then Some (strWhole, 0, p)
      else if negb (isdigit c) then None
      else read_whole p' (strWhole ++ [c])
  end.

(** [atoi64] of at most ten digits. *)
Definition atoi64_digits (s : list Z) : Z := fold_left (fun n c => n * 10 + (c - 48)) s 0.

Definition ParseMoney (str : list Z) : option Z :=
  match read_whole (base_blob.skip_space (c_str str)) [] with
  | None => None
  | Some (strWhole, nUnits, rest) =>
      if negb (forallb isspace rest) then None
      else if Z.of_nat (length strWhole) >? 10 then None
      else if (nUnits <? 0) || (nUnits >? COIN) then None
      else Some (i64 (atoi64_digits strWhole * COIN + nUnits))
  end.

(** The examples of the unit tests. *)
Example fixed_point_tests :
  map (fun s => ParseFixedPoint (chars s) 8)
    ["0"; "1.10000000000000000"; "1.1e-1"; "0.0000000100000000"; "-9999999999.99999999"; ""; "-01000"; "0.000000001";
     "10000000000.00000000"; "1.1e-"; "1."]%string =
  [Some 0; Some 110000000; Some 11000000; Some 1; Some (-999999999999999999); None; None; None; None; None; None].
Proof. vm_compute. reflexivity. Qed.

(** ** Decimal numbers *)

Definition dval (l : list Z) : Z := be_val 10 (map (fun c => c - 48) l).
Abbreviation len l := (Z.of_nat (length l)).

Lemma fold_dval l : forall a, fold_left (fun n c => n * 10 + (c - 48)) l a = a * 10 ^ len l + dval l.
Proof.
  intros a. unfold dval. rewrite <- (length_map (fun c => c - 48) l), <- fold_be_val by lia.
  revert a. induction l as [|c l IH]; intros a; cbn [map fold_left]; [done|]. apply IH.
Qed.

Lemma atoi64_dval l : atoi64_digits l = dval l.
Proof. unfold atoi64_digits. rewrite fold_dval. lia. Qed.

Lemma dval_app l k : dval (l ++ k) = dval l * 10 ^ len k + dval k.
Proof. unfold dval. by rewrite map_app, be_val_app, length_map by lia. Qed.

Lemma dval_cons c l : dval (c :: l) = (c - 48) * 10 ^ len l + dval l.
Proof. unfold dval. cbn [map]. by rewrite be_val_cons, length_map by lia. Qed.

Definition all_digits (l : list Z) : Prop := Forall (fun c => isdigit c = true) l.

Lemma isdigit_range c : isdigit c = true <-> 48 <= c <= 57.
Proof. unfold isdigit. rewrite andb_true_iff, !Z.leb_le. done. Qed.

Lemma dval_bound l : all_digits l -> 0 <= dval l < 10 ^ len l.
Proof.
  intros H. unfold dval. rewrite <- (length_map (fun c => c - 48) l). apply be_val_bound; [lia|].
  apply Forall_map. eapply list.Forall_impl; [exact H|]. intros c Hc%isdigit_range. cbv beta. lia.
Qed.

(** What the string goes on with is no digit. *)
Definition no_digit (rest : list Z) : Prop := starts_with_digit rest = false.

Lemma scale_mantissa_spec n : forall m, 0 <= m ->
  match scale_mantissa n m with
  | Some m' => m' = m * 10 ^ Z.of_nat n /\ (n = O \/ m' <= UPPER_BOUND - 9)
  | None => exists k, (k < n)%nat /\ UPPER_BOUND / 10 < m * 10 ^ Z.of_nat k
  end.
Proof.
  induction n as [|n IH]; intros m Hm; cbn [scale_mantissa]; [lia|].
  rewrite Z.gtb_ltb. destruct (Z.ltb_spec (UPPER_BOUND / 10) m); [exists O; lia|].
  specialize (IH (m * 10) ltac:(lia)). change (UPPER_BOUND / 10) with 99999999999999999 in *.
  change UPPER_BOUND with 999999999999999999 in *.
  destruct (scale_mantissa n (m * 10)) as [m'|].
  - destruct IH as [-> H']. rewrite Nat2Z.inj_succ, Z.pow_succ_r by lia. split; [lia|]. right. destruct H' as [->|]; [cbn|]; lia.
  - destruct IH as (k & Hk & H'). exists (S k). rewrite Nat2Z.inj_succ, Z.pow_succ_r by lia. split; [lia|].
    by replace (m * (10 * 10 ^ Z.of_nat k)) with (m * 10 * 10 ^ Z.of_nat k) by lia.
Qed.

(** The digits read so far are the mantissa and its zeros; the mantissa ends with a digit that is
    not zero, or is zero.  When it does not fit, no way to write the number has a mantissa that does. *)
Lemma mantissa_digits_spec ds rest : all_digits ds -> no_digit rest -> forall m tz, 0 <= m <= UPPER_BOUND ->
  (m = 0 \/ m mod 10 <> 0) ->
  let N := m * 10 ^ Z.of_nat tz * 10 ^ len ds + dval ds in
  match mantissa_digits (ds ++ rest) (m, tz) with
  | Some ((m', tz'), rest') => rest' = rest /\ 0 <= m' <= UPPER_BOUND /\ (m' = 0 \/ m' mod 10 <> 0) /\
      m' * 10 ^ Z.of_nat tz' = N /\ (m' = 0 -> m = 0 /\ (tz' = tz + length ds)%nat)
  | None => N <> 0 /\ forall M t, 0 <= t -> M mod 10 <> 0 -> N = M * 10 ^ t -> UPPER_BOUND < M
  end.
Proof.
  intros Hds Hrest. induction Hds as [|c ds Hc Hds IH]; intros m tz Hm Hlast N; cbn [app].
  - destruct rest as [|r rest]; cbn [mantissa_digits].
    + unfold N. cbn. split_and!; (done || lia).
    + unfold no_digit in Hrest. cbn [starts_with_digit] in Hrest. rewrite Hrest. unfold N. cbn. split_and!; (done || lia).
  - cbn [mantissa_digits]. rewrite Hc. apply isdigit_range in Hc. unfold ProcessMantissaDigit.
    assert (N = (m * 10 ^ Z.of_nat (S tz) + (c - 48)) * 10 ^ len ds + dval ds) as HN.
    { unfold N. rewrite dval_cons. cbn [length]. rewrite !Nat2Z.inj_succ, !Z.pow_succ_r by lia. lia. }
    destruct (Z.eqb_spec c 48) as [->|Hc0].
    + specialize (IH m (S tz) Hm Hlast). cbv zeta in IH. rewrite HN, Z.sub_diag, Z.add_0_r.
      destruct (mantissa_digits (ds ++ rest) (m, S tz)) as [[[m' tz'] rest']|]; [|exact IH].
      destruct IH as (? & ? & ? & ? & Hz). split_and!; try done; try lia.
      intros Hz0. destruct (Hz Hz0) as [? ->]. split; [done|]. cbn [length]. lia.
    + pose proof (scale_mantissa_spec (S tz) m ltac:(lia)) as Hs.
      destruct (scale_mantissa (S tz) m) as [m1|].
      * destruct Hs as [-> Hs]. set (m1 := m * 10 ^ Z.of_nat (S tz)) in *.
        assert (m1 mod 10 = 0) as Hmod.
        { unfold m1. rewrite Nat2Z.inj_succ, Z.pow_succ_r by lia.
          replace (m * (10 * 10 ^ Z.of_nat tz)) with (m * 10 ^ Z.of_nat tz * 10) by lia. by apply Z.mod_mul. }
        assert ((m1 + (c - 48)) mod 10 <> 0) as Hne.
        { rewrite <- Z.add_mod_idemp_l, Hmod, Z.add_0_l, Z.mod_small by lia. lia. }
        assert (0 <= m1) by (unfold m1; pose proof (Z.pow_nonneg 10 (Z.of_nat (S tz))); nia).
        destruct Hs as [|Hs]; [done|].
        specialize (IH (m1 + (c - 48)) O ltac:(lia) (or_intror Hne)). cbv zeta in IH.
        change (10 ^ Z.of_nat 0) with 1 in IH. rewrite Z.mul_1_r, <- HN in IH.
        destruct (mantissa_digits (ds ++ rest) (m1 + (c - 48), O)) as [[[m' tz'] rest']|]; [|exact IH].
        destruct IH as (? & ? & ? & ? & Hz). split_and!; try done; try lia.
      * destruct Hs as (k & Hk & Hover).
        set (m1 := m * 10 ^ Z.of_nat (S tz) + (c - 48)) in *.
        pose proof (dval_bound ds Hds) as Hdv. set (w := dval ds) in *. set (K := len ds) in *.
        assert (UPPER_BOUND < m1 /\ m1 mod 10 <> 0) as [Hm1 Hm1d].
        { unfold m1. rewrite Nat2Z.inj_succ, Z.pow_succ_r by lia. split.
          - change (UPPER_BOUND / 10) with 99999999999999999 in *. change UPPER_BOUND with 999999999999999999.
            assert (10 ^ Z.of_nat k <= 10 ^ Z.of_nat tz) by (apply Z.pow_le_mono_r; lia). nia.
          - replace (m * (10 * 10 ^ Z.of_nat tz) + (c - 48)) with ((c - 48) + m * 10 ^ Z.of_nat tz * 10) by lia.
            rewrite Z.mod_add, Z.mod_small by lia. lia. }
        assert (0 < 10 ^ K) as HK by (apply Z.pow_pos_nonneg; lia).
        change UPPER_BOUND with 999999999999999999 in Hm1. split; [nia|]. intros M t Ht HM E.
        destruct (Z.le_gt_cases t K) as [HtK|HtK].
        -- assert (10 ^ t <= 10 ^ K) by (apply Z.pow_le_mono_r; lia).
           assert (0 < 10 ^ t) by (apply Z.pow_pos_nonneg; lia).
           change UPPER_BOUND with 999999999999999999 in *. nia.
        -- exfalso. rewrite HN in E. replace t with ((t - K - 1) + 1 + K) in E by lia.
           rewrite !Z.pow_add_r in E by lia. change (10 ^ 1) with 10 in E.
           assert (w = 0 /\ m1 = M * (10 ^ (t - K - 1) * 10)) as [_ Em].
           { apply (digit_inj (10 ^ K)); lia. }
           apply Hm1d. rewrite Em. replace (M * (10 ^ (t - K - 1) * 10)) with (M * 10 ^ (t - K - 1) * 10) by lia.
           by apply Z.mod_mul.
Qed.

Lemma mantissa_digits_rest ds rest : all_digits ds -> no_digit rest -> forall s,
  mantissa_digits (ds ++ rest) s = match mantissa_digits ds s with Some (s', _) => Some (s', rest) | None => None end.
Proof.
  intros Hds Hrest. induction Hds as [|c ds Hc Hds IH]; intros s; cbn [app].
  - destruct rest as [|r rest]; [done|]. unfold no_digit in Hrest. cbn [starts_with_digit mantissa_digits] in *. by rewrite Hrest.
  - cbn [mantissa_digits]. rewrite Hc. destruct (ProcessMantissaDigit c s); [apply IH|done].
Qed.

Lemma mantissa_digits_app ds ds' : all_digits ds -> forall s,
  mantissa_digits (ds ++ ds') s = match mantissa_digits ds s with Some (s', _) => mantissa_digits ds' s' | None => None end.
Proof.
  intros Hds. induction Hds as [|c ds Hc Hds IH]; intros s; cbn [app mantissa_digits]; [done|].
  rewrite Hc. destruct (ProcessMantissaDigit c s); [apply IH|done].
Qed.

Lemma scale_signed_spec n : forall m,
  match scale_signed n m with
  | Some m' => m' = m * 10 ^ Z.of_nat n
  | None => UPPER_BOUND < Z.abs (m * 10 ^ Z.of_nat n)
  end.
Proof.
  change UPPER_BOUND with 999999999999999999.
  induction n as [|n IH]; intros m; cbn [scale_signed]; [lia|]. change (UPPER_BOUND / 10) with 99999999999999999.
  rewrite Nat2Z.inj_succ, Z.pow_succ_r by lia. pose proof (Z.pow_pos_nonneg 10 (Z.of_nat n) ltac:(lia) ltac:(lia)) as Hp.
  destruct (_ || _) eqn:E.
  - rewrite Z.abs_mul, (Z.abs_eq (10 * _)) by lia.
    apply orb_true_iff in E as [E|E]; propify; apply Z.ltb_lt in E; nia.
  - specialize (IH (m * 10)). destruct (scale_signed n (m * 10)); [lia|].
    by replace (m * (10 * 10 ^ Z.of_nat n)) with (m * 10 * 10 ^ Z.of_nat n) by lia.
Qed.

Definition signed (neg : bool) (n : Z) : Z := if neg then - n else n.

Lemma signed_mul neg a b : signed neg (a * b) = signed neg a * b.
Proof. destruct neg; cbn; lia. Qed.

Lemma signed_abs neg a : Z.abs (signed neg a) = Z.abs a.
Proof. destruct neg; cbn; lia. Qed.

Lemma finalize_exact neg M q tz d v : 0 <= M <= UPPER_BOUND -> (M = 0 \/ M mod 10 <> 0) -> (M = 0 -> tz = q) ->
  0 <= q -> 0 <= tz -> 0 <= d < 18 ->
  finalize neg false M 0 q tz d = Some v <-> v * 10 ^ q = signed neg (M * 10 ^ tz) * 10 ^ d /\ Z.abs v <= UPPER_BOUND.
Proof.
  intros HM Hlast Hz Hq Htz Hd. unfold finalize. replace (0 - q + tz + d) with (tz + d - q) by lia.
  set (e := tz + d - q). rewrite signed_mul.
  assert (0 < 10 ^ q) as Hpq by (apply Z.pow_pos_nonneg; lia).
  rewrite <- Z.mul_assoc, <- Z.pow_add_r by lia.
  destruct (Z.ltb_spec e 0) as [He|He].
  { split; [done|]. intros [E _]. exfalso. replace q with ((q - tz - d - 1) + 1 + (tz + d)) in E by lia.
    rewrite !Z.pow_add_r in E by lia. change (10 ^ 1) with 10 in E.
    assert (0 < 10 ^ (q - tz - d - 1)) by (apply Z.pow_pos_nonneg; unfold e in He; lia).
    assert (0 < 10 ^ tz * 10 ^ d) by (apply Z.mul_pos_pos; apply Z.pow_pos_nonneg; lia).
    assert (signed neg M = v * 10 ^ (q - tz - d - 1) * 10) as Es by nia.
    destruct Hlast as [Hm0|Hne]; [specialize (Hz Hm0); unfold e in He; lia|]. apply Hne.
    assert (M = signed neg (v * 10 ^ (q - tz - d - 1)) * 10) as ->
      by (rewrite <- signed_mul, <- Es; destruct neg; cbn; lia). by apply Z.mod_mul. }
  assert (10 ^ (tz + d) = 10 ^ e * 10 ^ q) as Ep by (rewrite <- Z.pow_add_r by lia; f_equal; unfold e; lia).
  rewrite Ep. assert (0 < 10 ^ e) as Hpe by (apply Z.pow_pos_nonneg; lia).
  assert (v * 10 ^ q = signed neg M * (10 ^ e * 10 ^ q) <-> v = signed neg M * 10 ^ e) as -> by (split; nia).
  rewrite Z.geb_leb. destruct (Z.leb_spec 18 e) as [He18|He18].
  { split; [done|]. intros [-> Hb]. exfalso. rewrite Z.abs_mul, signed_abs in Hb.
    destruct Hlast as [Hm0|Hne]; [specialize (Hz Hm0); unfold e in He18; lia|].
    assert (10 ^ 18 <= 10 ^ e) by (apply Z.pow_le_mono_r; lia). change UPPER_BOUND with (10 ^ 18 - 1) in Hb.
    assert (M <> 0) by (by intros ->). nia. }
  pose proof (scale_signed_spec (Z.to_nat e) (signed neg M)) as Hs. rewrite Z2Nat.id in Hs by lia.
  change (if neg then - M else M) with (signed neg M).
  destruct (scale_signed (Z.to_nat e) (signed neg M)) as [m'|].
  - subst m'. destruct (_ || _) eqn:Eb.
    + split; [done|]. intros [-> Hb]. exfalso.
      apply orb_true_iff in Eb as [E|E]; propify; apply Z.ltb_lt in E; lia.
    + propify. split; [intros [= <-]; split; [done|lia]|by intros [-> _]].
  - split; [done|]. intros [-> Hb]. lia.
Qed.

(** ** Decimal numbers as strings *)

Definition decimal (neg : bool) (ip fp : list Z) : list Z :=
  (if neg then [45] else []) ++ ip ++ match fp with [] => [] | _ => 46 :: fp end.

(** The integer part has no leading zero. *)
Definition integer_ok (ip : list Z) : Prop := ip = [48] \/ exists c r, ip = c :: r /\ 49 <= c <= 57 /\ all_digits r.

(** The digits as they are processed: a single zero before the point is passed over. *)
Definition processed (ip fp : list Z) : list Z := if bool_decide (ip = [48]) then fp else ip ++ fp.

Lemma parse_parts neg ip fp d : integer_ok ip -> all_digits fp -> eleven_digits (decimal neg ip fp) = None ->
  ParseFixedPoint (decimal neg ip fp) d =
  match mantissa_digits (processed ip fp) (0, O) with
  | Some ((M, tz), _) => finalize neg false M 0 (len fp) (Z.of_nat tz) d
  | None => None
  end.
Proof.
  intros Hip Hfp H11. unfold ParseFixedPoint. rewrite H11. clear H11. unfold decimal.
  set (tl := match fp with [] => [] | _ => 46 :: fp end).
  assert (no_digit tl) as Htl by (unfold tl, no_digit; by destruct fp).
  assert ((match (if neg then [45] else []) ++ ip ++ tl with
           | c :: val' => if c =? 45 then (true, val') else (false, (if neg then [45] else []) ++ ip ++ tl)
           | [] => (false, (if neg then [45] else []) ++ ip ++ tl) end) = (neg, ip ++ tl)) as ->.
  { destruct neg; cbn [app]; [done|]. destruct Hip as [->|(c & r & -> & Hc & _)]; [done|]. cbn [app].
    destruct (Z.eqb_spec c 45); [lia|done]. }
  assert (integer_part (ip ++ tl) = match mantissa_digits (if bool_decide (ip = [48]) then [] else ip) (0, O) with
            | Some (s, _) => Some (s, tl) | None => None end) as ->.
  { case_bool_decide as E0; [by rewrite E0|]. destruct Hip as [?|(c & r & -> & Hc & Hr)]; [done|].
    rewrite <- mantissa_digits_rest; [|constructor; [apply isdigit_range; lia|done]|done].
    cbn [integer_part app]. destruct (Z.eqb_spec c 48); [lia|].
    by replace ((49 <=? c) && (c <=? 57)) with true by (symmetry; apply andb_true_iff; lia). }
  assert (processed ip fp = (if bool_decide (ip = [48]) then [] else ip) ++ fp) as ->
    by (unfold processed; by case_bool_decide).
  assert (all_digits (if bool_decide (ip = [48]) then [] else ip)) as Had.
  { case_bool_decide; [constructor|]. destruct Hip as [?|(c & r & -> & Hc & Hr)]; [done|].
    constructor; [apply isdigit_range; lia|done]. }
  rewrite mantissa_digits_app by done. destruct (mantissa_digits _ (0, O)) as [[s r]|]; [|done].
  assert (fraction_part tl s = match mantissa_digits fp s with Some (s', _) => Some (s', [], len fp) | None => None end) as ->.
  { unfold tl. destruct fp as [|c fp]; [done|]. cbn [fraction_part]. change (46 =? 46) with true. cbv iota.
    assert (starts_with_digit (c :: fp) = true) as -> by (by inversion Hfp).
    pose proof (mantissa_digits_rest (c :: fp) [] Hfp eq_refl s) as E. rewrite app_nil_r in E.
    destruct (mantissa_digits (c :: fp) s) as [[s' r']|]; [|done]. injection E as ->.
    cbn [length]. by rewrite Nat.sub_0_r. }
  destruct (mantissa_digits fp s) as [[[M tz] r']|]; [|done]. done.
Qed.

(** A number without its zeros at the end. *)
Lemma strip_tens f : forall N, 0 < N -> N <= Z.of_nat f -> exists M t, 0 <= t /\ M mod 10 <> 0 /\ N = M * 10 ^ t.
Proof.
  induction f as [|f IH]; intros N HN Hf; [lia|]. destruct (Z.eq_dec (N mod 10) 0) as [E|E].
  - pose proof (Z.div_mod N 10 ltac:(lia)). destruct (IH (N / 10)) as (M & t & Ht & HM & EN); [lia..|].
    exists M, (t + 1). rewrite Z.pow_add_r by lia. split_and!; [lia|done|lia].
  - exists N, 0. split_and!; [lia|done|lia].
Qed.

(** [C40] [ParseFixedPoint] is exact on decimal numbers: outside the case of eleven digits, it accepts one
    exactly when its value times [10 ^ decimals] is an integer below 10^18, and returns that integer. *)
Theorem ParseFixedPoint_exact neg ip fp d v : integer_ok ip -> all_digits fp -> 0 <= d < 18 ->
  eleven_digits (decimal neg ip fp) = None ->
  ParseFixedPoint (decimal neg ip fp) d = Some v <->
  v * 10 ^ len fp = signed neg (dval (ip ++ fp)) * 10 ^ d /\ Z.abs v <= UPPER_BOUND.
Proof.
  intros Hip Hfp Hd H11. rewrite parse_parts by done.
  assert (all_digits (processed ip fp) /\ dval (processed ip fp) = dval (ip ++ fp) /\
          (dval (ip ++ fp) = 0 -> length (processed ip fp) = length fp)) as (Had & Hdv & Hz).
  { unfold processed. case_bool_decide as E0; [subst; split_and!; [done| |done]; by cbn [app]; rewrite dval_cons|].
    destruct Hip as [?|(c & r & -> & Hc & Hr)]; [done|]. split_and!; [|done|].
    - apply Forall_app. split; [constructor; [apply isdigit_range; lia|done]|done].
    - intros E. cbn [app] in E. rewrite dval_cons in E.
      pose proof (dval_bound (r ++ fp) ltac:(by apply Forall_app)). 
      pose proof (Z.pow_pos_nonneg 10 (len (r ++ fp)) ltac:(lia) ltac:(lia)). nia. }
  pose proof (mantissa_digits_spec (processed ip fp) [] Had eq_refl 0 O ltac:(done) ltac:(by left)) as H.
  cbv zeta in H. rewrite app_nil_r, Hdv in H. 
  replace (0 * 10 ^ Z.of_nat 0 * 10 ^ len (processed ip fp) + dval (ip ++ fp)) with (dval (ip ++ fp)) in H by lia.
  destruct (mantissa_digits (processed ip fp) (0, O)) as [[[M tz] r]|].
  - destruct H as (_ & HM & Hlast & HN & H0). rewrite <- HN. apply finalize_exact; try done; try lia.
  - destruct H as [HN0 H]. pose proof (dval_bound _ Had) as Hnn. rewrite Hdv in Hnn.
    split; [done|]. intros [E Hb]. exfalso. set (N := dval (ip ++ fp)) in *.
    destruct (strip_tens (Z.to_nat N) N ltac:(lia) ltac:(lia)) as (M & t & Ht & HM & EN).
    specialize (H M t Ht HM EN). rewrite EN, signed_mul, <- Z.mul_assoc, <- Z.pow_add_r in E by lia.
    assert (0 < M) by (change UPPER_BOUND with 999999999999999999 in H; lia).
    set (q := len fp) in *. destruct (Z.le_gt_cases q (t + d)) as [Hq|Hq].
    + replace (t + d) with ((t + d - q) + q) in E by lia. rewrite Z.pow_add_r in E by lia.
      assert (0 < 10 ^ q) by (apply Z.pow_pos_nonneg; lia). assert (0 < 10 ^ (t + d - q)) by (apply Z.pow_pos_nonneg; lia).
      assert (v = signed neg M * 10 ^ (t + d - q)) as -> by nia. rewrite Z.abs_mul, signed_abs in Hb. nia.
    + replace q with ((q - (t + d) - 1) + 1 + (t + d)) in E by lia. rewrite !Z.pow_add_r in E by lia. change (10 ^ 1) with 10 in E.
      assert (0 < 10 ^ t * 10 ^ d) by (apply Z.mul_pos_pos; apply Z.pow_pos_nonneg; lia).
      assert (signed neg M = v * 10 ^ (q - (t + d) - 1) * 10) as Es by (set (P := 10 ^ t * 10 ^ d) in *; nia).
      apply HM. assert (M = signed neg (v * 10 ^ (q - (t + d) - 1)) * 10) as ->
        by (rewrite <- signed_mul, <- Es; destruct neg; cbn; lia). by apply Z.mod_mul.
Qed.

(** ** Printing *)

Lemma dec_digits_spec f : forall n, 0 <= n < 10 ^ Z.of_nat (S f) ->
  all_digits (dec_digits (S f) n) /\ dval (dec_digits (S f) n) = n /\ integer_ok (dec_digits (S f) n) /\
  (length (dec_digits (S f) n) <= S f)%nat.
Proof.
  induction f as [|f IH]; intros n Hn.
  - cbn in Hn. cbn [dec_digits]. destruct (Z.ltb_spec n 10); [|lia].
    split_and!; [constructor; [apply isdigit_range; lia|constructor]|unfold dval, be_val; cbn; lia| |done].
    destruct (Z.eq_dec n 0) as [->|]; [by left|]. right. exists (48 + n), []. split_and!; [done|lia|lia|constructor].
  - rewrite Nat2Z.inj_succ, Z.pow_succ_r in Hn by lia.
    change (dec_digits (S (S f)) n) with (if n <? 10 then [48 + n] else dec_digits (S f) (n / 10) ++ [48 + n mod 10]).
    destruct (Z.ltb_spec n 10).
    + split_and!; [constructor; [apply isdigit_range; lia|constructor]|unfold dval, be_val; cbn; lia| |cbn; lia].
      destruct (Z.eq_dec n 0) as [->|]; [by left|]. right. exists (48 + n), []. split_and!; [done|lia|lia|constructor].
    + destruct (IH (n / 10)) as (Ha & Hv & Hi & Hl).
      { split; [apply Z.div_pos; lia|apply Z.div_lt_upper_bound; lia]. }
      pose proof (Z.mod_pos_bound n 10 ltac:(lia)). pose proof (Z.div_mod n 10 ltac:(lia)).
      split_and!.
      * apply Forall_app. split; [done|]. constructor; [apply isdigit_range; lia|constructor].
      * rewrite dval_app, Hv. unfold dval, be_val. cbn. lia.
      * right. destruct Hi as [E|(c & r & E & Hc & Hr)].
        { rewrite E in Hv. unfold dval, be_val in Hv. cbn in Hv. lia. }
        exists c, (r ++ [48 + n mod 10]). rewrite E. split_and!; [done|lia|lia|].
        apply Forall_app. split; [done|]. constructor; [apply isdigit_range; lia|constructor].
      * rewrite length_app. cbn [length]. lia.
Qed.

Lemma dec_digits_length k n : 0 <= n < 10 ^ Z.of_nat (S k) -> forall f, (k <= f)%nat -> (length (dec_digits (S f) n) <= S k)%nat.
Proof.
  revert n. induction k as [|k IH]; intros n Hn f Hf.
  - cbn in Hn. cbn [dec_digits]. destruct (Z.ltb_spec n 10); [done|lia].
  - destruct f as [|f]; [lia|]. rewrite Nat2Z.inj_succ, Z.pow_succ_r in Hn by lia.
    change (dec_digits (S (S f)) n) with (if n <? 10 then [48 + n] else dec_digits (S f) (n / 10) ++ [48 + n mod 10]).
    destruct (Z.ltb_spec n 10); [cbn; lia|]. rewrite length_app. cbn [length].
    assert (length (dec_digits (S f) (n / 10)) <= S k)%nat; [|lia].
    apply IH; [|lia]. split; [apply Z.div_pos; lia|apply Z.div_lt_upper_bound; lia].
Qed.

Lemma dval_zeros k : dval (replicate k 48) = 0.
Proof. unfold dval. replace (map _ (replicate k 48)) with (replicate k 0) by (induction k; cbn; [done|by f_equal]). apply be_val_zeros; lia. Qed.

Lemma zeros_digits k : all_digits (replicate k 48).
Proof. apply Forall_replicate. done. Qed.

(** Eight digits. *)
Lemma print_08d_spec n : 0 <= n < 10 ^ 8 ->
  all_digits (print_08d n) /\ dval (print_08d n) = n /\ length (print_08d n) = 8%nat.
Proof.
  intros Hn. unfold print_08d. destruct (Z.ltb_spec n 0); [lia|].
  destruct (dec_digits_spec 19 n) as (Ha & Hv & _ & _); [cbn; lia|].
  pose proof (dec_digits_length 7 n ltac:(cbn; lia) 19 ltac:(lia)) as Hl.
  split_and!; [by apply Forall_app; split; [apply zeros_digits|]|rewrite dval_app, dval_zeros, Hv; lia|].
  rewrite length_app, length_replicate. lia.
Qed.

(** The zeros at the end go, but for two digits after the point. *)
Lemma trim_zeros_spec w R : all_digits R -> (2 <= length R)%nat ->
  exists k R', R = replicate k 48 ++ R' /\ trim_zeros (R ++ 46 :: w) = R' ++ 46 :: w /\ (2 <= length R')%nat.
Proof.
  intros HR. induction HR as [|c R Hc HR IH]; intros Hl; [cbn in Hl; lia|].
  destruct R as [|c1 [|c2 R]]; [cbn in Hl; lia| |].
  - exists O, [c; c1]. split_and!; [done| |done]. cbn [app trim_zeros nth]. change (isdigit 46) with false. by rewrite andb_false_r.
  - destruct IH as (k & R' & E & Et & Hl'); [cbn; lia|].
    assert (isdigit c2 = true) as H2 by (by inversion HR as [|? ? ? HR']; inversion HR').
    change ((c :: c1 :: c2 :: R) ++ 46 :: w) with (c :: (c1 :: c2 :: R) ++ 46 :: w). cbn [trim_zeros].
    change (nth 1 ((c1 :: c2 :: R) ++ 46 :: w) 0) with c2. rewrite H2, andb_true_r.
    destruct (Z.eqb_spec c 48) as [->|].
    + exists (S k), R'. rewrite E at 1. by split_and!.
    + exists O, (c :: c1 :: c2 :: R). split_and!; [done|done|cbn; lia].
Qed.

Lemma FormatMoney_decimal n : - 10 ^ 18 < n < 10 ^ 18 -> exists ip fp,
  FormatMoney n = decimal (n <? 0) ip fp /\ integer_ok ip /\ all_digits ip /\ (length ip <= 10)%nat /\ all_digits fp /\
  (2 <= length fp <= 8)%nat /\ dval (ip ++ fp) * 10 ^ (8 - len fp) = Z.abs n.
Proof.
  intros Hn. unfold FormatMoney.
  assert ((if n >? 0 then n else i64 (- n)) = Z.abs n) as ->.
  { rewrite Z.gtb_ltb. destruct (Z.ltb_spec 0 n); [lia|]. rewrite swrap_small by lia. lia. }
  set (a := Z.abs n). assert (0 <= a < 10 ^ 18) as Ha by lia.
  rewrite Z.quot_div_nonneg, Z.rem_mod_nonneg by (unfold COIN; lia). cbv zeta.
  assert (0 <= a / COIN < 10 ^ 10) as Hq.
  { unfold COIN. split; [apply Z.div_pos; lia|apply Z.div_lt_upper_bound; lia]. }
  pose proof (Z.mod_pos_bound a COIN ltac:(unfold COIN; lia)) as Hr.
  destruct (print_08d_spec (a mod COIN)) as (Rd & Rv & Rl); [unfold COIN in *; lia|].
  unfold print_d. destruct (Z.ltb_spec (a / COIN) 0); [lia|].
  destruct (dec_digits_spec 19 (a / COIN)) as (Id & Iv & Ii & _); [cbn; lia|].
  pose proof (dec_digits_length 9 (a / COIN) ltac:(cbn; lia) 19 ltac:(lia)) as Il.
  set (ip := dec_digits 20 (a / COIN)) in *. set (r := print_08d (a mod COIN)) in *.
  destruct (trim_zeros_spec (rev ip) (rev r)) as (k & R' & Er & Et & Hl').
  { by apply Forall_rev. }
  { rewrite length_rev. lia. }
  assert (r = rev R' ++ replicate k 48) as Er'.
  { rewrite <- (rev_involutive r), Er, rev_app_distr, (rev_alt (replicate k 48)). f_equal. apply reverse_replicate. }
  assert (length (rev R') + k = 8)%nat as Hlk by (rewrite <- Rl, Er', length_app, length_replicate; done).
  rewrite length_rev in Hlk. exists ip, (rev R'). rewrite length_rev.
  assert (rev (trim_zeros (rev (ip ++ [46] ++ r))) = ip ++ 46 :: rev R') as ->.
  { rewrite !rev_app_distr. cbn [rev app]. rewrite <- app_assoc. cbn [app]. rewrite Et, rev_app_distr. cbn [rev].
    by rewrite rev_involutive, <- app_assoc. }
  split_and!; try done; try lia.
  - unfold decimal. destruct (rev R') as [|c l] eqn:ER; [|by destruct (n <? 0)].
    apply (f_equal length) in ER. rewrite length_rev in ER. cbn in ER. lia.
  - rewrite Er' in Rd. by apply Forall_app in Rd as [? _].
  - rewrite Er', dval_app, dval_zeros, length_replicate in Rv. rewrite dval_app, Iv, length_rev.
    replace (8 - len R') with (Z.of_nat k) by lia. rewrite Z.mul_add_distr_r, <- Z.mul_assoc, <- Z.pow_add_r by lia.
    replace (len R' + Z.of_nat k) with 8 by lia. change (10 ^ 8) with COIN.
    pose proof (Z.div_mod a COIN ltac:(unfold COIN; lia)). lia.
Qed.

Lemma read_units_spec ds : all_digits ds -> forall k u, (length ds <= S k)%nat ->
  read_units ds (10 ^ Z.of_nat k) u = (u + dval ds * 10 ^ (Z.of_nat (S k) - len ds), []).
Proof.
  induction 1 as [|c ds Hc Hds IH]; intros k u Hk; cbn [read_units].
  - unfold dval, be_val. cbn. by rewrite Z.add_0_r.
  - rewrite Hc. pose proof (Z.pow_pos_nonneg 10 (Z.of_nat k) ltac:(lia) ltac:(lia)).
    rewrite Z.gtb_ltb. destruct (Z.ltb_spec 0 (10 ^ Z.of_nat k)); [|lia]. cbn [andb]. rewrite dval_cons. cbn [length] in *.
    destruct k as [|k].
    + destruct ds; [|cbn in Hk; lia]. cbn. unfold dval, be_val. cbn. f_equal. lia.
    + rewrite Nat2Z.inj_succ, Z.pow_succ_r by lia. rewrite (Z.mul_comm 10), Z.div_mul by lia. rewrite IH by lia.
      replace (Z.of_nat (S (S k)) - Z.of_nat (S (length ds))) with (Z.of_nat (S k) - len ds) by lia.
      assert (10 ^ len ds * 10 ^ (Z.of_nat (S k) - len ds) = 10 * 10 ^ Z.of_nat k) as E.
      { rewrite <- Z.pow_add_r, <- Z.pow_succ_r by lia. f_equal. lia. }
      f_equal. rewrite Z.mul_add_distr_r, <- (Z.mul_assoc (c - 48)), E. lia.
Qed.

Lemma read_whole_spec ip fp : all_digits ip -> forall w,
  read_whole (ip ++ 46 :: fp) w = let '(u, rest) := read_units fp (CENT * 10) 0 in Some (w ++ ip, u, rest).
Proof.
  induction 1 as [|c ip Hc Hip IH]; intros w; cbn [app read_whole].
  - change (46 =? 46) with true. cbv iota. rewrite app_nil_r. done.
  - pose proof (proj1 (isdigit_range c) Hc). destruct (Z.eqb_spec c 46); [lia|].
    assert (isspace c = false) as -> by (unfold isspace; apply orb_false_iff; split; [lia|apply andb_false_iff; lia]).
    rewrite Hc. cbn [negb]. rewrite IH. by rewrite <- app_assoc.
Qed.

Lemma eleven_decimal neg ip fp : fp <> [] -> eleven_digits (decimal neg ip fp) = None.
Proof.
  intros Hfp. unfold eleven_digits. destruct (_ && _); [|done].
  assert (forallb isdigit (decimal neg ip fp) = false) as ->; [|done].
  unfold decimal. destruct fp as [|c fp]; [done|]. rewrite !forallb_app. cbn [forallb]. change (isdigit 46) with false.
  by rewrite !andb_false_r.
Qed.

(** Amounts below ten thousand million coins, of both signs, come back from their text through
    [ParseFixedPoint]; those that are not negative also through [ParseMoney]. *)
Theorem money_text_round_trip n : - 10 ^ 18 < n < 10 ^ 18 ->
  ParseFixedPoint (FormatMoney n) 8 = Some n /\ (0 <= n -> ParseMoney (FormatMoney n) = Some n).
Proof.
  intros Hn. destruct (FormatMoney_decimal n Hn) as (ip & fp & -> & Hi & Hid & Hil & Hf & Hfl & Hv).
  assert (fp <> []) as Hne by (intros ->; cbn in Hfl; lia). split.
  - apply ParseFixedPoint_exact; [done|done|lia|by apply eleven_decimal|]. split.
    + replace (10 ^ 8) with (10 ^ (8 - len fp) * 10 ^ len fp) by (rewrite <- Z.pow_add_r by lia; f_equal; lia).
      rewrite Z.mul_assoc, <- signed_mul, Hv. f_equal. destruct (Z.ltb_spec n 0); cbn [signed]; lia.
    + change UPPER_BOUND with (10 ^ 18 - 1). lia.
  - intros Hn0. destruct (Z.ltb_spec n 0); [lia|].
    assert (decimal false ip fp = ip ++ 46 :: fp) as -> by (unfold decimal; by destruct fp).
    assert (c_str (ip ++ 46 :: fp) = ip ++ 46 :: fp) as Ec.
    { apply c_str_id. intros [Hin|[?|Hin]]%in_app_iff; [|done|].
      - unfold all_digits in Hid. rewrite list.Forall_forall in Hid. by specialize (Hid 0 ltac:(by apply list_elem_of_In)).
      - unfold all_digits in Hf. rewrite list.Forall_forall in Hf. by specialize (Hf 0 ltac:(by apply list_elem_of_In)). }
    unfold ParseMoney. rewrite Ec.
    assert (base_blob.skip_space (ip ++ 46 :: fp) = ip ++ 46 :: fp) as ->.
    { assert (exists c l, ip ++ 46 :: fp = c :: l /\ isspace c = false) as (c & l & -> & Hs).
      { destruct Hi as [->|(c & r & -> & Hc & _)]; [by exists 48, (46 :: fp)|]. exists c, (r ++ 46 :: fp). split; [done|].
        unfold isspace. apply orb_false_iff. split; [lia|apply andb_false_iff; lia]. }
      cbn [base_blob.skip_space]. by rewrite Hs. }
    rewrite read_whole_spec by done. change (CENT * 10) with (10 ^ Z.of_nat 7). rewrite read_units_spec by (done || lia).
    cbn [forallb negb app]. rewrite Z.gtb_ltb. destruct (Z.ltb_spec 10 (len ip)); [lia|].
    rewrite atoi64_dval, Z.add_0_l. change (Z.of_nat 8) with 8.
    rewrite dval_app, Z.mul_add_distr_r, <- Z.mul_assoc, <- Z.pow_add_r in Hv by lia.
    replace (len fp + (8 - len fp)) with 8 in Hv by lia. change (10 ^ 8) with COIN in Hv.
    set (u := dval fp * 10 ^ (8 - len fp)) in *.
    assert (0 <= u < COIN) as Hu.
    { pose proof (dval_bound fp Hf). unfold u. change COIN with (10 ^ 8).
      replace (10 ^ 8) with (10 ^ len fp * 10 ^ (8 - len fp)) by (rewrite <- Z.pow_add_r by lia; f_equal; lia).
      assert (0 < 10 ^ (8 - len fp)) by (apply Z.pow_pos_nonneg; lia). nia. }
    destruct (Z.ltb_spec u 0); [lia|]. cbn [orb]. rewrite Z.gtb_ltb. destruct (Z.ltb_spec COIN u); [lia|].
    rewrite swrap_small by lia. f_equal. lia.
Qed.

Lemma money_text_round_trip_witness :
  ParseFixedPoint (FormatMoney (-123456789012)) 8 = Some (-123456789012) /\ ParseMoney (FormatMoney 7) = Some 7.
Proof.
  split; [by apply (money_text_round_trip (-123456789012))|by apply (money_text_round_trip 7)].
Defined.

Example money_texts : map FormatMoney [0; 7; 100000000; -123456789012; 150000000] =
  map chars ["0.00"; "0.00000007"; "1.00"; "-1234.56789012"; "1.50"]%string.
Proof. vm_compute. reflexivity. Qed.

(** A string of eleven digits is taken as whole coins, whatever [decimals] is; from 92233720369 coins
    on the amount wraps around to a negative one, instead of the error for numbers that are too large. *)
Lemma eleven_digits_wrap :
  ParseFixedPoint (chars "92999999999") 8 = Some (-9146744073809551616) /\
  ParseFixedPoint (chars "92999999999") 0 = Some (-9146744073809551616) /\
  ParseFixedPoint (chars "00000000001") 8 = Some 100000000 /\
  ParseFixedPoint (chars "10000000000") 8 = Some (10 ^ 18) /\ ParseFixedPoint (chars "10000000000.0") 8 = None.
Proof. vm_compute. done. Qed.

Lemma ParseFixedPoint_exact_witness :
  ParseFixedPoint (decimal true [49; 50] [51; 48]) 8 = Some (-1230000000).
Proof.
  apply (ParseFixedPoint_exact true [49; 50] [51; 48] 8 (-1230000000)); [|repeat constructor|lia|reflexivity|by vm_compute].
  right. exists 49, [50]. split_and!; [done|lia|lia|repeat constructor].
Defined.
