(* ===== verification/Base58.v ===== *)
(** * Base58: base 58 with and without a checksum, [src/src/base58.h] and [base58.cpp]
    The two conversions work digit by digit over a buffer whose size is estimated; they assert that
    nothing is carried out of it.  A buffer is kept from its last digit, the order the loops run in.
    The theorems: the assertions hold, what is encoded is decoded, what is accepted is the encoding of
    the result (up to white space around it), and [CBase58Data] keeps version and data apart. *)
From Stdlib Require Import String.
From S2P Require Import Prelude Uint256 Hash TextCodec.
#[local] Open Scope Z_scope.
#[local] Abbreviation length := List.length (only parsing).

Definition pszBase58 : list Z := Eval compute in chars "123456789ABCDEFGHJKLMNPQRSTUVWXYZabcdefghijkmnopqrstuvwxyz".

(** [strchr(pszBase58, c) - pszBase58] for a character that is not NUL. *)
Fixpoint strchr (s : list Z) (c : Z) : option Z :=
  match s with
  | [] => None
  | d :: s => if d =? c then Some 0 else match strchr s c with Some i => Some (i + 1) | None => None end
  end.

(** The inner loop, "digits = digits * m + carry" in base [b]; the last carry is returned too. *)
Fixpoint mul_add (b m carry : Z) (digits : list Z) : Z * list Z :=
  match digits with
  | [] => (carry, [])
  | d :: digits =>
      let carry := carry + m * d in
      let '(c, ds) := mul_add b m (carry / b) digits in (c, carry mod b :: ds)
  end.

Fixpoint skip_zeros (l : list Z) : list Z :=
  match l with d :: l' => if d =? 0 then skip_zeros l' else l | [] => [] end.

(** [while (it == c) it++, n++]: how many, and the rest. *)
Fixpoint count_leading (c : Z) (l : list Z) : nat * list Z :=
  match l with
  | d :: l' => if d =? c then let '(n, r) := count_leading c l' in (S n, r) else (O, l)
  | [] => (O, [])
  end.

(** The characters up to white space: [None] is a failed assertion, [Some None] is [return false]. *)
Fixpoint decode_chars (psz : list Z) (b256 : list Z) : option (option (list Z * list Z)) :=
  match psz with
  | [] => Some (Some (b256, []))
  | c :: psz' =>
      if isspace c then Some (Some (b256, psz))
      else match strchr pszBase58 c with
      | None => Some None
      | Some ch =>
          let '(carry, b256) := mul_add 256 58 ch b256 in
          if carry =? 0 then decode_chars psz' b256 else None
      end
  end.

(** The result, and what [vch] is set to. *)
Definition DecodeBase58 (psz : list Z) : option (option (list Z)) :=
  let psz := base_blob.skip_space (c_str psz) in
  let '(zeroes, psz) := count_leading 49 psz in
  let b256 := replicate (length psz * 733 / 1000 + 1) 0 in
  match decode_chars psz b256 with
  | None => None
  | Some None => Some None
  | Some (Some (b256, psz)) =>
      match base_blob.skip_space psz with
      | [] => Some (Some (replicate zeroes 0 ++ skip_zeros (rev b256)))
      | _ => Some None
      end
  end.

Fixpoint encode_bytes (bytes : list Z) (b58 : list Z) : option (list Z) :=
  match bytes with
  | [] => Some b58
  | x :: bytes =>
      let '(carry, b58) := mul_add 58 256 x b58 in
      if carry =? 0 then encode_bytes bytes b58 else None
  end.

Definition EncodeBase58 (vch : list Z) : option (list Z) :=
  let '(zeroes, bytes) := count_leading 0 vch in
  match encode_bytes bytes (replicate (length bytes * 138 / 100 + 1) 0) with
  | None => None
  | Some b58 => Some (replicate zeroes 49 ++ map (fun d => nth (Z.to_nat d) pszBase58 0) (skip_zeros (rev b58)))
  end.

Definition EncodeBase58Check (vchIn : list Z) : option (list Z) := EncodeBase58 (vchIn ++ take 4 (Hash vchIn)).

Definition DecodeBase58Check (psz : list Z) : option (option (list Z)) :=
  match DecodeBase58 psz with
  | None => None
  | Some None => Some None
  | Some (Some vchRet) =>
      if Z.of_nat (length vchRet) <? 4 then Some None
      else
        let n := (length vchRet - 4)%nat in
        if negb (base_blob.memcmp (take 4 (Hash (take n vchRet))) (drop n vchRet) =? 0) then Some None
        else Some (Some (take n vchRet))
  end.

(** ** CBase58Data *)

Record CBase58Data := { vchVersion : list Z; vchData : list Z }.

Definition CBase58Data_new : CBase58Data := {| vchVersion := []; vchData := [] |}.

Definition SetData (vchVersionIn data : list Z) : CBase58Data := {| vchVersion := vchVersionIn; vchData := data |}.

(** The result and the object. *)
Definition SetString (psz : list Z) (nVersionBytes : nat) : option (bool * CBase58Data) :=
  match DecodeBase58Check psz with
  | None => None
  | Some (Some vchTemp) =>
      if (length vchTemp <? nVersionBytes)%nat then Some (false, CBase58Data_new)
      else Some (true, {| vchVersion := take nVersionBytes vchTemp; vchData := drop nVersionBytes vchTemp |})
  | Some None => Some (false, CBase58Data_new)
  end.

Definition ToString (d : CBase58Data) : option (list Z) := EncodeBase58Check (vchVersion d ++ vchData d).

(** [operator<] of vectors. *)
Fixpoint vec_lt (a b : list Z) : bool :=
  match a, b with
  | _, [] => false
  | [], _ :: _ => true
  | x :: a, y :: b => if x <? y then true else if y <? x then false else vec_lt a b
  end.

Definition CompareTo (a b : CBase58Data) : Z :=
  if vec_lt (vchVersion a) (vchVersion b) then -1
  else if vec_lt (vchVersion b) (vchVersion a) then 1
  else if vec_lt (vchData a) (vchData b) then -1
  else if vec_lt (vchData b) (vchData a) then 1
  else 0.

(** ** The conversion *)

Section Digits.
Context (b m : Z) (Hb : 1 < b) (Hm : 0 < m).

Lemma mul_add_spec l : forall carry, 0 <= carry -> digits_ok b l ->
  exists c l', mul_add b m carry l = (c, l') /\ length l' = length l /\ digits_ok b l' /\ 0 <= c /\
    be_val b (rev l') + c * b ^ Z.of_nat (length l) = carry + m * be_val b (rev l).
Proof.
  induction l as [|d l IH]; intros carry Hc Hl; cbn [mul_add].
  - exists carry, []. split_and!; [done|done|done|done|]. unfold be_val. cbn. lia.
  - apply list.Forall_cons in Hl as [Hd Hl]. cbv zeta.
    destruct (IH ((carry + m * d) / b)) as (c & l' & -> & El & Hl' & Hc' & Hv);
      [apply Z.div_pos; nia|done|].
    exists c, ((carry + m * d) mod b :: l'). cbn [length rev]. rewrite El, !be_val_snoc by done.
    split_and!; [done|done|constructor; [apply Z.mod_pos_bound; lia|done]|done|].
    rewrite Nat2Z.inj_succ, Z.pow_succ_r by lia. pose proof (Z.div_mod (carry + m * d) b ltac:(lia)). nia.
Qed.

(** Nothing is carried out of a buffer that holds the result. *)
Lemma mul_add_fits l carry : 0 <= carry -> digits_ok b l ->
  carry + m * be_val b (rev l) < b ^ Z.of_nat (length l) ->
  exists l', mul_add b m carry l = (0, l') /\ length l' = length l /\ digits_ok b l' /\
    be_val b (rev l') = be_val b (rev l) * m + carry.
Proof.
  intros Hc Hl Hfit. destruct (mul_add_spec l carry Hc Hl) as (c & l' & -> & El & Hl' & Hc' & Hv).
  pose proof (be_val_bound b Hb (rev l') ltac:(by apply Forall_rev)) as Hb'.
  assert (c = 0) as -> by nia. exists l'. split_and!; [done..|lia].
Qed.

Lemma skip_zeros_spec l : digits_ok b l ->
  digits_ok b (skip_zeros l) /\ be_val b (skip_zeros l) = be_val b l /\ (skip_zeros l = [] \/ hd 0 (skip_zeros l) <> 0) /\
  (length (skip_zeros l) <= length l)%nat.
Proof.
  induction 1 as [|d l Hd Hl (IH1 & IH2 & IH3 & IH4)]; cbn [skip_zeros]; [split_and!; [constructor|done|by left|done]|].
  destruct (Z.eqb_spec d 0) as [->|Hne].
  - rewrite (be_val_cons b). split_and!; [done|lia|done|cbn; lia].
  - split_and!; [by constructor|done|by right|done].
Qed.

(** Without a zero in front, the number decides its digits. *)
Lemma canonical_inj l k : digits_ok b l -> digits_ok b k -> (l = [] \/ hd 0 l <> 0) -> (k = [] \/ hd 0 k <> 0) ->
  be_val b l = be_val b k -> l = k.
Proof.
  assert (forall l, digits_ok b l -> (l = [] \/ hd 0 l <> 0) -> forall n, be_val b l < b ^ Z.of_nat n -> (length l <= n)%nat) as Hlen.
  { intros l' Hl' Hh n Hn. destruct l' as [|d l']; [cbn; lia|]. destruct Hh as [|Hh]; [done|]. cbn [hd length] in *.
    rewrite (be_val_cons b) in Hn. apply list.Forall_cons in Hl' as [Hd Hl'].
    pose proof (be_val_bound b Hb l' Hl'). pose proof (Z.pow_pos_nonneg b (Z.of_nat (length l')) ltac:(lia) ltac:(lia)).
    assert (b ^ Z.of_nat (length l') < b ^ Z.of_nat n) as Hlt by nia.
    apply Z.pow_lt_mono_r_iff in Hlt; lia. }
  intros Hl Hk Hhl Hhk Hv.
  pose proof (be_val_bound b Hb l Hl). pose proof (be_val_bound b Hb k Hk).
  apply (be_val_inj b Hb); [done..| |done].
  apply Nat.le_antisymm; apply Hlen; try done; lia.
Qed.
End Digits.

(** The sizes of the buffers: [log 256 / log 58] is below 1.38, and its inverse below 0.733. *)
Lemma estimate a c p q n k : 0 < a -> 0 < c -> 0 <= p -> 0 < q -> 0 <= n -> 0 <= k -> a ^ q <= c ^ p -> p * n <= q * k -> a ^ n <= c ^ k.
Proof.
  intros Ha Hc Hp Hq Hn Hk H Hpk. destruct (Z.le_gt_cases (a ^ n) (c ^ k)) as [?|Hgt]; [done|exfalso].
  assert ((c ^ k) ^ q < (a ^ n) ^ q) as Hlt by (apply Z.pow_lt_mono_l; [done|split; [apply Z.pow_nonneg; lia|done]]).
  rewrite <- !Z.pow_mul_r in Hlt by lia.
  assert (a ^ (n * q) <= c ^ (p * n)).
  { rewrite (Z.mul_comm n q), !Z.pow_mul_r by lia. apply Z.pow_le_mono_l. split; [apply Z.pow_nonneg; lia|done]. }
  assert (c ^ (p * n) <= c ^ (k * q)) by (apply Z.pow_le_mono_r; lia). lia.
Qed.

Lemma size_58 n : 256 ^ Z.of_nat n <= 58 ^ Z.of_nat (n * 138 / 100 + 1).
Proof.
  apply (estimate 256 58 138 100); [lia..|by vm_compute|].
  pose proof (Nat.div_mod (n * 138) 100 ltac:(lia)). pose proof (Nat.mod_upper_bound (n * 138) 100 ltac:(lia)). lia.
Qed.

Lemma size_256 n : 58 ^ Z.of_nat n <= 256 ^ Z.of_nat (n * 733 / 1000 + 1).
Proof.
  apply (estimate 58 256 733 1000); [lia..|by vm_compute|].
  pose proof (Nat.div_mod (n * 733) 1000 ltac:(lia)). pose proof (Nat.mod_upper_bound (n * 733) 1000 ltac:(lia)). lia.
Qed.

(** ** The alphabet *)

Definition b58_char (d : Z) : Z := nth (Z.to_nat d) pszBase58 0.

Definition alphabet58_ok (d : Z) : bool :=
  match strchr pszBase58 (b58_char d) with Some i => i =? d | None => false end &&
  negb (isspace (b58_char d)) && negb (b58_char d =? 0) && ((d =? 0) || negb (b58_char d =? 49)).

Lemma b58_char_spec d : 0 <= d < 58 -> strchr pszBase58 (b58_char d) = Some d /\ isspace (b58_char d) = false /\
  b58_char d <> 0 /\ (d <> 0 -> b58_char d <> 49).
Proof.
  intros Hd. assert (alphabet58_ok d = true) as H by (apply (below_all alphabet58_ok 58); [by vm_compute|done]).
  unfold alphabet58_ok in H. propify. destruct (strchr _ _) as [i|]; [|done]. propify.
  split_and!; [by subst|done|done|]. intros Hne.
  match goal with H : _ || _ = true |- _ => apply orb_true_iff in H as [H|H]; propify; done end.
Qed.

Lemma strchr_some s c : forall i, strchr s c = Some i -> 0 <= i < Z.of_nat (length s) /\ nth (Z.to_nat i) s 0 = c.
Proof.
  induction s as [|d s IH]; intros i; cbn [strchr]; [done|]. destruct (Z.eqb_spec d c) as [->|].
  - intros [= <-]. cbn [length]. split; [lia|done].
  - destruct (strchr s c) as [j|]; [|done]. intros [= <-]. destruct (IH j eq_refl) as [Hj <-]. cbn [length].
    split; [lia|]. replace (Z.to_nat (j + 1)) with (S (Z.to_nat j)) by lia. done.
Qed.

Lemma strchr_digit c i : strchr pszBase58 c = Some i -> 0 <= i < 58 /\ b58_char i = c.
Proof. apply strchr_some. Qed.

(** ** Encoding *)

Lemma encode_bytes_spec bytes : bytes_ok bytes -> forall b58, digits_ok 58 b58 ->
  be_val 58 (rev b58) * 256 ^ Z.of_nat (length bytes) + be_val 256 bytes < 58 ^ Z.of_nat (length b58) ->
  exists b58', encode_bytes bytes b58 = Some b58' /\ digits_ok 58 b58' /\ length b58' = length b58 /\
    be_val 58 (rev b58') = be_val 58 (rev b58) * 256 ^ Z.of_nat (length bytes) + be_val 256 bytes.
Proof.
  induction 1 as [|x bytes Hx Hbytes IH]; intros b58 Hb Hfit; cbn [encode_bytes].
  - exists b58. split_and!; [done..|]. unfold be_val at 3. cbn. lia.
  - rewrite be_val_cons in Hfit. cbn [length] in Hfit. rewrite Nat2Z.inj_succ, Z.pow_succ_r in Hfit by lia.
    pose proof (be_val_bound 256 ltac:(lia) bytes Hbytes) as Hv.
    pose proof (be_val_bound 58 ltac:(lia) (rev b58) ltac:(by apply Forall_rev)) as Hv'.
    pose proof (Z.pow_pos_nonneg 256 (Z.of_nat (length bytes)) ltac:(lia) ltac:(lia)). unfold is_byte in Hx.
    destruct (mul_add_fits 58 256 ltac:(lia) ltac:(lia) b58 x) as (b1 & -> & El & Hb1 & Hv1); [lia|done|nia|].
    change (0 =? 0) with true. cbv iota.
    assert (be_val 58 (rev b1) * 256 ^ Z.of_nat (length bytes) + be_val 256 bytes =
            be_val 58 (rev b58) * 256 ^ Z.of_nat (length (x :: bytes)) + be_val 256 (x :: bytes)) as Eq.
    { rewrite Hv1, be_val_cons. cbn [length]. rewrite Nat2Z.inj_succ, Z.pow_succ_r by lia. lia. }
    destruct (IH b1 Hb1) as (b' & -> & Hb' & El' & Hv2).
    { rewrite Eq, El, be_val_cons. cbn [length]. rewrite Nat2Z.inj_succ, Z.pow_succ_r by lia. lia. }
    exists b'. split_and!; [done|done|congruence|]. by rewrite Hv2, Eq.
Qed.

Lemma count_leading_spec c l : exists n r, count_leading c l = (n, r) /\ l = replicate n c ++ r /\ (r = [] \/ hd 0 r <> c).
Proof.
  induction l as [|d l (n & r & E & -> & Hr)]; cbn [count_leading]; [exists O, []; split_and!; [done|done|by left]|].
  destruct (Z.eqb_spec d c) as [->|Hne].
  - rewrite E. exists (S n), r. by split_and!.
  - exists O, (d :: replicate n c ++ r). split_and!; [done|done|by right].
Qed.

Lemma count_leading_app c n r : (r = [] \/ hd 0 r <> c) -> count_leading c (replicate n c ++ r) = (n, r).
Proof.
  intros Hr. induction n as [|n IH]; cbn [replicate app count_leading].
  - destruct r as [|d r]; [done|]. destruct Hr as [|Hr]; [done|]. cbn [hd] in Hr. cbn [count_leading].
    by destruct (Z.eqb_spec d c).
  - by rewrite Z.eqb_refl, IH.
Qed.

Lemma rev_zeros n : rev (replicate n 0) = replicate n 0.
Proof. rewrite rev_alt. apply (reverse_replicate n 0). Qed.

Lemma zeros_ok b n : 1 < b -> digits_ok b (replicate n 0).
Proof. intros H. apply Forall_replicate. lia. Qed.

(** The digits that [EncodeBase58] writes: a one for each zero byte in front, and the number. *)
Lemma EncodeBase58_digits z bytes : bytes_ok bytes -> (bytes = [] \/ hd 0 bytes <> 0) -> exists D,
  EncodeBase58 (replicate z 0 ++ bytes) = Some (replicate z 49 ++ map b58_char D) /\
  digits_ok 58 D /\ (D = [] \/ hd 0 D <> 0) /\ be_val 58 D = be_val 256 bytes.
Proof.
  intros Hb Hh. unfold EncodeBase58. rewrite count_leading_app by done.
  set (k := (length bytes * 138 / 100 + 1)%nat).
  assert (be_val 58 (rev (replicate k 0)) = 0) as E0 by (rewrite rev_zeros; by apply be_val_zeros).
  destruct (encode_bytes_spec bytes Hb (replicate k 0)) as (b58 & -> & Hb58 & _ & Hv).
  { by apply zeros_ok. }
  { rewrite E0, length_replicate. pose proof (be_val_bound 256 ltac:(lia) bytes Hb). pose proof (size_58 (length bytes)).
    unfold k. lia. }
  destruct (skip_zeros_spec 58 ltac:(lia) (rev b58) ltac:(by apply Forall_rev)) as (H1 & H2 & H3 & _).
  exists (skip_zeros (rev b58)). split_and!; [done|done|done|]. rewrite H2, Hv, E0. lia.
Qed.

(** ** Decoding *)

(** The characters up to the first white space, when they are all digits. *)
Lemma decode_chars_spec D tl : digits_ok 58 D -> (tl = [] \/ isspace (hd 0 tl) = true) -> forall b256, bytes_ok b256 ->
  be_val 256 (rev b256) * 58 ^ Z.of_nat (length D) + be_val 58 D < 256 ^ Z.of_nat (length b256) ->
  exists b', decode_chars (map b58_char D ++ tl) b256 = Some (Some (b', tl)) /\ bytes_ok b' /\
    be_val 256 (rev b') = be_val 256 (rev b256) * 58 ^ Z.of_nat (length D) + be_val 58 D.
Proof.
  intros HD Htl. induction HD as [|d D Hd HD IH]; intros b256 Hb Hfit.
  - exists b256. cbn [map app]. split_and!; [|done|unfold be_val at 3; cbn; lia].
    destruct tl as [|c tl]; [done|]. destruct Htl as [|Htl]; [done|]. cbn [hd] in Htl. cbn [decode_chars]. by rewrite Htl.
  - rewrite be_val_cons in Hfit. cbn [length map app decode_chars] in *. rewrite Nat2Z.inj_succ, Z.pow_succ_r in Hfit by lia.
    destruct (b58_char_spec d Hd) as (-> & -> & _).
    pose proof (be_val_bound 58 ltac:(lia) D HD).
    pose proof (be_val_bound 256 ltac:(lia) (rev b256) ltac:(by apply Forall_rev)).
    pose proof (Z.pow_pos_nonneg 58 (Z.of_nat (length D)) ltac:(lia) ltac:(lia)).
    destruct (mul_add_fits 256 58 ltac:(lia) ltac:(lia) b256 d) as (b1 & -> & El & Hb1 & Hv1); [lia|done|nia|].
    change (0 =? 0) with true. cbv iota.
    destruct (IH b1 Hb1) as (b' & -> & Hb' & Hv'); [rewrite Hv1, El; nia|].
    exists b'. split_and!; [done|done|]. rewrite Hv', Hv1, be_val_cons, Nat2Z.inj_succ, Z.pow_succ_r by lia. lia.
Qed.

(** Whatever the characters, the assertion holds, and they are digits when they are accepted. *)
Lemma decode_chars_total psz : forall b256, bytes_ok b256 ->
  (be_val 256 (rev b256) + 1) * 58 ^ Z.of_nat (length psz) <= 256 ^ Z.of_nat (length b256) ->
  exists r, decode_chars psz b256 = Some r /\
    forall b' tl, r = Some (b', tl) -> exists D, psz = map b58_char D ++ tl /\ digits_ok 58 D /\ (tl = [] \/ isspace (hd 0 tl) = true).
Proof.
  induction psz as [|c psz IH]; intros b256 Hb Hfit; cbn [decode_chars].
  - eexists. split; [reflexivity|]. intros b' tl [= <- <-]. exists []. split_and!; [done|constructor|by left].
  - destruct (isspace c) eqn:Es.
    { eexists. split; [reflexivity|]. intros b' tl [= <- <-]. exists []. split_and!; [done|constructor|by right]. }
    destruct (strchr pszBase58 c) as [ch|] eqn:Ec; [|by eexists].
    apply strchr_digit in Ec as [Hch Ec]. cbn [length] in Hfit. rewrite Nat2Z.inj_succ, Z.pow_succ_r in Hfit by lia.
    pose proof (be_val_bound 256 ltac:(lia) (rev b256) ltac:(by apply Forall_rev)).
    pose proof (Z.pow_pos_nonneg 58 (Z.of_nat (length psz)) ltac:(lia) ltac:(lia)).
    destruct (mul_add_fits 256 58 ltac:(lia) ltac:(lia) b256 ch) as (b1 & -> & El & Hb1 & Hv1); [lia|done|nia|].
    change (0 =? 0) with true. cbv iota.
    destruct (IH b1 Hb1) as (r & -> & Hr); [rewrite Hv1, El; nia|].
    exists r. split; [done|]. intros b' tl E. destruct (Hr b' tl E) as (D & -> & HD & Htl).
    exists (ch :: D). cbn [map app]. rewrite Ec. split_and!; [done|by constructor|done].
Qed.

Lemma skip_space_spec p : exists sp, p = sp ++ base_blob.skip_space p /\ forallb isspace sp = true /\
  (base_blob.skip_space p = [] \/ isspace (hd 0 (base_blob.skip_space p)) = false).
Proof.
  induction p as [|c p (sp & E & Hs & Hh)]; [exists []; split_and!; [done|done|by left]|]. cbn [base_blob.skip_space].
  destruct (isspace c) eqn:Ec.
  - exists (c :: sp). cbn [forallb app]. rewrite Ec, <- E. by split_and!.
  - exists []. split_and!; [done|done|by right].
Qed.

(** The text that [DecodeBase58] takes: digits, with white space before and after. *)
Definition text58 (pre : list Z) (z : nat) (D : list Z) (post : list Z) : list Z := pre ++ replicate z 49 ++ map b58_char D ++ post.

Lemma no_one_in_front D tl : digits_ok 58 D -> (D = [] \/ hd 0 D <> 0) -> (tl = [] \/ isspace (hd 0 tl) = true) ->
  map b58_char D ++ tl = [] \/ hd 0 (map b58_char D ++ tl) <> 49.
Proof.
  intros HD Hh Ht. destruct D as [|d D]; cbn [map app hd].
  - destruct Ht as [->|Ht]; [by left|]. right. by intros E; rewrite E in Ht.
  - right. destruct Hh as [|Hh]; [done|]. apply list.Forall_cons in HD as [Hd _]. by apply b58_char_spec.
Qed.

Lemma DecodeBase58_digits z D bytes s : digits_ok 58 D -> (D = [] \/ hd 0 D <> 0) ->
  bytes_ok bytes -> (bytes = [] \/ hd 0 bytes <> 0) -> be_val 58 D = be_val 256 bytes ->
  c_str s = replicate z 49 ++ map b58_char D -> DecodeBase58 s = Some (Some (replicate z 0 ++ bytes)).
Proof.
  intros HD HhD Hb Hhb Hv Es. unfold DecodeBase58. rewrite Es.
  assert (base_blob.skip_space (replicate z 49 ++ map b58_char D) = replicate z 49 ++ map b58_char D) as ->.
  { destruct z as [|z]; [|done]. destruct D as [|d D]; [done|]. cbn [replicate app map base_blob.skip_space].
    apply list.Forall_cons in HD as [Hd _]. destruct (b58_char_spec d Hd) as (_ & Hs & _). by rewrite Hs. }
  rewrite count_leading_app by (rewrite <- (app_nil_r (map b58_char D)); apply no_one_in_front; [done|done|by left]).
  set (k := (length (map b58_char D) * 733 / 1000 + 1)%nat).
  assert (be_val 256 (rev (replicate k 0)) = 0) as E0 by (rewrite rev_zeros; by apply be_val_zeros).
  destruct (decode_chars_spec D [] HD ltac:(by left) (replicate k 0)) as (b' & Ed & Hb' & Hv').
  { by apply (zeros_ok 256). }
  { rewrite E0, length_replicate. pose proof (be_val_bound 58 ltac:(lia) D HD). pose proof (size_256 (length D)).
    unfold k. rewrite length_map. lia. }
  rewrite app_nil_r in Ed. rewrite Ed. cbn [base_blob.skip_space]. do 2 f_equal. f_equal.
  destruct (skip_zeros_spec 256 ltac:(lia) (rev b') ltac:(by apply Forall_rev)) as (H1 & H2 & H3 & _).
  apply (canonical_inj 256 ltac:(lia)); [done|done|done|done|]. rewrite H2, Hv', E0, Hv. lia.
Qed.

Lemma skip_space_nil tl : base_blob.skip_space tl = [] -> forallb isspace tl = true.
Proof. intros H. destruct (skip_space_spec tl) as (sp & E & Hs & _). rewrite H, app_nil_r in E. by subst. Qed.

Lemma DecodeBase58_total s : exists r, DecodeBase58 s = Some r /\ forall v, r = Some v ->
  bytes_ok v /\ exists pre body post, c_str s = pre ++ body ++ post /\ forallb isspace pre = true /\
    forallb isspace post = true /\ EncodeBase58 v = Some body.
Proof.
  unfold DecodeBase58. destruct (skip_space_spec (c_str s)) as (sp & E & Hsp & _).
  set (p := base_blob.skip_space (c_str s)) in *.
  destruct (count_leading_spec 49 p) as (z & p2 & -> & Ep & Hp2).
  set (k := (length p2 * 733 / 1000 + 1)%nat).
  assert (be_val 256 (rev (replicate k 0)) = 0) as E0 by (rewrite rev_zeros; by apply be_val_zeros).
  assert (bytes_ok (replicate k 0)) as Hz by (by apply (zeros_ok 256)).
  destruct (decode_chars_total p2 (replicate k 0) Hz) as (r & Er & Hr).
  { rewrite E0, length_replicate. pose proof (size_256 (length p2)). unfold k. lia. }
  rewrite Er. destruct r as [[b' tl]|]; [|by eexists].
  destruct (base_blob.skip_space tl) as [|c l] eqn:Etl; [|by eexists].
  eexists. split; [reflexivity|]. intros v [= <-].
  destruct (Hr b' tl eq_refl) as (D & -> & HD & Htl).
  destruct (decode_chars_spec D tl HD Htl (replicate k 0) Hz) as (b'' & Ed & Hb' & Hv').
  { rewrite E0, length_replicate. pose proof (be_val_bound 58 ltac:(lia) D HD). pose proof (size_256 (length (map b58_char D ++ tl))).
    unfold k. assert (58 ^ Z.of_nat (length D) <= 58 ^ Z.of_nat (length (map b58_char D ++ tl)));
      [apply Z.pow_le_mono_r; [lia|]; rewrite length_app, length_map; lia|lia]. }
  rewrite Er in Ed. injection Ed as <-.
  destruct (skip_zeros_spec 256 ltac:(lia) (rev b') ltac:(by apply Forall_rev)) as (H1 & H2 & H3 & _).
  split; [apply Forall_app; split; [by apply (zeros_ok 256)|done]|].
  exists sp, (replicate z 49 ++ map b58_char D), tl.
  split; [by rewrite E, Ep, <- !app_assoc|]. split; [done|]. split; [by apply skip_space_nil|].
  destruct (EncodeBase58_digits z (skip_zeros (rev b')) H1 H3) as (D' & -> & HD' & HhD' & HvD').
  do 2 f_equal. f_equal. apply (canonical_inj 58 ltac:(lia)); [done|done|done| |].
  - destruct D as [|d D]; [by left|]. right. cbn [hd map app] in *. intros ->. by destruct Hp2 as [|Hp2].
  - rewrite HvD', H2, Hv', E0. lia.
Qed.

Lemma zeros_split v : bytes_ok v -> exists z bytes, v = replicate z 0 ++ bytes /\ bytes_ok bytes /\ (bytes = [] \/ hd 0 bytes <> 0).
Proof.
  intros Hv. destruct (count_leading_spec 0 v) as (z & bytes & _ & -> & Hh). exists z, bytes.
  apply Forall_app in Hv as [_ Hb]. by split_and!.
Qed.

Lemma c_str_app s : (forall c, In c s -> c <> 0) -> c_str s = s.
Proof. intros H. apply c_str_id. intros Hin. by apply (H 0 Hin). Qed.

Lemma text_no_nul z D : digits_ok 58 D -> c_str (replicate z 49 ++ map b58_char D) = replicate z 49 ++ map b58_char D.
Proof.
  intros HD. apply c_str_app. intros c [Hin|Hin]%in_app_iff.
  - apply list_elem_of_In, elem_of_replicate in Hin as [-> _]. done.
  - apply in_map_iff in Hin as (d & <- & Hd). unfold digits_ok in HD. rewrite list.Forall_forall in HD.
    apply b58_char_spec, HD. by apply list_elem_of_In.
Qed.

(** Every string of bytes has a text, without NUL or white space, that is decoded to it. *)
Lemma Base58_encode_decode v : bytes_ok v -> exists s, EncodeBase58 v = Some s /\ c_str s = s /\
  DecodeBase58 s = Some (Some v) /\ Forall (fun c => isspace c = false) s.
Proof.
  intros Hv. destruct (zeros_split v Hv) as (z & bytes & -> & Hb & Hh).
  destruct (EncodeBase58_digits z bytes Hb Hh) as (D & -> & HD & HhD & HvD).
  eexists. split; [reflexivity|]. split; [by apply text_no_nul|].
  split; [apply (DecodeBase58_digits z D bytes); try done; by apply text_no_nul|].
  apply Forall_app. split; [by apply Forall_replicate|]. apply Forall_map. eapply list.Forall_impl; [exact HD|].
  intros d Hd. by apply (b58_char_spec d Hd).
Qed.

(** [C38] The two conversions of base 58 fail no assertion: every string of bytes is encoded, as a text that
    is decoded to it; every text is decoded or rejected, and one that is decoded is, between white
    space, the encoding of the result. *)
Theorem Base58_bijection v s : bytes_ok v ->
  (exists t, EncodeBase58 v = Some t /\ DecodeBase58 t = Some (Some v)) /\
  (exists r, DecodeBase58 s = Some r /\ forall w, r = Some w -> exists pre body post,
     c_str s = pre ++ body ++ post /\ forallb isspace pre = true /\ forallb isspace post = true /\ EncodeBase58 w = Some body).
Proof.
  intros Hv. split.
  - destruct (Base58_encode_decode v Hv) as (t & E & _ & Ed & _). by exists t.
  - destruct (DecodeBase58_total s) as (r & -> & Hr). exists r. split; [done|]. intros w Ew. by apply Hr.
Qed.

Lemma Base58_bijection_witness :
  EncodeBase58 [0; 0; 1; 2; 255] = Some (chars "11LiA") /\
  exists t, EncodeBase58 [0; 0; 1; 2; 255] = Some t /\ DecodeBase58 t = Some (Some [0; 0; 1; 2; 255]).
Proof.
  split; [vm_compute; reflexivity|].
  apply (Base58_bijection [0; 0; 1; 2; 255] []). apply (bool_decide_unpack _). vm_compute. exact I.
Defined.

(** ** The checksum *)

Lemma Hash_length v : length (Hash v) = 32%nat.
Proof. rewrite Hash_spec. apply hash256_length. Qed.

Lemma checked_ok v : bytes_ok v -> bytes_ok (v ++ take 4 (Hash v)).
Proof.
  intros Hv. apply Forall_app. split; [done|]. apply Forall_take. rewrite Hash_spec. apply hash256_ok.
Qed.

Lemma Base58Check_round_trip v : bytes_ok v ->
  exists s, EncodeBase58Check v = Some s /\ DecodeBase58Check s = Some (Some v).
Proof.
  intros Hv. destruct (Base58_encode_decode (v ++ take 4 (Hash v)) (checked_ok v Hv)) as (s & E & _ & Ed & _).
  exists s. split; [done|]. unfold DecodeBase58Check. rewrite Ed.
  assert (length (take 4 (Hash v)) = 4%nat) as E4 by (rewrite length_take, Hash_length; done).
  rewrite length_app, E4. destruct (Z.ltb_spec (Z.of_nat (length v + 4)) 4); [lia|].
  replace (length v + 4 - 4)%nat with (length v) by lia. rewrite take_app_length, drop_app_length.
  assert (base_blob.memcmp (take 4 (Hash v)) (take 4 (Hash v)) = 0) as -> by (by apply memcmp_eq). done.
Qed.

(** What [DecodeBase58Check] accepts ends with the checksum of the rest. *)
Lemma DecodeBase58Check_total s : exists r, DecodeBase58Check s = Some r /\ forall v, r = Some v ->
  bytes_ok v /\ exists pre body post, c_str s = pre ++ body ++ post /\ forallb isspace pre = true /\
    forallb isspace post = true /\ EncodeBase58Check v = Some body /\
    DecodeBase58 s = Some (Some (v ++ take 4 (Hash v))).
Proof.
  unfold DecodeBase58Check. destruct (DecodeBase58_total s) as (r & Er & Hr). rewrite Er.
  destruct r as [w|]; [|by eexists]. destruct (Hr w eq_refl) as (Hw & pre & body & post & Ec & Hpre & Hpost & Ew).
  destruct (Z.ltb_spec (Z.of_nat (length w)) 4); [by eexists|]. cbv zeta.
  set (n := (length w - 4)%nat). destruct (Z.eqb_spec (base_blob.memcmp (take 4 (Hash (take n w))) (drop n w)) 0) as [Em|];
    cbn [negb]; [|by eexists].
  eexists. split; [reflexivity|]. intros v [= <-].
  apply memcmp_eq in Em; [|rewrite length_take, Hash_length, length_drop; unfold n; lia].
  assert (take n w ++ take 4 (Hash (take n w)) = w) as E by (rewrite Em; apply take_drop).
  split; [by apply Forall_take|]. exists pre, body, post. unfold EncodeBase58Check. rewrite E. by split_and!.
Qed.

(** ** CBase58Data *)

(** The text of an object gives it back to a reader that knows the length of its version. *)
Lemma CBase58Data_round_trip ver d : bytes_ok ver -> bytes_ok d -> exists s,
  ToString {| vchVersion := ver; vchData := d |} = Some s /\
  SetString s (length ver) = Some (true, {| vchVersion := ver; vchData := d |}).
Proof.
  intros Hver Hd. unfold ToString. cbn [vchVersion vchData].
  destruct (Base58Check_round_trip (ver ++ d)) as (s & E & Ed); [by apply Forall_app|].
  exists s. split; [done|]. unfold SetString. rewrite Ed, length_app.
  destruct (Nat.ltb_spec (length ver + length d) (length ver)); [lia|]. by rewrite take_app_length, drop_app_length.
Qed.

Lemma vec_lt_irrefl a : vec_lt a a = false.
Proof. induction a as [|x a IH]; [done|]. cbn [vec_lt]. rewrite Z.ltb_irrefl. apply IH. Qed.

Lemma vec_lt_total a : forall b, vec_lt a b = false -> vec_lt b a = false -> a = b.
Proof.
  induction a as [|x a IH]; intros [|y b]; cbn [vec_lt]; try done.
  repeat case_Z; try done; intros H1 H2; (lia || (assert (x = y) as -> by lia; f_equal; by apply IH)).
Qed.

(** [CompareTo] is zero exactly on equal objects. *)
Lemma CompareTo_eq a b : CompareTo a b = 0 <-> a = b.
Proof.
  destruct a as [v d], b as [v' d']. unfold CompareTo. cbn [vchVersion vchData]. split.
  - destruct (vec_lt v v') eqn:E1; [done|]. destruct (vec_lt v' v) eqn:E2; [done|].
    destruct (vec_lt d d') eqn:E3; [done|]. destruct (vec_lt d' d) eqn:E4; [done|]. intros _.
    f_equal; by apply vec_lt_total.
  - intros [= -> ->]. by rewrite !vec_lt_irrefl.
Qed.
