(* ===== verification/Bech32.v ===== *)
(** * Bech32: the checksummed encoding of shielded addresses, [src/src/bech32.h] and [bech32.cpp]
    A string is the list of its characters.  The theorems: what is encoded is decoded, what is decoded
    is the encoding of the result up to the case of its letters, and the errors the checksum finds. *)
From Stdlib Require Import String.
From S2P Require Import Prelude TextCodec.
#[local] Open Scope Z_scope.
#[local] Abbreviation length := List.length (only parsing).

Module bech32.

Definition CHARSET : list Z := Eval compute in chars "qpzry9x8gf2tvdw0s3jn54khce6mua7l".

Definition CHARSET_REV : list Z := [
    -1; -1; -1; -1; -1; -1; -1; -1; -1; -1; -1; -1; -1; -1; -1; -1;
    -1; -1; -1; -1; -1; -1; -1; -1; -1; -1; -1; -1; -1; -1; -1; -1;
    -1; -1; -1; -1; -1; -1; -1; -1; -1; -1; -1; -1; -1; -1; -1; -1;
    15; -1; 10; 17; 21; 20; 26; 30;  7;  5; -1; -1; -1; -1; -1; -1;
    -1; 29; -1; 24; 13; 25;  9;  8; 23; -1; 18; 22; 31; 27; 19; -1;
     1;  0;  3; 16; 11; 28; 12; 14;  6;  4;  2; -1; -1; -1; -1; -1;
    -1; 29; -1; 24; 13; 25;  9;  8; 23; -1; 18; 22; 31; 27; 19; -1;
     1;  0;  3; 16; 11; 28; 12; 14;  6;  4;  2; -1; -1; -1; -1; -1 ].

(** One turn of the loop of [PolyMod]. *)
Definition PolyMod_step (c v_i : Z) : Z :=
  let c0 := u8 (Z.shiftr c 25) in
  let c := Z.lxor (Z.shiftl (Z.land c 0x1ffffff) 5) v_i in
  let c := if negb (Z.land c0 1 =? 0) then Z.lxor c 0x3b6a57b2 else c in
  let c := if negb (Z.land c0 2 =? 0) then Z.lxor c 0x26508e6d else c in
  let c := if negb (Z.land c0 4 =? 0) then Z.lxor c 0x1ea119fa else c in
  let c := if negb (Z.land c0 8 =? 0) then Z.lxor c 0x3d4233dd else c in
  if negb (Z.land c0 16 =? 0) then Z.lxor c 0x2a1462b3 else c.

Definition PolyMod (v : list Z) : Z := fold_left PolyMod_step v 1.

Definition LowerCase (c : Z) : Z := if (c >=? 65) && (c <=? 90) then c - 65 + 97 else c.

Definition ExpandHRP (hrp : list Z) : list Z :=
  map (fun c => Z.shiftr c 5) hrp ++ [0] ++ map (fun c => Z.land c 0x1f) hrp.

Definition VerifyChecksum (hrp values : list Z) : bool := PolyMod (ExpandHRP hrp ++ values) =? 1.

Definition CreateChecksum (hrp values : list Z) : list Z :=
  let enc := ExpandHRP hrp ++ values in
  let enc := enc ++ replicate 6 0 in
  let mod_ := Z.lxor (PolyMod enc) 1 in
  map (fun i => Z.land (Z.shiftr mod_ (5 * (5 - Z.of_nat i))) 31) (seq 0 6).

Definition Encode (hrp values : list Z) : list Z :=
  let checksum := CreateChecksum hrp values in
  let combined := values ++ checksum in
  if existsb (fun c => c >=? 32) combined then []
  else hrp ++ [49] ++ map (fun c => nth (Z.to_nat c) CHARSET 0) combined.

(** [str.rfind('1')] *)
Fixpoint rfind (str : list Z) (ch : Z) : option nat :=
  match str with
  | [] => None
  | c :: str => match rfind str ch with Some i => Some (S i) | None => if c =? ch then Some O else None end
  end.

Definition rev_char (c : Z) : Z := if (c <? 33) || (c >? 126) then -1 else nth (Z.to_nat c) CHARSET_REV 0.

Definition Decode (str : list Z) : list Z * list Z :=
  if existsb (fun c => (c <? 33) || (c >? 126)) str then ([], [])
  else if existsb (fun c => (c >=? 97) && (c <=? 122)) str && existsb (fun c => (c >=? 65) && (c <=? 90)) str then ([], [])
  else match rfind str 49 with
  | None => ([], [])
  | Some pos =>
      if (1023 <? Z.of_nat (length str)) || (pos =? 0)%nat || (length str <? pos + 7)%nat then ([], [])
      else
        let values := map rev_char (drop (pos + 1) str) in
        if existsb (fun rev => rev =? -1) values then ([], [])
        else
          let hrp := map LowerCase (take pos str) in
          if negb (VerifyChecksum hrp values) then ([], [])
          else (hrp, take (length values - 6) values)
  end.

End bech32.

(** A test vector of BIP 173, and a string with a wrong character. *)
Example bech32_texts :
  map bech32.Decode (map chars ["A12UEL5L"; "an83characterlonghumanreadablepartthatcontainsthenumber1andtheexcludedcharactersbio1tt5tgs";
    "split1cheo2y9e2w"]%string) =
  [(chars "a", []); (chars "an83characterlonghumanreadablepartthatcontainsthenumber1andtheexcludedcharactersbio", []); ([], [])].
Proof. vm_compute. reflexivity. Qed.

(** ** The checksum is linear *)

Module Bech32Laws.
Import bech32.

Definition sel (b : bool) (k : Z) : Z := if b then k else 0.

(** What is added for the top symbol. *)
Definition feedback (x : Z) : Z :=
  Z.lxor (sel (Z.testbit x 0) 0x3b6a57b2) (Z.lxor (sel (Z.testbit x 1) 0x26508e6d) (Z.lxor (sel (Z.testbit x 2) 0x1ea119fa)
    (Z.lxor (sel (Z.testbit x 3) 0x3d4233dd) (sel (Z.testbit x 4) 0x2a1462b3)))).

Lemma land_bit x i : 0 <= i -> negb (Z.land x (2 ^ i) =? 0) = Z.testbit x i.
Proof.
  intros Hi. rewrite <- (Z.mul_1_l (2 ^ i)), <- Z.shiftl_mul_pow2 by lia.
  destruct (Z.testbit x i) eqn:E.
  - destruct (Z.eqb_spec (Z.land x (Z.shiftl 1 i)) 0) as [H|]; [|done]. exfalso.
    assert (Z.testbit (Z.land x (Z.shiftl 1 i)) i = true) as Ht; [|by rewrite H, Z.bits_0 in Ht].
    rewrite Z.land_spec, E, Z.shiftl_spec by lia. by rewrite Z.sub_diag.
  - apply negb_false_iff, Z.eqb_eq, Z.bits_inj'. intros j Hj. rewrite Z.land_spec, Z.shiftl_spec, Z.bits_0 by lia.
    destruct (Z.eq_dec j i) as [->|]; [by rewrite E|]. apply andb_false_iff. right.
    destruct (Z.lt_ge_cases (j - i) 0); [by apply Z.testbit_neg_r|]. apply Z.bits_above_log2; cbn; lia.
Qed.

Lemma xor_if (b : bool) c k : (if b then Z.lxor c k else c) = Z.lxor c (sel b k).
Proof. destruct b; [done|]. cbn. by rewrite Z.lxor_0_r. Qed.

Lemma PolyMod_step_eq c v : PolyMod_step c v =
  Z.lxor (Z.lxor (Z.shiftl (Z.land c 0x1ffffff) 5) v) (feedback (Z.shiftr c 25)).
Proof.
  unfold PolyMod_step. cbv zeta. rewrite !xor_if. unfold feedback.
  assert (forall i, 0 <= i < 8 -> Z.testbit (u8 (Z.shiftr c 25)) i = Z.testbit (Z.shiftr c 25) i) as Hb.
  { intros i Hi. unfold uwrap. by rewrite Z.mod_pow2_bits_low by lia. }
  pose proof (land_bit (u8 (Z.shiftr c 25)) 0 ltac:(lia)) as E0. pose proof (land_bit (u8 (Z.shiftr c 25)) 1 ltac:(lia)) as E1.
  pose proof (land_bit (u8 (Z.shiftr c 25)) 2 ltac:(lia)) as E2. pose proof (land_bit (u8 (Z.shiftr c 25)) 3 ltac:(lia)) as E3.
  pose proof (land_bit (u8 (Z.shiftr c 25)) 4 ltac:(lia)) as E4.
  change (2 ^ 0) with 1 in E0. change (2 ^ 1) with 2 in E1. change (2 ^ 2) with 4 in E2. change (2 ^ 3) with 8 in E3.
  change (2 ^ 4) with 16 in E4. rewrite E0, E1, E2, E3, E4, !Hb by lia. by rewrite !Z.lxor_assoc.
Qed.

Lemma sel_xor a b k : sel (xorb a b) k = Z.lxor (sel a k) (sel b k).
Proof. destruct a, b; cbn [xorb sel]; by rewrite ?Z.lxor_nilpotent, ?Z.lxor_0_r, ?Z.lxor_0_l. Qed.

(** Equality of exclusive ors, bit by bit. *)
Ltac xor_bits := apply Z.bits_inj'; intros i Hi; rewrite !Z.lxor_spec;
  repeat match goal with |- context [Z.testbit ?x i] => destruct (Z.testbit x i) end; reflexivity.

Lemma feedback_xor x y : feedback (Z.lxor x y) = Z.lxor (feedback x) (feedback y).
Proof. unfold feedback. rewrite !Z.lxor_spec, !sel_xor. xor_bits. Qed.

Lemma step_xor c d v w : PolyMod_step (Z.lxor c d) (Z.lxor v w) = Z.lxor (PolyMod_step c v) (PolyMod_step d w).
Proof.
  rewrite !PolyMod_step_eq, Z.shiftr_lxor, feedback_xor.
  assert (Z.shiftl (Z.land (Z.lxor c d) 0x1ffffff) 5 =
          Z.lxor (Z.shiftl (Z.land c 0x1ffffff) 5) (Z.shiftl (Z.land d 0x1ffffff) 5)) as ->.
  { rewrite <- Z.shiftl_lxor. f_equal. apply Z.bits_inj'. intros i Hi. rewrite Z.lxor_spec, !Z.land_spec, Z.lxor_spec.
    by destruct (Z.testbit c i), (Z.testbit d i), (Z.testbit 0x1ffffff i). }
  xor_bits.
Qed.

(** The sum of two lists of the same length, and the state from [c] on. *)
Definition xor_list (v w : list Z) : list Z := zip_with Z.lxor v w.
Definition run (c : Z) (v : list Z) : Z := fold_left PolyMod_step v c.

Lemma run_app c v w : run c (v ++ w) = run (run c v) w.
Proof. apply fold_left_app. Qed.

Lemma run_xor v : forall w c d, length v = length w -> run (Z.lxor c d) (xor_list v w) = Z.lxor (run c v) (run d w).
Proof.
  induction v as [|x v IH]; intros [|y w] c d Hl; try done. unfold run, xor_list in *. cbn [zip_with fold_left].
  rewrite step_xor. apply IH. by injection Hl.
Qed.

Definition symbols (v : list Z) : Prop := digits_ok 32 v.

Lemma xor_small n x y : 0 <= n -> 0 <= x < 2 ^ n -> 0 <= y < 2 ^ n -> 0 <= Z.lxor x y < 2 ^ n.
Proof.
  intros Hn Hx Hy. split; [apply Z.lxor_nonneg; lia|].
  destruct (Z.eq_dec (Z.lxor x y) 0) as [->|]; [apply Z.pow_pos_nonneg; lia|].
  assert (0 <= Z.lxor x y) by (apply Z.lxor_nonneg; lia).
  apply Z.log2_lt_pow2; [lia|]. pose proof (Z.log2_lxor x y ltac:(lia) ltac:(lia)).
  destruct (Z.eq_dec x 0) as [->|]; [rewrite Z.lxor_0_l in *; apply Z.log2_lt_pow2; lia|].
  destruct (Z.eq_dec y 0) as [->|]; [rewrite Z.lxor_0_r in *; apply Z.log2_lt_pow2; lia|].
  assert (Z.log2 x < n) by (apply Z.log2_lt_pow2; lia). assert (Z.log2 y < n) by (apply Z.log2_lt_pow2; lia). lia.
Qed.

Lemma sel_small b k : 0 <= k < 2 ^ 30 -> 0 <= sel b k < 2 ^ 30.
Proof. intros H. destruct b; cbn [sel]; lia. Qed.

Lemma step_small c v : 0 <= c < 2 ^ 30 -> 0 <= v < 32 -> 0 <= PolyMod_step c v < 2 ^ 30.
Proof.
  intros Hc Hv. rewrite PolyMod_step_eq. unfold feedback.
  assert (0 <= Z.land c 0x1ffffff < 2 ^ 25).
  { change 0x1ffffff with (Z.ones 25). rewrite Z.land_ones by lia. by apply Z.mod_pos_bound. }
  repeat apply xor_small; try lia; try (by apply sel_small).
  rewrite Z.shiftl_mul_pow2 by lia. lia.
Qed.

Lemma run_small v : forall c, symbols v -> 0 <= c < 2 ^ 30 -> 0 <= run c v < 2 ^ 30.
Proof.
  induction v as [|x v IH]; intros c Hv Hc; [done|]. apply list.Forall_cons in Hv as [Hx Hv].
  apply IH; [done|]. by apply step_small.
Qed.

(** While the state is short, a symbol is only appended to it. *)
Lemma step_append c v : 0 <= c < 2 ^ 25 -> 0 <= v < 32 -> PolyMod_step c v = c * 32 + v.
Proof.
  intros Hc Hv. rewrite PolyMod_step_eq. rewrite Z.shiftr_div_pow2, Z.div_small by lia.
  change (feedback 0) with 0. rewrite Z.lxor_0_r. change 0x1ffffff with (Z.ones 25). rewrite Z.land_ones, Z.mod_small by lia.
  rewrite Z.lxor_comm, Z.shiftl_mul_pow2 by lia.
  assert (c * 32 + v = Z.lor v (c * 2 ^ 5)) as -> by (rewrite lor_add by lia; lia).
  apply Z.bits_inj'. intros i Hi. rewrite Z.lxor_spec, Z.lor_spec.
  destruct (Z.lt_ge_cases i 5).
  - rewrite Z.mul_pow2_bits_low by lia. by destruct (Z.testbit v i).
  - rewrite (Z.bits_above_log2 v i); [by destruct (Z.testbit _ i)|lia|].
    destruct (Z.eq_dec v 0) as [->|]; [cbn; lia|]. assert (Z.log2 v < 5); [apply Z.log2_lt_pow2; lia|lia].
Qed.

Lemma run_zero_state v : symbols v -> (length v <= 6)%nat -> run 0 v = be_val 32 v.
Proof.
  intros Hv. rewrite <- (rev_involutive v). set (r := rev v). assert (symbols r) as Hr by (by apply Forall_rev).
  clearbody r. clear v Hv. rewrite length_rev.
  induction Hr as [|x r Hx Hr IH]; intros Hl; [done|]. cbn [rev length] in *. rewrite run_app, IH, be_val_snoc by lia.
  unfold run. cbn [fold_left].
  pose proof (be_val_bound 32 ltac:(lia) (rev r) ltac:(by apply Forall_rev)) as Hb. rewrite length_rev in Hb.
  assert (32 ^ Z.of_nat (length r) <= 32 ^ 5) by (apply Z.pow_le_mono_r; lia). change (32 ^ 5) with (2 ^ 25) in *.
  apply step_append; [lia|done].
Qed.

(** The last six symbols are added to the state. *)
Lemma run_checksum c cs : symbols cs -> length cs = 6%nat -> run c cs = Z.lxor (run c (replicate 6 0)) (be_val 32 cs).
Proof.
  intros Hcs Hl. rewrite <- (run_zero_state cs Hcs) by lia.
  rewrite <- run_xor by (by rewrite length_replicate). rewrite Z.lxor_0_r. f_equal.
  unfold xor_list. clear -Hl. revert Hl. generalize 6%nat. induction cs as [|x cs IH]; intros [|n] Hl; try done.
  cbn [replicate zip_with]. rewrite Z.lxor_0_l. f_equal. apply IH. by injection Hl.
Qed.

(** ** The checksum is right, and the only one *)

Definition groups (m : Z) : list Z := map (fun i => Z.land (Z.shiftr m (5 * (5 - Z.of_nat i))) 31) (seq 0 6).

Lemma groups_spec m : 0 <= m < 2 ^ 30 -> symbols (groups m) /\ length (groups m) = 6%nat /\ be_val 32 (groups m) = m.
Proof.
  intros Hm. split; [|split; [done|]].
  - apply Forall_map, list.Forall_forall. intros i _. cbv beta. change 31 with (Z.ones 5). rewrite Z.land_ones by lia.
    by apply Z.mod_pos_bound.
  - change (groups m) with [Z.land (Z.shiftr m 25) 31; Z.land (Z.shiftr m 20) 31; Z.land (Z.shiftr m 15) 31;
      Z.land (Z.shiftr m 10) 31; Z.land (Z.shiftr m 5) 31; Z.land (Z.shiftr m 0) 31].
    change 31 with (Z.ones 5). rewrite !Z.land_ones, !Z.shiftr_div_pow2 by lia. unfold be_val. cbn [fold_left].
    change (2 ^ 5) with 32.
    assert (forall a b, 0 <= a -> 0 <= b -> m / 2 ^ (a + b) = m / 2 ^ a / 2 ^ b) as Hdiv.
    { intros a b Ha Hb. rewrite Z.pow_add_r by lia. rewrite Z.div_div; [done|apply Z.pow_nonzero; lia|apply Z.pow_pos_nonneg; lia]. }
    change 25 with (20 + 5). rewrite Hdiv by lia. change 20 with (15 + 5). rewrite Hdiv by lia.
    change 15 with (10 + 5). rewrite Hdiv by lia. change 10 with (5 + 5). rewrite Hdiv by lia.
    change (2 ^ 5) with 32. change (2 ^ 0) with 1. rewrite Z.div_1_r.
    pose proof (Z.div_mod m 32 ltac:(lia)). pose proof (Z.div_mod (m / 32) 32 ltac:(lia)).
    pose proof (Z.div_mod (m / 32 / 32) 32 ltac:(lia)). pose proof (Z.div_mod (m / 32 / 32 / 32) 32 ltac:(lia)).
    pose proof (Z.div_mod (m / 32 / 32 / 32 / 32) 32 ltac:(lia)).
    set (q5 := m / 32 / 32 / 32 / 32 / 32) in *.
    assert (q5 mod 32 = q5) as ->; [|lia]. apply Z.mod_small. unfold q5.
    rewrite !Z.div_div by lia. split; [apply Z.div_pos; lia|apply Z.div_lt_upper_bound; lia].
Qed.

(** The characters a prefix may have, and its expansion. *)
Definition printable (s : list Z) : Prop := Forall (fun c => 33 <= c <= 126) s.

Lemma ExpandHRP_symbols hrp : printable hrp -> symbols (ExpandHRP hrp).
Proof.
  intros Hp. unfold ExpandHRP. apply Forall_app. split; [|constructor; [lia|]]; apply Forall_map;
    (eapply list.Forall_impl; [exact Hp|]); intros c Hc; cbv beta in *.
  - rewrite Z.shiftr_div_pow2 by lia. split; [apply Z.div_pos; lia|apply Z.div_lt_upper_bound; lia].
  - change 0x1f with (Z.ones 5). rewrite Z.land_ones by lia. by apply Z.mod_pos_bound.
Qed.

(** Six symbols make the whole verify exactly when they are the checksum. *)
Lemma checksum_unique hrp values cs : printable hrp -> symbols values -> symbols cs -> length cs = 6%nat ->
  VerifyChecksum hrp (values ++ cs) = true <-> cs = CreateChecksum hrp values.
Proof.
  intros Hh Hv Hcs Hl. unfold VerifyChecksum, CreateChecksum. rewrite Z.eqb_eq.
  set (enc := ExpandHRP hrp ++ values). set (m := PolyMod (enc ++ replicate 6 0)).
  assert (0 <= m < 2 ^ 30) as Hm.
  { apply run_small; [|lia]. apply Forall_app. split; [apply Forall_app; split; [by apply ExpandHRP_symbols|done]|].
    apply Forall_replicate. lia. }
  assert (0 <= Z.lxor m 1 < 2 ^ 30) as Hm1 by (apply xor_small; lia).
  destruct (groups_spec (Z.lxor m 1) Hm1) as (Hg & Hgl & Hgv).
  change (map _ (seq 0 6)) with (groups (Z.lxor m 1)).
  assert (PolyMod (ExpandHRP hrp ++ values ++ cs) = Z.lxor m (be_val 32 cs)) as ->.
  { rewrite app_assoc. unfold m, enc. change PolyMod with (run 1). rewrite !run_app.
    by apply run_checksum. }
  split.
  - intros E. apply (be_val_inj 32 ltac:(lia)); [done|done|congruence|]. rewrite Hgv.
    by rewrite <- E, <- Z.lxor_assoc, Z.lxor_nilpotent, Z.lxor_0_l.
  - intros ->. rewrite Hgv. by rewrite <- Z.lxor_assoc, Z.lxor_nilpotent.
Qed.

(** ** Encoding and decoding *)

Definition char_of (v : Z) : Z := nth (Z.to_nat v) CHARSET 0.

Definition charset_ok (v : Z) : bool :=
  let c := char_of v in (33 <=? c) && (c <=? 126) && negb (c =? 49) && (rev_char c =? v) && (LowerCase c =? c).

Lemma char_of_spec v : 0 <= v < 32 -> 33 <= char_of v <= 126 /\ char_of v <> 49 /\ rev_char (char_of v) = v /\
  LowerCase (char_of v) = char_of v.
Proof.
  intros Hv. assert (charset_ok v = true) as H by (apply (below_all charset_ok 32); [by vm_compute|done]).
  unfold charset_ok in H. propify. by split_and!.
Qed.

Definition rev_ok (c : Z) : bool :=
  let v := rev_char c in (v =? -1) || ((0 <=? v) && (v <? 32) && (char_of v =? LowerCase c)).

Lemma rev_char_spec c : 33 <= c <= 126 -> rev_char c = -1 \/ (0 <= rev_char c < 32 /\ char_of (rev_char c) = LowerCase c).
Proof.
  intros Hc. assert (rev_ok c = true) as H by (apply (below_all rev_ok 128); [by vm_compute|lia]).
  unfold rev_ok in H. apply orb_true_iff in H as [H|H]; propify; [by left|right; lia].
Qed.

Lemma rfind_last a l ch : ~ In ch l -> rfind (a ++ ch :: l) ch = Some (length a).
Proof.
  intros Hl. induction a as [|c a IH]; cbn [app rfind length].
  - assert (rfind l ch = None) as ->; [|by rewrite Z.eqb_refl].
    induction l as [|d l IHl]; [done|]. cbn [rfind]. rewrite IHl by (intros H; apply Hl; by right).
    destruct (Z.eqb_spec d ch) as [->|]; [|done]. destruct Hl. by left.
  - by rewrite IH.
Qed.

Lemma rfind_some s ch : forall i, rfind s ch = Some i -> s = take i s ++ ch :: drop (i + 1) s /\ (i < length s)%nat.
Proof.
  induction s as [|c s IH]; intros i; cbn [rfind]; [done|]. destruct (rfind s ch) as [j|].
  - intros [= <-]. destruct (IH j eq_refl) as [E Hl]. cbn [take drop app length Nat.add]. split; [by f_equal|lia].
  - destruct (Z.eqb_spec c ch) as [->|]; [|done]. intros [= <-]. cbn. split; [done|lia].
Qed.

Lemma no_exists {A} (f : A -> bool) l : existsb f l = false <-> Forall (fun x => f x = false) l.
Proof.
  induction l as [|x l IH]; cbn [existsb]; [by split|]. rewrite orb_false_iff, IH. split.
  - intros [? ?]. by constructor.
  - intros H. by apply list.Forall_cons in H.
Qed.

(** A prefix that [Encode] is called with: printable, and without capital letters. *)
Definition hrp_ok (hrp : list Z) : Prop := hrp <> [] /\ printable hrp /\ Forall (fun c => LowerCase c = c) hrp.

Lemma CreateChecksum_symbols hrp values : printable hrp -> symbols values ->
  symbols (CreateChecksum hrp values) /\ length (CreateChecksum hrp values) = 6%nat.
Proof.
  intros Hh Hv. unfold CreateChecksum. change (map _ (seq 0 6)) with (groups (Z.lxor (PolyMod ((ExpandHRP hrp ++ values) ++ replicate 6 0)) 1)).
  destruct (groups_spec (Z.lxor (PolyMod ((ExpandHRP hrp ++ values) ++ replicate 6 0)) 1)) as (? & ? & _); [|done].
  apply xor_small; [lia| |lia]. apply run_small; [|lia]. apply Forall_app. split; [apply Forall_app; split; [by apply ExpandHRP_symbols|done]|].
  apply Forall_replicate. lia.
Qed.

Lemma Encode_eq hrp values : printable hrp -> symbols values ->
  Encode hrp values = hrp ++ [49] ++ map char_of (values ++ CreateChecksum hrp values).
Proof.
  intros Hh Hv. unfold Encode. destruct (CreateChecksum_symbols hrp values Hh Hv) as [Hc _].
  assert (existsb (fun c => c >=? 32) (values ++ CreateChecksum hrp values) = false) as ->; [|done].
  apply no_exists. apply Forall_app. split; (eapply list.Forall_impl; [eassumption|]);
    intros c Hx; cbv beta in *; rewrite Z.geb_leb; apply Z.leb_gt; lia.
Qed.

Lemma lower_spec c : LowerCase c = c <-> (c >=? 65) && (c <=? 90) = false.
Proof. unfold LowerCase. destruct ((c >=? 65) && (c <=? 90)) eqn:E; [|done]. propify. split; [lia|done]. Qed.

Lemma map_chars_back l : symbols l -> map rev_char (map char_of l) = l.
Proof.
  induction 1 as [|v l Hv Hl IH]; [done|]. cbn [map]. rewrite IH. f_equal. by apply char_of_spec.
Qed.

Lemma Decode_Encode hrp values : hrp_ok hrp -> symbols values -> Z.of_nat (length hrp + length values) <= 1016 ->
  Decode (Encode hrp values) = (hrp, values).
Proof.
  intros (Hne & Hp & Hlow) Hv Hlen. rewrite Encode_eq by done.
  destruct (CreateChecksum_symbols hrp values Hp Hv) as [Hc Hcl]. set (cs := CreateChecksum hrp values) in *.
  set (data := map char_of (values ++ cs)). assert (symbols (values ++ cs)) as Hvc by (by apply Forall_app).
  assert (Forall (fun c => 33 <= c <= 126 /\ LowerCase c = c) (hrp ++ [49] ++ data)) as Hall.
  { rewrite !Forall_app. split_and!.
    - unfold printable in Hp. rewrite list.Forall_forall in *. intros c Hin. split; [by apply Hp|by apply Hlow].
    - by repeat constructor.
    - apply Forall_map. eapply list.Forall_impl; [exact Hvc|]. intros v Hx. destruct (char_of_spec v Hx) as (? & _ & _ & ?). done. }
  unfold Decode.
  assert (existsb (fun c => (c <? 33) || (c >? 126)) (hrp ++ [49] ++ data) = false) as ->.
  { apply no_exists. eapply list.Forall_impl; [exact Hall|]. intros c [Hr _]. cbv beta.
    rewrite Z.gtb_ltb. apply orb_false_iff. split; apply Z.ltb_ge; lia. }
  assert (existsb (fun c => (c >=? 65) && (c <=? 90)) (hrp ++ [49] ++ data) = false) as ->.
  { apply no_exists. eapply list.Forall_impl; [exact Hall|]. intros c [_ Hl%lower_spec]. done. }
  rewrite andb_false_r. cbn [app]. rewrite rfind_last.
  2: { unfold data. intros Hin. apply in_map_iff in Hin as (v & Ev & Hin). unfold symbols, digits_ok in Hvc.
       rewrite list.Forall_forall in Hvc. destruct (char_of_spec v) as (_ & Hn & _); [apply Hvc; by apply list_elem_of_In|done]. }
  assert (length data = length values + 6)%nat as Hdl by (unfold data; rewrite length_map, length_app; lia).
  assert (length hrp <> 0)%nat by (by destruct hrp).
  replace ((1023 <? _) || _ || _) with false.
  2: { symmetry. rewrite !orb_false_iff, Z.ltb_ge, Nat.eqb_neq, Nat.ltb_ge, length_app. cbn [length]. lia. }
  rewrite drop_app_ge by lia. replace (length hrp + 1 - length hrp)%nat with 1%nat by lia. cbn [drop]. rewrite drop_0.
  unfold data. rewrite map_chars_back by done.
  assert (existsb (fun rev => rev =? -1) (values ++ cs) = false) as ->.
  { apply no_exists. eapply list.Forall_impl; [exact Hvc|]. intros v Hx. cbv beta in *. apply Z.eqb_neq. lia. }
  rewrite take_app_length.
  assert (map LowerCase hrp = hrp) as ->.
  { clear -Hlow. induction Hlow as [|c l Hc Hl IH]; [done|]. cbn [map]. by rewrite Hc, IH. }
  assert (VerifyChecksum hrp (values ++ cs) = true) as -> by (by apply checksum_unique).
  cbn [negb]. rewrite length_app, Hcl. replace (length values + 6 - 6)%nat with (length values) by lia.
  by rewrite take_app_length.
Qed.

Lemma printable_take i s : printable s -> printable (take i s).
Proof. apply Forall_take. Qed.

(** What is decoded is the encoding of the result, in small letters. *)
Lemma Decode_only s h v : Decode s = (h, v) -> h <> [] ->
  hrp_ok h /\ symbols v /\ Encode h v = map LowerCase s.
Proof.
  unfold Decode. destruct (existsb _ s) eqn:Epr; [by intros [= <- _]|].
  assert (printable s) as Hp.
  { apply no_exists in Epr. eapply list.Forall_impl; [exact Epr|]. intros c Hc. cbv beta in *. apply orb_false_iff in Hc as [H1 H2].
    rewrite Z.gtb_ltb in H2. apply Z.ltb_ge in H1, H2. lia. }
  destruct (_ && _); [by intros [= <- _]|]. destruct (rfind s 49) as [pos|] eqn:Ef; [|by intros [= <- _]].
  destruct ((1023 <? _) || _ || _) eqn:El; [by intros [= <- _]|]. cbv zeta.
  set (values := map rev_char (drop (pos + 1) s)). destruct (existsb _ values) eqn:Ev; [by intros [= <- _]|].
  destruct (VerifyChecksum _ values) eqn:Ec; cbn [negb]; [|by intros [= <- _]].
  intros [= <- <-] Hne. rewrite !orb_false_iff, Z.ltb_ge, Nat.eqb_neq, Nat.ltb_ge in El. destruct El as [[_ Hpos] Hlen].
  destruct (rfind_some s 49 pos Ef) as [Es Hlt].
  assert (hrp_ok (map LowerCase (take pos s))) as Hok.
  { split; [done|]. split; apply Forall_map; (eapply list.Forall_impl; [by apply (printable_take pos)|]); intros c Hc; cbv beta in *.
    - unfold LowerCase. destruct ((c >=? 65) && (c <=? 90)) eqn:E; [|done]. propify. lia.
    - apply lower_spec. unfold LowerCase. destruct ((c >=? 65) && (c <=? 90)) eqn:E; [|done]. propify.
      apply andb_false_iff. rewrite Z.geb_leb. right. apply Z.leb_gt. lia. }
  assert (symbols values /\ map char_of values = map LowerCase (drop (pos + 1) s)) as [Hsym Hback].
  { unfold values in *. apply no_exists in Ev. assert (printable (drop (pos + 1) s)) as Hpd by (by apply Forall_drop).
    clear -Ev Hpd. induction Hpd as [|c l Hc Hl IH]; [by split; [constructor|]|]. cbn [map] in *.
    apply list.Forall_cons in Ev as [Hn Ev]. apply Z.eqb_neq in Hn. destruct (IH Ev) as [IH1 IH2].
    destruct (rev_char_spec c Hc) as [?|[Hr Hch]]; [done|]. split; [by constructor|]. by rewrite Hch, IH2. }
  assert (length values = length s - (pos + 1))%nat as Hvl by (unfold values; by rewrite length_map, length_drop).
  set (n := (length values - 6)%nat) in *.
  assert (symbols (take n values) /\ symbols (drop n values)) as [Hst Hsd] by (split; [by apply Forall_take|by apply Forall_drop]).
  split; [done|]. split; [done|].
  rewrite Encode_eq by (done || apply Hok).
  assert (drop n values = CreateChecksum (map LowerCase (take pos s)) (take n values)) as <-.
  { apply checksum_unique; [apply Hok|done|done|rewrite length_drop; unfold n; lia|]. by rewrite take_drop. }
  rewrite take_drop, Hback. rewrite Es at 3. by rewrite map_app.
Qed.

(** ** Errors that are found *)

Definition feedback_ok (x : Z) : bool := negb (Z.land (feedback x) 31 =? 0) || (x =? 0).

Lemma step_zero c : 0 <= c < 2 ^ 30 -> PolyMod_step c 0 = 0 -> c = 0.
Proof.
  intros Hc E. assert (0 <= Z.shiftr c 25 < 32) as Ht.
  { rewrite Z.shiftr_div_pow2 by lia. split; [apply Z.div_pos; lia|apply Z.div_lt_upper_bound; lia]. }
  assert (feedback_ok (Z.shiftr c 25) = true) as Hf by (apply (below_all feedback_ok 32); [by vm_compute|done]).
  assert (Z.land (feedback (Z.shiftr c 25)) 31 = 0) as H0.
  { rewrite PolyMod_step_eq, Z.lxor_0_r in E. apply Z.bits_inj'. intros i Hi. rewrite Z.land_spec, Z.bits_0.
    apply (f_equal (fun z => Z.testbit z i)) in E. rewrite Z.lxor_spec, Z.bits_0 in E.
    destruct (Z.lt_ge_cases i 5).
    - rewrite Z.shiftl_spec_low in E by lia. rewrite xorb_false_l in E. by rewrite E.
    - apply andb_false_iff. right. apply Z.bits_above_log2; cbn; lia. }
  unfold feedback_ok in Hf. rewrite H0 in Hf. cbn [Z.eqb negb orb] in Hf. apply Z.eqb_eq in Hf.
  rewrite Z.shiftr_div_pow2 in Hf by lia.
  assert (c < 2 ^ 25) by (pose proof (Z.div_mod c (2 ^ 25) ltac:(lia)); pose proof (Z.mod_pos_bound c (2 ^ 25) ltac:(lia)); lia).
  rewrite step_append in E; lia.
Qed.

Lemma run_zeros n : forall c, 0 <= c < 2 ^ 30 -> run c (replicate n 0) = 0 -> c = 0.
Proof.
  induction n as [|n IH]; intros c Hc E; [done|]. unfold run in *. cbn [replicate fold_left] in E.
  apply step_zero; [done|]. apply IH; [apply step_small; [done|lia]|done].
Qed.

Lemma xor_self l : xor_list l l = replicate (length l) 0.
Proof. induction l as [|x l IH]; [done|]. unfold xor_list in *. cbn [zip_with length replicate]. by rewrite IH, Z.lxor_nilpotent. Qed.

Lemma xor_list_symbols v w : symbols v -> symbols w -> symbols (xor_list v w).
Proof.
  intros Hv. revert w. induction Hv as [|x v Hx Hv IH]; intros w Hw; [constructor|].
  destruct Hw as [|y w Hy Hw]; [constructor|]. constructor; [|by apply IH]. change 32 with (2 ^ 5). apply xor_small; [lia|done|done].
Qed.

Lemma xor_zero v w : length v = length w -> Forall (fun d => d = 0) (xor_list v w) -> v = w.
Proof.
  revert w. induction v as [|x v IH]; intros [|y w] Hl H; try done. unfold xor_list in H. cbn [zip_with] in H.
  apply list.Forall_cons in H as [Hx H]. apply Z.lxor_eq in Hx as ->. f_equal. apply IH; [by injection Hl|done].
Qed.

(** Two continuations [v], [w] of the same text, followed by the same text, that both verify. *)
Lemma same_syndrome hrp pre v w post : length v = length w -> printable hrp -> symbols pre -> symbols v -> symbols w -> symbols post ->
  VerifyChecksum hrp (pre ++ v ++ post) = true -> VerifyChecksum hrp (pre ++ w ++ post) = true -> run 0 (xor_list v w) = 0.
Proof.
  intros Hl Hh Hpre Hv Hw Hpost E1%Z.eqb_eq E2%Z.eqb_eq. change PolyMod with (run 1) in E1, E2.
  rewrite !run_app in E1, E2. set (c := run (run 1 (ExpandHRP hrp)) pre) in *.
  assert (0 <= c < 2 ^ 30) as Hc.
  { apply run_small; [done|]. apply run_small; [by apply ExpandHRP_symbols|lia]. }
  apply (run_zeros (length post)); [apply run_small; [by apply xor_list_symbols|lia]|].
  assert (run 0 (xor_list v w) = Z.lxor (run c v) (run c w)) as -> by (rewrite <- run_xor by done; by rewrite Z.lxor_nilpotent).
  rewrite <- xor_self, run_xor by done. by rewrite E1, E2.
Qed.

Fixpoint stays_far (n : nat) (c : Z) : bool :=
  match n with O => true | S n => let c := PolyMod_step c 0 in (32 <=? c) && stays_far n c end.

Lemma stays_far_run n : forall c k, stays_far n c = true -> (1 <= k <= n)%nat -> 32 <= run c (replicate k 0).
Proof.
  induction n as [|n IH]; intros c k; cbn [stays_far]; [lia|]. intros [H1%Z.leb_le H2]%andb_true_iff Hk.
  destruct k as [|k]; [lia|]. unfold run in *. cbn [replicate fold_left]. destruct k as [|k]; [done|].
  apply (IH _ (S k)); [done|lia].
Qed.

(** A wrong symbol moves the state out of the reach of another one for 1022 steps. *)
Lemma symbols_far : forall x, 0 <= x < 32 -> (x =? 0) || stays_far 1022 x = true.
Proof. apply (below_all (fun x => (x =? 0) || stays_far 1022 x) 32). vm_compute. reflexivity. Qed.

End Bech32Laws.

Import bech32 Bech32Laws.

(** [C39] The checksum of an address finds any change of symbols within a window of six, and any change
    of two symbols at most 1022 places apart: two texts that both verify and differ no further are
    the same.  ([Decode] takes no text of more than 1023 characters.) *)
Theorem checksum_detects hrp pre v w post : printable hrp -> symbols pre -> symbols v -> symbols w -> symbols post ->
  length v = length w -> VerifyChecksum hrp (pre ++ v ++ post) = true -> VerifyChecksum hrp (pre ++ w ++ post) = true ->
  ((length v <= 6)%nat -> v = w) /\
  (forall x y mid x' y', v = x :: mid ++ [y] -> w = x' :: mid ++ [y'] -> (length mid < 1022)%nat -> v = w).
Proof.
  intros Hh Hpre Hv Hw Hpost Hl E1 E2.
  pose proof (same_syndrome hrp pre v w post Hl Hh Hpre Hv Hw Hpost E1 E2) as E. split.
  - intros H6. apply xor_zero; [done|]. pose proof (xor_list_symbols v w Hv Hw) as Hx.
    assert (length (xor_list v w) = length v) as Hxl by (unfold xor_list; rewrite length_zip_with; lia).
    rewrite run_zero_state in E by (done || lia).
    assert (xor_list v w = replicate (length v) 0) as ->; [|by apply Forall_replicate].
    apply (be_val_inj 32 ltac:(lia)); [done|apply Forall_replicate; lia|by rewrite Hxl, length_replicate|].
    by rewrite E, be_val_zeros.
  - intros x y mid x' y' -> -> Hmid.
    unfold symbols, digits_ok in Hv, Hw. rewrite list.Forall_cons, Forall_app, list.Forall_singleton in Hv, Hw.
    destruct Hv as (Hx & _ & Hy), Hw as (Hx' & _ & Hy').
    assert (0 <= Z.lxor x x' < 32) as Hdx by (change 32 with (2 ^ 5); apply xor_small; done || lia).
    assert (0 <= Z.lxor y y' < 32) as Hdy by (change 32 with (2 ^ 5); apply xor_small; done || lia).
    assert (xor_list (x :: mid ++ [y]) (x' :: mid ++ [y']) = Z.lxor x x' :: replicate (length mid) 0 ++ [Z.lxor y y']) as Ex.
    { unfold xor_list. cbn [zip_with]. rewrite zip_with_app by done. f_equal. by change (zip_with Z.lxor mid mid) with (xor_list mid mid); rewrite xor_self. }
    rewrite Ex in E. change (Z.lxor x x' :: replicate (length mid) 0 ++ [Z.lxor y y'])
      with ([Z.lxor x x'] ++ replicate (length mid) 0 ++ [Z.lxor y y']) in E.
    rewrite !run_app in E. unfold run at 3 in E. cbn [fold_left] in E. rewrite step_append, Z.mul_0_l, Z.add_0_l in E by lia.
    unfold run at 1 in E. cbn [fold_left] in E.
    rewrite <- (Z.lxor_0_r (run _ _)), <- (Z.lxor_0_l (Z.lxor y y')), step_xor in E.
    rewrite (step_append 0 (Z.lxor y y')), Z.mul_0_l, Z.add_0_l in E by lia.
    apply Z.lxor_eq in E.
    destruct (orb_prop _ _ (symbols_far _ Hdx)) as [H0%Z.eqb_eq|Hfar].
    + rewrite H0 in E. assert (run 0 (replicate (length mid) 0) = 0) as Hz.
      { clear. induction (length mid) as [|n IH]; [done|]. unfold run in *. cbn [replicate fold_left].
        change (PolyMod_step 0 0) with 0. exact IH. }
      rewrite Hz in E. change (PolyMod_step 0 0) with 0 in E. symmetry in E.
      apply Z.lxor_eq in H0 as ->. by apply Z.lxor_eq in E as ->.
    + exfalso. pose proof (stays_far_run 1022 _ (S (length mid)) Hfar ltac:(lia)) as Hf.
      replace (S (length mid)) with (length mid + 1)%nat in Hf by lia. rewrite replicate_add, run_app in Hf.
      unfold run at 1 in Hf. cbn [replicate fold_left] in Hf. lia.
Qed.

(** Bech32 as a code: what is encoded is decoded, and what is decoded is the encoding of the result,
    in small letters. *)
Theorem bech32_bijection hrp values s : Bech32Laws.hrp_ok hrp -> Bech32Laws.symbols values ->
  Z.of_nat (length hrp + length values) <= 1016 ->
  bech32.Decode (bech32.Encode hrp values) = (hrp, values) /\
  (forall h v, bech32.Decode s = (h, v) -> h <> [] -> bech32.Encode h v = map bech32.LowerCase s).
Proof.
  intros Hh Hv Hl. split; [by apply Bech32Laws.Decode_Encode|]. intros h v E Hne. by apply Bech32Laws.Decode_only.
Qed.

Lemma bech32_bijection_witness :
  bech32.Decode (bech32.Encode (chars "zs") [1; 2; 3]) = (chars "zs", [1; 2; 3]) /\
  bech32.Encode (chars "a") [] = map bech32.LowerCase (chars "A12UEL5L").
Proof.
  assert (Bech32Laws.hrp_ok (chars "zs")) as H1.
  { split; [done|]. split; apply (bool_decide_unpack _); vm_compute; exact I. }
  assert (Bech32Laws.symbols [1; 2; 3]) as H2 by (apply (bool_decide_unpack _); vm_compute; exact I).
  destruct (bech32_bijection (chars "zs") [1; 2; 3] (chars "A12UEL5L") H1 H2 ltac:(vm_compute; discriminate)) as [E1 E2].
  split; [exact E1|]. apply E2; [vm_compute; reflexivity|discriminate].
Defined.

Lemma checksum_detects_witness : let t := [10; 28; 25; 31; 20; 31] in
  bech32.CreateChecksum (chars "a") [] = t /\ forall w, Bech32Laws.symbols w -> length w = 6%nat ->
    bech32.VerifyChecksum (chars "a") w = true -> t = w.
Proof.
  split; [vm_compute; reflexivity|]. intros w Hw Hl E. set (t := [10; 28; 25; 31; 20; 31]).
  assert (Bech32Laws.printable (chars "a")) as H1 by (apply (bool_decide_unpack _); vm_compute; exact I).
  assert (Bech32Laws.symbols t) as H2 by (apply (bool_decide_unpack _); vm_compute; exact I).
  assert (bech32.VerifyChecksum (chars "a") ([] ++ w ++ []) = true) as H3 by (rewrite app_nil_r; exact E).
  destruct (checksum_detects (chars "a") [] t w [] H1 (Forall_nil_2 _) H2 Hw (Forall_nil_2 _) (eq_sym Hl) eq_refl H3) as [D _].
  apply D. reflexivity.
Defined.
